(* ===== verification/_CoqProject ===== *)
-Q . S2P
Prelude.v
Inet.v
Buffer.v
Effects.v
Double.v
Glib.v
IpPool.v
Acd.v
DhcpPacket.v
DhcpFrame.v
DhcpServer.v
Service.v
DhcpClient.v
DhcpClientInv.v
DhcpClientRun.v
DhcpClientProps.v
DhcpExchange.v
Stats.v
DnsMessage.v
DnsCache.v
DnsFixup.v
DnsForward.v
CText.v
WebHttp.v
WebUrl.v
Gateway.v
GatewayProps.v
Iptables.v
IptablesProps.v
IptablesChains.v
Netfilter.v
NetfilterProps.v
Firewall.v
FirewallProps.v
ResolvSort.v
Gresolv.v
GresolvProps.v
Resolver.v
ResolverProps.v
Ntp.v
NtpProps.v
Timeserver.v
TimeserverProps.v
