(* ===== verification/Prelude.v ===== *)
(** * ConnMan: a verification development

    ConnMan manages the network connections of a device.  Its daemon keeps the
    services a user can connect to, configures interfaces with addresses it
    gets by DHCP or chooses itself, hands out addresses to the devices it is
    tethered to, proxies and caches their DNS queries, and counts the traffic
    of every service.  This library models the parts of the C sources that carry this
    logic and proves what makes them correct.  Definitions keep the names of the
    sources; paths below are under src/.

    ** Files, parts and how they interact

    Support, with no logic of the program in it:
    - [Prelude]: integers of a width ([u8], [u16], [u32], [s32]) as [Z] with the
      wrap-around written out, C operators, errno values, the tactics
      [break_match] and [bool_to_prop], the hint database [connman];
    - [Inet]: byte order, [inet_aton] and [inet_ntoa];
    - [Buffer]: reading and writing memory by offset;
    - [Effects]: handlers over a state with outputs ([prog], [pprog]) and the
      specifications [sat] and [returns] of them;
    - [Double]: arithmetic of the type double, on the Standard Library's specification of floats;
    - [Glib]: the class [GLib] of what is relied on of GLib's sorted lists and hash
      tables, with a reference instance; clients are proved for every instance.

    Components:
    - [IpPool] (src/ippool.c): private /24 blocks for tethering, marked in use by
      addresses on interfaces and by pools.  Used by the code that starts the
      DHCP server.
    - [Acd] (src/acd.c, src/shared/arp.c): address conflict detection of RFC 5227
      as a state machine over timers and ARP packets.
    - [DhcpPacket] (gdhcp/common.c, gdhcp/unaligned.h, src/inet.c): DHCP packets
      and options; [DhcpFrame] (gdhcp/common.c, gdhcp/client.c): the raw
      IP/UDP frames they travel in.
    - [DhcpServer] (gdhcp/server.c): the lease table and the answers to clients.
    - [DhcpClient] (gdhcp/client.c, without DHCPv6): the client with its timers,
      sockets, retransmissions, renewals and link-local addresses;
      [DhcpClientInv]: what holds of every state it reaches; [DhcpClientRun]:
      the packets it builds and its handlers run on well-formed input;
      [DhcpClientProps]: its behaviour over whole exchanges.
    - [DhcpExchange]: client and server composed: the packets of one are the input of
      the other.
    - [Service] (src/service.c): the states of a service, the order of the
      services, the default service and the route metrics that follow from
      it, passphrases, the intervals of the online check.
    - [Stats] (src/stats.c): the ring files with the statistics of a service and
      the history they are summarised to.
    - [DnsMessage] (src/dnsproxy.c): names, records and replies of DNS;
      [DnsCache] (src/dnsproxy.c): the cache of the DNS proxy;
      [DnsFixup] (src/dnsproxy.c): replies to queries a domain was appended to;
      [DnsForward] (src/dnsproxy.c): servers, requests and the forwarding of queries and
      replies over UDP, on top of the cache.
    - [CText] (the C library's and GLib's functions on text that the HTTP client uses, those of GLib
      as the class [GText]); [WebHttp] (gweb/gweb.c): requests and responses of the HTTP client, with
      the chunked encoding; [WebUrl] (gweb/gweb.c, gweb/giognutls.c aside): URLs and the scanner of
      portal pages.
    - [Gateway] (src/gateway.c): the gateways of the services and their default routes;
      [GatewayProps]: what holds of them in every state that services and the kernel lead to.  The
      calls a service makes back while it is told of a new default are events of their own.
    - [Iptables] (src/iptables.c): tables of the kernel's packet filter as the code edits them, entries
      one after the other with offsets, jumps and hooks; [IptablesProps]: tables as chains of rules, and
      that adding and deleting a rule does to the entries what it does to the chains;
      [IptablesChains]: the same for chains, and that reading a table gives the one that was written.
    - [Netfilter] (src/iptables.c): tables read from the kernel and handed back, with the kernel and
      libxtables as interfaces; [NetfilterProps]: what each operation promises to its callers.
    - [Firewall] (src/firewall-iptables.c, src/nat.c): contexts of rules, chains of ConnMan's own,
      address translation and marks on top of [Netfilter]; [FirewallProps]: from the calls to the kernel's table.
    - [ResolvSort] (gweb/gresolv.c): the order of the addresses of a host by RFC 3484, with [qsort] as an interface;
      [Gresolv] (gweb/gresolv.c): lookups, queries, timers and name servers of the stub resolver, with libresolv and
      the kernel as parameters; [GresolvProps]: that every lookup is answered, and with what.
    - [Resolver] (src/resolver.c): the name servers of the services, with lifetimes and fallback servers, as calls of the DNS proxy
      and the content of resolv.conf; [ResolverProps]: its timers, and what the proxy is left with.
    - [Ntp] (src/ntp.c): requests to a time server, their retries, the polls and the adjustment of the clock; [NtpProps]: its timers;
      [Timeserver] (src/timeserver.c): the list of time servers and the one in use, on top of [Ntp], with the resolver as a parameter;
      [TimeserverProps]: that synchronization goes on.

    ** What the theorems show

    - Ends meet: [DhcpExchange.dhcp_exchange_binds] runs a client against a
      server with a free address to a bound lease on both sides;
      [DnsCache.cached_reply_served] takes a reply through the parser, the cache and
      the answer to a later query; [DnsForward.query_relayed] takes a query to the server and
      its reply back to the client; [DhcpFrame.dhcp_raw_roundtrip] sends a frame
      and receives it; [FirewallProps.nat_roundtrip] takes address translation to the kernel's table
      and away again; [WebHttp.response_received] reads a response however it is cut into pieces, and
      [WebHttp.upload_roundtrip] reads back what the client uploads by the calls of its main loop.
    - Invariants of all reachable states: lease table, pools, timers of the DHCP
      client and of conflict detection, DNS cache, DNS requests, lookups of the resolver
      ([GresolvProps.lookups_accounted]), timers of name servers, time servers ([TimeserverProps.synchronization_goes_on]), gateways and the routes the kernel was asked for
      ([GatewayProps.routes_tracked]).
    - Answers: requests of the DNS proxy and lookups of the resolver are answered at the latest when their timers have
      fired, while there is memory for them ([DnsForward.requests_answered], [GresolvProps.lookups_time_out]).
    - Safety: no address is assigned twice, no pool overlaps another, nothing
      expired is served from the cache, foreign packets are ignored, no read outside
      the frame.
    - Refinement and equivalence: the ring file implements a bounded list, the
      history is the newest record of every period, edits of a firewall table implement edits of
      its chains ([IptablesProps.rules_added]), the calls of the DNS proxy leave it with the servers of the
      services ([ResolverProps.proxy_has_servers]), the order of services without VPNs is a
      consistent order whose maximum is the default service, the order of addresses is that of their ranks
      ([ResolvSort.sort_results_ranked]).
    - Termination and bounds: option scans, the search for a free block and
      the decompression of names end, and a time server that is silent is given up ([NtpProps.silent_server_given_up]).
    - What a theorem assumes of memory, sockets, timers, errno and configuration stands in its comment, with the lemma that
      shows what happens without it.
    - Where the code does not do what it means to, a lemma shows it on a
      concrete input or in general; such lemmas stand under headings of their own.

    ** Conventions

    A handler that may leave its memory or not return has an [option] result, and
    [None] is that event; theorems that a handler succeeds are proved as such.
    Time, randomness, allocation, sockets and system calls are arguments of the
    handler they influence.  Calls that leave the component (packets, callbacks,
    look-ups) are outputs in the order the code makes them.

    Fuel: loops that are not structural carry fuel, and running out of it is [None].
    [IpPool.get_free_block] takes it as an argument; as many rounds as there are blocks are
    enough unless the loop does not end, which is proved too.  [DhcpPacket.scan_fuel] exceeds the
    bytes of a packet, [DhcpServer.range_fuel] the addresses of the range.
    [DnsMessage.name_fuel] covers 11 passes over a message, as 10 pointers are followed at most, and
    [DnsCache.dots_fuel] the moves possible in the name buffer ([DnsCache.dots_fuel_enough]).
    [WebHttp.decode_measure] bounds the rounds of the chunk decoder ([WebHttp.decode_loop_enough]), the
    length of the input those over header lines ([WebHttp.header_loop_enough]).
    Where a scan of the source may not end, the theorem says for which input.

    ** Not modelled

    The D-Bus interface, netlink and ioctl code, plugins, the VPN
    daemon, the command line client, storage and start-up are I/O around
    libraries and the kernel and hold little logic of their own.  Left out for their size are
    DHCPv6, IP configuration, sessions and DNS over TCP. *)

From Stdlib Require Export ZArith Lia.
From stdpp Require Export base list gmap strings numbers.

#[export] Set Default Goal Selector "!".
Open Scope Z_scope.

(** ** Machine integers

    A C integer of width [w] is a [Z]; every store into a variable of that
    width goes through one of the wrap functions below. *)

Definition u8 (z : Z) : Z := z mod 2 ^ 8.
Definition u16 (z : Z) : Z := z mod 2 ^ 16.
Definition u32 (z : Z) : Z := z mod 2 ^ 32.
Definition u64 (z : Z) : Z := z mod 2 ^ 64.
Definition s16 (z : Z) : Z := (z + 2 ^ 15) mod 2 ^ 16 - 2 ^ 15.
Definition s32 (z : Z) : Z := (z + 2 ^ 31) mod 2 ^ 32 - 2 ^ 31.

#[global] Arguments u8 : simpl never.
#[global] Arguments u16 : simpl never.
#[global] Arguments u32 : simpl never.
#[global] Arguments s32 : simpl never.

Declare Scope c_scope.
Delimit Scope c_scope with C.
Notation "x .& y" := (Z.land x y) (at level 40, left associativity) : c_scope.
Notation "x .| y" := (Z.lor x y) (at level 50, left associativity) : c_scope.
Notation "x .<< y" := (Z.shiftl x y) (at level 40, left associativity) : c_scope.
Notation "x .>> y" := (Z.shiftr x y) (at level 40, left associativity) : c_scope.
Open Scope c_scope.

(** Bitwise complement of a 32-bit unsigned value. *)
Definition u32_not (z : Z) : Z := u32 (Z.lnot z).

(** [x >> n] on [uint32_t] is undefined behaviour in C when [n >= 32]. *)
Definition u32_shr (x n : Z) : option Z :=
  if n <? 32 then Some (x .>> n) else None.

Definition UINT_MAX : Z := 2 ^ 32 - 1.

(** [errno] values returned negated by the modelled functions. *)
Definition ENOENT : Z := 2.
Definition EIO : Z := 5.
Definition ENXIO : Z := 6.
Definition ENOMEM : Z := 12.
Definition EEXIST : Z := 17.
Definition EINVAL : Z := 22.
Definition ENOMSG : Z := 42.
Definition ENOBUFS : Z := 105.
Definition EPROTO : Z := 71.
Definition EALREADY : Z := 114.
Definition EINPROGRESS : Z := 115.

(** ** Automation *)

Create HintDb connman.

(** Case analysis on the innermost boolean or option tested by the goal. *)
Ltac break_match :=
  match goal with
  | |- context [match ?x with _ => _ end] =>
      lazymatch x with
      | context [match _ with _ => _ end] => fail
      | _ => destruct x eqn:?
      end
  end.

Ltac break_match_hyp H :=
  match type of H with
  | context [match ?x with _ => _ end] =>
      lazymatch x with
      | context [match _ with _ => _ end] => fail
      | _ => destruct x eqn:?
      end
  end.

(** Turn the boolean comparisons of the context into propositions for [lia]. *)
Ltac bool_to_prop :=
  repeat match goal with
  | H : (_ && _)%bool = true |- _ => apply andb_true_iff in H as [? ?]
  | H : (_ || _)%bool = false |- _ => apply orb_false_iff in H as [? ?]
  | H : (_ && _)%bool = false |- _ => apply andb_false_iff in H
  | H : (_ || _)%bool = true |- _ => apply orb_true_iff in H
  | H : negb _ = true |- _ => apply negb_true_iff in H
  | H : negb _ = false |- _ => apply negb_false_iff in H
  | H : (_ =? _) = true |- _ => apply Z.eqb_eq in H
  | H : (_ =? _) = false |- _ => apply Z.eqb_neq in H
  | H : (_ <? _) = true |- _ => apply Z.ltb_lt in H
  | H : (_ <? _) = false |- _ => apply Z.ltb_ge in H
  | H : (_ <=? _) = true |- _ => apply Z.leb_le in H
  | H : (_ <=? _) = false |- _ => apply Z.leb_gt in H
  | H : bool_decide _ = true |- _ => apply bool_decide_eq_true_1 in H
  | H : bool_decide _ = false |- _ => apply bool_decide_eq_false_1 in H
  end.

(** ** Integer lemmas *)

Lemma u32_range z : 0 <= u32 z < 2 ^ 32.
Proof. apply Z.mod_pos_bound. lia. Qed.

Lemma u8_range z : 0 <= u8 z < 2 ^ 8.
Proof. apply Z.mod_pos_bound. lia. Qed.

Lemma u16_range z : 0 <= u16 z < 2 ^ 16.
Proof. apply Z.mod_pos_bound. lia. Qed.

Lemma u32_small z : 0 <= z < 2 ^ 32 -> u32 z = z.
Proof. apply Z.mod_small. Qed.

Lemma u64_small z : 0 <= z < 2 ^ 64 -> u64 z = z.
Proof. apply Z.mod_small. Qed.

Lemma u64_add_l a b : u64 (u64 a + b) = u64 (a + b).
Proof. apply Z.add_mod_idemp_l. lia. Qed.

Lemma u8_small z : 0 <= z < 2 ^ 8 -> u8 z = z.
Proof. apply Z.mod_small. Qed.

Lemma u16_small z : 0 <= z < 2 ^ 16 -> u16 z = z.
Proof. apply Z.mod_small. Qed.

Lemma s16_small z : - 2 ^ 15 <= z < 2 ^ 15 -> s16 z = z.
Proof. intros H. unfold s16. rewrite Z.mod_small; lia. Qed.

Lemma s32_small z : - 2 ^ 31 <= z < 2 ^ 31 -> s32 z = z.
Proof. intros ?. unfold s32. rewrite Z.mod_small; lia. Qed.

#[export] Hint Resolve u8_range u16_range u32_range : connman.

(** A byte-aligned field of an integer, as division and remainder. *)
Lemma land_field x k n :
  0 <= k -> 0 <= n ->
  (x .& (Z.ones n .<< k)) .>> k = (x / 2 ^ k) mod 2 ^ n.
Proof.
  intros Hk Hn. rewrite Z.shiftr_land, Z.shiftr_shiftl_l by lia.
  replace (k - k) with 0 by lia. rewrite Z.shiftl_0_r, Z.land_ones by lia.
  by rewrite Z.shiftr_div_pow2 by lia.
Qed.

Lemma land_mask x k n :
  0 <= k -> 0 <= n ->
  x .& (Z.ones n .<< k) = (x / 2 ^ k) mod 2 ^ n * 2 ^ k.
Proof.
  intros Hk Hn. rewrite <- Z.land_ones, <- Z.shiftr_div_pow2, <- Z.shiftl_mul_pow2 by lia.
  apply Z.bits_inj'. intros i Hi.
  rewrite Z.land_spec, !Z.shiftl_spec, Z.land_spec by lia.
  destruct (Z.ltb_spec i k).
  - by rewrite (Z.testbit_neg_r (Z.ones n)), !andb_false_r by lia.
  - rewrite Z.shiftr_spec by lia. by replace (i - k + k) with i by lia.
Qed.

(** Disjoint bits: the union is the sum. *)
Lemma lor_add a b k :
  0 <= k -> 0 <= b < 2 ^ k -> a mod 2 ^ k = 0 -> a .| b = a + b.
Proof.
  intros Hk Hb Ha. symmetry. apply Z.add_nocarry_lor.
  apply Z.bits_inj'. intros i Hi. rewrite Z.land_spec, Z.bits_0.
  destruct (Z.ltb_spec i k).
  - rewrite <- (Z.mod_pow2_bits_low a k i), Ha, Z.bits_0 by lia. done.
  - rewrite <- (Z.mod_small b (2 ^ k)), Z.mod_pow2_bits_high by lia.
    by rewrite andb_false_r.
Qed.

Lemma lor_le x y : 0 <= x -> 0 <= y -> x <= x .| y.
Proof.
  intros Hx Hy. apply Z.ldiff_le; [by apply Z.lor_nonneg|].
  apply Z.bits_inj'. intros i Hi. rewrite Z.ldiff_spec, Z.lor_spec, Z.bits_0.
  by destruct (Z.testbit x i).
Qed.

Lemma lor_range n x y :
  0 <= n -> 0 <= x < 2 ^ n -> 0 <= y < 2 ^ n -> 0 <= x .| y < 2 ^ n.
Proof.
  intros Hn Hx Hy.
  assert (E : (x .| y) mod 2 ^ n = x .| y).
  { rewrite <- Z.land_ones, Z.land_lor_distr_l, !Z.land_ones, !Z.mod_small by lia. done. }
  rewrite <- E. apply Z.mod_pos_bound. lia.
Qed.

Lemma land_range n x y : 0 <= n -> 0 <= y < 2 ^ n -> 0 <= x .& y < 2 ^ n.
Proof.
  intros Hn Hy.
  assert (E : (x .& y) mod 2 ^ n = x .& y).
  { rewrite <- Z.land_ones, <- Z.land_assoc, (Z.land_ones y), Z.mod_small by lia. done. }
  rewrite <- E. apply Z.mod_pos_bound. lia.
Qed.

(** ** List lemmas *)

(** A decidable property checked on [i .. i+n-1] by evaluation holds there. *)
Fixpoint forall_from (n : nat) (i : Z) (P : Z -> bool) : bool :=
  match n with
  | O => true
  | S n => P i && forall_from n (i + 1) P
  end.

Definition forall_below (n : nat) (P : Z -> bool) : bool := forall_from n 0 P.

Lemma forall_from_spec n P : forall i,
  forall_from n i P = true -> forall j, i <= j < i + Z.of_nat n -> P j = true.
Proof.
  induction n as [|n IH]; simpl; intros i H j Hj; [lia|].
  apply andb_true_iff in H as [H0 H].
  destruct (Z.eq_dec i j) as [<-|]; [done|]. apply (IH (i + 1)); [done|lia].
Qed.

Lemma forall_below_spec n P :
  forall_below n P = true -> forall i, 0 <= i < Z.of_nat n -> P i = true.
Proof. intros H i Hi. by apply (forall_from_spec n P 0 H). Qed.
