(* ===== verification/Inet.v ===== *)
(** * Internet addresses: the C library functions the components call

    ConnMan manipulates IPv4 addresses as text ([inet_ntoa], [inet_aton]), as
    32-bit integers in host byte order, and as 32-bit integers in network byte
    order ([htonl]/[ntohl]).  These are C library functions, modelled here
    once for all components.  The host is little endian, as on every platform
    the project is packaged for, so the byte order conversions swap bytes. *)

From Stdlib Require Import Ascii String.
From S2P Require Import Prelude.

(** ** Byte order *)

(** The [i]-th byte of a 32-bit word, least significant first. *)
Definition byte_of (x i : Z) : Z := (x / 2 ^ (8 * i)) mod 2 ^ 8.

Definition bswap32 (x : Z) : Z :=
  byte_of x 3 + 2 ^ 8 * byte_of x 2 + 2 ^ 16 * byte_of x 1 + 2 ^ 24 * byte_of x 0.

Definition htonl (x : Z) : Z := bswap32 x.
Definition ntohl (x : Z) : Z := bswap32 x.

Definition bswap16 (x : Z) : Z := byte_of x 1 + 2 ^ 8 * byte_of x 0.
Definition htons (x : Z) : Z := bswap16 x.

#[global] Arguments byte_of : simpl never.
#[global] Arguments bswap32 : simpl never.
#[global] Arguments bswap16 : simpl never.

Lemma byte_of_range x i : 0 <= byte_of x i < 2 ^ 8.
Proof. apply Z.mod_pos_bound. lia. Qed.

Ltac byte_arith :=
  unfold byte_of in *;
  change (2 ^ (8 * 0)) with 1 in *; change (2 ^ (8 * 1)) with 256 in *;
  change (2 ^ (8 * 2)) with 65536 in *; change (2 ^ (8 * 3)) with 16777216 in *;
  change (2 ^ 8) with 256 in *; change (2 ^ 16) with 65536 in *;
  change (2 ^ 24) with 16777216 in *; change (2 ^ 32) with 4294967296 in *;
  Z.div_mod_to_equations; lia.

Lemma bswap32_range x : 0 <= bswap32 x < 2 ^ 32.
Proof. unfold bswap32. byte_arith. Qed.

Lemma byte_of_compose a b c d :
  0 <= a < 2 ^ 8 -> 0 <= b < 2 ^ 8 -> 0 <= c < 2 ^ 8 -> 0 <= d < 2 ^ 8 ->
  let x := a + 2 ^ 8 * b + 2 ^ 16 * c + 2 ^ 24 * d in
  byte_of x 0 = a /\ byte_of x 1 = b /\ byte_of x 2 = c /\ byte_of x 3 = d.
Proof. intros. subst x. repeat split; byte_arith. Qed.

Lemma bytes_decompose x :
  0 <= x < 2 ^ 32 ->
  x = byte_of x 0 + 2 ^ 8 * byte_of x 1 + 2 ^ 16 * byte_of x 2 + 2 ^ 24 * byte_of x 3.
Proof. intros. byte_arith. Qed.

Lemma bswap32_involutive x : 0 <= x < 2 ^ 32 -> bswap32 (bswap32 x) = x.
Proof.
  intros Hx. unfold bswap32 at 1.
  pose proof (byte_of_compose (byte_of x 3) (byte_of x 2) (byte_of x 1)
    (byte_of x 0) (byte_of_range _ _) (byte_of_range _ _)
    (byte_of_range _ _) (byte_of_range _ _)) as (E0 & E1 & E2 & E3).
  fold (bswap32 x) in E0, E1, E2, E3. rewrite E0, E1, E2, E3.
  symmetry. by apply bytes_decompose.
Qed.

(** ** Bytes of a buffer *)

(** The four bytes of a 32-bit word in network byte order, as stored in a
    packet, and the word read back. *)
Definition be_bytes32 (x : Z) : list Z :=
  [byte_of x 3; byte_of x 2; byte_of x 1; byte_of x 0].

Definition be_bytes16 (x : Z) : list Z := [byte_of x 1; byte_of x 0].

Definition be_word32 (l : list Z) : Z :=
  match l with
  | [a; b; c; d] => a * 2 ^ 24 + b * 2 ^ 16 + c * 2 ^ 8 + d
  | _ => 0
  end.

#[global] Arguments be_bytes32 : simpl never.
#[global] Arguments be_bytes16 : simpl never.
#[global] Arguments be_word32 : simpl never.

(** [n] bytes of a buffer from an offset. *)
Definition slice (off n : nat) (l : list Z) : list Z := take n (drop off l).

(** [memcmp (a, b, n) == 0] on two slices. *)
Definition bytes_eqb (a b : list Z) : bool := bool_decide (a = b).

Definition is_byte (b : Z) : Prop := 0 <= b < 256.

(** Bytes checked by evaluation. *)
Definition all_bytes (l : list Z) : bool := forallb (fun b => (0 <=? b) && (b <? 256)) l.

Lemma all_bytes_ok l : all_bytes l = true -> Forall is_byte l.
Proof.
  induction l as [|b l IH]; simpl; intros H; [done|].
  apply andb_true_iff in H as [H Hl]. constructor; [|by apply IH].
  unfold is_byte. lia.
Qed.

Lemma be_word32_bytes x : 0 <= x < 2 ^ 32 -> be_word32 (be_bytes32 x) = x.
Proof.
  intros Hx. unfold be_word32, be_bytes32. rewrite (bytes_decompose x) at 5 by done. lia.
Qed.

Lemma be_bytes32_inj x y :
  0 <= x < 2 ^ 32 -> 0 <= y < 2 ^ 32 -> be_bytes32 x = be_bytes32 y -> x = y.
Proof.
  intros Hx Hy E. rewrite <- (be_word32_bytes x), <- (be_word32_bytes y), E; done.
Qed.

Lemma bytes_eqb_refl l : bytes_eqb l l = true.
Proof. by apply bool_decide_eq_true_2. Qed.

Lemma be_bytes32_eqb x y :
  0 <= x < 2 ^ 32 -> 0 <= y < 2 ^ 32 -> bytes_eqb (be_bytes32 x) (be_bytes32 y) = (x =? y).
Proof.
  intros Hx Hy. unfold bytes_eqb. case_bool_decide as E; symmetry.
  - apply Z.eqb_eq. by apply be_bytes32_inj.
  - apply Z.eqb_neq. congruence.
Qed.

(** ** Dotted quads *)

Definition digit_char (d : Z) : ascii := ascii_of_nat (48 + Z.to_nat d).

(** [%d] of an octet. *)
Definition octet_chars (o : Z) : list ascii :=
  if o <? 10 then [digit_char o]
  else if o <? 100 then [digit_char (o / 10); digit_char (o mod 10)]
  else [digit_char (o / 100); digit_char (o / 10 mod 10); digit_char (o mod 10)].

Definition dot : ascii := "."%char.

(** [inet_ntoa] of an address given in host byte order. *)
Definition ntoa_chars (ip : Z) : list ascii :=
  octet_chars (byte_of ip 3) ++ dot :: octet_chars (byte_of ip 2) ++
  dot :: octet_chars (byte_of ip 1) ++ dot :: octet_chars (byte_of ip 0).

Definition inet_ntoa (ip : Z) : string := string_of_list_ascii (ntoa_chars ip).

Definition digit_value (c : ascii) : option Z :=
  let n := Z.of_nat (nat_of_ascii c) in
  if (48 <=? n) && (n <=? 57) then Some (n - 48)
  else if (97 <=? n) && (n <=? 102) then Some (n - 87)
  else if (65 <=? n) && (n <=? 70) then Some (n - 55)
  else None.

Definition is_digit_in (base : Z) (c : ascii) : bool :=
  match digit_value c with Some d => d <? base | None => false end.

Fixpoint parse_digits (base acc : Z) (cs : list ascii) : Z * list ascii :=
  match cs with
  | c :: cs' =>
      match digit_value c with
      | Some d => if d <? base then parse_digits base (acc * base + d) cs' else (acc, cs)
      | None => (acc, cs)
      end
  | [] => (acc, [])
  end.

(** [strtoul (s, &end, 0)], entered on a decimal digit. *)
Definition parse_number (cs : list ascii) : Z * list ascii :=
  match cs with
  | "0"%char :: ("x"%char | "X"%char) :: c :: cs' =>
      if is_digit_in 16 c then parse_digits 16 0 (c :: cs') else parse_digits 8 0 cs
  | "0"%char :: _ => parse_digits 8 0 cs
  | _ => parse_digits 10 0 cs
  end.

Definition is_space (c : ascii) : bool :=
  let n := nat_of_ascii c in
  (n =? 32)%nat || ((9 <=? n)%nat && (n <=? 13)%nat).

(** Up to four numbers separated by dots; the last one fills the low bytes
    that are left.  [parts] counts the numbers read so far. *)
Fixpoint aton_parts (fuel : nat) (parts : Z) (acc : Z) (cs : list ascii) : option Z :=
  match fuel with
  | O => None
  | S fuel =>
      match cs with
      | c :: _ =>
          if is_digit_in 10 c then
            let '(v, rest) := parse_number cs in
            match rest with
            | "."%char :: rest' =>
                if (parts =? 3) || (255 <? v) then None
                else aton_parts fuel (parts + 1) (acc + v * 2 ^ (24 - 8 * parts)) rest'
            | _ =>
                match rest with
                | [] => if v <? 2 ^ (32 - 8 * parts) then Some (acc + v) else None
                | d :: _ =>
                    if is_space d && (v <? 2 ^ (32 - 8 * parts)) then Some (acc + v)
                    else None
                end
            end
          else None
      | [] => None
      end
  end.

(** [inet_aton], the address in host byte order; [None] when it returns 0. *)
Definition inet_aton (s : string) : option Z :=
  aton_parts 4 0 0 (list_ascii_of_string s).

Lemma parse_digits_nonneg base cs : forall acc,
  0 <= base -> 0 <= acc -> 0 <= (parse_digits base acc cs).1.
Proof.
  induction cs as [|c cs IH]; simpl; intros acc Hb Ha; [done|].
  destruct (digit_value c) as [d|] eqn:Ed; [|done]. destruct (d <? base); [|done].
  apply IH; [done|]. unfold digit_value in Ed. repeat break_match_hyp Ed; simplify_eq;
    bool_to_prop; nia.
Qed.

Lemma parse_number_nonneg cs : 0 <= (parse_number cs).1.
Proof.
  unfold parse_number. repeat break_match; apply parse_digits_nonneg; lia.
Qed.

Lemma aton_parts_range fuel : forall parts acc cs v,
  0 <= parts <= 3 -> 0 <= acc <= 2 ^ 32 - 2 ^ (32 - 8 * parts) ->
  aton_parts fuel parts acc cs = Some v -> 0 <= v < 2 ^ 32.
Proof.
  induction fuel as [|fuel IH]; intros parts acc cs v Hp Ha E; [done|].
  cbn [aton_parts] in E. destruct cs as [|c cs]; [done|].
  destruct (is_digit_in 10 c); [|done].
  pose proof (parse_number_nonneg (c :: cs)) as Hn.
  destruct (parse_number (c :: cs)) as [x rest]. cbn [fst] in Hn.
  assert (Hlast : forall b : bool,
    (if b && (x <? 2 ^ (32 - 8 * parts)) then Some (acc + x) else None) = Some v -> 0 <= v < 2 ^ 32).
  { intros b Eb. destruct b; [|done]. cbn [andb] in Eb.
    destruct (Z.ltb_spec x (2 ^ (32 - 8 * parts))); [|done]. simplify_eq. lia. }
  assert (Hdot : forall rest',
    (if (parts =? 3) || (255 <? x) then None
     else aton_parts fuel (parts + 1) (acc + x * 2 ^ (24 - 8 * parts)) rest') = Some v ->
    0 <= v < 2 ^ 32).
  { intros rest' Ed. destruct (Z.eqb_spec parts 3); [done|].
    destruct (Z.ltb_spec 255 x); [done|]. cbn [orb] in Ed. apply IH in Ed; [done|lia|].
    replace (32 - 8 * (parts + 1)) with (24 - 8 * parts) by lia.
    replace (32 - 8 * parts) with (8 + (24 - 8 * parts)) in Ha by lia.
    rewrite Z.pow_add_r in Ha by lia. assert (0 < 2 ^ (24 - 8 * parts)) by lia. nia. }
  destruct rest as [|d rest].
  - apply (Hlast true). done.
  - destruct d as [[] [] [] [] [] [] [] []];
      first [exact (Hdot rest E) | exact (Hlast true E) | exact (Hlast false E)].
Qed.

Lemma inet_aton_range s v : inet_aton s = Some v -> 0 <= v < 2 ^ 32.
Proof. apply aton_parts_range; lia. Qed.

(** ** The round trip *)

Definition dec_chars_ok (o : Z) : bool :=
  forallb (is_digit_in 10) (octet_chars o) &&
  match parse_number (octet_chars o ++ [dot]) with
  | (v, [c]) => (v =? o) && Ascii.eqb c dot
  | _ => false
  end &&
  match octet_chars o with
  | [] | "0"%char :: _ :: _ => false
  | _ => true
  end.

Lemma dec_chars_all o : 0 <= o < 256 -> dec_chars_ok o = true.
Proof.
  intros Ho. apply (forall_below_spec 256 dec_chars_ok); [|exact Ho].
  vm_compute. reflexivity.
Qed.

(** The text that may follow a number: nothing, or a dot. *)
Definition stops (cs : list ascii) : Prop :=
  match cs with [] => True | c :: _ => c = dot end.

Lemma parse_digits_app ds :
  forallb (is_digit_in 10) ds = true ->
  forall acc rest, stops rest ->
  parse_digits 10 acc (ds ++ rest) = (fst (parse_digits 10 acc ds), rest).
Proof.
  induction ds as [|c ds IH]; simpl; intros Hds acc rest Hstop.
  - destruct rest as [|r rest]; simpl in *; [done|]. by subst r.
  - unfold is_digit_in in Hds. destruct (digit_value c) as [d|]; simpl in *; [|done].
    apply andb_true_iff in Hds as [Hd Hds]. rewrite Hd. by apply IH.
Qed.

(** A decimal number without a leading zero, up to what follows it. *)
Lemma parse_number_app ds rest :
  forallb (is_digit_in 10) ds = true ->
  match ds with [] | "0"%char :: _ :: _ => false | _ => true end = true ->
  stops rest ->
  parse_number (ds ++ rest) = (fst (parse_digits 10 0 ds), rest).
Proof.
  intros Hdig Hz Hstop.
  assert (Hgen : parse_digits 10 0 (ds ++ rest) = (fst (parse_digits 10 0 ds), rest))
    by by apply parse_digits_app.
  destruct ds as [|c ds]; [done|]. simpl app in *.
  rewrite <- Hgen. clear Hgen.
  destruct c as [[] [] [] [] [] [] [] []]; try reflexivity.
  destruct ds; [|done]. simpl app.
  destruct rest as [|r rest]; simpl in Hstop; [done|by subst r].
Qed.

Lemma parse_octet o rest :
  0 <= o < 256 -> stops rest -> parse_number (octet_chars o ++ rest) = (o, rest).
Proof.
  intros Ho Hstop. pose proof (dec_chars_all o Ho) as Hok.
  unfold dec_chars_ok in Hok.
  apply andb_true_iff in Hok as [Hok Hz]. apply andb_true_iff in Hok as [Hdig Hval].
  rewrite parse_number_app in Hval |- * by (done || reflexivity).
  apply andb_true_iff in Hval as [Hv _]. apply Z.eqb_eq in Hv. by rewrite Hv.
Qed.

Lemma octet_chars_head o :
  0 <= o < 256 -> exists c cs, octet_chars o = c :: cs /\ is_digit_in 10 c = true.
Proof.
  intros Ho. pose proof (dec_chars_all o Ho) as Hok. unfold dec_chars_ok in Hok.
  destruct (octet_chars o) as [|c cs] eqn:E; [by rewrite andb_false_r in Hok|].
  exists c, cs. split; [done|]. simpl in Hok.
  by destruct (is_digit_in 10 c).
Qed.

Lemma aton_octet_dot fuel parts acc o rest :
  0 <= o < 256 -> parts <> 3 ->
  aton_parts (S fuel) parts acc (octet_chars o ++ dot :: rest) =
    aton_parts fuel (parts + 1) (acc + o * 2 ^ (24 - 8 * parts)) rest.
Proof.
  intros Ho Hp. destruct (octet_chars_head o Ho) as (c & cs & E & Hc).
  cbn [aton_parts]. rewrite parse_octet by done.
  rewrite E. cbn [app]. rewrite Hc.
  rewrite (proj2 (Z.eqb_neq parts 3)) by done.
  by rewrite (proj2 (Z.ltb_ge 255 o)) by lia.
Qed.

Lemma aton_octet_end fuel acc o :
  0 <= o < 256 -> aton_parts (S fuel) 3 acc (octet_chars o) = Some (acc + o).
Proof.
  intros Ho. destruct (octet_chars_head o Ho) as (c & cs & E & Hc).
  cbn [aton_parts]. pose proof (parse_octet o [] Ho I) as P. rewrite app_nil_r in P.
  rewrite P, E, Hc. change (2 ^ (32 - 8 * 3)) with 256.
  by rewrite (proj2 (Z.ltb_lt o 256)) by lia.
Qed.

(** Printing an address and reading it back gives the address. *)
Lemma inet_aton_ntoa ip : 0 <= ip < 2 ^ 32 -> inet_aton (inet_ntoa ip) = Some ip.
Proof.
  intros Hip. unfold inet_aton, inet_ntoa.
  rewrite list_ascii_of_string_of_list_ascii. unfold ntoa_chars.
  rewrite !aton_octet_dot by (apply byte_of_range || lia).
  rewrite aton_octet_end by apply byte_of_range.
  f_equal. rewrite (bytes_decompose ip) at 5 by done.
  simpl Z.sub. lia.
Qed.

Lemma inet_ntoa_inj a b :
  0 <= a < 2 ^ 32 -> 0 <= b < 2 ^ 32 -> inet_ntoa a = inet_ntoa b -> a = b.
Proof.
  intros Ha Hb E. pose proof (inet_aton_ntoa a Ha) as E1.
  rewrite E, inet_aton_ntoa in E1 by done. congruence.
Qed.
