(* ===== verification/Buffer.v ===== *)
(** * Buffers

    Memory the components read and write by offset: a buffer is the list of its
    bytes, a pointer into it an offset. *)

From S2P Require Import Prelude Inet.

(** Reading a byte; [None] is a read outside the buffer. *)
Definition rd (buf : list Z) (i : Z) : option Z :=
  if i <? 0 then None else buf !! Z.to_nat i.

(** [memcpy (buf + off, bytes, length bytes)], inside the buffer. *)
Definition wr (off : nat) (bytes buf : list Z) : list Z :=
  take off buf ++ bytes ++ drop (off + length bytes) buf.

Lemma rd_app_l l1 l2 i : 0 <= i < Z.of_nat (length l1) -> rd (l1 ++ l2) i = rd l1 i.
Proof.
  intros Hi. unfold rd. destruct (Z.ltb_spec i 0); [lia|]. apply lookup_app_l. lia.
Qed.

Lemma rd_app_r l1 l2 i :
  Z.of_nat (length l1) <= i -> rd (l1 ++ l2) i = rd l2 (i - Z.of_nat (length l1)).
Proof.
  intros Hi. unfold rd. destruct (Z.ltb_spec i 0); [lia|].
  destruct (Z.ltb_spec (i - Z.of_nat (length l1)) 0); [lia|].
  rewrite lookup_app_r by lia. f_equal. lia.
Qed.

Lemma rd_mid pre x l : rd (pre ++ x :: l) (Z.of_nat (length pre)) = Some x.
Proof. rewrite rd_app_r by lia. by rewrite Z.sub_diag. Qed.

Lemma rd_mid1 pre x y l : rd (pre ++ x :: y :: l) (Z.of_nat (length pre) + 1) = Some y.
Proof.
  rewrite rd_app_r by lia. by replace (_ + 1 - _) with 1 by lia.
Qed.

Lemma wr_app_mid (pre bytes rest : list Z) :
  (length bytes <= length rest)%nat ->
  wr (length pre) bytes (pre ++ rest) = pre ++ bytes ++ drop (length bytes) rest.
Proof.
  intros H. unfold wr. rewrite take_app_length, drop_app_ge by lia.
  do 3 f_equal. lia.
Qed.

Lemma length_wr off bytes buf :
  (off + length bytes <= length buf)%nat -> length (wr off bytes buf) = length buf.
Proof. intros H. unfold wr. rewrite !length_app, length_take, length_drop. lia. Qed.

Lemma length_slice_le off n (l : list Z) : (length (slice off n l) <= n)%nat.
Proof. unfold slice. rewrite length_take. lia. Qed.

Lemma length_slice off n (l : list Z) :
  (off + n <= length l)%nat -> length (slice off n l) = n.
Proof. intros H. unfold slice. rewrite length_take, length_drop. lia. Qed.

(** A field read back after a store to it, to one before it, to one behind it. *)
Lemma slice_wr_same off b pkt :
  (off <= length pkt)%nat -> slice off (length b) (wr off b pkt) = b.
Proof.
  intros H. unfold slice, wr. rewrite drop_app_length' by (rewrite length_take; lia).
  by rewrite take_app_length.
Qed.

Lemma slice_wr_after off n o b pkt :
  (o + length b <= off)%nat -> (o <= length pkt)%nat ->
  slice off n (wr o b pkt) = slice off n pkt.
Proof.
  intros H Ho. unfold slice, wr. f_equal.
  rewrite drop_app_ge by (rewrite length_take; lia).
  rewrite drop_app_ge by (rewrite length_take; lia).
  rewrite drop_drop, length_take. f_equal. lia.
Qed.

Lemma slice_agree k off n a b :
  take k a = take k b -> (off + n <= k)%nat -> slice off n a = slice off n b.
Proof.
  intros E H. unfold slice.
  assert (F : forall l : list Z, take n (drop off l) = take n (drop off (take k l))).
  { intros l. rewrite skipn_firstn_comm, take_take. f_equal. lia. }
  by rewrite (F a), (F b), E.
Qed.

Lemma slice_wr_before off n o b pkt :
  (off + n <= o)%nat -> (o <= length pkt)%nat ->
  slice off n (wr o b pkt) = slice off n pkt.
Proof.
  intros H Ho. apply (slice_agree o); [|done]. unfold wr.
  rewrite take_app_le by (rewrite length_take; lia). rewrite take_take. f_equal. lia.
Qed.

Lemma slice1_rd pkt off b : slice off 1 pkt = [b] -> rd pkt (Z.of_nat off) = Some b.
Proof.
  intros E. unfold rd. destruct (Z.ltb_spec (Z.of_nat off) 0); [lia|]. rewrite Nat2Z.id.
  unfold slice in E. destruct (drop off pkt) as [|x l] eqn:Ed; simpl in E; [done|]. simplify_eq.
  rewrite <- (Nat.add_0_r off), <- lookup_drop, Ed. done.
Qed.

(** The string in a buffer that need not be terminated, as [strncmp] sees it. *)
Fixpoint upto_nul (l : list Z) : list Z :=
  match l with
  | [] => []
  | b :: l => if b =? 0 then [] else b :: upto_nul l
  end.

Lemma upto_nul_app l tail : Forall (fun b => 0 < b < 256) l -> upto_nul (l ++ 0 :: tail) = l.
Proof.
  induction 1 as [|b l Hb _ IH]; [done|]. cbn [app upto_nul]. destruct (Z.eqb_spec b 0); [lia|]. by rewrite IH.
Qed.

Lemma upto_nul_id l : Forall (fun b => 0 < b < 256) l -> upto_nul l = l.
Proof. induction 1 as [|b l Hb _ IH]; [done|]. cbn. destruct (Z.eqb_spec b 0); [lia|]. by rewrite IH. Qed.
