(* ===== verification/Effects.v ===== *)
(** * Stateful code with outputs

    Handlers of ConnMan mutate one structure and call out: packets are sent,
    callbacks are called, properties are announced.  [prog S O A] is the type
    of such a handler over the state [S]: it returns a value of [A], the new
    state and the outputs, in order.  [stdpp]'s notation for monads is used to
    sequence them. *)

From S2P Require Import Prelude.

Definition prog (S O A : Type) : Type := S -> A * S * list O.

#[export] Instance prog_ret {S O} : MRet (prog S O) := fun A a s => (a, s, []).

#[export] Instance prog_bind {S O} : MBind (prog S O) := fun A B k m s =>
  let '(a, s1, o1) := m s in
  let '(b, s2, o2) := k a s1 in
  (b, s2, o1 ++ o2).

Definition get {S O A} (f : S -> A) : prog S O A := fun s => (f s, s, []).
Definition modify {S O} (f : S -> S) : prog S O unit := fun s => (tt, f s, []).
Definition emit {S O} (o : O) : prog S O unit := fun s => (tt, s, [o]).
Definition skip {S O} : prog S O unit := mret tt.

(** [if (c) p] *)
Definition when {S O} (c : bool) (p : prog S O unit) : prog S O unit :=
  if c then p else skip.

Definition result_of {S O A} (p : prog S O A) (s : S) : A := (p s).1.1.
Definition state_of {S O A} (p : prog S O A) (s : S) : S := (p s).1.2.
Definition outputs_of {S O A} (p : prog S O A) (s : S) : list O := (p s).2.

(** Running a list of handlers one after the other. *)
Fixpoint run_all {S O} (ps : list (prog S O unit)) : prog S O unit :=
  match ps with
  | [] => skip
  | p :: ps => p ;; run_all ps
  end.

Section bind.
Context {S O A B : Type} (m : prog S O A) (k : A -> prog S O B) (s : S).

Lemma state_of_bind : state_of (m ≫= k) s = state_of (k (result_of m s)) (state_of m s).
Proof.
  unfold result_of, state_of, mbind, prog_bind.
  destruct (m s) as [[a s1] o1]; simpl. by destruct (k a s1) as [[b s2] o2].
Qed.

Lemma outputs_of_bind :
  outputs_of (m ≫= k) s = outputs_of m s ++ outputs_of (k (result_of m s)) (state_of m s).
Proof.
  unfold result_of, state_of, outputs_of, mbind, prog_bind.
  destruct (m s) as [[a s1] o1]; simpl. by destruct (k a s1) as [[b s2] o2].
Qed.
End bind.

(** ** Handlers that may fail to return

    [None] is a handler that does not come back or that leaves the memory it
    owns: the memory-safety and termination arguments of a component are the
    theorems that its handlers are not [None]. *)

Definition pprog (S O A : Type) : Type := S -> option (A * S * list O).

#[export] Instance pprog_ret {S O} : MRet (pprog S O) := fun A a s => Some (a, s, []).

#[export] Instance pprog_bind {S O} : MBind (pprog S O) := fun A B k m s =>
  match m s with
  | None => None
  | Some (a, s1, o1) =>
      match k a s1 with
      | None => None
      | Some (b, s2, o2) => Some (b, s2, o1 ++ o2)
      end
  end.

Definition pget {S O A} (f : S -> A) : pprog S O A := fun s => Some (f s, s, []).
Definition pmodify {S O} (f : S -> S) : pprog S O unit := fun s => Some (tt, f s, []).
Definition pemit {S O} (o : O) : pprog S O unit := fun s => Some (tt, s, [o]).
Definition pskip {S O} : pprog S O unit := mret tt.

(** A pure computation that may fail to return. *)
Definition plift {S O A} (r : option A) : pprog S O A := fun s =>
  match r with
  | None => None
  | Some a => Some (a, s, [])
  end.

(** A handler that always returns, as one that may not. *)
Definition ptotal {S O A} (p : prog S O A) : pprog S O A := fun s => Some (p s).

Lemma pbind_inv {S O A B} (m : pprog S O A) (k : A -> pprog S O B) s b s2 o :
  (m ≫= k) s = Some (b, s2, o) ->
  exists a s1 o1 o2, m s = Some (a, s1, o1) /\ k a s1 = Some (b, s2, o2) /\ o = o1 ++ o2.
Proof.
  unfold mbind, pprog_bind. destruct (m s) as [[[a s1] o1]|]; [|done].
  destruct (k a s1) as [[[b' s2'] o2]|] eqn:E; [|done]. intros. simplify_eq.
  by exists a, s1, o1, o2.
Qed.

Lemma bind_run {S O A B} (m : pprog S O A) (k : A -> pprog S O B) c a c1 o1 b c2 o2 :
  m c = Some (a, c1, o1) -> k a c1 = Some (b, c2, o2) -> (m ≫= k) c = Some (b, c2, o1 ++ o2).
Proof. intros E1 E2. unfold mbind, pprog_bind. by rewrite E1, E2. Qed.

(** A step without outputs. *)
Lemma bind_next {S O A B} (m : pprog S O A) (k : A -> pprog S O B) c a c1 r :
  m c = Some (a, c1, []) -> k a c1 = r -> (m ≫= k) c = r.
Proof. intros E <-. unfold mbind, pprog_bind. rewrite E. by destruct (k a c1) as [[[? ?] ?]|]. Qed.

(** ** Specifications of handlers

    [sat m P Q]: from a state with [P] the handler, if it returns, leaves a
    state with [Q]. *)

Definition sat {S O A} (m : pprog S O A) (P : S -> Prop) (Q : A -> S -> Prop) : Prop :=
  forall s a s' o, P s -> m s = Some (a, s', o) -> Q a s'.

Section sat.
Context {S O : Type}.
Implicit Types P R : S -> Prop.

Lemma sat_ret {A} (a : A) P : sat (O := O) (mret a) P (fun b s => P s /\ b = a).
Proof. intros s b s' o HP [= <- <- _]. done. Qed.

Lemma sat_skip P : sat (O := O) pskip P (fun _ => P).
Proof. intros s b s' o HP [= <- <-]. done. Qed.

Lemma sat_bind {A B} (m : pprog S O A) (k : A -> pprog S O B) P (R : A -> S -> Prop) Q :
  sat m P R -> (forall a, sat (k a) (R a) Q) -> sat (m ≫= k) P Q.
Proof.
  intros Hm Hk s b s' o HP E. apply pbind_inv in E as (a & s1 & o1 & o2 & E1 & E2 & _).
  apply (Hk a s1 b s' o2); [|done]. by apply (Hm s a s1 o1).
Qed.

Lemma sat_get {A B} (f : S -> A) (k : A -> pprog S O B) P Q :
  (forall a, sat (k a) (fun s => P s /\ f s = a) Q) -> sat (pget f ≫= k) P Q.
Proof. intros Hk. apply (sat_bind _ _ _ (fun a s => P s /\ f s = a)); [|done]. by intros s a s' o HP [= <- <- _]. Qed.

Lemma sat_modify (f : S -> S) P R : (forall s, P s -> R (f s)) -> sat (O := O) (pmodify f) P (fun _ => R).
Proof. intros Hf s b s' o HP [= <- <-]. by apply Hf. Qed.

Lemma sat_emit (x : O) P : sat (pemit x) P (fun _ => P).
Proof. intros s b s' o HP [= <- <-]. done. Qed.

Lemma sat_lift {A} (r : option A) P : sat (O := O) (plift r) P (fun a s => P s /\ r = Some a).
Proof. intros s b s' o HP E. unfold plift in E. destruct r; simplify_eq. done. Qed.

Lemma sat_conseq {A} (m : pprog S O A) P P' (Q Q' : A -> S -> Prop) :
  sat m P' Q' -> (forall s, P s -> P' s) -> (forall a s, Q' a s -> Q a s) -> sat m P Q.
Proof. intros Hm HP HQ s a s' o H E. apply HQ, (Hm s a s' o); auto. Qed.

Lemma sat_post {A} (m : pprog S O A) P (Q Q' : A -> S -> Prop) :
  sat m P Q' -> (forall a s, Q' a s -> Q a s) -> sat m P Q.
Proof. intros Hm HQ s a s' o H E. apply HQ, (Hm s a s' o); auto. Qed.

Lemma sat_pre {A} (m : pprog S O A) P P' Q :
  sat m P' Q -> (forall s, P s -> P' s) -> sat m P Q.
Proof. intros Hm HP s a s' o H E. apply (Hm s a s' o); auto. Qed.

Lemma sat_pure {A} (m : pprog S O A) P (X : Prop) Q :
  (X -> sat m P Q) -> sat m (fun s => P s /\ X) Q.
Proof. intros Hm s a s' o [HP HX] E. by apply (Hm HX s a s' o). Qed.
End sat.

(** [returns m s Q]: from [s] the handler returns, with a value, a state and outputs for which [Q] holds. *)

Definition returns {S O A} (m : pprog S O A) (s : S) (Q : A -> S -> list O -> Prop) : Prop :=
  exists a s' o, m s = Some (a, s', o) /\ Q a s' o.

Section returns.
Context {S O : Type}.

Lemma returns_ret {A} (a : A) (s : S) (Q : A -> S -> list O -> Prop) : Q a s [] -> returns (mret a) s Q.
Proof. intros HQ. by exists a, s, []. Qed.

Lemma returns_skip (s : S) (Q : unit -> S -> list O -> Prop) : Q tt s [] -> returns pskip s Q.
Proof. apply returns_ret. Qed.

Lemma returns_bind {A B} (m : pprog S O A) (k : A -> pprog S O B) s R Q : returns m s R ->
  (forall a s1 o1, R a s1 o1 -> returns (k a) s1 (fun b s2 o2 => Q b s2 (o1 ++ o2))) -> returns (m ≫= k) s Q.
Proof.
  intros (a & s1 & o1 & E1 & HR) Hk. destruct (Hk a s1 o1 HR) as (b & s2 & o2 & E2 & HQ).
  exists b, s2, (o1 ++ o2). split; [by apply (bind_run _ _ _ a s1)|done].
Qed.

(** A step that is known. *)
Lemma returns_step {A B} (m : pprog S O A) (k : A -> pprog S O B) s a s1 Q :
  m s = Some (a, s1, []) -> returns (k a) s1 Q -> returns (m ≫= k) s Q.
Proof. intros E1 (b & s2 & o2 & E2 & HQ). exists b, s2, o2. split; [by apply (bind_next _ _ _ a s1)|done]. Qed.

Lemma returns_run {A B} (m : pprog S O A) (k : A -> pprog S O B) s a s1 o1 Q :
  m s = Some (a, s1, o1) -> returns (k a) s1 (fun b s2 o2 => Q b s2 (o1 ++ o2)) -> returns (m ≫= k) s Q.
Proof. intros E1 (b & s2 & o2 & E2 & HQ). exists b, s2, (o1 ++ o2). split; [by apply (bind_run _ _ _ a s1)|done]. Qed.

Lemma returns_emit {B} (x : O) (k : unit -> pprog S O B) s Q :
  returns (k tt) s (fun b s' o => Q b s' (x :: o)) -> returns (pemit x ≫= k) s Q.
Proof. intros (b & s' & o & E & HQ). exists b, s', (x :: o). split; [|done]. by apply (bind_run (pemit x) k s tt s [x]). Qed.

Lemma returns_conseq {A} (m : pprog S O A) s (R Q : A -> S -> list O -> Prop) :
  returns m s R -> (forall a s' o, R a s' o -> Q a s' o) -> returns m s Q.
Proof. intros (a & s' & o & E & HR) HQ. exists a, s', o. auto. Qed.

End returns.

(** Evaluate a handler whose tests have been decided. *)
Ltac run_prog :=
  cbv [mbind mret prog_bind prog_ret get modify emit skip when
       result_of state_of outputs_of] in *; cbn [fst snd app] in *.
