(* ===== verification/Double.v ===== *)
(** * Numbers of the type double

    The arithmetic of IEEE 754 with 53 bits, on the executable specification of the Standard Library, and the
    conversions of C. *)

From S2P Require Import Prelude.
From Stdlib Require Import SpecFloat.
Open Scope Z_scope.

Abbreviation double := spec_float.

Definition double_of (n : Z) : double := binary_normalize 53 1024 n 0 false.
Definition dmul : double -> double -> double := SFmul 53 1024.
Definition dadd : double -> double -> double := SFadd 53 1024.
Definition dsub : double -> double -> double := SFsub 53 1024.
Definition ddiv : double -> double -> double := SFdiv 53 1024.
Definition dlt : double -> double -> bool := SFltb.

(** A constant of the source, [n / d]. *)
Definition dconst (n d : Z) : double := ddiv (double_of n) (double_of d).

(** The conversion to an integer, towards 0. *)
Definition trunc (d : double) : Z :=
  match d with
  | S754_finite s m e => let v := Z.shiftl (Z.pos m) e in if s then - v else v
  | _ => 0
  end.
