(* ===== verification/Glib.v ===== *)
(** * What is used of GLib's containers

    GLib is not part of the repository.  [GLib] is the interface ConnMan's
    components rely on, with the documented behaviour as laws; the theorems of
    the components are proved for every implementation of it, and
    [glib_reference] shows that there is one. *)

From S2P Require Import Prelude.
From stdpp Require Import sorting list.
Open Scope Z_scope.

(** Membership in lists written out. *)
Ltac mem := rewrite ?elem_of_cons; tauto.

(** [f] compares the elements of [l] consistently: it is the sign of a total
    preorder on them. *)
Record compares {A} (f : A -> A -> Z) (l : list A) : Prop := {
  compares_total a b : a ∈ l -> b ∈ l -> f a b <= 0 \/ f b a <= 0;
  compares_trans a b c : a ∈ l -> b ∈ l -> c ∈ l -> f a b <= 0 -> f b c <= 0 -> f a c <= 0;
}.

Definition cmp_sorted {A} (f : A -> A -> Z) (l : list A) : Prop :=
  StronglySorted (fun a b => f a b <= 0) l.

Class GLib := {
  (** The list with a new element put at a place the comparison allows. *)
  g_list_insert_sorted {A} : (A -> A -> Z) -> A -> list A -> list A;
  g_list_insert_sorted_perm {A} (f : A -> A -> Z) x l :
    g_list_insert_sorted f x l ≡ₚ x :: l;
  g_list_insert_sorted_sorted {A} (f : A -> A -> Z) x l :
    compares f (x :: l) -> cmp_sorted f l -> cmp_sorted f (g_list_insert_sorted f x l);
  (** The list sorted with a comparison. *)
  g_list_sort {A} : (A -> A -> Z) -> list A -> list A;
  g_list_sort_perm {A} (f : A -> A -> Z) l : g_list_sort f l ≡ₚ l;
  g_list_sort_sorted {A} (f : A -> A -> Z) l : compares f l -> cmp_sorted f (g_list_sort f l);
  (** The pairs of a hash table in the order in which they are visited. *)
  g_hash_table_foreach {K V} `{Countable K} : gmap K V -> list (K * V);
  g_hash_table_foreach_perm {K V} `{Countable K} (m : gmap K V) :
    g_hash_table_foreach m ≡ₚ map_to_list m;
}.

(** [g_list_remove]: the first occurrence of a pointer is removed. *)
Fixpoint g_list_remove {A} `{EqDecision A} (x : A) (l : list A) : list A :=
  match l with
  | [] => []
  | y :: l => if decide (x = y) then l else y :: g_list_remove x l
  end.

(** ** A reference implementation *)

Fixpoint insert_sorted {A} (f : A -> A -> Z) (x : A) (l : list A) : list A :=
  match l with
  | [] => [x]
  | y :: l => if f x y <=? 0 then x :: y :: l else y :: insert_sorted f x l
  end.

Lemma insert_sorted_perm {A} (f : A -> A -> Z) x l : insert_sorted f x l ≡ₚ x :: l.
Proof.
  induction l as [|y l IH]; simpl; [done|]. break_match; [done|].
  rewrite IH. apply Permutation_swap.
Qed.

Lemma compares_incl {A} (f : A -> A -> Z) l l' : compares f l -> l' ⊆ l -> compares f l'.
Proof.
  intros [Ht Htr] Hi. split.
  - intros a b Ha Hb. apply Ht; by apply Hi.
  - intros a b c Ha Hb Hc. apply Htr; by apply Hi.
Qed.

Lemma insert_sorted_sorted {A} (f : A -> A -> Z) x l :
  compares f (x :: l) -> cmp_sorted f l -> cmp_sorted f (insert_sorted f x l).
Proof.
  induction l as [|y l IH]; simpl; intros Hc Hs; [repeat constructor|].
  inversion Hs as [|? ? Hl Hy]; subst.
  destruct (Z.leb_spec (f x y) 0).
  - constructor; [done|]. constructor; [done|].
    rewrite list.Forall_forall in Hy |- *. intros z Hz.
    apply (compares_trans _ _ Hc x y z); [mem|mem|mem|done|by apply Hy].
  - constructor; [apply IH; [|done]; apply (compares_incl _ _ _ Hc); intros ?; mem|].
    apply list.Forall_forall. intros z. rewrite insert_sorted_perm, elem_of_cons. intros [->|Hz].
    + destruct (compares_total _ _ Hc x y); [mem|mem|lia|done].
    + rewrite list.Forall_forall in Hy. by apply Hy.
Qed.

Fixpoint insertion_sort {A} (f : A -> A -> Z) (l : list A) : list A :=
  match l with
  | [] => []
  | x :: l => insert_sorted f x (insertion_sort f l)
  end.

Lemma insertion_sort_perm {A} (f : A -> A -> Z) l : insertion_sort f l ≡ₚ l.
Proof. induction l as [|x l IH]; simpl; [done|]. by rewrite insert_sorted_perm, IH. Qed.

Lemma insertion_sort_sorted {A} (f : A -> A -> Z) l :
  compares f l -> cmp_sorted f (insertion_sort f l).
Proof.
  induction l as [|x l IH]; intros Hc; simpl; [constructor|].
  apply insert_sorted_sorted.
  - apply (compares_incl _ _ _ Hc). intros y. by rewrite !elem_of_cons, insertion_sort_perm.
  - apply IH. apply (compares_incl _ _ _ Hc). intros y. rewrite elem_of_cons. by right.
Qed.

#[local] Instance glib_reference : GLib := {
  g_list_insert_sorted A := insert_sorted;
  g_list_insert_sorted_perm A := insert_sorted_perm;
  g_list_insert_sorted_sorted A := insert_sorted_sorted;
  g_list_sort A := insertion_sort;
  g_list_sort_perm A := insertion_sort_perm;
  g_list_sort_sorted A := insertion_sort_sorted;
  g_hash_table_foreach K V _ _ m := map_to_list m;
  g_hash_table_foreach_perm K V _ _ m := reflexivity _;
}.

(** ** Lists of pointers *)

Section remove.
Context {A : Type} `{EqDecision A}.
Implicit Types (x y : A) (l : list A).

Lemma elem_of_g_list_remove x y l :
  NoDup l -> y ∈ g_list_remove x l <-> y ∈ l /\ y <> x.
Proof.
  induction l as [|z l IH]; simpl; intros Hn; [by rewrite !elem_of_nil; tauto|].
  apply list.NoDup_cons in Hn as [Hz Hn]. rewrite elem_of_cons. case_decide as E.
  - subst z. split; [|tauto]. intros Hy. split; [by right|]. by intros ->.
  - rewrite elem_of_cons, IH by done. split; [|tauto]. intros [->|]; [|tauto]. split; [by left|done].
Qed.

Lemma NoDup_g_list_remove x l : NoDup l -> NoDup (g_list_remove x l).
Proof.
  induction l as [|z l IH]; simpl; intros Hn; [done|].
  apply list.NoDup_cons in Hn as [Hz Hn]. case_decide; [done|].
  apply list.NoDup_cons. split; [|by apply IH]. rewrite elem_of_g_list_remove by done. tauto.
Qed.

Lemma cmp_sorted_remove (f : A -> A -> Z) x l : cmp_sorted f l -> cmp_sorted f (g_list_remove x l).
Proof.
  induction l as [|z l IH]; simpl; intros Hs; [done|].
  inversion Hs as [|? ? Hl Hz]; subst. case_decide; [done|].
  constructor; [by apply IH|]. rewrite list.Forall_forall in Hz |- *. intros y Hy. apply Hz.
  clear -Hy. induction l as [|w l IH]; simpl in *; [done|]. case_decide; [by right|].
  rewrite elem_of_cons in Hy |- *. destruct Hy; [by left|right; by apply IH].
Qed.

(** The last element of a sorted list compares greatest. *)
Lemma cmp_sorted_last (f : A -> A -> Z) l x y :
  cmp_sorted f l -> last l = Some x -> y ∈ l -> y = x \/ f y x <= 0.
Proof.
  induction l as [|z l IH]; [done|]. intros Hs Hx Hy.
  inversion Hs as [|? ? Hl Hz]; subst. rewrite list.Forall_forall in Hz.
  destruct l as [|w l].
  - simpl in Hx. simplify_eq. left. by apply list_elem_of_singleton.
  - change (last (z :: w :: l)) with (last (w :: l)) in Hx.
    apply elem_of_cons in Hy as [->|Hy]; [|by apply IH].
    right. apply Hz. apply last_Some_elem_of. done.
Qed.
End remove.
