(* ===== verification/IpPool.v ===== *)
(** * The private address pool (src/ippool.c)

    Tethering and peer-to-peer sessions lease addresses out of /24 blocks of
    the three private IPv4 ranges.  [allocated_blocks] holds one
    [address_info] per block in use: those of a pool, and those of the
    addresses the kernel reports on the interfaces. *)

From S2P Require Import Prelude Inet.

Module IpPool.

(** ** Data

    A [struct address_info] lives in [allocated_blocks] from its allocation
    until it is freed, so the list carries the records themselves, each with
    its pointer: pointer equality ([it == info]) and [g_slist_remove] compare
    the pointers. *)

Definition ptr := nat.

Record address_info := mk_info {
  index : Z;
  start : Z;
  end_ : Z;
  use_count : Z;
  pool : option ptr
}.

Record connman_ippool := mk_pool {
  info : ptr;
  gateway : string;
  broadcast : string;
  start_ip : string;
  end_ip : string;
  subnet_mask : string;
  collision_cb : bool;      (** whether a callback is set *)
  user_data : Z
}.

Record state := mk_state {
  allocated_blocks : list (ptr * address_info);
  pools : gmap ptr connman_ippool;
  last_block : Z;
  next_ptr : ptr
}.

(** The values [__connman_ippool_init] stores. *)
Definition block_16_bits : Z := 0xc0a80000.
Definition block_20_bits : Z := 0xac100000.
Definition block_24_bits : Z := 0x0a000000.
Definition subnet_mask_24 : Z := 0xffffff00.

Definition __connman_ippool_init : state := mk_state [] ∅ 0 0%nat.

(** ** Operations *)

Definition get_ip (ip : Z) : string := inet_ntoa ip.

Definition next_block (block : Z) : Z :=
  let next := (block .& 0x0000ff00) .>> 8 in
  let next := next + 1 in
  if next =? 255 then
    if (block .& 0xffff0000) =? block_16_bits then block_20_bits
    else if block_20_bits <=? (block .& 0xffff0000) then
      let next := (block .& 0x00ff0000) .>> 16 in
      let next := if (16 <=? next) && (next <? 32) then next + 1 else next in
      if next =? 32 then block_24_bits
      else (block .& 0xff000000) .| (u32 (next .<< 16) .& 0x00ff0000)
    else if (block .& 0xff000000) =? block_24_bits then
      let next := (block .& 0x00ff0000) .>> 16 in
      let next := if next <? 255 then next + 1 else next in
      if next =? 255 then block_16_bits
      else (block .& 0xff000000) .| (u32 (next .<< 16) .& 0x00ff0000)
    else (block .& 0xffff0000) .| (u32 (next .<< 8) .& 0x0000ff00)
  else (block .& 0xffff0000) .| (u32 (next .<< 8) .& 0x0000ff00).

Definition in_block (i : address_info) (block : Z) : bool :=
  (start i <=? block) && (block <=? end_ i).

(** The inner [for] loop of [get_free_block]. *)
Definition collision (s : state) (block : Z) : bool :=
  existsb (fun e => in_block (snd e) block) (allocated_blocks s).

(** The [do ... while (block != last_block)] loop; [None] is out of fuel. *)
Fixpoint get_free_block_loop (fuel : nat) (s : state) (block : Z) : option Z :=
  match fuel with
  | O => None
  | S fuel =>
      if collision s block then
        let block := next_block block in
        if block =? last_block s then Some 0 else get_free_block_loop fuel s block
      else Some block
  end.

Definition get_free_block (fuel : nat) (s : state) : option Z :=
  get_free_block_loop fuel s
    (if last_block s =? 0 then block_16_bits else last_block s).

Definition lookup_info (s : state) (idx st : Z) : option (ptr * address_info) :=
  find (fun e => (index (snd e) =? idx) && (start (snd e) =? st)) (allocated_blocks s).

Definition is_private_address (address : Z) : bool :=
  let a := (address .& 0xff000000) .>> 24 in
  let b := (address .& 0x00ff0000) .>> 16 in
  (a =? 10) || ((a =? 192) && (b =? 168)) || ((a =? 172) && ((16 <=? b) && (b <=? 31))).

Definition set_use_count (n : Z) (i : address_info) : address_info :=
  mk_info (index i) (start i) (end_ i) n (pool i).

(** Store through an [address_info] pointer. *)
Definition update_info (p : ptr) (f : address_info -> address_info)
    (l : list (ptr * address_info)) : list (ptr * address_info) :=
  map (fun e => if Nat.eqb (fst e) p then (fst e, f (snd e)) else e) l.

Definition g_slist_remove (p : ptr) (l : list (ptr * address_info)) :
    list (ptr * address_info) :=
  List.filter (fun e => negb (Nat.eqb (fst e) p)) l.

Definition set_blocks (l : list (ptr * address_info)) (s : state) : state :=
  mk_state l (pools s) (last_block s) (next_ptr s).

(** The last loop of [__connman_ippool_newaddr]: the pool whose
    [collision_cb] is called, if any. *)
Fixpoint first_collision (s : state) (p : ptr) (st : Z)
    (l : list (ptr * address_info)) : option ptr :=
  match l with
  | [] => None
  | (q, it) :: l =>
      if Nat.eqb q p then first_collision s p st l
      else if negb ((start it <=? st) && (st <=? end_ it)) then first_collision s p st l
      else match pool it with
           | Some pl =>
               match pools s !! pl with
               | Some d => if collision_cb d then Some pl else None
               | None => None
               end
           | None => None
           end
  end.

(** The part after [update:]. *)
Definition newaddr_update (s : state) (p : ptr) (i : address_info) :
    state * option ptr :=
  let count := u32 (use_count i + 1) in
  let s := set_blocks (update_info p (set_use_count count) (allocated_blocks s)) s in
  if (1 <? count) || bool_decide (pool i <> None) then (s, None)
  else (s, first_collision s p (start i) (allocated_blocks s)).

(** [alloc] says whether [g_try_new0] succeeds.  The second component is the
    pool whose collision callback is called. *)
Definition __connman_ippool_newaddr (alloc : bool) (idx : Z) (address : string)
    (prefixlen : Z) (s : state) : state * option ptr :=
  match inet_aton address with
  | None => (s, None)
  | Some st =>
      if negb (is_private_address st) then (s, None)
      else
        let mask := if 32 <=? prefixlen then 0xffffffff
                    else u32_not (0xffffffff .>> prefixlen) in
        let st := st .& mask in
        let en := st .| u32_not mask in
        match lookup_info s idx st with
        | Some (p, i) => newaddr_update s p i
        | None =>
            if negb alloc then (s, None)
            else
              let p := next_ptr s in
              let i := mk_info idx st en 0 None in
              newaddr_update
                (mk_state ((p, i) :: allocated_blocks s) (pools s) (last_block s) (S p))
                p i
        end
  end.

(** [None] when the C code has undefined behaviour. *)
Definition __connman_ippool_deladdr (idx : Z) (address : string)
    (prefixlen : Z) (s : state) : option state :=
  match inet_aton address with
  | None => Some s
  | Some st =>
      if negb (is_private_address st) then Some s
      else
        match u32_shr 0xffffffff prefixlen with
        | None => None
        | Some m =>
            let st := st .& u32_not m in
            match lookup_info s idx st with
            | None => Some s
            | Some (p, i) =>
                let count := u32 (use_count i - 1) in
                let l := update_info p (set_use_count count) (allocated_blocks s) in
                if bool_decide (pool i <> None) then Some (set_blocks l s)
                else if 0 <? count then Some (set_blocks l s)
                else Some (set_blocks (g_slist_remove p l) s)
            end
        end
  end.

(** [pool_ok] and [info_ok] say whether the two [g_try_new0] succeed; the
    result is [None] when [get_free_block] does not return within [fuel]
    rounds, and otherwise holds the new pool, or [None] for [NULL]. *)
Definition __connman_ippool_create (fuel : nat) (pool_ok info_ok : bool)
    (idx st range : Z) (cb : bool) (data : Z) (s : state) : option (state * option ptr) :=
  if 254 <? u32 (st + range) then Some (s, None)
  else
    match get_free_block fuel s with
    | None => None
    | Some block =>
        if block =? 0 then Some (s, None)
        else if negb pool_ok then Some (s, None)
        else if negb info_ok then Some (s, None)
        else
          let q := next_ptr s in
          let p := S q in
          let i := mk_info idx block (u32 (block + range)) 0 (Some q) in
          let range := if range =? 0 then 1 else range in
          let pl := mk_pool p (get_ip (u32 (start i + 1))) (get_ip (u32 (start i + 255)))
                      (get_ip (u32 (block + st))) (get_ip (u32 (block + st + range)))
                      (get_ip subnet_mask_24) cb data in
          Some (mk_state ((p, i) :: allocated_blocks s) (<[q := pl]> (pools s)) block (S p),
                Some q)
    end.

Definition __connman_ippool_free (q : option ptr) (s : state) : state :=
  match q with
  | None => s
  | Some q =>
      match pools s !! q with
      | None => s
      | Some pl =>
          mk_state (g_slist_remove (info pl) (allocated_blocks s))
            (delete q (pools s)) (last_block s) (next_ptr s)
      end
  end.

Definition __connman_ippool_cleanup (s : state) : state :=
  mk_state [] (pools s) 0 (next_ptr s).

(** ** The enumeration of the blocks

    [next_block] walks through [block_count] blocks: 255 of 192.168/16, 16
    times 255 of 172.16/12 and 255 times 255 of 10/8. *)

Definition block_count : Z := 272 * 255.

(** [next_block] on the four octets of a block. *)
Definition compose (a b c : Z) : Z := a * 2 ^ 24 + b * 2 ^ 16 + c * 2 ^ 8.

Definition octet (x : Z) : Prop := 0 <= x < 256.

Lemma compose_fields a b c :
  octet a -> octet b -> octet c ->
  (compose a b c .& 0x0000ff00) .>> 8 = c /\
  (compose a b c .& 0x00ff0000) .>> 16 = b /\
  compose a b c .& 0xffff0000 = compose a b 0 /\
  compose a b c .& 0xff000000 = compose a 0 0.
Proof.
  unfold octet. intros Ha Hb Hc.
  change 0x0000ff00 with (Z.ones 8 .<< 8). change 0x00ff0000 with (Z.ones 8 .<< 16).
  change 0xffff0000 with (Z.ones 16 .<< 16). change 0xff000000 with (Z.ones 8 .<< 24).
  rewrite !land_field, !land_mask by lia. unfold compose.
  change (2 ^ 24) with 16777216. change (2 ^ 16) with 65536. change (2 ^ 8) with 256.
  repeat split; Z.div_mod_to_equations; lia.
Qed.

Lemma compose_lor_8 a b c :
  octet a -> octet b -> octet c ->
  compose a b 0 .| (u32 (c .<< 8) .& 0x0000ff00) = compose a b c.
Proof.
  unfold octet. intros Ha Hb Hc. change 0x0000ff00 with (Z.ones 8 .<< 8).
  rewrite land_mask, Z.shiftl_mul_pow2 by lia.
  rewrite u32_small by lia. rewrite Z.div_mul, Z.mod_small by lia.
  rewrite (lor_add _ _ 16); unfold compose; [lia..|].
  change (2 ^ 24) with 16777216. change (2 ^ 16) with 65536.
  Z.div_mod_to_equations; lia.
Qed.

Lemma compose_lor_16 a b :
  octet a -> octet b ->
  compose a 0 0 .| (u32 (b .<< 16) .& 0x00ff0000) = compose a b 0.
Proof.
  unfold octet. intros Ha Hb. change 0x00ff0000 with (Z.ones 8 .<< 16).
  rewrite land_mask, Z.shiftl_mul_pow2 by lia.
  rewrite u32_small by lia. rewrite Z.div_mul, Z.mod_small by lia.
  rewrite (lor_add _ _ 24); unfold compose; [lia..|].
  change (2 ^ 24) with 16777216. Z.div_mod_to_equations; lia.
Qed.

(** Within a run of 255 blocks the third octet is incremented. *)
Lemma next_block_inner a b c :
  octet a -> octet b -> 0 <= c < 254 -> next_block (compose a b c) = compose a b (c + 1).
Proof.
  unfold octet. intros Ha Hb Hc. unfold next_block.
  destruct (compose_fields a b c) as (E1 & E2 & E3 & E4); [unfold octet; lia..|].
  rewrite E1, E3. destruct (Z.eqb_spec (c + 1) 255); [lia|].
  apply compose_lor_8; unfold octet; lia.
Qed.

(** At the end of a run the block that follows is given by the first two octets. *)
Lemma next_block_end b :
  next_block (compose 192 168 254) = block_20_bits /\
  (16 <= b < 31 -> next_block (compose 172 b 254) = compose 172 (b + 1) 0) /\
  next_block (compose 172 31 254) = block_24_bits /\
  (0 <= b < 254 -> next_block (compose 10 b 254) = compose 10 (b + 1) 0) /\
  next_block (compose 10 254 254) = block_16_bits.
Proof.
  repeat split; intros.
  - unfold next_block.
    destruct (compose_fields 172 b 254) as (E1 & E2 & E3 & E4); [unfold octet; lia..|].
    rewrite E1, E2, E3, E4. simpl (254 + 1 =? 255). cbv iota.
    unfold block_16_bits, block_20_bits.
    destruct (Z.eqb_spec (compose 172 b 0) 3232235520); [unfold compose in *; lia|].
    destruct (Z.leb_spec 2886729728 (compose 172 b 0)); [|unfold compose in *; lia].
    destruct (Z.leb_spec 16 b); [|lia]. destruct (Z.ltb_spec b 32); [|lia].
    simpl andb. cbv iota. destruct (Z.eqb_spec (b + 1) 32); [lia|].
    apply compose_lor_16; unfold octet; lia.
  - unfold next_block.
    destruct (compose_fields 10 b 254) as (E1 & E2 & E3 & E4); [unfold octet; lia..|].
    rewrite E1, E2, E3, E4. simpl (254 + 1 =? 255). cbv iota.
    unfold block_16_bits, block_20_bits.
    destruct (Z.eqb_spec (compose 10 b 0) 3232235520); [unfold compose in *; lia|].
    destruct (Z.leb_spec 2886729728 (compose 10 b 0)); [unfold compose in *; lia|].
    change (compose 10 0 0 =? block_24_bits) with true. cbv iota.
    destruct (Z.ltb_spec b 255); [|lia].
    destruct (Z.eqb_spec (b + 1) 255); [lia|].
    apply compose_lor_16; unfold octet; lia.
Qed.

(** The first two octets of the [q]-th run of 255 blocks. *)
Definition run_a (q : Z) : Z := if q =? 0 then 192 else if q <? 17 then 172 else 10.
Definition run_b (q : Z) : Z := if q =? 0 then 168 else if q <? 17 then 15 + q else q - 17.

Definition nth_block (i : Z) : Z :=
  compose (run_a (i / 255)) (run_b (i / 255)) (i mod 255).

Lemma run_octets q : 0 <= q < 272 -> octet (run_a q) /\ octet (run_b q).
Proof. unfold run_a, run_b, octet. repeat case_match; bool_to_prop; lia. Qed.

Lemma next_block_run q :
  0 <= q < 272 ->
  next_block (compose (run_a q) (run_b q) 254) =
    compose (run_a ((q + 1) mod 272)) (run_b ((q + 1) mod 272)) 0.
Proof.
  intros Hq. destruct (next_block_end (run_b q)) as (E1 & E2 & E3 & E4 & E5).
  destruct (Z.eq_dec q 0) as [->|]; [exact E1|].
  destruct (Z.eq_dec q 16) as [->|]; [exact E3|].
  destruct (Z.eq_dec q 271) as [->|]; [exact E5|].
  rewrite Z.mod_small by lia. unfold run_a, run_b in *.
  destruct (Z.eqb_spec q 0); [lia|]. destruct (Z.eqb_spec (q + 1) 0); [lia|].
  destruct (Z.ltb_spec q 17), (Z.ltb_spec (q + 1) 17); try lia.
  - rewrite E2 by lia. f_equal; lia.
  - rewrite E4 by lia. f_equal; lia.
Qed.

(** The walk of [next_block] is the cycle [nth_block]. *)
Lemma next_block_nth i :
  0 <= i < block_count -> next_block (nth_block i) = nth_block ((i + 1) mod block_count).
Proof.
  unfold block_count. intros Hi. unfold nth_block.
  assert (Hq : 0 <= i / 255 < 272) by (Z.div_mod_to_equations; lia).
  pose proof (Z.mod_pos_bound i 255 eq_refl) as Hr.
  destruct (Z.eq_dec (i mod 255) 254) as [E|].
  - rewrite E, next_block_run by done.
    replace ((i + 1) mod (272 * 255) / 255) with ((i / 255 + 1) mod 272)
      by (Z.div_mod_to_equations; lia).
    by replace ((i + 1) mod (272 * 255) mod 255) with 0 by (Z.div_mod_to_equations; lia).
  - destruct (run_octets _ Hq). rewrite next_block_inner by (done || lia).
    replace ((i + 1) mod (272 * 255) / 255) with (i / 255) by (Z.div_mod_to_equations; lia).
    by replace ((i + 1) mod (272 * 255) mod 255) with (i mod 255 + 1)
      by (Z.div_mod_to_equations; lia).
Qed.

Lemma nth_block_shape i :
  0 <= i < block_count ->
  block_24_bits <= nth_block i /\ nth_block i + 255 < 2 ^ 32 /\ nth_block i mod 256 = 0.
Proof.
  unfold nth_block, block_count, block_24_bits, compose. intros Hi.
  assert (Hq : 0 <= i / 255 < 272) by (Z.div_mod_to_equations; lia).
  pose proof (Z.mod_pos_bound i 255 eq_refl) as Hr.
  unfold run_a, run_b. split_and!; repeat case_match; bool_to_prop; try lia;
    change (2 ^ 24) with (65536 * 256); change (2 ^ 16) with (256 * 256); change (2 ^ 8) with 256;
    rewrite !Z.mul_assoc, <- !Z.mul_add_distr_r; by rewrite Z.mod_mul.
Qed.

Lemma nth_block_inj i j :
  0 <= i < block_count -> 0 <= j < block_count -> nth_block i = nth_block j -> i = j.
Proof.
  unfold nth_block, block_count, compose. intros Hi Hj E.
  assert (Hq : 0 <= i / 255 < 272) by (Z.div_mod_to_equations; lia).
  assert (Hq' : 0 <= j / 255 < 272) by (Z.div_mod_to_equations; lia).
  pose proof (Z.mod_pos_bound i 255 eq_refl) as Hr.
  pose proof (Z.mod_pos_bound j 255 eq_refl) as Hr'.
  rewrite (Z.div_mod i 255), (Z.div_mod j 255) by lia.
  unfold run_a, run_b in E.
  enough (i / 255 = j / 255 /\ i mod 255 = j mod 255) as [-> ->] by done.
  repeat case_match; bool_to_prop; lia.
Qed.

(** ** The search for a free block *)

Definition all_taken (s : state) : Prop :=
  forall i, 0 <= i < block_count -> collision s (nth_block i) = true.

Definition walk (i k : Z) : Z := nth_block ((i + k) mod block_count).

(** [r] is the first block of the walk from index [i] that no entry covers. *)
Definition first_free (s : state) (i r : Z) : Prop :=
  exists k, 0 <= k < block_count /\ r = walk i k /\ collision s r = false /\
    forall j, 0 <= j < k -> collision s (walk i j) = true.

Lemma walk_next i k : next_block (walk i k) = walk i (k + 1).
Proof.
  unfold walk. rewrite next_block_nth by (apply Z.mod_pos_bound; done).
  by rewrite Zplus_mod_idemp_l, Z.add_assoc.
Qed.

Lemma walk_0 i : 0 <= i < block_count -> walk i 0 = nth_block i.
Proof. intros. unfold walk. by rewrite Z.add_0_r, Z.mod_small. Qed.

Lemma walk_wrap i : walk i block_count = walk i 0.
Proof.
  unfold walk. f_equal. rewrite Z.add_0_r, Z.add_mod, Z.mod_same, Z.add_0_r by done.
  by rewrite Z.mod_mod.
Qed.

Lemma walk_shape i k : block_24_bits <= walk i k.
Proof. apply nth_block_shape. apply Z.mod_pos_bound. done. Qed.

Lemma walk_inj i j k :
  0 <= j < block_count -> 0 <= k < block_count -> walk i j = walk i k -> j = k.
Proof.
  intros Hj Hk E. apply nth_block_inj in E; [|apply Z.mod_pos_bound; done..].
  unfold block_count in *. Z.div_mod_to_equations. lia.
Qed.

(** Every block is on the walk, wherever it starts. *)
Lemma walk_covers i j : 0 <= j < block_count -> nth_block j = walk i ((j - i) mod block_count).
Proof.
  intros Hj. unfold walk. rewrite Zplus_mod_idemp_r.
  replace (i + (j - i)) with j by lia. by rewrite Z.mod_small.
Qed.

Lemma all_taken_at s i k : all_taken s -> collision s (walk i k) = true.
Proof. intros H. apply H, Z.mod_pos_bound. done. Qed.

Lemma all_taken_walk s i :
  (forall j, 0 <= j < block_count -> collision s (walk i j) = true) -> all_taken s.
Proof.
  intros H j Hj. rewrite (walk_covers i) by done. apply H, Z.mod_pos_bound. done.
Qed.

(** The loop, entered on the [k]-th block of the walk with the blocks before
    it taken: it stops in at most [block_count - k] rounds. *)
Lemma get_free_block_loop_spec s i fuel : forall k,
  0 <= k < block_count -> block_count - k <= Z.of_nat fuel ->
  (forall j, 0 <= j < k -> collision s (walk i j) = true) ->
  last_block s = walk i 0 \/ (last_block s = 0 /\ ~ all_taken s) ->
  exists r, get_free_block_loop fuel s (walk i k) = Some r /\
    ((r = 0 /\ all_taken s) \/ first_free s i r).
Proof.
  induction fuel as [|fuel IH]; intros k Hk Hfuel Hbefore Hlast; [lia|].
  cbn [get_free_block_loop]. destruct (collision s (walk i k)) eqn:Hc.
  - rewrite walk_next.
    assert (Hbefore' : forall j, 0 <= j < k + 1 -> collision s (walk i j) = true).
    { intros j Hj. destruct (Z.eq_dec j k) as [->|]; [done|]. apply Hbefore. lia. }
    destruct (Z.eq_dec (k + 1) block_count) as [E|].
    + assert (Ht : all_taken s) by (apply (all_taken_walk s i); by rewrite <- E).
      destruct Hlast as [Hlast|[_ Hn]]; [|by destruct Hn].
      rewrite E, walk_wrap, Hlast, Z.eqb_refl. by eauto.
    + destruct (Z.eqb_spec (walk i (k + 1)) (last_block s)) as [E|];
        [|apply IH; (done || lia)].
      destruct Hlast as [Hlast|[Hlast _]]; rewrite Hlast in E.
      * apply walk_inj in E; unfold block_count in *; lia.
      * pose proof (walk_shape i (k + 1)). unfold block_24_bits in *. lia.
  - exists (walk i k). split; [done|]. right. exists k. done.
Qed.

(** With a last block on the walk, or with none and a free block somewhere,
    the search returns in at most [block_count] rounds. *)
Lemma get_free_block_returns s i fuel :
  0 <= i < block_count -> block_count <= Z.of_nat fuel ->
  last_block s = nth_block i \/ (last_block s = 0 /\ i = 0 /\ ~ all_taken s) ->
  exists r, get_free_block fuel s = Some r /\
    ((r = 0 /\ all_taken s) \/ first_free s i r).
Proof.
  intros Hi Hfuel Hlast. unfold get_free_block.
  assert (Hstart : (if last_block s =? 0 then block_16_bits else last_block s) = walk i 0).
  { rewrite walk_0 by done. destruct Hlast as [E|(E & -> & _)]; rewrite E; [|done].
    destruct (nth_block_shape i Hi) as (? & _). unfold block_24_bits in *.
    by destruct (Z.eqb_spec (nth_block i) 0); [lia|]. }
  rewrite Hstart. apply get_free_block_loop_spec; [unfold block_count; lia|lia|lia|].
  destruct Hlast as [E|(E & _ & Hn)]; [left; by rewrite walk_0|by right].
Qed.

Lemma get_free_block_loop_diverges s i fuel : forall k,
  last_block s = 0 -> all_taken s -> get_free_block_loop fuel s (walk i k) = None.
Proof.
  induction fuel as [|fuel IH]; intros k Hlast Ht; [done|].
  cbn [get_free_block_loop].
  rewrite all_taken_at, walk_next, Hlast by done.
  destruct (Z.eqb_spec (walk i (k + 1)) 0) as [E|]; [|by apply IH].
  pose proof (walk_shape i (k + 1)). unfold block_24_bits in *. lia.
Qed.

(** ** The invariant of the pool state *)

Definition block_ok (i : address_info) : Prop :=
  0 <= start i /\ start i <= end_ i /\ end_ i < 2 ^ 32.

(** What is said of an [address_info] that does not depend on [use_count]. *)
Definition same_block (i j : address_info) : Prop :=
  index i = index j /\ start i = start j /\ end_ i = end_ j /\ pool i = pool j.

Definition pool_block (i : address_info) : Prop :=
  (exists n, 0 <= n < block_count /\ start i = nth_block n) /\ end_ i <= start i + 254.

(** The texts a pool hands out, in terms of its block [b]. *)
Definition pool_texts (pl : connman_ippool) (b : Z) : Prop :=
  gateway pl = get_ip (b + 1) /\ broadcast pl = get_ip (b + 255) /\
  subnet_mask pl = get_ip subnet_mask_24 /\
  exists lo hi, 0 <= lo < hi /\ hi <= 255 /\
    start_ip pl = get_ip (b + lo) /\ end_ip pl = get_ip (b + hi).

Record wf (s : state) : Prop := {
  wf_nodup : NoDup (map fst (allocated_blocks s));
  wf_fresh : forall p i, (p, i) ∈ allocated_blocks s -> (p < next_ptr s)%nat;
  wf_fresh_pool : forall q pl, pools s !! q = Some pl -> (q < next_ptr s)%nat;
  wf_last : last_block s = 0 \/ exists n, 0 <= n < block_count /\ last_block s = nth_block n;
  wf_block : forall p i, (p, i) ∈ allocated_blocks s -> block_ok i;
  wf_pool : forall p i q, (p, i) ∈ allocated_blocks s -> pool i = Some q ->
    pool_block i /\
    exists pl, pools s !! q = Some pl /\ info pl = p /\ pool_texts pl (start i);
  wf_info : forall q pl, pools s !! q = Some pl ->
    exists i, (info pl, i) ∈ allocated_blocks s /\ pool i = Some q;
  wf_distinct : forall p1 i1 p2 i2,
    (p1, i1) ∈ allocated_blocks s -> (p2, i2) ∈ allocated_blocks s ->
    pool i1 <> None -> pool i2 <> None -> start i1 = start i2 -> p1 = p2
}.

Lemma wf_init : wf __connman_ippool_init.
Proof.
  split; simpl; try (intros * H; by apply elem_of_nil in H); try done.
  - by constructor.
  - by left.
Qed.

Lemma wf_functional s p i j :
  wf s -> (p, i) ∈ allocated_blocks s -> (p, j) ∈ allocated_blocks s -> i = j.
Proof.
  intros W Hi Hj. pose proof (wf_nodup _ W) as Hnd.
  induction (allocated_blocks s) as [|[q k] l IH]; [by apply elem_of_nil in Hi|].
  simpl in Hnd. apply list.NoDup_cons in Hnd as [Hq Hnd].
  assert (Hin : forall x, (q, x) ∉ l).
  { intros x Hx. apply Hq. apply (list_elem_of_fmap_2 fst) in Hx. exact Hx. }
  apply elem_of_cons in Hi, Hj.
  destruct Hi as [Ei|Hi], Hj as [Ej|Hj]; simplify_eq; [done|..].
  - by destruct (Hin j).
  - by destruct (Hin i).
  - by apply IH.
Qed.

Lemma elem_of_update_count p n l q j :
  (q, j) ∈ update_info p (set_use_count n) l -> exists i, (q, i) ∈ l /\ same_block j i.
Proof.
  intros ([r i] & E & Hi)%list_elem_of_fmap. simpl in E.
  destruct (Nat.eqb_spec r p); simplify_eq; eexists; split; by eauto.
Qed.

Lemma elem_of_update_count_2 p n l q i :
  (q, i) ∈ l -> exists j, (q, j) ∈ update_info p (set_use_count n) l /\ same_block j i.
Proof.
  intros H. destruct (Nat.eqb_spec q p) as [->|Hne].
  - exists (set_use_count n i). split; [|done].
    apply list_elem_of_fmap. exists (p, i). simpl. by rewrite Nat.eqb_refl.
  - exists i. split; [|done]. apply list_elem_of_fmap. exists (q, i). simpl.
    by rewrite (proj2 (Nat.eqb_neq q p)).
Qed.

Lemma map_fst_update_info p f l : map fst (update_info p f l) = map fst l.
Proof.
  unfold update_info. rewrite map_map. apply map_ext. intros [q i]. simpl.
  by destruct (Nat.eqb q p).
Qed.

Lemma elem_of_remove p l e : e ∈ g_slist_remove p l <-> e ∈ l /\ fst e <> p.
Proof.
  unfold g_slist_remove. rewrite !list_elem_of_In, filter_In.
  by rewrite negb_true_iff, Nat.eqb_neq.
Qed.

Lemma NoDup_remove p l : NoDup (map fst l) -> NoDup (map fst (g_slist_remove p l)).
Proof.
  induction l as [|[q i] l IH]; simpl; [done|]. intros [Hq Hnd]%list.NoDup_cons.
  destruct (Nat.eqb q p); simpl; [by apply IH|]. apply list.NoDup_cons. split; [|by apply IH].
  intros ([q' j] & E & Hj)%list_elem_of_fmap. simpl in E. subst q'.
  apply elem_of_remove in Hj as [Hj _]. apply Hq.
  apply list_elem_of_fmap. by exists (q, j).
Qed.

(** Changing use counts preserves the invariant. *)
Lemma wf_update_count s p n :
  wf s -> wf (set_blocks (update_info p (set_use_count n) (allocated_blocks s)) s).
Proof.
  intros W. split; simpl.
  - rewrite map_fst_update_info. apply W.
  - intros q j (i & Hi & _)%elem_of_update_count. by eapply wf_fresh.
  - apply W.
  - apply W.
  - intros q j (i & Hi & _ & E1 & E2 & _)%elem_of_update_count.
    pose proof (wf_block _ W _ _ Hi) as B. unfold block_ok in *. by rewrite E1, E2.
  - intros q j r (i & Hi & _ & E1 & E2 & E3)%elem_of_update_count Hr.
    unfold pool_block. rewrite E1, E2. apply (wf_pool _ W _ i r Hi). congruence.
  - intros q pl Hq. destruct (wf_info _ W _ _ Hq) as (i & Hi & Hp).
    destruct (elem_of_update_count_2 p n _ _ _ Hi) as (j & Hj & _ & _ & _ & E).
    exists j. split; [done|congruence].
  - intros p1 i1 p2 i2 (j1 & H1 & _ & E1 & _ & F1)%elem_of_update_count
      (j2 & H2 & _ & E2 & _ & F2)%elem_of_update_count.
    rewrite E1, E2, F1, F2. eauto using wf_distinct.
Qed.

(** A new entry that belongs to no pool. *)
Lemma wf_add_addr s i :
  wf s -> block_ok i -> pool i = None ->
  wf (mk_state ((next_ptr s, i) :: allocated_blocks s) (pools s) (last_block s)
        (S (next_ptr s))).
Proof.
  intros W Hi Hp. split; simpl.
  - apply list.NoDup_cons. split; [|apply W].
    intros ([q j] & E & Hj)%list_elem_of_fmap. simpl in E. subst q.
    apply (wf_fresh _ W) in Hj. lia.
  - intros q j [|Hj]%elem_of_cons; simplify_eq; [lia|]. apply (wf_fresh _ W) in Hj. lia.
  - intros q pl Hq. apply (wf_fresh_pool _ W) in Hq. lia.
  - apply W.
  - intros q j [|Hj]%elem_of_cons; simplify_eq; [done|]. by eapply wf_block.
  - intros q j r [|Hj]%elem_of_cons Hr; simplify_eq. by apply (wf_pool _ W) with (p := q).
  - intros q pl Hq. destruct (wf_info _ W _ _ Hq) as (j & Hj & E). exists j.
    split; [by apply elem_of_cons; right|done].
  - intros p1 i1 p2 i2 [|H1]%elem_of_cons [|H2]%elem_of_cons; simplify_eq; try done.
    by eapply wf_distinct.
Qed.

(** Removing an entry that belongs to no pool. *)
Lemma wf_remove_addr s p i :
  wf s -> (p, i) ∈ allocated_blocks s -> pool i = None ->
  wf (set_blocks (g_slist_remove p (allocated_blocks s)) s).
Proof.
  intros W Hi Hp. split; simpl.
  - apply NoDup_remove, W.
  - intros q j [Hj _]%elem_of_remove. by eapply wf_fresh.
  - apply W.
  - apply W.
  - intros q j [Hj _]%elem_of_remove. by eapply wf_block.
  - intros q j r [Hj _]%elem_of_remove. by eapply wf_pool.
  - intros q pl Hq. destruct (wf_info _ W _ _ Hq) as (j & Hj & E). exists j.
    split; [|done]. apply elem_of_remove. split; [done|]. simpl. intros E'.
    rewrite E' in Hj. rewrite (wf_functional _ _ _ _ W Hi Hj) in Hp. congruence.
  - intros p1 i1 p2 i2 [H1 _]%elem_of_remove [H2 _]%elem_of_remove. by eapply wf_distinct.
Qed.

Lemma lookup_info_Some s idx st p i :
  lookup_info s idx st = Some (p, i) ->
  (p, i) ∈ allocated_blocks s /\ index i = idx /\ start i = st.
Proof.
  unfold lookup_info. intros [Hin E]%find_some. simpl in E.
  apply list_elem_of_In in Hin. by bool_to_prop.
Qed.

Lemma wf_newaddr_update s p i : wf s -> wf (newaddr_update s p i).1.
Proof.
  intros W. unfold newaddr_update. case_match; by apply wf_update_count.
Qed.

Lemma wf_newaddr alloc idx a plen s :
  wf s -> wf (__connman_ippool_newaddr alloc idx a plen s).1.
Proof.
  intros W. unfold __connman_ippool_newaddr.
  destruct (inet_aton a) as [st|]; [|done]. destruct (is_private_address st); [|done].
  simpl. set (mask := if 32 <=? plen then _ else _).
  assert (Hm : 0 <= mask < 2 ^ 32).
  { subst mask. case_match; [lia|apply u32_range]. }
  destruct (lookup_info _ _ _) as [[p i]|]; [by apply wf_newaddr_update|].
  destruct alloc; [|done]. cbn [negb]. apply wf_newaddr_update, wf_add_addr; [done| |done].
  pose proof (land_range 32 st mask ltac:(lia) Hm) as Hst.
  pose proof (u32_range (Z.lnot mask)) as Hn. fold (u32_not mask) in Hn.
  split_and!; simpl; [lia|apply lor_le; lia|]. apply (lor_range 32); lia.
Qed.

Lemma wf_deladdr idx a plen s s' :
  wf s -> __connman_ippool_deladdr idx a plen s = Some s' -> wf s'.
Proof.
  intros W. unfold __connman_ippool_deladdr.
  destruct (inet_aton a) as [st|]; [|by intros [= <-]].
  destruct (is_private_address st); [|by intros [= <-]]. simpl.
  destruct (u32_shr _ _) as [m|]; [|done].
  destruct (lookup_info _ _ _) as [[p i]|] eqn:L; [|by intros [= <-]].
  apply lookup_info_Some in L as (Hin & _ & _).
  pose proof (wf_update_count s p (u32 (use_count i - 1)) W) as W'.
  case_bool_decide as Hp; [by intros [= <-]|]. case_match; [by intros [= <-]|].
  intros [= <-].
  destruct (elem_of_update_count_2 p (u32 (use_count i - 1)) _ _ _ Hin)
    as (j & Hj & _ & _ & _ & E).
  apply (wf_remove_addr _ p j W'); [done|]. rewrite E. by destruct (pool i); [destruct Hp|].
Qed.

Lemma collision_false s block p i :
  collision s block = false -> (p, i) ∈ allocated_blocks s -> in_block i block = false.
Proof.
  unfold collision. intros H Hin. apply not_true_iff_false. intros E.
  apply not_true_iff_false in H. apply H. apply existsb_exists.
  exists (p, i). split; [by apply list_elem_of_In|done].
Qed.

(** What [get_free_block] returns: nothing, or a block of the walk that no
    entry covers. *)
Lemma get_free_block_sound fuel s r :
  wf s -> get_free_block fuel s = Some r -> r <> 0 ->
  (exists n, 0 <= n < block_count /\ r = nth_block n) /\ collision s r = false.
Proof.
  intros W. unfold get_free_block.
  assert (Hs : exists n, 0 <= n < block_count /\
    (if last_block s =? 0 then block_16_bits else last_block s) = nth_block n).
  { destruct (Z.eqb_spec (last_block s) 0) as [|Hne]; [by exists 0|].
    by destruct (wf_last _ W) as [|(n & Hn & E)]; [|exists n]. }
  revert Hs. generalize (if last_block s =? 0 then block_16_bits else last_block s).
  induction fuel as [|fuel IH]; simpl; intros b (n & Hn & ->); [done|].
  destruct (collision s (nth_block n)) eqn:Hc; [|intros [= <-]; by eauto].
  rewrite next_block_nth by done. case_match; [by intros [= <-]|].
  apply IH. eexists. split; [by apply Z.mod_pos_bound|done].
Qed.

(** A new pool on a block of the walk that no entry covers. *)
Lemma wf_add_pool s idx n e pl :
  wf s -> 0 <= n < block_count -> collision s (nth_block n) = false ->
  nth_block n <= e <= nth_block n + 254 -> info pl = S (next_ptr s) ->
  pool_texts pl (nth_block n) ->
  wf (mk_state ((S (next_ptr s), mk_info idx (nth_block n) e 0 (Some (next_ptr s)))
                  :: allocated_blocks s)
        (<[next_ptr s := pl]> (pools s)) (nth_block n) (S (S (next_ptr s)))).
Proof.
  intros W Hn Hc He Hpl Htx. destruct (nth_block_shape n Hn) as (Hlo & Hhi & _).
  unfold block_24_bits in Hlo.
  assert (Hne : forall p i, (p, i) ∈ allocated_blocks s -> start i <> nth_block n).
  { intros p i Hi E. apply (collision_false _ _ _ _ Hc) in Hi as Hib.
    pose proof (wf_block _ W _ _ Hi) as (? & ? & ?). unfold in_block in Hib.
    bool_to_prop. rewrite Z.leb_gt, Z.leb_gt in Hib. lia. }
  split; simpl.
  - apply list.NoDup_cons. split; [|apply W].
    intros ([q j] & E & Hj)%list_elem_of_fmap. simpl in E. subst q.
    apply (wf_fresh _ W) in Hj. lia.
  - intros q j [|Hj]%elem_of_cons; simplify_eq; [lia|]. apply (wf_fresh _ W) in Hj. lia.
  - intros q pl' [[<- _]|[_ Hq]]%lookup_insert_Some; [lia|].
    apply (wf_fresh_pool _ W) in Hq. lia.
  - right. eauto.
  - intros q j [|Hj]%elem_of_cons; simplify_eq; [|by eapply wf_block].
    unfold block_ok. simpl. lia.
  - intros q j r [|Hj]%elem_of_cons Hr; simplify_eq/=.
    + split; [split; simpl; [eauto|lia]|]. eexists. by rewrite lookup_insert_eq.
    + destruct (wf_pool _ W _ _ _ Hj Hr) as (? & pl' & Hpl' & ? & ?). split; [done|].
      exists pl'. split_and!; [|done..]. rewrite lookup_insert_ne; [done|].
      apply (wf_fresh_pool _ W) in Hpl'. lia.
  - intros q pl' [[<- <-]|[_ Hq]]%lookup_insert_Some.
    + rewrite Hpl. eexists. split; [by apply elem_of_cons; left|done].
    + destruct (wf_info _ W _ _ Hq) as (j & Hj & E). exists j.
      split; [by apply elem_of_cons; right|done].
  - intros p1 i1 p2 i2 [|H1]%elem_of_cons [|H2]%elem_of_cons P1 P2 E; simplify_eq/=; [done|..].
    + by destruct (Hne _ _ H2).
    + by destruct (Hne _ _ H1).
    + by apply (wf_distinct _ W _ _ _ _ H1 H2).
Qed.

(** A successful creation, in terms of the block found. *)
Lemma create_Some fuel ok1 ok2 idx st range cb data s s' q :
  wf s -> 0 <= st -> 0 <= range -> st + range < 2 ^ 32 ->
  __connman_ippool_create fuel ok1 ok2 idx st range cb data s = Some (s', Some q) ->
  exists n, 0 <= n < block_count /\ collision s (nth_block n) = false /\
    let b := nth_block n in
    let range' := if range =? 0 then 1 else range in
    let pl := mk_pool (S (next_ptr s)) (get_ip (b + 1)) (get_ip (b + 255))
                (get_ip (b + st)) (get_ip (b + st + range')) (get_ip subnet_mask_24) cb data in
    st + range <= 254 /\ q = next_ptr s /\
    s' = mk_state ((S (next_ptr s), mk_info idx b (b + range) 0 (Some q))
                     :: allocated_blocks s) (<[q := pl]> (pools s)) b (S (S (next_ptr s))).
Proof.
  intros W Hst Hr Hsum. unfold __connman_ippool_create.
  rewrite u32_small by lia. destruct (Z.ltb_spec 254 (st + range)); [done|].
  destruct (get_free_block fuel s) as [b|] eqn:Hb; [|done].
  destruct (Z.eqb_spec b 0) as [->|Hb0]; [done|].
  destruct ok1, ok2; try done. simpl start.
  destruct (get_free_block_sound _ _ _ W Hb Hb0) as [(n & Hn & ->) Hc].
  destruct (nth_block_shape n Hn) as (Hlo & Hhi & _). unfold block_24_bits in Hlo.
  cbv zeta. rewrite !u32_small by (repeat case_match; lia). intros [= <- <-]. by exists n.
Qed.

Lemma wf_create fuel ok1 ok2 idx st range cb data s s' r :
  wf s -> 0 <= st -> 0 <= range -> st + range < 2 ^ 32 ->
  __connman_ippool_create fuel ok1 ok2 idx st range cb data s = Some (s', r) -> wf s'.
Proof.
  intros W Hst Hr Hsum Hc. destruct r as [q|].
  - destruct (create_Some _ _ _ _ _ _ _ _ _ _ _ W Hst Hr Hsum Hc)
      as (n & Hn & Hfree & ? & -> & ->). apply wf_add_pool; try (done || lia).
    split_and!; [done..|]. exists st, (st + if range =? 0 then 1 else range). simpl.
    rewrite Z.add_assoc. destruct (Z.eqb_spec range 0); split_and!; (done || lia).
  - revert Hc. unfold __connman_ippool_create. repeat case_match; by intros [= <-].
Qed.

Lemma wf_free q s : wf s -> wf (__connman_ippool_free q s).
Proof.
  intros W. destruct q as [q|]; [|done]. simpl.
  destruct (pools s !! q) as [pl|] eqn:Hq; [|done].
  destruct (wf_info _ W _ _ Hq) as (i & Hi & Hpi).
  split; simpl.
  - apply NoDup_remove, W.
  - intros p j [Hj _]%elem_of_remove. by eapply wf_fresh.
  - intros r d [_ Hr]%lookup_delete_Some. by eapply wf_fresh_pool.
  - apply W.
  - intros p j [Hj _]%elem_of_remove. by eapply wf_block.
  - intros p j r [Hj Hne]%elem_of_remove Hr. simpl in Hne.
    destruct (wf_pool _ W _ _ _ Hj Hr) as (? & d & Hd & Ed & ?). split; [done|].
    exists d. split_and!; [|done..]. apply lookup_delete_Some. split; [|done].
    intros ->. congruence.
  - intros r d [Hne Hr]%lookup_delete_Some. destruct (wf_info _ W _ _ Hr) as (j & Hj & E).
    exists j. split; [|done]. apply elem_of_remove. split; [done|]. simpl. intros E'.
    rewrite E' in Hj. rewrite (wf_functional _ _ _ _ W Hi Hj) in Hpi. congruence.
  - intros p1 i1 p2 i2 [H1 _]%elem_of_remove [H2 _]%elem_of_remove. by eapply wf_distinct.
Qed.

(** ** Reachable states *)

Inductive step : state -> state -> Prop :=
  | step_newaddr alloc idx a plen s :
      step s (__connman_ippool_newaddr alloc idx a plen s).1
  | step_deladdr idx a plen s s' :
      __connman_ippool_deladdr idx a plen s = Some s' -> step s s'
  | step_create fuel ok1 ok2 idx st range cb data s s' r :
      0 <= st -> 0 <= range -> st + range < 2 ^ 32 ->
      __connman_ippool_create fuel ok1 ok2 idx st range cb data s = Some (s', r) ->
      step s s'
  | step_free q s : step s (__connman_ippool_free q s).

Inductive reachable : state -> Prop :=
  | reach_init : reachable __connman_ippool_init
  | reach_step s s' : reachable s -> step s s' -> reachable s'.

Lemma reachable_wf s : reachable s -> wf s.
Proof.
  induction 1 as [|s s' _ W Hs]; [exact wf_init|].
  destruct Hs; eauto using wf_newaddr, wf_deladdr, wf_create, wf_free.
Qed.

(** ** Adding and removing an interface address *)

Lemma find_update_count (P : ptr * address_info -> bool) p n l q i :
  (forall r j, P (r, set_use_count n j) = P (r, j)) ->
  find P l = Some (q, i) ->
  find P (update_info p (set_use_count n) l) =
    Some (q, if Nat.eqb q p then set_use_count n i else i).
Proof.
  intros HP. induction l as [|[r j] l IH]; simpl; [done|].
  destruct (Nat.eqb_spec r p) as [->|Hne]; rewrite ?HP.
  - destruct (P (p, j)); [|done]. intros [= <- <-]. by rewrite Nat.eqb_refl.
  - destruct (P (r, j)); [|done]. intros [= <- <-]. by rewrite (proj2 (Nat.eqb_neq r p)).
Qed.

Lemma lookup_update_count s idx st p i n :
  lookup_info s idx st = Some (p, i) ->
  lookup_info (set_blocks (update_info p (set_use_count n) (allocated_blocks s)) s) idx st =
    Some (p, set_use_count n i).
Proof.
  unfold lookup_info. intros H. simpl. eapply find_update_count in H; [|done].
  rewrite Nat.eqb_refl in H. exact H.
Qed.

Lemma update_update_count p m n l :
  update_info p (set_use_count n) (update_info p (set_use_count m) l) =
    update_info p (set_use_count n) l.
Proof.
  unfold update_info. rewrite map_map. apply map_ext. intros [q i]. simpl.
  destruct (Nat.eqb q p) eqn:E; simpl; by rewrite E.
Qed.

Lemma update_count_id s p i :
  wf s -> (p, i) ∈ allocated_blocks s ->
  update_info p (set_use_count (use_count i)) (allocated_blocks s) = allocated_blocks s.
Proof.
  intros W Hi. unfold update_info. rewrite <- (map_id (allocated_blocks s)) at 2.
  apply map_ext_in. intros [q j] Hj. simpl.
  destruct (Nat.eqb_spec q p) as [->|]; [|done].
  apply list_elem_of_In in Hj. rewrite (wf_functional _ _ _ _ W Hi Hj). by destruct j.
Qed.

Lemma update_absent p f l : p ∉ map fst l -> update_info p f l = l.
Proof.
  intros Hp. unfold update_info. rewrite <- (map_id l) at 2.
  apply map_ext_in. intros [q j] Hj. simpl.
  destruct (Nat.eqb_spec q p) as [->|]; [|done]. destruct Hp.
  apply list_elem_of_fmap. exists (p, j). split; [done|]. by apply list_elem_of_In.
Qed.

Lemma remove_absent p l : p ∉ map fst l -> g_slist_remove p l = l.
Proof.
  intros Hp. induction l as [|[q i] l IH]; [done|]. simpl in *.
  apply not_elem_of_cons in Hp as [Hne Hp].
  rewrite (proj2 (Nat.eqb_neq q p)) by done. simpl. by rewrite IH.
Qed.

Lemma fresh_absent s : wf s -> next_ptr s ∉ map fst (allocated_blocks s).
Proof.
  intros W ([q j] & E & Hj)%list_elem_of_fmap. simpl in E. subst q.
  apply (wf_fresh _ W) in Hj. lia.
Qed.

Lemma newaddr_update_state s p i :
  (newaddr_update s p i).1 =
    set_blocks (update_info p (set_use_count (u32 (use_count i + 1)))
                  (allocated_blocks s)) s.
Proof. unfold newaddr_update. by case_match. Qed.

Lemma set_blocks_id s : set_blocks (allocated_blocks s) s = s.
Proof. by destruct s. Qed.

(** ** Properties *)

(** in every reachable state the search for a free block returns within
    [block_count] rounds when some block has been handed out before or some
    block is free; it yields 0 exactly when every block is covered, and
    otherwise the first block of the walk, from the last one handed out, that
    no entry of the list covers. *)
Lemma get_free_block_correct s fuel :
  reachable s -> block_count <= Z.of_nat fuel -> last_block s <> 0 \/ ~ all_taken s ->
  exists i r, 0 <= i < block_count /\
    (if last_block s =? 0 then block_16_bits else last_block s) = nth_block i /\
    get_free_block fuel s = Some r /\ ((r = 0 /\ all_taken s) \/ first_free s i r).
Proof.
  intros Hr Hf Hor. apply reachable_wf in Hr as W.
  destruct (Z.eqb_spec (last_block s) 0) as [E|Hne].
  - destruct (get_free_block_returns s 0 fuel) as (r & ? & ?);
      [done|done|right; by destruct Hor|]. by exists 0, r.
  - destruct (wf_last _ W) as [|(n & Hn & E)]; [done|].
    destruct (get_free_block_returns s n fuel) as (r & ? & ?); [done|done|by left|].
    by exists n, r.
Qed.

Lemma get_free_block_correct_witness :
  exists r, get_free_block (Z.to_nat block_count) __connman_ippool_init = Some r.
Proof.
  destruct (get_free_block_correct __connman_ippool_init (Z.to_nat block_count)) as
    (i & r & _ & _ & H & _).
  - constructor.
  - rewrite Z2Nat.id; unfold block_count; lia.
  - right. intros H. discriminate (H 0 ltac:(unfold block_count; lia)).
  - by exists r.
Defined.

(** An interface in each of the three private ranges, with the prefix of the
    whole range, covers every block. *)
Definition three_addrs : state :=
  let s := (__connman_ippool_newaddr true 1 "10.0.0.1" 8 __connman_ippool_init).1 in
  let s := (__connman_ippool_newaddr true 2 "172.16.0.1" 12 s).1 in
  (__connman_ippool_newaddr true 3 "192.168.0.1" 16 s).1.

Lemma three_addrs_taken : all_taken three_addrs.
Proof.
  intros i Hi. unfold collision.
  change (allocated_blocks three_addrs) with
    [(2%nat, mk_info 3 0xc0a80000 0xc0a8ffff 1 None);
     (1%nat, mk_info 2 0xac100000 0xac1fffff 1 None);
     (0%nat, mk_info 1 0x0a000000 0x0affffff 1 None)].
  unfold nth_block, block_count, compose, in_block in *.
  assert (Hq : 0 <= i / 255 < 272) by (Z.div_mod_to_equations; lia).
  pose proof (Z.mod_pos_bound i 255 eq_refl) as Hr. simpl.
  unfold run_a, run_b. destruct (Z.eqb_spec (i / 255) 0); [|destruct (Z.ltb_spec (i / 255) 17)];
    lia.
Qed.

Lemma three_addrs_reachable : reachable three_addrs.
Proof. repeat (eapply reach_step; [|apply step_newaddr]). constructor. Qed.

(** the search is not total.  There is a reachable state, of three
    interface addresses and no pool so far, from which no call of
    [__connman_ippool_create] with an admissible range ever returns, whatever
    the number of rounds allowed. *)
Lemma ippool_create_hangs :
  exists s, reachable s /\
    forall fuel ok1 ok2 idx st range cb data, u32 (st + range) <= 254 ->
      __connman_ippool_create fuel ok1 ok2 idx st range cb data s = None.
Proof.
  exists three_addrs. split; [exact three_addrs_reachable|].
  intros fuel ok1 ok2 idx st range cb data H. unfold __connman_ippool_create.
  destruct (Z.ltb_spec 254 (u32 (st + range))); [lia|].
  unfold get_free_block. change (last_block three_addrs =? 0) with true. cbv iota.
  change block_16_bits with (walk 0 0).
  by rewrite get_free_block_loop_diverges by (done || exact three_addrs_taken).
Qed.

(** C6: in every reachable state the pools hand out disjoint address ranges:
    the gateway, first and last address and broadcast address of a pool lie in
    one /24 block and the blocks of two different pools do not overlap. *)
Theorem pools_disjoint s q1 q2 pl1 pl2 :
  reachable s -> pools s !! q1 = Some pl1 -> pools s !! q2 = Some pl2 -> q1 <> q2 ->
  exists b1 b2, (b1 + 255 < b2 \/ b2 + 255 < b1) /\
    forall pl b, (pl, b) = (pl1, b1) \/ (pl, b) = (pl2, b2) ->
    exists lo hi, b <= lo < hi /\ hi <= b + 255 /\
      inet_aton (start_ip pl) = Some lo /\ inet_aton (end_ip pl) = Some hi /\
      inet_aton (gateway pl) = Some (b + 1) /\ inet_aton (broadcast pl) = Some (b + 255).
Proof.
  intros Hr H1 H2 Hne. apply reachable_wf in Hr as W.
  destruct (wf_info _ W _ _ H1) as (i1 & Hi1 & P1), (wf_info _ W _ _ H2) as (i2 & Hi2 & P2).
  destruct (wf_pool _ W _ _ _ Hi1 P1) as (((n1 & Hn1 & E1) & _) & d1 & Hd1 & _ & T1).
  destruct (wf_pool _ W _ _ _ Hi2 P2) as (((n2 & Hn2 & E2) & _) & d2 & Hd2 & _ & T2).
  simplify_eq. exists (start i1), (start i2).
  destruct (nth_block_shape n1 Hn1) as (L1 & U1 & M1).
  destruct (nth_block_shape n2 Hn2) as (L2 & U2 & M2). rewrite <- E1, <- E2 in *.
  split.
  - destruct (Z.eq_dec (start i1) (start i2)) as [E|]; [|Z.div_mod_to_equations; lia].
    exfalso. apply Hne.
    pose proof (wf_distinct _ W _ _ _ _ Hi1 Hi2 ltac:(congruence) ltac:(congruence) E) as Ep.
    rewrite Ep in Hi1. rewrite (wf_functional _ _ _ _ W Hi1 Hi2) in P1. congruence.
  - assert (Hpl : forall pl b, pool_texts pl b -> block_24_bits <= b -> b + 255 < 2 ^ 32 ->
      exists lo hi, b <= lo < hi /\ hi <= b + 255 /\
      inet_aton (start_ip pl) = Some lo /\ inet_aton (end_ip pl) = Some hi /\
      inet_aton (gateway pl) = Some (b + 1) /\ inet_aton (broadcast pl) = Some (b + 255)).
    { unfold block_24_bits. intros pl b (-> & -> & _ & lo & hi & Hlo & Hhi & -> & ->) Lb Ub.
      exists (b + lo), (b + hi). unfold get_ip.
      rewrite !inet_aton_ntoa by lia. split_and!; (done || lia). }
    intros pl b [[= -> ->]|[= -> ->]]; by apply Hpl.
Qed.

Definition no_pool : connman_ippool := mk_pool 0%nat EmptyString EmptyString EmptyString EmptyString EmptyString false 0.

(** The state with two pools created from the initial one. *)
Definition two_pools : state :=
  match __connman_ippool_create 2 true true 1 2 252 true 0 __connman_ippool_init with
  | Some (s, _) =>
      match __connman_ippool_create 2 true true 2 2 252 true 0 s with
      | Some (s, _) => s
      | None => s
      end
  | None => __connman_ippool_init
  end.

Lemma pools_disjoint_witness :
  exists b1 b2, b1 + 255 < b2 \/ b2 + 255 < b1.
Proof.
  destruct (pools_disjoint two_pools 0%nat 2%nat
    (default no_pool (pools two_pools !! 0%nat))
    (default no_pool (pools two_pools !! 2%nat)))
    as (b1 & b2 & H & _).
  - eapply reach_step; [eapply reach_step; [constructor|]|].
    + eapply (step_create 2 true true 1 2 252 true 0); [lia..|reflexivity].
    + eapply (step_create 2 true true 2 2 252 true 0); [lia..|reflexivity].
  - reflexivity.
  - reflexivity.
  - lia.
  - by exists b1, b2.
Defined.

(** [__connman_ippool_deladdr] undoes [__connman_ippool_newaddr] with the
    same arguments for every prefix shorter than 32 bits: the list of blocks,
    their use counts, the pools and the last block are what they were, as long
    as the use count of a block that was already there did not overflow. *)
Lemma newaddr_deladdr idx a plen st s :
  reachable s -> inet_aton a = Some st -> is_private_address st = true ->
  0 <= plen < 32 ->
  (forall p i, (p, i) ∈ allocated_blocks s ->
     0 <= use_count i < 2 ^ 32 - 1 /\ (pool i = None -> 0 < use_count i)) ->
  exists s', __connman_ippool_deladdr idx a plen
               (__connman_ippool_newaddr true idx a plen s).1 = Some s' /\
    allocated_blocks s' = allocated_blocks s /\ pools s' = pools s /\
    last_block s' = last_block s.
Proof.
  intros Hr Ha Hp Hl Hc. apply reachable_wf in Hr as W.
  unfold __connman_ippool_newaddr, __connman_ippool_deladdr. rewrite Ha, Hp. cbn [negb].
  destruct (Z.leb_spec 32 plen); [lia|]. unfold u32_shr.
  destruct (Z.ltb_spec plen 32); [|lia].
  set (m := st .& u32_not (4294967295 .>> plen)).
  destruct (lookup_info s idx m) as [[p i]|] eqn:L.
  - rewrite newaddr_update_state, (lookup_update_count _ _ _ _ _ _ L).
    apply lookup_info_Some in L as (Hi & _ & _). destruct (Hc p i Hi) as [Hu Hn].
    simpl. rewrite update_update_count, (u32_small (use_count i + 1)) by lia.
    replace (use_count i + 1 - 1) with (use_count i) by lia.
    rewrite u32_small, (update_count_id _ _ _ W Hi) by lia.
    case_bool_decide as Hpl; [by eexists|].
    destruct (Z.ltb_spec 0 (use_count i)); [by eexists|].
    specialize (Hn Hpl). lia.
  - rewrite newaddr_update_state. unfold lookup_info. simpl.
    rewrite Nat.eqb_refl. simpl. rewrite !Z.eqb_refl. simpl.
    rewrite Nat.eqb_refl. simpl. rewrite Nat.eqb_refl. simpl.
    eexists. split; [done|]. simpl.
    rewrite update_update_count, !update_absent, remove_absent by by apply fresh_absent. done.
Qed.

Lemma newaddr_deladdr_witness :
  exists s', __connman_ippool_deladdr 4 "192.168.5.7" 24
    (__connman_ippool_newaddr true 4 "192.168.5.7" 24 two_pools).1 = Some s' /\
    allocated_blocks s' = allocated_blocks two_pools.
Proof.
  destruct (newaddr_deladdr 4 "192.168.5.7" 24 0xc0a80507 two_pools) as (s' & H & E & _).
  - eapply reach_step; [eapply reach_step; [constructor|]|].
    + eapply (step_create 2 true true 1 2 252 true 0); [lia..|reflexivity].
    + eapply (step_create 2 true true 2 2 252 true 0); [lia..|reflexivity].
  - reflexivity.
  - reflexivity.
  - lia.
  - intros p i Hi. repeat (apply elem_of_cons in Hi as [Hi|Hi]; [simplify_eq/=; split; [lia|done]|]).
    by apply elem_of_nil in Hi.
  - by exists s'.
Defined.

(** The removal of a host address (prefix of 32 bits or more) shifts a 32-bit
    value by its width: undefined behaviour, where [__connman_ippool_newaddr]
    has a case of its own for it. *)
Lemma deladdr_host_route_undefined idx a plen st s :
  inet_aton a = Some st -> is_private_address st = true -> 32 <= plen ->
  __connman_ippool_deladdr idx a plen s = None.
Proof.
  intros Ha Hp Hl. unfold __connman_ippool_deladdr, u32_shr. rewrite Ha, Hp. simpl.
  by destruct (Z.ltb_spec plen 32); [lia|].
Qed.

(** The collision test looks at the first address of a block only, so a
    pool can be given a block that contains a subnet in use: a reachable state
    has an interface subnet strictly inside the /24 block of a pool created
    afterwards, among the addresses the pool leases. *)
Lemma pool_overlaps_interface_subnet :
  exists s s' q pl p i lo hi,
    reachable s /\ (p, i) ∈ allocated_blocks s /\ pool i = None /\
    __connman_ippool_create 1 true true 2 2 252 true 0 s = Some (s', Some q) /\
    pools s' !! q = Some pl /\
    inet_aton (start_ip pl) = Some lo /\ inet_aton (end_ip pl) = Some hi /\
    lo <= start i <= hi.
Proof.
  exists (__connman_ippool_newaddr true 1 "192.168.0.130" 25 __connman_ippool_init).1.
  do 7 eexists. split; [eapply reach_step; [constructor|apply step_newaddr]|].
  split; [by apply elem_of_cons; left|]. split; [reflexivity|].
  split; [reflexivity|]. split; [reflexivity|]. split; [reflexivity|].
  split; [reflexivity|]. vm_compute. split; discriminate.
Qed.

End IpPool.
