(* ===== verification/Acd.v ===== *)
(** * IPv4 address conflict detection, RFC 5227 (src/acd.c, src/shared/arp.c)

    An [acd_host] probes an address before it is used, announces it, and then
    defends it.  Its inputs are timer expirations and the ARP packets of the
    link; its outputs are ARP packets, the callbacks of its user and changes of
    the [LastAddressConflict] property. *)

From S2P Require Import Prelude Inet Effects.

Module Acd.

(** ** Constants of src/shared/arp.h *)

Definition PROBE_WAIT : Z := 1.
Definition PROBE_NUM : Z := 3.
Definition PROBE_MIN : Z := 1.
Definition PROBE_MAX : Z := 2.
Definition ANNOUNCE_WAIT : Z := 2.
Definition ANNOUNCE_NUM : Z := 2.
Definition ANNOUNCE_INTERVAL : Z := 2.
Definition MAX_CONFLICTS : Z := 10.
Definition DEFEND_INTERVAL : Z := 10.
Definition LINKLOCAL_ADDR : Z := 0xa9fe0000.

(** ** Data *)

Inductive acd_state :=
  | ACD_STATE_PROBE
  | ACD_STATE_ANNOUNCE
  | ACD_STATE_MONITOR
  | ACD_STATE_DEFEND.

(** The function a pending timeout will call. *)
Inductive timer := acd_probe_timer | acd_announce_timer | acd_defend_timer.

(** The callbacks of [enum acd_host_event]. *)
Inductive acd_host_event :=
  | ACD_HOST_EVENT_IPV4_AVAILABLE
  | ACD_HOST_EVENT_IPV4_LOST
  | ACD_HOST_EVENT_IPV4_CONFLICT
  | ACD_HOST_EVENT_IPV4_MAXCONFLICT.

Record acd_host := mk_acd {
  state : acd_state;
  ifindex : Z;
  mac_address : list Z;
  requested_ip : Z;
  ac_ip : Z;
  ac_mac : list Z;
  ac_timestamp : Z;
  ac_resolved : bool;
  listen_on : bool;
  listener_sockfd : Z;
  retry_times : Z;
  conflicts : Z;
  timeout : option (timer * Z);      (** pending source: callback and delay in ms *)
  listener_watch : bool;             (** a watch is installed *)
  has_cb : acd_host_event -> bool    (** which callbacks are registered *)
}.

Inductive output :=
  | Send (packet : list Z)           (** [arp_send_packet] *)
  | Callback (e : acd_host_event)
  | LastAddressConflict (ip : Z) (mac : list Z) (timestamp : Z) (resolved : bool).

(** Results of the system calls and of the random generator. *)
Record env := mk_env {
  arp_socket : Z;          (** a descriptor, or a negative error *)
  channel_ok : bool;       (** [g_io_channel_unix_new] succeeds *)
  random : Z;              (** the next 64-bit random value *)
  real_time : Z            (** [g_get_real_time] *)
}.

Definition M := prog acd_host output.

Definition upd_state v a := mk_acd v (ifindex a) (mac_address a) (requested_ip a) (ac_ip a) (ac_mac a) (ac_timestamp a) (ac_resolved a) (listen_on a) (listener_sockfd a) (retry_times a) (conflicts a) (timeout a) (listener_watch a) (has_cb a).
Definition upd_requested_ip v a := mk_acd (state a) (ifindex a) (mac_address a) v (ac_ip a) (ac_mac a) (ac_timestamp a) (ac_resolved a) (listen_on a) (listener_sockfd a) (retry_times a) (conflicts a) (timeout a) (listener_watch a) (has_cb a).
Definition upd_conflict_info ip mac ts a := mk_acd (state a) (ifindex a) (mac_address a) (requested_ip a) ip mac ts false (listen_on a) (listener_sockfd a) (retry_times a) (conflicts a) (timeout a) (listener_watch a) (has_cb a).
Definition upd_ac_resolved v a := mk_acd (state a) (ifindex a) (mac_address a) (requested_ip a) (ac_ip a) (ac_mac a) (ac_timestamp a) v (listen_on a) (listener_sockfd a) (retry_times a) (conflicts a) (timeout a) (listener_watch a) (has_cb a).
Definition upd_listening on fd a := mk_acd (state a) (ifindex a) (mac_address a) (requested_ip a) (ac_ip a) (ac_mac a) (ac_timestamp a) (ac_resolved a) on fd (retry_times a) (conflicts a) (timeout a) (listener_watch a) (has_cb a).
Definition upd_retry_times v a := mk_acd (state a) (ifindex a) (mac_address a) (requested_ip a) (ac_ip a) (ac_mac a) (ac_timestamp a) (ac_resolved a) (listen_on a) (listener_sockfd a) v (conflicts a) (timeout a) (listener_watch a) (has_cb a).
Definition upd_conflicts v a := mk_acd (state a) (ifindex a) (mac_address a) (requested_ip a) (ac_ip a) (ac_mac a) (ac_timestamp a) (ac_resolved a) (listen_on a) (listener_sockfd a) (retry_times a) v (timeout a) (listener_watch a) (has_cb a).
Definition upd_timeout v a := mk_acd (state a) (ifindex a) (mac_address a) (requested_ip a) (ac_ip a) (ac_mac a) (ac_timestamp a) (ac_resolved a) (listen_on a) (listener_sockfd a) (retry_times a) (conflicts a) v (listener_watch a) (has_cb a).
Definition upd_listener_watch v a := mk_acd (state a) (ifindex a) (mac_address a) (requested_ip a) (ac_ip a) (ac_mac a) (ac_timestamp a) (ac_resolved a) (listen_on a) (listener_sockfd a) (retry_times a) (conflicts a) (timeout a) v (has_cb a).
Definition upd_has_cb v a := mk_acd (state a) (ifindex a) (mac_address a) (requested_ip a) (ac_ip a) (ac_mac a) (ac_timestamp a) (ac_resolved a) (listen_on a) (listener_sockfd a) (retry_times a) (conflicts a) (timeout a) (listener_watch a) v.

(** ** ARP packets (struct ether_arp) *)

(** The packet [arp_send_packet] puts on the wire: an Ethernet/IPv4 request
    with an empty target hardware address. *)
Definition arp_send_packet (source_eth : list Z) (source_ip target_ip : Z) : list Z :=
  be_bytes16 1 ++ be_bytes16 0x0800 ++ [6; 4] ++ be_bytes16 1 ++
  source_eth ++ be_bytes32 source_ip ++ repeat 0 6 ++ be_bytes32 target_ip.

Definition arp_op (arp : list Z) : list Z := slice 6 2 arp.
Definition arp_sha (arp : list Z) : list Z := slice 8 6 arp.
Definition arp_spa (arp : list Z) : list Z := slice 14 4 arp.
Definition arp_tpa (arp : list Z) : list Z := slice 24 4 arp.

Definition ARPOP_REQUEST : list Z := be_bytes16 1.
Definition ARPOP_REPLY : list Z := be_bytes16 2.

(** [do ... while] over the random values drawn; [None] when they run out. *)
Fixpoint arp_random_ip (randoms : list Z) : option Z :=
  match randoms with
  | [] => None
  | r :: randoms =>
      let tmp := u32 r .& 0xffff in
      if 0xffff - 0x0200 <? tmp then arp_random_ip randoms
      else Some (u32 (LINKLOCAL_ADDR + 0x0100 + tmp))
  end.

#[global] Arguments arp_send_packet : simpl never.

(** ** Operations *)

(** [__connman_util_random_delay_ms] *)
Definition random_delay_ms (e : env) (secs : Z) : Z := random e mod (secs * 1000).

Definition callback (e : acd_host_event) : M unit :=
  b ← get (fun a => has_cb a e); when b (emit (Callback e)).

(** The structure [acd_host_new] returns: zeroed, with [ac_resolved] set. *)
Definition acd_host_new (idx : Z) (ifname_ok is_up : bool) (mac : list Z) : option acd_host :=
  if idx <? 0 then None
  else if negb ifname_ok then None
  else if negb is_up then None
  else Some (mk_acd ACD_STATE_PROBE idx mac 0 0 (repeat 0 6) 0 true false (-1) 0 0 None false
               (fun _ => false)).

Definition remove_timeout : M unit := modify (upd_timeout None).

Definition start_listening (e : env) : M Z :=
  on ← get listen_on;
  if on : bool then mret 0
  else if arp_socket e <? 0 then mret (- EIO)
  else if negb (channel_ok e) then mret (- EIO)
  else
    modify (upd_listening true (arp_socket e));;
    modify (upd_listener_watch true);;
    mret 0.

Definition stop_listening : M unit :=
  on ← get listen_on;
  when on (modify (upd_listening false (-1));; modify (upd_listener_watch false)).

Definition is_link_local (ip : Z) : bool := (ip .& LINKLOCAL_ADDR) =? LINKLOCAL_ADDR.

Definition report_conflict (e : env) (arp : option (list Z)) : M unit :=
  match arp with
  | Some arp =>
      ip ← get requested_ip;
      modify (upd_conflict_info ip (arp_sha arp) (real_time e))
  | None => modify (upd_ac_resolved true)
  end;;
  o ← get (fun a => LastAddressConflict (ac_ip a) (ac_mac a) (ac_timestamp a) (ac_resolved a));
  emit o.

Definition send_arp (source_ip : acd_host -> Z) : M unit :=
  p ← get (fun a => arp_send_packet (mac_address a) (source_ip a) (requested_ip a));
  emit (Send p).

Definition send_announce_packet : M unit :=
  send_arp requested_ip;;
  remove_timeout;;
  st ← get state;
  match st with
  | ACD_STATE_DEFEND =>
      modify (upd_timeout (Some (acd_defend_timer, DEFEND_INTERVAL * 1000)))
  | _ => modify (upd_timeout (Some (acd_announce_timer, ANNOUNCE_INTERVAL * 1000)))
  end.

Definition send_probe_packet (e : env) : M unit :=
  remove_timeout;;
  r ← get retry_times;
  when (r =? 1) (modify (upd_state ACD_STATE_PROBE);; _ ← start_listening e; skip);;
  send_arp (fun _ => 0);;
  let delay := if r <? PROBE_NUM
               then random_delay_ms e (PROBE_MAX - PROBE_MIN) + PROBE_MIN * 1000
               else ANNOUNCE_WAIT * 1000 in
  modify (upd_timeout (Some (acd_probe_timer, delay))).

Definition acd_host_stop : M unit :=
  stop_listening;;
  remove_timeout;;
  modify (upd_listener_watch false);;
  modify (upd_state ACD_STATE_PROBE);;
  modify (upd_retry_times 0);;
  modify (upd_requested_ip 0).

Definition acd_host_start (e : env) (ip : Z) : M Z :=
  remove_timeout;;
  err ← start_listening e;
  if negb (err =? 0) then mret err
  else
    modify (upd_retry_times 0);;
    modify (upd_requested_ip ip);;
    modify (upd_state ACD_STATE_PROBE);;
    modify (upd_timeout (Some (acd_probe_timer, random_delay_ms e PROBE_WAIT)));;
    mret 0.

Definition acd_probe_timeout (e : env) : M unit :=
  modify (upd_timeout None);;
  r ← get retry_times;
  if r =? PROBE_NUM then
    modify (upd_state ACD_STATE_ANNOUNCE);;
    modify (upd_retry_times 1);;
    send_announce_packet
  else
    modify (upd_retry_times (u32 (r + 1)));;
    send_probe_packet e.

Definition acd_announce_timeout (e : env) : M unit :=
  modify (upd_timeout None);;
  r ← get retry_times;
  if negb (r =? ANNOUNCE_NUM) then
    modify (upd_retry_times (u32 (r + 1)));;
    send_announce_packet
  else
    modify (upd_state ACD_STATE_MONITOR);;
    rep ← get (fun a => negb (ac_resolved a) && negb (is_link_local (requested_ip a)));
    when rep (report_conflict e None);;
    callback ACD_HOST_EVENT_IPV4_AVAILABLE;;
    modify (upd_conflicts 0).

Definition acd_defend_timeout : M unit :=
  modify (upd_timeout None);;
  modify (upd_conflicts 0);;
  modify (upd_state ACD_STATE_MONITOR).

(** The two ways a packet conflicts with the requested address. *)
Definition source_conflict (a : acd_host) (arp : list Z) : bool :=
  bytes_eqb (arp_spa arp) (be_bytes32 (requested_ip a)).

Definition target_conflict (a : acd_host) (arp : list Z) : bool :=
  bytes_eqb (arp_spa arp) [0; 0; 0; 0] &&
  bytes_eqb (arp_tpa arp) (be_bytes32 (requested_ip a)).

(** A conflict was seen; [src] says whether it is a source conflict. *)
Definition acd_conflict (e : env) (arp : list Z) (src : bool) : M Z :=
  n ← get (fun a => u32 (conflicts a + 1));
  modify (upd_conflicts n);;
  st ← get state;
  ll ← get (fun a => is_link_local (requested_ip a));
  match st with
  | ACD_STATE_MONITOR =>
      if negb src then mret 0
      else
        modify (upd_state ACD_STATE_DEFEND);;
        send_announce_packet;;
        mret 0
  | ACD_STATE_DEFEND =>
      if negb src then mret 0
      else
        when (negb ll) (report_conflict e (Some arp));;
        callback ACD_HOST_EVENT_IPV4_LOST;;
        mret 0
  | _ =>
      if n <? MAX_CONFLICTS then
        when (negb ll) (report_conflict e (Some arp));;
        acd_host_stop;;
        callback ACD_HOST_EVENT_IPV4_CONFLICT;;
        mret 0
      else
        acd_host_stop;;
        callback ACD_HOST_EVENT_IPV4_MAXCONFLICT;;
        mret 0
  end.

(** [arp] is what [read] returned. *)
Definition acd_recv_arp_packet (e : env) (arp : list Z) : M Z := fun a =>
  if negb (Nat.eqb (length arp) 28) then (- EINVAL, a, [])
  else if negb (bytes_eqb (arp_op arp) ARPOP_REPLY) &&
          negb (bytes_eqb (arp_op arp) ARPOP_REQUEST) then (- EINVAL, a, [])
  else if bytes_eqb (arp_sha arp) (mac_address a) then (0, a, [])
  else
    let src := source_conflict a arp in
    let tgt := target_conflict a arp in
    if negb src && negb tgt then (0, a, [])
    else acd_conflict e arp src a.

(** [broken] is the condition [G_IO_NVAL | G_IO_ERR | G_IO_HUP]. *)
Definition acd_listener_event (e : env) (broken : bool) (arp : list Z) : M bool :=
  if broken then modify (upd_listener_watch false);; mret false
  else
    on ← get listen_on;
    if negb on then mret false
    else _ ← acd_recv_arp_packet e arp; mret true.

Definition acd_host_event_eqb (x y : acd_host_event) : bool :=
  match x, y with
  | ACD_HOST_EVENT_IPV4_AVAILABLE, ACD_HOST_EVENT_IPV4_AVAILABLE
  | ACD_HOST_EVENT_IPV4_LOST, ACD_HOST_EVENT_IPV4_LOST
  | ACD_HOST_EVENT_IPV4_CONFLICT, ACD_HOST_EVENT_IPV4_CONFLICT
  | ACD_HOST_EVENT_IPV4_MAXCONFLICT, ACD_HOST_EVENT_IPV4_MAXCONFLICT => true
  | _, _ => false
  end.

(** [func] says whether the function registered is not [NULL]. *)
Definition acd_host_register_event (ev : acd_host_event) (func : bool) : M unit :=
  cbs ← get has_cb;
  modify (upd_has_cb (fun x => if acd_host_event_eqb x ev then func else cbs x)).

Definition acd_host_get_conflicts_count (a : acd_host) : Z := conflicts a.

(** ** Events

    The main loop calls the function of the pending timeout when it expires,
    and [acd_listener_event] when the listening socket is ready, as long as
    the watch is installed. *)

Inductive event :=
  | Timer (e : env)
  | Arp (e : env) (packet : list Z)
  | Broken (e : env).

Definition fire (e : env) : M unit :=
  t ← get timeout;
  match t with
  | Some (acd_probe_timer, _) => acd_probe_timeout e
  | Some (acd_announce_timer, _) => acd_announce_timeout e
  | Some (acd_defend_timer, _) => acd_defend_timeout
  | None => skip
  end.

Definition handle (ev : event) : M unit :=
  match ev with
  | Timer e => fire e
  | Arp e p => w ← get listener_watch; when w (_ ← acd_listener_event e false p; skip)
  | Broken e => w ← get listener_watch; when w (_ ← acd_listener_event e true []; skip)
  end.

Definition handle_all (evs : list event) : M unit := run_all (handle <$> evs).

(** A packet of another station that claims or probes the address [ip]. *)
Definition conflicting (mac : list Z) (ip : Z) (arp : list Z) : bool :=
  Nat.eqb (length arp) 28 &&
  (bytes_eqb (arp_op arp) ARPOP_REPLY || bytes_eqb (arp_op arp) ARPOP_REQUEST) &&
  negb (bytes_eqb (arp_sha arp) mac) &&
  (bytes_eqb (arp_spa arp) (be_bytes32 ip) ||
   (bytes_eqb (arp_spa arp) [0; 0; 0; 0] && bytes_eqb (arp_tpa arp) (be_bytes32 ip))).

(** ** The invariant of the state machine *)

(** The delays RFC 5227 asks for between the probes: at most [PROBE_WAIT]
    before the first, [PROBE_MIN] to [PROBE_MAX] between two, [ANNOUNCE_WAIT]
    after the last. *)
Definition probe_delay (r d : Z) : Prop :=
  (r = 0 /\ 0 <= d < PROBE_WAIT * 1000) \/
  (1 <= r < PROBE_NUM /\ PROBE_MIN * 1000 <= d < PROBE_MAX * 1000) \/
  (r = PROBE_NUM /\ d = ANNOUNCE_WAIT * 1000).

(** A pending timer belongs to the state, and the retry counter stays in the
    range of the phase. *)
Definition inv (a : acd_host) : Prop :=
  match timeout a with
  | None => True
  | Some (acd_probe_timer, d) =>
      state a = ACD_STATE_PROBE /\ probe_delay (retry_times a) d
  | Some (acd_announce_timer, d) =>
      state a = ACD_STATE_ANNOUNCE /\ 1 <= retry_times a <= ANNOUNCE_NUM /\
      d = ANNOUNCE_INTERVAL * 1000
  | Some (acd_defend_timer, d) => state a = ACD_STATE_DEFEND /\ d = DEFEND_INTERVAL * 1000
  end.

(** Decide the tests of a handler one by one. *)
Ltac step_tests :=
  repeat match goal with
  | H : context [if ?b then _ else _] |- _ => destruct b eqn:?; simpl in *
  | |- context [if ?b then _ else _] => destruct b eqn:?; simpl in *
  end.

Ltac acd_unfold :=
  unfold handle, fire, acd_listener_event, acd_probe_timeout,
    acd_announce_timeout, acd_defend_timeout, acd_host_start, acd_host_stop,
    send_probe_packet, send_announce_packet, send_arp, report_conflict, start_listening,
    stop_listening, remove_timeout, callback, random_delay_ms in *.

Lemma inv_fire e a : inv a -> inv (state_of (fire e) a).
Proof.
  intros I. destruct a as [st ? ? ? ? ? ? ? ? ? r ? tm ? ?]. unfold inv in I. simpl in I.
  acd_unfold. run_prog. simpl.
  destruct tm as [[[] d]|]; simpl; [| |done..].
  - destruct I as [-> Hr]. unfold probe_delay, PROBE_NUM, PROBE_WAIT, PROBE_MIN, PROBE_MAX in Hr.
    unfold PROBE_NUM. destruct (Z.eqb_spec r 3); simpl; [done|].
    assert (u32 (r + 1) = r + 1) as -> by (apply u32_small; lia).
    pose proof (Z.mod_pos_bound (random e) ((PROBE_MAX - PROBE_MIN) * 1000) eq_refl) as Hd.
    unfold inv, probe_delay, PROBE_NUM, PROBE_WAIT, PROBE_MIN, PROBE_MAX, ANNOUNCE_WAIT in *.
    step_tests; bool_to_prop; simpl; (split; [done|lia]).
  - destruct I as (-> & Hr & _). unfold ANNOUNCE_NUM in *.
    destruct (Z.eqb_spec r 2); simpl; [by step_tests|].
    assert (u32 (r + 1) = r + 1) as -> by (apply u32_small; lia).
    unfold inv, ANNOUNCE_NUM. simpl. split_and!; [done|lia..].
Qed.

(** The event of a packet: nothing, or the reaction to a conflict. *)
Lemma handle_arp e p a :
  handle (Arp e p) a =
    if listener_watch a && listen_on a && conflicting (mac_address a) (requested_ip a) p
    then (tt, state_of (acd_conflict e p (source_conflict a p)) a,
          outputs_of (acd_conflict e p (source_conflict a p)) a)
    else (tt, a, []).
Proof.
  unfold handle, acd_listener_event, acd_recv_arp_packet, conflicting.
  fold (source_conflict a p) (target_conflict a p).
  unfold when, mbind, prog_bind, get, skip, mret, prog_ret. simpl.
  destruct (listener_watch a); [|done]. simpl. destruct (listen_on a); [|done]. simpl.
  destruct (Nat.eqb (length p) 28); [|done]. simpl. rewrite <- negb_orb.
  destruct (bytes_eqb (arp_op p) ARPOP_REPLY || bytes_eqb (arp_op p) ARPOP_REQUEST);
    [|done]. simpl.
  destruct (bytes_eqb (arp_sha p) (mac_address a)); [done|]. simpl. rewrite <- negb_orb.
  destruct (source_conflict a p || target_conflict a p); [|done]. simpl.
  unfold state_of, outputs_of.
  destruct (acd_conflict e p (source_conflict a p) a) as [[? ?] ?]. simpl.
  by rewrite !app_nil_r.
Qed.

Lemma inv_conflict e p src a : inv a -> inv (state_of (acd_conflict e p src) a).
Proof.
  intros I. destruct a as [st ? ? ? ? ? ? ? ? ? r ? tm ? ?].
  unfold acd_conflict. acd_unfold. run_prog. simpl.
  destruct st; simpl; step_tests; done.
Qed.

Lemma inv_handle ev a : inv a -> inv (state_of (handle ev) a).
Proof.
  intros I. destruct ev as [e|e p|e]; [by apply inv_fire| |].
  - unfold state_of. rewrite handle_arp. case_match; [by apply inv_conflict|done].
  - destruct a. acd_unfold. run_prog. simpl. by step_tests.
Qed.

Lemma inv_start e ip a : inv (state_of (acd_host_start e ip) a).
Proof.
  pose proof (Z.mod_pos_bound (random e) (PROBE_WAIT * 1000) eq_refl) as Hd.
  destruct a as [st ? ? ? ? ? ? ? ? ? r ? tm ? ?].
  acd_unfold. run_prog. simpl. step_tests; try done; (split; [done|by left]).
Qed.

Lemma inv_stop a : inv (state_of acd_host_stop a).
Proof. destruct a. acd_unfold. run_prog. simpl. by step_tests. Qed.

(** ** Conflicting packets *)

(** The address is being probed or announced, and the link is listened to. *)
Definition acquiring (mac : list Z) (ip : Z) (a : acd_host) : Prop :=
  inv a /\ mac_address a = mac /\ requested_ip a = ip /\
  listen_on a = true /\ listener_watch a = true /\
  (state a = ACD_STATE_PROBE \/ state a = ACD_STATE_ANNOUNCE).

(** No source is left: the host takes no further event. *)
Definition stopped (a : acd_host) : Prop := timeout a = None /\ listener_watch a = false.

(** The address is in use. *)
Definition holding (a : acd_host) : Prop :=
  inv a /\ (state a = ACD_STATE_MONITOR \/ state a = ACD_STATE_DEFEND).

Definition settled (a : acd_host) : Prop := stopped a \/ holding a.

Definition no_available (os : list output) : Prop :=
  Callback ACD_HOST_EVENT_IPV4_AVAILABLE ∉ os.

Ltac no_avail :=
  unfold no_available in *; simpl; intros Hin;
  repeat (apply elem_of_cons in Hin as [Hin|Hin]; [discriminate|]);
  by apply elem_of_nil in Hin.

Lemma stopped_handle ev a : stopped a -> handle ev a = (tt, a, []).
Proof.
  intros [Ht Hw]. destruct a. simpl in *. subst.
  by destruct ev; acd_unfold; run_prog.
Qed.

Lemma holding_conflict e p src a :
  holding a ->
  let m := acd_conflict e p src in
  (state (state_of m a) = ACD_STATE_MONITOR \/ state (state_of m a) = ACD_STATE_DEFEND) /\
  no_available (outputs_of m a).
Proof.
  intros [_ S]. destruct a as [st ? ? ? ? ? ? ? ? ? r ? tm w ?]. simpl in *.
  unfold acd_conflict. acd_unfold. run_prog. simpl.
  destruct S as [-> | ->]; simpl; step_tests; (split; [auto|no_avail]).
Qed.

Lemma holding_handle ev a :
  holding a -> holding (state_of (handle ev) a) /\ no_available (outputs_of (handle ev) a).
Proof.
  intros H. pose proof H as [I S]. unfold holding.
  pose proof (inv_handle ev a I) as I'.
  enough ((state (state_of (handle ev) a) = ACD_STATE_MONITOR \/
           state (state_of (handle ev) a) = ACD_STATE_DEFEND) /\
          no_available (outputs_of (handle ev) a)) by tauto.
  destruct ev as [e|e p|e].
  - destruct a as [st ? ? ? ? ? ? ? ? ? r ? tm w ?]. unfold inv in I. simpl in *.
    acd_unfold; run_prog; simpl. clear I'.
    destruct tm as [[[] ?]|]; simpl; [by destruct I as [-> _], S|by destruct I as [-> _], S|..];
      (split; [auto|no_avail]).
  - unfold state_of, outputs_of. rewrite handle_arp.
    case_match; [|split; [done|no_avail]]. by apply holding_conflict.
  - destruct a. acd_unfold. run_prog. simpl in *. step_tests; (split; [auto|no_avail]).
Qed.

Lemma settled_handle ev a :
  settled a -> settled (state_of (handle ev) a) /\ no_available (outputs_of (handle ev) a).
Proof.
  intros [S|S].
  - unfold state_of, outputs_of. rewrite stopped_handle by done. simpl.
    split; [by left|no_avail].
  - destruct (holding_handle ev a S). split; [by right|done].
Qed.

Lemma handle_all_cons ev evs a :
  state_of (handle_all (ev :: evs)) a = state_of (handle_all evs) (state_of (handle ev) a) /\
  outputs_of (handle_all (ev :: evs)) a =
    outputs_of (handle ev) a ++ outputs_of (handle_all evs) (state_of (handle ev) a).
Proof.
  unfold handle_all. simpl. by rewrite state_of_bind, outputs_of_bind.
Qed.

Lemma settled_handle_all evs : forall a,
  settled a -> no_available (outputs_of (handle_all evs) a).
Proof.
  induction evs as [|ev evs IH]; intros a S; [no_avail|].
  rewrite (proj2 (handle_all_cons ev evs a)).
  destruct (settled_handle ev a S) as [S' N]. specialize (IH _ S').
  unfold no_available in *. rewrite elem_of_app. tauto.
Qed.

Definition is_link_event (ev : event) : bool :=
  match ev with Broken _ => false | _ => true end.

Definition event_conflicts (mac : list Z) (ip : Z) (ev : event) : bool :=
  match ev with Arp _ p => conflicting mac ip p | _ => false end.

(** A conflict ends the acquisition. *)
Lemma acquiring_conflict e p src a :
  state a = ACD_STATE_PROBE \/ state a = ACD_STATE_ANNOUNCE ->
  stopped (state_of (acd_conflict e p src) a) /\
  no_available (outputs_of (acd_conflict e p src) a).
Proof.
  intros Hst. destruct a as [st ? ? ? ? ? ? ? ? ? r ? tm w ?]. simpl in *.
  unfold acd_conflict. acd_unfold. run_prog. simpl.
  destruct Hst as [-> | ->]; simpl; step_tests; (split; [done|no_avail]).
Qed.

Lemma acquiring_fire e a :
  inv a -> state a = ACD_STATE_PROBE \/ state a = ACD_STATE_ANNOUNCE ->
  listen_on a = true -> listener_watch a = true ->
  let m := fire e in
  (mac_address (state_of m a) = mac_address a /\
   requested_ip (state_of m a) = requested_ip a /\
   listen_on (state_of m a) = true /\ listener_watch (state_of m a) = true /\
   (state (state_of m a) = ACD_STATE_PROBE \/ state (state_of m a) = ACD_STATE_ANNOUNCE) /\
   no_available (outputs_of m a)) \/
  state (state_of m a) = ACD_STATE_MONITOR.
Proof.
  intros I Hst Hl Hw. destruct a as [st ? ? ? ? ? ? ? ? ? r ? tm w ?]. simpl in *. subst.
  unfold inv in I. simpl in I. acd_unfold. run_prog. simpl.
  destruct tm as [[[] d]|]; simpl in *.
  - destruct I as [-> _]. left. step_tests; (split_and!; [auto..|no_avail]).
  - destruct I as [-> _]. step_tests; auto; left; (split_and!; [auto..|no_avail]).
  - destruct I as [-> _]. by destruct Hst.
  - left. split_and!; [auto..|no_avail].
Qed.

(** What an event does to an acquisition: it goes on, it is completed, or it
    is stopped by a conflicting packet. *)
Lemma acquiring_handle mac ip ev a :
  acquiring mac ip a -> is_link_event ev = true ->
  let m := handle ev in
  if event_conflicts mac ip ev
  then stopped (state_of m a) /\ no_available (outputs_of m a)
  else (acquiring mac ip (state_of m a) /\ no_available (outputs_of m a)) \/
       holding (state_of m a).
Proof.
  intros A Hev. pose proof A as (I & Hm & Hip & Hl & Hw & Hst).
  pose proof (inv_handle ev a I) as I'. cbv zeta.
  destruct ev as [e|e p|e]; [| |done]; simpl event_conflicts.
  - destruct (acquiring_fire e a I Hst Hl Hw) as [(E1 & E2 & E3 & E4 & E5 & E6)|E].
    + left. split; [|done]. split_and!; [done|by rewrite <- Hm|by rewrite <- Hip|done..].
    + right. split; [done|by left].
  - unfold state_of, outputs_of. rewrite handle_arp. rewrite Hm, Hip, Hw, Hl. simpl.
    destruct (conflicting mac ip p); [by apply acquiring_conflict|].
    left. split; [done|no_avail].
Qed.

Lemma acquiring_handle_all mac ip evs : forall a,
  acquiring mac ip a -> Forall (fun ev => is_link_event ev = true) evs ->
  ~ no_available (outputs_of (handle_all evs) a) ->
  exists pre ev post, evs = pre ++ ev :: post /\
    Forall (fun ev => event_conflicts mac ip ev = false) (pre ++ [ev]) /\
    no_available (outputs_of (handle_all pre) a) /\
    ~ no_available (outputs_of (handle ev) (state_of (handle_all pre) a)).
Proof.
  induction evs as [|ev evs IH]; intros a A Hl Hav.
  { destruct Hav. no_avail. }
  apply Forall_cons_1 in Hl as [Hev Hl].
  rewrite (proj2 (handle_all_cons ev evs a)) in Hav.
  pose proof (acquiring_handle mac ip ev a A Hev) as H. cbv zeta in H.
  destruct (event_conflicts mac ip ev) eqn:Hc.
  { exfalso. apply Hav. destruct H as [S N].
    pose proof (settled_handle_all evs _ (or_introl S)) as N'.
    unfold no_available in *. rewrite elem_of_app. tauto. }
  destruct H as [[A' N]|S].
  - destruct (IH _ A' Hl) as (pre & ev' & post & -> & Hf & Hp & Hq).
    { intros N'. apply Hav. unfold no_available in *. rewrite elem_of_app. tauto. }
    exists (ev :: pre), ev', post. split; [done|]. split; [by constructor|].
    destruct (handle_all_cons ev pre a) as [Es Eo]. rewrite Es, Eo. split; [|done].
    unfold no_available in *. rewrite elem_of_app. tauto.
  - exists [], ev, evs. split; [done|]. split; [by repeat constructor|].
    split; [no_avail|]. intros N. apply Hav.
    pose proof (settled_handle_all evs _ (or_intror S)) as N'.
    unfold no_available in *. rewrite elem_of_app. tauto.
Qed.

Lemma start_ok e ip a :
  result_of (acd_host_start e ip) a = 0 ->
  acd_host_start e ip a =
    (0, mk_acd ACD_STATE_PROBE (ifindex a) (mac_address a) ip (ac_ip a) (ac_mac a)
          (ac_timestamp a) (ac_resolved a) true
          (if listen_on a then listener_sockfd a else arp_socket e) 0 (conflicts a)
          (Some (acd_probe_timer, random_delay_ms e PROBE_WAIT))
          (if listen_on a then listener_watch a else true) (has_cb a), []).
Proof. destruct a. acd_unfold. run_prog. simpl. step_tests; done. Qed.

#[export] Instance acd_host_event_eq_dec : EqDecision acd_host_event.
Proof. solve_decision. Defined.

#[export] Instance output_eq_dec : EqDecision output.
Proof. solve_decision. Defined.

(** ** Reachable states *)

Inductive reachable : acd_host -> Prop :=
  | reach_new idx ok up mac a : acd_host_new idx ok up mac = Some a -> reachable a
  | reach_start e ip a : reachable a -> reachable (state_of (acd_host_start e ip) a)
  | reach_stop a : reachable a -> reachable (state_of acd_host_stop a)
  | reach_register ev f a : reachable a -> reachable (state_of (acd_host_register_event ev f) a)
  | reach_event ev a : reachable a -> reachable (state_of (handle ev) a).

(** ** Properties *)

(** in every state reached by starting, stopping and the events of the
    main loop, a pending timer is the one of the current state, and the retry
    counter never exceeds [PROBE_NUM] while probing and [ANNOUNCE_NUM] while
    announcing, so that the tests for equality that end the two phases are
    always met. *)
Lemma acd_timer_invariant a : reachable a -> inv a.
Proof.
  induction 1 as [idx ok up mac a H|e ip a _ _|a _ _|ev f a _ I|ev a _ I].
  - unfold acd_host_new in H. repeat case_match; simplify_eq. done.
  - apply inv_start.
  - apply inv_stop.
  - by destruct a.
  - by apply inv_handle.
Qed.

Lemma acd_timer_invariant_witness :
  exists a, acd_host_new 2 true true [2; 0; 0; 0; 0; 1] = Some a /\
    inv (state_of (acd_host_start (mk_env 5 true 77 0) 0x0a000001) a).
Proof.
  eexists. split; [reflexivity|]. apply acd_timer_invariant, reach_start.
  by eapply (reach_new 2 true true [2; 0; 0; 0; 0; 1]).
Defined.

Definition probe_packet (a : acd_host) (ip : Z) : list Z :=
  arp_send_packet (mac_address a) 0 ip.
Definition announce_packet (a : acd_host) (ip : Z) : list Z :=
  arp_send_packet (mac_address a) ip ip.

(** The state of an acquisition, as its phase, retry count and timer. *)
Definition at_phase (a : acd_host) (st : acd_state) (r : Z) (t : option (timer * Z)) : acd_host :=
  upd_timeout t (upd_retry_times r (upd_state st a)).

Definition next_delay (e : env) (r : Z) : Z :=
  if r <? PROBE_NUM then random_delay_ms e (PROBE_MAX - PROBE_MIN) + PROBE_MIN * 1000
  else ANNOUNCE_WAIT * 1000.

Lemma send_probe_run e a :
  listen_on a = true ->
  send_probe_packet e a =
    (tt, upd_timeout (Some (acd_probe_timer, next_delay e (retry_times a)))
           (if retry_times a =? 1 then upd_state ACD_STATE_PROBE a else a),
     [Send (probe_packet a (requested_ip a))]).
Proof.
  intros Hl. destruct a. simpl in *. subst. unfold send_probe_packet.
  run_prog. simpl. by destruct (retry_times0 =? 1).
Qed.

Lemma fire_probe e a r d :
  0 <= r < PROBE_NUM -> listen_on a = true ->
  exists d', handle (Timer e) (at_phase a ACD_STATE_PROBE r (Some (acd_probe_timer, d))) =
    (tt, at_phase a ACD_STATE_PROBE (r + 1) (Some (acd_probe_timer, d')),
     [Send (probe_packet a (requested_ip a))]).
Proof.
  intros Hr Hl. exists (next_delay e (r + 1)). unfold handle, fire, acd_probe_timeout.
  unfold mbind, prog_bind, get, modify. cbn [timeout at_phase upd_timeout retry_times
    upd_retry_times upd_state].
  destruct (Z.eqb_spec r PROBE_NUM); [lia|].
  rewrite send_probe_run by done. cbn [retry_times upd_retry_times upd_timeout upd_state].
  rewrite u32_small by (unfold PROBE_NUM in *; lia).
  destruct (r + 1 =? 1); by destruct a.
Qed.

Lemma fire_probe_last e a d :
  handle (Timer e) (at_phase a ACD_STATE_PROBE PROBE_NUM (Some (acd_probe_timer, d))) =
    (tt, at_phase a ACD_STATE_ANNOUNCE 1 (Some (acd_announce_timer, ANNOUNCE_INTERVAL * 1000)),
     [Send (announce_packet a (requested_ip a))]).
Proof. by destruct a. Qed.

Lemma fire_announce e a d :
  handle (Timer e) (at_phase a ACD_STATE_ANNOUNCE 1 (Some (acd_announce_timer, d))) =
    (tt, at_phase a ACD_STATE_ANNOUNCE 2 (Some (acd_announce_timer, ANNOUNCE_INTERVAL * 1000)),
     [Send (announce_packet a (requested_ip a))]).
Proof. by destruct a. Qed.

Lemma fire_announce_last e a d :
  handle (Timer e) (at_phase a ACD_STATE_ANNOUNCE 2 (Some (acd_announce_timer, d))) =
    let rep := negb (ac_resolved a) && negb (is_link_local (requested_ip a)) in
    (tt, upd_conflicts 0 (at_phase (upd_ac_resolved (if rep then true else ac_resolved a) a)
           ACD_STATE_MONITOR 2 None),
     (if rep then [LastAddressConflict (ac_ip a) (ac_mac a) (ac_timestamp a) true] else []) ++
     (if has_cb a ACD_HOST_EVENT_IPV4_AVAILABLE
      then [Callback ACD_HOST_EVENT_IPV4_AVAILABLE] else [])).
Proof.
  destruct a. acd_unfold. run_prog. simpl. step_tests; simpl; done.
Qed.

Lemma handle_all_step ev evs a a' os :
  handle ev a = (tt, a', os) ->
  state_of (handle_all (ev :: evs)) a = state_of (handle_all evs) a' /\
  outputs_of (handle_all (ev :: evs)) a = os ++ outputs_of (handle_all evs) a'.
Proof.
  intros E. destruct (handle_all_cons ev evs a) as [-> ->].
  assert (state_of (handle ev) a = a') as -> by (unfold state_of; by rewrite E).
  by assert (outputs_of (handle ev) a = os) as -> by (unfold outputs_of; by rewrite E).
Qed.

(** an acquisition without conflict runs to its end: a successful start
    followed by six expirations of the timer sends three probes and two
    announcements, clears an unresolved conflict record of a routable address,
    reports the address as available and leaves the host monitoring it, with
    the conflict count back to zero. *)
Lemma acd_quiet_run e0 ip a e1 e2 e3 e4 e5 e6 :
  result_of (acd_host_start e0 ip) a = 0 ->
  let a0 := state_of (acd_host_start e0 ip) a in
  let m := handle_all [Timer e1; Timer e2; Timer e3; Timer e4; Timer e5; Timer e6] in
  state (state_of m a0) = ACD_STATE_MONITOR /\ timeout (state_of m a0) = None /\
  requested_ip (state_of m a0) = ip /\ conflicts (state_of m a0) = 0 /\
  outputs_of m a0 =
    [Send (probe_packet a ip); Send (probe_packet a ip); Send (probe_packet a ip);
     Send (announce_packet a ip); Send (announce_packet a ip)] ++
    (if negb (ac_resolved a) && negb (is_link_local ip)
     then [LastAddressConflict (ac_ip a) (ac_mac a) (ac_timestamp a) true] else []) ++
    (if has_cb a ACD_HOST_EVENT_IPV4_AVAILABLE
     then [Callback ACD_HOST_EVENT_IPV4_AVAILABLE] else []).
Proof.
  intros H. cbv zeta. set (a0 := state_of (acd_host_start e0 ip) a).
  assert (E0 : exists d, a0 = at_phase a0 ACD_STATE_PROBE 0 (Some (acd_probe_timer, d))).
  { subst a0. unfold state_of. rewrite start_ok by done. by eexists. }
  assert (F : listen_on a0 = true /\ requested_ip a0 = ip /\ mac_address a0 = mac_address a /\
    ac_resolved a0 = ac_resolved a /\ ac_ip a0 = ac_ip a /\ ac_mac a0 = ac_mac a /\
    ac_timestamp a0 = ac_timestamp a /\ has_cb a0 = has_cb a).
  { subst a0. unfold state_of. by rewrite start_ok. }
  clearbody a0. destruct F as (Hl & Hip & Hm & F1 & F2 & F3 & F4 & F5). destruct E0 as (d0 & E0).
  destruct (fire_probe e1 a0 0 d0) as (d1 & S1); [done..|].
  destruct (fire_probe e2 a0 1 d1) as (d2 & S2); [done..|].
  destruct (fire_probe e3 a0 2 d2) as (d3 & S3); [done..|].
  pose proof (fire_probe_last e4 a0 d3) as S4.
  pose proof (fire_announce e5 a0 (ANNOUNCE_INTERVAL * 1000)) as S5.
  pose proof (fire_announce_last e6 a0 (ANNOUNCE_INTERVAL * 1000)) as S6. cbv zeta in S6.
  rewrite <- E0 in S1. unfold probe_packet, announce_packet in *.
  rewrite Hip, Hm, F1, F2, F3, F4, F5 in *.
  rewrite !(proj1 (handle_all_step _ _ _ _ _ S1)), !(proj1 (handle_all_step _ _ _ _ _ S2)),
    !(proj1 (handle_all_step _ _ _ _ _ S3)), !(proj1 (handle_all_step _ _ _ _ _ S4)),
    !(proj1 (handle_all_step _ _ _ _ _ S5)), !(proj1 (handle_all_step _ _ _ _ _ S6)).
  rewrite (proj2 (handle_all_step _ _ _ _ _ S1)), (proj2 (handle_all_step _ _ _ _ _ S2)),
    (proj2 (handle_all_step _ _ _ _ _ S3)), (proj2 (handle_all_step _ _ _ _ _ S4)),
    (proj2 (handle_all_step _ _ _ _ _ S5)), (proj2 (handle_all_step _ _ _ _ _ S6)).
  split_and!; [done..|]. change (outputs_of (handle_all []) ?a) with (@nil output).
  by rewrite app_nil_r.
Qed.

Definition no_env : env := mk_env 5 true 77 0.
Definition sample_host : acd_host :=
  mk_acd ACD_STATE_PROBE 2 [2; 0; 0; 0; 0; 1] 0 0 [0; 0; 0; 0; 0; 0] 0 true false (-1) 0 0 None
    false (fun _ => true).

Lemma acd_quiet_run_witness :
  result_of (acd_host_start no_env 0x0a000001) sample_host = 0 /\
  state (state_of (handle_all (repeat (Timer no_env) 6))
           (state_of (acd_host_start no_env 0x0a000001) sample_host)) = ACD_STATE_MONITOR.
Proof.
  split; [reflexivity|].
  apply (acd_quiet_run no_env 0x0a000001 sample_host no_env no_env no_env no_env no_env no_env).
  reflexivity.
Defined.

(** C4: an address is reported as available only if it went unopposed: in any
    sequence of timer expirations and received packets after a successful
    start, the event that reports it is preceded by no packet of another
    station that claims or probes the address, however the packets and the
    timers interleave.  This holds for a host whose watch is on the socket it
    opened and as long as the socket does not break: a host whose socket has
    broken no longer hears the others ([acd_deaf_after_socket_error]). *)
Theorem acd_available_unopposed e ip a evs :
  listen_on a = listener_watch a -> result_of (acd_host_start e ip) a = 0 ->
  Forall (fun ev => is_link_event ev = true) evs ->
  let a0 := state_of (acd_host_start e ip) a in
  Callback ACD_HOST_EVENT_IPV4_AVAILABLE ∈ outputs_of (handle_all evs) a0 ->
  exists pre ev post, evs = pre ++ ev :: post /\
    Forall (fun ev => event_conflicts (mac_address a) ip ev = false) (pre ++ [ev]) /\
    (Callback ACD_HOST_EVENT_IPV4_AVAILABLE ∉ outputs_of (handle_all pre) a0) /\
    (Callback ACD_HOST_EVENT_IPV4_AVAILABLE ∈
      outputs_of (handle ev) (state_of (handle_all pre) a0)).
Proof.
  intros Hw H Hl a0 Hin.
  assert (A : acquiring (mac_address a) ip a0).
  { split; [apply inv_start|]. subst a0. unfold state_of. rewrite start_ok by done. simpl.
    rewrite <- Hw. split_and!; try done; [|by left]. by destruct (listen_on a). }
  destruct (acquiring_handle_all _ _ evs a0 A Hl) as (pre & ev & post & E & Hf & Hp & Hq).
  { intros N. by apply N. }
  exists pre, ev, post. split_and!; try done. unfold no_available in Hq.
  destruct (decide (Callback ACD_HOST_EVENT_IPV4_AVAILABLE ∈
    outputs_of (handle ev) (state_of (handle_all pre) a0))); done.
Qed.

Lemma acd_available_unopposed_witness :
  exists pre ev post, repeat (Timer no_env) 7 = pre ++ ev :: post /\
    Forall (fun ev => event_conflicts [2; 0; 0; 0; 0; 1] 0x0a000001 ev = false) (pre ++ [ev]).
Proof.
  destruct (acd_available_unopposed no_env 0x0a000001 sample_host (repeat (Timer no_env) 7))
    as (pre & ev & post & E & H & _).
  - reflexivity.
  - reflexivity.
  - repeat constructor.
  - apply list_elem_of_In. vm_compute. tauto.
  - by exists pre, ev, post.
Defined.

(** a held address is defended once.  A claim of the address by another
    station is answered by one announcement and the host enters the defence
    state; a second claim before the defence interval is over is not answered
    again: it is recorded (for a routable address) and the address reported as
    lost.  When the interval passes quietly instead, the host is back in the
    monitoring state with no conflict counted. *)
Lemma acd_defends_once e1 p1 e2 p2 a :
  state a = ACD_STATE_MONITOR -> listen_on a = true -> listener_watch a = true ->
  conflicting (mac_address a) (requested_ip a) p1 = true -> source_conflict a p1 = true ->
  conflicting (mac_address a) (requested_ip a) p2 = true -> source_conflict a p2 = true ->
  let a1 := state_of (handle (Arp e1 p1)) a in
  state a1 = ACD_STATE_DEFEND /\
  timeout a1 = Some (acd_defend_timer, DEFEND_INTERVAL * 1000) /\
  outputs_of (handle (Arp e1 p1)) a = [Send (announce_packet a (requested_ip a))] /\
  outputs_of (handle (Arp e2 p2)) a1 =
    (if is_link_local (requested_ip a) then []
     else [LastAddressConflict (requested_ip a) (arp_sha p2) (real_time e2) false]) ++
    (if has_cb a ACD_HOST_EVENT_IPV4_LOST then [Callback ACD_HOST_EVENT_IPV4_LOST] else []) /\
  state (state_of (handle (Timer e2)) a1) = ACD_STATE_MONITOR /\
  conflicts (state_of (handle (Timer e2)) a1) = 0.
Proof.
  intros Hst Hl Hw Hc1 Hs1 Hc2 Hs2. cbv zeta.
  assert (E1 : handle (Arp e1 p1) a =
    (tt, upd_timeout (Some (acd_defend_timer, DEFEND_INTERVAL * 1000))
           (upd_state ACD_STATE_DEFEND (upd_conflicts (u32 (conflicts a + 1)) a)),
     [Send (announce_packet a (requested_ip a))])).
  { rewrite handle_arp, Hl, Hw, Hc1, Hs1. simpl. destruct a. simpl in *. subst. done. }
  set (a1 := state_of (handle (Arp e1 p1)) a).
  assert (Ea1 : a1 = upd_timeout (Some (acd_defend_timer, DEFEND_INTERVAL * 1000))
    (upd_state ACD_STATE_DEFEND (upd_conflicts (u32 (conflicts a + 1)) a)))
    by (subst a1; unfold state_of; by rewrite E1).
  rewrite Ea1. split_and!; try done.
  - unfold outputs_of. by rewrite E1.
  - unfold outputs_of. rewrite handle_arp. clear E1 Ea1 a1 Hc1 Hs1.
    destruct a. simpl in *. subst. unfold source_conflict in *. simpl in *.
    rewrite Hc2, Hs2. unfold acd_conflict. acd_unfold. run_prog. simpl.
    destruct (is_link_local requested_ip0); simpl;
      destruct (has_cb0 ACD_HOST_EVENT_IPV4_LOST); done.
Qed.

Definition monitoring_host : acd_host :=
  mk_acd ACD_STATE_MONITOR 2 [2; 0; 0; 0; 0; 1] 0x0a000001 0 [0; 0; 0; 0; 0; 0] 0 true true 5 2 0
    None true (fun _ => true).

Lemma acd_defends_once_witness :
  let p := arp_send_packet [2; 0; 0; 0; 0; 9] 0x0a000001 0x0a000001 in
  outputs_of (handle (Arp no_env p)) monitoring_host =
    [Send (announce_packet monitoring_host 0x0a000001)].
Proof.
  apply (acd_defends_once no_env (arp_send_packet [2; 0; 0; 0; 0; 9] 0x0a000001 0x0a000001)
    no_env (arp_send_packet [2; 0; 0; 0; 0; 9] 0x0a000001 0x0a000001) monitoring_host);
    reflexivity.
Defined.

(** the packets of one host are recognised by another: a probe and an
    announcement of an address are conflicts for every station with another
    hardware address that is probing, announcing or holding it. *)
Lemma acd_packets_detected mac1 mac2 ip sip :
  length mac1 = 6%nat -> mac1 <> mac2 -> sip = 0 \/ sip = ip ->
  conflicting mac2 ip (arp_send_packet mac1 sip ip) = true.
Proof.
  intros Hlen Hne Hs.
  set (p := arp_send_packet mac1 sip ip).
  assert (F : length p = 28%nat /\ arp_op p = ARPOP_REQUEST /\ arp_sha p = mac1 /\
    arp_spa p = be_bytes32 sip /\ arp_tpa p = be_bytes32 ip).
  { do 7 (destruct mac1 as [|? mac1]; try discriminate Hlen). done. }
  destruct F as (F1 & F2 & F3 & F4 & F5). unfold conflicting.
  rewrite F1, F2, F3, F4, F5, !bytes_eqb_refl, orb_true_r. simpl.
  unfold bytes_eqb at 1. rewrite bool_decide_eq_false_2 by done. simpl.
  destruct Hs as [-> | ->]; [by rewrite orb_true_r|by rewrite bytes_eqb_refl].
Qed.

Lemma acd_packets_detected_witness :
  conflicting [2; 0; 0; 0; 0; 2] 0x0a000001
    (arp_send_packet [2; 0; 0; 0; 0; 1] 0 0x0a000001) = true.
Proof. apply acd_packets_detected; [reflexivity|discriminate|by left]. Defined.

(** A random link-local address lies in 169.254.1.0 - 169.254.254.255, the
    range RFC 3927 allows; the loop ends with the first random value whose low
    16 bits are at most 0xfdff. *)
Lemma arp_random_ip_range randoms ip :
  arp_random_ip randoms = Some ip -> 0xa9fe0100 <= ip <= 0xa9fefeff /\ is_link_local ip = true.
Proof.
  induction randoms as [|r rs IH]; [done|]. cbn [arp_random_ip].
  set (tmp := u32 r .& 65535).
  assert (Ht : 0 <= tmp < 2 ^ 16) by (apply land_range; lia).
  destruct (Z.ltb_spec (65535 - 512) tmp); [exact IH|]. intros [= <-].
  unfold LINKLOCAL_ADDR. rewrite u32_small by lia. split; [lia|].
  unfold is_link_local, LINKLOCAL_ADDR. apply Z.eqb_eq.
  replace (2851995648 + 256 + tmp) with (2851995648 .| (256 + tmp)).
  - rewrite Z.land_lor_distr_l.
    replace ((256 + tmp) .& 2851995648) with 0; [done|]. symmetry.
    apply Z.bits_inj'. intros i Hi. rewrite Z.land_spec, Z.bits_0.
    destruct (Z.ltb_spec i 16).
    + change 2851995648 with (43518 * 2 ^ 16)%Z. rewrite Z.mul_pow2_bits_low by lia.
      by rewrite andb_false_r.
    + rewrite <- (Z.mod_small (256 + tmp) (2 ^ 16)), Z.mod_pow2_bits_high by lia. done.
  - rewrite (lor_add _ _ 16) by (done || lia). lia.
Qed.

(** The link-local test masks the address with 169.254.0.0 itself instead of
    255.255.0.0: addresses outside 169.254/16 pass it. *)
Lemma is_link_local_too_wide :
  exists a, inet_aton a = Some 0xabff0001 /\ is_link_local 0xabff0001 = true.
Proof. exists "171.255.0.1"%string. split; reflexivity. Qed.

(** After an error condition on the socket the watch is gone but [listen_on]
    stays set: a new start succeeds and listens to nothing. *)
Lemma acd_deaf_after_socket_error e1 p e2 ip a :
  listen_on a = true ->
  let a1 := state_of (acd_listener_event e1 true p) a in
  result_of (acd_host_start e2 ip) a1 = 0 /\
  listener_watch (state_of (acd_host_start e2 ip) a1) = false.
Proof. intros Hl. destruct a. simpl in *. subst. done. Qed.

End Acd.
