(* ===== verification/DhcpPacket.v ===== *)
(** * DHCP packets (gdhcp/common.c, gdhcp/common.h, gdhcp/unaligned.h)

    A [struct dhcp_packet] is the list of its 628 bytes; a pointer into it is
    an offset.  The same functions are used by the DHCP client and by the DHCP
    server of ConnMan's tethering mode. *)

From S2P Require Import Prelude Inet Buffer.

Module DhcpPacket.

(** ** Layout of struct dhcp_packet *)

Definition DHCP_OPTIONS_BUFSIZE : Z := 308.
Definition EXTEND_FOR_BUGGY_SERVERS : Z := 80.
Definition options_size : Z := DHCP_OPTIONS_BUFSIZE + EXTEND_FOR_BUGGY_SERVERS.

Definition off_op : nat := 0.
Definition off_htype : nat := 1.
Definition off_hlen : nat := 2.
Definition off_xid : nat := 4.
Definition off_secs : nat := 8.
Definition off_flags : nat := 10.
Definition off_ciaddr : nat := 12.
Definition off_yiaddr : nat := 16.
Definition off_gateway_nip : nat := 24.
Definition off_chaddr : nat := 28.
Definition off_sname : nat := 44.
Definition off_file : nat := 108.
Definition off_cookie : nat := 236.
Definition off_options : nat := 240.
Definition packet_size : nat := 628.

Definition DHCP_MAGIC : Z := 0x63825363.
Definition BOOTREQUEST : Z := 1.
Definition BOOTREPLY : Z := 2.

(** A 32-bit field as it is in the packet: its bytes, most significant first,
    read as a number, i.e. [ntohl (packet->field)]. *)
Definition field32 (off : nat) (pkt : list Z) : Z := be_word32 (slice off 4 pkt).
Definition set_field32 (off : nat) (v : Z) (pkt : list Z) : list Z := wr off (be_bytes32 v) pkt.

Definition DHCP_PADDING : Z := 0x00.
Definition DHCP_SUBNET : Z := 0x01.
Definition DHCP_ROUTER : Z := 0x03.
Definition DHCP_DNS_SERVER : Z := 0x06.
Definition DHCP_HOST_NAME : Z := 0x0c.
Definition DHCP_REQUESTED_IP : Z := 0x32.
Definition DHCP_LEASE_TIME : Z := 0x33.
Definition DHCP_OPTION_OVERLOAD : Z := 0x34.
Definition DHCP_MESSAGE_TYPE : Z := 0x35.
Definition DHCP_SERVER_ID : Z := 0x36.
Definition DHCP_END : Z := 0xff.

Definition FILE_FIELD : Z := 1.
Definition SNAME_FIELD : Z := 2.

Definition DHCPDISCOVER : Z := 1.
Definition DHCPOFFER : Z := 2.
Definition DHCPREQUEST : Z := 3.
Definition DHCPDECLINE : Z := 4.
Definition DHCPACK : Z := 5.
Definition DHCPNAK : Z := 6.
Definition DHCPRELEASE : Z := 7.
Definition DHCPINFORM : Z := 8.

(** ** Option types *)

Definition OPTION_UNKNOWN : Z := 0.
Definition OPTION_IP : Z := 1.
Definition OPTION_STRING : Z := 2.
Definition OPTION_U8 : Z := 3.
Definition OPTION_U16 : Z := 4.
Definition OPTION_U32 : Z := 5.
Definition OPTION_TYPE_MASK : Z := 0x0f.
Definition OPTION_LIST : Z := 0x10.

Definition client_options : list (Z * Z) :=
  [(OPTION_IP, 0x01); (OPTION_IP .| OPTION_LIST, 0x03); (OPTION_IP .| OPTION_LIST, 0x06);
   (OPTION_STRING, 0x0c); (OPTION_STRING, 0x0f); (OPTION_U16, 0x1a);
   (OPTION_IP .| OPTION_LIST, 0x2a); (OPTION_U32, 0x33); (OPTION_IP, 0x32);
   (OPTION_U8, 0x35); (OPTION_U32, 0x36); (OPTION_U16, 0x39); (OPTION_STRING, 0x3c);
   (OPTION_STRING, 0x3d); (OPTION_STRING, 0xfc); (OPTION_UNKNOWN, 0x00)].

(** The table ends at the entry whose code is 0. *)
Fixpoint code_type_in (table : list (Z * Z)) (code : Z) : Z :=
  match table with
  | [] => OPTION_UNKNOWN
  | (ty, c) :: table =>
      if c =? 0 then OPTION_UNKNOWN
      else if c =? code then ty else code_type_in table code
  end.

Definition dhcp_get_code_type (code : Z) : Z := code_type_in client_options code.

(** [dhcp_option_lengths], indexed by type. *)
Definition dhcp_option_lengths (ty : Z) : Z := nth (Z.to_nat ty) [0; 4; 1; 1; 2; 4] 0.

Definition check_option (code data_len : Z) : Z :=
  let ty := dhcp_get_code_type code in
  if ty =? OPTION_UNKNOWN then ty
  else if negb (dhcp_option_lengths (ty .& OPTION_TYPE_MASK) =? data_len) then OPTION_UNKNOWN
  else ty.

(** ** Looking for an option *)

Record scan := mk_scan { optionptr : Z; rem : Z; overload : Z }.

Inductive scan_result :=
  | Null                    (** [NULL] is returned *)
  | Found (data : Z)        (** a pointer to the data of the option *)
  | Overread                (** a byte outside the structure is read *)
  | Overflow.               (** [rem], an [int], overflows *)

(** One round of the [while (1)] of [dhcp_get_option]. *)
Definition get_option_step (pkt : list Z) (options_end code : Z) (s : scan) :
    scan + scan_result :=
  let p := optionptr s in
  if (rem s <=? 0) && (options_end <? p) then inr Null
  else
    match rd pkt p with
    | None => inr Overread
    | Some c =>
        if c =? DHCP_PADDING then inl (mk_scan (p + 1) (rem s - 1) (overload s))
        else if c =? DHCP_END then
          if negb ((overload s .& FILE_FIELD) =? 0) then
            inl (mk_scan (Z.of_nat off_file) 128 (overload s .& (0xff - FILE_FIELD)))
          else if negb ((overload s .& SNAME_FIELD) =? 0) then
            inl (mk_scan (Z.of_nat off_sname) 64 (overload s .& (0xff - SNAME_FIELD)))
          else inr Null
        else if options_end <? p + 1 then inr Null
        else
          match rd pkt (p + 1) with
          | None => inr Overread
          | Some l =>
              let len := 2 + l in
              let r := rem s - len in
              if r <? - 2 ^ 31 then inr Overflow
              else if r <? 0 then inl (mk_scan p r (overload s))
              else if c =? code then
                if options_end <? p + len then inr Null else inr (Found (p + 2))
              else if c =? DHCP_OPTION_OVERLOAD then
                match rd pkt (p + 2) with
                | None => inr Overread
                | Some o => inl (mk_scan (p + len) r (overload s .| o))
                end
              else inl (mk_scan (p + len) r (overload s))
          end
    end.

(** [None] when the loop has not ended after [fuel] rounds. *)
Fixpoint get_option_loop (fuel : nat) (pkt : list Z) (options_end code : Z) (s : scan) :
    option scan_result :=
  match fuel with
  | O => None
  | S fuel =>
      match get_option_step pkt options_end code s with
      | inr r => Some r
      | inl s => get_option_loop fuel pkt options_end code s
      end
  end.

(** [options_end] is the address of the last byte received. *)
Definition dhcp_get_option (fuel : nat) (pkt : list Z) (packet_len code : Z) :
    option scan_result :=
  get_option_loop fuel pkt (packet_len - 1) code
    (mk_scan (Z.of_nat off_options) options_size 0).

Definition scan_fuel : nat := 1024.

(** The offset of the data of an option; the outer [None] when the scan spins
    or leaves the packet. *)
Definition get_option (pkt : list Z) (packet_len code : Z) : option (option Z) :=
  match dhcp_get_option scan_fuel pkt packet_len code with
  | Some Null => Some None
  | Some (Found off) => Some (Some off)
  | Some Overread | Some Overflow | None => None
  end.

(** The four bytes at a pointer, in network byte order. *)
Definition deref32 (pkt : list Z) (off : Z) : option Z :=
  let l := slice (Z.to_nat off) 4 pkt in
  if (length l =? 4)%nat then Some (be_word32 l) else None.

(** ** Adding options *)

(** [dhcp_end_option (packet->options)]: the index of the end marker;
    [None] when it is not met within [fuel] options. *)
Fixpoint end_option_loop (fuel : nat) (pkt : list Z) (i : Z) : option Z :=
  match fuel with
  | O => None
  | S fuel =>
      match rd pkt (Z.of_nat off_options + i) with
      | None => None
      | Some c =>
          if c =? DHCP_END then Some i
          else if c =? DHCP_PADDING then end_option_loop fuel pkt (i + 1)
          else
            match rd pkt (Z.of_nat off_options + i + 1) with
            | None => None
            | Some l => end_option_loop fuel pkt (i + l + 2 - 1 + 1)
            end
      end
  end.

Definition dhcp_end_option (pkt : list Z) : option Z := end_option_loop packet_size pkt 0.

(** [addopt] is code, length and data. *)
Definition dhcp_add_binary_option (pkt addopt : list Z) : option (list Z) :=
  match dhcp_end_option pkt, addopt !! 1%nat with
  | Some e, Some l =>
      let len := 2 + l in
      if DHCP_OPTIONS_BUFSIZE <=? e + len + 1 then Some pkt
      else
        Some (wr (off_options + Z.to_nat (e + len)) [DHCP_END]
               (wr (off_options + Z.to_nat e) (take (Z.to_nat len) addopt) pkt))
  | _, _ => None
  end.

Definition dhcp_add_option_uint32 (pkt : list Z) (code data : Z) : option (list Z) :=
  if check_option code 4 =? OPTION_UNKNOWN then Some pkt
  else dhcp_add_binary_option pkt ([code; 4] ++ be_bytes32 data).

Definition dhcp_add_option_uint16 (pkt : list Z) (code data : Z) : option (list Z) :=
  if check_option code 2 =? OPTION_UNKNOWN then Some pkt
  else dhcp_add_binary_option pkt ([code; 2] ++ be_bytes16 data ++ [0; 0]).

Definition dhcp_add_option_uint8 (pkt : list Z) (code data : Z) : option (list Z) :=
  if check_option code 1 =? OPTION_UNKNOWN then Some pkt
  else dhcp_add_binary_option pkt ([code; 1; data] ++ [0; 0; 0]).

Definition dhcp_init_header (type : Z) : option (list Z) :=
  let pkt := repeat 0 packet_size in
  let op := if (type =? DHCPOFFER) || (type =? DHCPACK) || (type =? DHCPNAK)
            then BOOTREPLY else BOOTREQUEST in
  let pkt := wr off_op [op] pkt in
  let pkt := wr off_htype [1] pkt in
  let pkt := wr off_hlen [6] pkt in
  let pkt := set_field32 off_cookie DHCP_MAGIC pkt in
  let pkt := wr off_options [DHCP_END] pkt in
  dhcp_add_option_uint8 pkt DHCP_MESSAGE_TYPE type.

(** [data] is what [read] returned; the error number is that of a failed read. *)
Definition dhcp_recv_l3_packet (data : list Z + Z) : list Z * Z :=
  match data with
  | inr err => (repeat 0 packet_size, - err)
  | inl data =>
      let data := take packet_size data in
      let pkt := wr 0 data (repeat 0 packet_size) in
      if negb (bytes_eqb (slice off_cookie 4 pkt) (be_bytes32 DHCP_MAGIC))
      then (pkt, - EPROTO)
      else (pkt, Z.of_nat (length data))
  end.

(** ** The Internet checksum *)

(** The sum of the 16-bit words of host (little endian) order, the left-over
    byte being the low byte of the last word. *)
Fixpoint sum_words (bytes : list Z) : Z :=
  match bytes with
  | a :: b :: bytes => (a + 256 * b) + sum_words bytes
  | [a] => a
  | [] => 0
  end.

(** [while (sum >> 16)]: every round makes the sum smaller. *)
Fixpoint fold_sum (fuel : nat) (sum : Z) : Z :=
  match fuel with
  | O => sum
  | S fuel =>
      if (sum .>> 16) =? 0 then sum
      else fold_sum fuel ((sum .& 0xffff) + (sum .>> 16))
  end.

Definition dhcp_checksum (bytes : list Z) : Z :=
  u16 (Z.lnot (fold_sum 4 (sum_words bytes))).

(** ** DHCPv6 options *)

Record v6_scan := mk_v6 { v6_ptr : Z; v6_rem : Z; v6_found : option (Z * Z); v6_count : Z }.

Inductive v6_result :=
  | V6Bad                                         (** [bad_packet]: NULL, length and count 0 *)
  | V6Done (found : option (Z * Z)) (count : Z)   (** data offset and length of the last match *)
  | V6Overread.

(** One round of the loop of [dhcpv6_get_option]; [buf] is what follows the
    header of four bytes. *)
Definition v6_step (buf : list Z) (code : Z) (s : v6_scan) : v6_scan + v6_result :=
  let p := v6_ptr s in
  match rd buf p, rd buf (p + 1), rd buf (p + 2), rd buf (p + 3) with
  | Some b0, Some b1, Some b2, Some b3 =>
      let opt_code := (b0 .<< 8) .| b1 in
      let opt_len := (b2 .<< 8) .| b3 in
      let len := u16 (opt_len + 4) in
      if len <? 4 then inr V6Bad
      else
        let r := v6_rem s - len in
        if r <? 0 then inr (V6Done (v6_found s) (v6_count s))
        else
          let hit := opt_code =? code in
          let found := if hit then Some (p + 4, opt_len) else v6_found s in
          let count := if hit then v6_count s + 1 else v6_count s in
          if r =? 0 then inr (V6Done found count)
          else inl (mk_v6 (p + len) r found count)
  | _, _, _, _ => inr V6Overread
  end.

Fixpoint v6_loop (fuel : nat) (buf : list Z) (code : Z) (s : v6_scan) : option v6_result :=
  match fuel with
  | O => None
  | S fuel =>
      match v6_step buf code s with
      | inr r => Some r
      | inl s => v6_loop fuel buf code s
      end
  end.

Definition dhcpv6_get_option (fuel : nat) (buf : list Z) (pkt_len code : Z) : option v6_result :=
  let r := pkt_len - 1 - 3 in
  if r <=? 0 then Some V6Bad else v6_loop fuel buf code (mk_v6 0 r None 0).

(** The code, length and data offset of the sub-option at the start of [option]. *)
Definition dhcpv6_get_sub_option (opt : list Z) (max_len : Z) : option (Z * Z * Z) :=
  let r := max_len - 2 - 2 in
  if r <=? 0 then None
  else
    match opt with
    | b0 :: b1 :: b2 :: b3 :: _ =>
        let code := (b0 .<< 8) .| b1 in
        let len := (b2 .<< 8) .| b3 in
        if r - len <? 0 then None else Some (code, len, 4)
    | _ => None
    end.

(** [pkt_len] counts the bytes used after the header. *)
Definition dhcpv6_add_binary_option (buf : list Z) (max_len pkt_len : Z) (addopt : list Z) :
    list Z * Z :=
  match addopt with
  | _ :: _ :: b2 :: b3 :: _ =>
      let len := 4 + ((b2 .<< 8) .| b3) in
      if max_len <=? pkt_len + len then (buf, pkt_len)
      else (wr (Z.to_nat pkt_len) (take (Z.to_nat len) addopt) buf, u16 (pkt_len + len))
  | _ => (buf, pkt_len)
  end.

(** [rand] is the random value drawn. *)
Definition dhcpv6_init_header (type rand : Z) : list Z :=
  let id := s32 rand in
  [type; (id .>> 16) .& 0xff; (id .>> 8) .& 0xff; id .& 0xff].

(** ** Encoded options *)

Definition tlv (o : Z * list Z) : list Z := o.1 :: Z.of_nat (length o.2) :: o.2.

Definition encode (opts : list (Z * list Z)) : list Z := concat (map tlv opts).

(** Options the scanner steps over: not padding, not the end marker and not
    the overload option. *)
Definition plain_opt (o : Z * list Z) : Prop :=
  0 < o.1 < DHCP_END /\ o.1 <> DHCP_OPTION_OVERLOAD /\ (length o.2 <= 255)%nat.

(** A packet whose options area holds [opts], then the end marker. *)
Definition holds (pkt : list Z) (opts : list (Z * list Z)) : Prop :=
  length pkt = packet_size /\ Forall plain_opt opts /\
  exists hdr rest, length hdr = off_options /\ pkt = hdr ++ encode opts ++ DHCP_END :: rest.

Lemma encode_cons o opts : encode (o :: opts) = tlv o ++ encode opts.
Proof. done. Qed.

Lemma encode_app opts1 opts2 : encode (opts1 ++ opts2) = encode opts1 ++ encode opts2.
Proof. unfold encode. by rewrite map_app, concat_app. Qed.

Lemma length_tlv o : length (tlv o) = S (S (length o.2)).
Proof. done. Qed.

(** The scanner on an area that holds plain options: it finds the first
    option with the code it looks for. *)
Lemma get_option_loop_holds code opts rest : forall fuel pre options_end,
  0 < code < DHCP_END -> Forall plain_opt opts -> (length opts < fuel)%nat ->
  length (pre ++ encode opts ++ DHCP_END :: rest) = packet_size ->
  Z.of_nat (length (pre ++ encode opts)) <= options_end ->
  let pkt := pre ++ encode opts ++ DHCP_END :: rest in
  let s := mk_scan (Z.of_nat (length pre)) (Z.of_nat packet_size - Z.of_nat (length pre)) 0 in
  match find (fun o => o.1 =? code) opts with
  | None => get_option_loop fuel pkt options_end code s = Some Null
  | Some o => exists off, get_option_loop fuel pkt options_end code s = Some (Found (Z.of_nat off)) /\
      slice off (length o.2) pkt = o.2 /\ rd pkt (Z.of_nat off - 1) = Some (Z.of_nat (length o.2))
  end.
Proof.
  induction opts as [|[c d] opts IH]; intros fuel pre options_end Hcode Hopts Hf Hlen He;
    (destruct fuel as [|fuel]; [simpl in Hf; lia|]); cbn [find get_option_loop].
  - unfold get_option_step. cbn [optionptr rem overload].
    rewrite length_app in Hlen. cbn [encode map concat app length] in Hlen.
    destruct (Z.leb_spec (Z.of_nat packet_size - Z.of_nat (length pre)) 0); [lia|].
    change (encode []) with (@nil Z). cbn [app andb]. rewrite rd_mid. done.
  - apply Forall_cons_1 in Hopts as [(Hc & Hov & Hd) Hopts]. cbn [fst snd] in *.
    rewrite encode_cons in *. unfold tlv in *. cbn [fst snd] in *.
    rewrite <- !app_assoc in *. cbn [app] in *.
    rewrite !length_app in Hlen, He. cbn [length] in Hlen, He. rewrite !length_app in Hlen, He.
    assert (Es : get_option_step (pre ++ c :: Z.of_nat (length d) :: d ++ encode opts ++
        DHCP_END :: rest) options_end code
        (mk_scan (Z.of_nat (length pre)) (Z.of_nat packet_size - Z.of_nat (length pre)) 0) =
      if c =? code then inr (Found (Z.of_nat (length pre) + 2))
      else inl (mk_scan (Z.of_nat (length pre) + (2 + Z.of_nat (length d)))
        (Z.of_nat packet_size - Z.of_nat (length pre) - (2 + Z.of_nat (length d))) 0)).
    { unfold get_option_step. cbn [optionptr rem overload].
      destruct (Z.leb_spec (Z.of_nat packet_size - Z.of_nat (length pre)) 0); [lia|]. cbn [andb].
      rewrite rd_mid. unfold DHCP_PADDING, DHCP_END in *.
      destruct (Z.eqb_spec c 0); [lia|]. destruct (Z.eqb_spec c 255); [lia|].
      destruct (Z.ltb_spec options_end (Z.of_nat (length pre) + 1)); [lia|].
      rewrite rd_mid1.
      match goal with |- context [?b <? - 2 ^ 31] =>
        destruct (Z.ltb_spec b (- 2 ^ 31)); [lia|]; destruct (Z.ltb_spec b 0); [lia|] end.
      destruct (c =? code); [by destruct (Z.ltb_spec options_end
        (Z.of_nat (length pre) + (2 + Z.of_nat (length d)))); [lia|]|].
      by rewrite (proj2 (Z.eqb_neq c DHCP_OPTION_OVERLOAD)). }
    rewrite Es. destruct (Z.eqb_spec c code) as [->|Hne].
    + exists (length pre + 2)%nat. split; [do 2 f_equal; lia|].
      unfold slice. cbn [snd]. rewrite drop_app_ge by lia.
      replace (length pre + 2 - length pre)%nat with 2%nat by lia. cbn [skipn].
      rewrite drop_0, take_app_length. split; [done|].
      replace (Z.of_nat (length pre + 2) - 1) with (Z.of_nat (length pre) + 1) by lia. by rewrite rd_mid1.
    + set (pre' := pre ++ c :: Z.of_nat (length d) :: d).
      assert (Ep : length pre' = (length pre + (2 + length d))%nat)
        by (subst pre'; rewrite length_app; cbn [length]; lia).
      assert (Epkt : pre ++ c :: Z.of_nat (length d) :: d ++ encode opts ++ DHCP_END :: rest =
        pre' ++ encode opts ++ DHCP_END :: rest) by (subst pre'; by rewrite <- app_assoc).
      rewrite Epkt.
      replace (Z.of_nat (length pre) + (2 + Z.of_nat (length d))) with (Z.of_nat (length pre')) by lia.
      replace (Z.of_nat packet_size - Z.of_nat (length pre) - (2 + Z.of_nat (length d)))
        with (Z.of_nat packet_size - Z.of_nat (length pre')) by lia.
      rewrite ?length_app in Hlen; cbn [length] in Hlen. simpl in Hf.
      apply IH; try done; rewrite ?length_app; cbn [length]; lia.
Qed.

(** [dhcp_end_option] stops at the end marker behind the options. *)
Lemma end_option_loop_holds opts rest : forall fuel hdr pre,
  Forall plain_opt opts -> (length opts < fuel)%nat -> length hdr = off_options ->
  end_option_loop fuel (hdr ++ pre ++ encode opts ++ DHCP_END :: rest) (Z.of_nat (length pre)) =
    Some (Z.of_nat (length (pre ++ encode opts))).
Proof.
  induction opts as [|[c d] opts IH]; intros fuel hdr pre Hopts Hf Hh;
    (destruct fuel as [|fuel]; [simpl in Hf; lia|]); cbn [end_option_loop].
  - change (encode []) with (@nil Z). cbn [app].
    rewrite app_assoc, <- Nat2Z.inj_add, <- Hh, <- length_app, rd_mid, app_nil_r. done.
  - apply Forall_cons_1 in Hopts as [(Hc & Hov & Hd) Hopts]. cbn [fst snd] in *.
    rewrite encode_cons. unfold tlv. cbn [fst snd]. rewrite <- !app_assoc. cbn [app].
    rewrite (app_assoc hdr pre), <- Nat2Z.inj_add, <- Hh, <- length_app, rd_mid, rd_mid1.
    unfold DHCP_PADDING, DHCP_END in *.
    destruct (Z.eqb_spec c 255); [lia|]. destruct (Z.eqb_spec c 0); [lia|].
    specialize (IH fuel hdr (pre ++ c :: Z.of_nat (length d) :: d) Hopts ltac:(simpl in Hf; lia) Hh).
    rewrite <- app_assoc in IH |- *. cbn [app] in IH.
    replace (Z.of_nat (length pre) + Z.of_nat (length d) + 2 - 1 + 1)
      with (Z.of_nat (length (pre ++ c :: Z.of_nat (length d) :: d)))
      by (rewrite length_app; cbn [length]; lia).
    rewrite IH. do 2 f_equal. by rewrite <- app_assoc.
Qed.

Lemma length_encode_ge opts : (2 * length opts <= length (encode opts))%nat.
Proof.
  induction opts as [|o opts IH]; [done|]. rewrite encode_cons, length_app, length_tlv. simpl. lia.
Qed.

Lemma dhcp_end_option_holds pkt opts :
  holds pkt opts -> dhcp_end_option pkt = Some (Z.of_nat (length (encode opts))).
Proof.
  intros (Hl & Hopts & hdr & rest & Hh & ->). unfold dhcp_end_option.
  pose proof (end_option_loop_holds opts rest packet_size hdr [] Hopts) as H.
  cbn [app length] in H. change 0 with (Z.of_nat 0). rewrite H; [done| |done].
  pose proof (length_encode_ge opts) as He. rewrite !length_app in Hl. cbn [length] in Hl. lia.
Qed.

(** Stores to the header leave the options alone. *)
Lemma holds_wr off b pkt opts :
  (off + length b <= off_options)%nat -> holds pkt opts -> holds (wr off b pkt) opts.
Proof.
  intros Ho (Hl & Hopts & hdr & rest & Hh & ->). split_and!; [| done |].
  - rewrite length_wr; [done|]. rewrite Hl. unfold off_options, packet_size in *. lia.
  - exists (wr off b hdr), rest. split; [rewrite length_wr; [done|lia]|].
    unfold wr. rewrite take_app_le, drop_app_le by lia. by rewrite <- !app_assoc.
Qed.

(** Adding an option that fits puts it behind the others. *)
Lemma add_binary_option_holds pkt opts o junk :
  holds pkt opts -> plain_opt o ->
  exists pkt', dhcp_add_binary_option pkt (tlv o ++ junk) = Some pkt' /\
    if DHCP_OPTIONS_BUFSIZE <=? Z.of_nat (length (encode opts)) + Z.of_nat (length (tlv o)) + 1
    then pkt' = pkt
    else holds pkt' (opts ++ [o]) /\ take off_options pkt' = take off_options pkt.
Proof.
  intros H Ho. pose proof (dhcp_end_option_holds _ _ H) as He.
  destruct H as (Hl & Hopts & hdr & rest & Hh & ->).
  unfold dhcp_add_binary_option. rewrite He. destruct o as [c d].
  change ((tlv (c, d) ++ junk) !! 1%nat) with (Some (Z.of_nat (length d))). cbv iota.
  rewrite length_tlv. cbn [snd].
  replace (Z.of_nat (S (S (length d)))) with (2 + Z.of_nat (length d)) by lia.
  destruct (Z.leb_spec DHCP_OPTIONS_BUFSIZE
    (Z.of_nat (length (encode opts)) + (2 + Z.of_nat (length d)) + 1)) as [|Hfit]; [by eexists|].
  unfold DHCP_OPTIONS_BUFSIZE in Hfit.
  rewrite !length_app in Hl. cbn [length] in Hl. unfold packet_size, off_options in *.
  assert (E : wr (240 + Z.to_nat (Z.of_nat (length (encode opts)) + (2 + Z.of_nat (length d))))
      [DHCP_END] (wr (240 + Z.to_nat (Z.of_nat (length (encode opts))))
        (take (Z.to_nat (2 + Z.of_nat (length d))) (tlv (c, d) ++ junk))
        (hdr ++ encode opts ++ DHCP_END :: rest)) =
    hdr ++ encode opts ++ tlv (c, d) ++ DHCP_END :: drop (S (length d) + 1) rest).
  { rewrite take_app_length' by (rewrite length_tlv; cbn [snd]; lia).
    rewrite app_assoc. replace (240 + Z.to_nat (Z.of_nat (length (encode opts))))%nat
      with (length (hdr ++ encode opts)) by (rewrite length_app; lia).
    rewrite wr_app_mid by (rewrite length_tlv; cbn [length snd]; lia).
    rewrite app_assoc.
    replace (240 + Z.to_nat (Z.of_nat (length (encode opts)) + (2 + Z.of_nat (length d))))%nat
      with (length ((hdr ++ encode opts) ++ tlv (c, d)))
      by (rewrite !length_app, length_tlv; cbn [snd]; lia).
    rewrite wr_app_mid by (rewrite length_drop, length_tlv; cbn [length snd]; lia).
    rewrite drop_drop, length_tlv. cbn [length snd]. cbn [Nat.add skipn].
    rewrite <- !app_assoc. repeat f_equal; lia. }
  eexists. split; [done|]. rewrite E. split; [split_and!|].
  - rewrite !length_app, length_tlv. cbn [length snd]. rewrite length_drop. unfold packet_size. lia.
  - apply Forall_app. split; [done|by constructor].
  - eexists hdr, _. split; [done|]. rewrite encode_app.
    change (encode [(c, d)]) with (tlv (c, d) ++ []). by rewrite app_nil_r, <- !app_assoc.
  - by rewrite !take_app_length'.
Qed.

(** Options of a known 32-bit type. *)
Lemma add_option_uint32_holds pkt opts code data :
  holds pkt opts -> 0 < code < DHCP_END -> code <> DHCP_OPTION_OVERLOAD ->
  check_option code 4 <> OPTION_UNKNOWN ->
  Z.of_nat (length (encode opts)) + 7 < DHCP_OPTIONS_BUFSIZE ->
  exists pkt', dhcp_add_option_uint32 pkt code data = Some pkt' /\
    holds pkt' (opts ++ [(code, be_bytes32 data)]) /\
    take off_options pkt' = take off_options pkt.
Proof.
  intros H Hc Hov Hty Hfit. unfold dhcp_add_option_uint32.
  destruct (Z.eqb_spec (check_option code 4) OPTION_UNKNOWN); [done|].
  assert (Hpl : plain_opt (code, be_bytes32 data)) by (split_and!; simpl; (done || lia)).
  destruct (add_binary_option_holds pkt opts (code, be_bytes32 data) [] H Hpl) as (pkt' & E & Hh).
  rewrite app_nil_r in E. change (tlv (code, be_bytes32 data)) with ([code; 4] ++ be_bytes32 data) in E.
  change (length (tlv (code, be_bytes32 data))) with 6%nat in Hh.
  destruct (Z.leb_spec DHCP_OPTIONS_BUFSIZE
    (Z.of_nat (length (encode opts)) + Z.of_nat 6 + 1)); [lia|].
  destruct Hh as [Hh Ht]. by exists pkt'.
Qed.

(** The header of a new message, with its type as the only option. *)
(** The header of a new packet: all 0 but for the type of the message and of
    the hardware, and the magic cookie. *)
Definition header_bytes (type : Z) : list Z :=
  [if (type =? DHCPOFFER) || (type =? DHCPACK) || (type =? DHCPNAK) then BOOTREPLY else BOOTREQUEST;
   1; 6; 0] ++ repeat 0 232%nat ++ be_bytes32 DHCP_MAGIC.

Lemma dhcp_init_header_holds type :
  exists pkt, dhcp_init_header type = Some pkt /\ holds pkt [(DHCP_MESSAGE_TYPE, [type])] /\
    take off_options pkt = header_bytes type.
Proof.
  unfold dhcp_init_header, header_bytes. generalize (if (type =? DHCPOFFER) || (type =? DHCPACK) ||
    (type =? DHCPNAK) then BOOTREPLY else BOOTREQUEST). intros op.
  match goal with |- context [dhcp_add_option_uint8 ?p] => set (hdr := p) end.
  assert (Hh : holds hdr []).
  { split_and!; [reflexivity|constructor|]. exists (take off_options hdr), (repeat 0 387).
    split; reflexivity. }
  unfold dhcp_add_option_uint8.
  change (check_option DHCP_MESSAGE_TYPE 1 =? OPTION_UNKNOWN) with false. cbv iota.
  assert (Hpl : plain_opt (DHCP_MESSAGE_TYPE, [type])) by (split_and!; simpl; (done || lia)).
  destruct (add_binary_option_holds hdr [] (DHCP_MESSAGE_TYPE, [type]) [0; 0; 0] Hh Hpl)
    as (pkt & E & [Hp Ht]).
  exists pkt. split; [exact E|]. split; [exact Hp|]. rewrite Ht. reflexivity.
Qed.

(** ** Checksum arithmetic *)

Lemma sum_words_app n l1 l2 :
  length l1 = (2 * n)%nat -> sum_words (l1 ++ l2) = sum_words l1 + sum_words l2.
Proof.
  revert l1. induction n as [|n IH]; intros l1 H.
  - by destruct l1.
  - destruct l1 as [|a [|b l1]]; simpl in H; try lia. cbn [app sum_words].
    rewrite IH by lia. lia.
Qed.

Lemma sum_words_range_aux n : forall l,
  (length l <= n)%nat -> Forall is_byte l -> 0 <= sum_words l <= 65535 * Z.of_nat (length l).
Proof.
  induction n as [|n IH]; intros l Hn Hl.
  - destruct l; simpl in *; lia.
  - destruct l as [|a [|b l]].
    + simpl. lia.
    + apply Forall_cons_1 in Hl as [Ha _]. unfold is_byte in Ha. cbn [sum_words length]. lia.
    + apply Forall_cons_1 in Hl as [Ha Hl]. apply Forall_cons_1 in Hl as [Hb Hl].
      unfold is_byte in *. cbn [sum_words length] in *. specialize (IH l ltac:(lia) Hl). lia.
Qed.

Lemma sum_words_range l :
  Forall is_byte l -> 0 <= sum_words l <= 65535 * Z.of_nat (length l).
Proof. by apply (sum_words_range_aux (length l)). Qed.

(** One folding round keeps the sum modulo 65535 and, unless it is 0, positive. *)
Lemma fold_round s :
  0 <= s ->
  let s' := (s .& 0xffff) + (s .>> 16) in
  0 <= s' /\ s' mod 65535 = s mod 65535 /\ (0 < s -> 0 < s') /\
  s' = s mod 65536 + s / 65536.
Proof.
  intros Hs. cbv zeta. change 0xffff with (Z.ones 16).
  rewrite Z.land_ones, Z.shiftr_div_pow2 by lia. change (2 ^ 16) with 65536.
  pose proof (Z.div_mod s 65536 ltac:(lia)) as E.
  pose proof (Z.mod_pos_bound s 65536 ltac:(lia)).
  assert (0 <= s / 65536) by (apply Z.div_pos; lia).
  split_and!; [lia| |lia|done].
  transitivity ((s mod 65536 + s / 65536 + s / 65536 * 65535) mod 65535).
  - by rewrite Z.mod_add.
  - f_equal. lia.
Qed.

Lemma fold_sum_spec s :
  0 <= s < 2 ^ 31 ->
  let f := fold_sum 4 s in
  0 <= f <= 65535 /\ f mod 65535 = s mod 65535 /\ (0 < s -> 0 < f).
Proof.
  intros Hs. change (2 ^ 31) with 2147483648 in Hs.
  assert (Hz : forall x, 0 <= x -> ((x .>> 16) =? 0) = (x <? 65536)).
  { intros x Hx. rewrite Z.shiftr_div_pow2 by lia. change (2 ^ 16) with 65536.
    destruct (Z.ltb_spec x 65536); [by rewrite Z.div_small|].
    apply Z.eqb_neq. assert (1 <= x / 65536) by (apply Z.div_le_lower_bound; lia). lia. }
  cbv zeta. unfold fold_sum.
  rewrite Hz by lia. destruct (Z.ltb_spec s 65536); [split_and!; (done || lia)|].
  destruct (fold_round s ltac:(lia)) as (A1 & A2 & A3 & A4).
  set (s1 := (s .& 65535) + (s .>> 16)) in *.
  assert (s1 < 98304) by (rewrite A4; Z.div_mod_to_equations; lia).
  rewrite Hz by lia. destruct (Z.ltb_spec s1 65536); [split_and!; (congruence || lia)|].
  destruct (fold_round s1 ltac:(lia)) as (B1 & B2 & B3 & B4).
  set (s2 := (s1 .& 65535) + (s1 .>> 16)) in *.
  assert (s2 < 65536) by (rewrite B4; Z.div_mod_to_equations; lia).
  rewrite Hz by lia. destruct (Z.ltb_spec s2 65536); [split_and!; (congruence || lia)|lia].
Qed.

Lemma dhcp_checksum_fold bytes :
  Forall is_byte bytes -> Z.of_nat (length bytes) <= 32767 ->
  dhcp_checksum bytes = 65535 - fold_sum 4 (sum_words bytes).
Proof.
  intros Hb Hl. pose proof (sum_words_range bytes Hb).
  destruct (fold_sum_spec (sum_words bytes)) as (Hf & _ & _); [lia|].
  unfold dhcp_checksum, u16, Z.lnot. symmetry.
  apply (Z.mod_unique_pos _ _ (-1)); lia.
Qed.

(** ** DHCPv6 scan *)

Definition be_code (b0 b1 : Z) : Z := (b0 .<< 8) .| b1.

Lemma be_code_range b0 b1 : is_byte b0 -> is_byte b1 -> 0 <= be_code b0 b1 < 65536.
Proof.
  unfold is_byte, be_code. intros H0 H1. change 65536 with (2 ^ 16).
  apply lor_range; [lia| |lia]. rewrite Z.shiftl_mul_pow2 by lia. lia.
Qed.

Lemma rd_byte buf i b : Forall is_byte buf -> rd buf i = Some b -> is_byte b.
Proof.
  unfold rd. intros Hb. case_match; [done|]. by apply Forall_lookup_1.
Qed.

Lemma rd_is_Some buf i : 0 <= i < Z.of_nat (length buf) -> exists b, rd buf i = Some b.
Proof.
  intros Hi. unfold rd. destruct (Z.ltb_spec i 0); [lia|]. apply lookup_lt_is_Some. lia.
Qed.

(** The state of the scan: what is left of the packet, and a last match that
    lies in front of the current position. *)
Definition v6_inv (total : Z) (s : v6_scan) : Prop :=
  0 <= v6_ptr s /\ 0 < v6_rem s /\ v6_ptr s + v6_rem s = total /\ 0 <= v6_count s /\
  match v6_found s with
  | Some (off, len) => 0 <= off /\ 0 <= len /\ off + len <= v6_ptr s /\ 1 <= v6_count s
  | None => v6_count s = 0
  end.

(** What a finished scan may say. *)
Definition v6_result_ok (total : Z) (r : v6_result) : Prop :=
  match r with
  | V6Done (Some (off, len)) n => 0 <= off /\ 0 <= len /\ off + len <= total /\ 1 <= n
  | V6Done None n => n = 0
  | V6Bad => True
  | V6Overread => False
  end.

Lemma v6_step_ok buf code total s :
  Forall is_byte buf -> total + 3 <= Z.of_nat (length buf) -> v6_inv total s ->
  match v6_step buf code s with
  | inl s' => v6_inv total s' /\ v6_rem s' < v6_rem s
  | inr r => v6_result_ok total r
  end.
Proof.
  intros Hb Hlen (I1 & I2 & I3 & I4 & I5). unfold v6_step.
  destruct (rd_is_Some buf (v6_ptr s)) as [b0 E0]; [lia|].
  destruct (rd_is_Some buf (v6_ptr s + 1)) as [b1 E1]; [lia|].
  destruct (rd_is_Some buf (v6_ptr s + 2)) as [b2 E2]; [lia|].
  destruct (rd_is_Some buf (v6_ptr s + 3)) as [b3 E3]; [lia|].
  rewrite E0, E1, E2, E3. fold (be_code b0 b1) (be_code b2 b3).
  pose proof (be_code_range b2 b3 (rd_byte _ _ _ Hb E2) (rd_byte _ _ _ Hb E3)) as Hl.
  set (len := u16 (be_code b2 b3 + 4)).
  destruct (Z.ltb_spec len 4); [done|].
  assert (El : len = be_code b2 b3 + 4).
  { subst len. unfold u16 in *. change (2 ^ 16) with 65536 in *.
    destruct (Z.ltb_spec (be_code b2 b3 + 4) 65536); [by apply Z.mod_small; lia|].
    exfalso. Z.div_mod_to_equations. lia. }
  destruct (Z.ltb_spec (v6_rem s - len) 0).
  { destruct (v6_found s) as [[off l]|]; simpl; [lia|done]. }
  destruct (Z.eqb_spec (be_code b0 b1) code), (Z.eqb_spec (v6_rem s - len) 0); simpl.
  - lia.
  - unfold v6_inv. simpl. lia.
  - destruct (v6_found s) as [[off l]|]; simpl; [lia|done].
  - unfold v6_inv. simpl. destruct (v6_found s) as [[off l]|]; lia.
Qed.

Lemma v6_loop_ok buf code total : forall fuel s,
  Forall is_byte buf -> total + 3 <= Z.of_nat (length buf) -> v6_inv total s ->
  v6_rem s <= Z.of_nat fuel ->
  exists r, v6_loop fuel buf code s = Some r /\ v6_result_ok total r.
Proof.
  induction fuel as [|fuel IH]; intros s Hb Hlen I Hf.
  { destruct I as (_ & ? & _). lia. }
  simpl. pose proof (v6_step_ok buf code total s Hb Hlen I) as H.
  destruct (v6_step buf code s) as [s'|r]; [|by exists r].
  destruct H as [I' Hd]. apply IH; (done || lia).
Qed.

(** ** Properties *)

Lemma dhcp_get_option_holds pkt opts packet_len code fuel :
  holds pkt opts -> 0 < code < DHCP_END -> (length opts < fuel)%nat ->
  Z.of_nat (off_options + length (encode opts)) < packet_len ->
  match find (fun o => o.1 =? code) opts with
  | None => dhcp_get_option fuel pkt packet_len code = Some Null
  | Some o => exists off, dhcp_get_option fuel pkt packet_len code = Some (Found (Z.of_nat off)) /\
      slice off (length o.2) pkt = o.2 /\ rd pkt (Z.of_nat off - 1) = Some (Z.of_nat (length o.2))
  end.
Proof.
  intros (Hl & Hopts & hdr & rest & Hh & ->) Hc Hf Hp. unfold dhcp_get_option.
  pose proof (get_option_loop_holds code opts rest fuel hdr (packet_len - 1) Hc Hopts Hf Hl) as H.
  cbv zeta in H. rewrite Hh in H. apply H. rewrite length_app. lia.
Qed.

Definition has_option (opts : list (Z * list Z)) (code : Z) (v : option (list Z)) : Prop :=
  find (fun o => o.1 =? code) opts = match v with Some d => Some (code, d) | None => None end.

Lemma get_option_holds pkt opts len code v :
  holds pkt opts -> Z.of_nat (off_options + length (encode opts)) < len ->
  0 < code < DHCP_END -> has_option opts code v ->
  match v with
  | None => get_option pkt len code = Some None
  | Some d => exists off, get_option pkt len code = Some (Some (Z.of_nat off)) /\
      slice off (length d) pkt = d /\ rd pkt (Z.of_nat off - 1) = Some (Z.of_nat (length d))
  end.
Proof.
  intros Hh Hlen Hc Hv. unfold get_option.
  pose proof (dhcp_get_option_holds pkt opts len code scan_fuel Hh Hc) as G.
  rewrite Hv in G. destruct v as [d|].
  - destruct G as (off & -> & Hs); [|done|by exists off].
    destruct Hh as (Hl & _ & hdr & rest & Hhdr & ->). rewrite !length_app in Hl.
    pose proof (length_encode_ge opts). unfold scan_fuel, packet_size in *. lia.
  - rewrite G; [done| |done].
    destruct Hh as (Hl & _ & hdr & rest & Hhdr & ->). rewrite !length_app in Hl.
    pose proof (length_encode_ge opts). unfold scan_fuel, packet_size in *. lia.
Qed.

Lemma be_word32_range l : Forall is_byte l -> 0 <= be_word32 l < 2 ^ 32.
Proof.
  intros Hb. unfold be_word32. destruct l as [|a [|b [|c [|d [|]]]]]; try lia.
  repeat (apply Forall_cons_1 in Hb as [? Hb]). unfold is_byte in *. lia.
Qed.

(** C28: on a packet whose options area holds a sequence of options followed
    by the end marker, all within the bytes received, the scan ends and
    returns the data of the first option with the code asked for, or [NULL]
    when there is none. *)
Theorem dhcp_get_option_correct pkt opts packet_len code fuel :
  holds pkt opts -> 0 < code < DHCP_END -> (length opts < fuel)%nat ->
  Z.of_nat (off_options + length (encode opts)) < packet_len ->
  match find (fun o => o.1 =? code) opts with
  | None => dhcp_get_option fuel pkt packet_len code = Some Null
  | Some o => exists off, dhcp_get_option fuel pkt packet_len code = Some (Found (Z.of_nat off)) /\
      slice off (length o.2) pkt = o.2
  end.
Proof.
  intros Hh Hc Hf Hp. pose proof (dhcp_get_option_holds pkt opts packet_len code fuel Hh Hc Hf Hp) as G.
  destruct (find _ _); [|done]. destruct G as (off & ? & ? & _). by exists off.
Qed.

(** A packet with a message type and a server identifier. *)
Definition sample_packet : list Z :=
  repeat 0 240 ++ [53; 1; 3; 54; 4; 10; 0; 0; 1; 255] ++ repeat 0 378.

Lemma sample_holds : holds sample_packet [(53, [3]); (54, [10; 0; 0; 1])].
Proof.
  split; [reflexivity|]. split.
  - repeat constructor; unfold DHCP_END, DHCP_OPTION_OVERLOAD; simpl; lia.
  - exists (repeat 0 240), (repeat 0 378). split; reflexivity.
Qed.

Lemma dhcp_get_option_correct_witness :
  exists off, dhcp_get_option 3 sample_packet 250 54 = Some (Found (Z.of_nat off)) /\
    slice off 4 sample_packet = [10; 0; 0; 1].
Proof.
  apply (dhcp_get_option_correct sample_packet [(53, [3]); (54, [10; 0; 0; 1])] 250 54 3).
  - exact sample_holds.
  - unfold DHCP_END. lia.
  - simpl. lia.
  - simpl. lia.
Defined.

Fixpoint iterate_step (k : nat) (pkt : list Z) (options_end code : Z) (s : scan) :
    scan + scan_result :=
  match k with
  | O => inl s
  | S k =>
      match get_option_step pkt options_end code s with
      | inl s => iterate_step k pkt options_end code s
      | inr r => inr r
      end
  end.

(** the scan does not reject every malformed packet.  When an option
    header lies within the bytes received but the option reaches beyond what is
    left of the area, the round neither returns nor advances: the scan stays at
    the same option, round after round, with only [rem] more negative, until
    the signed [rem] overflows. *)
Lemma dhcp_get_option_spins pkt options_end code s c l k :
  rd pkt (optionptr s) = Some c -> c <> DHCP_PADDING -> c <> DHCP_END ->
  optionptr s + 1 <= options_end -> rd pkt (optionptr s + 1) = Some l -> 0 <= l ->
  rem s < 2 + l -> - 2 ^ 31 <= rem s - Z.of_nat k * (2 + l) ->
  let last := mk_scan (optionptr s) (rem s - Z.of_nat k * (2 + l)) (overload s) in
  iterate_step k pkt options_end code s = inl last /\
  (rem last - (2 + l) < - 2 ^ 31 -> get_option_step pkt options_end code last = inr Overflow).
Proof.
  intros Hc Hp Hend Hptr Hl Hl0 Hr Hmin. cbv zeta.
  assert (Step : forall r, get_option_step pkt options_end code (mk_scan (optionptr s) r (overload s)) =
    if r - (2 + l) <? - 2 ^ 31 then inr Overflow
    else if r - (2 + l) <? 0 then inl (mk_scan (optionptr s) (r - (2 + l)) (overload s))
    else get_option_step pkt options_end code (mk_scan (optionptr s) r (overload s))).
  { intros r. destruct (_ <? - 2 ^ 31) eqn:E1; [|destruct (_ <? 0) eqn:E2; [|done]];
      unfold get_option_step; cbn [optionptr rem overload];
      (destruct (Z.ltb_spec options_end (optionptr s)); [lia|]);
      rewrite andb_false_r, Hc, (proj2 (Z.eqb_neq c DHCP_PADDING)) by done;
      rewrite (proj2 (Z.eqb_neq c DHCP_END)) by done;
      (destruct (Z.ltb_spec options_end (optionptr s + 1)); [lia|]); rewrite Hl, E1; [done|].
    by rewrite E2. }
  split.
  - replace s with (mk_scan (optionptr s) (rem s) (overload s)) at 1 by by destruct s.
    revert Hr Hmin. generalize (rem s). induction k as [|k IH]; intros r Hr Hmin.
    + simpl. do 2 f_equal. lia.
    + cbn [iterate_step]. rewrite Step.
      destruct (Z.ltb_spec (r - (2 + l)) (- 2 ^ 31)); [lia|].
      destruct (Z.ltb_spec (r - (2 + l)) 0); [|lia].
      rewrite IH by lia. do 2 f_equal. lia.
  - cbn [rem]. intros H. rewrite Step. by destruct (Z.ltb_spec
      (rem s - Z.of_nat k * (2 + l) - (2 + l)) (- 2 ^ 31)); [|lia].
Qed.

(** A packet of 400 bytes: padding, and a host name option that claims 255
    bytes at offset 380. *)
Definition hanging_packet : list Z :=
  repeat 0 380 ++ [12; 255] ++ repeat 0 246.

Lemma dhcp_get_option_spins_witness :
  iterate_step 1000 hanging_packet 399 DHCP_SERVER_ID (mk_scan 380 248 0) =
    inl (mk_scan 380 (-256752) 0).
Proof.
  apply (dhcp_get_option_spins hanging_packet 399 DHCP_SERVER_ID (mk_scan 380 248 0) 12 255 1000);
    (reflexivity || discriminate || (simpl; lia)).
Defined.

(** options added with the functions of the library are found again.
    After the options [opts], adding a 32-bit option of a known type that fits
    makes a packet that holds it behind the others, with the header untouched;
    looking it up yields its four bytes. *)
Lemma dhcp_add_get_uint32 pkt opts code data packet_len fuel :
  holds pkt opts -> 0 < code < DHCP_END -> code <> DHCP_OPTION_OVERLOAD ->
  check_option code 4 <> OPTION_UNKNOWN ->
  Z.of_nat (length (encode opts)) + 7 < DHCP_OPTIONS_BUFSIZE ->
  find (fun o => o.1 =? code) opts = None -> (length opts + 1 < fuel)%nat ->
  Z.of_nat (off_options + length (encode opts)) + 6 < packet_len ->
  exists pkt' off, dhcp_add_option_uint32 pkt code data = Some pkt' /\
    holds pkt' (opts ++ [(code, be_bytes32 data)]) /\
    take off_options pkt' = take off_options pkt /\
    dhcp_get_option fuel pkt' packet_len code = Some (Found (Z.of_nat off)) /\
    slice off 4 pkt' = be_bytes32 data.
Proof.
  intros H Hc Hov Hty Hfit Hnone Hf Hp.
  destruct (add_option_uint32_holds pkt opts code data H Hc Hov Hty Hfit) as (pkt' & E & Hh & Ht).
  exists pkt'.
  pose proof (dhcp_get_option_holds pkt' (opts ++ [(code, be_bytes32 data)]) packet_len code fuel
    Hh Hc ltac:(rewrite length_app; simpl; lia)
    ltac:(rewrite encode_app, length_app;
          change (length (encode [(code, be_bytes32 data)])) with 6%nat; lia)) as G.
  assert (Ef : find (fun o => o.1 =? code) (opts ++ [(code, be_bytes32 data)]) =
    Some (code, be_bytes32 data)).
  { clear -Hnone. induction opts as [|o opts IH]; simpl in *; [by rewrite Z.eqb_refl|].
    destruct (o.1 =? code); [done|by apply IH]. }
  rewrite Ef in G. destruct G as (off & Eg & Es & _). exists off. split_and!; done.
Qed.

Lemma dhcp_add_get_uint32_witness :
  exists pkt' off, dhcp_add_option_uint32 sample_packet DHCP_LEASE_TIME 3600 = Some pkt' /\
    dhcp_get_option 9 pkt' 548 DHCP_LEASE_TIME = Some (Found (Z.of_nat off)) /\
    slice off 4 pkt' = be_bytes32 3600.
Proof.
  destruct (dhcp_add_get_uint32 sample_packet [(53, [3]); (54, [10; 0; 0; 1])] DHCP_LEASE_TIME 3600
    548 9) as (pkt' & off & H1 & _ & _ & H2 & H3);
    [exact sample_holds|unfold DHCP_LEASE_TIME, DHCP_END; lia|discriminate|discriminate|
     reflexivity|reflexivity|simpl; lia|reflexivity|].
  by exists pkt', off.
Defined.

(** the Internet checksum makes the packet sum to zero: storing the
    checksum of a packet, computed with a zero checksum field at an even
    offset, into that field makes the checksum of the whole packet 0, which is
    what a receiver verifies. *)
Lemma dhcp_checksum_verifies n pre post :
  length pre = (2 * n)%nat -> Forall is_byte pre -> Forall is_byte post ->
  Z.of_nat (length pre + 2 + length post) <= 32767 ->
  let c := dhcp_checksum (pre ++ [0; 0] ++ post) in
  0 <= c < 65536 /\ dhcp_checksum (pre ++ [c mod 256; c / 256] ++ post) = 0.
Proof.
  intros Hn Hpre Hpost Hlen. cbv zeta.
  assert (Hb0 : Forall is_byte (pre ++ [0; 0] ++ post)).
  { apply Forall_app. split; [done|]. repeat constructor; try lia. done. }
  rewrite (dhcp_checksum_fold _ Hb0) by (rewrite !length_app; simpl length; lia).
  set (s := sum_words (pre ++ [0; 0] ++ post)).
  assert (Es : s = sum_words pre + sum_words post).
  { subst s. rewrite (sum_words_app n) by done. done. }
  pose proof (sum_words_range _ Hpre). pose proof (sum_words_range _ Hpost).
  destruct (fold_sum_spec s) as (Hf & Hm & Hp); [lia|].
  set (c := 65535 - fold_sum 4 s). assert (Hc : 0 <= c < 65536) by (subst c; lia).
  split; [done|].
  assert (Hb : Forall is_byte (pre ++ [c mod 256; c / 256] ++ post)).
  { apply Forall_app. split; [done|].
    repeat constructor; try done; Z.div_mod_to_equations; lia. }
  rewrite (dhcp_checksum_fold _ Hb) by (rewrite !length_app; simpl length; lia).
  rewrite (sum_words_app n) by done. cbn [app sum_words].
  pose proof (Z.div_mod c 256 ltac:(lia)) as Ec.
  replace (sum_words pre + (c mod 256 + 256 * (c / 256) + sum_words post)) with (s + c) by lia.
  destruct (fold_sum_spec (s + c)) as (Hf' & Hm' & Hp'); [lia|].
  assert (Hz : (s + c) mod 65535 = 0).
  { replace (s + c) with (s - fold_sum 4 s + 1 * 65535) by (subst c; lia).
    rewrite Z.mod_add, Zminus_mod, Hm, Z.sub_diag by lia. done. }
  assert (Hpos : 0 < s + c).
  { destruct (Z.eq_dec s 0) as [E|]; [|lia]. subst c. rewrite E. simpl fold_sum. lia. }
  specialize (Hp' Hpos). rewrite Hz in Hm'.
  assert (fold_sum 4 (s + c) = 65535); [|lia].
  apply Z.mod_divide in Hm' as [q Hq]; lia.
Qed.

Lemma dhcp_checksum_verifies_witness :
  let c := dhcp_checksum ([69; 0] ++ [0; 0] ++ [1; 2; 3]) in
  dhcp_checksum ([69; 0] ++ [c mod 256; c / 256] ++ [1; 2; 3]) = 0.
Proof.
  apply (dhcp_checksum_verifies 1 [69; 0] [1; 2; 3]);
    [reflexivity|by apply all_bytes_ok|by apply all_bytes_ok|simpl; lia].
Defined.

(** the scan of the DHCPv6 options ends on every packet, within as many
    rounds as the packet has bytes, and the option it returns, the last one
    with the code, lies inside the packet; with a buffer that extends three
    bytes beyond the packet it reads nothing outside. *)
Lemma dhcpv6_get_option_safe buf pkt_len code fuel :
  Forall is_byte buf -> pkt_len - 4 + 3 <= Z.of_nat (length buf) -> pkt_len - 4 <= Z.of_nat fuel ->
  exists r, dhcpv6_get_option fuel buf pkt_len code = Some r /\ v6_result_ok (pkt_len - 4) r.
Proof.
  intros Hb Hlen Hf. unfold dhcpv6_get_option.
  destruct (Z.leb_spec (pkt_len - 1 - 3) 0); [by exists V6Bad|].
  apply v6_loop_ok; [done|lia| |simpl; lia]. split_and!; simpl; (done || lia).
Qed.

Lemma dhcpv6_get_option_safe_witness :
  exists r, dhcpv6_get_option 20 [0; 1; 0; 2; 7; 8; 0; 0; 0] 10 1 = Some r /\
    v6_result_ok 6 r.
Proof.
  apply (dhcpv6_get_option_safe [0; 1; 0; 2; 7; 8; 0; 0; 0] 10 1 20);
    [by apply all_bytes_ok|simpl; lia|simpl; lia].
Defined.

(** With exactly the bytes of the packet the header of a truncated last
    option is read beyond its end. *)
Lemma dhcpv6_get_option_overreads :
  dhcpv6_get_option 20 [0; 1; 0; 2; 7; 8; 9] 11 1 = Some V6Overread.
Proof. reflexivity. Qed.

End DhcpPacket.
