(* ===== verification/DhcpFrame.v ===== *)
(** * Raw DHCP frames (gdhcp/common.c, gdhcp/client.c)

    Before a client has an address it talks on a packet socket: the sender
    builds the IP and UDP headers itself ([dhcp_send_raw_packet]) and the
    receiver checks them itself ([sanity_check], [dhcp_recv_l2_packet]).  A
    [struct ip_udp_dhcp_packet] is the list of its 656 bytes: 20 of the IP
    header, 8 of the UDP header, 628 of the DHCP packet.  Integers are laid
    out as on a little endian host. *)

From S2P Require Import Prelude Inet Buffer DhcpPacket.
Import DhcpPacket.

Module DhcpFrame.

(** ** Layout *)

Definition ip_version_ihl : nat := 0.
Definition ip_tot_len : nat := 2.
Definition ip_ttl : nat := 8.
Definition ip_protocol : nat := 9.
Definition ip_check : nat := 10.
Definition ip_saddr : nat := 12.
Definition ip_daddr : nat := 16.
Definition udp_source : nat := 20.
Definition udp_dest : nat := 22.
Definition udp_len : nat := 24.
Definition udp_check : nat := 26.
Definition frame_data : nat := 28.

Definition sizeof_iphdr : nat := 20.
Definition sizeof_udphdr : nat := 8.
Definition sizeof_frame : nat := sizeof_iphdr + sizeof_udphdr + packet_size.

Definition IPPROTO_UDP : Z := 17.
Definition IPVERSION : Z := 4.
Definition IPDEFTTL : Z := 64.
Definition CLIENT_PORT : Z := 68.
Definition SERVER_PORT : Z := 67.
Definition BROADCAST_FLAG : Z := 0x8000.

(** [sizeof(struct ip_udp_dhcp_packet) - EXTEND_FOR_BUGGY_SERVERS] and the
    part of it after the IP header. *)
Definition IP_UPD_DHCP_SIZE : Z := Z.of_nat sizeof_frame - EXTEND_FOR_BUGGY_SERVERS.
Definition UPD_DHCP_SIZE : Z := IP_UPD_DHCP_SIZE - Z.of_nat sizeof_iphdr.

(** A host-order store of 16 or 32 bits. *)
Definition le_bytes16 (x : Z) : list Z := [byte_of x 0; byte_of x 1].
Definition le_bytes32 (x : Z) : list Z :=
  [byte_of x 0; byte_of x 1; byte_of x 2; byte_of x 3].

(** [ntohs] of the field at [off]. *)
Definition be_field16 (off : nat) (l : list Z) : Z :=
  match slice off 2 l with
  | [a; b] => a * 256 + b
  | _ => 0
  end.

(** ** Sending *)

(** The outcome of the system calls of the sender: an error number or success. *)
Record send_env := mk_send_env {
  socket_err : option Z;
  bind_err : option Z;
  sendto_err : option Z;
}.

(** The frame built for a DHCP packet; [flags |= htons(BROADCAST_FLAG)] sets
    the top bit of the first byte of the field. *)
Definition set_broadcast (dhcp_pkt : list Z) (bcast : bool) : list Z :=
  if bcast then
    match slice off_flags 1 dhcp_pkt with
    | [b] => wr off_flags [b .| byte_of BROADCAST_FLAG 1] dhcp_pkt
    | _ => dhcp_pkt
    end
  else dhcp_pkt.

Definition build_frame (dhcp_pkt : list Z) (source_ip source_port dest_ip dest_port : Z) : list Z :=
  let packet := repeat 0 (sizeof_iphdr + sizeof_udphdr) ++ dhcp_pkt in
  let packet := wr ip_protocol [IPPROTO_UDP] packet in
  let packet := wr ip_saddr (le_bytes32 source_ip) packet in
  let packet := wr ip_daddr (le_bytes32 dest_ip) packet in
  let packet := wr udp_source (be_bytes16 source_port) packet in
  let packet := wr udp_dest (be_bytes16 dest_port) packet in
  let packet := wr udp_len (be_bytes16 UPD_DHCP_SIZE) packet in
  let packet := wr ip_tot_len (slice udp_len 2 packet) packet in
  let packet := wr udp_check
    (le_bytes16 (dhcp_checksum (take (Z.to_nat IP_UPD_DHCP_SIZE) packet))) packet in
  let packet := wr ip_tot_len (be_bytes16 IP_UPD_DHCP_SIZE) packet in
  let packet := wr ip_version_ihl [IPVERSION * 16 + (Z.of_nat sizeof_iphdr .>> 2)] packet in
  let packet := wr ip_ttl [IPDEFTTL] packet in
  wr ip_check (le_bytes16 (dhcp_checksum (take sizeof_iphdr packet))) packet.

(** The DHCP packet after the call, the bytes put on the wire and the value
    returned. *)
Definition dhcp_send_raw_packet (env : send_env) (dhcp_pkt : list Z)
    (source_ip source_port dest_ip dest_port : Z) (bcast : bool) :
    list Z * option (list Z) * Z :=
  match socket_err env with
  | Some err => (dhcp_pkt, None, - err)
  | None =>
      let dhcp_pkt := set_broadcast dhcp_pkt bcast in
      match bind_err env with
      | Some err => (dhcp_pkt, None, - err)
      | None =>
          let frame := build_frame dhcp_pkt source_ip source_port dest_ip dest_port in
          match sendto_err env with
          | Some err => (dhcp_pkt, None, - err)
          | None => (dhcp_pkt, Some (take (Z.to_nat IP_UPD_DHCP_SIZE) frame), IP_UPD_DHCP_SIZE)
          end
      end
  end.

(** ** Receiving *)

Definition byte_at (off : nat) (l : list Z) : Z := nth off l 0.

Definition sanity_check (packet : list Z) (bytes : Z) : bool :=
  if negb (byte_at ip_protocol packet =? IPPROTO_UDP) then false
  else if negb ((byte_at ip_version_ihl packet .>> 4) =? IPVERSION) then false
  else if negb ((byte_at ip_version_ihl packet .& 0xf) =? (Z.of_nat sizeof_iphdr .>> 2)) then false
  else if negb (be_field16 udp_dest packet =? CLIENT_PORT) then false
  else if negb (be_field16 udp_len packet =? u16 (bytes - Z.of_nat sizeof_iphdr)) then false
  else true.

Definition headers_size : Z := Z.of_nat (sizeof_iphdr + sizeof_udphdr).

(** The checksums of a frame of [bytes] bytes, and the copy of its DHCP packet
    into the caller's buffer [dhcp_pkt]: -1, with the buffer as it was left,
    or the destination address and the number of bytes of the DHCP packet. *)
Definition recv_verified (packet : list Z) (bytes : Z) (dhcp_pkt : list Z) :
    list Z * (Z + list Z * Z) :=
  let check := slice ip_check 2 packet in
  let packet := wr ip_check [0; 0] packet in
  if negb (bytes_eqb check (le_bytes16 (dhcp_checksum (take sizeof_iphdr packet))))
  then (dhcp_pkt, inl (-1))
  else
    let packet := wr 0 (repeat 0 ip_protocol) packet in
    let packet := wr ip_tot_len (slice udp_len 2 packet) packet in
    let check := slice udp_check 2 packet in
    let packet := wr udp_check [0; 0] packet in
    let partial := u16 (Z.lnot (dhcp_checksum (take sizeof_iphdr packet))) in
    if negb (bytes_eqb check [0; 0]) &&
       (negb (bytes_eqb check (le_bytes16 partial)) &&
        negb (bytes_eqb check (le_bytes16 (dhcp_checksum (take (Z.to_nat bytes) packet)))))
    then (dhcp_pkt, inl (-1))
    else
      let n := bytes - headers_size in
      let dhcp_pkt := wr 0 (slice frame_data (Z.to_nat n) packet) dhcp_pkt in
      if negb (bytes_eqb (slice off_cookie 4 dhcp_pkt) (be_bytes32 DHCP_MAGIC))
      then (dhcp_pkt, inl (-1))
      else (dhcp_pkt, inr (slice ip_daddr 4 packet, n)).

(** [data] is what [read] delivered, [None] when it failed. *)
Definition dhcp_recv_l2_packet (data : option (list Z)) (dhcp_pkt : list Z) :
    list Z * (Z + list Z * Z) :=
  match data with
  | None => (dhcp_pkt, inl (-1))
  | Some data =>
      let data := take sizeof_frame data in
      let packet := wr 0 data (repeat 0 sizeof_frame) in
      let bytes := Z.of_nat (length data) in
      let tot_len := be_field16 ip_tot_len packet in
      if bytes <? tot_len then (dhcp_pkt, inl (-1))
      else
        let bytes := if tot_len <? bytes then tot_len else bytes in
        if bytes <? headers_size then (dhcp_pkt, inl (-1))
        else if negb (sanity_check packet bytes) then (dhcp_pkt, inl (-1))
        else recv_verified packet bytes dhcp_pkt
  end.

(** ** The headers of a frame *)

(** The 28 header bytes with every field given. *)
Definition headers (vihl ttl : Z) (tot ipc src dst sport dport len udpc : list Z) : list Z :=
  [vihl; 0] ++ tot ++ [0; 0; 0; 0; ttl; IPPROTO_UDP] ++ ipc ++ src ++ dst ++
  sport ++ dport ++ len ++ udpc.

(** The headers over which the UDP checksum is computed. *)
Definition pseudo_headers (source_ip source_port dest_ip dest_port : Z) : list Z :=
  headers 0 0 (be_bytes16 UPD_DHCP_SIZE) [0; 0] (le_bytes32 source_ip) (le_bytes32 dest_ip)
    (be_bytes16 source_port) (be_bytes16 dest_port) (be_bytes16 UPD_DHCP_SIZE) [0; 0].

Definition sent_headers (ipc udpc : list Z) (source_ip source_port dest_ip dest_port : Z) : list Z :=
  headers 69 IPDEFTTL (be_bytes16 IP_UPD_DHCP_SIZE) ipc (le_bytes32 source_ip)
    (le_bytes32 dest_ip) (be_bytes16 source_port) (be_bytes16 dest_port)
    (be_bytes16 UPD_DHCP_SIZE) udpc.

Lemma wr_app_l off bytes h d :
  (off + length bytes <= length h)%nat -> wr off bytes (h ++ d) = wr off bytes h ++ d.
Proof.
  intros H. unfold wr. rewrite take_app_le, drop_app_le by lia. by rewrite <- !app_assoc.
Qed.

Lemma slice_app_l off n h d :
  (off + n <= length h)%nat -> slice off n (h ++ d) = slice off n h.
Proof.
  intros H. unfold slice. rewrite drop_app_le by lia.
  rewrite take_app_le; [done|]. rewrite length_drop. lia.
Qed.

(** Evaluate header operations on a frame whose header bytes are explicit. *)
Ltac frame_step :=
  first [rewrite wr_app_l by (cbn; lia) | rewrite slice_app_l by (cbn; lia)
        | rewrite take_app_le by (cbn; lia)];
  cbn [wr slice take drop app length Nat.add Nat.mul repeat].

Definition udp_checksum (dhcp_pkt : list Z) (source_ip source_port dest_ip dest_port : Z) : Z :=
  dhcp_checksum (take (Z.to_nat IP_UPD_DHCP_SIZE)
    (pseudo_headers source_ip source_port dest_ip dest_port ++ dhcp_pkt)).

Definition ip_checksum (udpc : list Z) (source_ip source_port dest_ip dest_port : Z) : Z :=
  dhcp_checksum (take sizeof_iphdr
    (sent_headers [0; 0] udpc source_ip source_port dest_ip dest_port)).

Lemma build_frame_headers dhcp_pkt source_ip source_port dest_ip dest_port :
  let udpc := le_bytes16 (udp_checksum dhcp_pkt source_ip source_port dest_ip dest_port) in
  let ipc := le_bytes16 (ip_checksum udpc source_ip source_port dest_ip dest_port) in
  build_frame dhcp_pkt source_ip source_port dest_ip dest_port =
  sent_headers ipc udpc source_ip source_port dest_ip dest_port ++ dhcp_pkt.
Proof.
  unfold build_frame, le_bytes16, le_bytes32, be_bytes16, ip_protocol, ip_saddr, ip_daddr,
    udp_source, udp_dest, udp_len, ip_tot_len, udp_check, ip_version_ihl, ip_ttl, ip_check.
  cbn [repeat sizeof_iphdr sizeof_udphdr Nat.add].
  repeat frame_step.
  change (IPVERSION * 16 + Z.of_nat sizeof_iphdr .>> 2) with 69.
  cbv zeta. unfold ip_checksum, udp_checksum, pseudo_headers, sent_headers, headers,
    le_bytes32, be_bytes16. rewrite drop_0.
  generalize (Z.to_nat IP_UPD_DHCP_SIZE) dhcp_checksum. intros n ck.
  cbn [app take sizeof_iphdr]. reflexivity.
Qed.

(** What a frame of headers [h] and data [d], not longer than the buffer,
    looks like in the receive buffer. *)
Lemma received_buffer h d :
  (length (h ++ d) <= sizeof_frame)%nat ->
  wr 0 (h ++ d) (repeat 0 sizeof_frame) =
  h ++ d ++ repeat 0 (sizeof_frame - length (h ++ d)).
Proof.
  intros H. unfold wr. rewrite Nat.add_0_l. cbn [take].
  replace (drop _ _) with (repeat 0 (sizeof_frame - length (h ++ d))).
  - by rewrite <- app_assoc.
  - revert H. generalize (length (h ++ d)) sizeof_frame. intros n m.
    revert m. induction n as [|n IH]; intros m Hm; [by rewrite Nat.sub_0_r|].
    destruct m; [done|]. simpl. rewrite <- IH by lia. done.
Qed.

Lemma length_headers vihl ttl tot ipc src dst sport dport len udpc :
  length tot = 2%nat -> length ipc = 2%nat -> length src = 4%nat -> length dst = 4%nat ->
  length sport = 2%nat -> length dport = 2%nat -> length len = 2%nat -> length udpc = 2%nat ->
  length (headers vihl ttl tot ipc src dst sport dport len udpc) = 28%nat.
Proof. intros. unfold headers. rewrite !length_app. simpl. lia. Qed.

Lemma length_sent_headers ipc udpc source_ip source_port dest_ip dest_port :
  length ipc = 2%nat -> length udpc = 2%nat ->
  length (sent_headers ipc udpc source_ip source_port dest_ip dest_port) = 28%nat.
Proof. intros. by apply length_headers. Qed.

Lemma length_pseudo_headers source_ip source_port dest_ip dest_port :
  length (pseudo_headers source_ip source_port dest_ip dest_port) = 28%nat.
Proof. by apply length_headers. Qed.

(** ** The receiver accepts what the sender sends *)

(** The headers as the receiver modifies them before it verifies the UDP
    checksum are those over which the sender computed it. *)
Lemma headers_for_udp ipc udpc source_ip source_port dest_ip z :
  length ipc = 2%nat -> length udpc = 2%nat ->
  let packet := sent_headers ipc udpc source_ip source_port dest_ip CLIENT_PORT ++ z in
  let packet := wr ip_check [0; 0] packet in
  let packet := wr 0 (repeat 0 ip_protocol) packet in
  let packet := wr ip_tot_len (slice udp_len 2 packet) packet in
  slice udp_check 2 packet = udpc /\
  wr udp_check [0; 0] packet = pseudo_headers source_ip source_port dest_ip CLIENT_PORT ++ z.
Proof.
  intros H1 H2. destruct ipc as [|i1 [|i2 [|]]]; try discriminate.
  destruct udpc as [|u1 [|u2 [|]]]; try discriminate.
  split; reflexivity.
Qed.

Lemma sent_headers_checked ipc udpc source_ip source_port dest_ip z :
  length ipc = 2%nat -> length udpc = 2%nat ->
  let packet := sent_headers ipc udpc source_ip source_port dest_ip CLIENT_PORT ++ z in
  be_field16 ip_tot_len packet = IP_UPD_DHCP_SIZE /\
  sanity_check packet IP_UPD_DHCP_SIZE = true /\
  slice ip_check 2 packet = ipc /\
  take sizeof_iphdr (wr ip_check [0; 0] packet) =
    take sizeof_iphdr (sent_headers [0; 0] udpc source_ip source_port dest_ip CLIENT_PORT).
Proof.
  intros H1 H2. destruct ipc as [|i1 [|i2 [|]]]; try discriminate.
  destruct udpc as [|u1 [|u2 [|]]]; try discriminate.
  split_and!; try reflexivity.
Qed.

Lemma recv_sent_frame d old ipc udpc source_ip source_port dest_ip :
  length d = 548%nat -> length old = packet_size ->
  slice off_cookie 4 d = be_bytes32 DHCP_MAGIC ->
  ipc = le_bytes16 (ip_checksum udpc source_ip source_port dest_ip CLIENT_PORT) ->
  udpc = le_bytes16 (dhcp_checksum (pseudo_headers source_ip source_port dest_ip CLIENT_PORT ++ d)) ->
  dhcp_recv_l2_packet
    (Some (sent_headers ipc udpc source_ip source_port dest_ip CLIENT_PORT ++ d)) old =
  (d ++ drop 548 old, inr (le_bytes32 dest_ip, 548)).
Proof.
  intros Hd Hold Hcookie Hipc Hudpc.
  assert (Hl1 : length ipc = 2%nat) by by rewrite Hipc.
  assert (Hl2 : length udpc = 2%nat) by by rewrite Hudpc.
  set (h := sent_headers ipc udpc source_ip source_port dest_ip CLIENT_PORT).
  assert (Hh : length h = 28%nat) by (apply length_headers; done).
  assert (Hlen : length (h ++ d) = 576%nat) by (rewrite length_app; lia).
  unfold dhcp_recv_l2_packet.
  rewrite (take_ge (h ++ d)) by (rewrite Hlen; cbv; lia).
  rewrite received_buffer by (rewrite Hlen; cbv; lia).
  set (z := d ++ repeat 0 _).
  destruct (sent_headers_checked ipc udpc source_ip source_port dest_ip z Hl1 Hl2)
    as (Htot & Hsane & Hc & Hip).
  destruct (headers_for_udp ipc udpc source_ip source_port dest_ip z Hl1 Hl2) as (Hu & Hps).
  fold h in Htot, Hsane, Hc, Hip, Hu, Hps.
  rewrite Htot, Hlen. change (Z.of_nat 576 <? IP_UPD_DHCP_SIZE) with false.
  change (IP_UPD_DHCP_SIZE <? Z.of_nat 576) with false.
  change (Z.of_nat 576) with IP_UPD_DHCP_SIZE.
  change (IP_UPD_DHCP_SIZE <? headers_size) with false.
  cbv iota. rewrite Hsane. cbn [negb]. unfold recv_verified. rewrite Hc, Hip.
  fold (ip_checksum udpc source_ip source_port dest_ip CLIENT_PORT). rewrite <- Hipc.
  unfold bytes_eqb at 1. rewrite bool_decide_eq_true_2 by done. cbn [negb].
  rewrite Hu, Hps.
  set (ps := pseudo_headers source_ip source_port dest_ip CLIENT_PORT) in *.
  assert (Hpl : length ps = 28%nat) by (apply length_headers; done).
  change (Z.to_nat IP_UPD_DHCP_SIZE) with 576%nat.
  assert (Ht : take 576 (ps ++ z) = ps ++ d).
  { subst z. rewrite app_assoc. apply take_app_length'. rewrite length_app. lia. }
  rewrite Ht, <- Hudpc. unfold bytes_eqb at 3. rewrite bool_decide_eq_true_2 by done.
  cbn [negb]. rewrite !andb_false_r. cbv iota.
  change (IP_UPD_DHCP_SIZE - headers_size) with 548.
  change (Z.to_nat 548) with 548%nat.
  assert (Hs : slice frame_data 548 (ps ++ z) = d).
  { unfold slice, frame_data. rewrite drop_app_length' by lia. subst z.
    apply take_app_length'. lia. }
  assert (Hw : wr 0 d old = d ++ drop 548 old).
  { unfold wr. by rewrite Hd. }
  rewrite Hs, Hw, slice_app_l by (rewrite Hd; cbv; lia). rewrite Hcookie.
  unfold bytes_eqb. rewrite bool_decide_eq_true_2 by done. done.
Qed.

Lemma length_set_broadcast pkt bcast :
  length pkt = packet_size -> length (set_broadcast pkt bcast) = packet_size.
Proof.
  intros H. unfold set_broadcast. destruct bcast; [|done].
  destruct (slice off_flags 1 pkt) as [|b [|]]; [done| |done].
  unfold wr. rewrite !length_app, length_take, length_drop, H. done.
Qed.

Lemma set_broadcast_cookie pkt bcast :
  length pkt = packet_size ->
  slice off_cookie 4 (set_broadcast pkt bcast) = slice off_cookie 4 pkt.
Proof.
  intros H. unfold set_broadcast. destruct bcast; [|done].
  destruct (slice off_flags 1 pkt) as [|b [|]]; [done| |done].
  apply slice_wr_after; [cbv; lia|]. rewrite H. cbv; lia.
Qed.

(** The frame of a packet holds its first 548 bytes behind the headers. *)
Lemma build_frame_payload dhcp_pkt source_ip source_port dest_ip dest_port :
  drop 28 (take (Z.to_nat IP_UPD_DHCP_SIZE)
    (build_frame dhcp_pkt source_ip source_port dest_ip dest_port)) = take 548 dhcp_pkt.
Proof.
  rewrite build_frame_headers. cbv zeta.
  rewrite take_app_ge by (rewrite length_sent_headers; [cbv; lia|done..]).
  rewrite length_sent_headers by done. by rewrite drop_app_length' by by rewrite length_sent_headers.
Qed.

Lemma recv_build_frame pkt old source_ip source_port dest_ip :
  length pkt = packet_size -> length old = packet_size ->
  slice off_cookie 4 pkt = be_bytes32 DHCP_MAGIC ->
  dhcp_recv_l2_packet
    (Some (take (Z.to_nat IP_UPD_DHCP_SIZE) (build_frame pkt source_ip source_port dest_ip CLIENT_PORT)))
    old = (take 548 pkt ++ drop 548 old, inr (le_bytes32 dest_ip, 548)).
Proof.
  intros Hpl Hold Hcookie. rewrite build_frame_headers. cbv zeta.
  rewrite take_app_ge by (rewrite length_sent_headers; [cbv; lia|done..]).
  rewrite length_sent_headers by done.
  change (Z.to_nat IP_UPD_DHCP_SIZE - 28)%nat with 548%nat.
  apply recv_sent_frame; [| done | | done |].
  - rewrite length_take, Hpl. done.
  - rewrite <- Hcookie. rewrite <- (take_drop 548 pkt) at 2. rewrite slice_app_l; [done|].
    rewrite length_take, Hpl. cbv; lia.
  - unfold udp_checksum. rewrite take_app_ge by (rewrite length_pseudo_headers; cbv; lia).
    by rewrite length_pseudo_headers.
Qed.

(** C40: a DHCP packet sent with [dhcp_send_raw_packet] to the client port is
    accepted by [dhcp_recv_l2_packet]: both checksums verify, and the receiver
    gets the first 548 bytes of the packet and the destination address. *)
Theorem dhcp_raw_roundtrip env dhcp_pkt old source_ip source_port dest_ip bcast sent frame ret :
  length dhcp_pkt = packet_size -> length old = packet_size ->
  slice off_cookie 4 dhcp_pkt = be_bytes32 DHCP_MAGIC ->
  dhcp_send_raw_packet env dhcp_pkt source_ip source_port dest_ip CLIENT_PORT bcast =
    (sent, Some frame, ret) ->
  dhcp_recv_l2_packet (Some frame) old =
    (take 548 sent ++ drop 548 old, inr (le_bytes32 dest_ip, 548)).
Proof.
  intros Hl Hold Hcookie Hsend. unfold dhcp_send_raw_packet in Hsend.
  repeat break_match_hyp Hsend; simplify_eq.
  apply recv_build_frame; [by apply length_set_broadcast|done|]. by rewrite set_broadcast_cookie.
Qed.

Definition sample_offer : list Z := default [] (dhcp_init_header DHCPOFFER).

Lemma dhcp_raw_roundtrip_witness :
  exists sent frame,
    dhcp_send_raw_packet (mk_send_env None None None) sample_offer 0 SERVER_PORT 0xffffffff
      CLIENT_PORT true = (sent, Some frame, 576) /\
    dhcp_recv_l2_packet (Some frame) (repeat 0 packet_size) =
      (take 548 sent ++ drop 548 (repeat 0 packet_size), inr ([255; 255; 255; 255], 548)).
Proof.
  eexists _, _. split; [reflexivity|].
  apply (dhcp_raw_roundtrip (mk_send_env None None None) sample_offer (repeat 0 packet_size)
           0 SERVER_PORT 0xffffffff true _ _ 576); reflexivity.
Defined.

(** The scratch changes of the headers touch neither the destination nor the data. *)
Lemma scratch_kept packet off n : length packet = sizeof_frame -> off = ip_daddr /\ n = 4%nat \/ (frame_data <= off)%nat ->
  let packet1 := wr ip_check [0; 0] packet in
  let packet2 := wr 0 (repeat 0 ip_protocol) packet1 in
  let packet3 := wr ip_tot_len (slice udp_len 2 packet2) packet2 in
  slice off n (wr udp_check [0; 0] packet3) = slice off n packet.
Proof.
  intros H Hoff packet1 packet2 packet3. change sizeof_frame with 656%nat in H.
  change ip_daddr with 16%nat in Hoff. change frame_data with 28%nat in Hoff.
  assert (H1 : length packet1 = 656%nat) by (unfold packet1; rewrite length_wr; [done|rewrite H; cbv; lia]).
  assert (H2 : length packet2 = 656%nat) by (unfold packet2; rewrite length_wr; [done|rewrite H1; cbv; lia]).
  assert (Hs : length (slice udp_len 2 packet2) = 2%nat) by (apply length_slice; rewrite H2; cbv; lia).
  assert (H3 : length packet3 = 656%nat) by (unfold packet3; rewrite length_wr; [done|rewrite Hs, H2; cbv; lia]).
  assert (E3 : slice off n packet3 = slice off n packet).
  { assert (Hge : (16 <= off)%nat) by (destruct Hoff as [[-> _]|]; lia).
    unfold packet3. rewrite slice_wr_after by (rewrite ?Hs, ?H2; change ip_tot_len with 2%nat; lia).
    unfold packet2. rewrite slice_wr_after by (rewrite ?H1; change ip_protocol with 9%nat; cbn [repeat length]; lia).
    unfold packet1. apply slice_wr_after; [change ip_check with 10%nat; cbn [length]; lia|]. rewrite H. cbv. lia. }
  rewrite <- E3. destruct Hoff as [[-> ->]|Hoff].
  - apply slice_wr_before; rewrite ?H3; cbv; lia.
  - apply slice_wr_after; [change udp_check with 26%nat; cbn [length]; lia|]. rewrite H3. cbv. lia.
Qed.

Lemma recv_verified_safe packet bytes old pkt r :
  length packet = sizeof_frame -> length old = packet_size ->
  headers_size <= bytes <= Z.of_nat sizeof_frame ->
  recv_verified packet bytes old = (pkt, r) ->
  length pkt = packet_size /\
  match r with
  | inl e => e = -1
  | inr (daddr, n) =>
      n = bytes - headers_size /\ daddr = slice ip_daddr 4 packet /\
      pkt = slice frame_data (Z.to_nat n) packet ++ drop (Z.to_nat n) old /\
      slice off_cookie 4 pkt = be_bytes32 DHCP_MAGIC
  end.
Proof.
  intros Hp Hold Hb H. unfold recv_verified in H.
  pose proof (scratch_kept packet ip_daddr 4 Hp (or_introl (conj eq_refl eq_refl))) as Ed.
  pose proof (scratch_kept packet frame_data (Z.to_nat (bytes - headers_size)) Hp (or_intror (le_n _))) as Ef. cbv zeta in Ed, Ef.
  break_match_hyp H; [by simplify_eq|]. rewrite Ed, Ef in H. break_match_hyp H; [by simplify_eq|].
  change (Z.of_nat sizeof_frame) with (headers_size + Z.of_nat packet_size) in Hb.
  assert (Hn : length (slice frame_data (Z.to_nat (bytes - headers_size)) packet) = Z.to_nat (bytes - headers_size)).
  { apply length_slice. rewrite Hp. change sizeof_frame with (frame_data + packet_size)%nat. lia. }
  assert (Hw : wr 0 (slice frame_data (Z.to_nat (bytes - headers_size)) packet) old =
               slice frame_data (Z.to_nat (bytes - headers_size)) packet ++ drop (Z.to_nat (bytes - headers_size)) old).
  { unfold wr. cbn [take app]. by rewrite Hn. }
  rewrite Hw in H.
  assert (Hl : length (slice frame_data (Z.to_nat (bytes - headers_size)) packet ++ drop (Z.to_nat (bytes - headers_size)) old) = packet_size).
  { rewrite length_app, length_drop, Hn, Hold. lia. }
  break_match_hyp H; simplify_eq; [done|]. unfold bytes_eqb in *. bool_to_prop. by split_and!.
Qed.

(** A cookie that is read from a buffer of zeros with [n] bytes in front of them is in these bytes. *)
Lemma cookie_in_frame (f : list Z) n : length f = n -> (n <= packet_size)%nat ->
  slice off_cookie 4 (f ++ drop n (repeat 0 packet_size)) = be_bytes32 DHCP_MAGIC ->
  (off_cookie + 4 <= n)%nat /\ slice off_cookie 4 f = be_bytes32 DHCP_MAGIC.
Proof.
  intros Hf Hn E. change packet_size with 628%nat in *. change off_cookie with 236%nat in *.
  assert (Hle : (240 <= n)%nat).
  { destruct (Nat.le_gt_cases 240 n) as [|Hlt]; [done|exfalso].
    assert (E3 : slice 236 4 (f ++ drop n (repeat 0 628)) !! 3%nat = Some 99) by by rewrite E.
    unfold slice in E3. rewrite lookup_take_lt in E3 by lia. rewrite lookup_drop, lookup_app_r in E3 by lia.
    rewrite lookup_drop in E3. apply list_elem_of_lookup_2, list_elem_of_In, repeat_spec in E3. done. }
  split; [lia|]. rewrite <- E. apply (slice_agree n); [|lia]. rewrite take_app_le by lia. done.
Qed.

(** C29: whatever bytes arrive, the copy into the packet of the caller stays inside it.  A frame is accepted only if all of its bytes
    were read, as many as its header says; the packet then holds its data, in front of what was there before, with the magic cookie of DHCP,
    and the destination is the one of its header.  In a packet of zeros, as the caller has it, the cookie is the frame's own. *)
Theorem dhcp_recv_l2_safe data old pkt r :
  length old = packet_size ->
  dhcp_recv_l2_packet data old = (pkt, r) ->
  length pkt = packet_size /\
  match r with
  | inl e => e = -1
  | inr (daddr, n) => exists frame, data = Some frame /\
      0 <= n <= Z.of_nat packet_size /\ be_field16 ip_tot_len frame = headers_size + n /\ headers_size + n <= Z.of_nat (length frame) /\
      daddr = slice ip_daddr 4 frame /\
      pkt = slice frame_data (Z.to_nat n) frame ++ drop (Z.to_nat n) old /\
      slice off_cookie 4 pkt = be_bytes32 DHCP_MAGIC /\
      (old = repeat 0 packet_size -> slice (frame_data + off_cookie) 4 frame = be_bytes32 DHCP_MAGIC)
  end.
Proof.
  intros Hold H. unfold dhcp_recv_l2_packet in H.
  destruct data as [data|]; [|by simplify_eq].
  set (f := take sizeof_frame data) in H. set (packet := wr 0 f (repeat 0 sizeof_frame)) in H.
  assert (Hf : (length f <= sizeof_frame)%nat) by (unfold f; rewrite length_take; lia).
  assert (Hlp : length packet = sizeof_frame) by (unfold packet; rewrite length_wr; rewrite repeat_length; [done|lia]).
  assert (Hag : forall off n, (off + n <= length f)%nat -> slice off n packet = slice off n data).
  { intros off n Hle. apply (slice_agree (length f)); [|done].
    assert (Ep : packet = f ++ drop (length f) (repeat 0 sizeof_frame)) by done. rewrite Ep, take_app_length.
    unfold f. rewrite length_take. destruct (Nat.le_gt_cases (length data) sizeof_frame).
    - rewrite Nat.min_r, !take_ge by lia. done.
    - by rewrite Nat.min_l by lia. }
  break_match_hyp H; [by simplify_eq|].
  match type of H with context [(?b <? headers_size)] => set (bytes := b) in H end.
  break_match_hyp H; [by simplify_eq|]. break_match_hyp H; [by simplify_eq|].
  bool_to_prop.
  assert (Hbytes : bytes = be_field16 ip_tot_len packet) by (subst bytes; break_match; bool_to_prop; lia).
  assert (Hle : bytes <= Z.of_nat (length f)) by lia. change headers_size with 28 in *.
  apply recv_verified_safe in H as [Hl H]; [|done|done|change headers_size with 28; lia].
  split; [done|]. destruct r as [|[daddr n]]; [done|]. destruct H as (En & Ed & Ep & Ec). change headers_size with 28 in En.
  change sizeof_frame with 656%nat in *. change packet_size with 628%nat in *. change ip_daddr with 16%nat in *. change frame_data with 28%nat in *.
  rewrite Hag in Ed by lia. rewrite Hag in Ep by lia.
  exists data. split_and!; try done; [lia|lia| | |].
  - rewrite Hbytes in En. unfold be_field16 in *. change ip_tot_len with 2%nat in *. rewrite Hag in En by lia. lia.
  - unfold f in Hle. rewrite length_take in Hle. lia.
  - intros Eo. rewrite Ep, Eo in Ec. apply cookie_in_frame in Ec as [Hn Hc]; [| |change packet_size with 628%nat; lia].
    + rewrite <- Hc. unfold slice. rewrite skipn_firstn_comm, take_take, drop_drop. f_equal; lia.
    + apply length_slice. unfold f in Hle. rewrite length_take in Hle. lia.
Qed.

(** A frame that is accepted: one that was sent. *)
Definition demo_sent : list Z :=
  let '(_, frame, _) := dhcp_send_raw_packet (mk_send_env None None None)
    (wr off_cookie (be_bytes32 DHCP_MAGIC) (repeat 7 packet_size)) 0x0100000a 67 0x0200000a CLIENT_PORT false in default [] frame.

Lemma dhcp_recv_l2_safe_witness :
  let '(pkt, r) := dhcp_recv_l2_packet (Some demo_sent) (repeat 0 packet_size) in
  length pkt = packet_size /\ slice (frame_data + off_cookie) 4 demo_sent = be_bytes32 DHCP_MAGIC /\ exists n, r = inr ([10; 0; 0; 2], n) /\ n = 548.
Proof.
  destruct (dhcp_recv_l2_packet _ _) as [pkt r] eqn:E.
  pose proof (dhcp_recv_l2_safe _ (repeat 0 packet_size) pkt r eq_refl E) as [Hl Hr].
  assert (Er : r = inr ([10; 0; 0; 2], 548)) by (vm_compute in E; congruence). rewrite Er in Hr.
  destruct Hr as (frame & Ef & _ & _ & _ & _ & _ & _ & Hc). injection Ef as <-. split; [exact Hl|]. split; [exact (Hc eq_refl)|]. exists 548. split; [exact Er|exact eq_refl].
Defined.

End DhcpFrame.
