(* ===== verification/DhcpServer.v ===== *)
(** * The DHCP server of tethering mode (gdhcp/server.c)

    The lease table is kept as the code keeps it: the leases are objects in a
    store, a list of pointers ordered by expiry and a hash table from addresses
    to pointers refer to the same objects.  Replies, calls of the saved
    callbacks and the leases handed to the save function are outputs; the
    clock and the success of allocations are inputs. *)

From S2P Require Import Prelude Inet Effects Glib Buffer DhcpPacket DhcpFrame.
From stdpp Require Import list.
Open Scope Z_scope.
Import DhcpPacket DhcpFrame.

Module DhcpServer.

Definition DEFAULT_DHCP_LEASE_SEC : Z := 8 * 60 * 60.
Definition OFFER_TIME : Z := 5 * 60.
Definition INADDR_BROADCAST : Z := 0xffffffff.
Definition ETH_ALEN : nat := 6.
Definition MAC_BCAST_ADDR : list Z := repeat 0xff ETH_ALEN.
Definition MAC_ANY_ADDR : list Z := repeat 0 ETH_ALEN.

(** ** Data *)

Record dhcp_lease := mk_lease {
  expire : Z;             (** [time_t] *)
  lease_nip : Z;          (** host byte order *)
  lease_mac : list Z;
}.

Definition ptr := positive.

Record lease_table := mk_table {
  lease_list : list ptr;
  nip_lease_hash : gmap Z ptr;
  heap : gmap ptr dhcp_lease;
  next_ptr : ptr;
}.

Record GDHCPServer := mk_server {
  ref_count : Z;
  started : bool;
  start_ip : Z;
  end_ip : Z;
  server_nip : Z;         (** network byte order *)
  lease_seconds : Z;
  listener_watch : bool;
  leases : lease_table;
  option_hash : gmap Z string;
  save_lease_func : bool;
  lease_added_cb : bool;
}.

(** The clock and the allocator during one call. *)
Record env := mk_env { now : Z; alloc_ok : bool }.

Inductive output :=
  | SendRaw (pkt : list Z) (source_ip dest_ip : Z) (dest_arp : list Z)
  | LeaseAdded (chaddr : list Z) (yiaddr : Z)
  | SaveLease (mac : list Z) (nip expire : Z).

Definition server_prog (A : Type) : Type := pprog GDHCPServer output A.

Definition set_leases (t : lease_table) (s : GDHCPServer) : GDHCPServer :=
  mk_server (ref_count s) (started s) (start_ip s) (end_ip s) (server_nip s)
    (lease_seconds s) (listener_watch s) t (option_hash s) (save_lease_func s)
    (lease_added_cb s).

(** ** The lease table *)

(** [memcmp] and [memcpy] of hardware addresses take [ETH_ALEN] bytes. *)
Definition mac_of (mac : list Z) : list Z := take ETH_ALEN mac.

Definition find_lease_by_mac (t : lease_table) (mac : list Z) : option ptr :=
  find (fun p => match heap t !! p with
                 | Some l => bytes_eqb (lease_mac l) (mac_of mac)
                 | None => false
                 end) (lease_list t).

(** Unlink a lease from the list and an address from the hash table. *)
Definition unlink (p : ptr) (nip : Z) (t : lease_table) : lease_table :=
  mk_table (g_list_remove p (lease_list t)) (delete nip (nip_lease_hash t)) (heap t)
    (next_ptr t).

Definition lease_nip_of (t : lease_table) (p : ptr) : Z :=
  match heap t !! p with Some l => lease_nip l | None => 0 end.

(** [remove_lease], with [g_free]. *)
Definition remove_lease (p : ptr) (t : lease_table) : lease_table :=
  let t := unlink p (lease_nip_of t p) t in
  mk_table (lease_list t) (nip_lease_hash t) (delete p (heap t)) (next_ptr t).

Definition g_try_new0 (e : env) (t : lease_table) : option ptr * lease_table :=
  if alloc_ok e then
    (Some (next_ptr t),
     mk_table (lease_list t) (nip_lease_hash t)
       (<[next_ptr t := mk_lease 0 0 MAC_ANY_ADDR]> (heap t)) (Pos.succ (next_ptr t)))
  else (None, t).

(** Clear the old lease and create the new one; [nip] is [ntohl (yiaddr)]. *)
Definition get_lease (e : env) (s : GDHCPServer) (nip : Z) (mac : list Z) :
    (Z + ptr) * lease_table :=
  let t := leases s in
  if nip =? 0 then (inl (- ENXIO), t)
  else if nip <? start_ip s then (inl (- ENXIO), t)
  else if end_ip s <? nip then (inl (- ENXIO), t)
  else if bytes_eqb (mac_of mac) MAC_BCAST_ADDR then (inl (- ENXIO), t)
  else if bytes_eqb (mac_of mac) MAC_ANY_ADDR then (inl (- ENXIO), t)
  else
    let by_mac := find_lease_by_mac t mac in
    match nip_lease_hash t !! nip with
    | Some by_nip =>
        let t := unlink by_nip nip t in
        match by_mac with
        | None => (inr by_nip, t)
        | Some m => (inr by_nip, if decide (by_nip = m) then t else remove_lease m t)
        end
    | None =>
        match by_mac with
        | Some m => (inr m, unlink m (lease_nip_of t m) t)
        | None =>
            match g_try_new0 e t with
            | (None, t) => (inl (- ENOMEM), t)
            | (Some p, t) => (inr p, t)
            end
        end
    end.

(** [gint] result of the comparison of two [time_t]. *)
Definition compare_expire (h : gmap ptr dhcp_lease) (a b : ptr) : Z :=
  match h !! a, h !! b with
  | Some lease1, Some lease2 => s32 (expire lease2 - expire lease1)
  | _, _ => 0
  end.

Section Leases.
Context `{GLib}.

Definition link (p : ptr) (l : dhcp_lease) (t : lease_table) : lease_table :=
  let h := <[p := l]> (heap t) in
  mk_table (g_list_insert_sorted (compare_expire h) p (lease_list t))
    (<[lease_nip l := p]> (nip_lease_hash t)) h (next_ptr t).

(** [None] when no lease was added. *)
Definition add_lease (e : env) (s : GDHCPServer) (expire : Z) (chaddr : list Z) (nip : Z) :
    option ptr * lease_table :=
  match get_lease e s nip chaddr with
  | (inl _, t) => (None, t)
  | (inr p, t) =>
      let expire := if expire =? 0 then now e + lease_seconds s else expire in
      (Some p, link p (mk_lease expire nip (mac_of chaddr)) t)
  end.

Definition find_lease_by_nip (t : lease_table) (nip : Z) : option ptr := nip_lease_hash t !! nip.

Definition is_expired_lease (e : env) (l : dhcp_lease) : bool := expire l <? now e.

(** [arp_check], which always succeeds. *)
Definition arp_check (nip : Z) : bool := true.

(** The loop over the range, from [ip_addr]; the outer [None] when it has not
    ended after [fuel] addresses. *)
Fixpoint free_nip_loop (fuel : nat) (s : GDHCPServer) (ip_addr : Z) : option (option Z) :=
  match fuel with
  | O => None
  | S fuel =>
      if end_ip s <? ip_addr then Some None
      else if (ip_addr .& 0xff) =? 0 then free_nip_loop fuel s (u32 (ip_addr + 1))
      else if (ip_addr .& 0xff) =? 0xff then free_nip_loop fuel s (u32 (ip_addr + 1))
      else
        match find_lease_by_nip (leases s) ip_addr with
        | Some _ => free_nip_loop fuel s (u32 (ip_addr + 1))
        | None =>
            if arp_check (htonl ip_addr) then Some (Some ip_addr)
            else free_nip_loop fuel s (u32 (ip_addr + 1))
        end
  end.

(** As many rounds as the range has addresses, and one to leave it. *)
Definition range_fuel (s : GDHCPServer) : nat := S (Z.to_nat (end_ip s - start_ip s + 1)).

Definition find_free_or_expired_nip (e : env) (s : GDHCPServer) : option Z :=
  match free_nip_loop (range_fuel s) s (start_ip s) with
  | None => None
  | Some (Some ip) => Some ip
  | Some None =>
      match last (lease_list (leases s)) with
      | None => Some 0
      | Some p =>
          match heap (leases s) !! p with
          | None => None
          | Some l =>
              if negb (is_expired_lease e l) then Some 0
              else if negb (arp_check (lease_nip l)) then Some 0
              else Some (lease_nip l)
          end
      end
  end.

Definition lease_set_expire (p : ptr) (exp : Z) (t : lease_table) : lease_table :=
  match heap t !! p with
  | None => t
  | Some l =>
      let list := g_list_remove p (lease_list t) in
      let h := <[p := mk_lease exp (lease_nip l) (lease_mac l)]> (heap t) in
      mk_table (g_list_insert_sorted (compare_expire h) p list) (nip_lease_hash t) h (next_ptr t)
  end.

Definition destroy_lease_table (t : lease_table) : lease_table :=
  mk_table [] ∅ (foldr (fun p h => delete p h) (heap t) (lease_list t)) (next_ptr t).

Definition check_requested_nip (e : env) (s : GDHCPServer) (requested_nip : Z) : bool :=
  if requested_nip =? 0 then false
  else if requested_nip <? start_ip s then false
  else if end_ip s <? requested_nip then false
  else
    match find_lease_by_nip (leases s) requested_nip with
    | None => true
    | Some p =>
        match heap (leases s) !! p with
        | None => true
        | Some l => negb (negb (is_expired_lease e l))
        end
    end.

(** ** Replies *)

Definition check_packet_type (pkt : list Z) (packet_len : Z) : option Z :=
  if negb (byte_at off_hlen pkt =? Z.of_nat ETH_ALEN) then Some 0
  else if negb (byte_at off_op pkt =? BOOTREQUEST) then Some 0
  else
    match get_option pkt packet_len DHCP_MESSAGE_TYPE with
    | None => None
    | Some None => Some 0
    | Some (Some off) =>
        match rd pkt off with
        | None => None
        | Some ty =>
            if ty <? DHCPDISCOVER then Some 0
            else if DHCPINFORM <? ty then Some 0
            else Some ty
        end
    end.

(** Copy of a field of the packet of the client. *)
Definition copy_field (off n : nat) (client pkt : list Z) : list Z := wr off (slice off n client) pkt.

Definition init_packet (s : GDHCPServer) (client : list Z) (type : Z) : option (list Z) :=
  pkt ← dhcp_init_header type;
  let pkt := copy_field off_xid 4 client pkt in
  let pkt := copy_field off_chaddr 16 client pkt in
  let pkt := copy_field off_flags 2 client pkt in
  let pkt := copy_field off_gateway_nip 4 client pkt in
  let pkt := copy_field off_ciaddr 4 client pkt in
  dhcp_add_option_uint32 pkt DHCP_SERVER_ID (ntohl (server_nip s)).

Definition is_address_option (code : Z) : bool :=
  (code =? DHCP_SUBNET) || (code =? DHCP_ROUTER) || (code =? DHCP_DNS_SERVER).

Definition add_option (pkt : list Z) (kv : Z * string) : option (list Z) :=
  if is_address_option kv.1 then
    match inet_aton kv.2 with
    | None => Some pkt
    | Some nip => dhcp_add_option_uint32 pkt kv.1 nip
    end
  else Some pkt.

Fixpoint add_options (pkt : list Z) (kvs : list (Z * string)) : option (list Z) :=
  match kvs with
  | [] => Some pkt
  | kv :: kvs => pkt ← add_option pkt kv; add_options pkt kvs
  end.

Definition add_server_options (s : GDHCPServer) (pkt : list Z) : option (list Z) :=
  add_options pkt (g_hash_table_foreach (option_hash s)).

(** The value of a 32-bit field as the host reads it. *)
Definition raw32 (off : nat) (pkt : list Z) : Z := htonl (field32 off pkt).

Definition chaddr_of (pkt : list Z) : list Z := slice off_chaddr 16 pkt.

Definition send_packet_to_client (pkt : list Z) : server_prog unit :=
  nip ← pget server_nip;
  if negb ((byte_at off_flags pkt .& byte_of BROADCAST_FLAG 1) =? 0) || (raw32 off_ciaddr pkt =? 0)
  then pemit (SendRaw pkt nip INADDR_BROADCAST MAC_BCAST_ADDR)
  else pemit (SendRaw pkt nip (raw32 off_ciaddr pkt) (mac_of (chaddr_of pkt))).

Definition set_yiaddr (nip : Z) (pkt : list Z) : list Z := set_field32 off_yiaddr nip pkt.

(** Run [add_lease] on the server. *)
Definition do_add_lease (e : env) (exp : Z) (chaddr : list Z) (nip : Z) :
    server_prog (option ptr) := fun s =>
  let '(r, t) := add_lease e s exp chaddr nip in Some (r, set_leases t s, []).

(** The address an offer is made for. *)
Definition offered_nip (e : env) (s : GDHCPServer) (lease : option ptr) (requested_nip : Z) :
    option Z :=
  match lease with
  | Some p => Some (lease_nip_of (leases s) p)
  | None =>
      if check_requested_nip e s requested_nip then Some requested_nip
      else find_free_or_expired_nip e s
  end.

Definition send_offer (e : env) (client : list Z) (lease : option ptr) (requested_nip : Z) :
    server_prog unit :=
  s ← pget id;
  pkt ← plift (init_packet s client DHCPOFFER);
  nip ← plift (offered_nip e s lease requested_nip);
  let pkt := set_yiaddr nip pkt in
  if nip =? 0 then pskip
  else
    lease ← do_add_lease e OFFER_TIME (chaddr_of pkt) nip;
    match lease with
    | None => pskip
    | Some _ =>
        pkt ← plift (dhcp_add_option_uint32 pkt DHCP_LEASE_TIME (lease_seconds s));
        pkt ← plift (add_server_options s pkt);
        send_packet_to_client pkt
    end.

Definition send_ACK (e : env) (client : list Z) (dest : Z) : server_prog unit :=
  s ← pget id;
  pkt ← plift (init_packet s client DHCPACK);
  let pkt := set_yiaddr dest pkt in
  pkt ← plift (dhcp_add_option_uint32 pkt DHCP_LEASE_TIME (lease_seconds s));
  pkt ← plift (add_server_options s pkt);
  send_packet_to_client pkt;;
  do_add_lease e 0 (chaddr_of pkt) dest;;
  cb ← pget lease_added_cb;
  if (cb : bool) then pemit (LeaseAdded (chaddr_of pkt) (htonl dest)) else pskip.

Definition send_NAK (client : list Z) : server_prog unit :=
  s ← pget id;
  pkt ← plift (init_packet s client DHCPNAK);
  pemit (SendRaw pkt (server_nip s) INADDR_BROADCAST MAC_BCAST_ADDR).

Definition send_inform (client : list Z) : server_prog unit :=
  s ← pget id;
  pkt ← plift (init_packet s client DHCPACK);
  pkt ← plift (add_server_options s pkt);
  send_packet_to_client pkt.

(** ** Events *)

Definition update_leases (f : lease_table -> lease_table) : server_prog unit :=
  pmodify (fun s => set_leases (f (leases s)) s).

(** The [switch] of [listener_event]. *)
Definition dispatch (e : env) (pkt : list Z) (type : Z) (has_server_id has_request_ip : bool)
    (requested_nip : Z) : server_prog unit :=
  s ← pget id;
  let lease := find_lease_by_mac (leases s) (chaddr_of pkt) in
  if type =? DHCPDISCOVER then send_offer e pkt lease requested_nip
  else if type =? DHCPREQUEST then
    let requested_nip :=
      if requested_nip =? 0 then field32 off_ciaddr pkt else requested_nip in
    if requested_nip =? 0 then pskip
    else
      match lease with
      | Some p =>
          if requested_nip =? lease_nip_of (leases s) p
          then send_ACK e pkt (lease_nip_of (leases s) p)
          else if has_server_id then send_NAK pkt else pskip
      | None => send_NAK pkt
      end
  else if type =? DHCPDECLINE then
    match lease with
    | Some p =>
        if has_server_id && has_request_ip && (requested_nip =? lease_nip_of (leases s) p)
        then update_leases (remove_lease p)
        else pskip
    | None => pskip
    end
  else if type =? DHCPRELEASE then
    match lease with
    | Some p =>
        if has_server_id && (raw32 off_ciaddr pkt =? lease_nip_of (leases s) p)
        then update_leases (lease_set_expire p (u32 (now e)))
        else pskip
    | None => pskip
    end
  else if type =? DHCPINFORM then send_inform pkt
  else pskip.

Definition set_watch (w : bool) (s : GDHCPServer) : GDHCPServer :=
  mk_server (ref_count s) (started s) (start_ip s) (end_ip s) (server_nip s)
    (lease_seconds s) w (leases s) (option_hash s) (save_lease_func s) (lease_added_cb s).

(** The four bytes of an option that is present. *)
Definition option32 (pkt : list Z) (opt : option Z) : option (option Z) :=
  match opt with
  | None => Some None
  | Some off => v ← deref32 pkt off; Some (Some v)
  end.

(** [broken] is [condition & (G_IO_NVAL | G_IO_ERR | G_IO_HUP)]; [data] what
    the socket delivers.  The result tells whether the watch is kept. *)
Definition listener_event (e : env) (broken : bool) (data : list Z + Z) : server_prog bool :=
  if broken then pmodify (set_watch false);; mret false
  else
    let '(pkt, re) := dhcp_recv_l3_packet data in
    if re <? 0 then mret true
    else
      let packet_len := u16 re in
      type ← plift (check_packet_type pkt packet_len);
      if type =? 0 then mret true
      else
        server_id_option ← plift (get_option pkt packet_len DHCP_SERVER_ID);
        server_nid ← plift (option32 pkt server_id_option);
        nip ← pget server_nip;
        if match server_nid with Some v => negb (htonl v =? nip) | None => false end
        then mret true
        else
          request_ip_option ← plift (get_option pkt packet_len DHCP_REQUESTED_IP);
          requested_nip ← plift (option32 pkt request_ip_option);
          dispatch e pkt type (bool_decide (is_Some server_id_option))
            (bool_decide (is_Some request_ip_option)) (default 0 requested_nip);;
          mret true.

(** ** Configuration and life cycle *)

(** [index_ok], [up], [nip]: what the interface queries answer. *)
Inductive new_error := INVALID_INDEX | NOMEM | INTERFACE_UNAVAILABLE | INTERFACE_DOWN
  | IP_ADDRESS_INVALID.

Definition g_dhcp_server_new (ifindex : Z) (e : env) (name_known up : bool) (nip : Z) :
    new_error + GDHCPServer :=
  if ifindex <? 0 then inl INVALID_INDEX
  else if negb (alloc_ok e) then inl NOMEM
  else if negb name_known then inl INTERFACE_UNAVAILABLE
  else if negb up then inl INTERFACE_DOWN
  else if nip =? 0 then inl IP_ADDRESS_INVALID
  else inr (mk_server 1 false 0 0 nip DEFAULT_DHCP_LEASE_SEC false (mk_table [] ∅ ∅ 1%positive)
              ∅ false false).

Definition set_started (b w : bool) (s : GDHCPServer) : GDHCPServer :=
  mk_server (ref_count s) b (start_ip s) (end_ip s) (server_nip s)
    (lease_seconds s) w (leases s) (option_hash s) (save_lease_func s) (lease_added_cb s).

(** [socket_ok]: the listening socket and its channel could be made. *)
Definition g_dhcp_server_start (socket_ok : bool) : server_prog Z :=
  st ← pget started;
  if (st : bool) then mret 0
  else if negb socket_ok then mret (- EIO)
  else pmodify (set_started true true);; mret 0.

Definition g_dhcp_server_set_option (option_code : Z) (option_value : option string) :
    server_prog Z :=
  match option_value with
  | None => mret (- EINVAL)
  | Some v =>
      if is_address_option option_code then
        match inet_aton v with
        | None => mret (- ENXIO)
        | Some _ =>
            pmodify (fun s => mk_server (ref_count s) (started s) (start_ip s) (end_ip s)
              (server_nip s) (lease_seconds s) (listener_watch s) (leases s)
              (<[option_code := v]> (option_hash s)) (save_lease_func s) (lease_added_cb s));;
            mret 0
        end
      else mret (- EINVAL)
  end.

Fixpoint save_leases (h : gmap ptr dhcp_lease) (l : list ptr) : server_prog unit :=
  match l with
  | [] => pskip
  | p :: l =>
      x ← plift (h !! p);
      pemit (SaveLease (lease_mac x) (lease_nip x) (expire x));;
      save_leases h l
  end.

Definition save_lease : server_prog unit :=
  s ← pget id;
  if save_lease_func s then save_leases (heap (leases s)) (lease_list (leases s)) else pskip.

Definition g_dhcp_server_stop : server_prog unit :=
  save_lease;; pmodify (set_started false false).

Definition set_range (a b : Z) (s : GDHCPServer) : GDHCPServer :=
  mk_server (ref_count s) (started s) a b (server_nip s) (lease_seconds s)
    (listener_watch s) (leases s) (option_hash s) (save_lease_func s) (lease_added_cb s).

(** [inet_aton] of the model already yields the address in host byte order. *)
Definition g_dhcp_server_set_ip_range (start end_ : string) : server_prog Z :=
  s ← pget id;
  match inet_aton start with
  | None => mret (- ENXIO)
  | Some a =>
      pmodify (set_range a (end_ip s));;
      match inet_aton end_ with
      | None => mret (- ENXIO)
      | Some b => pmodify (set_range a b);; mret 0
      end
  end.

Definition g_dhcp_server_set_lease_time (lease_time : Z) : server_prog unit :=
  pmodify (fun s => mk_server (ref_count s) (started s) (start_ip s) (end_ip s) (server_nip s)
    lease_time (listener_watch s) (leases s) (option_hash s) (save_lease_func s)
    (lease_added_cb s)).

Definition g_dhcp_server_set_save_lease (func : bool) : server_prog unit :=
  pmodify (fun s => mk_server (ref_count s) (started s) (start_ip s) (end_ip s) (server_nip s)
    (lease_seconds s) (listener_watch s) (leases s) (option_hash s) func (lease_added_cb s)).

Definition g_dhcp_server_set_lease_added_cb (cb : bool) : server_prog unit :=
  pmodify (fun s => mk_server (ref_count s) (started s) (start_ip s) (end_ip s) (server_nip s)
    (lease_seconds s) (listener_watch s) (leases s) (option_hash s) (save_lease_func s) cb).

Definition g_dhcp_server_ref : server_prog unit :=
  pmodify (fun s => mk_server (ref_count s + 1) (started s) (start_ip s) (end_ip s) (server_nip s)
    (lease_seconds s) (listener_watch s) (leases s) (option_hash s) (save_lease_func s)
    (lease_added_cb s)).

(** The result tells whether the server is gone. *)
Definition g_dhcp_server_unref : server_prog bool :=
  s ← pget id;
  pmodify (fun s => mk_server (ref_count s - 1) (started s) (start_ip s) (end_ip s) (server_nip s)
    (lease_seconds s) (listener_watch s) (leases s) (option_hash s) (save_lease_func s)
    (lease_added_cb s));;
  if negb (ref_count s =? 1) then mret false
  else
    g_dhcp_server_stop;;
    pmodify (fun s => set_leases (destroy_lease_table (leases s)) s);;
    mret true.
End Leases.

(** ** The invariant of the lease table *)

(** List and hash table hold the same leases, no two of them with the same
    address or the same hardware address. *)
Record wf (t : lease_table) : Prop := {
  wf_nodup : NoDup (lease_list t);
  wf_heap p : p ∈ lease_list t -> is_Some (heap t !! p);
  wf_hash nip p : nip_lease_hash t !! nip = Some p <->
    p ∈ lease_list t /\ exists l, heap t !! p = Some l /\ lease_nip l = nip;
  wf_mac p q l l' : p ∈ lease_list t -> q ∈ lease_list t ->
    heap t !! p = Some l -> heap t !! q = Some l' -> lease_mac l = lease_mac l' -> p = q;
  wf_next p : is_Some (heap t !! p) -> (p < next_ptr t)%positive;
}.

(** A lease of the table. *)
Definition leased (t : lease_table) (p : ptr) (l : dhcp_lease) : Prop :=
  p ∈ lease_list t /\ heap t !! p = Some l.

Lemma leased_with_nip t q nip :
  (exists x, leased t q x /\ lease_nip x = nip) <->
  q ∈ lease_list t /\ exists x, heap t !! q = Some x /\ lease_nip x = nip.
Proof. unfold leased. split; [intros (x & [] & ?)|intros (? & x & [])]; eauto. Qed.

Lemma wf_empty : wf (mk_table [] ∅ ∅ 1%positive).
Proof.
  split; simpl.
  - apply NoDup_nil_2.
  - intros p H. by apply elem_of_nil in H.
  - intros nip p. rewrite lookup_empty. split; [done|]. intros [H _]. by apply elem_of_nil in H.
  - intros p q l l' H. by apply elem_of_nil in H.
  - intros p [x H]. by rewrite lookup_empty in H.
Qed.

Lemma wf_nip_unique t p q l l' :
  wf t -> leased t p l -> leased t q l' -> lease_nip l = lease_nip l' -> p = q.
Proof.
  intros W [Hp Hl] [Hq Hl'] E.
  assert (H1 : nip_lease_hash t !! lease_nip l = Some p) by (apply (wf_hash t W); eauto).
  assert (H2 : nip_lease_hash t !! lease_nip l = Some q) by (apply (wf_hash t W); eauto).
  congruence.
Qed.

Lemma find_lease_by_mac_Some t mac p :
  find_lease_by_mac t mac = Some p -> exists l, leased t p l /\ lease_mac l = mac_of mac.
Proof.
  intros H. apply find_some in H as [Hin H]. apply list_elem_of_In in Hin.
  destruct (heap t !! p) as [l|] eqn:E; [|done]. exists l. split; [done|].
  unfold bytes_eqb in H. by bool_to_prop.
Qed.

Lemma find_lease_by_mac_None t mac p l :
  find_lease_by_mac t mac = None -> leased t p l -> lease_mac l <> mac_of mac.
Proof.
  intros H [Hp Hl] E. apply list_elem_of_In in Hp.
  pose proof (find_none _ _ H p Hp) as F. simpl in F. rewrite Hl in F.
  unfold bytes_eqb in F. by bool_to_prop.
Qed.

Lemma leased_unlink t p nip q l :
  wf t -> leased (unlink p nip t) q l <-> leased t q l /\ q <> p.
Proof.
  intros W. unfold leased, unlink; simpl.
  rewrite elem_of_g_list_remove by apply (wf_nodup t W). tauto.
Qed.

Lemma wf_unlink t p l : wf t -> leased t p l -> wf (unlink p (lease_nip l) t).
Proof.
  intros W [Hp Hl]. pose proof (wf_nodup t W) as Hn. split; simpl.
  - by apply NoDup_g_list_remove.
  - intros q. rewrite elem_of_g_list_remove by done. intros [Hq _]. by apply (wf_heap t W).
  - intros nip q. rewrite elem_of_g_list_remove by done.
    rewrite lookup_delete_Some, (wf_hash t W). split.
    + intros (Hne & Hq & x & Hx & Ex). split; [split; [done|]|eauto].
      intros ->. congruence.
    + intros ([Hq Hqp] & x & Hx & Ex). split; [|eauto].
      intros <-. apply Hqp. by apply (wf_nip_unique t q p x l).
  - intros q r lq lr. rewrite !elem_of_g_list_remove by done.
    intros [Hq _] [Hr _]. by apply (wf_mac t W).
  - apply (wf_next t W).
Qed.

Lemma wf_remove_lease t p l : wf t -> leased t p l -> wf (remove_lease p t).
Proof.
  intros W Hp. pose proof (wf_unlink t p l W Hp) as W'. pose proof (wf_nodup t W) as Hn.
  unfold remove_lease, lease_nip_of. rewrite (proj2 Hp). simpl.
  assert (Hne : forall q, q ∈ g_list_remove p (lease_list t) -> q <> p).
  { intros q. rewrite elem_of_g_list_remove by done. tauto. }
  assert (Hd : forall q x, q ∈ g_list_remove p (lease_list t) ->
    delete p (heap t) !! q = Some x <-> heap t !! q = Some x).
  { intros q x Hq. rewrite lookup_delete_ne; [done|]. apply not_eq_sym. by apply Hne. }
  split; simpl.
  - apply (wf_nodup _ W').
  - intros q Hq. destruct (wf_heap _ W' q Hq) as [x Hx]. exists x. by apply Hd.
  - intros nip q. rewrite (wf_hash _ W' nip q). simpl. split; intros [Hq (x & Hx & E)].
    + split; [done|]. exists x. by rewrite Hd.
    + split; [done|]. exists x. by rewrite Hd in Hx.
  - intros q r lq lr Hq Hr. rewrite !Hd by done. by apply (wf_mac _ W').
  - intros q [x Hx]. apply lookup_delete_Some in Hx as [_ Hx]. apply (wf_next t W). eauto.
Qed.

Lemma leased_remove_lease t p q l x :
  wf t -> leased t p x -> leased (remove_lease p t) q l <-> leased t q l /\ q <> p.
Proof.
  intros W Hp. unfold leased, remove_lease, lease_nip_of. rewrite (proj2 Hp). simpl.
  rewrite elem_of_g_list_remove by apply (wf_nodup t W).
  rewrite lookup_delete_Some. split; intros; destruct_and?; split_and!; congruence.
Qed.

Lemma leased_nip_iff t p l q x :
  wf t -> leased t p l -> leased t q x -> q <> p <-> lease_nip x <> lease_nip l.
Proof.
  intros W Hp Hq. split.
  - intros Hne E. apply Hne. by apply (wf_nip_unique t q p x l).
  - intros Hne ->. apply Hne. destruct Hp, Hq. congruence.
Qed.

Lemma leased_mac_iff t p l q x :
  wf t -> leased t p l -> leased t q x -> q <> p <-> lease_mac x <> lease_mac l.
Proof.
  intros W [Hp Hl] [Hq Hx]. split.
  - intros Hne E. apply Hne. by apply (wf_mac t W q p x l).
  - intros Hne ->. congruence.
Qed.

(** After [get_lease] the object it returns is free to be filled in, and what
    is left are the leases of other addresses and other stations. *)
Definition cleared (t t' : lease_table) (p : ptr) (nip : Z) (mac : list Z) : Prop :=
  wf t' /\ (p ∉ lease_list t') /\ (p < next_ptr t')%positive /\
  forall q x, leased t' q x <-> leased t q x /\ lease_nip x <> nip /\ lease_mac x <> mac.

Lemma cleared_new e t p t' nip mac :
  wf t -> g_try_new0 e t = (Some p, t') ->
  nip_lease_hash t !! nip = None -> find_lease_by_mac t mac = None ->
  cleared t t' p nip (mac_of mac).
Proof.
  intros W. unfold g_try_new0. destruct (alloc_ok e); [|done]. intros E Hn Hm. simplify_eq.
  assert (Hfresh : heap t !! next_ptr t = None).
  { destruct (heap t !! next_ptr t) eqn:F; [|done].
    pose proof (wf_next t W (next_ptr t) ltac:(eauto)). lia. }
  assert (Hnotin : next_ptr t ∉ lease_list t).
  { intros Hin. destruct (wf_heap t W _ Hin). congruence. }
  assert (Hl : forall q x, q ∈ lease_list t ->
    <[next_ptr t := mk_lease 0 0 MAC_ANY_ADDR]> (heap t) !! q = Some x <-> heap t !! q = Some x).
  { intros q x Hq. rewrite lookup_insert_ne; [done|]. intros <-. done. }
  split_and!; simpl; [split; simpl|done|lia|].
  - apply (wf_nodup t W).
  - intros q Hq. destruct (wf_heap t W q Hq) as [x Hx]. exists x. by apply Hl.
  - intros n q. rewrite (wf_hash t W). split; intros [Hq (x & Hx & E)].
    + split; [done|]. exists x. by rewrite Hl.
    + split; [done|]. exists x. by rewrite Hl in Hx.
  - intros q r lq lr Hq Hr. rewrite !Hl by done. by apply (wf_mac t W).
  - intros q [x Hx]. apply lookup_insert_Some in Hx as [[<- _]|[_ Hx]]; [lia|].
    pose proof (wf_next t W q ltac:(eauto)). lia.
  - intros q x. unfold leased; simpl. split.
    + intros [Hq Hx]. rewrite Hl in Hx by done. split_and!; try done.
      * intros E. assert (F : nip_lease_hash t !! nip = Some q) by (apply (wf_hash t W); eauto).
        congruence.
      * by apply (find_lease_by_mac_None t mac q x).
    + intros ([Hq Hx] & _). by rewrite Hl.
Qed.

Lemma cleared_unlink t p l nip mac :
  wf t -> leased t p l ->
  (forall q x, leased t q x -> q <> p <-> lease_nip x <> nip /\ lease_mac x <> mac) ->
  cleared t (unlink p (lease_nip l) t) p nip mac.
Proof.
  intros W Hp Hq. split_and!.
  - by apply wf_unlink.
  - simpl. rewrite elem_of_g_list_remove by apply (wf_nodup t W). tauto.
  - simpl. apply (wf_next t W). destruct Hp as [_ E]. eauto.
  - intros q x. rewrite leased_unlink by done. specialize (Hq q x). tauto.
Qed.

Lemma get_lease_spec e s nip mac r t' :
  wf (leases s) -> get_lease e s nip mac = (r, t') ->
  match r with
  | inl err => t' = leases s /\ (err = - ENXIO \/ err = - ENOMEM /\ alloc_ok e = false)
  | inr p => nip <> 0 /\ start_ip s <= nip <= end_ip s /\
      mac_of mac <> MAC_BCAST_ADDR /\ mac_of mac <> MAC_ANY_ADDR /\
      cleared (leases s) t' p nip (mac_of mac)
  end.
Proof.
  intros W H. unfold get_lease in H. set (t := leases s) in *.
  do 5 (break_match_hyp H; [simplify_eq; by eauto|]). unfold bytes_eqb in *. bool_to_prop.
  assert (Hok : forall p, cleared t t' p nip (mac_of mac) ->
    nip <> 0 /\ start_ip s <= nip <= end_ip s /\ mac_of mac <> MAC_BCAST_ADDR /\
    mac_of mac <> MAC_ANY_ADDR /\ cleared t t' p nip (mac_of mac)) by (intros; split_and!; done || lia).
  destruct (nip_lease_hash t !! nip) as [n|] eqn:Hn.
  - apply (wf_hash t W) in Hn as [Hin (l & Hl & <-)].
    assert (Hp : leased t n l) by done.
    destruct (find_lease_by_mac t mac) as [m|] eqn:Hm.
    + apply find_lease_by_mac_Some in Hm as (lm & Hlm & Em).
      simplify_eq. apply Hok. case_decide as E.
      * subst m. rewrite <- Em. destruct Hlm as [_ Hlm]. simplify_eq.
        apply cleared_unlink; [done..|]. intros q x Hq.
        pose proof (leased_mac_iff t n l q x). pose proof (leased_nip_iff t n l q x). tauto.
      * assert (W' : wf (unlink n (lease_nip l) t)) by by apply wf_unlink.
        assert (Hm' : leased (unlink n (lease_nip l) t) m lm).
        { apply leased_unlink; [done|]. split; [done|]. congruence. }
        split_and!.
        -- by apply (wf_remove_lease _ m lm).
        -- simpl. rewrite elem_of_g_list_remove.
           ++ simpl. rewrite elem_of_g_list_remove by apply (wf_nodup t W). tauto.
           ++ apply (wf_nodup _ W').
        -- simpl. apply (wf_next t W). eauto.
        -- intros q x. rewrite (leased_remove_lease _ m q x lm) by done.
           rewrite leased_unlink by done. rewrite <- Em.
           pose proof (leased_nip_iff t n l q x W Hp). pose proof (leased_mac_iff t m lm q x W Hlm).
           tauto.
    + simplify_eq. apply Hok. apply cleared_unlink; [done..|]. intros q x Hq.
      rewrite (leased_nip_iff t n l q x) by done.
      pose proof (find_lease_by_mac_None t mac q x Hm Hq). tauto.
  - destruct (find_lease_by_mac t mac) as [m|] eqn:Hm.
    + apply find_lease_by_mac_Some in Hm as (lm & Hlm & Em).
      simplify_eq. apply Hok. unfold lease_nip_of. rewrite (proj2 Hlm).
      apply cleared_unlink; [done..|]. intros q x Hq. rewrite <- Em.
      rewrite (leased_mac_iff t m lm q x) by done. split; [|tauto]. intros Hne. split; [|done].
      intros E. assert (F : nip_lease_hash t !! nip = Some q)
        by (apply (wf_hash t W); destruct Hq; eauto). congruence.
    + destruct (g_try_new0 e t) as [[p|] t''] eqn:En; simplify_eq.
      * apply Hok. by apply (cleared_new e).
      * unfold g_try_new0 in En. destruct (alloc_ok e); simplify_eq. eauto.
Qed.

(** ** Operations keep the invariant *)

Section Theory.
Context `{GLib}.

Lemma elem_of_insert_sorted {A} (f : A -> A -> Z) x y l :
  y ∈ g_list_insert_sorted f x l <-> y = x \/ y ∈ l.
Proof. by rewrite g_list_insert_sorted_perm, elem_of_cons. Qed.

Lemma NoDup_insert_sorted {A} (f : A -> A -> Z) x l :
  x ∉ l -> NoDup l -> NoDup (g_list_insert_sorted f x l).
Proof. intros. rewrite g_list_insert_sorted_perm. by apply list.NoDup_cons. Qed.

Lemma leased_link t p l q x :
  wf t -> p ∉ lease_list t ->
  leased (link p l t) q x <-> (q = p /\ x = l) \/ leased t q x.
Proof.
  intros W Hp. unfold leased, link; simpl. rewrite elem_of_insert_sorted. split.
  - intros [[->|Hq] Hx].
    + rewrite lookup_insert_eq in Hx. simplify_eq. by left.
    + right. split; [done|]. rewrite lookup_insert_ne in Hx; [done|]. by intros ->.
  - intros [[-> ->]|[Hq Hx]].
    + split; [by left|]. by rewrite lookup_insert_eq.
    + split; [by right|]. rewrite lookup_insert_ne; [done|]. by intros ->.
Qed.

Lemma wf_link t p l :
  wf t -> p ∉ lease_list t -> (p < next_ptr t)%positive ->
  (forall q x, leased t q x -> lease_nip x <> lease_nip l /\ lease_mac x <> lease_mac l) ->
  wf (link p l t).
Proof.
  intros W Hp Hlt Hothers.
  assert (L : forall q x, leased (link p l t) q x <-> (q = p /\ x = l) \/ leased t q x)
    by (intros; by apply leased_link).
  assert (Hin : forall q, q ∈ lease_list (link p l t) <-> q = p \/ q ∈ lease_list t)
    by (intros; apply elem_of_insert_sorted).
  split.
  - apply NoDup_insert_sorted; [done|apply (wf_nodup t W)].
  - intros q Hq. apply Hin in Hq as [->|Hq]; simpl; [rewrite lookup_insert_eq; eauto|].
    destruct (wf_heap t W q Hq). rewrite lookup_insert_is_Some'. eauto.
  - intros nip q. rewrite <- leased_with_nip.
    simpl. rewrite lookup_insert_Some, (wf_hash t W). split.
    + intros [[<- <-]|[Hne (Hq & x & Hx & E)]].
      * exists l. split; [apply L; by left|done].
      * exists x. split; [|done]. apply L. right. done.
    + intros (x & Hx & <-). apply L in Hx as [[-> ->]|Hx]; [by left|].
      right. destruct (Hothers q x Hx). split; [done|]. destruct Hx; eauto.
  - intros q r lq lr Hq Hr Hlq Hlr E.
    assert (Aq : leased (link p l t) q lq) by done. assert (Ar : leased (link p l t) r lr) by done.
    apply L in Aq as [[-> ->]|Aq], Ar as [[-> ->]|Ar]; try done.
    + by destruct (Hothers r lr Ar).
    + by destruct (Hothers q lq Aq).
    + destruct Aq, Ar. by apply (wf_mac t W q r lq lr).
  - intros q [x Hx]. simpl in *. apply lookup_insert_Some in Hx as [[<- _]|[_ Hx]]; [done|].
    apply (wf_next t W). eauto.
Qed.

(** The lease that [add_lease] records. *)
Definition new_lease (e : env) (s : GDHCPServer) (exp nip : Z) (chaddr : list Z) : dhcp_lease :=
  mk_lease (if exp =? 0 then now e + lease_seconds s else exp) nip (mac_of chaddr).

Lemma add_lease_spec e s exp chaddr nip r t' :
  wf (leases s) -> add_lease e s exp chaddr nip = (r, t') ->
  match r with
  | None => t' = leases s
  | Some p => wf t' /\ nip <> 0 /\ start_ip s <= nip <= end_ip s /\
      mac_of chaddr <> MAC_BCAST_ADDR /\ mac_of chaddr <> MAC_ANY_ADDR /\
      forall q x, leased t' q x <->
        (q = p /\ x = new_lease e s exp nip chaddr) \/
        (leased (leases s) q x /\ lease_nip x <> nip /\ lease_mac x <> mac_of chaddr)
  end.
Proof.
  intros W Ha. unfold add_lease in Ha.
  destruct (get_lease e s nip chaddr) as [[err|p] t] eqn:E.
  - simplify_eq. apply get_lease_spec in E; [|done]. tauto.
  - simplify_eq. apply get_lease_spec in E; [|done].
    destruct E as (Hz & Hr & ? & ? & W1 & Hp & Hlt & L). split_and!; try (done || lia).
    + apply wf_link; [done..|]. intros q x Hx. apply L in Hx. simpl. tauto.
    + intros q x. rewrite leased_link by done. rewrite L. done.
Qed.

Lemma leased_set_expire t p exp l q x :
  wf t -> leased t p l ->
  leased (lease_set_expire p exp t) q x <->
    (q = p /\ x = mk_lease exp (lease_nip l) (lease_mac l)) \/ (q <> p /\ leased t q x).
Proof.
  intros W [Hp Hl]. unfold lease_set_expire. rewrite Hl. unfold leased; simpl.
  rewrite elem_of_insert_sorted, elem_of_g_list_remove by apply (wf_nodup t W). split.
  - intros [[->|[Hq Hne]] Hx].
    + rewrite lookup_insert_eq in Hx. simplify_eq. by left.
    + right. split; [done|]. split; [done|]. by rewrite lookup_insert_ne in Hx.
  - intros [[-> ->]|[Hne [Hq Hx]]].
    + split; [by left|]. by rewrite lookup_insert_eq.
    + split; [by right|]. by rewrite lookup_insert_ne.
Qed.

Lemma wf_set_expire t p exp l : wf t -> leased t p l -> wf (lease_set_expire p exp t).
Proof.
  intros W Hp. pose proof (leased_set_expire t p exp l) as L.
  set (t' := lease_set_expire p exp t) in *.
  assert (Elist : forall q, q ∈ lease_list t' <-> q ∈ lease_list t).
  { intros q. subst t'. unfold lease_set_expire. rewrite (proj2 Hp). simpl.
    rewrite elem_of_insert_sorted, elem_of_g_list_remove by apply (wf_nodup t W).
    destruct Hp. destruct (decide (q = p)) as [->|]; tauto. }
  assert (Hsame : forall q x, leased t' q x ->
    exists y, leased t q y /\ lease_nip y = lease_nip x /\ lease_mac y = lease_mac x).
  { intros q x Hx. apply L in Hx as [[-> ->]|[_ Hx]]; [|by exists x|done|done]. by exists l. }
  split.
  - subst t'. unfold lease_set_expire. rewrite (proj2 Hp). simpl. apply NoDup_insert_sorted.
    + rewrite elem_of_g_list_remove by apply (wf_nodup t W). tauto.
    + apply NoDup_g_list_remove, (wf_nodup t W).
  - intros q Hq. subst t'. apply Elist in Hq. unfold lease_set_expire.
    rewrite (proj2 Hp). simpl. destruct (wf_heap t W q Hq). rewrite lookup_insert_is_Some'. eauto.
  - intros nip q. rewrite <- leased_with_nip.
    transitivity (nip_lease_hash t !! nip = Some q).
    { subst t'. unfold lease_set_expire. by rewrite (proj2 Hp). }
    rewrite (wf_hash t W). split.
    + intros (Hq & x & Hx & E). destruct (decide (q = p)) as [->|Hne].
      * exists (mk_lease exp (lease_nip l) (lease_mac l)). rewrite L by done.
        destruct Hp. split; [by left|]. simplify_eq. done.
      * exists x. rewrite L by done. split; [|done]. right. done.
    + intros (x & Hx & E). apply Hsame in Hx as (y & [Hq Hy] & E1 & _). split; [done|].
      exists y. split; [done|]. congruence.
  - intros q r lq lr Hq Hr Hlq Hlr E.
    destruct (Hsame q lq ltac:(done)) as (y & [? ?] & _ & E1).
    destruct (Hsame r lr ltac:(done)) as (z & [? ?] & _ & E2).
    apply (wf_mac t W q r y z); try done. congruence.
  - intros q [x Hx]. subst t'. unfold lease_set_expire in *. rewrite (proj2 Hp) in *. simpl in *.
    apply (wf_next t W). apply lookup_insert_Some in Hx as [[<- _]|[_ Hx]]; [|eauto].
    destruct Hp as [_ Hl]. eauto.
Qed.

(** ** The list is ordered by expiry

    The comparison truncates the difference of two times to an [int], so the
    order is meaningful as long as the times fit in 31 bits. *)

Definition sorted_ok (t : lease_table) : Prop :=
  (forall p l, leased t p l -> 0 <= expire l < 2 ^ 31) /\
  cmp_sorted (compare_expire (heap t)) (lease_list t).

Lemma compares_expire h (l : list ptr) :
  (forall p, p ∈ l -> exists x, h !! p = Some x /\ 0 <= expire x < 2 ^ 31) ->
  compares (compare_expire h) l.
Proof.
  intros Hl.
  assert (Hc : forall a b x y, h !! a = Some x -> h !! b = Some y ->
    0 <= expire x < 2 ^ 31 -> 0 <= expire y < 2 ^ 31 ->
    compare_expire h a b = expire y - expire x).
  { intros a b x y Ea Eb Hx Hy. unfold compare_expire. rewrite Ea, Eb. apply s32_small. lia. }
  split.
  - intros a b Ha Hb. destruct (Hl a Ha) as (x & Ea & Hx), (Hl b Hb) as (y & Eb & Hy).
    rewrite (Hc a b x y), (Hc b a y x) by done. lia.
  - intros a b c Ha Hb Hcc. destruct (Hl a Ha) as (x & Ea & Hx), (Hl b Hb) as (y & Eb & Hy).
    destruct (Hl c Hcc) as (z & Ec & Hz).
    rewrite (Hc a b x y), (Hc b c y z), (Hc a c x z) by done. lia.
Qed.

Lemma cmp_sorted_ext {A} (f g : A -> A -> Z) l :
  (forall a b, a ∈ l -> b ∈ l -> f a b = g a b) -> cmp_sorted f l -> cmp_sorted g l.
Proof.
  intros Hfg Hs. induction Hs as [|x l Hl IH Hx]; [constructor|].
  constructor; [apply IH; intros; apply Hfg; by apply list_elem_of_further|].
  rewrite list.Forall_forall in Hx |- *. intros y Hy. rewrite <- Hfg; [by apply Hx|..].
  - apply list_elem_of_here.
  - by apply list_elem_of_further.
Qed.

Lemma compare_expire_ext h h' l :
  (forall p, p ∈ l -> h !! p = h' !! p) ->
  cmp_sorted (compare_expire h) l -> cmp_sorted (compare_expire h') l.
Proof.
  intros Hh. apply cmp_sorted_ext. intros a b Ha Hb. unfold compare_expire.
  by rewrite (Hh a Ha), (Hh b Hb).
Qed.

Lemma sorted_link t p l :
  wf t -> (p ∉ lease_list t) -> 0 <= expire l < 2 ^ 31 -> sorted_ok t -> sorted_ok (link p l t).
Proof.
  intros W Hp Hl [Hr Hs]. split.
  - intros q x Hx. apply leased_link in Hx as [[-> ->]|Hx]; [done|by apply (Hr q)|done|done].
  - simpl. apply g_list_insert_sorted_sorted.
    + apply compares_expire. intros q Hq. apply elem_of_cons in Hq as [->|Hq].
      * exists l. by rewrite lookup_insert_eq.
      * destruct (wf_heap t W q Hq) as [x Hx]. exists x.
        rewrite lookup_insert_ne by (by intros ->). split; [done|]. by apply (Hr q).
    + apply (compare_expire_ext (heap t)); [|done]. intros q Hq.
      rewrite lookup_insert_ne; [done|]. by intros ->.
Qed.

Lemma sorted_unlink t p nip : wf t -> sorted_ok t -> sorted_ok (unlink p nip t).
Proof.
  intros W [Hr Hs]. split.
  - intros q x Hx. apply leased_unlink in Hx as [Hx _]; [by apply (Hr q)|done].
  - by apply cmp_sorted_remove.
Qed.

Lemma sorted_remove_lease t p l : wf t -> leased t p l -> sorted_ok t -> sorted_ok (remove_lease p t).
Proof.
  intros W Hp [Hr Hs]. split.
  - intros q x Hx. apply (leased_remove_lease t p q x l) in Hx as [Hx _]; [by apply (Hr q)|done..].
  - unfold remove_lease. simpl. apply (compare_expire_ext (heap t)); [|by apply cmp_sorted_remove].
    intros q. rewrite elem_of_g_list_remove by apply (wf_nodup t W). intros [_ Hne].
    by rewrite lookup_delete_ne.
Qed.

Lemma sorted_set_expire t p l exp :
  wf t -> leased t p l -> 0 <= exp < 2 ^ 31 -> sorted_ok t -> sorted_ok (lease_set_expire p exp t).
Proof.
  intros W Hp He [Hr Hs]. split.
  - intros q x Hx. apply (leased_set_expire t p exp l) in Hx as [[-> ->]|[_ Hx]];
      [done|by apply (Hr q)|done..].
  - unfold lease_set_expire. rewrite (proj2 Hp). simpl. pose proof (wf_nodup t W).
    apply g_list_insert_sorted_sorted.
    + apply compares_expire. intros q Hq. apply elem_of_cons in Hq as [->|Hq].
      * eexists. by rewrite lookup_insert_eq.
      * apply elem_of_g_list_remove in Hq as [Hq Hne]; [|done].
        destruct (wf_heap t W q Hq) as [x Hx]. exists x.
        rewrite lookup_insert_ne by done. split; [done|]. by apply (Hr q).
    + apply (compare_expire_ext (heap t)); [|by apply cmp_sorted_remove].
      intros q Hq. apply elem_of_g_list_remove in Hq as [Hq Hne]; [|done].
      by rewrite lookup_insert_ne.
Qed.

Lemma sorted_get_lease e s nip mac r t :
  wf (leases s) -> sorted_ok (leases s) -> get_lease e s nip mac = (r, t) -> sorted_ok t.
Proof.
  intros W Hs E. unfold get_lease in E. do 5 (break_match_hyp E; [by simplify_eq|]).
  destruct (nip_lease_hash (leases s) !! nip) as [n|] eqn:Hn.
  - apply (wf_hash _ W) in Hn as [Hin (l & Hl & <-)].
    pose proof (sorted_unlink (leases s) n (lease_nip l) W Hs).
    destruct (find_lease_by_mac (leases s) mac) as [m|] eqn:Hm; simplify_eq; [|done].
    case_decide as Hne; [done|]. apply find_lease_by_mac_Some in Hm as (lm & Hlm & _).
    apply (sorted_remove_lease _ m lm); [by apply wf_unlink| |done].
    apply leased_unlink; [done|]. split; [done|congruence].
  - destruct (find_lease_by_mac (leases s) mac) as [m|] eqn:Hm; [simplify_eq; by apply sorted_unlink|].
    unfold g_try_new0 in E. destruct (alloc_ok e); simplify_eq; [|done].
    assert (Hne : forall q, q ∈ lease_list (leases s) -> next_ptr (leases s) <> q).
    { intros q Hq <-. pose proof (wf_next _ W _ (wf_heap _ W _ Hq)). lia. }
    destruct Hs as [Hr Hs]. split.
    + intros q x [Hq Hx]. simpl in *. rewrite lookup_insert_ne in Hx by by apply Hne. by apply (Hr q).
    + simpl. apply (compare_expire_ext (heap (leases s))); [|done]. intros q Hq.
      rewrite lookup_insert_ne; [done|]. by apply Hne.
Qed.

(** The clock and the lease time keep expiry times in 31 bits. *)
Definition timely (e : env) (s : GDHCPServer) : Prop :=
  0 <= now e /\ 0 <= lease_seconds s /\ now e + lease_seconds s < 2 ^ 31.

Lemma sorted_add_lease e s exp chaddr nip r t :
  wf (leases s) -> timely e s -> 0 <= exp < 2 ^ 31 -> sorted_ok (leases s) ->
  add_lease e s exp chaddr nip = (r, t) -> sorted_ok t.
Proof.
  intros W (Ht0 & Ht1 & Ht2) He Hs E. unfold add_lease in E.
  destruct (get_lease e s nip chaddr) as [[err|p] t1] eqn:Eg.
  - simplify_eq. by apply (sorted_get_lease _ _ _ _ _ _ W Hs Eg).
  - simplify_eq. pose proof (sorted_get_lease _ _ _ _ _ _ W Hs Eg) as Hs1.
    apply get_lease_spec in Eg; [|done]. destruct Eg as (_ & _ & _ & _ & W1 & Hp & _ & _).
    apply sorted_link; [done|done| |done]. simpl. destruct (exp =? 0); lia.
Qed.

(** ** Replies *)

(** The options a server reply carries for its own configuration. *)
Definition configured (kv : Z * string) : list (Z * list Z) :=
  if is_address_option kv.1 then
    match inet_aton kv.2 with
    | Some nip => [(kv.1, be_bytes32 nip)]
    | None => []
    end
  else [].

Lemma is_address_option_code code :
  is_address_option code = true ->
  0 < code < DHCP_END /\ code <> DHCP_OPTION_OVERLOAD /\ check_option code 4 <> OPTION_UNKNOWN.
Proof.
  unfold is_address_option. intros H1. apply orb_true_iff in H1 as [H1|H1].
  - apply orb_true_iff in H1 as [H1|H1]; apply Z.eqb_eq in H1 as ->; by split_and!.
  - apply Z.eqb_eq in H1 as ->; by split_and!.
Qed.

Lemma add_options_holds kvs : forall pkt opts,
  holds pkt opts -> Z.of_nat (length (encode opts)) + 6 * Z.of_nat (length kvs) + 2 < DHCP_OPTIONS_BUFSIZE ->
  exists pkt', add_options pkt kvs = Some pkt' /\
    holds pkt' (opts ++ concat (map configured kvs)) /\
    take off_options pkt' = take off_options pkt.
Proof.
  induction kvs as [|kv kvs IH]; intros pkt opts Hh Hfit; simpl.
  - exists pkt. by rewrite app_nil_r.
  - unfold add_option, configured. simpl in Hfit.
    destruct (is_address_option kv.1) eqn:Ha; simpl.
    + destruct (inet_aton kv.2) as [nip|]; simpl.
      * destruct (is_address_option_code _ Ha) as (H1 & H2 & H3).
        destruct (add_option_uint32_holds pkt opts kv.1 nip) as (pkt1 & E & Hh1 & Ht1);
          [done..|lia|].
        rewrite E. simpl. destruct (IH pkt1 (opts ++ [(kv.1, be_bytes32 nip)]))
          as (pkt2 & E2 & Hh2 & Ht2); [done| |].
        { rewrite encode_app, length_app.
          change (length (encode [(kv.1, be_bytes32 nip)])) with 6%nat. lia. }
        exists pkt2. rewrite E2, <- app_assoc in *. split_and!; [done|done|congruence].
      * destruct (IH pkt opts Hh ltac:(lia)) as (pkt2 & ?). by exists pkt2.
    + destruct (IH pkt opts Hh ltac:(lia)) as (pkt2 & ?). by exists pkt2.
Qed.

(** A reply copies the identification of the request. *)
Record replies_to (client pkt : list Z) : Prop := {
  reply_xid : slice off_xid 4 pkt = slice off_xid 4 client;
  reply_chaddr : chaddr_of pkt = chaddr_of client;
  reply_flags : slice off_flags 2 pkt = slice off_flags 2 client;
  reply_gateway : slice off_gateway_nip 4 pkt = slice off_gateway_nip 4 client;
  reply_ciaddr : slice off_ciaddr 4 pkt = slice off_ciaddr 4 client;
  reply_hlen : slice off_hlen 1 pkt = [6];
  reply_cookie : slice off_cookie 4 pkt = be_bytes32 DHCP_MAGIC;
}.

Lemma replies_to_agree client pkt pkt' :
  take off_options pkt' = take off_options pkt -> replies_to client pkt -> replies_to client pkt'.
Proof.
  intros Ht []. split; unfold chaddr_of in *;
    rewrite (slice_agree off_options _ _ pkt' pkt Ht) by (cbv; lia); done.
Qed.

Lemma length_copy off n client pkt :
  length client = packet_size -> length pkt = packet_size -> (off + n <= packet_size)%nat ->
  length (copy_field off n client pkt) = packet_size.
Proof. intros Hc Hp Ho. unfold copy_field. rewrite length_wr; rewrite ?length_slice; lia. Qed.

Lemma slice_copy_same off n client pkt :
  length client = packet_size -> length pkt = packet_size -> (off + n <= packet_size)%nat ->
  slice off n (copy_field off n client pkt) = slice off n client.
Proof.
  intros Hc Hp Ho. unfold copy_field.
  rewrite <- (length_slice off n client) at 1 by lia. rewrite slice_wr_same; [done|lia].
Qed.

Lemma slice_copy_other off n off' n' client pkt :
  length client = packet_size -> length pkt = packet_size ->
  (off' + n' <= packet_size)%nat -> (off' + n' <= off \/ off + n <= off')%nat ->
  slice off n (copy_field off' n' client pkt) = slice off n pkt.
Proof.
  intros Hc Hp Ho [Hd|Hd]; unfold copy_field.
  - apply slice_wr_after; [rewrite length_slice; lia|lia].
  - apply slice_wr_before; lia.
Qed.

Definition base_options (s : GDHCPServer) (type : Z) : list (Z * list Z) :=
  [(DHCP_MESSAGE_TYPE, [type]); (DHCP_SERVER_ID, be_bytes32 (ntohl (server_nip s)))].

Lemma init_packet_holds s client type :
  length client = packet_size ->
  exists pkt, init_packet s client type = Some pkt /\ holds pkt (base_options s type) /\
    replies_to client pkt /\ slice off_yiaddr 4 pkt = [0; 0; 0; 0].
Proof.
  intros Hc. destruct (dhcp_init_header_holds type) as (p0 & E0 & H0 & Hhdr).
  assert (Hsl : forall off n, (off + n <= off_options)%nat ->
    slice off n p0 = slice off n (header_bytes type)).
  { intros off n Ho. rewrite <- Hhdr. symmetry. apply (slice_agree off_options); [|done].
    by rewrite take_take. }
  assert (Hy : slice off_yiaddr 4 p0 = [0; 0; 0; 0]) by (rewrite Hsl by (cbv; lia); reflexivity).
  assert (Hhl : slice off_hlen 1 p0 = [6]) by (rewrite Hsl by (cbv; lia); reflexivity).
  assert (Hck : slice off_cookie 4 p0 = be_bytes32 DHCP_MAGIC) by (rewrite Hsl by (cbv; lia); reflexivity).
  unfold init_packet. rewrite E0. simpl.
  assert (HH : forall off n p, (off + n <= off_options)%nat ->
    holds p [(DHCP_MESSAGE_TYPE, [type])] ->
    holds (copy_field off n client p) [(DHCP_MESSAGE_TYPE, [type])]).
  { intros off n p Hon Hp. apply holds_wr; [|done]. pose proof (length_slice_le off n client). lia. }
  set (p1 := copy_field off_xid 4 client p0).
  set (p2 := copy_field off_chaddr 16 client p1).
  set (p3 := copy_field off_flags 2 client p2).
  set (p4 := copy_field off_gateway_nip 4 client p3).
  set (p5 := copy_field off_ciaddr 4 client p4).
  assert (H1 : holds p1 [(DHCP_MESSAGE_TYPE, [type])]) by (apply HH; [cbv; lia|done]).
  assert (H2 : holds p2 [(DHCP_MESSAGE_TYPE, [type])]) by (apply HH; [cbv; lia|done]).
  assert (H3 : holds p3 [(DHCP_MESSAGE_TYPE, [type])]) by (apply HH; [cbv; lia|done]).
  assert (H4 : holds p4 [(DHCP_MESSAGE_TYPE, [type])]) by (apply HH; [cbv; lia|done]).
  assert (H5 : holds p5 [(DHCP_MESSAGE_TYPE, [type])]) by (apply HH; [cbv; lia|done]).
  pose proof (proj1 H0). pose proof (proj1 H1). pose proof (proj1 H2). pose proof (proj1 H3).
  pose proof (proj1 H4). pose proof (proj1 H5).
  destruct (add_option_uint32_holds p5 _ DHCP_SERVER_ID (ntohl (server_nip s)) H5)
    as (pkt & E & Hh & Ht); [unfold DHCP_SERVER_ID, DHCP_END; lia|done|done|done|].
  exists pkt. split_and!; [exact E|exact Hh| |].
  - apply (replies_to_agree client p5); [done|].
    split; unfold chaddr_of, p5, p4, p3, p2, p1;
      repeat first [rewrite slice_copy_same by (done || (cbv; lia))
                   | rewrite slice_copy_other by (done || (cbv; lia))]; done.
  - rewrite (slice_agree off_options _ _ pkt p5 Ht) by (cbv; lia). unfold p5, p4, p3, p2, p1.
    repeat rewrite slice_copy_other by (done || (cbv; lia)). done.
Qed.

(** ** The invariant of the server *)

Definition valid_lease (s : GDHCPServer) (l : dhcp_lease) : Prop :=
  start_ip s <= lease_nip l <= end_ip s /\ lease_nip l <> 0 /\
  lease_mac l <> MAC_BCAST_ADDR /\ lease_mac l <> MAC_ANY_ADDR.

Record inv (s : GDHCPServer) : Prop := {
  inv_wf : wf (leases s);
  inv_range p l : leased (leases s) p l -> valid_lease s l;
  inv_ips : 0 <= start_ip s /\ end_ip s < 2 ^ 32;
  inv_options code v : option_hash s !! code = Some v -> is_address_option code = true;
}.

Lemma options_fit s : inv s -> (length (g_hash_table_foreach (option_hash s)) <= 3)%nat.
Proof.
  intros I. rewrite g_hash_table_foreach_perm.
  rewrite length_map_to_list, <- size_dom.
  assert (Hd : dom (option_hash s) ⊆ list_to_set [DHCP_SUBNET; DHCP_ROUTER; DHCP_DNS_SERVER]).
  { intros k Hk. apply elem_of_dom in Hk as [v Hv]. apply (inv_options s I) in Hv.
    unfold is_address_option in Hv. rewrite elem_of_list_to_set, !elem_of_cons.
    apply orb_true_iff in Hv as [Hv|Hv]; [apply orb_true_iff in Hv as [Hv|Hv]|];
      apply Z.eqb_eq in Hv; tauto. }
  apply subseteq_size in Hd. etransitivity; [apply Hd|].
  rewrite size_list_to_set; [done|]. by apply (bool_decide_unpack _).
Qed.

(** What a reply with a lease carries. *)
Definition lease_options (s : GDHCPServer) (type : Z) : list (Z * list Z) :=
  base_options s type ++ [(DHCP_LEASE_TIME, be_bytes32 (lease_seconds s))] ++
  concat (map configured (g_hash_table_foreach (option_hash s))).

Record lease_reply (s : GDHCPServer) (client : list Z) (type nip : Z) (pkt : list Z) : Prop := {
  lease_reply_options : holds pkt (lease_options s type);
  lease_reply_client : replies_to client pkt;
  lease_reply_yiaddr : field32 off_yiaddr pkt = nip;
}.

Lemma lease_reply_built s client type nip pkt0 :
  inv s -> length client = packet_size -> 0 <= nip < 2 ^ 32 ->
  init_packet s client type = Some pkt0 ->
  exists pkt1 pkt, dhcp_add_option_uint32 (set_yiaddr nip pkt0) DHCP_LEASE_TIME (lease_seconds s)
      = Some pkt1 /\
    add_server_options s pkt1 = Some pkt /\ lease_reply s client type nip pkt /\
    chaddr_of (set_yiaddr nip pkt0) = chaddr_of client.
Proof.
  intros I Hc Hn E0. destruct (init_packet_holds s client type Hc) as (p0 & E & H0 & Hr & _).
  rewrite E0 in E. simplify_eq.
  assert (Hl : length p0 = packet_size) by apply H0.
  assert (H1 : holds (set_yiaddr nip p0) (base_options s type)) by (apply holds_wr; [cbv; lia|done]).
  assert (Hr1 : replies_to client (set_yiaddr nip p0)).
  { destruct Hr. unfold set_yiaddr, set_field32. split; unfold chaddr_of in *;
      first [rewrite slice_wr_after by (rewrite ?Hl; cbv; lia)
            |rewrite slice_wr_before by (rewrite ?Hl; cbv; lia)]; done. }
  destruct (add_option_uint32_holds (set_yiaddr nip p0) (base_options s type) DHCP_LEASE_TIME
    (lease_seconds s) H1) as (p1 & E1 & H2 & Ht); [unfold DHCP_LEASE_TIME, DHCP_END; lia|done..|].
  destruct (add_options_holds (g_hash_table_foreach (option_hash s)) p1 _ H2)
    as (p2 & E2 & H3 & Ht2).
  { pose proof (options_fit s I). rewrite encode_app, length_app.
    change (length (encode (base_options s type))) with 9%nat.
    change (length (encode [(DHCP_LEASE_TIME, be_bytes32 (lease_seconds s))])) with 6%nat.
    unfold DHCP_OPTIONS_BUFSIZE. lia. }
  exists p1, p2. split_and!; [done|done| |apply (reply_chaddr _ _ Hr1)].
  assert (Htt : take off_options p2 = take off_options (set_yiaddr nip p0)) by congruence.
  split.
  - unfold lease_options. by rewrite app_assoc.
  - by apply (replies_to_agree client (set_yiaddr nip p0)).
  - unfold field32. rewrite (slice_agree off_options _ _ p2 _ Htt) by (cbv; lia).
    change 4%nat with (length (be_bytes32 nip)). unfold set_yiaddr, set_field32.
    rewrite slice_wr_same by (rewrite Hl; cbv; lia). by apply be_word32_bytes.
Qed.

(** Where a reply goes. *)
Definition reply_output (s : GDHCPServer) (pkt : list Z) : output :=
  if negb ((byte_at off_flags pkt .& byte_of BROADCAST_FLAG 1) =? 0) || (raw32 off_ciaddr pkt =? 0)
  then SendRaw pkt (server_nip s) INADDR_BROADCAST MAC_BCAST_ADDR
  else SendRaw pkt (server_nip s) (raw32 off_ciaddr pkt) (mac_of (chaddr_of pkt)).

Lemma send_packet_to_client_eq pkt s :
  send_packet_to_client pkt s = Some (tt, s, [reply_output s pkt]).
Proof.
  unfold send_packet_to_client, reply_output, mbind, pprog_bind, pget, pemit. by break_match.
Qed.

(** ** Choosing an address *)

Definition usable (nip : Z) : Prop := (nip .& 0xff) <> 0 /\ (nip .& 0xff) <> 0xff.

(** An address the server can give to a new station. *)
Definition free_nip (s : GDHCPServer) (nip : Z) : Prop :=
  usable nip /\ forall p l, leased (leases s) p l -> lease_nip l <> nip.

Lemma hash_None_iff s nip :
  inv s -> nip_lease_hash (leases s) !! nip = None <->
    forall p l, leased (leases s) p l -> lease_nip l <> nip.
Proof.
  intros I. pose proof (inv_wf s I) as W. split.
  - intros E p l [Hp Hl] Hn.
    assert (F : nip_lease_hash (leases s) !! nip = Some p) by (apply (wf_hash _ W); eauto).
    congruence.
  - intros Hall. destruct (nip_lease_hash (leases s) !! nip) as [p|] eqn:E; [|done].
    apply (wf_hash _ W) in E as (Hp & l & Hl & <-). by destruct (Hall p l).
Qed.

Lemma free_nip_loop_sound fuel s : forall ip a,
  0 <= ip < 2 ^ 32 -> free_nip_loop fuel s ip = Some (Some a) ->
  0 <= a < 2 ^ 32 /\ nip_lease_hash (leases s) !! a = None.
Proof.
  induction fuel as [|fuel IH]; simpl; intros ip a Hip E; [done|].
  assert (Hnext : free_nip_loop fuel s (u32 (ip + 1)) = Some (Some a) ->
    0 <= a < 2 ^ 32 /\ nip_lease_hash (leases s) !! a = None) by (apply IH; apply u32_range).
  unfold find_lease_by_nip in E. repeat break_match_hyp E; simplify_eq; by auto.
Qed.

Lemma free_nip_loop_spec s : forall fuel ip,
  inv s -> end_ip s < 2 ^ 32 - 1 -> 0 <= ip <= end_ip s + 1 ->
  end_ip s - ip + 1 < Z.of_nat fuel ->
  exists r, free_nip_loop fuel s ip = Some r /\
    match r with
    | Some a => ip <= a <= end_ip s /\ free_nip s a /\ forall b, ip <= b < a -> ~ free_nip s b
    | None => forall b, ip <= b <= end_ip s -> ~ free_nip s b
    end.
Proof.
  induction fuel as [|fuel IH]; intros ip I Hend Hip Hf; [lia|]. cbn [free_nip_loop].
  destruct (Z.ltb_spec (end_ip s) ip).
  { exists None. split; [done|]. intros b Hb. lia. }
  assert (Hnext : ~ free_nip s ip -> exists r, free_nip_loop fuel s (u32 (ip + 1)) = Some r /\
    match r with
    | Some a => ip <= a <= end_ip s /\ free_nip s a /\ forall b, ip <= b < a -> ~ free_nip s b
    | None => forall b, ip <= b <= end_ip s -> ~ free_nip s b
    end).
  { intros Hnot. rewrite u32_small by lia.
    destruct (IH (ip + 1) I Hend) as (r & E & Hr); [lia|lia|]. exists r. split; [done|].
    destruct r as [a|].
    - destruct Hr as (Ha & Hfree & Hb). split_and!; try (done || lia).
      intros b Hbr. destruct (decide (b = ip)) as [->|]; [done|]. apply Hb. lia.
    - intros b Hb. destruct (decide (b = ip)) as [->|]; [done|]. apply Hr. lia. }
  destruct (Z.eqb_spec (ip .& 0xff) 0) as [E0|E0]; [apply Hnext; intros [[]]; done|].
  destruct (Z.eqb_spec (ip .& 0xff) 0xff) as [E1|E1]; [apply Hnext; intros [[]]; done|].
  unfold find_lease_by_nip. destruct (nip_lease_hash (leases s) !! ip) as [p|] eqn:El.
  - apply Hnext. intros [_ Hall]. apply hash_None_iff in Hall; [congruence|done].
  - simpl. exists (Some ip). split; [done|]. split_and!; [lia|lia| |intros b Hb; lia].
    split; [done|]. by apply hash_None_iff.
Qed.

Lemma offered_nip_range e s lease requested nip :
  inv s -> (forall p, lease = Some p -> exists l, leased (leases s) p l) ->
  0 <= requested < 2 ^ 32 ->
  offered_nip e s lease requested = Some nip -> 0 <= nip < 2 ^ 32.
Proof.
  intros I Hlease Hr E. unfold offered_nip in E. destruct (inv_ips s I) as [Hs He].
  destruct lease as [p|].
  - destruct (Hlease p eq_refl) as [l Hl]. simplify_eq. unfold lease_nip_of.
    rewrite (proj2 Hl). destruct (inv_range s I p l Hl). lia.
  - destruct (check_requested_nip e s requested); [by simplify_eq|].
    unfold find_free_or_expired_nip in E.
    destruct (free_nip_loop _ s _) as [[a|]|] eqn:El; [| |done].
    + simplify_eq. cbn [range_fuel free_nip_loop] in El.
      destruct (Z.ltb_spec (end_ip s) (start_ip s)); [done|].
      assert (0 <= start_ip s < 2 ^ 32) by lia.
      apply (free_nip_loop_sound (range_fuel s) s (start_ip s)); [done|].
      unfold range_fuel. cbn [free_nip_loop]. destruct (Z.ltb_spec (end_ip s) (start_ip s)); [lia|done].
    + destruct (last (lease_list (leases s))) as [p|] eqn:Ep; [|simplify_eq; lia].
      destruct (heap (leases s) !! p) as [l|] eqn:Ehp; [|done].
      assert (Hl : leased (leases s) p l) by (split; [by apply last_Some_elem_of|done]).
      destruct (inv_range s I p l Hl).
      repeat break_match_hyp E; simplify_eq; lia.
Qed.

(** ** What the handlers do *)

Lemma set_leases_id s : set_leases (leases s) s = s.
Proof. by destruct s. Qed.

Lemma inv_set_leases s t :
  inv s -> wf t ->
  (forall p l, leased t p l -> valid_lease s l) ->
  inv (set_leases t s).
Proof.
  intros I W Hr. split; simpl; [done|done|apply (inv_ips s I)|apply (inv_options s I)].
Qed.

Lemma inv_add_lease e s exp chaddr nip r t :
  inv s -> add_lease e s exp chaddr nip = (r, t) -> inv (set_leases t s).
Proof.
  intros I E. apply add_lease_spec in E; [|apply (inv_wf s I)]. destruct r as [p|].
  - destruct E as (W & Hz & Hr & Hb & Ha & L). apply inv_set_leases; [done..|].
    intros q x Hx. apply L in Hx as [[-> ->]|(Hx & _)];
      [unfold valid_lease; simpl; tauto|].
    by apply (inv_range s I q).
  - subst t. by rewrite set_leases_id.
Qed.

(** Run the monad of handlers on decided steps. *)
Ltac run_server :=
  unfold mbind, pprog_bind, pget, plift, do_add_lease, pskip, pemit, pmodify, mret, pprog_ret;
  cbn [id].

Lemma send_offer_cases e client lease requested s :
  inv s -> length client = packet_size ->
  (forall nip, offered_nip e s lease requested = Some nip -> 0 <= nip < 2 ^ 32) ->
  (offered_nip e s lease requested = None /\ send_offer e client lease requested s = None) \/
  send_offer e client lease requested s = Some (tt, s, []) \/
  (exists nip p t pkt, offered_nip e s lease requested = Some nip /\ nip <> 0 /\
    add_lease e s OFFER_TIME (chaddr_of client) nip = (Some p, t) /\
    lease_reply s client DHCPOFFER nip pkt /\
    send_offer e client lease requested s = Some (tt, set_leases t s, [reply_output s pkt])).
Proof.
  intros I Hc Hn. unfold send_offer.
  destruct (init_packet_holds s client DHCPOFFER Hc) as (p0 & E0 & _).
  destruct (offered_nip e s lease requested) as [nip|] eqn:Eo;
    [right|left; split; [done|]; run_server; by rewrite E0, Eo].
  destruct (lease_reply_built s client DHCPOFFER nip p0 I Hc (Hn nip eq_refl) E0)
    as (p1 & p2 & E1 & E2 & Hrep & Hch).
  destruct (Z.eqb_spec nip 0) as [->|Hz]; [left; run_server; by rewrite E0, Eo|].
  destruct (add_lease e s OFFER_TIME (chaddr_of client) nip) as [r t] eqn:Ea.
  pose proof (add_lease_spec _ _ _ _ _ _ _ (inv_wf s I) Ea) as Hspec.
  rewrite <- Hch in Ea. destruct r as [p|].
  - right. exists nip, p, t, p2. split_and!; try done; [by rewrite <- Hch|].
    run_server. rewrite E0, Eo. rewrite (proj2 (Z.eqb_neq nip 0)) by done. rewrite Ea, E1, E2.
    rewrite send_packet_to_client_eq. done.
  - left. run_server. rewrite E0, Eo, (proj2 (Z.eqb_neq nip 0)) by done. rewrite Ea. subst t.
    by rewrite set_leases_id.
Qed.

Lemma send_ACK_eq e client dest s :
  inv s -> length client = packet_size -> 0 <= dest < 2 ^ 32 ->
  exists pkt, lease_reply s client DHCPACK dest pkt /\
    send_ACK e client dest s =
      let t := (add_lease e s 0 (chaddr_of client) dest).2 in
      Some (tt, set_leases t s, reply_output s pkt ::
        if lease_added_cb s then [LeaseAdded (chaddr_of client) (htonl dest)] else []).
Proof.
  intros I Hc Hd. unfold send_ACK.
  destruct (init_packet_holds s client DHCPACK Hc) as (p0 & E0 & _).
  destruct (lease_reply_built s client DHCPACK dest p0 I Hc Hd E0)
    as (p1 & p2 & E1 & E2 & Hrep & Hch).
  exists p2. split; [done|]. run_server. rewrite E0, E1, E2, send_packet_to_client_eq.
  rewrite (reply_chaddr _ _ (lease_reply_client _ _ _ _ _ Hrep)).
  destruct (add_lease e s 0 (chaddr_of client) dest) as [r t]. simpl. by destruct (lease_added_cb s).
Qed.

Lemma send_NAK_eq client s :
  length client = packet_size ->
  exists pkt, holds pkt (base_options s DHCPNAK) /\ replies_to client pkt /\
    field32 off_yiaddr pkt = 0 /\
    send_NAK client s =
      Some (tt, s, [SendRaw pkt (server_nip s) INADDR_BROADCAST MAC_BCAST_ADDR]).
Proof.
  intros Hc. destruct (init_packet_holds s client DHCPNAK Hc) as (p0 & E0 & H0 & Hr & Hy).
  exists p0. split_and!; try done.
  - unfold field32. by rewrite Hy.
  - unfold send_NAK. run_server. by rewrite E0.
Qed.

Lemma send_inform_eq client s :
  inv s -> length client = packet_size ->
  exists pkt, holds pkt (base_options s DHCPACK ++
      concat (map configured (g_hash_table_foreach (option_hash s)))) /\
    replies_to client pkt /\ field32 off_yiaddr pkt = 0 /\
    send_inform client s = Some (tt, s, [reply_output s pkt]).
Proof.
  intros I Hc. destruct (init_packet_holds s client DHCPACK Hc) as (p0 & E0 & H0 & Hr & Hy).
  destruct (add_options_holds (g_hash_table_foreach (option_hash s)) p0 _ H0) as (p1 & E1 & H1 & Ht).
  { pose proof (options_fit s I). change (length (encode (base_options s DHCPACK))) with 9%nat.
    unfold DHCP_OPTIONS_BUFSIZE. lia. }
  exists p1. split_and!; try done.
  - by apply (replies_to_agree client p0).
  - unfold field32. rewrite (slice_agree off_options _ _ p1 p0 Ht) by (cbv; lia). by rewrite Hy.
  - unfold send_inform. run_server. unfold add_server_options. rewrite E0, E1.
    by rewrite send_packet_to_client_eq.
Qed.

Lemma find_lease_by_mac_leased t mac p :
  find_lease_by_mac t mac = Some p -> exists l, leased t p l.
Proof. intros E. apply find_lease_by_mac_Some in E as (l & ? & _). eauto. Qed.

Lemma leased_nip_of t p l : leased t p l -> lease_nip_of t p = lease_nip l.
Proof. intros [_ E]. unfold lease_nip_of. by rewrite E. Qed.

(** Renewing the lease of a station succeeds. *)
Lemma add_lease_renews e s exp chaddr p l :
  inv s -> leased (leases s) p l -> lease_mac l = mac_of chaddr ->
  exists t, add_lease e s exp chaddr (lease_nip l) = (Some p, t).
Proof.
  intros I Hl Hm. pose proof (inv_wf s I) as W. destruct (inv_range s I p l Hl) as (Hr & Hz & Hb & Ha).
  unfold add_lease, get_lease.
  destruct (Z.eqb_spec (lease_nip l) 0); [done|].
  destruct (Z.ltb_spec (lease_nip l) (start_ip s)); [lia|].
  destruct (Z.ltb_spec (end_ip s) (lease_nip l)); [lia|].
  unfold bytes_eqb. rewrite <- Hm. rewrite !bool_decide_eq_false_2 by done.
  assert (E : nip_lease_hash (leases s) !! lease_nip l = Some p).
  { apply (wf_hash _ W). destruct Hl; eauto. }
  rewrite E. destruct (find_lease_by_mac (leases s) chaddr); eauto.
Qed.

(** The address of an offer is not that of a valid lease of another station. *)
Lemma offered_nip_safe e s mac requested nip p l :
  inv s -> offered_nip e s (find_lease_by_mac (leases s) mac) requested = Some nip ->
  leased (leases s) p l -> lease_nip l = nip ->
  lease_mac l = mac_of mac \/ is_expired_lease e l = true.
Proof.
  intros I E Hl Hn. pose proof (inv_wf s I) as W. unfold offered_nip in E.
  destruct (find_lease_by_mac (leases s) mac) as [q|] eqn:Eq.
  - apply find_lease_by_mac_Some in Eq as (x & Hx & Em). injection E as E.
    rewrite (leased_nip_of _ _ _ Hx), <- Hn in E. left. rewrite <- Em.
    assert (p = q) as -> by by apply (wf_nip_unique _ _ _ l x W).
    destruct Hl, Hx. congruence.
  - assert (Ep : nip_lease_hash (leases s) !! nip = Some p)
      by (apply (wf_hash _ W); destruct Hl; eauto).
    right. destruct Hl as [Hp Hl]. destruct (check_requested_nip e s requested) eqn:Ec.
    + simplify_eq. unfold check_requested_nip, find_lease_by_nip in Ec. rewrite Ep, Hl in Ec.
      repeat break_match_hyp Ec; try done. by rewrite negb_involutive in Ec.
    + unfold find_free_or_expired_nip in E.
      destruct (free_nip_loop _ s _) as [[a|]|] eqn:El; [| |done].
      * simplify_eq. cbn [range_fuel free_nip_loop] in El.
        destruct (Z.ltb_spec (end_ip s) (start_ip s)); [done|].
        destruct (free_nip_loop_sound (range_fuel s) s (start_ip s) (lease_nip l)) as [_ F].
        -- destruct (inv_ips s I). lia.
        -- unfold range_fuel. cbn [free_nip_loop].
           destruct (Z.ltb_spec (end_ip s) (start_ip s)); [lia|done].
        -- congruence.
      * destruct (last (lease_list (leases s))) as [q|] eqn:Eql;
          [|destruct (inv_range s I p l) as (_ & Hz & _); [done|congruence]].
        destruct (heap (leases s) !! q) as [x|] eqn:Ex; [|done].
        destruct (is_expired_lease e x) eqn:Eexp; simpl in E.
        -- simplify_eq. assert (p = q) as ->.
           { apply (wf_nip_unique _ p q l x W); [done| |done]. split; [|done].
             by apply last_Some_elem_of. }
           congruence.
        -- destruct (inv_range s I p l) as (_ & Hz & _); [done|congruence].
Qed.

Lemma find_free_returns e s : inv s -> end_ip s < 2 ^ 32 - 1 -> is_Some (find_free_or_expired_nip e s).
Proof.
  intros I He. unfold find_free_or_expired_nip. destruct (inv_ips s I) as [Hs _].
  assert (exists r, free_nip_loop (range_fuel s) s (start_ip s) = Some r) as [r ->].
  { destruct (Z.ltb_spec (end_ip s) (start_ip s)).
    - exists None. unfold range_fuel. cbn [free_nip_loop].
      by destruct (Z.ltb_spec (end_ip s) (start_ip s)); [|lia].
    - destruct (free_nip_loop_spec s (range_fuel s) (start_ip s) I He) as (r & E & _);
        [lia|unfold range_fuel; lia|eauto]. }
  destruct r; [eauto|]. destruct (last (lease_list (leases s))) as [p|] eqn:Ep; [|eauto].
  destruct (wf_heap _ (inv_wf s I) p) as [x ->]; [by apply last_Some_elem_of|].
  repeat break_match; eauto.
Qed.

(** A message that gives the address [nip] to the station [mac]. *)
Definition assigns (o : output) (nip : Z) (mac : list Z) : Prop :=
  match o with
  | SendRaw pkt _ _ _ =>
      field32 off_yiaddr pkt = nip /\ nip <> 0 /\ mac_of (chaddr_of pkt) = mac
  | _ => False
  end.

(** What every event keeps and promises. *)
Definition event_ok (e : env) (s s' : GDHCPServer) (outs : list output) : Prop :=
  inv s' /\ (timely e s -> sorted_ok (leases s) -> sorted_ok (leases s')) /\
  forall o nip mac, o ∈ outs -> assigns o nip mac ->
    (forall p l, leased (leases s) p l -> lease_nip l = nip ->
       lease_mac l = mac \/ is_expired_lease e l = true) /\
    (exists p l, leased (leases s') p l /\ lease_nip l = nip /\ lease_mac l = mac).

Lemma assigns_reply s pkt nip mac :
  assigns (reply_output s pkt) nip mac ->
  field32 off_yiaddr pkt = nip /\ nip <> 0 /\ mac_of (chaddr_of pkt) = mac.
Proof. unfold reply_output. by break_match. Qed.

Lemma event_ok_quiet e s s' outs :
  inv s' -> (timely e s -> sorted_ok (leases s) -> sorted_ok (leases s')) ->
  (forall o nip mac, o ∈ outs -> ~ assigns o nip mac) -> event_ok e s s' outs.
Proof.
  intros I Hs Ho. split_and!; [done..|]. intros o nip mac Hin Ha. by destruct (Ho o nip mac).
Qed.

Lemma event_ok_send_offer e client requested s s' u outs :
  inv s -> length client = packet_size -> 0 <= requested < 2 ^ 32 ->
  send_offer e client (find_lease_by_mac (leases s) (chaddr_of client)) requested s =
    Some (u, s', outs) ->
  event_ok e s s' outs.
Proof.
  intros I Hc Hr E. set (lease := find_lease_by_mac _ _) in *.
  destruct (send_offer_cases e client lease requested s I Hc)
    as [[_ F]|[F|(nip & p & t & pkt & En & Hz & Ea & Hrep & F)]].
  - intros nip. apply offered_nip_range; [done| |done].
    intros p. apply find_lease_by_mac_leased.
  - congruence.
  - rewrite F in E. simplify_eq. apply event_ok_quiet; [done|done|]. intros o nip mac Ho.
    by apply elem_of_nil in Ho.
  - rewrite F in E. simplify_eq. pose proof (inv_add_lease _ _ _ _ _ _ _ I Ea) as I'.
    split_and!; [done|intros Ht Hs; apply (sorted_add_lease _ _ _ _ _ _ _ (inv_wf s I) Ht) in Ea;
      unfold OFFER_TIME in *; (done || lia)|].
    intros o n mac Ho Ha. apply list_elem_of_singleton in Ho as ->.
    apply assigns_reply in Ha as (Hy & _ & Hmac).
    rewrite (lease_reply_yiaddr _ _ _ _ _ Hrep) in Hy.
    rewrite (reply_chaddr _ _ (lease_reply_client _ _ _ _ _ Hrep)) in Hmac. subst n mac. split.
    + intros q l Hl Hn. by apply (offered_nip_safe e s (chaddr_of client) requested nip q l).
    + apply add_lease_spec in Ea; [|apply (inv_wf s I)].
      destruct Ea as (_ & _ & _ & _ & _ & L).
      exists p, (new_lease e s OFFER_TIME nip (chaddr_of client)). split; [|done].
      simpl. apply L. by left.
Qed.

Lemma event_ok_send_ACK e client p l s s' u outs :
  inv s -> length client = packet_size -> leased (leases s) p l ->
  lease_mac l = mac_of (chaddr_of client) ->
  send_ACK e client (lease_nip l) s = Some (u, s', outs) -> event_ok e s s' outs.
Proof.
  intros I Hc Hl Hm E. pose proof (inv_wf s I) as W.
  destruct (inv_range s I p l Hl) as (Hrange & _). destruct (inv_ips s I).
  destruct (send_ACK_eq e client (lease_nip l) s I Hc ltac:(lia)) as (pkt & Hrep & F).
  destruct (add_lease_renews e s 0 (chaddr_of client) p l I Hl Hm) as [t Ea].
  rewrite E, Ea in F. cbv zeta in F. injection F as -> -> ->. cbn [snd] in *.
  pose proof (inv_add_lease _ _ _ _ _ _ _ I Ea) as I'.
  split_and!; [done|intros Ht Hs; apply (sorted_add_lease _ _ _ _ _ _ _ (inv_wf s I) Ht) in Ea;
      unfold OFFER_TIME in *; (done || lia)|].
  intros o n mac Ho Ha. apply elem_of_cons in Ho as [->|Ho].
  - apply assigns_reply in Ha as (Hy & _ & Hmac).
    rewrite (lease_reply_yiaddr _ _ _ _ _ Hrep) in Hy.
    rewrite (reply_chaddr _ _ (lease_reply_client _ _ _ _ _ Hrep)) in Hmac. subst n mac. split.
    + intros q x Hx Hn. left. rewrite <- Hm.
      assert (q = p) as -> by by apply (wf_nip_unique _ _ _ x l W).
      destruct Hl, Hx. congruence.
    + apply add_lease_spec in Ea; [|done]. destruct Ea as (_ & _ & _ & _ & _ & L).
      exists p, (new_lease e s 0 (lease_nip l) (chaddr_of client)). split; [|done].
      simpl. apply L. by left.
  - exfalso. destruct (lease_added_cb s); [|by apply elem_of_nil in Ho].
    apply list_elem_of_singleton in Ho as ->. done.
Qed.

Lemma event_ok_dispatch e pkt type sid rip requested s s' u outs :
  inv s -> length pkt = packet_size -> 0 <= requested < 2 ^ 32 ->
  dispatch e pkt type sid rip requested s = Some (u, s', outs) -> event_ok e s s' outs.
Proof.
  intros I Hc Hr E. unfold dispatch in E. apply pbind_inv in E as (s0 & s1 & o1 & o2 & E0 & E & ->).
  unfold pget in E0. simplify_eq. unfold id in E. cbn [app].
  assert (Hq : forall v, pskip s1 = Some (v, s', o2) -> event_ok e s1 s' o2).
  { intros v Ev. unfold pskip, mret, pprog_ret in Ev. simplify_eq. apply event_ok_quiet; [done|done|].
    intros o n mac Ho. by apply elem_of_nil in Ho. }
  assert (Hnak : forall v, send_NAK pkt s1 = Some (v, s', o2) -> event_ok e s1 s' o2).
  { intros v Ev. destruct (send_NAK_eq pkt s1 Hc) as (q & _ & _ & Hy & F). rewrite F in Ev. simplify_eq.
    apply event_ok_quiet; [done|done|]. intros o n mac Ho.
    apply list_elem_of_singleton in Ho as ->. simpl. intros (<- & Hz & _). congruence. }
  destruct (type =? DHCPDISCOVER); [by eapply event_ok_send_offer|].
  destruct (find_lease_by_mac (leases s1) (chaddr_of pkt)) as [p|] eqn:Ep.
  - apply find_lease_by_mac_Some in Ep as (l & Hl & Hm).
    rewrite (leased_nip_of _ _ _ Hl) in E.
    repeat break_match_hyp E; eauto using event_ok_send_ACK.
    + unfold update_leases, pmodify in E. simplify_eq. apply event_ok_quiet;
        [|intros _ Hs; by apply (sorted_remove_lease _ p l); [apply (inv_wf _ I)|done|]
         |intros o n mac Ho; by apply elem_of_nil in Ho].
      apply inv_set_leases; [done|by apply (wf_remove_lease _ p l), Hl; apply (inv_wf _ I)|].
      intros q x Hx. apply (leased_remove_lease _ p q x l) in Hx as [Hx _];
        [by apply (inv_range _ I q)|apply (inv_wf _ I)|done].
    + unfold update_leases, pmodify in E. simplify_eq. apply event_ok_quiet;
        [|intros (Ht0 & Ht1 & Ht2) Hs; apply (sorted_set_expire _ p l);
            [apply (inv_wf _ I)|done|rewrite u32_small; lia|done]
         |intros o n mac Ho; by apply elem_of_nil in Ho].
      apply inv_set_leases; [done|apply (wf_set_expire _ p _ l); [apply (inv_wf _ I)|done]|].
      intros q x Hx. apply (leased_set_expire _ p _ l) in Hx as [[-> ->]|[_ Hx]];
        [|by apply (inv_range _ I q)|apply (inv_wf _ I)|done].
      apply (inv_range _ I p l Hl).
    + destruct (send_inform_eq pkt s1 I Hc) as (q & _ & _ & Hy & F). rewrite F in E. simplify_eq.
      apply event_ok_quiet; [done|done|]. intros o n mac Ho.
      apply list_elem_of_singleton in Ho as ->. intros Ha. apply assigns_reply in Ha. lia.
  - repeat break_match_hyp E; eauto.
    destruct (send_inform_eq pkt s1 I Hc) as (q & _ & _ & Hy & F). rewrite F in E. simplify_eq.
    apply event_ok_quiet; [done|done|]. intros o n mac Ho.
    apply list_elem_of_singleton in Ho as ->. intros Ha. apply assigns_reply in Ha. lia.
Qed.

(** ** The listener *)

Lemma recv_l3_packet_ok data pkt re :
  Forall is_byte data -> dhcp_recv_l3_packet (inl data) = (pkt, re) ->
  length pkt = packet_size /\ Forall is_byte pkt.
Proof.
  intros Hb E. unfold dhcp_recv_l3_packet in E.
  assert (Hl : (length (take packet_size data) <= packet_size)%nat) by (rewrite length_take; lia).
  assert (Hz : forall n, Forall is_byte (repeat 0 n)).
  { intros n. induction n; simpl; constructor; [|done]. unfold is_byte. lia. }
  assert (Hp : length (wr 0 (take packet_size data) (repeat 0 packet_size)) = packet_size /\
    Forall is_byte (wr 0 (take packet_size data) (repeat 0 packet_size))).
  { split.
    - rewrite length_wr; [apply repeat_length|]. rewrite repeat_length. lia.
    - unfold wr. rewrite take_0. apply Forall_app. split; [constructor|].
      apply Forall_app. split; [by apply Forall_take|apply Forall_drop, Hz]. }
  break_match_hyp E; by simplify_eq.
Qed.

Lemma option32_range pkt opt v :
  Forall is_byte pkt -> option32 pkt opt = Some v -> 0 <= default 0 v < 2 ^ 32.
Proof.
  intros Hb E. unfold option32 in E. destruct opt as [off|]; [|simplify_eq; simpl; lia].
  unfold deref32 in E. destruct (_ =? 4)%nat; simpl in E; simplify_eq. simpl.
  apply be_word32_range. unfold slice. by apply Forall_take, Forall_drop.
Qed.

Lemma inv_set_watch w s : inv s -> inv (set_watch w s).
Proof. intros []. by split. Qed.

Lemma event_ok_listener e broken data s k s' outs :
  inv s -> match data with inl d => Forall is_byte d | inr err => 0 < err end ->
  listener_event e broken data s = Some (k, s', outs) -> event_ok e s s' outs.
Proof.
  intros I Hd E. unfold listener_event in E.
  assert (Hq : forall v x o, (mret v : server_prog bool) x = Some (k, s', o) -> x = s ->
    event_ok e s s' o).
  { intros v x o Ev ->. unfold mret, pprog_ret in Ev. simplify_eq. apply event_ok_quiet; [done|done|].
    intros ? n mac Ho. by apply elem_of_nil in Ho. }
  destruct broken.
  { unfold mbind, pprog_bind, pmodify, mret, pprog_ret in E. simplify_eq.
    apply event_ok_quiet; [by apply inv_set_watch|done|]. intros ? n mac Ho. by apply elem_of_nil in Ho. }
  destruct data as [d|err].
  2:{ simpl in E. destruct (Z.ltb_spec (- err) 0); [by eapply Hq|lia]. }
  destruct (dhcp_recv_l3_packet (inl d)) as [pkt re] eqn:Er.
  apply recv_l3_packet_ok in Er as [Hl Hb]; [|done].
  destruct (re <? 0); [by eapply Hq|].
  apply pbind_inv in E as (ty & s1 & o1 & o2 & E1 & E & ->). unfold plift in E1.
  destruct (check_packet_type pkt (u16 re)); simplify_eq. cbn [app].
  destruct (ty =? 0); [by eapply Hq|].
  apply pbind_inv in E as (sid & s2 & o3 & o4 & E2 & E & ->). unfold plift in E2.
  destruct (get_option pkt (u16 re) DHCP_SERVER_ID); simplify_eq. cbn [app].
  apply pbind_inv in E as (nid & s3 & o5 & o6 & E3 & E & ->). unfold plift in E3.
  destruct (option32 pkt sid); simplify_eq. cbn [app].
  apply pbind_inv in E as (nip & s4 & o7 & o8 & E4 & E & ->). unfold pget in E4. simplify_eq.
  cbn [app]. match type of E with (if ?b then _ else _) _ = _ => destruct b end; [by eapply Hq|].
  apply pbind_inv in E as (rip & s5 & o9 & o10 & E5 & E & ->). unfold plift in E5.
  destruct (get_option pkt (u16 re) DHCP_REQUESTED_IP); simplify_eq. cbn [app].
  apply pbind_inv in E as (req & s6 & o11 & o12 & E6 & E & ->). unfold plift in E6.
  destruct (option32 pkt rip) eqn:Eo; simplify_eq. cbn [app].
  apply pbind_inv in E as (u & s7 & o13 & o14 & E7 & E & ->).
  unfold mret, pprog_ret in E. simplify_eq. rewrite app_nil_r.
  apply event_ok_dispatch in E7; [done|done|done|]. by apply (option32_range pkt rip).
Qed.

(** ** Reachable states *)

Inductive reachable : GDHCPServer -> Prop :=
  | reach_new ifindex e known up nip s :
      g_dhcp_server_new ifindex e known up nip = inr s -> reachable s
  | reach_event e broken data s k s' outs :
      reachable s -> match data with inl d => Forall is_byte d | inr err => 0 < err end ->
      listener_event e broken data s = Some (k, s', outs) -> reachable s'
  | reach_start ok s r s' outs :
      reachable s -> g_dhcp_server_start ok s = Some (r, s', outs) -> reachable s'
  | reach_stop s r s' outs :
      reachable s -> g_dhcp_server_stop s = Some (r, s', outs) -> reachable s'
  | reach_option code v s r s' outs :
      reachable s -> g_dhcp_server_set_option code v s = Some (r, s', outs) -> reachable s'
  | reach_range a b s r s' outs :
      reachable s -> lease_list (leases s) = [] ->
      g_dhcp_server_set_ip_range a b s = Some (r, s', outs) -> reachable s'
  | reach_lease_time t s r s' outs :
      reachable s -> g_dhcp_server_set_lease_time t s = Some (r, s', outs) -> reachable s'
  | reach_save_func f s r s' outs :
      reachable s -> g_dhcp_server_set_save_lease f s = Some (r, s', outs) -> reachable s'
  | reach_added_cb f s r s' outs :
      reachable s -> g_dhcp_server_set_lease_added_cb f s = Some (r, s', outs) -> reachable s'.

(** A change of the configuration that keeps range, leases and options. *)
Lemma inv_same s s' :
  inv s -> leases s' = leases s -> start_ip s' = start_ip s -> end_ip s' = end_ip s ->
  option_hash s' = option_hash s -> inv s'.
Proof.
  intros [Hw Hr Hi Ho] E1 E2 E3 E4. split; unfold valid_lease in *; rewrite ?E1, ?E2, ?E3, ?E4; done.
Qed.

Lemma save_leases_state h l : forall s r s' outs,
  save_leases h l s = Some (r, s', outs) -> s' = s.
Proof.
  induction l as [|p l IH]; intros s r s' outs E; cbn [save_leases] in E.
  - unfold pskip, mret, pprog_ret in E. by simplify_eq.
  - apply pbind_inv in E as (x & s1 & o1 & o2 & E1 & E & ->).
    apply pbind_inv in E as (y & s2 & o3 & o4 & E2 & E & ->).
    unfold plift in E1. unfold pemit in E2. destruct (h !! p); simplify_eq. by apply IH in E.
Qed.

Lemma reachable_inv s : reachable s -> inv s.
Proof.
  induction 1 as [ifindex e known up nip s E|e broken data s k s' outs _ I Hd E|ok s r s' outs _ I E
    |s r s' outs _ I E|code v s r s' outs _ I E|a b s r s' outs _ I Hnil E|t s r s' outs _ I E
    |f s r s' outs _ I E|f s r s' outs _ I E].
  - unfold g_dhcp_server_new in E. repeat break_match_hyp E; simplify_eq.
    split; simpl; [apply wf_empty|intros p l [Hp _]; by apply elem_of_nil in Hp|lia|done].
  - by apply (event_ok_listener e broken data s k s' outs).
  - unfold g_dhcp_server_start, mbind, pprog_bind, pget, pmodify, mret, pprog_ret in E.
    repeat break_match_hyp E; simplify_eq; first [done|by apply (inv_same s)].
  - unfold g_dhcp_server_stop in E. apply pbind_inv in E as (x & s1 & o1 & o2 & E1 & E & ->).
    assert (s1 = s) as ->.
    { unfold save_lease in E1. apply pbind_inv in E1 as (y & s2 & o3 & o4 & E2 & E1 & ->).
      unfold pget in E2. simplify_eq. unfold id in E1. break_match_hyp E1.
      - by apply save_leases_state in E1.
      - unfold pskip, mret, pprog_ret in E1. by simplify_eq. }
    unfold pmodify in E. simplify_eq. by apply (inv_same s).
  - unfold g_dhcp_server_set_option, mbind, pprog_bind, pmodify, mret, pprog_ret in E.
    repeat break_match_hyp E; simplify_eq; try done.
    destruct I as [Hw Hr Hi Ho]. split; simpl; try done.
    intros k w Hk. apply lookup_insert_Some in Hk as [[<- _]|[_ Hk]]; [done|by apply (Ho k w)].
  - unfold g_dhcp_server_set_ip_range, mbind, pprog_bind, pget, pmodify, mret, pprog_ret, id in E.
    pose proof I as [Hw Hr [Hi1 Hi2] Ho].
    assert (Hn : forall p l, leased (leases s) p l -> False).
    { intros p l [Hp _]. rewrite Hnil in Hp. by apply elem_of_nil in Hp. }
    repeat break_match_hyp E; simplify_eq; try done; (split; simpl; [done| |..]);
      try done; try (intros p l Hl; by destruct (Hn p l)).
    + repeat match goal with E : inet_aton _ = Some _ |- _ => apply inet_aton_range in E end. lia.
    + repeat match goal with E : inet_aton _ = Some _ |- _ => apply inet_aton_range in E end. lia.
  - unfold g_dhcp_server_set_lease_time, pmodify in E. simplify_eq. by apply (inv_same s).
  - unfold g_dhcp_server_set_save_lease, pmodify in E. simplify_eq. by apply (inv_same s).
  - unfold g_dhcp_server_set_lease_added_cb, pmodify in E. simplify_eq. by apply (inv_same s).
Qed.

(** ** Well-formed messages *)

(** [data] is a DHCP request with the options [opts]; [pkt] is the structure
    it is read into. *)
Record message (data pkt : list Z) (opts : list (Z * list Z)) : Prop := {
  message_recv : dhcp_recv_l3_packet (inl data) = (pkt, Z.of_nat (length data));
  message_bytes : Forall is_byte data;
  message_holds : holds pkt opts;
  message_room : Z.of_nat (off_options + length (encode opts)) < Z.of_nat (length data);
  message_hlen : byte_at off_hlen pkt = 6;
  message_op : byte_at off_op pkt = BOOTREQUEST;
}.

Lemma option32_slice pkt off x :
  0 <= x < 2 ^ 32 -> slice off 4 pkt = be_bytes32 x ->
  option32 pkt (Some (Z.of_nat off)) = Some (Some x).
Proof.
  intros Hx E. unfold option32, deref32. rewrite Nat2Z.id, E. simpl. by rewrite be_word32_bytes.
Qed.

(** A message for this server is dispatched. *)
Lemma listener_event_message e s data pkt opts ty (sid : bool) (rip : option Z) :
  message data pkt opts -> DHCPDISCOVER <= ty <= DHCPINFORM ->
  has_option opts DHCP_MESSAGE_TYPE (Some [ty]) -> 0 <= server_nip s < 2 ^ 32 ->
  has_option opts DHCP_SERVER_ID
    (if sid then Some (be_bytes32 (ntohl (server_nip s))) else None) ->
  has_option opts DHCP_REQUESTED_IP (be_bytes32 <$> rip) ->
  (forall r, rip = Some r -> 0 <= r < 2 ^ 32) ->
  listener_event e false (inl data) s =
    (dispatch e pkt ty sid (bool_decide (is_Some rip)) (default 0 rip);; mret true) s.
Proof.
  intros [Hrecv Hb Hh Hroom Hhlen Hop] Hty Hmt Hnip Hsid Hrip Hr.
  unfold listener_event. rewrite Hrecv.
  assert (Hlen : (length data <= packet_size)%nat).
  { unfold dhcp_recv_l3_packet in Hrecv. break_match_hyp Hrecv.
    - injection Hrecv as _ E. unfold EPROTO in E. lia.
    - injection Hrecv as _ E. rewrite length_take in E. lia. }
  destruct (Z.ltb_spec (Z.of_nat (length data)) 0); [lia|].
  rewrite u16_small by (unfold packet_size in Hlen; lia).
  set (len := Z.of_nat (length data)) in *.
  assert (Ect : check_packet_type pkt len = Some ty).
  { unfold check_packet_type. rewrite Hhlen, Hop. cbn [negb Z.eqb].
    change (6 =? Z.of_nat ETH_ALEN) with true. change (BOOTREQUEST =? BOOTREQUEST) with true.
    cbn [negb].
    destruct (get_option_holds pkt opts len DHCP_MESSAGE_TYPE (Some [ty]) Hh Hroom)
      as (off & -> & Es & _); [unfold DHCP_MESSAGE_TYPE, DHCP_END; lia|done|].
    rewrite (slice1_rd _ _ _ Es). destruct (Z.ltb_spec ty DHCPDISCOVER); [lia|].
    by destruct (Z.ltb_spec DHCPINFORM ty); [lia|]. }
  assert (Erip : exists ro, get_option pkt len DHCP_REQUESTED_IP = Some ro /\
    option32 pkt ro = Some rip /\ bool_decide (is_Some ro) = bool_decide (is_Some rip)).
  { pose proof (get_option_holds pkt opts len DHCP_REQUESTED_IP _ Hh Hroom
      ltac:(unfold DHCP_REQUESTED_IP, DHCP_END; lia) Hrip) as G.
    destruct rip as [r|]; simpl in G; [|by exists None].
    destruct G as (off & G & Es & _). exists (Some (Z.of_nat off)). split_and!; [done| |done].
    by apply option32_slice; [apply Hr|]. }
  assert (Esid : exists so, get_option pkt len DHCP_SERVER_ID = Some so /\
    option32 pkt so = Some (if sid then Some (ntohl (server_nip s)) else None) /\
    bool_decide (is_Some so) = sid).
  { pose proof (get_option_holds pkt opts len DHCP_SERVER_ID _ Hh Hroom
      ltac:(unfold DHCP_SERVER_ID, DHCP_END; lia) Hsid) as G.
    destruct sid; simpl in G; [|by exists None].
    destruct G as (off & G & Es & _). exists (Some (Z.of_nat off)). split_and!; [done| |done].
    by apply option32_slice; [apply bswap32_range|]. }
  destruct Erip as (ro & Er1 & Er2 & Er3), Esid as (so & Es1 & Es2 & Es3).
  cbv [mbind pprog_bind plift pget]. rewrite Ect.
  destruct (Z.eqb_spec ty 0); [unfold DHCPDISCOVER in *; lia|].
  rewrite Es1, Es2.
  replace (match (if sid then Some (ntohl (server_nip s)) else None) with
    Some v => negb (htonl v =? server_nip s) | None => false end) with false.
  2:{ destruct sid; [|done]. unfold htonl, ntohl. rewrite bswap32_involutive by done.
      by rewrite Z.eqb_refl. }
  rewrite Er1, Er2, Es3, Er3. cbn [app].
  destruct (dispatch e pkt ty sid (bool_decide (is_Some rip)) (default 0 rip) s)
    as [[[? ?] ?]|]; [|done]. done.
Qed.

Lemma add_lease_fresh e s exp chaddr nip :
  inv s -> alloc_ok e = true -> 0 < nip -> start_ip s <= nip <= end_ip s ->
  nip_lease_hash (leases s) !! nip = None -> find_lease_by_mac (leases s) chaddr = None ->
  mac_of chaddr <> MAC_BCAST_ADDR -> mac_of chaddr <> MAC_ANY_ADDR ->
  exists p t, add_lease e s exp chaddr nip = (Some p, t).
Proof.
  intros I Ha Hn Hr Hh Hm Hb Hz. unfold add_lease, get_lease.
  destruct (Z.eqb_spec nip 0); [lia|]. destruct (Z.ltb_spec nip (start_ip s)); [lia|].
  destruct (Z.ltb_spec (end_ip s) nip); [lia|].
  unfold bytes_eqb. rewrite !bool_decide_eq_false_2 by done. rewrite Hh, Hm.
  unfold g_try_new0. rewrite Ha. eauto.
Qed.

Lemma dispatch_run e pkt ty sid rip req s u s' outs :
  dispatch e pkt ty sid rip req s = Some (u, s', outs) ->
  (dispatch e pkt ty sid rip req;; mret true) s = Some (true, s', outs).
Proof. intros E. cbv [mbind pprog_bind]. rewrite E. cbv [mret pprog_ret]. by rewrite app_nil_r. Qed.

End Theory.

(** ** Properties *)

Section Properties.
Context `{GLib}.

(** C3: two stations never hold the same address: whenever the server answers
    a message with an address, then no other station has a lease for it that
    has not expired, and afterwards the lease table has the address for the
    station that was answered. *)
Theorem no_double_assignment e broken data s k s' outs o nip mac :
  reachable s -> match data with inl d => Forall is_byte d | inr err => 0 < err end ->
  listener_event e broken data s = Some (k, s', outs) ->
  o ∈ outs -> assigns o nip mac ->
  (forall p l, leased (leases s) p l -> lease_nip l = nip ->
     lease_mac l = mac \/ is_expired_lease e l = true) /\
  (exists p l, leased (leases s') p l /\ lease_nip l = nip /\ lease_mac l = mac).
Proof.
  intros Hr Hd E Ho Ha. apply event_ok_listener in E as (_ & _ & Hall); [|by apply reachable_inv|done].
  by apply (Hall o).
Qed.

(** C30: in every reachable state the list of leases and the hash table hold
    the same leases, all within the configured range, with distinct addresses
    and distinct hardware addresses; and while times fit in 31 bits, every
    message keeps the list ordered by expiry. *)
Theorem lease_table_invariant s :
  reachable s ->
  inv s /\
  forall e broken data k s' outs,
    match data with inl d => Forall is_byte d | inr err => 0 < err end ->
    listener_event e broken data s = Some (k, s', outs) ->
    timely e s -> sorted_ok (leases s) -> sorted_ok (leases s').
Proof.
  intros Hr. pose proof (reachable_inv s Hr) as I. split; [done|].
  intros e broken data k s' outs Hd E. by apply event_ok_listener in E as (_ & Hs & _).
Qed.

(** the choice of an address for a new station returns the lowest free
    address of the range that is neither a network nor a broadcast address;
    when there is none, the address of the lease that expired first, and 0
    only when no lease has expired. *)
Lemma find_free_or_expired_nip_correct e s :
  inv s -> sorted_ok (leases s) -> end_ip s < 2 ^ 32 - 1 ->
  exists r, find_free_or_expired_nip e s = Some r /\
    ((start_ip s <= r <= end_ip s /\ free_nip s r /\
      forall b, start_ip s <= b < r -> ~ free_nip s b) \/
     ((forall b, start_ip s <= b <= end_ip s -> ~ free_nip s b) /\
      ((exists p l, leased (leases s) p l /\ lease_nip l = r /\ expire l < now e /\
          forall q x, leased (leases s) q x -> expire l <= expire x) \/
       (r = 0 /\ forall q x, leased (leases s) q x -> now e <= expire x)))).
Proof.
  intros I [Hexp Hs] He. destruct (inv_ips s I) as [H0 _]. unfold find_free_or_expired_nip.
  assert (exists r, free_nip_loop (range_fuel s) s (start_ip s) = Some r /\
    match r with
    | Some a => start_ip s <= a <= end_ip s /\ free_nip s a /\
        forall b, start_ip s <= b < a -> ~ free_nip s b
    | None => forall b, start_ip s <= b <= end_ip s -> ~ free_nip s b
    end) as (r & -> & Hr).
  { destruct (Z.ltb_spec (end_ip s) (start_ip s)) as [Hlt|Hle].
    - exists None. split; [|intros; lia]. unfold range_fuel. cbn [free_nip_loop].
      by destruct (Z.ltb_spec (end_ip s) (start_ip s)); [|lia].
    - apply free_nip_loop_spec; [done|done|lia|unfold range_fuel; lia]. }
  destruct r as [a|]; [exists a; split; [done|by left]|].
  destruct (last (lease_list (leases s))) as [p|] eqn:Ep.
  - assert (Hp : p ∈ lease_list (leases s)) by by apply last_Some_elem_of.
    destruct (wf_heap _ (inv_wf s I) p Hp) as [l Hl]. rewrite Hl.
    assert (Hmin : forall q x, leased (leases s) q x -> expire l <= expire x).
    { intros q x [Hq Hx]. destruct (cmp_sorted_last _ _ _ q Hs Ep Hq) as [->|Hc].
      - rewrite Hx in Hl. simplify_eq. lia.
      - unfold compare_expire in Hc. rewrite Hx, Hl in Hc.
        pose proof (Hexp p l ltac:(done)). pose proof (Hexp q x ltac:(done)).
        rewrite s32_small in Hc by lia. lia. }
    unfold is_expired_lease. destruct (Z.ltb_spec (expire l) (now e)); simpl.
    + exists (lease_nip l). split; [done|]. right. split; [done|]. left. by exists p, l.
    + exists 0. split; [done|]. right. split; [done|]. right. split; [done|].
      intros q x Hx. specialize (Hmin q x Hx). lia.
  - exists 0. split; [done|]. right. split; [done|]. right. split; [done|].
    intros q x [Hq _]. apply last_None in Ep. rewrite Ep in Hq. by apply elem_of_nil in Hq.
Qed.

(** A DISCOVER of a station without a lease is answered with one OFFER
    that carries the identification of the request, the message type, the
    server identifier, the lease time and the configured options, for the
    lowest free address, which the table then has for the station. *)
Lemma discover_offers e s data pkt opts :
  reachable s -> 0 <= server_nip s < 2 ^ 32 -> 0 < start_ip s -> end_ip s < 2 ^ 32 - 1 ->
  alloc_ok e = true ->
  message data pkt opts -> has_option opts DHCP_MESSAGE_TYPE (Some [DHCPDISCOVER]) ->
  has_option opts DHCP_SERVER_ID None -> has_option opts DHCP_REQUESTED_IP None ->
  find_lease_by_mac (leases s) (chaddr_of pkt) = None ->
  mac_of (chaddr_of pkt) <> MAC_BCAST_ADDR -> mac_of (chaddr_of pkt) <> MAC_ANY_ADDR ->
  (exists a, start_ip s <= a <= end_ip s /\ free_nip s a) ->
  exists nip reply p s', listener_event e false (inl data) s = Some (true, s', [reply_output s reply]) /\
    lease_reply s pkt DHCPOFFER nip reply /\ s' = set_leases (leases s') s /\
    start_ip s <= nip <= end_ip s /\ free_nip s nip /\
    (forall b, start_ip s <= b < nip -> ~ free_nip s b) /\
    leased (leases s') p (mk_lease OFFER_TIME nip (mac_of (chaddr_of pkt))).
Proof.
  intros Hreach Hnip Hpos He Halloc Hm Hty Hsid Hrip Hnone Hb Hz (a & Ha & Hfree).
  pose proof (reachable_inv s Hreach) as I.
  assert (Hl : length pkt = packet_size) by apply (message_holds _ _ _ Hm).
  rewrite (listener_event_message e s data pkt opts DHCPDISCOVER false None);
    [|done|unfold DHCPDISCOVER, DHCPINFORM; lia|done..].
  destruct (free_nip_loop_spec s (range_fuel s) (start_ip s) I He) as (r & Er & Hr);
    [lia|unfold range_fuel; lia|].
  destruct r as [nip|]; [|by destruct (Hr a)]. destruct Hr as (Hrange & Hfn & Hmin).
  assert (Eo : offered_nip e s None 0 = Some nip).
  { unfold offered_nip, find_free_or_expired_nip. by rewrite Er. }
  destruct (add_lease_fresh e s OFFER_TIME (chaddr_of pkt) nip I Halloc ltac:(lia) Hrange)
    as (p & t & Ea); [apply hash_None_iff; [done|apply Hfn]|done..|].
  destruct (send_offer_cases e pkt None 0 s I Hl) as [[F _]|[F|(n & p' & t' & reply & En & _ & Ea' & Hrep & F)]].
  - intros n. apply offered_nip_range; [done|done|lia].
  - congruence.
  - exfalso. revert F. unfold send_offer. cbv [mbind pprog_bind pget plift id].
    destruct (init_packet_holds s pkt DHCPOFFER Hl) as (p0 & E0 & _). rewrite E0, Eo.
    destruct (lease_reply_built s pkt DHCPOFFER nip p0 I Hl ltac:(lia) E0) as (p1 & p2 & E1 & E2 & _ & Hch).
    destruct (Z.eqb_spec nip 0); [lia|]. unfold do_add_lease. rewrite Hch, Ea, E1, E2.
    rewrite send_packet_to_client_eq. done.
  - rewrite Eo in En. simplify_eq. rewrite Ea in Ea'. simplify_eq.
    exists n, reply, p', (set_leases t' s). split; [|split_and!; try done].
    + apply (dispatch_run _ _ _ _ _ _ _ tt). unfold dispatch. cbv [mbind pprog_bind pget id]. rewrite Hnone.
      cbn [Z.eqb DHCPDISCOVER Pos.eqb default]. rewrite F. done.
    + lia.
    + lia.
    + apply add_lease_spec in Ea; [|apply (inv_wf s I)]. destruct Ea as (_ & _ & _ & _ & _ & L).
      simpl. apply L. by left.
Qed.

(** A REQUEST of a station for the address of its lease is acknowledged,
    with the same contents as an offer, and the lease then runs for the whole
    lease time. *)
Lemma request_acks e s data pkt opts sid p l :
  reachable s -> 0 <= server_nip s < 2 ^ 32 ->
  message data pkt opts -> has_option opts DHCP_MESSAGE_TYPE (Some [DHCPREQUEST]) ->
  has_option opts DHCP_SERVER_ID
    (if (sid : bool) then Some (be_bytes32 (ntohl (server_nip s))) else None) ->
  has_option opts DHCP_REQUESTED_IP (Some (be_bytes32 (lease_nip l))) ->
  leased (leases s) p l -> lease_mac l = mac_of (chaddr_of pkt) ->
  exists reply s' outs, listener_event e false (inl data) s =
      Some (true, s', reply_output s reply :: outs) /\
    outs = (if lease_added_cb s then [LeaseAdded (chaddr_of pkt) (htonl (lease_nip l))] else []) /\
    lease_reply s pkt DHCPACK (lease_nip l) reply /\
    leased (leases s') p (mk_lease (now e + lease_seconds s) (lease_nip l) (lease_mac l)).
Proof.
  intros Hreach Hnip Hm Hty Hsid Hrip Hl Hmac. pose proof (reachable_inv s Hreach) as I.
  assert (Hlen : length pkt = packet_size) by apply (message_holds _ _ _ Hm).
  destruct (inv_range s I p l Hl) as (Hr & Hz & _). destruct (inv_ips s I).
  assert (Hr32 : 0 <= lease_nip l < 2 ^ 32) by lia.
  rewrite (listener_event_message e s data pkt opts DHCPREQUEST sid (Some (lease_nip l)));
    [|done|unfold DHCPREQUEST, DHCPDISCOVER, DHCPINFORM; lia|done..|intros; by simplify_eq].
  destruct (send_ACK_eq e pkt (lease_nip l) s I Hlen Hr32) as (reply & Hrep & F).
  destruct (add_lease_renews e s 0 (chaddr_of pkt) p l I Hl Hmac) as [t Ea].
  rewrite Ea in F. cbv zeta in F. cbn [snd] in F.
  assert (Ef : find_lease_by_mac (leases s) (chaddr_of pkt) = Some p).
  { destruct (find_lease_by_mac (leases s) (chaddr_of pkt)) as [q|] eqn:Eq.
    - apply find_lease_by_mac_Some in Eq as (x & [Hq Hx] & Ex). destruct Hl.
      f_equal. apply (wf_mac _ (inv_wf s I) q p x l); congruence.
    - by destruct (find_lease_by_mac_None _ _ _ _ Eq Hl). }
  eexists reply, _, _. split_and!; [|reflexivity|done|].
  - apply (dispatch_run _ _ _ _ _ _ _ tt). unfold dispatch. cbv [mbind pprog_bind pget id].
    rewrite Ef. cbn [Z.eqb DHCPDISCOVER DHCPREQUEST Pos.eqb default].
    rewrite (proj2 (Z.eqb_neq (lease_nip l) 0)) by done.
    rewrite (proj2 (Z.eqb_neq (lease_nip l) 0)) by done.
    rewrite (leased_nip_of _ _ _ Hl), Z.eqb_refl, F. done.
  - apply add_lease_spec in Ea; [|apply (inv_wf s I)]. destruct Ea as (_ & _ & _ & _ & _ & L).
    simpl. apply L. left. unfold new_lease. by rewrite Hmac.
Qed.

(** an offered address is not reserved.  The lease recorded with an OFFER
    expires at second 300 of the epoch, not 300 seconds later, so from then on
    it counts as expired and the address is offered to whoever asks for it. *)
Lemma offer_not_reserved e s chaddr nip p t e' :
  inv s -> add_lease e s OFFER_TIME chaddr nip = (Some p, t) -> OFFER_TIME < now e' ->
  let s' := set_leases t s in
  (exists l, leased (leases s') p l /\ lease_nip l = nip /\ lease_mac l = mac_of chaddr /\
     is_expired_lease e' l = true) /\
  check_requested_nip e' s' nip = true.
Proof.
  intros I Ea Hnow. apply add_lease_spec in Ea; [|apply (inv_wf s I)].
  destruct Ea as (W & Hz & Hr & _ & _ & L). cbv zeta.
  assert (Hl : leased t p (new_lease e s OFFER_TIME nip chaddr)) by (apply L; by left).
  assert (Hexp : is_expired_lease e' (new_lease e s OFFER_TIME nip chaddr) = true).
  { unfold is_expired_lease, new_lease. simpl. by apply Z.ltb_lt. }
  split; [by exists (new_lease e s OFFER_TIME nip chaddr)|].
  unfold check_requested_nip, find_lease_by_nip. simpl.
  destruct (Z.eqb_spec nip 0); [done|]. destruct (Z.ltb_spec nip (start_ip s)); [lia|].
  destruct (Z.ltb_spec (end_ip s) nip); [lia|].
  assert (E : nip_lease_hash t !! nip = Some p) by (apply (wf_hash t W); destruct Hl; eauto).
  rewrite E, (proj2 Hl), Hexp. done.
Qed.

(** a station cannot release its lease.  A RELEASE that names the address
    of the lease of its sender is ignored, whatever the address, unless its
    bytes read the same in both directions: the field of the packet is
    compared in network byte order with the address in host byte order. *)
Lemma release_ignored e s data pkt opts rip p l :
  reachable s -> 0 <= server_nip s < 2 ^ 32 ->
  message data pkt opts -> has_option opts DHCP_MESSAGE_TYPE (Some [DHCPRELEASE]) ->
  has_option opts DHCP_SERVER_ID (Some (be_bytes32 (ntohl (server_nip s)))) ->
  has_option opts DHCP_REQUESTED_IP (be_bytes32 <$> rip) ->
  (forall r, rip = Some r -> 0 <= r < 2 ^ 32) ->
  leased (leases s) p l -> lease_mac l = mac_of (chaddr_of pkt) ->
  field32 off_ciaddr pkt = lease_nip l -> htonl (lease_nip l) <> lease_nip l ->
  listener_event e false (inl data) s = Some (true, s, []).
Proof.
  intros Hreach Hnip Hm Hty Hsid Hrip Hr Hl Hmac Hci Hne. pose proof (reachable_inv s Hreach) as I.
  rewrite (listener_event_message e s data pkt opts DHCPRELEASE true rip);
    [|done|unfold DHCPRELEASE, DHCPDISCOVER, DHCPINFORM; lia|done..].
  apply (dispatch_run _ _ _ _ _ _ _ tt). unfold dispatch. cbv [mbind pprog_bind pget id].
  cbn [Z.eqb DHCPDISCOVER DHCPREQUEST DHCPDECLINE DHCPRELEASE Pos.eqb].
  destruct (find_lease_by_mac (leases s) (chaddr_of pkt)) as [q|] eqn:Eq; [|done].
  assert (q = p) as ->.
  { apply find_lease_by_mac_Some in Eq as (x & [Hq Hx] & Ex). destruct Hl.
    apply (wf_mac _ (inv_wf s I) q p x l); congruence. }
  rewrite (leased_nip_of _ _ _ Hl). unfold raw32. rewrite Hci.
  by rewrite (proj2 (Z.eqb_neq (htonl (lease_nip l)) (lease_nip l))).
Qed.

End Properties.
(** ** Witnesses

    A server on 192.168.1.1 with the range 192.168.1.2 - 192.168.1.20, and one
    station. *)

#[local] Existing Instance glib_reference.

Definition e0 : env := mk_env 1700000000 true.
Definition demo_new : GDHCPServer :=
  match g_dhcp_server_new 1 e0 true true 0x0101a8c0 with inr s => s | inl _ =>
    mk_server 0 false 0 0 0 0 false (mk_table [] ∅ ∅ 1%positive) ∅ false false end.
Definition after {A} (r : option (A * GDHCPServer * list output)) (s : GDHCPServer) : GDHCPServer :=
  match r with Some (_, s, _) => s | None => s end.
Definition demo_range : GDHCPServer :=
  after (g_dhcp_server_set_ip_range "192.168.1.2" "192.168.1.20" demo_new) demo_new.

Definition demo_mac : list Z := [2; 0; 0; 0; 0; 7].

(** A request with the address [ciaddr] and the options [opts]. *)
Definition demo_data (ciaddr opts : list Z) : list Z :=
  [1; 1; 6; 0] ++ [1; 2; 3; 4] ++ repeat 0 4 ++ ciaddr ++ repeat 0 12 ++ demo_mac ++ repeat 0 202 ++
  be_bytes32 DHCP_MAGIC ++ opts ++ repeat 0 20.

Definition demo_packet (data : list Z) : list Z := (dhcp_recv_l3_packet (inl data)).1.

Definition discover_opts : list (Z * list Z) := [(DHCP_MESSAGE_TYPE, [DHCPDISCOVER])].
Definition release_opts : list (Z * list Z) :=
  [(DHCP_MESSAGE_TYPE, [DHCPRELEASE]); (DHCP_SERVER_ID, be_bytes32 0xc0a80101)].

Definition discover_data : list Z := demo_data (repeat 0 4) (encode discover_opts ++ [DHCP_END]).
Definition release_data : list Z :=
  demo_data (be_bytes32 0xc0a80102) (encode release_opts ++ [DHCP_END]).

Definition demo_lease : dhcp_lease := mk_lease OFFER_TIME 0xc0a80102 demo_mac.

(** The server after it answered the DISCOVER. *)
Definition demo_offered : GDHCPServer :=
  set_leases (mk_table [1%positive] {[0xc0a80102 := 1%positive]} {[1%positive := demo_lease]}
    2%positive) demo_range.

Lemma demo_message data opts :
  all_bytes data = true -> (length data <=? packet_size)%nat = true ->
  let pkt := demo_packet data in
  dhcp_recv_l3_packet (inl data) = (pkt, Z.of_nat (length data)) ->
  Forall plain_opt opts -> length pkt = packet_size ->
  pkt = take off_options pkt ++ encode opts ++ DHCP_END ::
    drop (off_options + length (encode opts) + 1) pkt ->
  (Z.of_nat (off_options + length (encode opts)) <? Z.of_nat (length data)) = true ->
  byte_at off_hlen pkt = 6 -> byte_at off_op pkt = BOOTREQUEST ->
  message data pkt opts.
Proof.
  intros Hb Hl pkt Hr Ho Hlen Hp Hroom Hh Hop. split; try done.
  - by apply all_bytes_ok.
  - split_and!; [done|done|]. exists (take off_options pkt), (drop (off_options + length (encode opts) + 1) pkt).
    split; [rewrite length_take, Hlen; done|done].
  - by apply Z.ltb_lt.
Qed.

Ltac plain_opts :=
  repeat constructor; unfold DHCP_END, DHCP_OPTION_OVERLOAD; simpl; (done || lia).

Lemma discover_message : message discover_data (demo_packet discover_data) discover_opts.
Proof. apply demo_message; try (vm_compute; reflexivity). plain_opts. Qed.

Lemma release_message : message release_data (demo_packet release_data) release_opts.
Proof. apply demo_message; try (vm_compute; reflexivity). plain_opts. Qed.

Lemma demo_range_reachable : reachable demo_range.
Proof.
  apply (reach_range "192.168.1.2" "192.168.1.20" demo_new 0 _ []);
    [|reflexivity|vm_compute; reflexivity].
  apply (reach_new 1 e0 true true 0x0101a8c0). reflexivity.
Qed.

(** The station is offered the first address. *)
Lemma demo_discover :
  match listener_event e0 false (inl discover_data) demo_range with
  | Some (_, s', [o]) => s' = demo_offered /\ assigns o 0xc0a80102 demo_mac
  | _ => False
  end.
Proof. vm_compute. split_and!; done. Qed.

Lemma demo_offered_reachable : reachable demo_offered.
Proof.
  pose proof demo_discover as D.
  destruct (listener_event e0 false (inl discover_data) demo_range) as [[[k s'] outs]|] eqn:E;
    [|destruct D].
  destruct outs as [|o [|]]; [destruct D| |destruct D]. destruct D as [-> _].
  apply (reach_event e0 false (inl discover_data) demo_range k demo_offered [o]);
    [exact demo_range_reachable|by apply all_bytes_ok|exact E].
Qed.

Lemma demo_leased : leased (leases demo_offered) 1%positive demo_lease.
Proof. split; [apply list_elem_of_here|reflexivity]. Qed.

Lemma demo_sorted : sorted_ok (leases demo_offered).
Proof.
  split; [|constructor; constructor].
  intros p l [Hp Hl]. apply list_elem_of_singleton in Hp as ->.
  change (({[1%positive := demo_lease]} : gmap ptr dhcp_lease) !! 1%positive = Some l) in Hl.
  apply lookup_singleton_Some in Hl as [_ <-]. unfold demo_lease, OFFER_TIME. simpl. lia.
Qed.

Lemma no_double_assignment_witness :
  exists k s' outs, listener_event e0 false (inl discover_data) demo_range = Some (k, s', outs) /\
    exists p l, leased (leases s') p l /\ lease_nip l = 0xc0a80102 /\ lease_mac l = demo_mac.
Proof.
  pose proof demo_discover as D.
  destruct (listener_event e0 false (inl discover_data) demo_range) as [[[k s'] outs]|] eqn:E;
    [|destruct D].
  exists k, s', outs. split; [reflexivity|].
  destruct outs as [|o [|]]; [destruct D| |destruct D].
  apply (no_double_assignment e0 false (inl discover_data) demo_range k s' [o] o);
    [exact demo_range_reachable|by apply all_bytes_ok|exact E|apply list_elem_of_here|exact (proj2 D)].
Defined.

Lemma lease_table_invariant_witness : inv demo_offered.
Proof. apply (lease_table_invariant demo_offered). exact demo_offered_reachable. Defined.

Lemma find_free_or_expired_nip_correct_witness :
  find_free_or_expired_nip e0 demo_offered = Some 0xc0a80103 /\
  exists r, find_free_or_expired_nip e0 demo_offered = Some r.
Proof.
  split; [vm_compute; reflexivity|].
  destruct (find_free_or_expired_nip_correct e0 demo_offered) as (r & E & _).
  - exact (reachable_inv demo_offered demo_offered_reachable).
  - exact demo_sorted.
  - vm_compute. reflexivity.
  - exists r. exact E.
Defined.

Lemma offer_not_reserved_witness :
  check_requested_nip e0 (set_leases
    (add_lease e0 demo_range OFFER_TIME demo_mac 0xc0a80102).2 demo_range) 0xc0a80102 = true.
Proof.
  apply (offer_not_reserved e0 demo_range demo_mac 0xc0a80102 1%positive
    (add_lease e0 demo_range OFFER_TIME demo_mac 0xc0a80102).2 e0).
  - exact (reachable_inv demo_range demo_range_reachable).
  - vm_compute. reflexivity.
  - reflexivity.
Defined.

Lemma release_ignored_witness :
  listener_event e0 false (inl release_data) demo_offered = Some (true, demo_offered, []).
Proof.
  apply (release_ignored e0 demo_offered release_data (demo_packet release_data) release_opts None
    1%positive demo_lease).
  - exact demo_offered_reachable.
  - by vm_compute.
  - exact release_message.
  - reflexivity.
  - reflexivity.
  - reflexivity.
  - intros r Hr. discriminate Hr.
  - exact demo_leased.
  - by vm_compute.
  - by vm_compute.
  - by vm_compute.
Defined.

End DhcpServer.
