(* ===== verification/Service.v ===== *)
(** * Services: states, ordering and the default service (src/service.c)

    The part of the service core that decides which service is the default:
    the combination of the IPv4 and IPv6 states, the comparison by which the
    list of services is sorted, the default service at its head, the route
    metrics derived from it; and the checks and names of the service
    attributes. *)

From S2P Require Import Prelude Glib.
From stdpp Require Import list.
Open Scope Z_scope.

Module Service.

(** ** Enumerations *)

Inductive connman_service_type :=
  | TYPE_UNKNOWN | TYPE_SYSTEM | TYPE_ETHERNET | TYPE_WIFI | TYPE_BLUETOOTH
  | TYPE_CELLULAR | TYPE_GPS | TYPE_VPN | TYPE_GADGET | TYPE_P2P.

Inductive connman_service_security :=
  | SECURITY_UNKNOWN | SECURITY_NONE | SECURITY_WEP | SECURITY_PSK
  | SECURITY_8021X | SECURITY_WPA | SECURITY_RSN.

Inductive connman_service_state :=
  | STATE_UNKNOWN | STATE_IDLE | STATE_ASSOCIATION | STATE_CONFIGURATION
  | STATE_READY | STATE_ONLINE | STATE_DISCONNECT | STATE_FAILURE.

Inductive connman_service_error :=
  | ERROR_UNKNOWN | ERROR_OUT_OF_RANGE | ERROR_PIN_MISSING | ERROR_DHCP_FAILED
  | ERROR_CONNECT_FAILED | ERROR_LOGIN_FAILED | ERROR_AUTH_FAILED
  | ERROR_INVALID_KEY | ERROR_BLOCKED | ERROR_ONLINE_CHECK_FAILED.

Inductive connman_service_proxy_method :=
  | PROXY_METHOD_UNKNOWN | PROXY_METHOD_DIRECT | PROXY_METHOD_MANUAL | PROXY_METHOD_AUTO.

Inductive connman_service_connect_reason :=
  | REASON_NONE | REASON_AUTO | REASON_USER | REASON_SESSION | REASON_NATIVE.

Inductive connman_ipconfig_type :=
  | IPCONFIG_TYPE_UNKNOWN | IPCONFIG_TYPE_IPV4 | IPCONFIG_TYPE_IPV6 | IPCONFIG_TYPE_ALL.

#[export] Instance service_type_eq_dec : EqDecision connman_service_type.
Proof. solve_decision. Defined.
#[export] Instance service_security_eq_dec : EqDecision connman_service_security.
Proof. solve_decision. Defined.
#[export] Instance service_state_eq_dec : EqDecision connman_service_state.
Proof. solve_decision. Defined.
#[export] Instance service_error_eq_dec : EqDecision connman_service_error.
Proof. solve_decision. Defined.
#[export] Instance service_proxy_method_eq_dec : EqDecision connman_service_proxy_method.
Proof. solve_decision. Defined.
#[export] Instance service_connect_reason_eq_dec : EqDecision connman_service_connect_reason.
Proof. solve_decision. Defined.

(** ** Names; [None] is a NULL string *)

Definition reason2string (reason : connman_service_connect_reason) : string :=
  match reason with
  | REASON_NONE => "none"
  | REASON_USER => "user"
  | REASON_AUTO => "auto"
  | REASON_SESSION => "session"
  | REASON_NATIVE => "native"
  end.

Definition __connman_service_type2string (type : connman_service_type) : option string :=
  match type with
  | TYPE_UNKNOWN => None
  | TYPE_SYSTEM => Some "system"
  | TYPE_ETHERNET => Some "ethernet"
  | TYPE_WIFI => Some "wifi"
  | TYPE_BLUETOOTH => Some "bluetooth"
  | TYPE_CELLULAR => Some "cellular"
  | TYPE_GPS => Some "gps"
  | TYPE_VPN => Some "vpn"
  | TYPE_GADGET => Some "gadget"
  | TYPE_P2P => Some "p2p"
  end.

Definition streq (a b : string) : bool := bool_decide (a = b).

Definition __connman_service_string2type (str : option string) : connman_service_type :=
  match str with
  | None => TYPE_UNKNOWN
  | Some str =>
      if streq str "ethernet" then TYPE_ETHERNET
      else if streq str "gadget" then TYPE_GADGET
      else if streq str "wifi" then TYPE_WIFI
      else if streq str "cellular" then TYPE_CELLULAR
      else if streq str "bluetooth" then TYPE_BLUETOOTH
      else if streq str "vpn" then TYPE_VPN
      else if streq str "gps" then TYPE_GPS
      else if streq str "system" then TYPE_SYSTEM
      else if streq str "p2p" then TYPE_P2P
      else TYPE_UNKNOWN
  end.

Definition __connman_service_string2security (str : option string) : connman_service_security :=
  match str with
  | None => SECURITY_UNKNOWN
  | Some str =>
      if streq str "psk" then SECURITY_PSK
      else if streq str "ieee8021x" || streq str "8021x" then SECURITY_8021X
      else if streq str "none" || streq str "open" then SECURITY_NONE
      else if streq str "wep" then SECURITY_WEP
      else SECURITY_UNKNOWN
  end.

Definition security2string (security : connman_service_security) : option string :=
  match security with
  | SECURITY_UNKNOWN => None
  | SECURITY_NONE => Some "none"
  | SECURITY_WEP => Some "wep"
  | SECURITY_PSK | SECURITY_WPA | SECURITY_RSN => Some "psk"
  | SECURITY_8021X => Some "ieee8021x"
  end.

Definition state2string (state : connman_service_state) : option string :=
  match state with
  | STATE_UNKNOWN => None
  | STATE_IDLE => Some "idle"
  | STATE_ASSOCIATION => Some "association"
  | STATE_CONFIGURATION => Some "configuration"
  | STATE_READY => Some "ready"
  | STATE_ONLINE => Some "online"
  | STATE_DISCONNECT => Some "disconnect"
  | STATE_FAILURE => Some "failure"
  end.

Definition error2string (error : connman_service_error) : option string :=
  match error with
  | ERROR_UNKNOWN => None
  | ERROR_OUT_OF_RANGE => Some "out-of-range"
  | ERROR_PIN_MISSING => Some "pin-missing"
  | ERROR_DHCP_FAILED => Some "dhcp-failed"
  | ERROR_CONNECT_FAILED => Some "connect-failed"
  | ERROR_LOGIN_FAILED => Some "login-failed"
  | ERROR_AUTH_FAILED => Some "auth-failed"
  | ERROR_INVALID_KEY => Some "invalid-key"
  | ERROR_BLOCKED => Some "blocked"
  | ERROR_ONLINE_CHECK_FAILED => Some "online-check-failed"
  end.

Definition proxymethod2string (method : connman_service_proxy_method) : option string :=
  match method with
  | PROXY_METHOD_DIRECT => Some "direct"
  | PROXY_METHOD_MANUAL => Some "manual"
  | PROXY_METHOD_AUTO => Some "auto"
  | PROXY_METHOD_UNKNOWN => None
  end.

Definition string2proxymethod (method : option string) : connman_service_proxy_method :=
  match method with
  | None => PROXY_METHOD_UNKNOWN
  | Some method =>
      if streq method "direct" then PROXY_METHOD_DIRECT
      else if streq method "auto" then PROXY_METHOD_AUTO
      else if streq method "manual" then PROXY_METHOD_MANUAL
      else PROXY_METHOD_UNKNOWN
  end.

(** ** States *)

Definition seq_ (a b : connman_service_state) : bool := bool_decide (a = b).

Definition combine_state (state_a state_b : connman_service_state) : connman_service_state :=
  if seq_ state_a state_b then state_a
  else if seq_ state_a STATE_UNKNOWN then state_b
  else if seq_ state_b STATE_UNKNOWN then state_a
  else if seq_ state_a STATE_IDLE then state_b
  else if seq_ state_b STATE_IDLE then state_a
  else if seq_ state_a STATE_ONLINE then state_a
  else if seq_ state_b STATE_ONLINE then state_b
  else if seq_ state_a STATE_READY then state_a
  else if seq_ state_b STATE_READY then state_b
  else if seq_ state_a STATE_CONFIGURATION then state_a
  else if seq_ state_b STATE_CONFIGURATION then state_b
  else if seq_ state_a STATE_ASSOCIATION then state_a
  else if seq_ state_b STATE_ASSOCIATION then state_b
  else if seq_ state_a STATE_DISCONNECT then state_a
  else if seq_ state_b STATE_DISCONNECT then state_b
  else STATE_FAILURE.

Definition is_connecting (state : connman_service_state) : bool :=
  match state with
  | STATE_ASSOCIATION | STATE_CONFIGURATION => true
  | _ => false
  end.

Definition is_connected (state : connman_service_state) : bool :=
  match state with
  | STATE_READY | STATE_ONLINE => true
  | _ => false
  end.

Definition is_online (state : connman_service_state) : bool := seq_ state STATE_ONLINE.

Definition is_idle (state : connman_service_state) : bool :=
  match state with
  | STATE_IDLE | STATE_DISCONNECT | STATE_FAILURE => true
  | _ => false
  end.

(** ** Services *)

Record connman_service := mk_service {
  identifier : string;
  type : connman_service_type;
  state : connman_service_state;
  state_ipv4 : connman_service_state;
  state_ipv6 : connman_service_state;
  strength : Z;                           (** 8 bits *)
  favorite : bool;
  order : Z;
  name : option string;
  provider : option string;               (** the transport of a VPN, by identifier *)
  index : Z;                              (** of the network interface *)
  online_check_failures_met_threshold : bool;
}.

(** [service_hash], by identifier, and the setting PreferredTechnologies. *)
Record world := mk_world {
  service_hash : gmap string connman_service;
  PreferredTechnologies : list connman_service_type;
}.

Definition __connman_service_is_connected_state (service : connman_service)
    (t : connman_ipconfig_type) : bool :=
  match t with
  | IPCONFIG_TYPE_UNKNOWN => false
  | IPCONFIG_TYPE_IPV4 => is_connected (state_ipv4 service)
  | IPCONFIG_TYPE_IPV6 => is_connected (state_ipv6 service)
  | IPCONFIG_TYPE_ALL => is_connected (state_ipv4 service) && is_connected (state_ipv6 service)
  end.

(** ** Comparison *)

Definition teq (a b : connman_service_type) : bool := bool_decide (a = b).

(** The array of technologies ends at the first 0. *)
Fixpoint preferred_loop (tech_array : list connman_service_type) (a b : connman_service_type) : Z :=
  match tech_array with
  | [] => 0
  | t :: tech_array =>
      if teq t TYPE_UNKNOWN then 0
      else if teq t a then -1
      else if teq t b then 1
      else preferred_loop tech_array a b
  end.

Definition service_compare_preferred (w : world) (service_a service_b : connman_service) : Z :=
  if teq (type service_a) (type service_b) then 0
  else preferred_loop (PreferredTechnologies w) (type service_a) (type service_b).

(** [strcmp] on the characters as unsigned bytes. *)
Fixpoint strcmp (a b : string) : Z :=
  match a, b with
  | EmptyString, EmptyString => 0
  | EmptyString, String _ _ => -1
  | String _ _, EmptyString => 1
  | String x a, String y b =>
      let x := Z.of_nat (Ascii.nat_of_ascii x) in
      let y := Z.of_nat (Ascii.nat_of_ascii y) in
      if x <? y then -1 else if y <? x then 1 else strcmp a b
  end.

(** [g_strcmp0]: a NULL string sorts first. *)
Definition g_strcmp0 (a b : option string) : Z :=
  match a, b with
  | None, None => 0
  | None, Some _ => -1
  | Some _, None => 1
  | Some a, Some b => strcmp a b
  end.

(** The order of the types that are not preferred. *)
Definition type_compare (a b : connman_service_type) : Z :=
  if teq a TYPE_ETHERNET then -1
  else if teq b TYPE_ETHERNET then 1
  else if teq a TYPE_WIFI then -1
  else if teq b TYPE_WIFI then 1
  else if teq a TYPE_CELLULAR then -1
  else if teq b TYPE_CELLULAR then 1
  else if teq a TYPE_BLUETOOTH then -1
  else if teq b TYPE_BLUETOOTH then 1
  else if teq a TYPE_VPN then -1
  else if teq b TYPE_VPN then 1
  else if teq a TYPE_GADGET then -1
  else if teq b TYPE_GADGET then 1
  else 0.

(** [x ? x : y] of C on the result of a comparison. *)
Definition or_else (x y : Z) : Z := if x =? 0 then y else x.

(** The part of [service_compare] after the services that are both connected
    have been compared. *)
Definition compare_unconnected (w : world) (a b : connman_service) : Z :=
  let a_connected := is_connected (state a) in
  let b_connected := is_connected (state b) in
  let by_state :=
    if seq_ (state a) (state b) then 0
    else if a_connected && b_connected && is_online (state a) then -1
    else if a_connected && b_connected && is_online (state b) then 1
    else if a_connected then -1
    else if b_connected then 1
    else if is_connecting (state a) then -1
    else if is_connecting (state b) then 1
    else 0 in
  or_else by_state
    (if favorite a && negb (favorite b) then -1
     else if negb (favorite a) && favorite b then 1
     else
       or_else
         (if teq (type a) (type b) then 0
          else or_else (service_compare_preferred w a b) (type_compare (type a) (type b)))
         (or_else (strength b - strength a) (g_strcmp0 (name a) (name b)))).

Definition service_compare_vpn_with (compare : connman_service -> connman_service -> option Z)
    (w : world) (a b : connman_service) : option Z :=
  match provider a, provider b with
  | Some ident, _ =>
      match service_hash w !! ident with
      | None => Some 0
      | Some transport => compare transport b
      end
  | None, Some ident =>
      match service_hash w !! ident with
      | None => Some 0
      | Some transport => compare a transport
      end
  | None, None => Some 0
  end.

(** [None] when the transports of VPNs lead through more than [fuel] VPNs. *)
Fixpoint service_compare (fuel : nat) (w : world) (a b : connman_service) : option Z :=
  match fuel with
  | O => None
  | S fuel =>
      if is_connected (state a) && is_connected (state b) then
        if negb (online_check_failures_met_threshold a) && online_check_failures_met_threshold b
        then Some (-1)
        else if online_check_failures_met_threshold a &&
                negb (online_check_failures_met_threshold b)
        then Some 1
        else
          vpn ← (if (teq (type a) TYPE_VPN || teq (type b) TYPE_VPN) &&
                    negb (teq (type b) (type a))
                 then service_compare_vpn_with (service_compare fuel w) w a b
                 else Some 0);
          if negb (vpn =? 0) then Some vpn
          else if order b <? order a then Some (-1)
          else if order a <? order b then Some 1
          else
            Some (or_else (service_compare_preferred w a b) (compare_unconnected w a b))
      else Some (compare_unconnected w a b)
  end.

Definition service_compare_vpn (fuel : nat) (w : world) (a b : connman_service) : option Z :=
  service_compare_vpn_with (service_compare fuel w) w a b.

(** ** Sorting *)

(** The comparison handed to the sort. *)
Definition service_cmp (fuel : nat) (w : world) (a b : connman_service) : Z :=
  default 0 (service_compare fuel w a b).

(** The list and whether a change was announced. *)
Definition service_list_sort `{GLib} (fuel : nat) (w : world) (service_list : list connman_service) :
    list connman_service * bool :=
  match service_list with
  | _ :: _ :: _ => (g_list_sort (service_cmp fuel w) service_list, true)
  | _ => (service_list, false)
  end.

(** ** The default service *)

(** The service at the head of the list, if it is connected. *)
Definition connman_service_get_default (service_list : list connman_service) :
    option connman_service :=
  match service_list with
  | [] => None
  | service :: _ => if is_connected (state service) then Some service else None
  end.

(** Services are compared by address; here by their unique identifier. *)
Definition connman_service_is_default (service_list : list connman_service)
    (service : connman_service) : bool :=
  match connman_service_get_default service_list with
  | Some d => streq (identifier d) (identifier service)
  | None => false
  end.

Definition service_get_count (service_list : list connman_service) : Z :=
  Z.of_nat (length service_list).

(** ** Route metrics *)

Definition metric_base : Z := 2 ^ 32 - 1.
Definition metric_ceiling : Z := 1 .<< 20.
Definition metric_index_step : Z := 1 .<< 10.

(** The error or the metric; the product and the difference are computed in
    32 bits. *)
Definition __connman_service_get_route_metric (service_list : list connman_service)
    (service : connman_service) : Z + Z :=
  if index service <? 0 then inl (- ENXIO)
  else if (service_get_count service_list <=? 1) || connman_service_is_default service_list service
  then inr 0
  else inr (Z.max metric_ceiling
              (u32 (metric_base - u32 (index service * metric_index_step)))).

(** ** Passphrases *)

Definition EOPNOTSUPP : Z := 95.
Definition ENOKEY : Z := 126.

Definition isxdigit (c : Ascii.ascii) : bool :=
  let n := Ascii.nat_of_ascii c in
  ((48 <=? n) && (n <=? 57) || (65 <=? n) && (n <=? 70) || (97 <=? n) && (n <=? 102))%nat.

Definition all_xdigits (s : string) : bool := forallb isxdigit (String.list_ascii_of_string s).

Definition __connman_service_check_passphrase (security : connman_service_security)
    (passphrase : option string) : Z :=
  match passphrase with
  | None => 0
  | Some passphrase =>
      let length := String.length passphrase in
      match security with
      | SECURITY_UNKNOWN | SECURITY_NONE | SECURITY_WPA | SECURITY_RSN => - EOPNOTSUPP
      | SECURITY_PSK =>
          if (length =? 64)%nat then if all_xdigits passphrase then 0 else - ENOKEY
          else if ((length <? 8) || (63 <? length))%nat then - ENOKEY
          else 0
      | SECURITY_WEP =>
          if ((length =? 10) || (length =? 26))%nat then
            if all_xdigits passphrase then 0 else - ENOKEY
          else if (negb (length =? 5) && negb (length =? 13))%nat then - ENOKEY
          else 0
      | SECURITY_8021X => 0
      end
  end.

(** ** Backing off *)

Fixpoint fibonacci_loop (n : nat) (first second : Z) : Z :=
  match n with
  | O => first
  | S n => fibonacci_loop n second (u32 (second + first))
  end.

(** The loop runs for i = 0 .. interval; the value returned is that of [first]
    at the start of the last round. *)
Definition online_check_timeout_compute_fibonacci (interval : Z) : Z :=
  fibonacci_loop (Z.to_nat interval) 0 1.

Definition online_check_timeout_compute_geometric (interval : Z) : Z :=
  u32 (interval * interval).

(** ** Ranks

    [combine_state] takes the further advanced of two states. *)

Definition state_rank (s : connman_service_state) : Z :=
  match s with
  | STATE_UNKNOWN => 0
  | STATE_IDLE => 1
  | STATE_FAILURE => 2
  | STATE_DISCONNECT => 3
  | STATE_ASSOCIATION => 4
  | STATE_CONFIGURATION => 5
  | STATE_READY => 6
  | STATE_ONLINE => 7
  end.

(** What the place of a service in the list depends on, most important first. *)
Definition state_class (s : connman_service_state) : Z :=
  if is_connected s then 0 else if is_connecting s then 1 else 2.

Fixpoint preference (techs : list connman_service_type) (t : connman_service_type) : Z :=
  match techs with
  | [] => 0
  | x :: techs => if teq x TYPE_UNKNOWN then 0 else if teq x t then 0 else 1 + preference techs t
  end.

Definition type_rank (t : connman_service_type) : Z :=
  match t with
  | TYPE_ETHERNET => 0
  | TYPE_WIFI => 1
  | TYPE_CELLULAR => 2
  | TYPE_BLUETOOTH => 3
  | TYPE_VPN => 4
  | TYPE_GADGET => 5
  | _ => 6
  end.

Definition b2z (b : bool) : Z := if b then 1 else 0.

Definition service_key (w : world) (s : connman_service) : list Z :=
  let p := preference (PreferredTechnologies w) (type s) in
  (if is_connected (state s)
   then [0; b2z (online_check_failures_met_threshold s); - order s; p; b2z (negb (is_online (state s)))]
   else [state_class (state s); 0; 0; 0; 0]) ++
  [b2z (negb (favorite s)); p; type_rank (type s); - strength s].

Fixpoint lexcmp (k1 k2 : list Z) : Z :=
  match k1, k2 with
  | x :: k1, y :: k2 => if x <? y then -1 else if y <? x then 1 else lexcmp k1 k2
  | _, _ => 0
  end.

Definition key_compare (w : world) (a b : connman_service) : Z :=
  or_else (lexcmp (service_key w a) (service_key w b)) (g_strcmp0 (name a) (name b)).

(** Services for which the comparison is a function of the key: not a VPN, and
    if both are connecting, in the same phase. *)
Definition same_phase (a b : connman_service) : Prop :=
  is_connecting (state a) = true -> is_connecting (state b) = true -> state a = state b.

Definition sign (z : Z) : Z := Z.sgn z.

Lemma preferred_loop_rank techs a b :
  a <> b ->
  sign (preferred_loop techs a b) = sign (preference techs a - preference techs b).
Proof.
  intros Hne. induction techs as [|t techs IH]; simpl; [done|]. unfold teq.
  destruct (bool_decide_reflect (t = TYPE_UNKNOWN)); [done|].
  assert (Hp : forall x, 0 <= preference techs x).
  { intros x. clear. induction techs as [|t techs IH]; simpl; [lia|]. repeat break_match; lia. }
  destruct (bool_decide_reflect (t = a)) as [->|].
  - rewrite bool_decide_eq_false_2 by done. specialize (Hp b). unfold sign. lia.
  - destruct (bool_decide_reflect (t = b)) as [->|]; [specialize (Hp a); unfold sign; lia|].
    rewrite IH. f_equal. lia.
Qed.

Lemma preferred_rank w a b :
  sign (service_compare_preferred w a b) =
  sign (preference (PreferredTechnologies w) (type a) - preference (PreferredTechnologies w) (type b)).
Proof.
  unfold service_compare_preferred, teq. case_bool_decide as E; [by rewrite E, Z.sub_diag|].
  by apply preferred_loop_rank.
Qed.

Lemma type_compare_rank a b :
  a <> b -> sign (type_compare a b) = sign (type_rank a - type_rank b).
Proof. intros Hne. destruct a, b; done. Qed.

Lemma sign_or_else x y : sign (or_else x y) = or_else (sign x) (sign y).
Proof.
  unfold or_else, sign. destruct (Z.eqb_spec x 0) as [->|]; [done|].
  destruct (Z.eqb_spec (Z.sgn x) 0); [lia|done].
Qed.

Lemma or_else_assoc x y z : or_else (or_else x y) z = or_else x (or_else y z).
Proof. unfold or_else. destruct (Z.eqb_spec x 0); [done|]. by destruct (Z.eqb_spec x 0). Qed.

Lemma or_else_0 x : or_else 0 x = x.
Proof. done. Qed.

Lemma or_else_skip x y : or_else x (or_else x y) = or_else x y.
Proof. unfold or_else. by destruct (Z.eqb_spec x 0). Qed.

Lemma or_else_nonzero x y : x <> 0 -> or_else x y = x.
Proof. intros. unfold or_else. by destruct (Z.eqb_spec x 0). Qed.

Lemma lexcmp_cons x k1 y k2 :
  lexcmp (x :: k1) (y :: k2) = or_else (sign (x - y)) (lexcmp k1 k2).
Proof.
  simpl. unfold or_else, sign.
  destruct (Z.ltb_spec x y), (Z.ltb_spec y x), (Z.eqb_spec (Z.sgn (x - y)) 0); lia || done.
Qed.

(** The last criteria: favorite, type, strength and name. *)
Definition tail_compare (w : world) (a b : connman_service) : Z :=
  or_else (sign (b2z (negb (favorite a)) - b2z (negb (favorite b))))
    (or_else (sign (preference (PreferredTechnologies w) (type a) -
                    preference (PreferredTechnologies w) (type b)))
      (or_else (sign (type_rank (type a) - type_rank (type b)))
        (or_else (sign (- strength a - - strength b)) (sign (g_strcmp0 (name a) (name b)))))).

Definition by_state (a b : connman_service) : Z :=
  let a_connected := is_connected (state a) in
  let b_connected := is_connected (state b) in
  if seq_ (state a) (state b) then 0
  else if a_connected && b_connected && is_online (state a) then -1
  else if a_connected && b_connected && is_online (state b) then 1
  else if a_connected then -1
  else if b_connected then 1
  else if is_connecting (state a) then -1
  else if is_connecting (state b) then 1
  else 0.

Lemma compare_unconnected_sign w a b :
  sign (compare_unconnected w a b) = or_else (sign (by_state a b)) (tail_compare w a b).
Proof.
  unfold compare_unconnected. fold (by_state a b). cbv zeta. rewrite sign_or_else. f_equal.
  unfold tail_compare.
  assert (Et : sign (or_else
      (if teq (type a) (type b) then 0
       else or_else (service_compare_preferred w a b) (type_compare (type a) (type b)))
      (or_else (strength b - strength a) (g_strcmp0 (name a) (name b)))) =
    or_else (sign (preference (PreferredTechnologies w) (type a) -
                   preference (PreferredTechnologies w) (type b)))
      (or_else (sign (type_rank (type a) - type_rank (type b)))
        (or_else (sign (- strength a - - strength b)) (sign (g_strcmp0 (name a) (name b)))))).
  { replace (- strength a - - strength b) with (strength b - strength a) by lia.
    rewrite !sign_or_else.
    rewrite <- (or_else_assoc (sign (preference (PreferredTechnologies w) (type a) - _))).
    f_equal. unfold teq. case_bool_decide as E.
    - by rewrite E, !Z.sub_diag.
    - by rewrite sign_or_else, preferred_rank, type_compare_rank. }
  destruct (favorite a), (favorite b); simpl; rewrite ?or_else_0; done || exact Et.
Qed.

Lemma lexcmp_app k1 k1' k2 k2' :
  length k1 = length k2 -> lexcmp (k1 ++ k1') (k2 ++ k2') = or_else (lexcmp k1 k2) (lexcmp k1' k2').
Proof.
  revert k2. induction k1 as [|x k1 IH]; intros [|y k2] Hl; simplify_eq/=; [done|].
  change (lexcmp (x :: (k1 ++ k1')) (y :: (k2 ++ k2')) =
    or_else (lexcmp (x :: k1) (y :: k2)) (lexcmp k1' k2')).
  by rewrite !lexcmp_cons, IH, or_else_assoc.
Qed.

(** The part of the key that depends on the state. *)
Definition head_key (w : world) (s : connman_service) : list Z :=
  if is_connected (state s)
  then [0; b2z (online_check_failures_met_threshold s); - order s;
        preference (PreferredTechnologies w) (type s); b2z (negb (is_online (state s)))]
  else [state_class (state s); 0; 0; 0; 0].

Lemma length_head_key w s : length (head_key w s) = 5%nat.
Proof. unfold head_key. by destruct (is_connected (state s)). Qed.

Lemma key_compare_sign w a b :
  sign (key_compare w a b) = or_else (lexcmp (head_key w a) (head_key w b)) (tail_compare w a b).
Proof.
  unfold key_compare, service_key. fold (head_key w a) (head_key w b).
  rewrite lexcmp_app by by rewrite !length_head_key.
  rewrite sign_or_else, !sign_or_else, !or_else_assoc. unfold tail_compare.
  rewrite !lexcmp_cons. simpl (lexcmp [] []).
  assert (Hs : forall k1 k2, sign (lexcmp k1 k2) = lexcmp k1 k2).
  { induction k1 as [|x k1 IH]; intros [|y k2]; try done. rewrite lexcmp_cons, sign_or_else, IH.
    unfold sign. f_equal. lia. }
  rewrite Hs. f_equal. rewrite !sign_or_else. unfold sign.
  rewrite !Z.sgn_sgn, !or_else_assoc. done.
Qed.

(** The comparison of two services of different technologies than VPN is the
    lexicographic comparison of their keys. *)
Lemma service_compare_key fuel w a b :
  type a <> TYPE_VPN -> type b <> TYPE_VPN -> same_phase a b ->
  exists r, service_compare (S fuel) w a b = Some r /\ sign r = sign (key_compare w a b).
Proof.
  intros Ha Hb Hph. rewrite key_compare_sign. cbn [service_compare].
  destruct (is_connected (state a) && is_connected (state b)) eqn:Ec.
  - apply andb_true_iff in Ec as [Eca Ecb]. unfold head_key. rewrite Eca, Ecb, !lexcmp_cons.
    change (sign (0 - 0)) with 0. rewrite or_else_0. simpl (lexcmp [] []).
    unfold teq. rewrite (bool_decide_eq_false_2 (type a = TYPE_VPN)) by done.
    rewrite (bool_decide_eq_false_2 (type b = TYPE_VPN)) by done. cbn [orb andb mbind option_bind negb Z.eqb].
    assert (Hst : sign (by_state a b) =
      sign (b2z (negb (is_online (state a))) - b2z (negb (is_online (state b))))).
    { unfold by_state. by destruct (state a), (state b). }
    assert (Hrest : sign (or_else (service_compare_preferred w a b) (compare_unconnected w a b)) =
      or_else (sign (preference (PreferredTechnologies w) (type a) -
                     preference (PreferredTechnologies w) (type b)))
        (or_else (sign (b2z (negb (is_online (state a))) - b2z (negb (is_online (state b)))))
           (tail_compare w a b))).
    { rewrite sign_or_else, preferred_rank, compare_unconnected_sign, Hst. done. }
    destruct (online_check_failures_met_threshold a), (online_check_failures_met_threshold b);
      cbn [negb andb b2z]; try (by eexists; split);
      (destruct (Z.ltb_spec (order b) (order a));
        [eexists; split; [done|]; rewrite !or_else_assoc, or_else_0;
         rewrite (or_else_nonzero (sign (- order a - - order b))); unfold sign; lia|]);
      (destruct (Z.ltb_spec (order a) (order b));
        [eexists; split; [done|]; rewrite !or_else_assoc, or_else_0;
         rewrite (or_else_nonzero (sign (- order a - - order b))); unfold sign; lia|]);
      eexists; (split; [done|]); rewrite Hrest;
      replace (- order a - - order b) with 0 by lia; change (sign 0) with 0;
      change (sign (0 - 0)) with 0; change (sign (1 - 1)) with 0;
      rewrite !or_else_0, !or_else_assoc; by rewrite or_else_0.
  - eexists. split; [done|]. rewrite compare_unconnected_sign. f_equal.
    unfold head_key, by_state, same_phase, state_class in *.
    destruct (state a), (state b); simpl in *; try done;
      exfalso; by specialize (Hph eq_refl eq_refl).
Qed.

(** ** The comparison as an order *)

Lemma strcmp_swap a : forall b, strcmp b a = - strcmp a b.
Proof.
  induction a as [|x a IH]; intros [|y b]; simpl; try done.
  rewrite IH. set (m := Z.of_nat (Ascii.nat_of_ascii x)). set (n := Z.of_nat (Ascii.nat_of_ascii y)).
  destruct (Z.ltb_spec m n), (Z.ltb_spec n m); lia.
Qed.

Lemma strcmp_trans a : forall b c, strcmp a b <= 0 -> strcmp b c <= 0 -> strcmp a c <= 0.
Proof.
  induction a as [|x a IH]; intros [|y b] [|z c]; simpl; try lia.
  repeat match goal with |- context [?m <? ?n] => destruct (Z.ltb_spec m n) end; try lia.
  apply IH.
Qed.

Lemma g_strcmp0_swap a b : g_strcmp0 b a = - g_strcmp0 a b.
Proof. destruct a, b; try done. apply strcmp_swap. Qed.

Lemma g_strcmp0_trans a b c : g_strcmp0 a b <= 0 -> g_strcmp0 b c <= 0 -> g_strcmp0 a c <= 0.
Proof. destruct a, b, c; simpl; try lia. apply strcmp_trans. Qed.

Lemma lexcmp_swap a : forall b, lexcmp b a = - lexcmp a b.
Proof.
  induction a as [|x a IH]; intros [|y b]; simpl; try done.
  rewrite IH. destruct (Z.ltb_spec x y), (Z.ltb_spec y x); lia.
Qed.

Lemma lexcmp_eq a : forall b, length a = length b -> lexcmp a b = 0 -> a = b.
Proof.
  induction a as [|x a IH]; intros [|y b] Hl; simplify_eq/=; [done|].
  destruct (Z.ltb_spec x y), (Z.ltb_spec y x); try lia. intros E. f_equal; [lia|by apply IH].
Qed.

Lemma lexcmp_trans a : forall b c,
  length a = length b -> length b = length c ->
  lexcmp a b <= 0 -> lexcmp b c <= 0 -> lexcmp a c <= 0.
Proof.
  induction a as [|x a IH]; intros [|y b] [|z c] H1 H2; simplify_eq/=; try lia.
  repeat match goal with |- context [?m <? ?n] => destruct (Z.ltb_spec m n) end; try lia.
  apply IH; lia.
Qed.

Lemma length_service_key w s : length (service_key w s) = 9%nat.
Proof.
  unfold service_key. fold (head_key w s). by rewrite length_app, length_head_key.
Qed.

Lemma key_compare_total w a b : key_compare w a b <= 0 \/ key_compare w b a <= 0.
Proof.
  unfold key_compare, or_else. rewrite (lexcmp_swap (service_key w a)), (g_strcmp0_swap (name a)).
  repeat match goal with |- context [?m =? ?n] => destruct (Z.eqb_spec m n) end; lia.
Qed.

Lemma key_compare_trans w a b c :
  key_compare w a b <= 0 -> key_compare w b c <= 0 -> key_compare w a c <= 0.
Proof.
  unfold key_compare, or_else.
  assert (Hl : forall s, length (service_key w s) = 9%nat) by apply length_service_key.
  pose proof (lexcmp_trans (service_key w a) (service_key w b) (service_key w c)
    ltac:(by rewrite !Hl) ltac:(by rewrite !Hl)) as Ht.
  pose proof (g_strcmp0_trans (name a) (name b) (name c)) as Hn.
  destruct (Z.eqb_spec (lexcmp (service_key w a) (service_key w b)) 0) as [E1|E1].
  - apply lexcmp_eq in E1; [|by rewrite !Hl]. rewrite E1.
    destruct (Z.eqb_spec (lexcmp (service_key w b) (service_key w c)) 0); [done|lia].
  - destruct (Z.eqb_spec (lexcmp (service_key w b) (service_key w c)) 0) as [E2|E2].
    + apply lexcmp_eq in E2; [|by rewrite !Hl]. rewrite <- E2.
      destruct (Z.eqb_spec (lexcmp (service_key w a) (service_key w b)) 0); [done|lia].
    + intros H1 H2. specialize (Ht H1 H2).
      destruct (Z.eqb_spec (lexcmp (service_key w a) (service_key w c)) 0) as [E3|]; [|lia].
      apply lexcmp_eq in E3; [|by rewrite !Hl]. rewrite <- E3 in H2.
      rewrite lexcmp_swap in H2. lia.
Qed.

(** A list that can be ordered: no VPN, and one phase of connecting at a time. *)
Definition orderable (l : list connman_service) : Prop :=
  (forall s, s ∈ l -> type s <> TYPE_VPN) /\
  (forall a b, a ∈ l -> b ∈ l -> same_phase a b).

Lemma service_cmp_key fuel w l a b :
  orderable l -> a ∈ l -> b ∈ l ->
  service_cmp (S fuel) w a b <= 0 <-> key_compare w a b <= 0.
Proof.
  intros [Hv Hp] Ha Hb. unfold service_cmp.
  destruct (service_compare_key fuel w a b (Hv a Ha) (Hv b Hb) (Hp a b Ha Hb)) as (r & -> & E).
  unfold sign in E. simpl. lia.
Qed.

Lemma service_cmp_compares fuel w l : orderable l -> compares (service_cmp (S fuel) w) l.
Proof.
  intros Ho. split.
  - intros a b Ha Hb. rewrite !(service_cmp_key fuel w l) by done. apply key_compare_total.
  - intros a b c Ha Hb Hc. rewrite !(service_cmp_key fuel w l) by done. apply key_compare_trans.
Qed.

(** ** Sorting and the default service *)

Section Sorting.
Context `{GLib}.

Lemma service_list_sort_perm fuel w l : (service_list_sort fuel w l).1 ≡ₚ l.
Proof. unfold service_list_sort. repeat break_match; simpl; try done. apply g_list_sort_perm. Qed.

Lemma service_list_sort_sorted fuel w l :
  orderable l -> cmp_sorted (service_cmp (S fuel) w) (service_list_sort (S fuel) w l).1.
Proof.
  intros Ho. unfold service_list_sort. destruct l as [|a [|b l]]; simpl.
  - constructor.
  - constructor; constructor.
  - apply g_list_sort_sorted. by apply service_cmp_compares.
Qed.

(** The head of the sorted list comes before every other service. *)
Lemma sorted_head_least fuel w l d rest s :
  orderable l -> (service_list_sort (S fuel) w l).1 = d :: rest -> s ∈ l ->
  s = d \/ key_compare w d s <= 0.
Proof.
  intros Ho E Hs. pose proof (service_list_sort_sorted fuel w l Ho) as Hsort.
  pose proof (service_list_sort_perm (S fuel) w l) as Hp. rewrite E in Hsort, Hp.
  rewrite <- Hp in Hs. apply elem_of_cons in Hs as [->|Hs]; [by left|right].
  inversion Hsort as [|? ? _ Hall]; subst. rewrite list.Forall_forall in Hall.
  apply (service_cmp_key fuel w l); [done|rewrite <- Hp; apply list_elem_of_here
    |rewrite <- Hp; by apply list_elem_of_further|by apply Hall].
Qed.

(** C5: with the list sorted, the default service is a connected one whenever
    there is one, and the best of them: one that did not fail its online
    checks goes before one that did, then the higher order decides, then the
    preferred technology.  This holds for lists without VPN services and without
    two services in different phases of connecting ([orderable]); with those the
    comparison is not an order ([service_compare_inconsistent]). *)
Theorem default_service_is_best fuel w l :
  orderable l ->
  match connman_service_get_default (service_list_sort (S fuel) w l).1 with
  | None => forall s, s ∈ l -> is_connected (state s) = false
  | Some d => d ∈ l /\ is_connected (state d) = true /\
      forall s, s ∈ l -> is_connected (state s) = true ->
        let f x := b2z (online_check_failures_met_threshold x) in
        let p x := preference (PreferredTechnologies w) (type x) in
        f d < f s \/ f d = f s /\ (order s < order d \/ order s = order d /\ p d <= p s)
  end.
Proof.
  intros Ho. pose proof (service_list_sort_perm (S fuel) w l) as Hp.
  destruct (service_list_sort (S fuel) w l).1 as [|d rest] eqn:E; simpl.
  - intros s Hs. rewrite <- Hp in Hs. by apply elem_of_nil in Hs.
  - assert (Hd : d ∈ l) by (rewrite <- Hp; apply list_elem_of_here).
    destruct (is_connected (state d)) eqn:Ed.
    + split_and!; try done. intros s Hs Hc. cbv zeta beta.
      destruct (sorted_head_least fuel w l d rest s Ho E Hs) as [->|Hk]; [lia|].
      unfold key_compare, service_key in Hk. rewrite Ed, Hc in Hk. cbn [app lexcmp] in Hk.
      unfold or_else in Hk.
      repeat match type of Hk with context [?m <? ?n] => destruct (Z.ltb_spec m n); try lia end;
        simpl in Hk; lia.
    + intros s Hs. destruct (is_connected (state s)) eqn:Ec; [|done].
      destruct (sorted_head_least fuel w l d rest s Ho E Hs) as [->|Hk]; [congruence|].
      exfalso. unfold key_compare, service_key in Hk. rewrite Ed, Ec in Hk. cbn [app lexcmp] in Hk.
      unfold state_class in Hk. rewrite Ed in Hk.
      destruct (is_connecting (state d)); simpl in Hk; unfold or_else in Hk; simpl in Hk; lia.
Qed.
End Sorting.

(** the state of a service is the further advanced one of its IPv4 and
    IPv6 states: combining is the maximum of a linear order, so it does not
    depend on the order of the arguments, and a service is connected, or
    online, exactly when one of its addresses families is. *)
Lemma combine_state_max a b :
  state_rank (combine_state a b) = Z.max (state_rank a) (state_rank b) /\
  (combine_state a b = a \/ combine_state a b = b) /\
  combine_state a b = combine_state b a /\
  is_connected (combine_state a b) = is_connected a || is_connected b /\
  is_online (combine_state a b) = is_online a || is_online b.
Proof. destruct a, b; split_and!; first [reflexivity | by left | by right]. Qed.

(** on services that are no VPNs and not in different phases of connecting
    the comparison is a consistent total preorder, so sorting with it puts the
    list in order whatever it was before. *)
Lemma service_compare_consistent fuel w l :
  orderable l -> compares (service_cmp (S fuel) w) l.
Proof. apply service_cmp_compares. Qed.

(** The comparison is not antisymmetric: of two services of which one is
    in association and the other in configuration, each sorts before the
    other. *)
Lemma service_compare_inconsistent fuel w a b :
  state a = STATE_ASSOCIATION -> state b = STATE_CONFIGURATION ->
  service_compare (S fuel) w a b = Some (-1) /\ service_compare (S fuel) w b a = Some (-1).
Proof.
  intros Ha Hb. cbn [service_compare]. unfold compare_unconnected. rewrite Ha, Hb. done.
Qed.

(** ** Metrics *)

(** The interface indexes for which the metric is above the ceiling. *)
Definition max_metric_index : Z := 4193279.

(** the route metric of the default service is 0; those of the others are
    at least 2^20 and distinct for distinct interfaces with an index of at most
    4193279, so no two services get the same metric; a service without an
    interface has none. *)
Lemma route_metric_unique l a b ma mb :
  __connman_service_get_route_metric l a = inr ma ->
  __connman_service_get_route_metric l b = inr mb ->
  1 < service_get_count l ->
  connman_service_is_default l b = false ->
  0 <= index a <= max_metric_index -> 0 <= index b <= max_metric_index ->
  index a <> index b ->
  metric_ceiling <= mb < 2 ^ 32 /\
  (connman_service_is_default l a = true -> ma = 0) /\
  ma <> mb.
Proof.
  unfold __connman_service_get_route_metric, max_metric_index, metric_base.
  change metric_ceiling with 1048576. change metric_index_step with 1024.
  intros Ea Eb Hc Hb Ha Hi Hne.
  destruct (Z.ltb_spec (index a) 0); [lia|]. destruct (Z.ltb_spec (index b) 0); [lia|].
  destruct (Z.leb_spec (service_get_count l) 1); [lia|]. rewrite Hb in Eb. cbn [orb] in *.
  rewrite (u32_small (index b * 1024)), u32_small in Eb by lia. simplify_eq.
  destruct (connman_service_is_default l a); simplify_eq.
  - split_and!; lia.
  - rewrite (u32_small (index a * 1024)), u32_small in * by lia. split_and!; (done || lia).
Qed.

(** ** Names *)

(** The names of the technologies, securities and proxy methods read back:
    a technology other than unknown is recovered from its name, a security up
    to the variants that share the name "psk", a proxy method always. *)
Lemma names_read_back :
  (forall t, t <> TYPE_UNKNOWN ->
     __connman_service_string2type (__connman_service_type2string t) = t) /\
  (forall s, __connman_service_string2security (security2string s) =
     match s with SECURITY_WPA | SECURITY_RSN => SECURITY_PSK | s => s end) /\
  (forall m, string2proxymethod (proxymethod2string m) = m) /\
  (forall t u, __connman_service_type2string t = __connman_service_type2string u -> t = u) /\
  (forall s u, state2string s = state2string u -> s = u).
Proof.
  split_and!.
  - intros t Ht. destruct t; (done || reflexivity).
  - intros s. by destruct s.
  - intros m. by destruct m.
  - intros t u. by destruct t, u.
  - intros s u. by destruct s, u.
Qed.

(** a passphrase is accepted for WPA exactly when it has 8 to 63
    characters or is a raw key of 64 hexadecimal digits, and for WEP exactly
    when it has 5 or 13 characters or 10 or 26 hexadecimal digits. *)
Lemma check_passphrase_spec p :
  (__connman_service_check_passphrase SECURITY_PSK (Some p) = 0 <->
     (8 <= String.length p <= 63)%nat \/ String.length p = 64%nat /\ all_xdigits p = true) /\
  (__connman_service_check_passphrase SECURITY_WEP (Some p) = 0 <->
     String.length p = 5%nat \/ String.length p = 13%nat \/
     (String.length p = 10%nat \/ String.length p = 26%nat) /\ all_xdigits p = true).
Proof.
  unfold __connman_service_check_passphrase. generalize (String.length p) (all_xdigits p).
  intros n x. unfold ENOKEY. split.
  - destruct (Nat.eqb_spec n 64); [destruct x; lia|].
    destruct (Nat.ltb_spec n 8); [simpl; lia|]. destruct (Nat.ltb_spec 63 n); simpl; lia.
  - destruct (Nat.eqb_spec n 10); [destruct x; simpl; lia|].
    destruct (Nat.eqb_spec n 26); [destruct x; simpl; lia|].
    destruct (Nat.eqb_spec n 5); [simpl; lia|]. destruct (Nat.eqb_spec n 13); simpl; lia.
Qed.

(** ** Backing off *)

Fixpoint fib (n : nat) : Z :=
  match n with
  | O => 0
  | S m => match m with O => 1 | S k => fib m + fib k end
  end.

Lemma fib_SS n : fib (S (S n)) = fib (S n) + fib n.
Proof. done. Qed.

#[local] Arguments fib : simpl never.

Lemma fib_nonneg_mono n : 0 <= fib n <= fib (S n).
Proof.
  induction n as [|n IH]; [done|]. rewrite fib_SS. lia.
Qed.

Lemma fib_le n m : (n <= m)%nat -> fib n <= fib m.
Proof. induction 1; [lia|]. pose proof (fib_nonneg_mono m). lia. Qed.

Lemma fib_iter n : Nat.iter n (fun p => (p.2, p.2 + p.1)) (0, 1) = (fib n, fib (S n)).
Proof.
  induction n as [|n IH]; [done|]. rewrite Nat.iter_succ, IH. cbn [fst snd]. by rewrite <- fib_SS.
Qed.

Lemma fib_value n v : (Nat.iter n (fun p => (p.2, p.2 + p.1)) (0, 1)).1 = v -> fib n = v.
Proof. by rewrite fib_iter. Qed.

Lemma fib_47 : fib 47 = 2971215073.
Proof. apply fib_value. vm_compute. reflexivity. Qed.

Lemma fibonacci_loop_fib n : forall k,
  (n + k <= 46)%nat -> fibonacci_loop n (fib k) (fib (S k)) = fib (n + k).
Proof.
  induction n as [|n IH]; intros k Hk; [done|]. cbn [fibonacci_loop].
  pose proof (fib_nonneg_mono k). pose proof (fib_nonneg_mono (S k)).
  assert (H47 : fib (S (S k)) <= fib 47) by (apply fib_le; lia).
  rewrite fib_47 in H47.
  rewrite <- fib_SS, u32_small by lia.
  replace (S n + k)%nat with (n + S k)%nat by lia. apply IH. lia.
Qed.

(** the Fibonacci back-off is the Fibonacci number of the interval, up to
    interval 46 without overflow, never decreasing; the geometric one is the
    square. *)
Lemma online_check_timeouts i :
  0 <= i <= 46 ->
  online_check_timeout_compute_fibonacci i = fib (Z.to_nat i) /\
  (i < 46 -> online_check_timeout_compute_fibonacci i <=
             online_check_timeout_compute_fibonacci (i + 1)) /\
  online_check_timeout_compute_geometric i = i * i.
Proof.
  intros Hi.
  assert (E : forall j, 0 <= j <= 46 -> online_check_timeout_compute_fibonacci j = fib (Z.to_nat j)).
  { intros j Hj. unfold online_check_timeout_compute_fibonacci.
    pose proof (fibonacci_loop_fib (Z.to_nat j) 0 ltac:(lia)) as E. rewrite Nat.add_0_r in E. exact E. }
  split_and!; [by apply E| |].
  - intros Hlt. rewrite !E by lia. apply fib_le. lia.
  - unfold online_check_timeout_compute_geometric. rewrite u32_small; nia.
Qed.

(** ** Witnesses *)

#[local] Existing Instance glib_reference.

Definition demo_service (i : string) (t : connman_service_type) (st : connman_service_state)
    (failed : bool) (ix : Z) : connman_service :=
  mk_service i t st st STATE_IDLE 50 true 0 (Some i) None ix failed.

Definition demo_world : world := mk_world ∅ [TYPE_WIFI].
Definition wifi0 := demo_service "wifi0" TYPE_WIFI STATE_READY false 3.
Definition eth0 := demo_service "eth0" TYPE_ETHERNET STATE_ONLINE true 2.
Definition cell0 := demo_service "cell0" TYPE_CELLULAR STATE_IDLE false 5.
Definition demo_list : list connman_service := [eth0; cell0; wifi0].

Lemma demo_orderable : orderable demo_list.
Proof.
  split.
  - intros s Hs. apply list_elem_of_In in Hs. simpl in Hs.
    destruct Hs as [<-|[<-|[<-|[]]]]; discriminate.
  - intros a b Ha Hb. apply list_elem_of_In in Ha, Hb. simpl in Ha, Hb.
    destruct Ha as [<-|[<-|[<-|[]]]], Hb as [<-|[<-|[<-|[]]]]; done.
Qed.

(** The service that failed its online checks lost the default. *)
Lemma default_service_is_best_witness :
  connman_service_get_default (service_list_sort 1 demo_world demo_list).1 = Some wifi0 /\
  wifi0 ∈ demo_list.
Proof.
  pose proof (default_service_is_best 0 demo_world demo_list demo_orderable) as H.
  split; [vm_compute; reflexivity|].
  assert (E : connman_service_get_default (service_list_sort 1 demo_world demo_list).1 = Some wifi0)
    by (vm_compute; reflexivity).
  rewrite E in H. exact (proj1 H).
Defined.

Lemma service_compare_consistent_witness : compares (service_cmp 1 demo_world) demo_list.
Proof. apply (service_compare_consistent 0 demo_world demo_list demo_orderable). Defined.

Lemma service_compare_inconsistent_witness :
  let a := demo_service "a" TYPE_WIFI STATE_ASSOCIATION false 3 in
  let b := demo_service "b" TYPE_WIFI STATE_CONFIGURATION false 4 in
  service_compare 1 demo_world a b = Some (-1) /\ service_compare 1 demo_world b a = Some (-1).
Proof. apply (service_compare_inconsistent 0 demo_world); reflexivity. Defined.

Lemma route_metric_unique_witness :
  __connman_service_get_route_metric demo_list wifi0 = inr 4294964223 /\ 4294965247 <> 4294964223.
Proof.
  split; [vm_compute; reflexivity|].
  apply (route_metric_unique [cell0; eth0; wifi0] eth0 wifi0 4294965247 4294964223);
    first [vm_compute; reflexivity | discriminate | vm_compute; split; discriminate].
Defined.

Lemma online_check_timeouts_witness :
  online_check_timeout_compute_fibonacci 9 = 34 /\ online_check_timeout_compute_geometric 9 = 81.
Proof.
  assert (Hi : 0 <= 9 <= 46) by lia.
  split.
  - rewrite (proj1 (online_check_timeouts 9 Hi)). vm_compute. reflexivity.
  - exact (proj2 (proj2 (online_check_timeouts 9 Hi))).
Defined.

End Service.
