(* ===== verification/DhcpClient.v ===== *)
(** * The DHCP client (gdhcp/client.c)

    The client of IPv4: DHCP (RFC 2131) and link-local addresses (RFC 3927).
    A client is driven by its timers, by the packets of the socket it listens
    on and by the calls of its user; it sends packets and calls back.  The
    callbacks are outputs: what the user does in them comes after the handler.
    The timers are GLib sources on timer descriptors; the table of pending
    sources is part of the state, so a source that is no longer held by the
    client would be seen.  The DHCPv6 half of the file is not modelled. *)

From S2P Require Import Prelude Inet Effects Glib Acd Buffer DhcpPacket DhcpFrame.
From Stdlib Require Import Ascii String.
From stdpp Require Import list pretty.
Open Scope Z_scope.
Import DhcpPacket DhcpFrame.

Module DhcpClient.

Definition DISCOVER_TIMEOUT : Z := 5.
Definition DISCOVER_RETRIES : Z := 6.
Definition REQUEST_TIMEOUT : Z := 5.
Definition REQUEST_RETRIES : Z := 3.
Definition RATE_LIMIT_INTERVAL : Z := 60.
Definition DHCP_PARAM_REQ : Z := 0x37.
Definition DHCP_MAX_SIZE : Z := 0x39.
Definition INADDR_ANY : Z := 0.
Definition INADDR_BROADCAST : Z := 0xffffffff.

(** ** Data *)

Inductive GDHCPType := G_DHCP_IPV4 | G_DHCP_IPV4LL.

Inductive ListenMode := L_NONE | L2 | L3 | L_ARP.

(** The states of the IPv4 client; those of DHCPv6 are left out. *)
Inductive ClientState :=
  | INIT_SELECTING
  | REBOOTING
  | REQUESTING
  | BOUND
  | DECLINED
  | RENEWING
  | REBINDING
  | RELEASED
  | IPV4LL_PROBE
  | IPV4LL_ANNOUNCE
  | IPV4LL_MONITOR
  | IPV4LL_DEFEND.

#[export] Instance ListenMode_eq_dec : EqDecision ListenMode.
Proof. solve_decision. Defined.

#[export] Instance ClientState_eq_dec : EqDecision ClientState.
Proof. solve_decision. Defined.

(** The events of the IPv4 client its user registers callbacks for. *)
Inductive GDHCPClientEvent :=
  | LEASE_AVAILABLE
  | IPV4LL_AVAILABLE
  | NO_LEASE
  | LEASE_LOST
  | IPV4LL_LOST
  | ADDRESS_CONFLICT.

(** The functions timers call. *)
Inductive timer_cb :=
  | Discover_timeout
  | Request_timeout
  | Reboot_timeout
  | Restart_dhcp_timeout
  | Start_renew
  | Continue_renew
  | Start_rebound
  | Continue_rebound
  | Start_expire
  | Send_probe_packet
  | Ipv4ll_probe_timeout
  | Ipv4ll_announce_timeout
  | Ipv4ll_defend_timeout.

(** The four fields that hold the id of a timer, 0 for none, and the main
    loop: the pending sources, with their interval in milliseconds. *)
Record timeouts := mk_timeouts {
  timeout : Z;
  t1_timeout : Z;
  t2_timeout : Z;
  lease_timeout : Z;
  sources : gmap Z (Z * timer_cb);
  next_id : Z;
}.

Inductive slot := Timeout | T1_timeout | T2_timeout | Lease_timeout.

#[export] Instance slot_eq_dec : EqDecision slot.
Proof. solve_decision. Defined.

Definition slot_id (s : slot) (t : timeouts) : Z :=
  match s with
  | Timeout => timeout t
  | T1_timeout => t1_timeout t
  | T2_timeout => t2_timeout t
  | Lease_timeout => lease_timeout t
  end.

Definition set_slot (s : slot) (v : Z) (t : timeouts) : timeouts :=
  match s with
  | Timeout => mk_timeouts v (t1_timeout t) (t2_timeout t) (lease_timeout t) (sources t) (next_id t)
  | T1_timeout => mk_timeouts (timeout t) v (t2_timeout t) (lease_timeout t) (sources t) (next_id t)
  | T2_timeout => mk_timeouts (timeout t) (t1_timeout t) v (lease_timeout t) (sources t) (next_id t)
  | Lease_timeout => mk_timeouts (timeout t) (t1_timeout t) (t2_timeout t) v (sources t) (next_id t)
  end.

Definition set_sources (m : gmap Z (Z * timer_cb)) (t : timeouts) : timeouts :=
  mk_timeouts (timeout t) (t1_timeout t) (t2_timeout t) (lease_timeout t) m (next_id t).

Record GDHCPClient := mk_client {
  type_ : GDHCPType;
  state : ClientState;
  mac_address : list Z;
  xid : Z;   (** as the host stores it *)
  server_ip : Z;   (** host byte order *)
  requested_ip : Z;   (** host byte order *)
  assigned_ip : option string;   (** as [inet_ntoa] prints it *)
  start : Z;
  lease_seconds : Z;
  listen_mode : ListenMode;
  listener_sockfd : Z;
  retry_times : Z;   (** [uint8_t], like the next two *)
  ack_retry_times : Z;
  conflicts : Z;
  listener_watch : bool;   (** a watch is installed *)
  request_list : list Z;
  code_value_hash : gmap Z (list string);
  send_value_hash : gmap Z (list Z);   (** code, length and data *)
  secs_bcast_hash : gset Z;   (** the secs of broadcast discovers *)
  last_address : option string;
  T1 : Z;   (** [uint32_t], like the next two *)
  T2 : Z;
  expire : Z;
  request_bcast : bool;
  status_code : Z;
  has_cb : GDHCPClientEvent -> bool;   (** which callbacks are registered *)
  tmo : timeouts;
}.

Definition set_state v c := mk_client (type_ c) v (mac_address c) (xid c) (server_ip c)
  (requested_ip c) (assigned_ip c) (start c) (lease_seconds c) (listen_mode c) (listener_sockfd c)
  (retry_times c) (ack_retry_times c) (conflicts c) (listener_watch c) (request_list c)
  (code_value_hash c) (send_value_hash c) (secs_bcast_hash c) (last_address c) (T1 c) (T2 c)
  (expire c) (request_bcast c) (status_code c) (has_cb c) (tmo c).
Definition set_xid v c := mk_client (type_ c) (state c) (mac_address c) v (server_ip c)
  (requested_ip c) (assigned_ip c) (start c) (lease_seconds c) (listen_mode c) (listener_sockfd c)
  (retry_times c) (ack_retry_times c) (conflicts c) (listener_watch c) (request_list c)
  (code_value_hash c) (send_value_hash c) (secs_bcast_hash c) (last_address c) (T1 c) (T2 c)
  (expire c) (request_bcast c) (status_code c) (has_cb c) (tmo c).
Definition set_server_ip v c := mk_client (type_ c) (state c) (mac_address c) (xid c) v
  (requested_ip c) (assigned_ip c) (start c) (lease_seconds c) (listen_mode c) (listener_sockfd c)
  (retry_times c) (ack_retry_times c) (conflicts c) (listener_watch c) (request_list c)
  (code_value_hash c) (send_value_hash c) (secs_bcast_hash c) (last_address c) (T1 c) (T2 c)
  (expire c) (request_bcast c) (status_code c) (has_cb c) (tmo c).
Definition set_requested_ip v c := mk_client (type_ c) (state c) (mac_address c) (xid c)
  (server_ip c) v (assigned_ip c) (start c) (lease_seconds c) (listen_mode c) (listener_sockfd c)
  (retry_times c) (ack_retry_times c) (conflicts c) (listener_watch c) (request_list c)
  (code_value_hash c) (send_value_hash c) (secs_bcast_hash c) (last_address c) (T1 c) (T2 c)
  (expire c) (request_bcast c) (status_code c) (has_cb c) (tmo c).
Definition set_assigned_ip v c := mk_client (type_ c) (state c) (mac_address c) (xid c)
  (server_ip c) (requested_ip c) v (start c) (lease_seconds c) (listen_mode c) (listener_sockfd c)
  (retry_times c) (ack_retry_times c) (conflicts c) (listener_watch c) (request_list c)
  (code_value_hash c) (send_value_hash c) (secs_bcast_hash c) (last_address c) (T1 c) (T2 c)
  (expire c) (request_bcast c) (status_code c) (has_cb c) (tmo c).
Definition set_start v c := mk_client (type_ c) (state c) (mac_address c) (xid c) (server_ip c)
  (requested_ip c) (assigned_ip c) v (lease_seconds c) (listen_mode c) (listener_sockfd c)
  (retry_times c) (ack_retry_times c) (conflicts c) (listener_watch c) (request_list c)
  (code_value_hash c) (send_value_hash c) (secs_bcast_hash c) (last_address c) (T1 c) (T2 c)
  (expire c) (request_bcast c) (status_code c) (has_cb c) (tmo c).
Definition set_lease_seconds v c := mk_client (type_ c) (state c) (mac_address c) (xid c)
  (server_ip c) (requested_ip c) (assigned_ip c) (start c) v (listen_mode c) (listener_sockfd c)
  (retry_times c) (ack_retry_times c) (conflicts c) (listener_watch c) (request_list c)
  (code_value_hash c) (send_value_hash c) (secs_bcast_hash c) (last_address c) (T1 c) (T2 c)
  (expire c) (request_bcast c) (status_code c) (has_cb c) (tmo c).
Definition set_listen_mode v c := mk_client (type_ c) (state c) (mac_address c) (xid c)
  (server_ip c) (requested_ip c) (assigned_ip c) (start c) (lease_seconds c) v (listener_sockfd c)
  (retry_times c) (ack_retry_times c) (conflicts c) (listener_watch c) (request_list c)
  (code_value_hash c) (send_value_hash c) (secs_bcast_hash c) (last_address c) (T1 c) (T2 c)
  (expire c) (request_bcast c) (status_code c) (has_cb c) (tmo c).
Definition set_listener_sockfd v c := mk_client (type_ c) (state c) (mac_address c) (xid c)
  (server_ip c) (requested_ip c) (assigned_ip c) (start c) (lease_seconds c) (listen_mode c) v
  (retry_times c) (ack_retry_times c) (conflicts c) (listener_watch c) (request_list c)
  (code_value_hash c) (send_value_hash c) (secs_bcast_hash c) (last_address c) (T1 c) (T2 c)
  (expire c) (request_bcast c) (status_code c) (has_cb c) (tmo c).
Definition set_retry_times v c := mk_client (type_ c) (state c) (mac_address c) (xid c)
  (server_ip c) (requested_ip c) (assigned_ip c) (start c) (lease_seconds c) (listen_mode c)
  (listener_sockfd c) v (ack_retry_times c) (conflicts c) (listener_watch c) (request_list c)
  (code_value_hash c) (send_value_hash c) (secs_bcast_hash c) (last_address c) (T1 c) (T2 c)
  (expire c) (request_bcast c) (status_code c) (has_cb c) (tmo c).
Definition set_ack_retry_times v c := mk_client (type_ c) (state c) (mac_address c) (xid c)
  (server_ip c) (requested_ip c) (assigned_ip c) (start c) (lease_seconds c) (listen_mode c)
  (listener_sockfd c) (retry_times c) v (conflicts c) (listener_watch c) (request_list c)
  (code_value_hash c) (send_value_hash c) (secs_bcast_hash c) (last_address c) (T1 c) (T2 c)
  (expire c) (request_bcast c) (status_code c) (has_cb c) (tmo c).
Definition set_conflicts v c := mk_client (type_ c) (state c) (mac_address c) (xid c)
  (server_ip c) (requested_ip c) (assigned_ip c) (start c) (lease_seconds c) (listen_mode c)
  (listener_sockfd c) (retry_times c) (ack_retry_times c) v (listener_watch c) (request_list c)
  (code_value_hash c) (send_value_hash c) (secs_bcast_hash c) (last_address c) (T1 c) (T2 c)
  (expire c) (request_bcast c) (status_code c) (has_cb c) (tmo c).
Definition set_listener_watch v c := mk_client (type_ c) (state c) (mac_address c) (xid c)
  (server_ip c) (requested_ip c) (assigned_ip c) (start c) (lease_seconds c) (listen_mode c)
  (listener_sockfd c) (retry_times c) (ack_retry_times c) (conflicts c) v (request_list c)
  (code_value_hash c) (send_value_hash c) (secs_bcast_hash c) (last_address c) (T1 c) (T2 c)
  (expire c) (request_bcast c) (status_code c) (has_cb c) (tmo c).
Definition set_request_list v c := mk_client (type_ c) (state c) (mac_address c) (xid c)
  (server_ip c) (requested_ip c) (assigned_ip c) (start c) (lease_seconds c) (listen_mode c)
  (listener_sockfd c) (retry_times c) (ack_retry_times c) (conflicts c) (listener_watch c) v
  (code_value_hash c) (send_value_hash c) (secs_bcast_hash c) (last_address c) (T1 c) (T2 c)
  (expire c) (request_bcast c) (status_code c) (has_cb c) (tmo c).
Definition set_code_value_hash v c := mk_client (type_ c) (state c) (mac_address c) (xid c)
  (server_ip c) (requested_ip c) (assigned_ip c) (start c) (lease_seconds c) (listen_mode c)
  (listener_sockfd c) (retry_times c) (ack_retry_times c) (conflicts c) (listener_watch c)
  (request_list c) v (send_value_hash c) (secs_bcast_hash c) (last_address c) (T1 c) (T2 c)
  (expire c) (request_bcast c) (status_code c) (has_cb c) (tmo c).
Definition set_send_value_hash v c := mk_client (type_ c) (state c) (mac_address c) (xid c)
  (server_ip c) (requested_ip c) (assigned_ip c) (start c) (lease_seconds c) (listen_mode c)
  (listener_sockfd c) (retry_times c) (ack_retry_times c) (conflicts c) (listener_watch c)
  (request_list c) (code_value_hash c) v (secs_bcast_hash c) (last_address c) (T1 c) (T2 c)
  (expire c) (request_bcast c) (status_code c) (has_cb c) (tmo c).
Definition set_secs_bcast_hash v c := mk_client (type_ c) (state c) (mac_address c) (xid c)
  (server_ip c) (requested_ip c) (assigned_ip c) (start c) (lease_seconds c) (listen_mode c)
  (listener_sockfd c) (retry_times c) (ack_retry_times c) (conflicts c) (listener_watch c)
  (request_list c) (code_value_hash c) (send_value_hash c) v (last_address c) (T1 c) (T2 c)
  (expire c) (request_bcast c) (status_code c) (has_cb c) (tmo c).
Definition set_last_address v c := mk_client (type_ c) (state c) (mac_address c) (xid c)
  (server_ip c) (requested_ip c) (assigned_ip c) (start c) (lease_seconds c) (listen_mode c)
  (listener_sockfd c) (retry_times c) (ack_retry_times c) (conflicts c) (listener_watch c)
  (request_list c) (code_value_hash c) (send_value_hash c) (secs_bcast_hash c) v (T1 c) (T2 c)
  (expire c) (request_bcast c) (status_code c) (has_cb c) (tmo c).
Definition set_T1 v c := mk_client (type_ c) (state c) (mac_address c) (xid c) (server_ip c)
  (requested_ip c) (assigned_ip c) (start c) (lease_seconds c) (listen_mode c) (listener_sockfd c)
  (retry_times c) (ack_retry_times c) (conflicts c) (listener_watch c) (request_list c)
  (code_value_hash c) (send_value_hash c) (secs_bcast_hash c) (last_address c) v (T2 c) (expire c)
  (request_bcast c) (status_code c) (has_cb c) (tmo c).
Definition set_T2 v c := mk_client (type_ c) (state c) (mac_address c) (xid c) (server_ip c)
  (requested_ip c) (assigned_ip c) (start c) (lease_seconds c) (listen_mode c) (listener_sockfd c)
  (retry_times c) (ack_retry_times c) (conflicts c) (listener_watch c) (request_list c)
  (code_value_hash c) (send_value_hash c) (secs_bcast_hash c) (last_address c) (T1 c) v (expire c)
  (request_bcast c) (status_code c) (has_cb c) (tmo c).
Definition set_expire v c := mk_client (type_ c) (state c) (mac_address c) (xid c) (server_ip c)
  (requested_ip c) (assigned_ip c) (start c) (lease_seconds c) (listen_mode c) (listener_sockfd c)
  (retry_times c) (ack_retry_times c) (conflicts c) (listener_watch c) (request_list c)
  (code_value_hash c) (send_value_hash c) (secs_bcast_hash c) (last_address c) (T1 c) (T2 c) v
  (request_bcast c) (status_code c) (has_cb c) (tmo c).
Definition set_request_bcast v c := mk_client (type_ c) (state c) (mac_address c) (xid c)
  (server_ip c) (requested_ip c) (assigned_ip c) (start c) (lease_seconds c) (listen_mode c)
  (listener_sockfd c) (retry_times c) (ack_retry_times c) (conflicts c) (listener_watch c)
  (request_list c) (code_value_hash c) (send_value_hash c) (secs_bcast_hash c) (last_address c)
  (T1 c) (T2 c) (expire c) v (status_code c) (has_cb c) (tmo c).
Definition set_status_code v c := mk_client (type_ c) (state c) (mac_address c) (xid c)
  (server_ip c) (requested_ip c) (assigned_ip c) (start c) (lease_seconds c) (listen_mode c)
  (listener_sockfd c) (retry_times c) (ack_retry_times c) (conflicts c) (listener_watch c)
  (request_list c) (code_value_hash c) (send_value_hash c) (secs_bcast_hash c) (last_address c)
  (T1 c) (T2 c) (expire c) (request_bcast c) v (has_cb c) (tmo c).
Definition set_has_cb v c := mk_client (type_ c) (state c) (mac_address c) (xid c) (server_ip c)
  (requested_ip c) (assigned_ip c) (start c) (lease_seconds c) (listen_mode c) (listener_sockfd c)
  (retry_times c) (ack_retry_times c) (conflicts c) (listener_watch c) (request_list c)
  (code_value_hash c) (send_value_hash c) (secs_bcast_hash c) (last_address c) (T1 c) (T2 c)
  (expire c) (request_bcast c) (status_code c) v (tmo c).
Definition set_tmo v c := mk_client (type_ c) (state c) (mac_address c) (xid c) (server_ip c)
  (requested_ip c) (assigned_ip c) (start c) (lease_seconds c) (listen_mode c) (listener_sockfd c)
  (retry_times c) (ack_retry_times c) (conflicts c) (listener_watch c) (request_list c)
  (code_value_hash c) (send_value_hash c) (secs_bcast_hash c) (last_address c) (T1 c) (T2 c)
  (expire c) (request_bcast c) (status_code c) (has_cb c) v.

Definition upd_tmo (f : timeouts -> timeouts) (c : GDHCPClient) : GDHCPClient := set_tmo (f (tmo c)) c.

(** The clock, the random numbers, and what the system calls answer: a socket
    descriptor or an error, whether its channel and whether timers could be
    made. *)
Record env := mk_env {
  now : Z;
  random : Z;
  randoms : list Z;     (** drawn by [arp_random_ip] *)
  sock : Z;
  channel_ok : bool;
  timer_ok : bool;
}.

Inductive output :=
  | SendRaw (pkt : list Z) (bcast : bool)       (** to 255.255.255.255 *)
  | SendKernel (pkt : list Z) (source_ip dest_ip : Z)
  | SendArp (packet : list Z)
  | Callback (ev : GDHCPClientEvent)
  | SourceNotFound (id : Z).                    (** the warning of [g_source_remove] *)

Definition M (A : Type) : Type := pprog GDHCPClient output A.

Definition set (f : GDHCPClient -> GDHCPClient) : M unit := pmodify f.

Definition pwhen (b : bool) (m : M unit) : M unit := if b then m else pskip.

Definition callback (ev : GDHCPClientEvent) : M unit :=
  b ← pget (fun c => has_cb c ev); pwhen b (pemit (Callback ev)).

(** ** Timers *)

(** [timeout_start_ms]: the id of the new source, 0 when it cannot be made. *)
Definition timeout_start_ms (e : env) (interval : Z) (cb : timer_cb) : M Z := fun c =>
  let t := tmo c in
  if timer_ok e then
    Some (next_id t,
          set_tmo (mk_timeouts (timeout t) (t1_timeout t) (t2_timeout t) (lease_timeout t)
                     (<[next_id t := (interval, cb)]> (sources t)) (next_id t + 1)) c, [])
  else Some (0, c, []).

Definition timeout_start_seconds (e : env) (interval : Z) (cb : timer_cb) : M Z :=
  timeout_start_ms e (interval * 1000) cb.

Definition g_source_remove (id : Z) : M unit := fun c =>
  match sources (tmo c) !! id with
  | Some _ => Some (tt, upd_tmo (fun t => set_sources (delete id (sources t)) t) c, [])
  | None => Some (tt, c, [SourceNotFound id])
  end.

(** [if (field > 0) g_source_remove (field)] *)
Definition remove_slot (s : slot) : M unit :=
  id ← pget (fun c => slot_id s (tmo c));
  pwhen (0 <? id) (g_source_remove id).

Definition put_slot (s : slot) (v : Z) : M unit := set (upd_tmo (set_slot s v)).

(** [field = timeout_start_... (...)] *)
Definition arm_ms (e : env) (s : slot) (interval : Z) (cb : timer_cb) : M unit :=
  id ← timeout_start_ms e interval cb; put_slot s id.

Definition arm_seconds (e : env) (s : slot) (interval : Z) (cb : timer_cb) : M unit :=
  id ← timeout_start_seconds e interval cb; put_slot s id.

Definition remove_timeouts : M unit :=
  remove_slot Timeout;;
  remove_slot T1_timeout;;
  remove_slot T2_timeout;;
  remove_slot Lease_timeout;;
  put_slot Timeout 0;;
  put_slot T1_timeout 0;;
  put_slot T2_timeout 0;;
  put_slot Lease_timeout 0.

(** ** Packets *)

Section Client.
Context `{GLib}.

Definition init_packet (c : GDHCPClient) (type : Z) : option (list Z) :=
  pkt ← dhcp_init_header type;
  Some (wr off_chaddr (take 6 (mac_address c)) pkt).

(** Codes are stored as bytes behind the options there are; [None] when that
    leaves the options of the packet. *)
Definition add_request_options (c : GDHCPClient) (pkt : list Z) : option (list Z) :=
  e ← dhcp_end_option pkt;
  let codes := map u8 (request_list c) in
  let len := Z.of_nat (length codes) in
  if len =? 0 then Some pkt
  else if options_size <=? e + 2 + len then None
  else Some (wr (off_options + Z.to_nat e) ([DHCP_PARAM_REQ; u8 len] ++ codes ++ [DHCP_END]) pkt).

Fixpoint add_binary_options (pkt : list Z) (kvs : list (Z * list Z)) : option (list Z) :=
  match kvs with
  | [] => Some pkt
  | kv :: kvs => pkt ← dhcp_add_binary_option pkt kv.2; add_binary_options pkt kvs
  end.

Definition add_send_options (c : GDHCPClient) (pkt : list Z) : option (list Z) :=
  add_binary_options pkt (g_hash_table_foreach (send_value_hash c)).

(** The value before [htons]. *)
Definition dhcp_attempt_secs (e : env) (c : GDHCPClient) : Z := u16 (Z.min (now e - start c) 65535).

Definition stamp (e : env) (c : GDHCPClient) (pkt : list Z) : list Z :=
  wr off_secs (be_bytes16 (dhcp_attempt_secs e c)) (wr off_xid (le_bytes32 (xid c)) pkt).

Definition discover_packet (e : env) (c : GDHCPClient) (requested : Z) : option (list Z) :=
  pkt ← init_packet c DHCPDISCOVER;
  let pkt := stamp e c pkt in
  pkt ← (if requested =? 0 then Some pkt else dhcp_add_option_uint32 pkt DHCP_REQUESTED_IP requested);
  pkt ← dhcp_add_option_uint16 pkt DHCP_MAX_SIZE 576;
  pkt ← add_request_options c pkt;
  add_send_options c pkt.

Definition send_discover (e : env) (requested : Z) : M unit :=
  c ← pget id;
  pkt ← plift (discover_packet e c requested);
  let bcast := negb (retry_times c mod 2 =? 0) in
  set (set_request_bcast bcast);;
  pwhen bcast (set (fun c => set_secs_bcast_hash ({[dhcp_attempt_secs e c]} ∪ secs_bcast_hash c) c));;
  pemit (SendRaw pkt bcast).

Definition decline_packet (e : env) (c : GDHCPClient) (requested : Z) : option (list Z) :=
  pkt ← init_packet c DHCPDECLINE;
  let pkt := stamp e c pkt in
  pkt ← (if requested =? 0 then Some pkt else dhcp_add_option_uint32 pkt DHCP_REQUESTED_IP requested);
  add_send_options c pkt.

Definition g_dhcp_client_decline (e : env) (requested : Z) : M unit :=
  set (set_state DECLINED);;
  set (set_retry_times 0);;
  c ← pget id;
  pkt ← plift (decline_packet e c requested);
  pemit (SendRaw pkt true).

Definition is_state (s : ClientState) (c : GDHCPClient) : bool := bool_decide (state c = s).

Definition request_packet (e : env) (c : GDHCPClient) : option (list Z) :=
  pkt ← init_packet c DHCPREQUEST;
  let pkt := stamp e c pkt in
  pkt ← (if is_state REQUESTING c || is_state REBOOTING c
         then dhcp_add_option_uint32 pkt DHCP_REQUESTED_IP (requested_ip c) else Some pkt);
  pkt ← (if is_state REQUESTING c
         then dhcp_add_option_uint32 pkt DHCP_SERVER_ID (server_ip c) else Some pkt);
  pkt ← dhcp_add_option_uint16 pkt DHCP_MAX_SIZE 576;
  pkt ← add_request_options c pkt;
  pkt ← add_send_options c pkt;
  Some (if is_state RENEWING c || is_state REBINDING c
        then set_field32 off_ciaddr (requested_ip c) pkt else pkt).

Definition send_request (e : env) : M unit :=
  c ← pget id;
  pkt ← plift (request_packet e c);
  pemit (if is_state RENEWING c then SendKernel pkt (requested_ip c) (server_ip c)
         else SendRaw pkt (request_bcast c)).

Definition release_packet (e : env) (c : GDHCPClient) (server ciaddr : Z) : option (list Z) :=
  pkt ← init_packet c DHCPRELEASE;
  let pkt := wr off_xid (le_bytes32 (random e)) pkt in
  let pkt := set_field32 off_ciaddr ciaddr pkt in
  dhcp_add_option_uint32 pkt DHCP_SERVER_ID server.

Definition send_release (e : env) (server ciaddr : Z) : M unit :=
  c ← pget id;
  pkt ← plift (release_packet e c server ciaddr);
  pemit (SendKernel pkt ciaddr server).

(** ** Listening *)

Definition switch_listening_mode (e : env) (m : ListenMode) : M Z :=
  old ← pget listen_mode;
  if decide (old = m) then mret 0
  else
    pwhen (bool_decide (old <> L_NONE))
      (set (set_listener_watch false);; set (set_listen_mode L_NONE);; set (set_listener_sockfd (-1)));;
    if decide (m = L_NONE) then mret 0
    else if sock e <? 0 then mret (- EIO)
    else if negb (channel_ok e) then mret (- EIO)
    else
      set (set_listen_mode m);;
      set (set_listener_sockfd (sock e));;
      set (set_listener_watch true);;
      mret 0.

(** ** Link-local addresses *)

(** [__connman_util_random_delay_ms] *)
Definition random_delay_ms (e : env) (secs : Z) : Z := random e mod (secs * 1000).

Definition send_probe_packet (e : env) : M unit :=
  c ← pget id;
  (if requested_ip c =? 0 then
     ip ← plift (Acd.arp_random_ip (randoms e)); set (set_requested_ip ip)
   else pskip);;
  (if retry_times c =? 1 then
     set (set_state IPV4LL_PROBE);; _ ← switch_listening_mode e L_ARP; pskip
   else pskip);;
  ip ← pget requested_ip;
  pemit (SendArp (Acd.arp_send_packet (mac_address c) 0 ip));;
  arm_ms e Timeout
    (if retry_times c <? Acd.PROBE_NUM
     then random_delay_ms e (Acd.PROBE_MAX - Acd.PROBE_MIN) + Acd.PROBE_MIN * 1000
     else Acd.ANNOUNCE_WAIT * 1000)
    Ipv4ll_probe_timeout.

Definition send_announce_packet (e : env) : M unit :=
  c ← pget id;
  pemit (SendArp (Acd.arp_send_packet (mac_address c) (requested_ip c) (requested_ip c)));;
  remove_timeouts;;
  if is_state IPV4LL_DEFEND c then arm_seconds e Timeout Acd.DEFEND_INTERVAL Ipv4ll_defend_timeout
  else arm_seconds e Timeout Acd.ANNOUNCE_INTERVAL Ipv4ll_announce_timeout.

Definition incr_retry_times : M unit := set (fun c => set_retry_times (u8 (retry_times c + 1)) c).

Definition ipv4ll_start (e : env) : M unit :=
  remove_timeouts;;
  _ ← switch_listening_mode e L_NONE;
  set (set_retry_times 0);;
  set (set_requested_ip 0);;
  ip ← plift (Acd.arp_random_ip (randoms e));
  set (set_requested_ip ip);;
  incr_retry_times;;
  arm_ms e Timeout (random_delay_ms e Acd.PROBE_WAIT) Send_probe_packet.

Definition ipv4ll_stop (e : env) : M unit :=
  _ ← switch_listening_mode e L_NONE;
  remove_timeouts;;
  set (set_listener_watch false);;
  set (set_state IPV4LL_PROBE);;
  set (set_retry_times 0);;
  set (set_requested_ip 0);;
  set (set_assigned_ip None).

(** [data] is what [read] delivered, or its error. *)
Definition ipv4ll_recv_arp_packet (e : env) (data : list Z + Z) : M Z :=
  match data with
  | inr err => mret (- err)
  | inl data =>
      let arp := wr 0 (take 28 data) (repeat 0 28%nat) in
      c ← pget id;
      if negb (bytes_eqb (Acd.arp_op arp) Acd.ARPOP_REPLY) &&
         negb (bytes_eqb (Acd.arp_op arp) Acd.ARPOP_REQUEST) then mret (- EINVAL)
      else if bytes_eqb (Acd.arp_sha arp) (mac_address c) then mret 0
      else
        let source_conflict := bytes_eqb (Acd.arp_spa arp) (be_bytes32 (requested_ip c)) in
        let target_conflict := bytes_eqb (Acd.arp_tpa arp) (be_bytes32 (requested_ip c)) in
        if negb source_conflict && negb target_conflict then mret 0
        else
          set (fun c => set_conflicts (u8 (conflicts c + 1)) c);;
          if is_state IPV4LL_MONITOR c then
            if negb source_conflict then mret 0
            else set (set_state IPV4LL_DEFEND);; send_announce_packet e;; mret 0
          else if is_state IPV4LL_DEFEND c && negb source_conflict then mret 0
          else
            (if is_state IPV4LL_DEFEND c then callback IPV4LL_LOST else pskip);;
            ipv4ll_stop e;;
            n ← pget conflicts;
            incr_retry_times;;
            arm_ms e Timeout
              (if n <? Acd.MAX_CONFLICTS then random_delay_ms e Acd.PROBE_WAIT
               else RATE_LIMIT_INTERVAL * 1000)
              Send_probe_packet;;
            mret 0
  end.

Definition ipv4ll_defend_timeout : M unit :=
  set (set_conflicts 0);; set (set_state IPV4LL_MONITOR).

Definition get_ip (ip : Z) : string := inet_ntoa ip.

Definition ipv4ll_announce_timeout (e : env) : M unit :=
  c ← pget id;
  if negb (retry_times c =? Acd.ANNOUNCE_NUM) then incr_retry_times;; send_announce_packet e
  else
    set (set_state IPV4LL_MONITOR);;
    set (set_assigned_ip (Some (get_ip (requested_ip c))));;
    callback IPV4LL_AVAILABLE;;
    set (set_conflicts 0);;
    put_slot Timeout 0.

Definition ipv4ll_probe_timeout (e : env) : M unit :=
  c ← pget id;
  if retry_times c =? Acd.PROBE_NUM then
    set (set_state IPV4LL_ANNOUNCE);;
    set (set_retry_times 0);;
    incr_retry_times;;
    send_announce_packet e
  else incr_retry_times;; send_probe_packet e.

(** ** Acquiring a lease *)

Definition start_request (e : env) : M unit :=
  c ← pget id;
  if retry_times c =? REQUEST_RETRIES then callback NO_LEASE
  else
    (if retry_times c =? 0 then
       set (set_state REQUESTING);; _ ← switch_listening_mode e L2; pskip
     else pskip);;
    send_request e;;
    arm_seconds e Timeout REQUEST_TIMEOUT Request_timeout.

Definition request_timeout (e : env) : M unit := incr_retry_times;; start_request e.

Definition is_type_ll (c : GDHCPClient) : bool :=
  match type_ c with G_DHCP_IPV4LL => true | G_DHCP_IPV4 => false end.

(** The last address in host byte order, when it is one to ask for again.
    [inet_addr] yields [INADDR_NONE] when the string is no address. *)
Definition reboot_address (oldstate : ClientState) (last_address : option string) : option Z :=
  match last_address with
  | None => None
  | Some a =>
      if decide (oldstate = DECLINED) then None
      else
        let addr := default 0xffffffff (inet_aton a) in
        if (addr =? 0xffffffff) || ((addr .& Acd.LINKLOCAL_ADDR) =? Acd.LINKLOCAL_ADDR)
        then None else Some addr
  end.

Definition g_dhcp_client_start (e : env) (last : option string) : M Z :=
  oldstate ← pget state;
  remove_timeouts;;
  c ← pget id;
  if is_type_ll c then set (set_state INIT_SELECTING);; ipv4ll_start e;; mret 0
  else if retry_times c =? DISCOVER_RETRIES then
    callback NO_LEASE;; set (set_retry_times 0);; mret 0
  else
    re ← (if retry_times c =? 0 then
            set (set_assigned_ip None);;
            set (set_state INIT_SELECTING);;
            re ← switch_listening_mode e L2;
            if negb (re =? 0) then mret re
            else
              set (set_xid (u32 (random e)));;
              set (set_start (now e));;
              set (set_secs_bcast_hash ∅);;
              mret 0
          else mret 0);
    if negb (re =? 0) then mret re
    else
      (match reboot_address oldstate last with
       | Some _ => set (set_last_address last)
       | None => pskip
       end);;
      let addr := default 0 (reboot_address oldstate last) in
      if negb (addr =? 0) then
        set (set_requested_ip addr);;
        set (set_state REBOOTING);;
        send_request e;;
        arm_seconds e Timeout REQUEST_TIMEOUT Reboot_timeout;;
        mret 0
      else
        send_discover e addr;;
        arm_seconds e Timeout DISCOVER_TIMEOUT Discover_timeout;;
        mret 0.

Definition discover_timeout (e : env) : M unit :=
  incr_retry_times;; _ ← g_dhcp_client_start e None; pskip.

Definition reboot_timeout (e : env) : M unit :=
  set (set_retry_times 0);;
  set (set_requested_ip 0);;
  set (set_state INIT_SELECTING);;
  _ ← g_dhcp_client_start e None; pskip.

(** [retry_times] is stored into a [uint8_t]. *)
Definition restart_dhcp (e : env) (retry_times : Z) : M unit :=
  remove_timeouts;;
  set (set_retry_times (u8 retry_times));;
  set (set_requested_ip 0);;
  set (set_state INIT_SELECTING);;
  _ ← switch_listening_mode e L2;
  last ← pget last_address;
  _ ← g_dhcp_client_start e last; pskip.

Definition restart_dhcp_timeout (e : env) : M unit :=
  c ← pget id;
  if is_state REBOOTING c then set (set_last_address None);; restart_dhcp e 0
  else
    set (fun c => set_ack_retry_times (u8 (ack_retry_times c + 1)) c);;
    n ← pget ack_retry_times;
    restart_dhcp e n.

(** ** Holding a lease *)

Definition start_expire (e : env) : M unit :=
  remove_timeouts;; restart_dhcp e 0;; callback LEASE_LOST.

(** The interval until the next retransmission. *)
Definition retransmit_ms (e : env) (t : Z) : Z := u32 (u32 (t * 1000) + random e mod 2000 - 1000).

Definition continue_rebound (e : env) : M unit :=
  _ ← switch_listening_mode e L2;
  send_request e;;
  id ← pget (fun c => t2_timeout (tmo c));
  pwhen (0 <? id) (g_source_remove id;; put_slot T2_timeout 0);;
  set (fun c => set_T2 (T2 c .>> 1) c);;
  t ← pget T2;
  pwhen (60 <? t) (arm_ms e T2_timeout (retransmit_ms e t) Continue_rebound).

Definition start_rebound (e : env) : M unit :=
  remove_slot T1_timeout;;
  set (set_state REBINDING);;
  set (fun c => set_T2 (u32 (expire c - T2 c)) c);;
  continue_rebound e.

Definition continue_renew (e : env) : M unit :=
  _ ← switch_listening_mode e L3;
  send_request e;;
  remove_slot T1_timeout;;
  put_slot T1_timeout 0;;
  set (fun c => set_T1 (T1 c .>> 1) c);;
  t ← pget T1;
  pwhen (60 <? t) (arm_ms e T1_timeout (retransmit_ms e t) Continue_renew).

Definition start_renew (e : env) : M unit :=
  set (set_state RENEWING);;
  set (fun c => set_T1 (u32 (T2 c - T1 c)) c);;
  continue_renew e.

(** [lease_seconds * 0.875] is exact in double precision. *)
Definition start_bound (e : env) : M unit :=
  set (set_state BOUND);;
  remove_timeouts;;
  set (fun c => set_T1 (lease_seconds c .>> 1) c);;
  set (fun c => set_T2 (lease_seconds c * 7 / 8) c);;
  set (fun c => set_expire (lease_seconds c) c);;
  c ← pget id;
  arm_seconds e T1_timeout (T1 c) Start_renew;;
  arm_seconds e T2_timeout (T2 c) Start_rebound;;
  arm_seconds e Lease_timeout (expire c) Start_expire.

(** ** Reading the options of a reply *)

Definition get_lease (pkt : list Z) (packet_len : Z) : option Z :=
  o ← get_option pkt packet_len DHCP_LEASE_TIME;
  match o with
  | None => Some 3600
  | Some off => secs ← deref32 pkt off; Some (if secs <? 10 then 10 else secs)
  end.

(** [%u] *)
Definition dec_chars (n : Z) : list ascii := list_ascii_of_string (pretty (Z.to_N n)).

Definition len_of_option_as_string (ty : Z) : Z := nth (Z.to_nat ty) [0; 17; 1; 5; 7; 12] 0.

(** The bytes up to the first that is 0, as a C string. *)
Fixpoint c_string (bytes : list Z) : list ascii :=
  match bytes with
  | [] => []
  | b :: bytes => if b =? 0 then [] else ascii_of_nat (Z.to_nat b) :: c_string bytes
  end.

Definition space : ascii := " "%char.

(** What one element of an option is printed as. *)
Definition print_element (ty : Z) (bytes : list Z) : list ascii :=
  if ty =? OPTION_IP then ntoa_chars (be_word32 bytes)
  else if ty =? OPTION_U16 then dec_chars (be_field16 0 bytes)
  else if ty =? OPTION_U32 then dec_chars (be_word32 bytes)
  else [].

(** The loop over the elements of [optlen] bytes; a string is copied whole. *)
Fixpoint print_elements (fuel : nat) (ty optlen : Z) (bytes : list Z) : list ascii :=
  match fuel with
  | O => []
  | S fuel =>
      if Z.of_nat (length bytes) <? optlen then []
      else if ty =? OPTION_STRING then c_string bytes
      else
        let rest := drop (Z.to_nat optlen) bytes in
        print_element ty (take (Z.to_nat optlen) bytes) ++
        match rest with
        | [] => []
        | _ => space :: print_elements fuel ty optlen rest
        end
  end.

(** [bytes] are the data of the option, as many as its length byte says. *)
Definition malloc_option_value_string (bytes : list Z) (ty : Z) : option (list ascii) :=
  let len := Z.of_nat (length bytes) in
  let ty := ty .& OPTION_TYPE_MASK in
  let optlen := dhcp_option_lengths ty in
  if optlen =? 0 then None
  else if len_of_option_as_string ty * (len / optlen) =? 0 then None
  else Some (print_elements (S (length bytes)) ty optlen bytes).

(** The parts of a string between the spaces. *)
Fixpoint split_spaces (cur : list ascii) (l : list ascii) : list (list ascii) :=
  match l with
  | [] => [rev cur]
  | a :: l => if Ascii.eqb a space then rev cur :: split_spaces [] l else split_spaces (a :: cur) l
  end.

Definition get_option_value_list (value : option (list ascii)) (ty : Z) : list string :=
  match value with
  | None => []
  | Some v =>
      if ty =? OPTION_STRING then [string_of_list_ascii v]
      else map string_of_list_ascii (split_spaces [] v)
  end.

(** The data of an option, by the length byte before it. *)
Definition option_bytes (pkt : list Z) (off : Z) : option (list Z) :=
  len ← rd pkt (off - 1);
  Some (slice (Z.to_nat off) (Z.to_nat len) pkt).

Definition get_request_code (pkt : list Z) (packet_len code : Z) (h : gmap Z (list string)) :
    option (gmap Z (list string)) :=
  o ← get_option pkt packet_len code;
  match o with
  | None => Some (delete code h)
  | Some off =>
      bytes ← option_bytes pkt off;
      let ty := dhcp_get_code_type code in
      match get_option_value_list (malloc_option_value_string bytes ty) ty with
      | [] => Some (delete code h)
      | l => Some (<[code := l]> h)
      end
  end.

Fixpoint get_request_codes (pkt : list Z) (packet_len : Z) (codes : list Z)
    (h : gmap Z (list string)) : option (gmap Z (list string)) :=
  match codes with
  | [] => Some h
  | code :: codes =>
      h ← get_request_code pkt packet_len (u8 code) h;
      get_request_codes pkt packet_len codes h
  end.

Definition get_request (pkt : list Z) (packet_len : Z) : M unit :=
  c ← pget id;
  h ← plift (get_request_codes pkt packet_len (request_list c) (code_value_hash c));
  set (set_code_value_hash h).

(** ** Packets that arrive *)

Definition check_package_owner (c : GDHCPClient) (pkt : list Z) : bool :=
  if negb (bytes_eqb (slice off_xid 4 pkt) (le_bytes32 (xid c))) then false
  else if negb (byte_at off_hlen pkt =? 6) then false
  else bytes_eqb (slice off_chaddr 6 pkt) (take 6 (mac_address c)).

(** The answer in [INIT_SELECTING]; [bcast]: it was sent to 255.255.255.255. *)
Definition on_offer (e : env) (pkt : list Z) (packet_len : Z) (bcast : bool) : M unit :=
  remove_timeouts;;
  put_slot Timeout 0;;
  set (set_retry_times 0);;
  o ← plift (get_option pkt packet_len DHCP_SERVER_ID);
  match o with
  | None => pskip
  | Some off =>
      ip ← plift (deref32 pkt off);
      set (set_server_ip ip);;
      set (set_requested_ip (field32 off_yiaddr pkt));;
      set (set_state REQUESTING);;
      set (fun c => set_request_bcast
        (bcast && bool_decide (be_field16 off_secs pkt ∈ secs_bcast_hash c)) c);;
      start_request e
  end.

Definition on_ack (e : env) (pkt : list Z) (packet_len : Z) : M unit :=
  set (set_retry_times 0);;
  remove_timeouts;;
  secs ← plift (get_lease pkt packet_len);
  set (set_lease_seconds secs);;
  get_request pkt packet_len;;
  _ ← switch_listening_mode e L_NONE;
  set (set_assigned_ip (Some (get_ip (field32 off_yiaddr pkt))));;
  c ← pget id;
  known ← (if is_state REBOOTING c then
             o ← plift (get_option pkt packet_len DHCP_SERVER_ID);
             match o with
             | None => mret false
             | Some off => ip ← plift (deref32 pkt off); set (set_server_ip ip);; mret true
             end
           else mret true);
  if negb known then pskip
  else callback LEASE_AVAILABLE;; start_bound e.

Definition on_nak (e : env) : M unit :=
  set (set_retry_times 0);; remove_timeouts;; arm_seconds e Timeout 3 Restart_dhcp_timeout.

Definition on_answer (e : env) (pkt : list Z) (packet_len : Z) (message_type : Z) : M unit :=
  if message_type =? DHCPACK then on_ack e pkt packet_len
  else if message_type =? DHCPNAK then on_nak e
  else pskip.

(** The [switch] over the state. *)
Definition dispatch (e : env) (pkt : list Z) (packet_len message_type : Z) (bcast : bool) : M unit :=
  st ← pget state;
  match st with
  | INIT_SELECTING =>
      if negb (message_type =? DHCPOFFER) then pskip else on_offer e pkt packet_len bcast
  | REBOOTING => set (set_request_bcast bcast);; on_answer e pkt packet_len message_type
  | REQUESTING | RENEWING | REBINDING => on_answer e pkt packet_len message_type
  | _ => pskip
  end.

Definition on_packet (e : env) (pkt : list Z) (packet_len : Z) (bcast : bool) : M bool :=
  c ← pget id;
  if negb (check_package_owner c pkt) then mret true
  else
    o ← plift (get_option pkt packet_len DHCP_MESSAGE_TYPE);
    match o with
    | None => mret true
    | Some off => ty ← plift (rd pkt off); dispatch e pkt packet_len ty bcast;; mret true
    end.

(** [broken] is [condition & (G_IO_NVAL | G_IO_ERR | G_IO_HUP)]; [data] is what
    the socket delivers.  The result tells whether the watch is kept. *)
Definition listener_event (e : env) (broken : bool) (data : list Z + Z) : M bool :=
  if broken then set (set_listener_watch false);; mret false
  else
    m ← pget listen_mode;
    match m with
    | L_NONE => mret false
    | L_ARP =>
        set (set_status_code 0);; _ ← ipv4ll_recv_arp_packet e data; mret true
    | L2 =>
        set (set_status_code 0);;
        let '(pkt, re) :=
          dhcp_recv_l2_packet (match data with inl d => Some d | inr _ => None end)
            (repeat 0 packet_size) in
        match re with
        | inl _ => mret true
        | inr (daddr, n) =>
            on_packet e pkt (u16 n) (bytes_eqb daddr (be_bytes32 INADDR_BROADCAST))
        end
    | L3 =>
        set (set_status_code 0);;
        let '(pkt, re) := dhcp_recv_l3_packet data in
        if re <? 0 then mret true else on_packet e pkt (u16 re) false
    end.

Definition g_dhcp_client_stop (e : env) : M unit :=
  _ ← switch_listening_mode e L_NONE;
  c ← pget id;
  pwhen (is_state BOUND c || is_state RENEWING c || is_state REBINDING c)
    (send_release e (server_ip c) (requested_ip c));;
  remove_timeouts;;
  set (set_listener_watch false);;
  set (set_retry_times 0);;
  set (set_ack_retry_times 0);;
  set (set_requested_ip 0);;
  set (set_state RELEASED);;
  set (set_lease_seconds 0);;
  set (set_request_bcast false).

(** ** The event loop *)

Definition timer_function (e : env) (cb : timer_cb) : M unit :=
  match cb with
  | Discover_timeout => discover_timeout e
  | Request_timeout => request_timeout e
  | Reboot_timeout => reboot_timeout e
  | Restart_dhcp_timeout => restart_dhcp_timeout e
  | Start_renew => start_renew e
  | Continue_renew => continue_renew e
  | Start_rebound => start_rebound e
  | Continue_rebound => continue_rebound e
  | Start_expire => start_expire e
  | Send_probe_packet => send_probe_packet e
  | Ipv4ll_probe_timeout => ipv4ll_probe_timeout e
  | Ipv4ll_announce_timeout => ipv4ll_announce_timeout e
  | Ipv4ll_defend_timeout => ipv4ll_defend_timeout
  end.

(** A timer expires: its function is called, and as every one of them returns
    [FALSE] the source is gone afterwards.  A timer descriptor armed with an
    interval of 0 is disarmed and never expires. *)
Definition fire (e : env) (id : Z) : M unit :=
  c ← pget (fun c => sources (tmo c) !! id);
  match c with
  | None => pskip
  | Some (ms, cb) =>
      if ms <=? 0 then pskip
      else
        timer_function e cb;;
        set (upd_tmo (fun t => set_sources (delete id (sources t)) t))
  end.

Inductive event :=
  | Start (e : env) (last : option string)
  | Stop (e : env)
  | Decline (e : env) (requested : Z)
  | Timer (e : env) (id : Z)
  | Packet (e : env) (broken : bool) (data : list Z + Z).

(** A watch that has been removed delivers nothing. *)
Definition handle (ev : event) : M unit :=
  match ev with
  | Start e last => _ ← g_dhcp_client_start e last; pskip
  | Stop e => g_dhcp_client_stop e
  | Decline e r => g_dhcp_client_decline e r
  | Timer e id => fire e id
  | Packet e broken data =>
      w ← pget listener_watch;
      if (w : bool) then _ ← listener_event e broken data; pskip else pskip
  end.

(** ** Creation *)

Definition g_dhcp_client_new (type : GDHCPType) (mac : list Z) : GDHCPClient :=
  mk_client type INIT_SELECTING mac 0 0 0 None 0 0 L_NONE (-1) 0 0 0 false [] ∅ ∅ ∅ None
    0 0 0 false 0 (fun _ => false) (mk_timeouts 0 0 0 0 ∅ 1).

Definition g_dhcp_client_register_event (ev : GDHCPClientEvent) (func : bool) (c : GDHCPClient) :
    GDHCPClient :=
  set_has_cb (fun ev' => match ev, ev' with
    | LEASE_AVAILABLE, LEASE_AVAILABLE | IPV4LL_AVAILABLE, IPV4LL_AVAILABLE
    | NO_LEASE, NO_LEASE | LEASE_LOST, LEASE_LOST | IPV4LL_LOST, IPV4LL_LOST
    | ADDRESS_CONFLICT, ADDRESS_CONFLICT => func
    | _, _ => has_cb c ev'
    end) c.

Definition g_dhcp_client_set_request (option_code : Z) (c : GDHCPClient) : GDHCPClient :=
  if existsb (Z.eqb option_code) (request_list c) then c
  else set_request_list (option_code :: request_list c) c.

Definition g_dhcp_client_clear_requests (c : GDHCPClient) : GDHCPClient := set_request_list [] c.

Definition g_dhcp_client_clear_values (c : GDHCPClient) : GDHCPClient := set_send_value_hash ∅ c.

Definition alloc_dhcp_data_option (code : Z) (data : list Z) : list Z :=
  let data := take 255 data in [u8 code; Z.of_nat (length data)] ++ data.

Definition G_DHCP_CLIENT_ID : Z := 0x3d.
Definition G_DHCP_HOST_NAME : Z := 0x0c.
Definition G_DHCP_VENDOR_CLASS_ID : Z := 0x3c.

Definition g_dhcp_client_set_id (c : GDHCPClient) : GDHCPClient :=
  set_send_value_hash
    (<[G_DHCP_CLIENT_ID := alloc_dhcp_data_option G_DHCP_CLIENT_ID (1 :: take 6 (mac_address c))]>
       (send_value_hash c)) c.

(** [value]: the bytes of the string. *)
Definition g_dhcp_client_set_send (option_code : Z) (value : list Z) (c : GDHCPClient) : GDHCPClient :=
  if (option_code =? G_DHCP_HOST_NAME) || (option_code =? G_DHCP_VENDOR_CLASS_ID)
  then set_send_value_hash
         (<[option_code := alloc_dhcp_data_option option_code value]> (send_value_hash c)) c
  else c.

Definition g_dhcp_client_get_netmask (c : GDHCPClient) : option string :=
  match state c with
  | IPV4LL_DEFEND | IPV4LL_MONITOR => Some "255.255.0.0"%string
  | BOUND | RENEWING | REBINDING =>
      match code_value_hash c !! DHCP_SUBNET with
      | Some (v :: _) => Some v
      | _ => None
      end
  | _ => None
  end.

End Client.
End DhcpClient.
