(* ===== verification/DhcpClientInv.v ===== *)
(** * Invariants of the DHCP client

    The timers of a client are held by its fields in every reachable state, so
    none outlives it; and a lease is never held without a timer that ends it. *)

From S2P Require Import Prelude Inet Effects Glib Buffer DhcpPacket DhcpFrame DhcpClient.
From stdpp Require Import list.
Open Scope Z_scope.
Import DhcpPacket DhcpFrame DhcpClient.

Module DhcpClientInv.

Section Timers.
Context `{GLib}.

(** ** Timers are held

    Every pending source is the one in the field its function belongs to, the
    source whose function is running ([own]) apart; the fields of [free] hold no
    pending source. *)

Definition slot_of (cb : timer_cb) : slot :=
  match cb with
  | Start_renew | Continue_renew => T1_timeout
  | Start_rebound | Continue_rebound => T2_timeout
  | Start_expire => Lease_timeout
  | _ => Timeout
  end.

Record held_but (own : option Z) (free : list slot) (t : timeouts) : Prop := {
  held_next : 0 < next_id t;
  held_ids s : 0 <= slot_id s t < next_id t;
  held_distinct s s' : s <> s' -> slot_id s t <> 0 -> slot_id s t <> slot_id s' t;
  held_source id ms cb : sources t !! id = Some (ms, cb) ->
    0 < id < next_id t /\
    (own = Some id \/ (slot_id (slot_of cb) t = id /\ slot_of cb ∉ free));
}.

Definition held (c : GDHCPClient) : Prop := held_but None [] (tmo c).

(** The assertion the handlers are specified with. *)
Definition H_ (own : option Z) (free : list slot) (c : GDHCPClient) : Prop :=
  held_but own free (tmo c).

Definition all_slots : list slot := [Lease_timeout; T2_timeout; T1_timeout; Timeout].

Lemma held_weaken own free free' t :
  held_but own free t -> (forall s, s ∈ free' -> s ∈ free) -> held_but own free' t.
Proof.
  intros [Hn Hid Hd Hs] Hi. split; [done..|]. intros id ms cb E. destruct (Hs _ _ _ E) as [? [?|[? ?]]].
  - auto.
  - split; [done|]. right. split; [done|]. auto.
Qed.

Lemma slot_id_set s s' v t : slot_id s (set_slot s' v t) = if decide (s = s') then v else slot_id s t.
Proof. destruct s, s'; reflexivity. Qed.

Lemma sources_set_slot s v t : sources (set_slot s v t) = sources t.
Proof. destruct s; reflexivity. Qed.

Lemma next_id_set_slot s v t : next_id (set_slot s v t) = next_id t.
Proof. destruct s; reflexivity. Qed.

Lemma slot_id_set_sources s m t : slot_id s (set_sources m t) = slot_id s t.
Proof. destruct s; reflexivity. Qed.

(** Clearing a field that holds no pending source. *)
Lemma held_put own free s t :
  s ∈ free -> held_but own free t -> held_but own free (set_slot s 0 t).
Proof.
  intros Hs [Hn Hid Hd Hc]. split; rewrite ?next_id_set_slot; [done|..].
  - intros s'. rewrite slot_id_set. case_decide; [lia|done].
  - intros s1 s2 Hne. rewrite !slot_id_set. repeat case_decide; subst; auto; lia.
  - intros id ms cb. rewrite sources_set_slot. intros E.
    destruct (Hc _ _ _ E) as [? [?|[? ?]]]; [by auto|]. split; [done|]. right. split; [|done].
    rewrite slot_id_set. case_decide; [congruence|done].
Qed.

(** Removing the source of a field. *)
Lemma held_remove own free s t :
  held_but own free t ->
  held_but own (s :: free) (set_sources (delete (slot_id s t) (sources t)) t).
Proof.
  intros [Hn Hid Hd Hc]. split; [done|..].
  - intros s'. rewrite slot_id_set_sources. apply Hid.
  - intros s1 s2. rewrite !slot_id_set_sources. apply Hd.
  - intros id ms cb E. cbn in E.
    apply lookup_delete_Some in E as [Hne E]. destruct (Hc _ _ _ E) as [? [?|[? Hf]]]; [by auto|].
    split; [done|]. right. rewrite slot_id_set_sources. split; [done|].
    intros [Hs|?]%elem_of_cons; [congruence|done].
Qed.

Lemma held_no_source own free s t :
  held_but own free t -> ~ 0 < slot_id s t \/ sources t !! slot_id s t = None ->
  held_but own (s :: free) t.
Proof.
  intros [Hn Hi Hd Hc] Hz. split; [done..|]. intros id ms cb E.
  destruct (Hc _ _ _ E) as [? [?|[He Hf]]]; [by auto|]. split; [done|]. right. split; [done|].
  intros [Hs|?]%elem_of_cons; [|done]. rewrite Hs in He. destruct Hz as [Hz|Hz]; [lia|congruence].
Qed.

(** A new source in a field that holds no pending source. *)
Lemma held_arm own free free' ms cb t :
  slot_of cb ∈ free -> (forall s, s ∈ free' -> s ∈ free /\ s <> slot_of cb) ->
  held_but own free t ->
  held_but own free'
    (set_slot (slot_of cb) (next_id t)
      (mk_timeouts (timeout t) (t1_timeout t) (t2_timeout t) (lease_timeout t)
         (<[next_id t := (ms, cb)]> (sources t)) (next_id t + 1))).
Proof.
  intros Hs Hf [Hn Hi Hd Hc]. split; rewrite ?next_id_set_slot; cbn [next_id]; [lia|..].
  - intros s. rewrite slot_id_set. case_decide; [lia|]. pose proof (Hi s). destruct s; cbn in *; lia.
  - intros s1 s2 Hne. rewrite !slot_id_set. pose proof (Hi s1). pose proof (Hi s2).
    pose proof (Hd s1 s2 Hne).
    repeat case_decide; try (exfalso; congruence); destruct s1, s2; cbn in *;
      first [done|intros; lia|auto].
  - intros id ms' cb'. rewrite sources_set_slot. cbn [sources].
    intros [[<- [= <- <-]]|[Hne E]]%lookup_insert_Some.
    + split; [lia|]. right. rewrite slot_id_set. rewrite decide_True by done. split; [done|].
      intros Hin. apply Hf in Hin as [_ ?]. done.
    + destruct (Hc _ _ _ E) as [? [?|[He Hnf]]]; (split; [lia|]); [by auto|]. right.
      rewrite slot_id_set. rewrite decide_False by (intros Heq; rewrite Heq in Hnf; done).
      split; [by destruct (slot_of cb')|]. intros Hin. apply Hf in Hin as [? _]. done.
Qed.

(** Handlers that leave the timers alone. *)
Definition keeps {A} (m : M A) : Prop :=
  forall c a c' o, m c = Some (a, c', o) -> tmo c' = tmo c.

Lemma keeps_bind {A B} (m : M A) (k : A -> M B) :
  keeps m -> (forall a, keeps (k a)) -> keeps (m ≫= k).
Proof.
  intros Hm Hk c b c' o E. apply pbind_inv in E as (a & c1 & o1 & o2 & E1 & E2 & _).
  rewrite (Hk _ _ _ _ _ E2). by apply (Hm _ _ _ _ E1).
Qed.

Lemma keeps_set f : (forall c, tmo (f c) = tmo c) -> keeps (set f).
Proof. intros Hf c a c' o [= <- <- _]. apply Hf. Qed.

Lemma keeps_ret {A} (a : A) : keeps (mret a).
Proof. intros c b c' o [= <- <- _]. done. Qed.

Lemma keeps_get {A} (f : GDHCPClient -> A) : keeps (pget f).
Proof. intros c b c' o [= <- <- _]. done. Qed.

Lemma keeps_emit x : keeps (pemit x).
Proof. intros c b c' o [= <- <- _]. done. Qed.

Lemma keeps_lift {A} (r : option A) : keeps (plift r).
Proof. intros c b c' o E. unfold plift in E. destruct r; simplify_eq. done. Qed.

End Timers.

Create HintDb client_keeps.

#[export] Hint Resolve keeps_ret keeps_get keeps_emit keeps_lift : client_keeps.

(** Follow the structure of a handler that leaves the timers alone. *)
Ltac solve_keeps :=
  unfold pwhen, pskip;
  repeat first
    [ solve [eauto 2 with client_keeps]
    | lazymatch goal with
      | |- keeps (_ ≫= _) => apply keeps_bind; [|intros ?]
      | |- keeps (set _) => apply keeps_set; intros ?; reflexivity
      | |- keeps (if ?b then _ else _) => destruct b
      | |- keeps (match ?x with _ => _ end) => destruct x
      end ].

Section Held.
Context `{GLib}.

Lemma keeps_callback ev : keeps (callback ev).
Proof. unfold callback. solve_keeps. Qed.

Lemma keeps_switch e m : keeps (switch_listening_mode e m).
Proof. unfold switch_listening_mode. solve_keeps. Qed.

Lemma keeps_send_request e : keeps (send_request e).
Proof. unfold send_request. solve_keeps. Qed.

Lemma keeps_send_discover e r : keeps (send_discover e r).
Proof. unfold send_discover. solve_keeps. Qed.

Lemma keeps_send_release e a b : keeps (send_release e a b).
Proof. unfold send_release. solve_keeps. Qed.

Lemma keeps_get_request p n : keeps (get_request p n).
Proof. unfold get_request. solve_keeps. Qed.

Lemma keeps_incr : keeps incr_retry_times.
Proof. unfold incr_retry_times. solve_keeps. Qed.

(** The rules for the operations on timers. *)
Lemma sat_keeps {A B} (m : M A) (k : A -> M B) own free Q :
  keeps m -> (forall a, sat (k a) (H_ own free) Q) -> sat (m ≫= k) (H_ own free) Q.
Proof.
  intros Hm Hk. apply (sat_bind _ _ _ (fun _ => H_ own free)); [|done].
  intros c a c' o HP E. unfold H_ in *. by rewrite (Hm _ _ _ _ E).
Qed.

Lemma sat_keeps_last {A} (m : M A) own free : keeps m -> sat m (H_ own free) (fun _ => H_ own []).
Proof.
  intros Hm c a c' o HP E. unfold H_ in *. rewrite (Hm _ _ _ _ E).
  apply (held_weaken own free); [done|]. intros s []%elem_of_nil.
Qed.

Lemma sat_source_remove s own free id c c' a o :
  H_ own free c -> slot_id s (tmo c) = id -> g_source_remove id c = Some (a, c', o) ->
  H_ own (s :: free) c'.
Proof.
  unfold H_, g_source_remove. intros Hh <- E.
  destruct (sources (tmo c) !! slot_id s (tmo c)) eqn:El; simplify_eq.
  - by apply held_remove.
  - apply held_no_source; auto.
Qed.

Lemma sat_remove_slot s own free : sat (remove_slot s) (H_ own free) (fun _ => H_ own (s :: free)).
Proof.
  unfold remove_slot. apply sat_get. intros id c a c' o [Hh Hid] E. unfold pwhen in E.
  destruct (Z.ltb_spec 0 id); [by eapply sat_source_remove|].
  unfold pskip in E. injection E as <- <- <-. apply held_no_source; [done|]. left. lia.
Qed.

Lemma sat_put_slot s own free :
  s ∈ free -> sat (put_slot s 0) (H_ own free) (fun _ => H_ own free).
Proof. intros Hs. apply sat_modify. intros c Hh. by apply held_put. Qed.

Lemma sat_arm_ms e s ms cb own free :
  s = slot_of cb -> s ∈ free ->
  sat (arm_ms e s ms cb) (H_ own free) (fun _ => H_ own (List.filter (fun x => bool_decide (x <> s)) free)).
Proof.
  intros -> Hs c a c' o Hh E. unfold arm_ms, timeout_start_ms in E.
  assert (Hsub : forall x, x ∈ List.filter (fun x => bool_decide (x <> slot_of cb)) free ->
                   x ∈ free /\ x <> slot_of cb).
  { intros x. rewrite list_elem_of_In, filter_In, <- list_elem_of_In, bool_decide_eq_true. done. }
  unfold mbind, pprog_bind in E. destruct (timer_ok e); cbn in E; injection E as <- <- <-; unfold H_ in *; cbn.
  - by apply (held_arm own free).
  - apply (held_weaken own free); [by apply held_put|]. intros x Hx. by apply Hsub.
Qed.

Lemma sat_arm_seconds e s secs cb own free :
  s = slot_of cb -> s ∈ free ->
  sat (arm_seconds e s secs cb) (H_ own free)
    (fun _ => H_ own (List.filter (fun x => bool_decide (x <> s)) free)).
Proof. intros Hs Hf. by apply (sat_arm_ms e s (secs * 1000)). Qed.

Lemma sat_remove_timeouts own free : sat remove_timeouts (H_ own free) (fun _ => H_ own all_slots).
Proof.
  unfold remove_timeouts.
  do 4 (eapply sat_bind; [apply sat_remove_slot|intros ?]).
  apply (sat_conseq _ _ (H_ own all_slots) _ (fun _ => H_ own all_slots)); [| |done].
  - do 3 (eapply sat_bind; [apply sat_put_slot; unfold all_slots; rewrite !elem_of_cons; tauto|intros ?]).
    apply sat_put_slot. unfold all_slots. rewrite !elem_of_cons. tauto.
  - intros c. unfold H_. intros Hh. apply (held_weaken _ _ _ _ Hh). intros s Hin.
    unfold all_slots in Hin. rewrite !elem_of_cons in Hin. rewrite !elem_of_cons.
    destruct Hin as [|[|[|[|Hin]]]]; auto 6. by apply elem_of_nil in Hin.
Qed.

Lemma sat_last {A} (m : M A) own free free' :
  sat m (H_ own free) (fun _ => H_ own free') -> sat m (H_ own free) (fun _ => H_ own []).
Proof.
  intros Hm. apply (sat_conseq _ _ _ _ _ Hm); [done|]. intros _ c Hh.
  apply (held_weaken _ _ _ _ Hh). intros s []%elem_of_nil.
Qed.
End Held.

#[export] Hint Resolve keeps_callback keeps_switch keeps_send_request keeps_send_discover
  keeps_send_release keeps_get_request keeps_incr : client_keeps.

Create HintDb client_held.

Ltac in_free := unfold all_slots; rewrite ?elem_of_cons; tauto.

(** Carry the assertion about timers through a handler. *)
Ltac held_step :=
  lazymatch goal with
  | |- sat _ (H_ _ (List.filter ?f ?l)) _ =>
      let v := eval vm_compute in (List.filter f l) in change (List.filter f l) with v
  | |- sat (if ?b then _ else _) _ _ => destruct b
  | |- sat (match ?x with _ => _ end) _ _ => destruct x
  | |- sat (let '(_, _) := ?x in _) _ _ => destruct x
  | |- sat (_ ≫= _) _ _ =>
      first
        [ apply sat_keeps; [solve [solve_keeps]|intros ?]
        | eapply sat_bind; [apply sat_remove_timeouts|intros ?]
        | eapply sat_bind; [apply sat_remove_slot|intros ?]
        | eapply sat_bind; [apply sat_arm_seconds; [reflexivity|in_free]|intros ?]
        | eapply sat_bind; [apply sat_arm_ms; [reflexivity|in_free]|intros ?]
        | eapply sat_bind; [apply sat_put_slot; in_free|intros ?]
        | eapply sat_bind; [solve [eauto with client_held]|intros ?] ]
  | |- sat _ _ _ =>
      first
        [ apply sat_keeps_last; solve [solve_keeps]
        | eapply sat_last; solve [eauto with client_held]
        | eapply sat_last; apply sat_remove_timeouts
        | eapply sat_last; apply sat_arm_seconds; [reflexivity|in_free]
        | eapply sat_last; apply sat_arm_ms; [reflexivity|in_free]
        | eapply sat_last; apply sat_put_slot; in_free ]
  end.

Ltac held_tac := cbv zeta; unfold pwhen; repeat (held_step; cbv beta).

Section HeldHandlers.
Context `{GLib}.
Implicit Types own : option Z.

Lemma held_send_announce e own free :
  sat (send_announce_packet e) (H_ own free) (fun _ => H_ own []).
Proof. unfold send_announce_packet. held_tac. Qed.

Lemma held_send_probe e own free :
  Timeout ∈ free -> sat (send_probe_packet e) (H_ own free) (fun _ => H_ own []).
Proof. intros Hf. unfold send_probe_packet. held_tac. Qed.

Lemma held_ipv4ll_start e own free : sat (ipv4ll_start e) (H_ own free) (fun _ => H_ own []).
Proof. unfold ipv4ll_start. held_tac. Qed.

Lemma held_ipv4ll_stop e own free : sat (ipv4ll_stop e) (H_ own free) (fun _ => H_ own all_slots).
Proof.
  unfold ipv4ll_stop. held_step. held_step.
  intros c u c' o Hh E. unfold set, mbind, pprog_bind, pmodify in E. cbn in E.
  injection E as <- <- <-. exact Hh.
Qed.

#[local] Hint Resolve held_send_announce held_send_probe held_ipv4ll_start held_ipv4ll_stop : client_held.

Lemma held_recv_arp e data own free : sat (ipv4ll_recv_arp_packet e data) (H_ own free) (fun _ => H_ own []).
Proof. unfold ipv4ll_recv_arp_packet. held_tac. Qed.

Lemma held_ipv4ll_announce e own free :
  Timeout ∈ free -> sat (ipv4ll_announce_timeout e) (H_ own free) (fun _ => H_ own []).
Proof. intros Hf. unfold ipv4ll_announce_timeout. held_tac. Qed.

Lemma held_ipv4ll_probe e own free :
  Timeout ∈ free -> sat (ipv4ll_probe_timeout e) (H_ own free) (fun _ => H_ own []).
Proof. intros Hf. unfold ipv4ll_probe_timeout. held_tac. Qed.

Lemma held_start_request e own free :
  Timeout ∈ free -> sat (start_request e) (H_ own free) (fun _ => H_ own []).
Proof. intros Hf. unfold start_request. held_tac. Qed.

Lemma held_client_start e last own free :
  sat (g_dhcp_client_start e last) (H_ own free) (fun _ => H_ own []).
Proof. unfold g_dhcp_client_start. held_tac. Qed.

#[local] Hint Resolve held_recv_arp held_start_request held_client_start : client_held.

Lemma held_restart e n own free : sat (restart_dhcp e n) (H_ own free) (fun _ => H_ own []).
Proof. unfold restart_dhcp. held_tac. Qed.

#[local] Hint Resolve held_restart : client_held.

Lemma held_restart_timeout e own free : sat (restart_dhcp_timeout e) (H_ own free) (fun _ => H_ own []).
Proof. unfold restart_dhcp_timeout. held_tac. Qed.

Lemma held_start_expire e own free : sat (start_expire e) (H_ own free) (fun _ => H_ own []).
Proof. unfold start_expire. held_tac. Qed.

Lemma held_start_bound e own free : sat (start_bound e) (H_ own free) (fun _ => H_ own []).
Proof. unfold start_bound. held_tac. Qed.

Lemma held_continue_renew e own free : sat (continue_renew e) (H_ own free) (fun _ => H_ own []).
Proof. unfold continue_renew. held_tac. Qed.

(** [if (t2_timeout > 0) { g_source_remove (t2_timeout); t2_timeout = 0; }] *)
Lemma held_clear_t2 id own free :
  sat (pwhen (0 <? id) (g_source_remove id;; put_slot T2_timeout 0))
    (fun c => H_ own free c /\ t2_timeout (tmo c) = id) (fun _ => H_ own (T2_timeout :: free)).
Proof.
  unfold pwhen. destruct (Z.ltb_spec 0 id) as [Hp|Hp].
  - eapply (sat_bind _ _ _ (fun _ => H_ own (T2_timeout :: free))).
    + intros c u c' o [Hh Hid] E. by eapply (sat_source_remove T2_timeout).
    + intros u. apply sat_put_slot. rewrite elem_of_cons. by left.
  - intros c u c' o [Hh Hid] E. unfold pskip in E. injection E as <- <- <-.
    apply held_no_source; [done|]. left. simpl. lia.
Qed.

Lemma held_continue_rebound e own free : sat (continue_rebound e) (H_ own free) (fun _ => H_ own []).
Proof.
  unfold continue_rebound. held_step. held_step. apply sat_get. intros id.
  eapply sat_bind; [apply held_clear_t2|intros ?]. held_tac.
Qed.

#[local] Hint Resolve held_restart_timeout held_start_expire held_start_bound held_continue_renew
  held_continue_rebound : client_held.

Lemma held_dispatch e pkt n ty b own free :
  sat (dispatch e pkt n ty b) (H_ own free) (fun _ => H_ own []).
Proof.
  unfold dispatch, on_answer, on_offer, on_ack, on_nak. held_tac;
    eapply sat_last; apply held_start_request; in_free.
Qed.

#[local] Hint Resolve held_dispatch : client_held.

Lemma held_on_packet e pkt n b own free : sat (on_packet e pkt n b) (H_ own free) (fun _ => H_ own []).
Proof. unfold on_packet. held_tac. Qed.

#[local] Hint Resolve held_on_packet : client_held.

Lemma held_listener e broken data own free :
  sat (listener_event e broken data) (H_ own free) (fun _ => H_ own []).
Proof. unfold listener_event. held_tac. Qed.

Lemma held_stop e own free : sat (g_dhcp_client_stop e) (H_ own free) (fun _ => H_ own []).
Proof. unfold g_dhcp_client_stop. held_tac. Qed.

Lemma held_decline e r own free : sat (g_dhcp_client_decline e r) (H_ own free) (fun _ => H_ own []).
Proof. unfold g_dhcp_client_decline. held_tac. Qed.

(** The function of a timer, called for the source in its field. *)
Lemma held_timer_function e cb own free :
  slot_of cb ∈ free -> sat (timer_function e cb) (H_ own free) (fun _ => H_ own []).
Proof.
  intros Hf. destruct cb; cbn [timer_function slot_of] in *.
  - unfold discover_timeout. held_tac.
  - unfold request_timeout. held_tac.
  - unfold reboot_timeout. held_tac.
  - held_tac.
  - unfold start_renew. held_tac.
  - held_tac.
  - unfold start_rebound. held_tac.
  - held_tac.
  - held_tac.
  - by apply (held_send_probe e own free).
  - by apply (held_ipv4ll_probe e own free).
  - by apply (held_ipv4ll_announce e own free).
  - unfold ipv4ll_defend_timeout. held_tac.
Qed.

Inductive reachable : GDHCPClient -> Prop :=
  | reach_new ty mac : reachable (g_dhcp_client_new ty mac)
  | reach_register ev b c : reachable c -> reachable (g_dhcp_client_register_event ev b c)
  | reach_request code c : reachable c -> reachable (g_dhcp_client_set_request code c)
  | reach_clear c : reachable c -> reachable (g_dhcp_client_clear_requests c)
  | reach_clear_values c : reachable c -> reachable (g_dhcp_client_clear_values c)
  | reach_id c : reachable c -> reachable (g_dhcp_client_set_id c)
  | reach_send code v c : reachable c -> reachable (g_dhcp_client_set_send code v c)
  | reach_event ev c u c' o : reachable c -> handle ev c = Some (u, c', o) -> reachable c'.

Lemma held_fire e id c u c' o : held c -> fire e id c = Some (u, c', o) -> held c'.
Proof.
  intros Hh E. unfold fire in E. apply pbind_inv in E as (r & c1 & o1 & o2 & Eg & E & _).
  injection Eg as <- <- <-. destruct (sources (tmo c) !! id) as [[ms cb]|] eqn:El.
  2:{ unfold pskip in E. by injection E as <- <- <-. }
  destruct (ms <=? 0). { unfold pskip in E. by injection E as <- <- <-. }
  apply pbind_inv in E as ([] & c2 & o3 & o4 & E1 & E2 & _).
  assert (Ho : H_ (Some id) [slot_of cb] c).
  { destruct Hh as [Hn Hi0 Hd Hs]. split; [done..|]. intros id' ms' cb' El'.
    destruct (Hs _ _ _ El') as [? [?|[Hi _]]]; [done|]. split; [done|].
    destruct (Hs _ _ _ El) as [_ [?|[Hid _]]]; [done|].
    destruct (decide (slot_of cb' = slot_of cb)) as [Heq|Hne]; [left; congruence|].
    right. split; [done|]. by intros ?%list_elem_of_singleton. }
  assert (Hf : H_ (Some id) [] c2).
  { eapply (held_timer_function e cb (Some id) [slot_of cb]); [|exact Ho|exact E1].
    by apply list_elem_of_singleton. }
  unfold set, pmodify in E2. injection E2 as <- <- <-. destruct Hf as [Hn Hi0 Hd Hs]. split; [done|..].
  { intros s. apply (Hi0 s). }
  { intros s s'. apply (Hd s s'). }
  intros id' ms' cb' El'. cbn in El'. apply lookup_delete_Some in El' as [Hne El'].
  destruct (Hs _ _ _ El') as [? [[= ?]|[Hi _]]]; [congruence|]. split; [done|]. right.
  split; [|apply not_elem_of_nil]. rewrite <- Hi. by destruct (slot_of cb').
Qed.

Lemma held_handle ev : sat (handle ev) (H_ None []) (fun _ => H_ None []).
Proof.
  destruct ev; cbn [handle].
  - eapply sat_bind; [apply held_client_start|]. intros ?. apply sat_skip.
  - apply held_stop.
  - apply held_decline.
  - intros c u c' o. apply held_fire.
  - apply sat_keeps; [solve_keeps|]. intros [].
    + eapply sat_bind; [apply held_listener|]. intros ?. apply sat_skip.
    + apply sat_skip.
Qed.

Lemma reachable_held c : reachable c -> held c.
Proof.
  induction 1 as [| |code c| | | |code v c|ev c u c' o Hr IH E]; try done.
  - split; [done|intros []; cbn; lia|intros [] []; cbn; done|].
    intros id ms cb E. cbn in E. by rewrite lookup_empty in E.
  - unfold g_dhcp_client_set_request. by destruct (existsb _ _).
  - unfold g_dhcp_client_set_send. by destruct (_ || _).
  - exact (held_handle ev c u c' o IH E).
Qed.

End HeldHandlers.

(** ** Running handlers *)

Definition is_warning (o : output) : Prop := match o with SourceNotFound _ => True | _ => False end.

Section Runs.
Context `{GLib}.

Lemma remove_slot_run s c :
  (forall id, is_Some (sources (tmo c) !! id) -> 0 < id) ->
  exists o, remove_slot s c =
      Some (tt, set_tmo (set_sources (delete (slot_id s (tmo c)) (sources (tmo c))) (tmo c)) c, o) /\
    Forall is_warning o.
Proof.
  intros Hp. unfold remove_slot, pwhen, g_source_remove, mbind, pprog_bind, pget. cbv beta iota.
  assert (Hno : sources (tmo c) !! slot_id s (tmo c) = None ->
    set_tmo (set_sources (delete (slot_id s (tmo c)) (sources (tmo c))) (tmo c)) c = c).
  { intros E. rewrite delete_id by done. by destruct c as [? ? ? ? ? ? ? ? ? ? ? ? ? ? ? ? ? ? ? ? ? ? ? ? ? ? []]. }
  destruct (Z.ltb_spec 0 (slot_id s (tmo c))) as [Hl|Hl].
  - destruct (sources (tmo c) !! slot_id s (tmo c)) eqn:E.
    + exists []. split; [done|constructor].
    + exists [SourceNotFound (slot_id s (tmo c))]. rewrite Hno by done. split; [done|]. by repeat constructor.
  - exists []. rewrite Hno; [split; [done|constructor]|].
    destruct (sources (tmo c) !! slot_id s (tmo c)) eqn:E; [|done].
    assert (0 < slot_id s (tmo c)) by (apply Hp; by rewrite E). lia.
Qed.

(** The timers after [remove_timeouts]. *)
Definition cleared (t : timeouts) : timeouts :=
  mk_timeouts 0 0 0 0
    (delete (lease_timeout t) (delete (t2_timeout t) (delete (t1_timeout t)
      (delete (timeout t) (sources t))))) (next_id t).

Lemma pbind_run {A B} (m : M A) (k : A -> M B) c a c1 o1 b c2 o2 :
  m c = Some (a, c1, o1) -> k a c1 = Some (b, c2, o2) -> (m ≫= k) c = Some (b, c2, o1 ++ o2).
Proof. apply bind_run. Qed.

Lemma remove_timeouts_run c :
  (forall id, is_Some (sources (tmo c) !! id) -> 0 < id) ->
  exists o, remove_timeouts c = Some (tt, set_tmo (cleared (tmo c)) c, o) /\ Forall is_warning o.
Proof.
  intros Hp. unfold remove_timeouts.
  destruct (remove_slot_run Timeout c Hp) as (o1 & E1 & W1).
  assert (Hd : forall (m : gmap Z (Z * timer_cb)) x id, is_Some (delete x m !! id) -> is_Some (m !! id)).
  { intros m x id [v Hv]. apply lookup_delete_Some in Hv as [_ Hv]. by exists v. }
  edestruct (remove_slot_run T1_timeout) as (o2 & E2 & W2); [|
  edestruct (remove_slot_run T2_timeout) as (o3 & E3 & W3); [|
  edestruct (remove_slot_run Lease_timeout) as (o4 & E4 & W4); [|
    exists (o1 ++ o2 ++ o3 ++ o4); split]]].
  4:{ eapply pbind_run; [exact E1|]. eapply pbind_run; [exact E2|]. eapply pbind_run; [exact E3|].
      erewrite pbind_run; [|exact E4|reflexivity]. by rewrite app_nil_r. }
  all: cbn; try (intros id Hid; apply Hp; eauto).
  rewrite !Forall_app. auto.
Qed.

Lemma held_positive own free t : held_but own free t -> forall id, is_Some (sources t !! id) -> 0 < id.
Proof. intros [_ _ _ Hs] id [[ms cb] E]. by destruct (Hs _ _ _ E) as [[? _] _]. Qed.

Lemma cleared_empty t : held_but None [] t -> sources (cleared t) = ∅.
Proof.
  intros [_ _ _ Hs]. apply map_empty. intros id. cbn. rewrite !lookup_delete_None.
  destruct (sources t !! id) as [[ms cb]|] eqn:E; [|by auto].
  destruct (Hs _ _ _ E) as [_ [?|[Hi _]]]; [done|]. destruct (slot_of cb); cbn in Hi; auto.
Qed.

(** The client with its socket closed. *)
Definition closed (c : GDHCPClient) : GDHCPClient :=
  if decide (listen_mode c = L_NONE) then c
  else set_listener_sockfd (-1) (set_listen_mode L_NONE (set_listener_watch false c)).

Lemma switch_none_run e c : switch_listening_mode e L_NONE c = Some (0, closed c, []).
Proof.
  unfold switch_listening_mode, closed, mbind, pprog_bind, pget. cbv beta iota.
  destruct (decide (listen_mode c = L_NONE)) as [|Hn]; [done|].
  by rewrite bool_decide_eq_true_2 by done.
Qed.

Lemma release_packet_run e c server ciaddr : exists pkt, release_packet e c server ciaddr = Some pkt.
Proof.
  unfold release_packet, init_packet.
  destruct (dhcp_init_header_holds DHCPRELEASE) as (p0 & -> & Hh & _).
  cbv beta iota zeta delta [mbind option_bind].
  edestruct (add_option_uint32_holds (set_field32 off_ciaddr ciaddr
    (wr off_xid (le_bytes32 (random e)) (wr off_chaddr (take 6 (mac_address c)) p0)))
    [(DHCP_MESSAGE_TYPE, [DHCPRELEASE])] DHCP_SERVER_ID server) as (p1 & -> & _); eauto; try done.
  apply holds_wr; [cbv; lia|]. apply holds_wr; [cbv; lia|]. apply holds_wr; [|done].
  pose proof (firstn_le_length 6 (mac_address c)). unfold off_chaddr, off_options. lia.
Qed.

(** C7: No timer outlives its client.  In every reachable state each pending
    timer is the one held by the field its function belongs to, so there is at
    most one of a kind; and stopping the client, which always returns, leaves no
    timer, no socket and no watch behind. *)
Theorem client_timers_held c :
  reachable c ->
  (forall id ms cb, sources (tmo c) !! id = Some (ms, cb) -> slot_id (slot_of cb) (tmo c) = id) /\
  (forall e, exists c' o, g_dhcp_client_stop e c = Some (tt, c', o) /\
    sources (tmo c') = ∅ /\ state c' = RELEASED /\ listen_mode c' = L_NONE /\
    listener_watch c' = false).
Proof.
  intros Hr. pose proof (reachable_held c Hr) as Hh. split.
  { intros id ms cb E. by destruct (held_source _ _ _ Hh _ _ _ E) as [_ [?|[? _]]]. }
  intros e. unfold g_dhcp_client_stop.
  assert (Hc : held (closed c)) by (unfold closed; by case_decide).
  destruct (release_packet_run e (closed c) (server_ip (closed c)) (requested_ip (closed c))) as [pkt Ep].
  destruct (remove_timeouts_run (closed c)) as (o & E & _); [by eapply held_positive|].
  assert (Hm : listen_mode (closed c) = L_NONE) by (unfold closed; by case_decide).
  destruct (is_state BOUND (closed c) || is_state RENEWING (closed c) || is_state REBINDING (closed c)) eqn:Eb.
  all: do 2 eexists; split;
    [eapply pbind_run; [apply switch_none_run|];
     eapply pbind_run; [reflexivity|]; unfold pwhen; cbv beta; cbn [id]; rewrite Eb;
     eapply pbind_run; [first [reflexivity|unfold send_release, mbind, pprog_bind, pget, plift; cbn [id]; rewrite Ep; reflexivity]|];
     eapply pbind_run; [exact E|]; reflexivity|].
  all: split; [apply (cleared_empty _ Hc)|]; done.
Qed.

End Runs.

(** ** Leases expire

    A client of type IPv4 is in one of three phases: it holds a lease and the
    timer of its expiry is pending; it was refused and waits to start over; or
    its state is none of a lease. *)

Definition v4_cb (cb : timer_cb) : bool :=
  match cb with
  | Send_probe_packet | Ipv4ll_probe_timeout | Ipv4ll_announce_timeout | Ipv4ll_defend_timeout => false
  | _ => true
  end.

Record plain (c : GDHCPClient) : Prop := {
  plain_type : type_ c = G_DHCP_IPV4;
  plain_mode : listen_mode c <> L_ARP;
  plain_cb id ms cb : sources (tmo c) !! id = Some (ms, cb) -> v4_cb cb = true;
}.

Definition in_lease (s : ClientState) : Prop := s = BOUND \/ s = RENEWING \/ s = REBINDING.

(** The assertion about the timers, with one about the state and the retries. *)
Definition S_ (own : option Z) (free : list slot) (st : ClientState -> Prop) (r : Z -> Prop)
    (c : GDHCPClient) : Prop :=
  H_ own free c /\ plain c /\ st (state c) /\ r (retry_times c).

(** Handlers that leave alone what the phases depend on. *)
Record quiet_step (c c' : GDHCPClient) : Prop := {
  quiet_tmo : tmo c' = tmo c;
  quiet_state : state c' = state c;
  quiet_retry : retry_times c' = retry_times c;
  quiet_type : type_ c' = type_ c;
  quiet_expire : expire c' = expire c;
  quiet_mode : listen_mode c <> L_ARP -> listen_mode c' <> L_ARP;
}.

Definition quiet {A} (m : M A) : Prop := forall c a c' o, m c = Some (a, c', o) -> quiet_step c c'.

Lemma quiet_step_refl c : quiet_step c c.
Proof. by split. Qed.

Lemma quiet_step_trans c c1 c' : quiet_step c c1 -> quiet_step c1 c' -> quiet_step c c'.
Proof. intros [] []. split; try congruence. auto. Qed.

Lemma quiet_bind {A B} (m : M A) (k : A -> M B) :
  quiet m -> (forall a, quiet (k a)) -> quiet (m ≫= k).
Proof.
  intros Hm Hk c b c' o E. apply pbind_inv in E as (a & c1 & o1 & o2 & E1 & E2 & _).
  eapply quiet_step_trans; [by eapply Hm|by eapply Hk].
Qed.

Lemma quiet_set f : (forall c, quiet_step c (f c)) -> quiet (set f).
Proof. intros Hf c a c' o [= <- <- _]. apply Hf. Qed.

Lemma quiet_ret {A} (a : A) : quiet (mret a).
Proof. intros c b c' o [= <- <- _]. by split. Qed.

Lemma quiet_get {A} (f : GDHCPClient -> A) : quiet (pget f).
Proof. intros c b c' o [= <- <- _]. by split. Qed.

Lemma quiet_emit x : quiet (pemit x).
Proof. intros c b c' o [= <- <- _]. by split. Qed.

Lemma quiet_lift {A} (r : option A) : quiet (plift r).
Proof. intros c b c' o E. unfold plift in E. destruct r; simplify_eq. by split. Qed.

Create HintDb client_quiet.

#[export] Hint Resolve quiet_ret quiet_get quiet_emit quiet_lift : client_quiet.

Ltac solve_quiet :=
  unfold pwhen, pskip;
  repeat first
    [ solve [eauto 2 with client_quiet]
    | lazymatch goal with
      | |- quiet (_ ≫= _) => apply quiet_bind; [|intros ?]
      | |- quiet (set _) => apply quiet_set; intros ?; split; (reflexivity || done)
      | |- quiet (if ?b then _ else _) => destruct b
      | |- quiet (match ?x with _ => _ end) => destruct x
      end ].

Section Phases.
Context `{GLib}.

Lemma quiet_callback ev : quiet (callback ev).
Proof. unfold callback. solve_quiet. Qed.

Lemma quiet_switch e m : m <> L_ARP -> quiet (switch_listening_mode e m).
Proof.
  intros Hm. unfold switch_listening_mode. apply quiet_bind; [apply quiet_get|]. intros old.
  destruct (decide (old = m)); [apply quiet_ret|]. apply quiet_bind.
  { unfold pwhen. destruct (bool_decide _); [|solve_quiet]. solve_quiet. }
  intros _. destruct (decide (m = L_NONE)); [apply quiet_ret|].
  destruct (sock e <? 0); [apply quiet_ret|]. destruct (negb (channel_ok e)); [apply quiet_ret|].
  solve_quiet.
Qed.

Lemma quiet_send_request e : quiet (send_request e).
Proof. unfold send_request. solve_quiet. Qed.

Lemma quiet_send_discover e r : quiet (send_discover e r).
Proof. unfold send_discover. solve_quiet. Qed.

Lemma quiet_send_release e a b : quiet (send_release e a b).
Proof. unfold send_release. solve_quiet. Qed.

Lemma quiet_get_request p n : quiet (get_request p n).
Proof. unfold get_request. solve_quiet. Qed.

Lemma quiet_switch_none e : quiet (switch_listening_mode e L_NONE).
Proof. by apply quiet_switch. Qed.

Lemma quiet_switch_l2 e : quiet (switch_listening_mode e L2).
Proof. by apply quiet_switch. Qed.

Lemma quiet_switch_l3 e : quiet (switch_listening_mode e L3).
Proof. by apply quiet_switch. Qed.

Lemma plain_quiet c c' : quiet_step c c' -> plain c -> plain c'.
Proof.
  intros [Et Es Er Ety Ex Hm] [H1 H2 H3]. split; [congruence|auto|]. rewrite Et. done.
Qed.

Lemma S_quiet own free st r c c' : quiet_step c c' -> S_ own free st r c -> S_ own free st r c'.
Proof.
  intros Hq (Hh & Hp & Hs & Hr). pose proof (plain_quiet _ _ Hq Hp). destruct Hq as [Et Es Er _ _ _].
  unfold S_, H_ in *. rewrite Et, Es, Er. done.
Qed.

Lemma s_quiet {A B} (m : M A) (k : A -> M B) own free st r Q :
  quiet m -> (forall a, sat (k a) (S_ own free st r) Q) -> sat (m ≫= k) (S_ own free st r) Q.
Proof.
  intros Hm Hk. apply (sat_bind _ _ _ (fun _ => S_ own free st r)); [|done].
  intros c a c' o HP E. eapply S_quiet; [by eapply Hm|done].
Qed.

Lemma s_quiet_last {A} (m : M A) own free st r :
  quiet m -> sat m (S_ own free st r) (fun _ => S_ own free st r).
Proof. intros Hm c a c' o HP E. eapply S_quiet; [by eapply Hm|done]. Qed.

Lemma s_set_state s own free st r :
  sat (set (set_state s)) (S_ own free st r) (fun _ => S_ own free (eq s) r).
Proof. apply sat_modify. intros c (Hh & [? ? ?] & _ & Hr). unfold S_. split_and!; [done|by split|done..]. Qed.

Lemma s_set_retry n own free st r :
  sat (set (set_retry_times n)) (S_ own free st r) (fun _ => S_ own free st (eq n)).
Proof. apply sat_modify. intros c (Hh & [? ? ?] & Hs & _). unfold S_. split_and!; [done|by split|done..]. Qed.

Lemma s_incr own free st r :
  sat incr_retry_times (S_ own free st r) (fun _ => S_ own free st (fun _ => True)).
Proof. apply sat_modify. intros c (Hh & [? ? ?] & Hs & _). unfold S_. split_and!; [done|by split|done..]. Qed.

(** Handlers that change timers only, arming none but those of DHCP. *)
Lemma s_timers {A} (m : M A) own free free' st r :
  sat m (H_ own free) (fun _ => H_ own free') ->
  (forall c a c' o, m c = Some (a, c', o) -> plain c -> plain c' /\ state c' = state c /\ retry_times c' = retry_times c) ->
  sat m (S_ own free st r) (fun _ => S_ own free' st r).
Proof.
  intros Hm Hk c a c' o (Hh & Hp & Hs & Hr) E. destruct (Hk _ _ _ _ E Hp) as (Hp' & Es & Er).
  split; [by eapply Hm|]. rewrite Es, Er. done.
Qed.

Lemma plain_tmo t c : (forall id ms cb, sources t !! id = Some (ms, cb) -> v4_cb cb = true) ->
  plain c -> plain (set_tmo t c).
Proof. intros Ht [? ? ?]. by split. Qed.

Lemma s_arm_ms e s ms cb own free st r :
  s = slot_of cb -> s ∈ free -> v4_cb cb = true ->
  sat (arm_ms e s ms cb) (S_ own free st r)
    (fun _ => S_ own (List.filter (fun x => bool_decide (x <> s)) free) st r).
Proof.
  intros Hs Hf Hv. apply s_timers; [by apply sat_arm_ms|]. intros c a c' o E [Hty Hmo Hcb].
  unfold arm_ms, timeout_start_ms, mbind, pprog_bind in E.
  destruct (timer_ok e); cbn in E; injection E as <- <- <-; (split; [|done]);
    (split; [done..|]); cbn; intros id ms' cb'; rewrite sources_set_slot; [|by apply Hcb].
  cbn [sources]. intros [[<- [= <- <-]]|[_ E]]%lookup_insert_Some; [done|by eapply Hcb].
Qed.

Lemma s_arm_seconds e s secs cb own free st r :
  s = slot_of cb -> s ∈ free -> v4_cb cb = true ->
  sat (arm_seconds e s secs cb) (S_ own free st r)
    (fun _ => S_ own (List.filter (fun x => bool_decide (x <> s)) free) st r).
Proof. intros Hs Hf Hv. by apply (s_arm_ms e s (secs * 1000)). Qed.

(** Removing timers. *)
Definition tame {A} (m : M A) : Prop := forall c a c' o, m c = Some (a, c', o) ->
  plain c -> plain c' /\ state c' = state c /\ retry_times c' = retry_times c.

Lemma tame_bind {A B} (m : M A) (k : A -> M B) : tame m -> (forall a, tame (k a)) -> tame (m ≫= k).
Proof.
  intros Hm Hk c b c' o E Hp. apply pbind_inv in E as (a & c1 & o1 & o2 & E1 & E2 & _).
  destruct (Hm _ _ _ _ E1 Hp) as (Hp1 & Es & Er). destruct (Hk _ _ _ _ _ E2 Hp1) as (? & ? & ?).
  split; [done|]. split; congruence.
Qed.

Lemma tame_remove_slot s : tame (remove_slot s).
Proof.
  intros c a c' o E Hp. unfold remove_slot, pwhen, g_source_remove, mbind, pprog_bind, pget in E.
  destruct (0 <? slot_id s (tmo c)); [|by injection E as <- <- <-].
  destruct (sources (tmo c) !! slot_id s (tmo c)); injection E as <- <- <-; [|done].
  split; [|done]. apply plain_tmo; [|done]. intros id ms cb E. cbn in E.
  apply lookup_delete_Some in E as [_ E]. by eapply plain_cb.
Qed.

Lemma tame_put_slot s v : tame (put_slot s v).
Proof.
  intros c a c' o [= <- <- <-] Hp. split; [|done]. apply plain_tmo; [|done]. intros id ms cb.
  rewrite sources_set_slot. apply (plain_cb _ Hp).
Qed.

Lemma s_remove_slot s own free st r :
  sat (remove_slot s) (S_ own free st r) (fun _ => S_ own (s :: free) st r).
Proof. apply s_timers; [apply sat_remove_slot|apply tame_remove_slot]. Qed.

Lemma s_put_slot s own free st r :
  s ∈ free -> sat (put_slot s 0) (S_ own free st r) (fun _ => S_ own free st r).
Proof. intros Hs. apply s_timers; [by apply sat_put_slot|apply tame_put_slot]. Qed.

Lemma s_remove_timeouts own free st r :
  sat remove_timeouts (S_ own free st r) (fun _ => S_ own all_slots st r).
Proof.
  apply s_timers; [apply sat_remove_timeouts|]. unfold remove_timeouts.
  repeat (apply tame_bind; [first [apply tame_remove_slot|apply tame_put_slot]|intros ?]).
  apply tame_put_slot.
Qed.

(** Weakening. *)
Lemma S_weaken own free free' (st st' : ClientState -> Prop) (r r' : Z -> Prop) c :
  S_ own free st r c -> (forall s, s ∈ free' -> s ∈ free) ->
  (forall s, st s -> st' s) -> (forall n, r n -> r' n) -> S_ own free' st' r' c.
Proof.
  intros (Hh & Hp & Hs & Hr) Hf Hst Hrr. unfold S_. split_and!; auto. by eapply held_weaken.
Qed.

End Phases.

#[export] Hint Resolve quiet_callback quiet_send_request quiet_send_discover quiet_send_release
  quiet_get_request quiet_switch_none quiet_switch_l2 quiet_switch_l3 : client_quiet.

(** The fields no lease timer is pending in. *)
Definition lease_slots : list slot := [T1_timeout; T2_timeout; Lease_timeout].

Ltac in_slots := unfold all_slots, lease_slots; rewrite ?elem_of_cons; tauto.

(** Carry the assertion about phases through a handler; the last step is left
    to a weakening. *)
Ltac s_step :=
  lazymatch goal with
  | |- sat _ (S_ _ (List.filter ?f ?l) _ _) _ =>
      let v := eval vm_compute in (List.filter f l) in change (List.filter f l) with v
  | |- sat (if ?b then _ else _) _ _ => destruct b
  | |- sat (match ?x with _ => _ end) _ _ => destruct x
  | |- sat (?m ≫= _) _ _ =>
      lazymatch m with
      | set (set_state _) => eapply sat_bind; [apply s_set_state|intros ?]
      | set (set_retry_times _) => eapply sat_bind; [apply s_set_retry|intros ?]
      | incr_retry_times => eapply sat_bind; [apply s_incr|intros ?]
      | remove_timeouts => eapply sat_bind; [apply s_remove_timeouts|intros ?]
      | remove_slot _ => eapply sat_bind; [apply s_remove_slot|intros ?]
      | put_slot _ _ => eapply sat_bind; [apply s_put_slot; in_slots|intros ?]
      | arm_seconds _ _ _ _ =>
          eapply sat_bind; [apply s_arm_seconds; [reflexivity|in_slots|reflexivity]|intros ?]
      | arm_ms _ _ _ _ =>
          eapply sat_bind; [apply s_arm_ms; [reflexivity|in_slots|reflexivity]|intros ?]
      | _ => apply s_quiet; [solve [solve_quiet]|intros ?]
      end
  end.

Ltac s_end :=
  lazymatch goal with
  | |- sat (set (set_retry_times _)) _ _ => apply s_set_retry
  | |- sat (set (set_state _)) _ _ => apply s_set_state
  | |- sat (arm_seconds _ _ _ _) _ _ => apply s_arm_seconds; [reflexivity|in_slots|reflexivity]
  | |- sat (arm_ms _ _ _ _) _ _ => apply s_arm_ms; [reflexivity|in_slots|reflexivity]
  | |- sat (remove_slot _) _ _ => apply s_remove_slot
  | |- _ => apply s_quiet_last; solve [solve_quiet]
  end.

(** Weakening to the assertion of the goal. *)
Ltac s_weaken :=
  intros; cbv beta in *;
  try match goal with
  | H : S_ _ (List.filter ?f ?l) _ _ _ |- _ =>
      let v := eval vm_compute in (List.filter f l) in change (List.filter f l) with v in H
  end;
  eapply S_weaken;
  [ eassumption
  | let x := fresh in intros x; in_slots
  | intros ? ?; subst; unfold in_lease in *; first [done|intuition congruence]
  | intros ? ?; subst; first [done|lia] ].

Ltac s_close := eapply sat_post; [s_end|s_weaken].

Ltac s_tac := unfold pwhen; cbv zeta; repeat (s_step; cbv beta); try s_close.

Section Leases.
Context `{GLib}.
Implicit Types own : option Z.

(** The phase without lease. *)
Definition idle (own : option Z) : GDHCPClient -> Prop :=
  S_ own lease_slots (fun s => ~ in_lease s) (fun _ => True).

Lemma idle_start_request e own :
  sat (start_request e) (S_ own all_slots (fun s => ~ in_lease s) (fun _ => True)) (fun _ => idle own).
Proof.
  unfold start_request, idle. s_step. s_step; [s_close|].
  eapply (sat_bind _ _ _ (fun _ => S_ own all_slots (fun s => ~ in_lease s) (fun _ => True))).
  - s_tac.
  - intros ?. s_tac.
Qed.

Lemma idle_client_start e last own free :
  sat (g_dhcp_client_start e last)
    (fun c => S_ own free (fun _ => True) (fun _ => True) c /\ (in_lease (state c) -> retry_times c = 0))
    (fun _ => idle own).
Proof.
  unfold g_dhcp_client_start, idle. apply sat_get. intros oldstate.
  eapply (sat_bind _ _ _ (fun _ c => S_ own all_slots (fun _ => True) (fun _ => True) c /\
    (in_lease (state c) -> retry_times c = 0))).
  { intros c a c' o [[Hc Hr] _] E. split; [by eapply s_remove_timeouts|].
    destruct Hc as (Hh & Hp & _). 
    assert (Ht : tame remove_timeouts).
    { unfold remove_timeouts.
      repeat (apply tame_bind; [first [apply tame_remove_slot|apply tame_put_slot]|intros ?]).
      apply tame_put_slot. }
    destruct (Ht _ _ _ _ E Hp) as (_ & -> & ->). done. }
  intros ?. apply sat_get. intros c0.
  apply (sat_conseq _ _ (fun c => S_ own all_slots (fun s => in_lease s -> retry_times c0 = 0) (fun _ => True) c
      /\ type_ c0 = G_DHCP_IPV4) _ (fun _ => idle own)); [|
    intros c [[(Hh & Hp & _) Hr] <-]; split; [by split_and!|apply Hp]|done].
  apply sat_pure. intros Hty. unfold is_type_ll. rewrite Hty.
  assert (Hno : retry_times c0 <> 0 -> forall c,
    S_ own all_slots (fun s => in_lease s -> retry_times c0 = 0) (fun _ => True) c ->
    S_ own all_slots (fun s => ~ in_lease s) (fun _ => True) c).
  { intros Hne c Hc. eapply S_weaken; [exact Hc|done| |done]. intros s Hs Hl. auto. }
  destruct (Z.eqb_spec (retry_times c0) DISCOVER_RETRIES) as [E6|_].
  { eapply sat_pre; [|apply Hno; rewrite E6; done]. s_tac. }
  apply (sat_bind _ _ _ (fun _ => S_ own all_slots (fun s => ~ in_lease s) (fun _ => True))).
  { destruct (Z.eqb_spec (retry_times c0) 0); [s_tac|]. eapply sat_pre; [|by apply Hno]. s_close. }
  intros re. s_tac.
Qed.

Lemma idle_restart e n own free st r : sat (restart_dhcp e n) (S_ own free st r) (fun _ => idle own).
Proof.
  unfold restart_dhcp. do 5 s_step. apply s_quiet; [solve_quiet|]. intros last. eapply sat_bind.
  - eapply sat_pre; [apply (idle_client_start e last own all_slots)|]. cbv beta. intros c Hc. split; [s_weaken|].
    destruct Hc as (_ & _ & <- & _). unfold in_lease. intuition congruence.
  - intros ?. apply sat_skip.
Qed.

Lemma idle_restart_timeout e own free st r :
  sat (restart_dhcp_timeout e) (S_ own free st r) (fun _ => idle own).
Proof.
  unfold restart_dhcp_timeout. s_step. s_step; repeat s_step; apply idle_restart.
Qed.

Lemma idle_start_expire e own free st r :
  sat (start_expire e) (S_ own free st r) (fun _ => idle own).
Proof.
  unfold start_expire. s_step. eapply sat_bind; [apply idle_restart|]. intros ?. unfold idle. s_close.
Qed.

Lemma idle_discover_timeout e own free r :
  sat (discover_timeout e) (S_ own free (fun s => ~ in_lease s) r) (fun _ => idle own).
Proof.
  unfold discover_timeout. s_step. eapply sat_bind; [|intros ?; apply sat_skip].
  eapply sat_pre; [apply (idle_client_start e None own free)|]. intros c Hc. split; [s_weaken|].
  destruct Hc as (_ & _ & Hs & _). done.
Qed.

Lemma idle_reboot_timeout e own free st r :
  sat (reboot_timeout e) (S_ own free st r) (fun _ => idle own).
Proof.
  unfold reboot_timeout. do 3 s_step. eapply sat_bind; [|intros ?; apply sat_skip].
  eapply sat_pre; [apply (idle_client_start e None own free)|]. intros c Hc. split; [s_weaken|].
  destruct Hc as (_ & _ & <- & _). unfold in_lease. intuition congruence.
Qed.

Lemma idle_request_timeout e own free r :
  Timeout ∈ free ->
  sat (request_timeout e) (S_ own (lease_slots ++ free) (fun s => ~ in_lease s) r) (fun _ => idle own).
Proof.
  intros Hf. unfold request_timeout. s_step. eapply sat_pre; [apply idle_start_request|].
  intros c Hc. eapply S_weaken; [exact Hc| |done|done]. intros s. unfold all_slots, lease_slots.
  rewrite !elem_of_cons, elem_of_app, !elem_of_cons. intros [->|[->|[->|[->|Hn]]]]; auto.
Qed.

Lemma idle_stop e own free st r : sat (g_dhcp_client_stop e) (S_ own free st r) (fun _ => idle own).
Proof. unfold g_dhcp_client_stop, idle. s_tac. Qed.

Lemma idle_on_offer e pkt n b own free r :
  sat (on_offer e pkt n b) (S_ own free (eq INIT_SELECTING) r) (fun _ => idle own).
Proof.
  unfold on_offer. do 4 s_step. s_step.
  - do 5 s_step. eapply sat_pre; [apply idle_start_request|]. s_weaken.
  - unfold idle. s_close.
Qed.

(** ** The timer of the lease *)

(** It is pending in source [l]. *)
Definition pending_lease (l : Z) (c : GDHCPClient) : Prop :=
  lease_timeout (tmo c) = l /\ sources (tmo c) !! l = Some (expire c * 1000, Start_expire).

Definition B_ (l : Z) (own : option Z) (free : list slot) (c : GDHCPClient) : Prop :=
  S_ own free (fun _ => True) (eq 0) c /\ pending_lease l c.

Lemma b_intro {A} (m : M A) l own free free' :
  sat m (S_ own free (fun _ => True) (eq 0)) (fun _ => S_ own free' (fun _ => True) (eq 0)) ->
  (forall c a c' o, m c = Some (a, c', o) -> H_ own free c -> pending_lease l c -> pending_lease l c') ->
  sat m (B_ l own free) (fun _ => B_ l own free').
Proof.
  intros Hm Hl c a c' o [Hs Hp] E. split; [by eapply Hm|]. eapply Hl; eauto. apply Hs.
Qed.

Lemma b_quiet {A} (m : M A) l own free : quiet m -> sat m (B_ l own free) (fun _ => B_ l own free).
Proof.
  intros Hq. apply b_intro; [by apply s_quiet_last|]. intros c a c' o E _ [H1 H2].
  destruct (Hq _ _ _ _ E) as [Et _ _ _ Ex _]. unfold pending_lease. by rewrite Et, Ex.
Qed.

Lemma b_set_state s l own free : sat (set (set_state s)) (B_ l own free) (fun _ => B_ l own free).
Proof.
  apply b_intro; [|by intros c a c' o [= <- <- <-]].
  eapply sat_post; [apply s_set_state|s_weaken].
Qed.

(** Another field does not hold the source of the lease. *)
Lemma other_slot own free s l c :
  H_ own free c -> pending_lease l c -> s <> Lease_timeout -> slot_id s (tmo c) <> l.
Proof.
  intros [Hn Hi Hd Hs] [Hl El] Hne E. destruct (Hs _ _ _ El) as [Hpos _].
  apply (Hd s Lease_timeout Hne); [lia|]. cbn. congruence.
Qed.

Lemma b_remove_slot s l own free :
  s <> Lease_timeout -> sat (remove_slot s) (B_ l own free) (fun _ => B_ l own (s :: free)).
Proof.
  intros Hne. apply b_intro; [apply s_remove_slot|]. intros c a c' o E Hh Hp.
  pose proof (other_slot _ _ _ _ _ Hh Hp Hne) as Hid.
  unfold remove_slot, pwhen, g_source_remove, mbind, pprog_bind, pget in E.
  destruct (0 <? slot_id s (tmo c)); [|by injection E as <- <- <-].
  destruct (sources (tmo c) !! slot_id s (tmo c)); injection E as <- <- <-; [|done].
  destruct Hp as [H1 H2]. split; [done|]. cbn. by rewrite lookup_delete_ne.
Qed.

Lemma b_put_slot s l own free :
  s <> Lease_timeout -> s ∈ free -> sat (put_slot s 0) (B_ l own free) (fun _ => B_ l own free).
Proof.
  intros Hne Hf. apply b_intro; [by apply s_put_slot|]. intros c a c' o [= <- <- <-] Hh [H1 H2].
  unfold pending_lease, upd_tmo. cbn. rewrite sources_set_slot. split; [|done]. by destruct s.
Qed.

Lemma b_arm_ms e s ms cb l own free :
  s = slot_of cb -> s <> Lease_timeout -> s ∈ free -> v4_cb cb = true ->
  sat (arm_ms e s ms cb) (B_ l own free)
    (fun _ => B_ l own (List.filter (fun x => bool_decide (x <> s)) free)).
Proof.
  intros Hs Hne Hf Hv. apply b_intro; [by apply s_arm_ms|]. intros c a c' o E Hh [H1 H2].
  pose proof (held_source _ _ _ Hh _ _ _ H2) as [Hlt _].
  unfold arm_ms, timeout_start_ms, mbind, pprog_bind in E.
  destruct (timer_ok e); cbn in E; injection E as <- <- <-; unfold pending_lease; cbn;
    rewrite sources_set_slot; (split; [destruct s; done|]); [|done].
  cbn [sources]. by rewrite lookup_insert_ne by lia.
Qed.

Lemma b_weaken l own free free' c :
  B_ l own free c -> (forall s, s ∈ free' -> s ∈ free) -> B_ l own free' c.
Proof. intros [Hs Hp] Hf. split; [|done]. by eapply S_weaken. Qed.

Lemma b_retransmit e s ms cb (b : bool) l own free :
  s = slot_of cb -> s = T1_timeout \/ s = T2_timeout -> s ∈ free -> Timeout ∈ free -> v4_cb cb = true ->
  sat (pwhen b (arm_ms e s ms cb)) (B_ l own free) (fun _ => B_ l own [Timeout]).
Proof.
  intros Hs Ht Hf Hm Hv. unfold pwhen. destruct b.
  - eapply sat_post; [apply b_arm_ms; auto; destruct Ht; congruence|]. intros ? c Hc.
    eapply b_weaken; [exact Hc|]. intros s' ->%list_elem_of_singleton.
    rewrite list_elem_of_In, filter_In, <- list_elem_of_In, bool_decide_eq_true.
    split; [done|]. destruct Ht; congruence.
  - eapply sat_post; [apply sat_skip|]. intros ? c Hc. eapply b_weaken; [exact Hc|].
    by intros s' ->%list_elem_of_singleton.
Qed.

Lemma bound_continue_renew e l own free :
  Timeout ∈ free -> sat (continue_renew e) (B_ l own free) (fun _ => B_ l own [Timeout]).
Proof.
  intros Hf. unfold continue_renew.
  eapply sat_bind; [apply b_quiet, quiet_switch_l3|intros ?].
  eapply sat_bind; [apply b_quiet, quiet_send_request|intros ?].
  eapply sat_bind; [by apply b_remove_slot|intros ?].
  eapply sat_bind; [apply b_put_slot; [done|rewrite elem_of_cons; by left]|intros ?].
  eapply sat_bind; [apply b_quiet; solve_quiet|intros ?].
  eapply sat_bind; [apply b_quiet; solve_quiet|intros t].
  apply b_retransmit; auto; rewrite elem_of_cons; auto.
Qed.

Lemma bound_start_renew e l own free :
  Timeout ∈ free -> sat (start_renew e) (B_ l own free) (fun _ => B_ l own [Timeout]).
Proof.
  intros Hf. unfold start_renew. eapply sat_bind; [apply b_set_state|intros ?].
  eapply sat_bind; [apply b_quiet; solve_quiet|intros ?]. by apply bound_continue_renew.
Qed.

Lemma bound_continue_rebound e l own free :
  Timeout ∈ free -> sat (continue_rebound e) (B_ l own free) (fun _ => B_ l own [Timeout]).
Proof.
  intros Hf. unfold continue_rebound.
  eapply sat_bind; [apply b_quiet, quiet_switch_l2|intros ?].
  eapply sat_bind; [apply b_quiet, quiet_send_request|intros ?].
  apply sat_get. intros id.
  eapply (sat_bind _ _ _ (fun _ => B_ l own (T2_timeout :: free))).
  { destruct (0 <? id) eqn:E; unfold pwhen.
    - eapply (sat_bind _ _ _ (fun _ => B_ l own (T2_timeout :: free))).
      + intros c u c' o [Hc Hid] E2. apply (b_remove_slot T2_timeout l own free) with c u o; [done|done|].
        unfold remove_slot, pwhen, mbind, pprog_bind, pget. cbn. rewrite Hid, E.
        by destruct (g_source_remove id c) as [[[? ?] ?]|]; simplify_eq.
      + intros ?. apply b_put_slot; [done|]. rewrite elem_of_cons. by left.
    - intros c u c' o [Hc Hid] E2. apply (b_remove_slot T2_timeout l own free) with c u o; [done|done|].
      unfold remove_slot, pwhen, mbind, pprog_bind, pget. cbn. rewrite Hid, E.
      unfold pskip in *. by injection E2 as <- <- <-. }
  intros ?. eapply sat_bind; [apply b_quiet; solve_quiet|intros ?].
  eapply sat_bind; [apply b_quiet; solve_quiet|intros t].
  apply b_retransmit; auto; rewrite elem_of_cons; auto.
Qed.

Lemma bound_start_rebound e l own free :
  Timeout ∈ free -> sat (start_rebound e) (B_ l own free) (fun _ => B_ l own [Timeout]).
Proof.
  intros Hf. unfold start_rebound. eapply sat_bind; [by apply b_remove_slot|intros ?].
  eapply sat_bind; [apply b_set_state|intros ?].
  eapply sat_bind; [apply b_quiet; solve_quiet|intros ?].
  apply bound_continue_rebound. rewrite elem_of_cons. by right.
Qed.

(** Both ends of a lease: it begins with its timer, and a refusal with the
    timer to start over. *)
Definition bound (own : option Z) (c : GDHCPClient) : Prop := exists l, B_ l own [Timeout] c.

Definition refused (own : option Z) (c : GDHCPClient) : Prop :=
  S_ own lease_slots (fun _ => True) (eq 0) c /\
  sources (tmo c) !! timeout (tmo c) = Some (3000, Restart_dhcp_timeout).

Lemma arm_expire e s secs cb c a c' o :
  arm_seconds e s secs cb c = Some (a, c', o) -> expire c' = expire c.
Proof.
  intros E. unfold arm_seconds, timeout_start_seconds, timeout_start_ms, mbind, pprog_bind in E.
  destruct (timer_ok e); cbn in E; by injection E as <- <- <-.
Qed.

Lemma s_arm_expire e s secs cb own free st r x :
  s = slot_of cb -> s ∈ free -> v4_cb cb = true ->
  sat (arm_seconds e s secs cb) (fun c => S_ own free st r c /\ expire c = x)
    (fun _ c => S_ own (List.filter (fun x => bool_decide (x <> s)) free) st r c /\ expire c = x).
Proof.
  intros Hs Hf Hv c a c' o [Hc Hx] E. split; [by eapply s_arm_seconds|].
  by rewrite (arm_expire _ _ _ _ _ _ _ _ E).
Qed.

Lemma bound_arm_lease e own st x :
  timer_ok e = true ->
  sat (arm_seconds e Lease_timeout x Start_expire)
    (fun c => S_ own [Lease_timeout; Timeout] st (eq 0) c /\ expire c = x) (fun _ => bound own).
Proof.
  intros Ht c a c' o [Hc Hx] E. exists (next_id (tmo c)). split.
  - eapply S_weaken; [eapply s_arm_seconds; [| | |exact Hc|exact E]; [done|in_slots|done]| |done|done].
    intros s. vm_compute (List.filter _ _). done.
  - unfold arm_seconds, timeout_start_seconds, timeout_start_ms, mbind, pprog_bind in E.
    rewrite Ht in E. cbn in E. injection E as <- <- <-. unfold pending_lease. cbn.
    by rewrite lookup_insert_eq, Hx.
Qed.

Lemma bound_start_bound e own free st :
  timer_ok e = true ->
  sat (start_bound e) (S_ own free st (eq 0)) (fun _ => bound own).
Proof.
  intros Ht. unfold start_bound. do 4 s_step.
  eapply (sat_bind _ _ _ (fun _ => S_ own all_slots (eq BOUND) (eq 0))).
  { apply sat_modify. by intros c (Hh & [? ? ?] & Hs & Hr). }
  intros ?. apply sat_get. intros c0.
  eapply (sat_pre _ _ (fun c => S_ own all_slots (eq BOUND) (eq 0) c /\ expire c = expire c0));
    [|by intros c [? <-]].
  eapply sat_bind; [apply s_arm_expire; [done|in_slots|done]|intros ?].
  eapply sat_bind; [apply s_arm_expire; [done| |done]|intros ?].
  { vm_compute (List.filter _ _). in_slots. }
  eapply sat_pre; [by apply bound_arm_lease|]. intros c [Hc Hx]. split; [|done].
  eapply S_weaken; [exact Hc| |done|done]. intros s. vm_compute (List.filter _ _). done.
Qed.

Lemma refused_on_nak e own free st r :
  timer_ok e = true -> sat (on_nak e) (S_ own free st r) (fun _ => refused own).
Proof.
  intros Ht. unfold on_nak. do 2 s_step. intros c u c' o Hc E. split.
  - eapply S_weaken; [eapply s_arm_seconds; [| | |exact Hc|exact E]; [done|in_slots|done]| |done|done].
    intros s. vm_compute (List.filter _ _). in_slots.
  - unfold arm_seconds, timeout_start_seconds, timeout_start_ms, mbind, pprog_bind in E.
    rewrite Ht in E. cbn in E. injection E as <- <- <-. cbn. by rewrite lookup_insert_eq.
Qed.

Definition phase (own : option Z) (c : GDHCPClient) : Prop := bound own c \/ refused own c \/ idle own c.

Lemma phase_on_ack e pkt n own free st r :
  timer_ok e = true -> sat (on_ack e pkt n) (S_ own free st r) (fun _ => phase own).
Proof.
  intros Ht. unfold on_ack. do 7 s_step. apply sat_get. intros c0.
  eapply sat_bind with (R := fun (known : bool) c => S_ own all_slots st (eq 0) c /\
    (known = false -> state c = REBOOTING)).
  { unfold is_state. case_bool_decide as Hs.
    - eapply sat_bind; [apply sat_lift|intros o]. destruct o as [off|].
      + eapply sat_bind; [apply sat_lift|intros ip]. intros c k c' o [[[Hc _] _] _] E.
        unfold set, mbind, pprog_bind, pmodify in E. cbn in E. injection E as <- <- <-.
        split; [|done]. by destruct Hc as (? & [? ? ?] & ? & ?).
      + intros c k c' o [[Hc <-] _] [= <- <- <-]. split; [done|]. intros _. exact Hs.
    - intros c k c' o [Hc _] [= <- <- <-]. done. }
  intros known. destruct known; cbn [negb].
  - eapply sat_pre; [|by intros c [Hc _]].
    s_step. eapply sat_post; [by apply bound_start_bound|]. intros ? c Hc. by left.
  - intros c u c' o [Hc Hs] [= <- <- <-]. right. right. unfold idle.
    destruct Hc as (Hh & Hp & _ & _). split_and!; [|done| |done].
    + eapply held_weaken; [exact Hh|]. intros s. in_slots.
    + rewrite Hs by done. unfold in_lease. intuition congruence.
Qed.

Lemma phase_S own c :
  phase own c -> S_ own [] (fun _ => True) (fun _ => True) c /\ (in_lease (state c) -> retry_times c = 0).
Proof.
  assert (Hn : forall (free : list slot) s, s ∈ ([] : list slot) -> s ∈ free)
    by (intros free s Hs; by apply elem_of_nil in Hs).
  intros [(l & Hs & _)|[[Hs _]|Hs]]; (split; [eapply S_weaken; [exact Hs|apply Hn|done|done]|]).
  - intros _. by destruct Hs as (_ & _ & _ & <-).
  - intros _. by destruct Hs as (_ & _ & _ & <-).
  - intros Hl. by destruct Hs as (_ & _ & Hno & _).
Qed.

Lemma phase_quiet {A} (m : M A) own : quiet m -> sat m (phase own) (fun _ => phase own).
Proof.
  intros Hq c a c' o Hph E. pose proof (Hq _ _ _ _ E) as Hst.
  destruct Hph as [(l & Hb)|[[Hs Ht]|Hs]].
  - left. exists l. by eapply b_quiet.
  - right. left. split; [by eapply S_quiet|]. by rewrite (quiet_tmo _ _ Hst).
  - right. right. by eapply S_quiet.
Qed.

Lemma phase_on_answer e pkt n ty own :
  timer_ok e = true -> sat (on_answer e pkt n ty) (phase own) (fun _ => phase own).
Proof.
  intros Ht. unfold on_answer. destruct (ty =? DHCPACK).
  { eapply sat_pre; [by apply phase_on_ack|]. intros c Hc. by apply phase_S. }
  destruct (ty =? DHCPNAK); [|apply sat_skip].
  eapply sat_post; [eapply sat_pre; [by apply refused_on_nak|]|].
  - intros c Hc. by apply phase_S.
  - intros ? c Hc. right. by left.
Qed.

Lemma phase_dispatch e pkt n ty b own :
  timer_ok e = true -> sat (dispatch e pkt n ty b) (phase own) (fun _ => phase own).
Proof.
  intros Ht. unfold dispatch. apply sat_get. intros st.
  assert (Ha : sat (on_answer e pkt n ty) (phase own) (fun _ => phase own)) by by apply phase_on_answer.
  destruct st; try (eapply sat_pre; [first [exact Ha|apply sat_skip]|by intros c [Hc _]]).
  - destruct (negb (ty =? DHCPOFFER)); [eapply sat_pre; [apply sat_skip|by intros c [Hc _]]|].
    eapply sat_post; [eapply sat_pre; [apply (idle_on_offer e pkt n b own [] (fun _ => True))|]|].
    + intros c [Hc Hs]. apply phase_S in Hc as [(Hh & Hp & _ & _) _]. by split_and!.
    + intros ? c Hc. right. by right.
  - eapply sat_pre; [|intros c [Hc _]; exact Hc].
    eapply sat_bind; [apply phase_quiet; solve_quiet|]. intros ?. exact Ha.
Qed.

Lemma phase_on_packet e pkt n b own :
  timer_ok e = true -> sat (on_packet e pkt n b) (phase own) (fun _ => phase own).
Proof.
  intros Ht. unfold on_packet. eapply sat_bind; [apply phase_quiet; solve_quiet|intros c0].
  destruct (negb _); [eapply phase_quiet; solve_quiet|].
  eapply sat_bind; [apply phase_quiet; solve_quiet|intros o]. destruct o; [|apply phase_quiet; solve_quiet].
  eapply sat_bind; [apply phase_quiet; solve_quiet|intros ty].
  eapply sat_bind; [by apply phase_dispatch|intros ?]. apply phase_quiet; solve_quiet.
Qed.

Lemma phase_listener e broken data own :
  timer_ok e = true -> sat (listener_event e broken data) (phase own) (fun _ => phase own).
Proof.
  intros Ht. unfold listener_event. destruct broken; [apply phase_quiet; solve_quiet|].
  apply sat_get. intros m. destruct m.
  - eapply sat_pre; [apply phase_quiet; solve_quiet|by intros c [Hc _]].
  - eapply sat_pre; [|intros c [Hc _]; exact Hc].
    eapply sat_bind; [apply phase_quiet; solve_quiet|intros ?].
    destruct (dhcp_recv_l2_packet _ _) as [pkt [re|[daddr n]]]; [apply phase_quiet; solve_quiet|].
    by apply phase_on_packet.
  - eapply sat_pre; [|intros c [Hc _]; exact Hc].
    eapply sat_bind; [apply phase_quiet; solve_quiet|intros ?].
    destruct (dhcp_recv_l3_packet data) as [pkt re]. destruct (re <? 0); [apply phase_quiet; solve_quiet|].
    by apply phase_on_packet.
  - intros c a c' o [Hc Hm] E. apply phase_S in Hc as [(_ & [_ Hne _] & _) _]. done.
Qed.

(** ** Timers that expire *)

Lemma S_own id ms cb free st r c :
  sources (tmo c) !! id = Some (ms, cb) -> S_ None free st r c -> S_ (Some id) (slot_of cb :: free) st r c.
Proof.
  intros El (Hh & Hp & Hs & Hr). split_and!; [|done..].
  destruct Hh as [Hn Hi Hd Hc]. split; [done..|]. intros id' ms' cb' El'.
  destruct (Hc _ _ _ El') as [? [?|[Hid Hf]]]; [done|]. split; [done|].
  destruct (Hc _ _ _ El) as [_ [?|[Hid0 _]]]; [done|].
  destruct (decide (slot_of cb' = slot_of cb)) as [Heq|Hne]; [left; congruence|].
  right. split; [done|]. intros [?|?]%elem_of_cons; done.
Qed.

Definition drop_source (id : Z) (c : GDHCPClient) : GDHCPClient :=
  upd_tmo (fun t => set_sources (delete id (sources t)) t) c.

Lemma S_drop id free st r c : S_ (Some id) free st r c -> S_ None free st r (drop_source id c).
Proof.
  intros (Hh & [H1 H2 H3] & Hs & Hr). split_and!; [|split; [done..|]|done|done].
  - destruct Hh as [Hn Hi Hd Hc]. split; [done|intros s; apply (Hi s)|intros s s'; apply (Hd s s')|].
    intros id' ms cb E. cbn in E. apply lookup_delete_Some in E as [Hne E].
    destruct (Hc _ _ _ E) as [? [[= ?]|[Hid Hf]]]; [congruence|]. split; [done|]. right. split; [|done].
    rewrite <- Hid. by destruct (slot_of cb).
  - intros id' ms cb E. cbn in E. apply lookup_delete_Some in E as [_ E]. by eapply H3.
Qed.

Lemma B_drop l id free c : id <> l -> B_ l (Some id) free c -> B_ l None free (drop_source id c).
Proof.
  intros Hne [Hs [H1 H2]]. split; [by apply S_drop|]. split; [done|]. cbn. by rewrite lookup_delete_ne.
Qed.

Lemma phase_timer e id ms cb c u c' o :
  phase None c -> sources (tmo c) !! id = Some (ms, cb) ->
  timer_function e cb c = Some (u, c', o) -> phase None (drop_source id c').
Proof.
  intros Hph El E.
  assert (Hslot : forall free st r, S_ None free st r c -> slot_of cb ∉ free).
  { intros free st r (Hh & _). by destruct (held_source _ _ _ Hh _ _ _ El) as [_ [?|[_ ?]]]. }
  assert (Hi : forall P, idle (Some id) P -> phase None (drop_source id P)).
  { intros P HP. right. right. by apply S_drop. }
  destruct Hph as [(l & Hs & Hl)|[[Hs Ht]|Hs]]; pose proof (Hslot _ _ _ Hs) as Hf;
    pose proof (S_own _ _ _ _ _ _ _ El Hs) as Ho.
  - assert (Hb : B_ l (Some id) [slot_of cb; Timeout] c) by by split.
    assert (Hm : Timeout ∈ [slot_of cb; Timeout]) by (rewrite !elem_of_cons; auto).
    assert (Hd : cb <> Start_expire -> id <> l).
    { intros Hne ->. destruct Hl as [_ Hl]. congruence. }
    destruct cb; cbn [slot_of] in *; try (exfalso; apply Hf; rewrite elem_of_cons; by left).
    + left. exists l. apply B_drop; [by apply Hd|]. by eapply (bound_start_renew e l (Some id) _ Hm).
    + left. exists l. apply B_drop; [by apply Hd|]. by eapply (bound_continue_renew e l (Some id) _ Hm).
    + left. exists l. apply B_drop; [by apply Hd|]. by eapply (bound_start_rebound e l (Some id) _ Hm).
    + left. exists l. apply B_drop; [by apply Hd|]. by eapply (bound_continue_rebound e l (Some id) _ Hm).
    + apply Hi. by eapply (idle_start_expire e (Some id)).
  - assert (cb = Restart_dhcp_timeout) as ->.
    { destruct Hs as (Hh & _). destruct (held_source _ _ _ Hh _ _ _ El) as [_ [?|[Hid _]]]; [done|].
      destruct cb; cbn in Hid, Hf; try congruence;
        (exfalso; apply Hf; unfold lease_slots; rewrite !elem_of_cons; tauto). }
    apply Hi. by eapply (idle_restart_timeout e (Some id)).
  - apply Hi. pose proof (plain_cb c ltac:(apply Hs) _ _ _ El) as Hv.
    destruct cb; try discriminate Hv; cbn [slot_of timer_function] in *;
      try (exfalso; apply Hf; unfold lease_slots; rewrite !elem_of_cons; tauto).
    + by eapply (idle_discover_timeout e (Some id)).
    + eapply (idle_request_timeout e (Some id) [Timeout]); [by apply list_elem_of_singleton| |exact E].
      eapply S_weaken; [exact Ho| |done|done]. intros s. unfold lease_slots. rewrite elem_of_app, !elem_of_cons.
      tauto.
    + by eapply (idle_reboot_timeout e (Some id)).
    + by eapply (idle_restart_timeout e (Some id)).
Qed.

(** ** Every reachable state of an IPv4 client *)

Definition event_env (ev : event) : env :=
  match ev with Start e _ | Stop e | Decline e _ | Timer e _ | Packet e _ _ => e end.

(** The states of an IPv4 client when its timers can be made. *)
Inductive reachable_v4 : GDHCPClient -> Prop :=
  | reach4_new mac : reachable_v4 (g_dhcp_client_new G_DHCP_IPV4 mac)
  | reach4_register ev b c : reachable_v4 c -> reachable_v4 (g_dhcp_client_register_event ev b c)
  | reach4_request code c : reachable_v4 c -> reachable_v4 (g_dhcp_client_set_request code c)
  | reach4_clear c : reachable_v4 c -> reachable_v4 (g_dhcp_client_clear_requests c)
  | reach4_clear_values c : reachable_v4 c -> reachable_v4 (g_dhcp_client_clear_values c)
  | reach4_id c : reachable_v4 c -> reachable_v4 (g_dhcp_client_set_id c)
  | reach4_send code v c : reachable_v4 c -> reachable_v4 (g_dhcp_client_set_send code v c)
  | reach4_event ev c u c' o : reachable_v4 c -> timer_ok (event_env ev) = true ->
      handle ev c = Some (u, c', o) -> reachable_v4 c'.

Lemma phase_decline e r : sat (g_dhcp_client_decline e r) (phase None) (fun _ => phase None).
Proof.
  unfold g_dhcp_client_decline.
  eapply (sat_bind _ _ _ (fun _ => phase None)).
  { apply sat_modify. intros c [(l & Hs & Hl)|[[Hs Ht]|Hs]]; destruct Hs as (? & [? ? ?] & ? & ?).
    - left. exists l. split; [|done]. by split_and!.
    - right. left. split; [|done]. by split_and!.
    - right. right. split_and!; [done|by split| |done]. unfold in_lease. cbn. intuition congruence. }
  intros ?. eapply (sat_bind _ _ _ (fun _ => phase None)).
  { apply sat_modify. intros c [(l & Hs & Hl)|[[Hs Ht]|Hs]]; destruct Hs as (? & [? ? ?] & ? & ?).
    - left. exists l. split; [|done]. by split_and!.
    - right. left. split; [|done]. by split_and!.
    - right. right. by split_and!. }
  intros ?. apply phase_quiet. solve_quiet.
Qed.

Lemma phase_handle ev c u c' o :
  timer_ok (event_env ev) = true -> phase None c -> handle ev c = Some (u, c', o) -> phase None c'.
Proof.
  intros Ht Hc E. destruct ev as [e last|e|e r|e id|e broken data]; cbn [handle event_env] in *.
  - apply pbind_inv in E as (re & c1 & o1 & o2 & E1 & [= <- <- <-] & _). right. right.
    eapply (idle_client_start e last None []); [|exact E1]. by apply phase_S.
  - right. right. eapply (idle_stop e None []); [|exact E]. by apply phase_S.
  - by eapply phase_decline.
  - unfold fire in E. apply pbind_inv in E as (r & c1 & o1 & o2 & [= <- <- <-] & E & _).
    destruct (sources (tmo c) !! id) as [[ms cb]|] eqn:El; [|by injection E as <- <- <-].
    destruct (ms <=? 0); [by injection E as <- <- <-|].
    apply pbind_inv in E as ([] & c2 & o3 & o4 & E1 & [= <- <- <-] & _). by eapply phase_timer.
  - apply pbind_inv in E as (w & c1 & o1 & o2 & [= <- <- <-] & E & _).
    destruct (listener_watch c); [|by injection E as <- <- <-].
    apply pbind_inv in E as (k & c1 & o3 & o4 & E1 & [= <- <- <-] & _). by eapply phase_listener.
Qed.

Lemma reachable_v4_phase c : reachable_v4 c -> phase None c.
Proof.
  assert (Hcfg : forall c f, (forall c, quiet_step c (f c)) -> phase None c -> phase None (f c)).
  { intros c0 f Hf Hc. by eapply (phase_quiet (set f) None (quiet_set f Hf) c0 tt (f c0) [] Hc). }
  induction 1 as [mac| |code c| | | |code v c|ev c u c' o Hr IH Ht E].
  - right. right. split_and!; [|split; [done..|]| |done].
    + split; [done|intros []; cbn; lia|intros [] []; cbn; done|].
      intros id ms cb E. cbn in E. by rewrite lookup_empty in E.
    + intros id ms cb E. cbn in E. by rewrite lookup_empty in E.
    + unfold in_lease. cbn. intuition congruence.
  - by apply (Hcfg c (g_dhcp_client_register_event ev b)).
  - apply (Hcfg c (g_dhcp_client_set_request code)); [|done]. intros c0.
    unfold g_dhcp_client_set_request. by destruct (existsb _ (request_list c0)).
  - by apply (Hcfg c g_dhcp_client_clear_requests).
  - by apply (Hcfg c g_dhcp_client_clear_values).
  - by apply (Hcfg c g_dhcp_client_set_id).
  - apply (Hcfg c (g_dhcp_client_set_send code v)); [|done]. intros c0.
    unfold g_dhcp_client_set_send. by destruct (_ || _).
  - by eapply phase_handle.
Qed.

(** C32: A lease is never held without its end in sight: in every reachable
    state of an IPv4 client that is bound, renewing or rebinding, either the
    timer of the expiry of the lease is pending, with the lease time as
    interval, or the server has refused and the timer to start over is; and when
    the timer of the expiry fires the client is in none of these states. *)
Theorem lease_expiry_pending c :
  reachable_v4 c -> in_lease (state c) ->
  (sources (tmo c) !! lease_timeout (tmo c) = Some (expire c * 1000, Start_expire) \/
   sources (tmo c) !! timeout (tmo c) = Some (3000, Restart_dhcp_timeout)) /\
  (forall e u c' o, start_expire e c = Some (u, c', o) -> ~ in_lease (state c')).
Proof.
  intros Hr Hl. pose proof (reachable_v4_phase c Hr) as Hph. split.
  - destruct Hph as [(l & _ & <- & E)|[[_ E]|Hs]]; [by left|by right|].
    by destruct Hs as (_ & _ & Hno & _).
  - intros e u c' o E. destruct (phase_S _ _ Hph) as [Hs _].
    by destruct (idle_start_expire e _ _ _ _ _ _ _ _ Hs E) as (_ & _ & Hno & _).
Qed.

End Leases.

(** ** Examples

    A client that asks for its last address again and gets it. *)

#[local] Existing Instance glib_reference.

Definition run (evs : list event) (c : GDHCPClient) : option GDHCPClient :=
  foldl (fun r ev => c ← r; '(_, c, _) ← handle ev c; Some c) (Some c) evs.

Lemma run_cons ev evs c c' :
  run (ev :: evs) c = Some c' -> exists u c1 o, handle ev c = Some (u, c1, o) /\ run evs c1 = Some c'.
Proof.
  unfold run. cbn [foldl]. cbn [mbind option_bind]. destruct (handle ev c) as [[[u c1] o]|] eqn:E; cbn.
  - intros Hr. by exists u, c1, o.
  - assert (Hn : foldl (fun r ev => c ← r; '(_, c, _) ← handle ev c; Some c) None evs = None)
      by (induction evs as [|? ? IH]; [done|exact IH]).
    by rewrite Hn.
Qed.

Lemma run_reachable evs : forall c c', reachable c -> run evs c = Some c' -> reachable c'.
Proof.
  induction evs as [|ev evs IH]; intros c c' Hc E; [by injection E as <-|].
  apply run_cons in E as (u & c1 & o & E1 & E). eapply IH; [|exact E]. by eapply reach_event.
Qed.

Lemma run_reachable_v4 evs : forall c c',
  reachable_v4 c -> Forall (fun ev => timer_ok (event_env ev) = true) evs -> run evs c = Some c' -> reachable_v4 c'.
Proof.
  induction evs as [|ev evs IH]; intros c c' Hc Ht E; [by injection E as <-|].
  apply Forall_cons_1 in Ht as [Ht Hts].
  apply run_cons in E as (u & c1 & o & E1 & E). eapply IH; [|done|exact E]. by eapply reach4_event.
Qed.

Definition demo_mac : list Z := [2; 0; 0; 0; 0; 7].
Definition demo_env : env := mk_env 1000 77 [] 5 true true.

(** A packet of a server with the options [opts]. *)
Definition demo_reply (opts : list Z) : list Z :=
  [2; 1; 6; 0] ++ le_bytes32 77 ++ repeat 0 8%nat ++ [192; 168; 1; 2] ++ repeat 0 8%nat ++ demo_mac ++
  repeat 0 202%nat ++ be_bytes32 DHCP_MAGIC ++ opts ++ repeat 0 (388 - length opts).

Definition demo_frame (opts : list Z) : list Z :=
  take (Z.to_nat IP_UPD_DHCP_SIZE) (build_frame (demo_reply opts) 0x0101a8c0 SERVER_PORT 0xffffffff CLIENT_PORT).

Definition demo_ack : list Z := encode [(DHCP_MESSAGE_TYPE, [DHCPACK]);
  (DHCP_SERVER_ID, [192; 168; 1; 1]); (DHCP_LEASE_TIME, be_bytes32 3600)] ++ [DHCP_END].

Definition demo_events : list event :=
  [Start demo_env (Some "192.168.1.2"%string); Packet demo_env false (inl (demo_frame demo_ack))].

Definition demo_bound : GDHCPClient :=
  let c := g_dhcp_client_new G_DHCP_IPV4 demo_mac in default c (run demo_events c).

Lemma demo_runs : run demo_events (g_dhcp_client_new G_DHCP_IPV4 demo_mac) = Some demo_bound.
Proof. by vm_compute. Qed.

Lemma client_timers_held_witness :
  exists c' o, g_dhcp_client_stop demo_env demo_bound = Some (tt, c', o) /\ sources (tmo c') = ∅.
Proof.
  destruct (client_timers_held demo_bound) as [_ Hs].
  - eapply run_reachable; [apply (reach_new G_DHCP_IPV4 demo_mac)|exact demo_runs].
  - destruct (Hs demo_env) as (c' & o & E & He & _). exists c', o. split; [exact E|exact He].
Defined.

Lemma lease_expiry_pending_witness :
  state demo_bound = BOUND /\
  (sources (tmo demo_bound) !! lease_timeout (tmo demo_bound) = Some (expire demo_bound * 1000, Start_expire) \/
   sources (tmo demo_bound) !! timeout (tmo demo_bound) = Some (3000, Restart_dhcp_timeout)).
Proof.
  split; [by vm_compute|]. apply (lease_expiry_pending demo_bound).
  - eapply run_reachable_v4; [apply (reach4_new demo_mac)| |exact demo_runs]. by repeat constructor.
  - left. by vm_compute.
Defined.

End DhcpClientInv.
