(* ===== verification/DhcpClientRun.v ===== *)
(** * Runs of the DHCP client

    The packets a client builds, and what its handlers do from a given state:
    giving up without answer, ignoring what is not addressed to it, and the
    ways in which it gets stuck. *)

From S2P Require Import Prelude Inet Effects Glib Acd Buffer DhcpPacket DhcpFrame DhcpClient DhcpClientInv.
From stdpp Require Import list.
Open Scope Z_scope.
Import DhcpPacket DhcpFrame DhcpClient DhcpClientInv.

Module DhcpClientRun.

Section Packets.
Context `{GLib}.

(** ** Packets *)

(** The options a user has asked to be sent: well-formed, and none that the
    client sets itself. *)
Definition own_code (code : Z) : bool :=
  (code =? DHCP_MESSAGE_TYPE) || (code =? DHCP_SERVER_ID) || (code =? DHCP_REQUESTED_IP).

Record well_configured (c : GDHCPClient) : Prop := {
  wc_mac : length (mac_address c) = 6%nat /\ Forall is_byte (mac_address c);
  wc_codes : Forall (fun code => 0 < u8 code < DHCP_END) (request_list c);
  wc_few : (length (request_list c) <= 100)%nat;
  wc_send k v : send_value_hash c !! k = Some v ->
    exists o, v = tlv o /\ plain_opt o /\ own_code o.1 = false /\ is_byte o.1 /\ Forall is_byte o.2;
}.

(** A packet with options [opts] whose header begins like that of [p0], all of
    it bytes. *)
Record built (p0 pkt : list Z) (opts : list (Z * list Z)) : Prop := {
  built_holds : holds pkt opts;
  built_header : take off_options pkt = take off_options p0;
  built_bytes : Forall is_byte pkt;
}.

Lemma wr_bytes off b pkt : Forall is_byte b -> Forall is_byte pkt -> Forall is_byte (wr off b pkt).
Proof.
  intros Hb Hp. unfold wr. apply Forall_app. split; [by apply Forall_take|]. apply Forall_app.
  split; [done|by apply Forall_drop].
Qed.

Lemma byte_of_is_byte x i : is_byte (byte_of x i).
Proof. exact (byte_of_range x i). Qed.

Lemma be_bytes32_bytes x : Forall is_byte (be_bytes32 x).
Proof. repeat constructor; apply byte_of_is_byte. Qed.

Lemma add_binary_option_bytes pkt addopt pkt' :
  Forall is_byte pkt -> Forall is_byte addopt ->
  dhcp_add_binary_option pkt addopt = Some pkt' -> Forall is_byte pkt'.
Proof.
  intros Hp Ha. unfold dhcp_add_binary_option.
  destruct (dhcp_end_option pkt) as [e|]; [|done]. destruct (addopt !! 1%nat) as [l|]; [|done].
  cbv zeta. destruct (DHCP_OPTIONS_BUFSIZE <=? e + (2 + l) + 1); intros E; injection E as <-; [done|].
  apply wr_bytes; [by apply (all_bytes_ok [DHCP_END])|]. apply wr_bytes; [by apply Forall_take|done].
Qed.

(** An option that fits is added behind the others. *)
Lemma built_add p0 pkt opts o junk :
  built p0 pkt opts -> plain_opt o -> is_byte o.1 -> Forall is_byte o.2 -> Forall is_byte junk ->
  Z.of_nat (length (encode opts)) + Z.of_nat (length (tlv o)) + 1 < DHCP_OPTIONS_BUFSIZE ->
  exists pkt', dhcp_add_binary_option pkt (tlv o ++ junk) = Some pkt' /\ built p0 pkt' (opts ++ [o]).
Proof.
  intros [Hh Ht Hb] Ho H1 H2 Hj Hf.
  destruct (add_binary_option_holds pkt opts o junk Hh Ho) as (pkt' & E & Hr).
  rewrite (proj2 (Z.leb_gt _ _)) in Hr by lia. destruct Hr as [Hh' Ht'].
  exists pkt'. split; [done|]. split; [done|congruence|].
  eapply add_binary_option_bytes; [exact Hb| |exact E]. apply Forall_app. split; [|done].
  unfold tlv. constructor; [done|]. constructor; [|done].
  destruct Ho as (_ & _ & Hl). unfold is_byte. lia.
Qed.

(** Options that do not fit are left out. *)
Lemma built_add_all p0 kvs : forall pkt opts,
  built p0 pkt opts ->
  (forall k v, (k, v) ∈ kvs ->
    exists o, v = tlv o /\ plain_opt o /\ own_code o.1 = false /\ is_byte o.1 /\ Forall is_byte o.2) ->
  (Z.of_nat (length (encode opts)) + 1 < DHCP_OPTIONS_BUFSIZE) ->
  exists pkt' added, add_binary_options pkt kvs = Some pkt' /\ built p0 pkt' (opts ++ added) /\
    Forall (fun o => own_code o.1 = false) added /\
    Z.of_nat (length (encode (opts ++ added))) + 1 < DHCP_OPTIONS_BUFSIZE.
Proof.
  induction kvs as [|[k v] kvs IH]; intros pkt opts Hb Hk Hl; cbn [add_binary_options].
  { exists pkt, []. rewrite app_nil_r. done. }
  destruct (Hk k v) as (o & -> & Ho & Hown & H1 & H2); [rewrite elem_of_cons; by left|]. cbn [snd].
  assert (Hk' : forall k v, (k, v) ∈ kvs -> exists o, v = tlv o /\ plain_opt o /\ own_code o.1 = false /\
    is_byte o.1 /\ Forall is_byte o.2) by (intros k' v' Hin; apply (Hk k' v'); rewrite elem_of_cons; by right).
  destruct (Z.lt_ge_cases (Z.of_nat (length (encode opts)) + Z.of_nat (length (tlv o)) + 1)
              DHCP_OPTIONS_BUFSIZE) as [Hfit|Hfull].
  - destruct (built_add p0 pkt opts o [] Hb Ho H1 H2 ltac:(constructor) Hfit) as (pkt1 & E1 & Hb1).
    rewrite app_nil_r in E1. rewrite E1.
    destruct (IH pkt1 (opts ++ [o]) Hb1 Hk') as (pkt2 & added & E2 & Hb2 & Ha & Hl2).
    { rewrite encode_app, length_app. unfold encode at 2. cbn [map concat]. rewrite app_nil_r. lia. }
    exists pkt2, (o :: added). rewrite <- app_assoc in Hb2, Hl2. cbn [mbind option_bind].
    split_and!; [exact E2|done|by constructor|done].
  - destruct (add_binary_option_holds pkt opts o [] (built_holds _ _ _ Hb) Ho) as (pkt1 & E1 & Hr).
    rewrite app_nil_r in E1. rewrite (proj2 (Z.leb_le _ _)) in Hr by lia. subst pkt1. rewrite E1.
    cbn [mbind option_bind]. by apply IH.
Qed.

(** The list of requested options. *)
Definition param_req (c : GDHCPClient) : list (Z * list Z) :=
  match request_list c with
  | [] => []
  | l => [(DHCP_PARAM_REQ, map u8 l)]
  end.

Lemma built_request_options p0 pkt opts c :
  built p0 pkt opts -> well_configured c -> (length (encode opts) <= 100)%nat ->
  exists pkt', add_request_options c pkt = Some pkt' /\ built p0 pkt' (opts ++ param_req c).
Proof.
  intros [Hh Ht Hb] [_ Hc Hf _] Hl. unfold add_request_options, param_req.
  rewrite (dhcp_end_option_holds _ _ Hh). cbn [mbind option_bind]. rewrite length_map.
  destruct (request_list c) as [|x l] eqn:El.
  { exists pkt. rewrite app_nil_r. done. }
  rewrite <- El in *. set (codes := map u8 (request_list c)).
  assert (Hlc : length codes = length (request_list c)) by apply length_map.
  rewrite (proj2 (Z.eqb_neq _ _)) by (rewrite El; cbn; lia).
  rewrite (proj2 (Z.leb_gt _ _)) by (unfold options_size, DHCP_OPTIONS_BUFSIZE, EXTEND_FOR_BUGGY_SERVERS; lia).
  assert (Hu : u8 (Z.of_nat (length (request_list c))) = Z.of_nat (length codes)).
  { rewrite Hlc. apply u8_small. lia. }
  rewrite Hu, Nat2Z.id. eexists. split; [reflexivity|].
  change ([DHCP_PARAM_REQ; Z.of_nat (length codes)] ++ codes ++ [DHCP_END]) with
    (tlv (DHCP_PARAM_REQ, codes) ++ [DHCP_END]).
  destruct Hh as (Hlen & Hopts & hdr & rest & Hhdr & ->).
  rewrite !length_app in Hlen. cbn [length] in Hlen.
  assert (Hr : (length codes + 3 <= length rest)%nat)
    by (unfold packet_size, off_options in *; lia).
  assert (Ew : wr (off_options + length (encode opts)) (tlv (DHCP_PARAM_REQ, codes) ++ [DHCP_END])
      (hdr ++ encode opts ++ DHCP_END :: rest) =
    hdr ++ encode (opts ++ [(DHCP_PARAM_REQ, codes)]) ++ DHCP_END :: drop (S (S (length codes))) rest).
  { rewrite app_assoc. replace (off_options + length (encode opts))%nat
      with (length (hdr ++ encode opts)) by (rewrite length_app; lia).
    rewrite wr_app_mid by (rewrite length_app, length_tlv; cbn [length snd]; lia).
    rewrite encode_app. change (encode [(DHCP_PARAM_REQ, codes)]) with (tlv (DHCP_PARAM_REQ, codes) ++ []).
    rewrite app_nil_r, <- !app_assoc. do 3 f_equal. cbn [app]. f_equal.
    rewrite length_app, length_tlv. cbn [length snd]. rewrite Nat.add_1_r. done. }
  assert (Hcodes : Forall is_byte codes).
  { subst codes. apply Forall_map. eapply Forall_impl; [exact Hc|]. cbv beta. unfold DHCP_END, is_byte. lia. }
  split.
  - rewrite Ew. split_and!.
    + rewrite !length_app, encode_app, length_app. unfold encode at 2. cbn [map concat].
      rewrite app_nil_r, length_tlv. cbn [length snd]. rewrite length_drop. lia.
    + apply Forall_app. split; [done|]. constructor; [|constructor]. split_and!; cbn; [done..|lia].
    + by eexists _, _.
  - rewrite Ew, <- Ht. by rewrite !take_app_length'.
  - apply wr_bytes; [|done]. unfold tlv. cbn [fst snd app]. constructor; [done|].
    constructor; [unfold is_byte; lia|]. apply Forall_app. split; [done|].
    by apply (all_bytes_ok [DHCP_END]).
Qed.

(** The header of a request: the magic cookie, the hardware address, the
    transaction and the seconds. *)
Definition request_header (e : env) (c : GDHCPClient) (type : Z) : list Z :=
  stamp e c (wr off_chaddr (mac_address c) (header_bytes type)).

Lemma init_header_bytes type p : is_byte type -> dhcp_init_header type = Some p -> Forall is_byte p.
Proof.
  intros Hty. unfold dhcp_init_header, dhcp_add_option_uint8.
  change (check_option DHCP_MESSAGE_TYPE 1 =? OPTION_UNKNOWN) with false. cbv iota zeta.
  apply add_binary_option_bytes.
  - repeat apply wr_bytes; try apply be_bytes32_bytes; try (by apply all_bytes_ok).
    constructor; [|constructor]. by destruct (_ || _).
  - constructor; [done|]. constructor; [done|]. constructor; [done|]. by apply (all_bytes_ok [0; 0; 0]).
Qed.

Lemma take_wr_header off b p :
  (off + length b <= off_options)%nat ->
  take off_options (wr off b p) = wr off b (take off_options p).
Proof.
  intros Ho. unfold wr. rewrite take_take, Nat.min_l by lia.
  destruct (Nat.le_gt_cases off (length p)) as [Hp|Hp].
  - rewrite !app_assoc, (take_app_ge (_ ++ _)) by (rewrite length_app, length_take; lia).
    f_equal. rewrite length_app, length_take, Nat.min_l by lia. by rewrite skipn_firstn_comm.
  - rewrite !(take_ge p), !(drop_ge p) by lia. apply take_ge. rewrite !length_app. cbn [length]. lia.
Qed.

Lemma built_init e c type :
  well_configured c -> is_byte type ->
  exists p, init_packet c type = Some p /\
    built (request_header e c type) (stamp e c p) [(DHCP_MESSAGE_TYPE, [type])].
Proof.
  intros [[Hm Hmb] _ _ _] Hty. unfold init_packet.
  destruct (dhcp_init_header_holds type) as (p & E & Hh & Ht). rewrite E. cbn [mbind option_bind].
  rewrite take_ge by lia. eexists. split; [reflexivity|].
  assert (Hl : length p = packet_size) by apply Hh.
  assert (Hlh : length (header_bytes type) = off_options) by reflexivity.
  unfold request_header, stamp. split.
  - apply holds_wr; [cbv; lia|]. apply holds_wr; [cbv; lia|]. apply holds_wr; [rewrite Hm; cbv; lia|done].
  - rewrite !take_wr_header by (rewrite ?Hm; cbv; lia). f_equal. f_equal. f_equal.
    rewrite Ht. by rewrite take_ge.
  - apply wr_bytes; [repeat constructor; apply byte_of_is_byte|].
    apply wr_bytes; [repeat constructor; apply byte_of_is_byte|]. apply wr_bytes; [done|].
    by apply (init_header_bytes type).
Qed.

Lemma length_encode_snoc opts o : length (encode (opts ++ [o])) = (length (encode opts) + length (tlv o))%nat.
Proof. rewrite encode_app, length_app. unfold encode at 2. cbn [map concat]. by rewrite app_nil_r. Qed.

Lemma built_uint32 p0 pkt opts code data :
  built p0 pkt opts -> 0 < code < DHCP_END -> code <> DHCP_OPTION_OVERLOAD ->
  check_option code 4 <> OPTION_UNKNOWN ->
  Z.of_nat (length (encode opts)) + 7 < DHCP_OPTIONS_BUFSIZE ->
  exists pkt', dhcp_add_option_uint32 pkt code data = Some pkt' /\
    built p0 pkt' (opts ++ [(code, be_bytes32 data)]).
Proof.
  intros Hb Hc Ho Hk Hl. unfold dhcp_add_option_uint32.
  rewrite (proj2 (Z.eqb_neq _ _) Hk).
  destruct (built_add p0 pkt opts (code, be_bytes32 data) [] Hb) as (p & E & Hp).
  - split_and!; cbn [fst snd]; [lia|lia|done|by apply Nat.leb_le].
  - unfold is_byte, DHCP_END in *. cbn. lia.
  - apply be_bytes32_bytes.
  - constructor.
  - change (length (tlv _)) with 6%nat. lia.
  - rewrite app_nil_r in E. by exists p.
Qed.

Lemma built_uint16 p0 pkt opts code data :
  built p0 pkt opts -> 0 < code < DHCP_END -> code <> DHCP_OPTION_OVERLOAD ->
  check_option code 2 <> OPTION_UNKNOWN ->
  Z.of_nat (length (encode opts)) + 5 < DHCP_OPTIONS_BUFSIZE ->
  exists pkt', dhcp_add_option_uint16 pkt code data = Some pkt' /\
    built p0 pkt' (opts ++ [(code, be_bytes16 data)]).
Proof.
  intros Hb Hc Ho Hk Hl. unfold dhcp_add_option_uint16.
  rewrite (proj2 (Z.eqb_neq _ _) Hk).
  apply (built_add p0 pkt opts (code, be_bytes16 data) [0; 0] Hb).
  - split_and!; cbn [fst snd]; [lia|lia|done|by apply Nat.leb_le].
  - unfold is_byte, DHCP_END in *. cbn. lia.
  - repeat constructor; apply byte_of_is_byte.
  - by apply (all_bytes_ok [0; 0]).
  - change (length (tlv _)) with 4%nat. lia.
Qed.

Lemma bind_eq {A B} (m : option A) (k : A -> option B) a r : m = Some a -> k a = r -> m ≫= k = r.
Proof. by intros -> <-. Qed.

(** What comes behind the options of its own that the client starts with. *)
Lemma built_tail e c type pkt opts :
  well_configured c -> built (request_header e c type) pkt opts -> (length (encode opts) <= 90)%nat ->
  exists pkt' added,
    (p ← dhcp_add_option_uint16 pkt DHCP_MAX_SIZE 576; p ← add_request_options c p; add_send_options c p)
      = Some pkt' /\
    built (request_header e c type) pkt' (opts ++ added) /\
    Forall (fun o => own_code o.1 = false) added /\
    Z.of_nat (length (encode (opts ++ added))) + 1 < DHCP_OPTIONS_BUFSIZE.
Proof.
  intros Hw Hb Hl.
  destruct (built_uint16 _ pkt opts DHCP_MAX_SIZE 576 Hb) as (p1 & E1 & Hb1);
    [unfold DHCP_MAX_SIZE, DHCP_END; lia|done..|unfold DHCP_OPTIONS_BUFSIZE; lia|].
  destruct (built_request_options _ p1 _ c Hb1 Hw) as (p2 & E2 & Hb2).
  { rewrite length_encode_snoc. change (length (tlv _)) with 4%nat. lia. }
  assert (Hreq : (length (encode (param_req c)) <= 102)%nat /\
    Forall (fun o => own_code o.1 = false) (param_req c)).
  { unfold param_req. pose proof (wc_few _ Hw). destruct (request_list c) as [|x l] eqn:El; [cbn; auto with lia|].
    rewrite <- El in *. split; [|by repeat constructor]. unfold encode. cbn [map concat].
    rewrite app_nil_r, length_tlv. cbn [snd]. rewrite length_map. lia. }
  destruct (built_add_all _ (g_hash_table_foreach (send_value_hash c)) p2 _ Hb2)
    as (p3 & added & E3 & Hb3 & Ha & Hl3).
  - intros k v Hk. apply (wc_send _ Hw k). apply elem_of_map_to_list.
    by rewrite <- g_hash_table_foreach_perm.
  - rewrite encode_app, length_app, length_encode_snoc. change (length (tlv _)) with 4%nat.
    unfold DHCP_OPTIONS_BUFSIZE. lia.
  - exists p3, ((DHCP_MAX_SIZE, be_bytes16 576) :: param_req c ++ added).
    rewrite <- !app_assoc in Hb3, Hl3. cbn [app] in Hb3, Hl3. split_and!; [|done| |done].
    { eapply bind_eq; [exact E1|]. eapply bind_eq; [exact E2|exact E3]. }
    constructor; [done|]. apply Forall_app. by destruct Hreq.
Qed.

(** A message of the client: the header, the options [own] it always has, and
    others. *)
Definition message_with (e : env) (c : GDHCPClient) (type : Z) (own : list (Z * list Z)) (pkt : list Z) :
    Prop :=
  exists added, built (request_header e c type) pkt (own ++ added) /\
    Forall (fun o => own_code o.1 = false) added /\
    Z.of_nat (length (encode (own ++ added))) + 1 < DHCP_OPTIONS_BUFSIZE.

Lemma discover_packet_built e c :
  well_configured c ->
  exists pkt, discover_packet e c 0 = Some pkt /\
    message_with e c DHCPDISCOVER [(DHCP_MESSAGE_TYPE, [DHCPDISCOVER])] pkt.
Proof.
  intros Hw. destruct (built_init e c DHCPDISCOVER Hw) as (p & E & Hb); [done|].
  destruct (built_tail e c DHCPDISCOVER _ _ Hw Hb) as (p' & added & E' & Hb' & Ha & Hl); [cbv; lia|].
  exists p'. split; [|by exists added].
  unfold discover_packet. eapply bind_eq; [exact E|]. cbv zeta.
  eapply bind_eq; [reflexivity|exact E'].
Qed.

Definition asked (c : GDHCPClient) : list (Z * list Z) :=
  [(DHCP_MESSAGE_TYPE, [DHCPREQUEST]); (DHCP_REQUESTED_IP, be_bytes32 (requested_ip c));
   (DHCP_SERVER_ID, be_bytes32 (server_ip c))].

Lemma request_packet_built e c :
  well_configured c -> state c = REQUESTING ->
  exists pkt, request_packet e c = Some pkt /\ message_with e c DHCPREQUEST (asked c) pkt.
Proof.
  intros Hw Hs. destruct (built_init e c DHCPREQUEST Hw) as (p & E & Hb); [done|].
  destruct (built_uint32 _ _ _ DHCP_REQUESTED_IP (requested_ip c) Hb) as (p1 & E1 & Hb1);
    [unfold DHCP_REQUESTED_IP, DHCP_END; lia|done..|].
  destruct (built_uint32 _ _ _ DHCP_SERVER_ID (server_ip c) Hb1) as (p2 & E2 & Hb2);
    [unfold DHCP_SERVER_ID, DHCP_END; lia|done..|].
  destruct (built_tail e c DHCPREQUEST _ _ Hw Hb2) as (p' & added & E' & Hb' & Ha & Hl);
    [apply Nat.leb_le; reflexivity|].
  exists p'. split; [|by exists added].
  unfold request_packet, is_state. rewrite Hs. eapply bind_eq; [exact E|]. cbv zeta.
  eapply bind_eq; [exact E1|]. eapply bind_eq; [exact E2|].
  destruct (proj1 (bind_Some _ _ _) E') as (q1 & F1 & F2). eapply bind_eq; [exact F1|].
  destruct (proj1 (bind_Some _ _ _) F2) as (q2 & F3 & F4). eapply bind_eq; [exact F3|].
  eapply bind_eq; [exact F4|reflexivity].
Qed.

End Packets.

(** ** Handlers *)

Section Handlers.
Context `{GLib}.

(** What the user has configured, which no handler changes. *)
Definition config (c : GDHCPClient) :=
  (type_ c, mac_address c, request_list c, send_value_hash c, has_cb c).

Lemma well_configured_same c c' : config c' = config c -> well_configured c -> well_configured c'.
Proof.
  unfold config. intros E [H1 H2 H3 H4]. simplify_eq. split; by repeat match goal with
    | E : _ = _ |- _ => rewrite E; clear E end.
Qed.

(** The system calls of a handler succeed. *)
Record env_ok (e : env) : Prop := {
  env_sock : 0 <= sock e;
  env_channel : channel_ok e = true;
  env_timer : timer_ok e = true;
}.

Definition opened (e : env) (m : ListenMode) (c : GDHCPClient) : GDHCPClient :=
  set_listener_watch true (set_listener_sockfd (sock e) (set_listen_mode m c)).

Lemma switch_open e m c :
  env_ok e -> m <> L_NONE -> listen_mode c = L_NONE ->
  switch_listening_mode e m c = Some (0, opened e m c, []).
Proof.
  intros [Hs Hc _] Hm Hl. unfold switch_listening_mode. cbv [mbind pprog_bind pget]. rewrite Hl.
  destruct (decide (L_NONE = m)); [by subst|]. unfold pwhen. rewrite bool_decide_eq_false_2 by auto.
  destruct (decide (m = L_NONE)); [done|]. rewrite (proj2 (Z.ltb_ge _ _) Hs), Hc. done.
Qed.

Lemma switch_same e m c : listen_mode c = m -> switch_listening_mode e m c = Some (0, c, []).
Proof.
  intros Hl. unfold switch_listening_mode. cbv [mbind pprog_bind pget]. rewrite Hl.
  by destruct (decide (m = m)).
Qed.

Definition armed (s : slot) (ms : Z) (cb : timer_cb) (t : timeouts) : timeouts :=
  set_slot s (next_id t) (mk_timeouts (timeout t) (t1_timeout t) (t2_timeout t) (lease_timeout t)
    (<[next_id t := (ms, cb)]> (sources t)) (next_id t + 1)).

Lemma arm_ms_run e s ms cb c :
  env_ok e -> arm_ms e s ms cb c = Some (tt, upd_tmo (armed s ms cb) c, []).
Proof. intros [_ _ Ht]. unfold arm_ms, timeout_start_ms. cbv [mbind pprog_bind]. by rewrite Ht. Qed.

Lemma arm_seconds_run e s secs cb c :
  env_ok e -> arm_seconds e s secs cb c = Some (tt, upd_tmo (armed s (secs * 1000) cb) c, []).
Proof. apply arm_ms_run. Qed.

(** A client that waits for offers. *)
Record selecting (c : GDHCPClient) : Prop := {
  selecting_state : state c = INIT_SELECTING;
  selecting_mode : listen_mode c = L2;
  selecting_watch : listener_watch c = true;
  selecting_bcast : secs_bcast_hash c = ∅;
}.

Lemma pbind_next {A B} (m : M A) (k : A -> M B) c a c1 r :
  m c = Some (a, c1, []) -> k a c1 = r -> (m ≫= k) c = r.
Proof. apply bind_next. Qed.

Ltac next := eapply pbind_next; [reflexivity|].

Lemma start_run e c :
  held c -> well_configured c -> env_ok e ->
  type_ c = G_DHCP_IPV4 -> retry_times c = 0 -> listen_mode c = L_NONE ->
  exists c1 w pkt, g_dhcp_client_start e None c = Some (0, c1, w ++ [SendRaw pkt false]) /\
    Forall is_warning w /\ selecting c1 /\ config c1 = config c /\ xid c1 = u32 (random e) /\ start c1 = now e /\
    message_with e c1 DHCPDISCOVER [(DHCP_MESSAGE_TYPE, [DHCPDISCOVER])] pkt /\
    retry_times c1 = 0 /\ tmo c1 = armed Timeout 5000 Discover_timeout (cleared (tmo c)).
Proof.
  intros Hh Hw He Hty Hr Hl.
  destruct (remove_timeouts_run c) as (w & Er & Hwarn); [by eapply held_positive|].
  set (c0 := set_state INIT_SELECTING (set_assigned_ip None (set_tmo (cleared (tmo c)) c))).
  set (c2 := set_secs_bcast_hash ∅ (set_start (now e) (set_xid (u32 (random e)) (opened e L2 c0)))).
  assert (Hc2 : config c2 = config c) by reflexivity.
  destruct (discover_packet_built e c2) as (pkt & Ep & Hp); [by apply (well_configured_same c)|].
  eexists _, w, pkt. split.
  - unfold g_dhcp_client_start. next. eapply pbind_run; [exact Er|]. next.
    unfold is_type_ll. cbn [type_ set_tmo id]. rewrite Hty. cbn [retry_times set_tmo]. rewrite Hr.
    change (0 =? DISCOVER_RETRIES) with false. change (0 =? 0) with true. cbv iota.
    eapply (pbind_next _ _ _ 0 c2).
    + next. next. fold c0. eapply pbind_next; [by apply (switch_open e L2 c0)|]. next. next. next. done.
    + cbv iota beta. change (negb (0 =? 0)) with false. cbv iota. next.
      change (default 0 (reboot_address (state c) None)) with 0. cbv zeta. change (negb (0 =? 0)) with false. cbv iota.
      rewrite <- (app_nil_r [SendRaw pkt false]). eapply pbind_run.
      * unfold send_discover. next. eapply pbind_next; [unfold plift; cbn [id]; rewrite Ep; reflexivity|].
        replace (retry_times (id c2)) with 0 by done. next. next. reflexivity.
      * eapply pbind_next; [by apply arm_seconds_run|reflexivity].
  - split_and!; done.
Qed.

(** A packet of [n] bytes for this client, of one type, with options. *)
Record answer (c : GDHCPClient) (pkt : list Z) (n type : Z) (opts : list (Z * list Z)) : Prop := {
  answer_xid : slice off_xid 4 pkt = le_bytes32 (xid c);
  answer_hlen : byte_at off_hlen pkt = 6;
  answer_chaddr : slice off_chaddr 6 pkt = take 6 (mac_address c);
  answer_holds : holds pkt opts;
  answer_room : Z.of_nat (off_options + length (encode opts)) < n;
  answer_type : has_option opts DHCP_MESSAGE_TYPE (Some [type]);
}.

Lemma on_packet_run e c pkt n type opts bcast :
  answer c pkt n type opts ->
  on_packet e pkt n bcast c = (dispatch e pkt n type bcast;; mret true) c.
Proof.
  intros [Hx Hl Hc Hh Hr Ht]. unfold on_packet. next. cbn [id].
  assert (Eo : check_package_owner c pkt = true).
  { unfold check_package_owner. rewrite Hx, Hl, Hc, !bytes_eqb_refl. done. }
  rewrite Eo. cbn [negb].
  destruct (get_option_holds pkt opts n DHCP_MESSAGE_TYPE (Some [type]) Hh Hr) as (off & Eg & Es & _);
    [unfold DHCP_MESSAGE_TYPE, DHCP_END; lia|exact Ht|].
  eapply pbind_next; [unfold plift; rewrite Eg; reflexivity|]. cbv beta iota.
  eapply pbind_next; [unfold plift; rewrite (slice1_rd _ _ _ Es); reflexivity|]. done.
Qed.

Lemma deref32_slice pkt off x :
  0 <= x < 2 ^ 32 -> slice off 4 pkt = be_bytes32 x -> deref32 pkt (Z.of_nat off) = Some x.
Proof. intros Hx E. unfold deref32. rewrite Nat2Z.id, E. cbn. by rewrite be_word32_bytes. Qed.

(** A client that has asked for an address. *)
Record requesting (server ip : Z) (c : GDHCPClient) : Prop := {
  requesting_state : state c = REQUESTING;
  requesting_mode : listen_mode c = L2;
  requesting_watch : listener_watch c = true;
  requesting_ip : requested_ip c = ip;
  requesting_server : server_ip c = server;
}.

Lemma offer_run e c pkt n opts server bcast :
  held c -> well_configured c -> env_ok e -> selecting c ->
  answer c pkt n DHCPOFFER opts -> has_option opts DHCP_SERVER_ID (Some (be_bytes32 server)) ->
  0 <= server < 2 ^ 32 ->
  exists c2 w req, on_packet e pkt n bcast c = Some (true, c2, w ++ [SendRaw req false]) /\
    Forall is_warning w /\ requesting server (field32 off_yiaddr pkt) c2 /\
    config c2 = config c /\ xid c2 = xid c /\ message_with e c2 DHCPREQUEST (asked c2) req.
Proof.
  intros Hh Hw He [Hs Hm Hwatch Hb] Ha Hsid Hsrv.
  destruct (remove_timeouts_run c) as (w & Er & Hwarn); [by eapply held_positive|].
  destruct (get_option_holds pkt opts n DHCP_SERVER_ID (Some (be_bytes32 server)) (answer_holds _ _ _ _ _ Ha)
    (answer_room _ _ _ _ _ Ha)) as (off & Eg & Es & _); [unfold DHCP_SERVER_ID, DHCP_END; lia|exact Hsid|].
  set (c0 := set_retry_times 0 (upd_tmo (set_slot Timeout 0) (set_tmo (cleared (tmo c)) c))).
  set (c1 := set_state REQUESTING (set_request_bcast false (set_state REQUESTING
    (set_requested_ip (field32 off_yiaddr pkt) (set_server_ip server c0))))).
  destruct (request_packet_built e c1) as (req & Ep & Hp); [by apply (well_configured_same c)|done|].
  exists (upd_tmo (armed Timeout (REQUEST_TIMEOUT * 1000) Request_timeout) c1), w, req. split_and!; try done.
  rewrite (on_packet_run e c pkt n DHCPOFFER opts bcast Ha).
  rewrite <- (app_nil_r (w ++ _)). eapply pbind_run; [|reflexivity].
  unfold dispatch. next. cbv beta. rewrite Hs. cbv iota. change (negb (DHCPOFFER =? DHCPOFFER)) with false. cbv iota.
  unfold on_offer. eapply pbind_run; [exact Er|]. next. next. fold c0.
  eapply pbind_next; [unfold plift; rewrite Eg; reflexivity|]. cbv beta iota.
  eapply pbind_next; [unfold plift; rewrite (deref32_slice pkt off server Hsrv Es); reflexivity|].
  next. next. next.
  assert (Eb : bcast && bool_decide (be_field16 off_secs pkt ∈ secs_bcast_hash c0) = false).
  { change (secs_bcast_hash c0) with (secs_bcast_hash c). rewrite Hb.
    rewrite bool_decide_eq_false_2 by set_solver. by rewrite andb_false_r. }
  eapply pbind_next; [unfold set, pmodify; cbn [secs_bcast_hash set_state set_requested_ip set_server_ip];
    rewrite Eb; reflexivity|].
  unfold start_request. next. cbn [id retry_times set_request_bcast set_state set_requested_ip set_server_ip].
  change (retry_times c0) with 0. change (0 =? REQUEST_RETRIES) with false. change (0 =? 0) with true. cbv iota.
  eapply (pbind_next _ _ _ tt c1).
  { next. eapply pbind_next; [by apply switch_same|]. reflexivity. }
  rewrite <- (app_nil_r [SendRaw req false]). eapply pbind_run; [|by apply arm_seconds_run].
  unfold send_request. next. eapply pbind_next; [unfold plift; cbn [id]; rewrite Ep; reflexivity|]. reflexivity.
Qed.

(** What the client reads for a code it has asked for. *)
Definition value_of (opts : list (Z * list Z)) (code : Z) : option (list string) :=
  match find (fun o => o.1 =? code) opts with
  | None => None
  | Some o =>
      let ty := dhcp_get_code_type code in
      match get_option_value_list (malloc_option_value_string o.2 ty) ty with
      | [] => None
      | l => Some l
      end
  end.

Lemma get_request_code_run pkt opts n code h :
  holds pkt opts -> Z.of_nat (off_options + length (encode opts)) < n -> 0 < code < DHCP_END ->
  get_request_code pkt n code h = Some (partial_alter (fun _ => value_of opts code) code h).
Proof.
  intros Hh Hn Hc. unfold get_request_code, value_of.
  destruct (find (fun o => o.1 =? code) opts) as [[k d]|] eqn:E.
  - assert (k = code) as -> by (apply find_some in E as [_ E]; by apply Z.eqb_eq in E).
    destruct (get_option_holds pkt opts n code (Some d) Hh Hn Hc E) as (off & Eg & Es & El).
    eapply bind_eq; [exact Eg|]. cbv iota beta. cbn [snd].
    eapply (bind_eq _ _ d).
    { unfold option_bytes. eapply bind_eq; [exact El|]. by rewrite !Nat2Z.id, Es. }
    cbv zeta. by destruct (get_option_value_list _ _).
  - pose proof (get_option_holds pkt opts n code None Hh Hn Hc E) as Eg.
    eapply bind_eq; [exact Eg|]. done.
Qed.

Lemma get_request_codes_run pkt opts n : forall codes h,
  holds pkt opts -> Z.of_nat (off_options + length (encode opts)) < n ->
  Forall (fun code => 0 < u8 code < DHCP_END) codes ->
  exists h', get_request_codes pkt n codes h = Some h' /\
    forall k, h' !! k = if bool_decide (k ∈ map u8 codes) then value_of opts k else h !! k.
Proof.
  induction codes as [|code codes IH]; intros h Hh Hn Hc; cbn [get_request_codes map].
  { exists h. split; [done|]. intros k. rewrite bool_decide_eq_false_2; [done|]. apply not_elem_of_nil. }
  apply Forall_cons_1 in Hc as [Hc Hcs].
  destruct (IH (partial_alter (fun _ => value_of opts (u8 code)) (u8 code) h) Hh Hn Hcs) as (h' & E & L).
  exists h'. split; [eapply bind_eq; [by apply get_request_code_run|exact E]|].
  intros k. rewrite L. case_bool_decide as Hk.
  { by rewrite bool_decide_eq_true_2 by (rewrite elem_of_cons; by right). }
  destruct (decide (k = u8 code)) as [->|Hne].
  - rewrite lookup_partial_alter_eq. by rewrite bool_decide_eq_true_2 by (rewrite elem_of_cons; by left).
  - rewrite lookup_partial_alter_ne by done.
    by rewrite bool_decide_eq_false_2 by (rewrite elem_of_cons; tauto).
Qed.

(** A client with a lease. *)
Record bound_for (server ip secs : Z) (c : GDHCPClient) : Prop := {
  bound_state : state c = BOUND;
  bound_mode : listen_mode c = L_NONE;
  bound_ip : assigned_ip c = Some (inet_ntoa ip);
  bound_server : server_ip c = server;
  bound_lease : lease_seconds c = secs;
  bound_times : T1 c = secs / 2 /\ T2 c = secs * 7 / 8 /\ expire c = secs;
  bound_renew : sources (tmo c) !! t1_timeout (tmo c) = Some (secs / 2 * 1000, Start_renew);
  bound_rebind : sources (tmo c) !! t2_timeout (tmo c) = Some (secs * 7 / 8 * 1000, Start_rebound);
  bound_expire : sources (tmo c) !! lease_timeout (tmo c) = Some (secs * 1000, Start_expire);
}.

Lemma remove_timeouts_cleared c t :
  tmo c = cleared t -> remove_timeouts c = Some (tt, set_tmo (cleared t) c, []).
Proof. destruct c. cbn [tmo]. intros ->. reflexivity. Qed.

Lemma start_bound_run e c t :
  env_ok e -> tmo c = cleared t ->
  exists c', start_bound e c = Some (tt, c', []) /\ config c' = config c /\
    code_value_hash c' = code_value_hash c /\
    (listen_mode c = L_NONE -> forall ip, assigned_ip c = Some (inet_ntoa ip) ->
     bound_for (server_ip c) ip (lease_seconds c) c').
Proof.
  intros He Ht. unfold start_bound. eexists. split.
  - next. eapply (pbind_next _ _ _ tt); [by apply remove_timeouts_cleared|].
    next. next. next. next. eapply pbind_next; [by apply arm_seconds_run|].
    eapply pbind_next; [by apply arm_seconds_run|]. by apply arm_seconds_run.
  - split_and!; [done|done|]. intros Hm ip Hip. split; try done.
    + split_and!; cbn; rewrite ?Z.shiftr_div_pow2 by lia; done.
    + cbn. rewrite !lookup_insert_ne by lia. rewrite lookup_insert_eq.
      by rewrite Z.shiftr_div_pow2 by lia.
    + cbn. rewrite !lookup_insert_ne by lia. by rewrite lookup_insert_eq.
    + cbn. by rewrite lookup_insert_eq.
Qed.

Lemma get_lease_run pkt opts n secs :
  holds pkt opts -> Z.of_nat (off_options + length (encode opts)) < n ->
  has_option opts DHCP_LEASE_TIME (Some (be_bytes32 secs)) -> 0 <= secs < 2 ^ 32 ->
  get_lease pkt n = Some (Z.max 10 secs).
Proof.
  intros Hh Hn Ho Hs. unfold get_lease.
  destruct (get_option_holds pkt opts n DHCP_LEASE_TIME (Some (be_bytes32 secs)) Hh Hn)
    as (off & Eg & Es & _); [unfold DHCP_LEASE_TIME, DHCP_END; lia|exact Ho|].
  eapply bind_eq; [exact Eg|]. cbv beta iota.
  eapply bind_eq; [by apply deref32_slice|]. cbv beta. f_equal.
  destruct (Z.ltb_spec secs 10); lia.
Qed.

(** The states in which an acknowledgement is waited for with a known server. *)
Definition asking (s : ClientState) : Prop := s = REQUESTING \/ s = RENEWING \/ s = REBINDING.

Lemma ack_run e c pkt n opts secs bcast :
  held c -> well_configured c -> env_ok e -> asking (state c) ->
  answer c pkt n DHCPACK opts -> has_option opts DHCP_LEASE_TIME (Some (be_bytes32 secs)) ->
  0 <= secs < 2 ^ 32 ->
  exists c' w, on_packet e pkt n bcast c =
      Some (true, c', w ++ if has_cb c LEASE_AVAILABLE then [Callback LEASE_AVAILABLE] else []) /\
    Forall is_warning w /\ config c' = config c /\
    bound_for (server_ip c) (field32 off_yiaddr pkt) (Z.max 10 secs) c' /\
    forall k, code_value_hash c' !! k =
      if bool_decide (k ∈ map u8 (request_list c)) then value_of opts k else code_value_hash c !! k.
Proof.
  intros Hh Hw He Hs Ha Hls Hsecs.
  destruct (remove_timeouts_run (set_retry_times 0 c)) as (w & Er & Hwarn); [by eapply (held_positive None [])|].
  pose proof (get_lease_run pkt opts n secs (answer_holds _ _ _ _ _ Ha) (answer_room _ _ _ _ _ Ha) Hls Hsecs) as El.
  destruct (get_request_codes_run pkt opts n (request_list c) (code_value_hash c) (answer_holds _ _ _ _ _ Ha)
    (answer_room _ _ _ _ _ Ha) (wc_codes _ Hw)) as (h & Eh & Lh).
  set (c1 := set_lease_seconds (Z.max 10 secs) (set_tmo (cleared (tmo c)) (set_retry_times 0 c))).
  set (c2 := closed (set_code_value_hash h c1)).
  set (c3 := set_assigned_ip (Some (get_ip (field32 off_yiaddr pkt))) c2).
  assert (Hc2 : config c2 = config c /\ code_value_hash c2 = h /\ tmo c2 = cleared (tmo c) /\
    state c2 = state c /\ listen_mode c2 = L_NONE /\ server_ip c2 = server_ip c /\
    lease_seconds c2 = Z.max 10 secs).
  { subst c2. unfold closed. by case_decide. }
  destruct Hc2 as (Hcfg & Hch & Ht & Hst & Hm & Hsv & Hlse).
  destruct (start_bound_run e c3 (tmo c) He Ht) as (c' & Eb & Hcfg' & Hch' & Hbound).
  exists c', w. split_and!; [|done|by rewrite Hcfg'| |by intros k; rewrite Hch', <- Lh; change (code_value_hash c3) with (code_value_hash c2); rewrite Hch].
  2:{ change (server_ip c3) with (server_ip c2) in Hbound. change (lease_seconds c3) with (lease_seconds c2) in Hbound.
      rewrite Hsv, Hlse in Hbound. by apply Hbound. }
  assert (Ecb : has_cb c2 LEASE_AVAILABLE = has_cb c LEASE_AVAILABLE) by (unfold config in Hcfg; congruence).
  rewrite (on_packet_run e c pkt n DHCPACK opts bcast Ha).
  rewrite <- (app_nil_r (w ++ _)). eapply pbind_run; [|reflexivity].
  assert (Ea : on_ack e pkt n c = Some (tt, c', w ++ if has_cb c LEASE_AVAILABLE then [Callback LEASE_AVAILABLE] else [])).
  { unfold on_ack. next. eapply pbind_run; [exact Er|].
    eapply pbind_next; [unfold plift; rewrite El; reflexivity|]. next.
    eapply (pbind_next _ _ _ tt (set_code_value_hash h c1)).
    { unfold get_request. next. eapply pbind_next; [unfold plift, id; cbn -[get_request_codes]; rewrite Eh; reflexivity|done]. }
    eapply pbind_next; [apply switch_none_run|]. fold c2. next. fold c3. next.
    eapply (pbind_next _ _ _ true c3).
    { unfold is_state. cbn [id]. change (state c3) with (state c2). rewrite Hst.
      by destruct Hs as [-> | [-> | ->]]. }
    cbn [negb]. rewrite <- (app_nil_r (if has_cb c _ then _ else _)). eapply pbind_run; [|exact Eb].
    unfold callback. next. cbv beta. change (has_cb c3) with (has_cb c2). rewrite Ecb. by destruct (has_cb c _). }
  unfold dispatch. next. cbv beta.
  destruct Hs as [-> | [-> | ->]]; exact Ea.
Qed.

End Handlers.

End DhcpClientRun.
