(* ===== verification/DhcpClientProps.v ===== *)
(** * Properties of the DHCP client

    What the client does when nobody answers, when an answer is not for it,
    when an answer lacks the server identifier, and how it claims a
    link-local address. *)

From S2P Require Import Prelude Inet Effects Glib Acd Buffer DhcpPacket DhcpFrame DhcpClient DhcpClientInv DhcpClientRun.
From stdpp Require Import list.
Open Scope Z_scope.
Import DhcpPacket DhcpFrame DhcpClient DhcpClientInv DhcpClientRun.

Module DhcpClientProps.

Section Silence.
Context `{GLib}.

(** Nothing happens but that the timer of the exchange expires, once for
    every environment of the list. *)
Fixpoint silence (es : list env) : M unit :=
  match es with
  | [] => pskip
  | e :: es => id ← pget (fun c => timeout (tmo c)); fire e id;; silence es
  end.

(** A client that has sent [k + 1] discovers and waits. *)
Record discovering (k : Z) (c : GDHCPClient) : Prop := {
  discovering_type : type_ c = G_DHCP_IPV4;
  discovering_retries : retry_times c = k;
  discovering_timer : sources (tmo c) !! timeout (tmo c) = Some (5000, Discover_timeout);
}.

Ltac next := eapply pbind_next; [reflexivity|].

(** [fire] on a pending timer. *)
Lemma fire_run e id ms cb c c' o :
  sources (tmo c) !! id = Some (ms, cb) -> 0 < ms ->
  timer_function e cb c = Some (tt, c', o) ->
  fire e id c = Some (tt, upd_tmo (fun t => set_sources (delete id (sources t)) t) c', o).
Proof.
  intros El Hm E. unfold fire. eapply pbind_next; [reflexivity|]. cbv beta. rewrite El.
  rewrite (proj2 (Z.leb_gt _ _)) by lia. rewrite <- (app_nil_r o). eapply pbind_run; [exact E|reflexivity].
Qed.

(** Removing the timers of a client whose only ones are in its fields. *)
Lemma remove_timeouts_held c :
  held c -> exists w, remove_timeouts c = Some (tt, set_tmo (cleared (tmo c)) c, w) /\ Forall is_warning w /\
    sources (cleared (tmo c)) = ∅.
Proof.
  intros Hh. destruct (remove_timeouts_run c) as (w & E & Hw); [by eapply held_positive|].
  exists w. split_and!; [done|done|]. by apply cleared_empty.
Qed.

(** The transaction: its number and when it was started. *)
Definition transaction (c : GDHCPClient) : Z * Z := (xid c, start c).

(** A DISCOVER of the transaction, sent at the time of [e]: the header of the client, the type of the message first, and then
    options that are none of those a client decides on itself. *)
Definition is_discover (t : Z * Z) (mac : list Z) (e : env) (pkt : list Z) : Prop :=
  exists c, transaction c = t /\ mac_address c = mac /\ message_with e c DHCPDISCOVER [(DHCP_MESSAGE_TYPE, [DHCPDISCOVER])] pkt.

Lemma send_discover_run e c :
  well_configured c ->
  exists c' pkt, send_discover e 0 c = Some (tt, c', [SendRaw pkt (Z.odd (retry_times c))]) /\
    config c' = config c /\ tmo c' = tmo c /\ retry_times c' = retry_times c /\ state c' = state c /\
    transaction c' = transaction c /\ is_discover (transaction c) (mac_address c) e pkt.
Proof.
  intros Hw. destruct (discover_packet_built e c Hw) as (pkt & Ep & Hm).
  assert (Hodd : negb (retry_times c mod 2 =? 0) = Z.odd (retry_times c))
    by (rewrite Zmod_odd; by destruct (Z.odd (retry_times c))).
  eexists _, pkt. split.
  - unfold send_discover. next. eapply pbind_next; [unfold plift; cbn [id]; rewrite Ep; reflexivity|].
    cbv beta zeta. cbn [id]. rewrite Hodd. next.
    eapply (pbind_next _ _ _ tt (if Z.odd (retry_times c) then _ else _)); [|reflexivity].
    destruct (Z.odd (retry_times c)); reflexivity.
  - split_and!; [by destruct (Z.odd (retry_times c))..|]. by exists c.
Qed.

(** A further discover of a client of type IPv4 that has not given up. *)
Lemma start_again e c :
  held c -> well_configured c -> env_ok e -> type_ c = G_DHCP_IPV4 -> 0 < retry_times c < 6 ->
  exists c' w pkt, g_dhcp_client_start e None c = Some (0, c', w ++ [SendRaw pkt (Z.odd (retry_times c))]) /\
    Forall is_warning w /\ config c' = config c /\ retry_times c' = retry_times c /\ state c' = state c /\
    transaction c' = transaction c /\ is_discover (transaction c) (mac_address c) e pkt /\
    tmo c' = armed Timeout 5000 Discover_timeout (cleared (tmo c)).
Proof.
  intros Hh Hw He Hty Hk. destruct (remove_timeouts_held c Hh) as (w & Er & Hwarn & _).
  set (c1 := set_tmo (cleared (tmo c)) c) in *.
  destruct (send_discover_run e c1) as (c2 & pkt & E & Hcfg & Ht & Hr & Hs & Htr & Hdis); [by apply (well_configured_same c)|].
  exists (upd_tmo (armed Timeout (DISCOVER_TIMEOUT * 1000) Discover_timeout) c2), w, pkt.
  split; [|split_and!; [done..|unfold upd_tmo; cbn [tmo set_tmo]; by rewrite Ht]].
  unfold g_dhcp_client_start. next. eapply pbind_run; [exact Er|]. fold c1. next.
  unfold is_type_ll. cbn [id]. change (type_ c1) with (type_ c). rewrite Hty.
  change (retry_times c1) with (retry_times c) in *.
  rewrite (proj2 (Z.eqb_neq (retry_times c) DISCOVER_RETRIES)) by (unfold DISCOVER_RETRIES; lia).
  rewrite (proj2 (Z.eqb_neq (retry_times c) 0)) by lia. next. cbv beta. change (negb (0 =? 0)) with false. cbv iota.
  next. change (default 0 (reboot_address (state c) None)) with 0. cbv zeta. change (negb (0 =? 0)) with false.
  cbv iota. rewrite <- (app_nil_r [SendRaw pkt _]).
  eapply pbind_run; [exact E|eapply pbind_next; [by apply arm_seconds_run|reflexivity]].
Qed.

(** A timer expires whose function arms the next one. *)
Lemma fire_next e ms0 cb0 ms cb t c c1 o :
  held c -> sources (tmo c) !! timeout (tmo c) = Some (ms0, cb0) -> 0 < ms0 ->
  timer_function e cb0 c = Some (tt, c1, o) ->
  tmo c1 = armed Timeout ms cb t -> next_id t = next_id (tmo c) ->
  exists t', fire e (timeout (tmo c)) c = Some (tt, set_tmo t' c1, o) /\ held (set_tmo t' c1) /\
    sources t' !! timeout t' = Some (ms, cb).
Proof.
  intros Hh El Hm E Ht Hn. pose proof (fire_run e _ _ _ c c1 _ El Hm E) as Ef.
  eexists. split; [exact Ef|]. split; [exact (held_fire _ _ _ _ _ _ Hh Ef)|].
  destruct (held_source _ _ _ Hh _ _ _ El) as [[_ Hlt] _]. rewrite Ht. cbn.
  rewrite lookup_delete_ne by lia. by rewrite lookup_insert_eq.
Qed.

Lemma discover_again e k c :
  held c -> well_configured c -> env_ok e -> discovering k c -> 0 <= k < 5 ->
  exists c' w pkt, fire e (timeout (tmo c)) c = Some (tt, c', w ++ [SendRaw pkt (Z.odd (k + 1))]) /\
    Forall is_warning w /\ held c' /\ config c' = config c /\ discovering (k + 1) c' /\
    transaction c' = transaction c /\ is_discover (transaction c) (mac_address c) e pkt.
Proof.
  intros Hh Hw He [Hty Hr Ht] Hk.
  set (c0 := set_retry_times (u8 (retry_times c + 1)) c).
  assert (Er : retry_times c0 = k + 1) by (cbn; rewrite Hr; apply u8_small; lia).
  destruct (start_again e c0 Hh) as (c1 & w & pkt & E & Hwarn & Hcfg & Hr1 & _ & Htr & Hdis & Ht1);
    [by apply (well_configured_same c)|done|done|lia|].
  rewrite Er in E, Hr1.
  assert (Ed : discover_timeout e c = Some (tt, c1, w ++ [SendRaw pkt (Z.odd (k + 1))])).
  { unfold discover_timeout. next. fold c0. rewrite <- (app_nil_r (w ++ _)).
    eapply pbind_run; [exact E|reflexivity]. }
  destruct (fire_next e _ _ _ _ _ c c1 _ Hh Ht ltac:(lia) Ed Ht1 eq_refl) as (t & Ef & Hh' & Hp).
  exists (set_tmo t c1), w, pkt. split_and!; [done..| |done|done]. split; [|done..].
  unfold config in Hcfg. cbn. change (type_ c0) with (type_ c) in Hcfg. congruence.
Qed.

Lemma report_no_lease e c :
  held c -> discovering 5 c ->
  exists c' w, fire e (timeout (tmo c)) c =
      Some (tt, c', w ++ if has_cb c NO_LEASE then [Callback NO_LEASE] else []) /\
    Forall is_warning w /\ retry_times c' = 0 /\ sources (tmo c') = ∅.
Proof.
  intros Hh [Hty Hr Ht]. set (c0 := set_retry_times (u8 (retry_times c + 1)) c).
  assert (Er : retry_times c0 = 6) by (cbn; by rewrite Hr).
  destruct (remove_timeouts_held c0 Hh) as (w & Erm & Hwarn & Hempty).
  set (c1 := set_tmo (cleared (tmo c0)) c0) in *.
  assert (Ed : discover_timeout e c = Some (tt, set_retry_times 0 c1,
      w ++ if has_cb c NO_LEASE then [Callback NO_LEASE] else [])).
  { unfold discover_timeout. next. fold c0. rewrite <- (app_nil_r (w ++ _)). eapply pbind_run; [|reflexivity].
    unfold g_dhcp_client_start. next. eapply pbind_run; [exact Erm|]. next.
    unfold is_type_ll. cbn [id]. change (type_ c1) with (type_ c). rewrite Hty.
    change (retry_times c1) with (retry_times c0). rewrite Er. change (6 =? DISCOVER_RETRIES) with true. cbv iota.
    rewrite <- (app_nil_r (if has_cb c NO_LEASE then _ else _)).
    eapply pbind_run; [|next; reflexivity]. unfold callback. next.
    change (has_cb c1) with (has_cb c). by destruct (has_cb c NO_LEASE). }
  eexists _, w. split; [exact (fire_run e _ _ _ c _ _ Ht ltac:(lia) Ed)|]. split_and!; [done|done|].
  cbn. change (delete (timeout (tmo c)) (sources (cleared (tmo c0))) = ∅). by rewrite Hempty, delete_empty.
Qed.

(** What is not a warning of GLib. *)
Definition heard (outs : list output) : list output :=
  List.filter (fun o => match o with SourceNotFound _ => false | _ => true end) outs.

Lemma heard_warnings w l : Forall is_warning w -> heard (w ++ l) = heard l.
Proof. induction 1 as [|o w Ho _ IH]; [done|]. by destruct o. Qed.

(** The broadcast flags of the [n] discovers after the first [k + 1]. *)
Fixpoint flags (n : nat) (k : Z) : list bool :=
  match n with
  | O => []
  | S n => Z.odd (k + 1) :: flags n (k + 1)
  end.

Lemma silence_gives_up n : forall es k c,
  Forall env_ok es -> length es = S n -> Z.of_nat n = 5 - k -> 0 <= k ->
  held c -> well_configured c -> discovering k c ->
  exists c' outs pkts, silence es c = Some (tt, c', outs) /\ Forall2 (is_discover (transaction c) (mac_address c)) (take n es) pkts /\
    heard outs = zip_with SendRaw pkts (flags n k) ++
      (if has_cb c NO_LEASE then [Callback NO_LEASE] else []) /\
    retry_times c' = 0 /\ sources (tmo c') = ∅.
Proof.
  induction n as [|n IH]; intros [|e es] k c He Hl Hn Hk Hh Hw Hd; cbn in Hl; try done;
    apply Forall_cons_1 in He as [He Hes]; cbn [silence].
  - assert (k = 5) as -> by lia. destruct es; [|done].
    destruct (report_no_lease e c Hh Hd) as (c' & w & E & Hwarn & Hr & Hs).
    eexists c', _, []. split; [next; eapply pbind_run; [exact E|reflexivity]|]. rewrite app_nil_r.
    split_and!; [done| |done|done]. rewrite heard_warnings by done. by destruct (has_cb c NO_LEASE).
  - destruct (discover_again e k c Hh Hw He Hd) as (c1 & w & pkt & E & Hwarn & Hh1 & Hcfg & Hd1 & Htr & Hdis); [lia|].
    destruct (IH es (k + 1) c1) as (c' & outs & pkts & E' & Hp & Ho & Hr & Hs);
      [done|lia|lia|lia|done|by apply (well_configured_same c)|done|].
    eexists c', _, (pkt :: pkts). split; [next; eapply pbind_run; [exact E|exact E']|].
    assert (Em : mac_address c1 = mac_address c) by (unfold config in Hcfg; congruence). rewrite Htr, Em in Hp.
    split_and!; [by constructor| |done|done]. rewrite <- app_assoc, heard_warnings by done.
    cbn. fold (heard outs). rewrite Ho.
    assert (Ecb : has_cb c1 = has_cb c) by (unfold config in Hcfg; congruence). by rewrite Ecb.
Qed.

(** C33: a client of IPv4 that has everything closed and gets no answer, however often its timer expires,
    sends six DISCOVERs of one transaction, each with the time that went by since the first, the second, fourth and sixth with the broadcast
    flag, and then reports that there is no lease and has no timer left.  This is a client whose requested and additional options are
    well-formed and few, on a system that opens sockets and makes timers. *)
Theorem discover_gives_up e0 es c :
  reachable c -> well_configured c -> type_ c = G_DHCP_IPV4 -> retry_times c = 0 -> listen_mode c = L_NONE ->
  env_ok e0 -> Forall env_ok es -> length es = 6%nat ->
  exists c' outs pkts, (_ ← g_dhcp_client_start e0 None; silence es) c = Some (tt, c', outs) /\
    Forall2 (is_discover (u32 (random e0), now e0) (mac_address c)) (e0 :: take 5 es) pkts /\
    heard outs = zip_with SendRaw pkts [false; true; false; true; false; true] ++
      (if has_cb c NO_LEASE then [Callback NO_LEASE] else []) /\
    retry_times c' = 0 /\ sources (tmo c') = ∅.
Proof.
  intros Hreach Hw Hty Hr Hl He0 Hes Hn. pose proof (reachable_held c Hreach) as Hh.
  destruct (start_run e0 c Hh Hw He0 Hty Hr Hl) as (c1 & w & pkt & E & Hwarn & _ & Hcfg & Hx & Hst & Hm & Hr1 & Ht).
  assert (Hc : has_cb c1 = has_cb c /\ type_ c1 = type_ c /\ mac_address c1 = mac_address c) by (unfold config in Hcfg; split_and!; congruence).
  destruct Hc as (Hcb & Hty1 & Hmac). assert (Htr : transaction c1 = (u32 (random e0), now e0)) by (unfold transaction; congruence).
  destruct (silence_gives_up 5 es 0 c1 Hes Hn eq_refl ltac:(lia)) as (c' & outs & pkts & E' & Hp & Ho & Hr' & Hs).
  - exact (held_client_start e0 None None [] c 0 c1 _ Hh E).
  - by apply (well_configured_same c).
  - split; [congruence|done|]. rewrite Ht. cbn. by rewrite lookup_insert_eq.
  - rewrite Htr, Hmac in Hp. eexists c', _, (pkt :: pkts). split; [eapply pbind_run; [exact E|exact E']|].
    split_and!; [constructor; [by exists c1|done]| |done|done]. rewrite <- app_assoc, heard_warnings by done.
    cbn. fold (heard outs). by rewrite Ho, Hcb.
Qed.

(** ** Answers *)

(** A packet is for the client: its transaction and its hardware address. *)
Definition for_client (c : GDHCPClient) (pkt : list Z) : Prop :=
  slice off_xid 4 pkt = le_bytes32 (xid c) /\ byte_at off_hlen pkt = 6 /\
  slice off_chaddr 6 pkt = take 6 (mac_address c).

Lemma check_package_owner_iff c pkt : check_package_owner c pkt = true <-> for_client c pkt.
Proof.
  unfold check_package_owner, for_client, bytes_eqb.
  destruct (bool_decide_reflect (slice off_xid 4 pkt = le_bytes32 (xid c))); cbn [negb]; [|intuition congruence].
  destruct (Z.eqb_spec (byte_at off_hlen pkt) 6); cbn [negb]; [|intuition congruence].
  destruct (bool_decide_reflect (slice off_chaddr 6 pkt = take 6 (mac_address c))); intuition congruence.
Qed.

Definition is_dhcp_mode (m : ListenMode) : bool :=
  match m with L2 | L3 => true | L_NONE | L_ARP => false end.

(** a DHCP packet with another transaction or hardware address than the
    client's changes nothing of the client but its status code, and nothing
    is sent: if a packet on a DHCP socket has any other effect, then a packet
    for this client was in what was received. *)
Lemma foreign_packets_ignored e data c r c' o :
  is_dhcp_mode (listen_mode c) = true ->
  listener_event e false data c = Some (r, c', o) -> (c', o) <> (set_status_code 0 c, []) ->
  exists pkt n, for_client c pkt /\
    match listen_mode c with
    | L2 => exists daddr, dhcp_recv_l2_packet (match data with inl d => Some d | inr _ => None end)
              (repeat 0 packet_size) = (pkt, inr (daddr, n))
    | _ => dhcp_recv_l3_packet data = (pkt, n) /\ 0 <= n
    end.
Proof.
  intros Hm E Hne. unfold listener_event in E.
  apply pbind_inv in E as (m & c1 & o1 & o2 & Eg & E & ->). injection Eg as <- <- <-.
  assert (Howner : forall pkt n b, on_packet e pkt n b (set_status_code 0 c) = Some (r, c', o2) -> for_client c pkt).
  { intros pkt n b Ep. apply check_package_owner_iff. unfold on_packet in Ep.
    apply pbind_inv in Ep as (x & c2 & o3 & o4 & Eg & Ep & ->). injection Eg as <- <- <-. cbn [id] in Ep.
    change (check_package_owner (set_status_code 0 c) pkt) with (check_package_owner c pkt) in Ep.
    destruct (check_package_owner c pkt); [done|]. cbn [negb] in Ep. by injection Ep as <- <- <-. }
  destruct (listen_mode c); try done; apply pbind_inv in E as (u & c1 & o3 & o4 & Eg & E & ->);
    injection Eg as <- <- <-; cbn [app] in *.
  - destruct (dhcp_recv_l2_packet _ _) as [pkt re]. destruct re as [x|[daddr n]].
    + by injection E as <- <- <-.
    + exists pkt, n. split; [by eapply Howner|by exists daddr].
  - destruct (dhcp_recv_l3_packet data) as [pkt n]. destruct (Z.ltb_spec n 0).
    + by injection E as <- <- <-.
    + exists pkt, n. split; [by eapply Howner|done].
Qed.

(** C37: an offer without a server identifier stops the exchange: the client
    stays in [INIT_SELECTING] but every timer has been removed and nothing is
    sent, so it neither retries nor gives up. *)
Theorem offer_without_server_id e c pkt n opts bcast :
  reachable c -> state c = INIT_SELECTING ->
  answer c pkt n DHCPOFFER opts -> has_option opts DHCP_SERVER_ID None ->
  exists c' w, on_packet e pkt n bcast c = Some (true, c', w) /\ Forall is_warning w /\
    state c' = INIT_SELECTING /\ sources (tmo c') = ∅.
Proof.
  intros Hr Hs Ha Hno. destruct (remove_timeouts_held c (reachable_held c Hr)) as (w & Er & Hw & Hempty).
  pose proof (get_option_holds pkt opts n DHCP_SERVER_ID None (answer_holds _ _ _ _ _ Ha)
    (answer_room _ _ _ _ _ Ha) ltac:(unfold DHCP_SERVER_ID, DHCP_END; lia) Hno) as Eg. cbn in Eg.
  eexists _, w. split.
  - rewrite (on_packet_run e c pkt n DHCPOFFER opts bcast Ha). rewrite <- (app_nil_r w).
    eapply pbind_run; [|reflexivity]. unfold dispatch. next. cbv beta. rewrite Hs. cbv iota.
    change (negb (DHCPOFFER =? DHCPOFFER)) with false. cbv iota. unfold on_offer. rewrite <- (app_nil_r w).
    eapply pbind_run; [exact Er|]. next. next. eapply pbind_next; [unfold plift; rewrite Eg; reflexivity|]. reflexivity.
  - by split_and!.
Qed.

(** An acknowledgement without a server identifier that answers the request
    for the last address stops the client for good: no timer is left, it
    listens to nothing, the user is told nothing, and it is not bound. *)
Lemma reboot_ack_without_server_id e c pkt n opts secs bcast :
  reachable c -> well_configured c -> state c = REBOOTING ->
  answer c pkt n DHCPACK opts -> has_option opts DHCP_SERVER_ID None ->
  has_option opts DHCP_LEASE_TIME (Some (be_bytes32 secs)) -> 0 <= secs < 2 ^ 32 ->
  exists c' w, on_packet e pkt n bcast c = Some (true, c', w) /\ Forall is_warning w /\
    state c' = REBOOTING /\ sources (tmo c') = ∅ /\ listen_mode c' = L_NONE.
Proof.
  intros Hr Hw Hs Ha Hno Hls Hsecs. pose proof (answer_holds _ _ _ _ _ Ha) as Hh.
  pose proof (answer_room _ _ _ _ _ Ha) as Hn.
  pose proof (get_option_holds pkt opts n DHCP_SERVER_ID None Hh Hn
    ltac:(unfold DHCP_SERVER_ID, DHCP_END; lia) Hno) as Eg. cbn in Eg.
  pose proof (get_lease_run pkt opts n secs Hh Hn Hls Hsecs) as El.
  destruct (get_request_codes_run pkt opts n (request_list c) (code_value_hash c) Hh Hn (wc_codes _ Hw))
    as (h & Eh & _).
  set (c0 := set_retry_times 0 (set_request_bcast bcast c)).
  destruct (remove_timeouts_held c0 (reachable_held c Hr)) as (w & Er & Hwn & Hempty).
  set (c1 := set_lease_seconds (Z.max 10 secs) (set_tmo (cleared (tmo c0)) c0)).
  set (c2 := closed (set_code_value_hash h c1)).
  set (c3 := set_assigned_ip (Some (get_ip (field32 off_yiaddr pkt))) c2).
  assert (Hc2 : state c2 = state c /\ tmo c2 = cleared (tmo c0) /\ listen_mode c2 = L_NONE)
    by (subst c2; unfold closed; by case_decide).
  destruct Hc2 as (Hs2 & Ht2 & Hm2). exists c3, w. split; [|split_and!; [done|by rewrite <- Hs|by change (tmo c3) with (tmo c2); rewrite Ht2|done]].
  rewrite (on_packet_run e c pkt n DHCPACK opts bcast Ha). rewrite <- (app_nil_r w).
  eapply pbind_run; [|reflexivity]. unfold dispatch. next. cbv beta. rewrite Hs. cbv iota. next.
  unfold on_answer. change (DHCPACK =? DHCPACK) with true. cbv iota. unfold on_ack. next. fold c0.
  rewrite <- (app_nil_r w). eapply pbind_run; [exact Er|].
  eapply pbind_next; [unfold plift; rewrite El; reflexivity|]. next.
  eapply (pbind_next _ _ _ tt (set_code_value_hash h c1)).
  { unfold get_request. next. eapply pbind_next; [unfold plift, id; cbn -[get_request_codes]; rewrite Eh; reflexivity|done]. }
  eapply pbind_next; [apply switch_none_run|]. fold c2. next. fold c3. next.
  eapply (pbind_next _ _ _ false c3); [|reflexivity].
  unfold is_state. cbn [id]. change (state c3) with (state c2). rewrite Hs2, Hs. cbn.
  eapply pbind_next; [unfold plift; rewrite Eg; reflexivity|]. reflexivity.
Qed.

(** When the last request is not answered the client reports that there is
    no lease, but keeps the state [REQUESTING] and the count of 3; starting it
    again then sends a DISCOVER in that state, in which an offer is ignored. *)
Lemma restart_after_requests_deaf e e' c :
  reachable c -> well_configured c -> env_ok e' -> type_ c = G_DHCP_IPV4 ->
  state c = REQUESTING -> retry_times c = 2 ->
  exists c1 c' w pkt,
    request_timeout e c = Some (tt, c1, if has_cb c NO_LEASE then [Callback NO_LEASE] else []) /\
    g_dhcp_client_start e' None c1 = Some (0, c', w ++ [SendRaw pkt true]) /\ Forall is_warning w /\
    state c' = REQUESTING /\
    forall e'' pkt n opts bcast, answer c' pkt n DHCPOFFER opts ->
      on_packet e'' pkt n bcast c' = Some (true, c', []).
Proof.
  intros Hreach Hw He Hty Hs Hr. set (c1 := set_retry_times 3 c).
  assert (E1 : request_timeout e c = Some (tt, c1, if has_cb c NO_LEASE then [Callback NO_LEASE] else [])).
  { unfold request_timeout. eapply (pbind_next _ _ _ tt c1).
    { unfold incr_retry_times, set, pmodify. by rewrite Hr. }
    unfold start_request. next. change (retry_times (id c1) =? REQUEST_RETRIES) with true. cbv iota.
    unfold callback. next. change (has_cb c1) with (has_cb c). by destruct (has_cb c NO_LEASE). }
  destruct (start_again e' c1 (reachable_held c Hreach)) as (c' & w & pkt & E & Hwarn & _ & _ & Hs' & _);
    [by apply (well_configured_same c)|done|done|cbn; lia|].
  exists c1, c', w, pkt. change (state c1) with (state c) in Hs'. rewrite Hs in Hs'. split_and!; [done|done|done|done|].
  intros e'' pkt' n opts bcast Ha. rewrite (on_packet_run e'' c' pkt' n DHCPOFFER opts bcast Ha).
  rewrite <- (app_nil_r []). eapply pbind_run; [|reflexivity]. unfold dispatch. next. cbv beta. by rewrite Hs'.
Qed.

(** ** Claiming a link-local address *)

(** A client that claims [ip], with the next step of the claim to come. *)
Record claiming (ip n : Z) (cb : timer_cb) (c c' : GDHCPClient) : Prop := {
  claiming_held : held c';
  claiming_ip : requested_ip c' = ip;
  claiming_retries : retry_times c' = n;
  claiming_timer : exists ms, 0 < ms /\ sources (tmo c') !! timeout (tmo c') = Some (ms, cb);
  claiming_config : config c' = config c;
}.

Definition probe (c : GDHCPClient) (ip : Z) : output := SendArp (Acd.arp_send_packet (mac_address c) 0 ip).
Definition announcement (c : GDHCPClient) (ip : Z) : output := SendArp (Acd.arp_send_packet (mac_address c) ip ip).

Lemma random_delay_nonneg e s : 0 < s -> 0 <= random_delay_ms e s.
Proof. intros Hs. unfold random_delay_ms. apply Z.mod_pos_bound. lia. Qed.

Lemma config_mac c c' : config c' = config c -> mac_address c' = mac_address c.
Proof. unfold config. congruence. Qed.

Lemma client_probe_run e c :
  env_ok e -> requested_ip c <> 0 -> (retry_times c = 1 -> listen_mode c = L_NONE) ->
  exists c' ms, send_probe_packet e c = Some (tt, c', [probe c (requested_ip c)]) /\ 0 < ms /\
    tmo c' = armed Timeout ms Ipv4ll_probe_timeout (tmo c) /\ config c' = config c /\
    requested_ip c' = requested_ip c /\ retry_times c' = retry_times c.
Proof.
  intros He Hip Hl. pose proof (random_delay_nonneg e 1 ltac:(lia)) as Hd.
  set (ms := if retry_times c <? Acd.PROBE_NUM
     then random_delay_ms e (Acd.PROBE_MAX - Acd.PROBE_MIN) + Acd.PROBE_MIN * 1000 else Acd.ANNOUNCE_WAIT * 1000).
  set (c1 := if retry_times c =? 1 then opened e L_ARP (set_state IPV4LL_PROBE c) else c).
  exists (upd_tmo (armed Timeout ms Ipv4ll_probe_timeout) c1), ms. split.
  - unfold send_probe_packet. next. cbn [id]. rewrite (proj2 (Z.eqb_neq (requested_ip c) 0) Hip). next.
    eapply (pbind_next _ _ _ tt c1).
    { subst c1. destruct (Z.eqb_spec (retry_times c) 1); [|done]. next.
      eapply pbind_next; [by apply switch_open; [..|apply Hl]|done]. }
    next. replace (requested_ip c1) with (requested_ip c) by (subst c1; by destruct (_ =? 1)).
    change [probe c (requested_ip c)] with ([probe c (requested_ip c)] ++ []). eapply pbind_run; [reflexivity|].
    fold ms. by apply arm_ms_run.
  - split; [|subst c1; by destruct (_ =? 1)].
    subst ms. destruct (_ <? _); [|done]. change (Acd.PROBE_MAX - Acd.PROBE_MIN) with 1. change (Acd.PROBE_MIN * 1000) with 1000. lia.
Qed.

Lemma client_announce_run e c :
  held c -> env_ok e -> state c <> IPV4LL_DEFEND ->
  exists c' w, send_announce_packet e c = Some (tt, c', announcement c (requested_ip c) :: w) /\
    Forall is_warning w /\ tmo c' = armed Timeout 2000 Ipv4ll_announce_timeout (cleared (tmo c)) /\
    config c' = config c /\ requested_ip c' = requested_ip c /\ retry_times c' = retry_times c /\ state c' = state c.
Proof.
  intros Hh He Hs. destruct (remove_timeouts_held c Hh) as (w & Er & Hw & _).
  exists (upd_tmo (armed Timeout 2000 Ipv4ll_announce_timeout) (set_tmo (cleared (tmo c)) c)), w.
  split; [|by split_and!]. unfold send_announce_packet. next. cbn [id].
  change (announcement c (requested_ip c) :: w) with ([announcement c (requested_ip c)] ++ w).
  eapply pbind_run; [reflexivity|]. rewrite <- (app_nil_r w). eapply pbind_run; [exact Er|].
  unfold is_state. rewrite bool_decide_eq_false_2 by done. by apply arm_seconds_run.
Qed.

Lemma claim_started e ip c :
  held c -> env_ok e -> type_ c = G_DHCP_IPV4LL -> Acd.arp_random_ip (randoms e) = Some ip ->
  exists c' w, g_dhcp_client_start e None c = Some (0, c', w) /\ Forall is_warning w /\
    state c' = INIT_SELECTING /\ assigned_ip c' = assigned_ip c /\
    (requested_ip c' = ip /\ retry_times c' = 1 /\ config c' = config c) /\ listen_mode c' = L_NONE /\
    sources (tmo c') !! timeout (tmo c') = Some (random_delay_ms e Acd.PROBE_WAIT, Send_probe_packet).
Proof.
  intros Hh He Hty Hip. destruct (remove_timeouts_held c Hh) as (w & Er & Hw & _).
  set (c0 := set_state INIT_SELECTING (set_tmo (cleared (tmo c)) c)).
  set (c1 := closed (set_tmo (cleared (tmo c)) c0)).
  set (c2 := set_retry_times 1 (set_requested_ip ip (set_requested_ip 0 (set_retry_times 0 c1)))).
  set (c3 := upd_tmo (armed Timeout (random_delay_ms e Acd.PROBE_WAIT) Send_probe_packet) c2).
  assert (Hc1 : config c1 = config c /\ listen_mode c1 = L_NONE /\ tmo c1 = cleared (tmo c) /\
    state c1 = INIT_SELECTING /\ assigned_ip c1 = assigned_ip c)
    by (subst c1; unfold closed; by case_decide).
  destruct Hc1 as (Hcfg & Hm & Ht & Hs & Ha). exists c3, w. split_and!; try done.
  - unfold g_dhcp_client_start. next. rewrite <- (app_nil_r w). eapply pbind_run; [exact Er|]. next.
    unfold is_type_ll. cbn [id]. change (type_ (set_tmo _ c)) with (type_ c). rewrite Hty. next. fold c0.
    eapply (pbind_next _ _ _ tt c3); [|reflexivity]. unfold ipv4ll_start.
    eapply pbind_next; [by apply (remove_timeouts_cleared c0 (tmo c))|].
    eapply pbind_next; [apply switch_none_run|]. fold c1. next. next.
    eapply pbind_next; [unfold plift; rewrite Hip; reflexivity|]. next.
    eapply (pbind_next _ _ _ tt c2); [reflexivity|]. by apply arm_ms_run.
  - subst c3. unfold upd_tmo. cbn [tmo set_tmo].
    change (tmo c2) with (tmo c1). rewrite Ht. cbn. by rewrite lookup_insert_eq.
Qed.

Lemma claim_start e ip c :
  held c -> env_ok e -> type_ c = G_DHCP_IPV4LL -> Acd.arp_random_ip (randoms e) = Some ip ->
  0 < random_delay_ms e Acd.PROBE_WAIT ->
  exists c' w, g_dhcp_client_start e None c = Some (0, c', w) /\ Forall is_warning w /\
    claiming ip 1 Send_probe_packet c c' /\ listen_mode c' = L_NONE.
Proof.
  intros Hh He Hty Hip Hd.
  destruct (claim_started e ip c Hh He Hty Hip) as (c' & w & E & Hw & _ & _ & (Hi & Hr & Hcfg) & Hl & Ht).
  exists c', w. split_and!; [done|done| |done]. split; try done.
  - exact (held_client_start e None None [] c 0 c' _ Hh E).
  - by eexists.
Qed.

(** One step of the claim: the timer expires. *)
Lemma claim_probe e ip n n' cb c c1 :
  env_ok e -> ip <> 0 -> claiming ip n cb c c1 ->
  (cb = Send_probe_packet /\ n' = n /\ listen_mode c1 = L_NONE) \/
  (cb = Ipv4ll_probe_timeout /\ n' = n + 1 /\ 1 <= n < 3) ->
  exists c', fire e (timeout (tmo c1)) c1 = Some (tt, c', [probe c ip]) /\
    claiming ip n' Ipv4ll_probe_timeout c c'.
Proof.
  intros He Hip [Hh Hci Hcn (ms & Hms & Ht) Hcfg] Hcb. pose proof (config_mac _ _ Hcfg) as Hmac.
  assert (G : forall c2 c0, tmo c2 = tmo c1 -> timer_function e cb c1 = send_probe_packet e c2 ->
    (retry_times c2 = 1 -> listen_mode c2 = L_NONE) -> config c2 = config c -> requested_ip c2 = ip ->
    mac_address c2 = mac_address c -> retry_times c2 = c0 ->
    exists c', fire e (timeout (tmo c1)) c1 = Some (tt, c', [probe c ip]) /\
      claiming ip c0 Ipv4ll_probe_timeout c c').
  { intros c2 c0 Et Ef Hl Hcfg2 Hip2 Hmac2 Hn2.
    destruct (client_probe_run e c2 He ltac:(congruence) Hl) as (c3 & ms' & E & Hms' & Ht3 & Hcfg3 & Hip3 & Hn3).
    unfold probe in E. rewrite Hmac2, Hip2 in E.
    destruct (fire_next e ms cb ms' Ipv4ll_probe_timeout (tmo c1) c1 c3 [probe c ip] Hh Ht Hms) as (t & Ef' & Hh' & Hp');
      [by rewrite Ef|by rewrite Ht3, Et|done|].
    exists (set_tmo t c3). split; [done|]. split; [done|cbn; congruence|cbn; congruence|by exists ms'|].
    change (config (set_tmo t c3)) with (config c3). congruence. }
  destruct Hcb as [(-> & -> & Hl)|(-> & -> & Hn)].
  - apply (G c1); try done; congruence.
  - apply (G (set_retry_times (u8 (retry_times c1 + 1)) c1)); try done.
    + cbn [timer_function]. unfold ipv4ll_probe_timeout. next. cbn [id].
      rewrite (proj2 (Z.eqb_neq (retry_times c1) Acd.PROBE_NUM)) by (unfold Acd.PROBE_NUM; lia). by next.
    + cbn. rewrite Hcn, u8_small by lia. lia.
    + cbn. rewrite Hcn. apply u8_small. lia.
Qed.

Lemma claim_announce e ip n n' cb c c1 :
  env_ok e -> claiming ip n cb c c1 ->
  (cb = Ipv4ll_probe_timeout /\ n = 3 /\ n' = 1) \/
  (cb = Ipv4ll_announce_timeout /\ n = 1 /\ n' = 2 /\ state c1 <> IPV4LL_DEFEND) ->
  exists c' w, fire e (timeout (tmo c1)) c1 = Some (tt, c', announcement c ip :: w) /\ Forall is_warning w /\
    claiming ip n' Ipv4ll_announce_timeout c c' /\ state c' <> IPV4LL_DEFEND.
Proof.
  intros He [Hh Hci Hcn (ms & Hms & Ht) Hcfg] Hcb. pose proof (config_mac _ _ Hcfg) as Hmac.
  assert (G : forall c2, tmo c2 = tmo c1 -> timer_function e cb c1 = send_announce_packet e c2 ->
    config c2 = config c -> requested_ip c2 = ip -> mac_address c2 = mac_address c -> retry_times c2 = n' ->
    state c2 <> IPV4LL_DEFEND ->
    exists c' w, fire e (timeout (tmo c1)) c1 = Some (tt, c', announcement c ip :: w) /\ Forall is_warning w /\
      claiming ip n' Ipv4ll_announce_timeout c c' /\ state c' <> IPV4LL_DEFEND).
  { intros c2 Et Ef Hcfg2 Hip2 Hmac2 Hn2 Hs2.
    assert (Hh2 : held c2) by (unfold held; by rewrite Et).
    destruct (client_announce_run e c2 Hh2 He Hs2) as (c3 & w & E & Hw & Ht3 & Hcfg3 & Hip3 & Hn3 & Hs3).
    unfold announcement in E. rewrite Hmac2, Hip2 in E.
    destruct (fire_next e ms cb 2000 Ipv4ll_announce_timeout (cleared (tmo c1)) c1 c3 (announcement c ip :: w)
      Hh Ht Hms) as (t & Ef' & Hh' & Hp'); [by rewrite Ef|by rewrite Ht3, Et|done|].
    exists (set_tmo t c3), w. split_and!; [done|done| |cbn; congruence].
    split; [done|cbn; congruence|cbn; congruence|by exists 2000|].
    change (config (set_tmo t c3)) with (config c3). congruence. }
  destruct Hcb as [(-> & -> & ->)|(-> & -> & -> & Hs)].
  - apply (G (set_retry_times 1 (set_retry_times 0 (set_state IPV4LL_ANNOUNCE c1)))); try done.
    cbn [timer_function]. unfold ipv4ll_probe_timeout. next. cbn [id]. rewrite Hcn.
    change (3 =? Acd.PROBE_NUM) with true. cbv iota. next. next. by next.
  - apply (G (set_retry_times 2 c1)); try done.
    cbn [timer_function]. unfold ipv4ll_announce_timeout. next. cbn [id]. rewrite Hcn.
    change (negb (1 =? Acd.ANNOUNCE_NUM)) with true. cbv iota.
    eapply pbind_next; [unfold incr_retry_times, set, pmodify; rewrite Hcn; reflexivity|]. done.
Qed.

Lemma claim_done e ip c c1 :
  claiming ip 2 Ipv4ll_announce_timeout c c1 ->
  exists c', fire e (timeout (tmo c1)) c1 =
      Some (tt, c', if has_cb c IPV4LL_AVAILABLE then [Callback IPV4LL_AVAILABLE] else []) /\
    state c' = IPV4LL_MONITOR /\ assigned_ip c' = Some (inet_ntoa ip).
Proof.
  intros [Hh Hci Hcn (ms & Hms & Ht) Hcfg].
  assert (Hcb : has_cb c1 = has_cb c) by (unfold config in Hcfg; congruence).
  eexists. split; [eapply fire_run; [exact Ht|done|]|].
  - cbn [timer_function]. unfold ipv4ll_announce_timeout. next. cbn [id]. rewrite Hcn.
    change (negb (2 =? Acd.ANNOUNCE_NUM)) with false. cbv iota. next. next.
    rewrite <- (app_nil_r (if has_cb c _ then _ else _)). eapply pbind_run; [|next; reflexivity].
    unfold callback. next. cbn [has_cb set_assigned_ip set_state]. rewrite Hcb.
    by destruct (has_cb c IPV4LL_AVAILABLE).
  - cbn. by rewrite Hci.
Qed.

(** C36: without a conflict a client of link-local addresses claims the random
    address it starts with, which is one of 169.254.1.0 - 169.254.254.255: it
    sends three probes and two announcements for it as its timer expires and
    then has the address and tells its user.  The system opens sockets and makes timers, and the random delay before the first
    probe is not 0, with which the client never starts ([ipv4ll_zero_delay_never_starts]). *)
Theorem ipv4ll_claims e0 e1 e2 e3 e4 e5 e6 ip c :
  reachable c -> type_ c = G_DHCP_IPV4LL ->
  Forall env_ok [e0; e1; e2; e3; e4; e5; e6] ->
  Acd.arp_random_ip (randoms e0) = Some ip -> 0 < random_delay_ms e0 Acd.PROBE_WAIT ->
  exists c' outs, (_ ← g_dhcp_client_start e0 None; silence [e1; e2; e3; e4; e5; e6]) c = Some (tt, c', outs) /\
    heard outs = [probe c ip; probe c ip; probe c ip; announcement c ip; announcement c ip] ++
      (if has_cb c IPV4LL_AVAILABLE then [Callback IPV4LL_AVAILABLE] else []) /\
    state c' = IPV4LL_MONITOR /\ assigned_ip c' = Some (inet_ntoa ip) /\ 0xa9fe0100 <= ip <= 0xa9fefeff.
Proof.
  intros Hr Hty He Hip Hd. rewrite !Forall_cons in He. destruct He as (He0 & He1 & He2 & He3 & He4 & He5 & He6 & _).
  destruct (Acd.arp_random_ip_range _ _ Hip) as [Hrange _].
  destruct (claim_start e0 ip c (reachable_held c Hr) He0 Hty Hip Hd) as (c1 & w1 & E1 & W1 & K1 & Hl1).
  destruct (claim_probe e1 ip 1 1 _ c c1 He1 ltac:(lia) K1) as (c2 & E2 & K2); [by left|].
  destruct (claim_probe e2 ip 1 2 _ c c2 He2 ltac:(lia) K2) as (c3 & E3 & K3); [right; split_and!; [done|lia..]|].
  destruct (claim_probe e3 ip 2 3 _ c c3 He3 ltac:(lia) K3) as (c4 & E4 & K4); [right; split_and!; [done|lia..]|].
  destruct (claim_announce e4 ip 3 1 _ c c4 He4 K4) as (c5 & w5 & E5 & W5 & K5 & S5); [by left|].
  destruct (claim_announce e5 ip 1 2 _ c c5 He5 K5) as (c6 & w6 & E6 & W6 & K6 & _); [by right|].
  destruct (claim_done e6 ip c c6 K6) as (c7 & E7 & S7 & A7).
  eexists c7, _. split; [eapply pbind_run; [exact E1|]; cbn [silence];
    do 6 (next; eapply pbind_run; [eassumption|]); reflexivity|].
  split_and!; [|done|done|lia|lia].
  rewrite heard_warnings by done. cbn [app]. unfold heard. cbn. fold (heard (w5 ++ announcement c ip :: w6 ++
    (if has_cb c IPV4LL_AVAILABLE then [Callback IPV4LL_AVAILABLE] else []) ++ [])).
  do 4 f_equal. rewrite heard_warnings by done. cbn. f_equal. fold (heard (w6 ++
    (if has_cb c IPV4LL_AVAILABLE then [Callback IPV4LL_AVAILABLE] else []) ++ [])).
  rewrite heard_warnings by done. by destruct (has_cb c IPV4LL_AVAILABLE).
Qed.

(** When the random delay before the first probe is 0 the timer
    descriptor is disarmed: the client of link-local addresses waits forever,
    however often its timer is polled. *)
Lemma ipv4ll_zero_delay_never_starts e es ip c :
  reachable c -> env_ok e -> type_ c = G_DHCP_IPV4LL -> Acd.arp_random_ip (randoms e) = Some ip ->
  random_delay_ms e Acd.PROBE_WAIT = 0 ->
  exists c' w, (_ ← g_dhcp_client_start e None; silence es) c = Some (tt, c', w) /\ Forall is_warning w /\
    state c' = INIT_SELECTING /\ assigned_ip c' = assigned_ip c.
Proof.
  intros Hr He Hty Hip Hd. destruct (claim_started e ip c (reachable_held c Hr) He Hty Hip)
    as (c' & w & E & Hw & Hs & Ha & _ & _ & Ht). rewrite Hd in Ht.
  exists c', w. split; [|done]. rewrite <- (app_nil_r w). eapply pbind_run; [exact E|].
  induction es as [|e' es IH]; [done|]. cbn [silence]. next.
  eapply pbind_next; [|exact IH]. unfold fire. next. cbv beta. by rewrite Ht.
Qed.

End Silence.
(** ** Examples *)

#[local] Existing Instance glib_reference.

Definition demo_client : GDHCPClient := g_dhcp_client_new G_DHCP_IPV4 demo_mac.
Definition demo_ll : GDHCPClient := g_dhcp_client_new G_DHCP_IPV4LL demo_mac.

Definition demo_run (evs : list event) : GDHCPClient := default demo_client (run evs demo_client).

Lemma demo_run_reachable evs :
  bool_decide (is_Some (run evs demo_client)) = true -> reachable (demo_run evs).
Proof.
  unfold demo_run. destruct (run evs demo_client) as [c|] eqn:E; [|done]. intros _.
  eapply run_reachable; [apply (reach_new G_DHCP_IPV4 demo_mac)|exact E].
Qed.

Lemma demo_env_ok e : e = demo_env -> env_ok e.
Proof. intros ->. split; [vm_compute; discriminate|reflexivity..]. Qed.

Lemma demo_configured c :
  mac_address c = demo_mac -> request_list c = [] -> send_value_hash c = ∅ -> well_configured c.
Proof.
  intros Hm Hr Hs. split.
  - rewrite Hm. split; [done|by apply all_bytes_ok].
  - by rewrite Hr.
  - rewrite Hr. cbn. lia.
  - intros k v E. by rewrite Hs, lookup_empty in E.
Qed.

Definition demo_offer : list Z := encode [(DHCP_MESSAGE_TYPE, [DHCPOFFER]);
  (DHCP_SERVER_ID, [192; 168; 1; 1])] ++ [DHCP_END].
Definition no_id_offer : list (Z * list Z) := [(DHCP_MESSAGE_TYPE, [DHCPOFFER])].
Definition no_id_ack : list (Z * list Z) := [(DHCP_MESSAGE_TYPE, [DHCPACK]); (DHCP_LEASE_TIME, be_bytes32 3600)].

Definition demo_selecting : GDHCPClient := demo_run [Start demo_env None].
Definition demo_rebooting : GDHCPClient := demo_run [Start demo_env (Some "192.168.1.2"%string)].
Definition demo_requesting : GDHCPClient :=
  demo_run [Start demo_env None; Packet demo_env false (inl (demo_frame demo_offer)); Timer demo_env 2; Timer demo_env 3].

Lemma demo_answer c type opts :
  mac_address c = demo_mac -> xid c = 77 -> Forall plain_opt opts -> (length (encode opts) <= 50)%nat ->
  has_option opts DHCP_MESSAGE_TYPE (Some [type]) ->
  answer c (demo_reply (encode opts ++ [DHCP_END])) 548 type opts.
Proof.
  intros Hm Hx Ho Hl Ht. split; [rewrite Hx; reflexivity|reflexivity|rewrite Hm; reflexivity| |unfold off_options; lia|done].
  unfold demo_reply. split_and!; [|done|].
  - rewrite !length_app, !repeat_length. change (length (le_bytes32 77)) with 4%nat.
    change (length demo_mac) with 6%nat. change (length (be_bytes32 DHCP_MAGIC)) with 4%nat. cbn [length].
    unfold packet_size. lia.
  - exists ([2; 1; 6; 0] ++ le_bytes32 77 ++ repeat 0 8%nat ++ [192; 168; 1; 2] ++ repeat 0 8%nat ++ demo_mac ++
      repeat 0 202%nat ++ be_bytes32 DHCP_MAGIC), (repeat 0 (388 - length (encode opts ++ [DHCP_END]))).
    split; [reflexivity|]. by rewrite <- !app_assoc.
Qed.

Lemma discover_gives_up_witness :
  exists c' outs pkts, (_ ← g_dhcp_client_start demo_env None; silence (repeat demo_env 6%nat)) demo_client =
      Some (tt, c', outs) /\ Forall2 (is_discover (u32 (random demo_env), now demo_env) (mac_address demo_client)) (repeat demo_env 6%nat) pkts /\
    heard outs = zip_with SendRaw pkts [false; true; false; true; false; true] ++ [].
Proof.
  destruct (discover_gives_up demo_env (repeat demo_env 6%nat) demo_client) as (c' & outs & pkts & E & Hp & Ho & _).
  - apply reach_new.
  - by apply demo_configured.
  - reflexivity.
  - reflexivity.
  - reflexivity.
  - by apply demo_env_ok.
  - repeat (constructor; [by apply demo_env_ok|]). constructor.
  - reflexivity.
  - exists c', outs, pkts. split; [exact E|]. split; [exact Hp|exact Ho].
Defined.

Lemma foreign_packets_ignored_witness :
  exists pkt n daddr, for_client demo_selecting pkt /\
    dhcp_recv_l2_packet (Some (demo_frame demo_offer)) (repeat 0 packet_size) = (pkt, inr (daddr, n)).
Proof.
  assert (Hs : match listener_event demo_env false (inl (demo_frame demo_offer)) demo_selecting with
    Some (_, c', _) => state c' = REQUESTING | None => False end) by by vm_compute.
  destruct (listener_event demo_env false (inl (demo_frame demo_offer)) demo_selecting) as [[[r c'] o]|] eqn:E;
    [|by destruct Hs].
  destruct (foreign_packets_ignored demo_env (inl (demo_frame demo_offer)) demo_selecting r c' o)
    as (pkt & n & Hf & daddr & Er).
  - by vm_compute.
  - exact E.
  - intros [= F _]. rewrite F in Hs. vm_compute in Hs. discriminate.
  - exists pkt, n, daddr. split; [exact Hf|exact Er].
Defined.

Lemma offer_without_server_id_witness :
  exists c' w, on_packet demo_env (demo_reply (encode no_id_offer ++ [DHCP_END])) 548 true demo_selecting =
      Some (true, c', w) /\ state c' = INIT_SELECTING /\ sources (tmo c') = ∅.
Proof.
  destruct (offer_without_server_id demo_env demo_selecting (demo_reply (encode no_id_offer ++ [DHCP_END])) 548
    no_id_offer true) as (c' & w & E & _ & Hs & Ht).
  - apply demo_run_reachable. by vm_compute.
  - by vm_compute.
  - apply demo_answer; [by vm_compute..| |cbn; lia|reflexivity].
    constructor; [split_and!; [done..|by apply Nat.leb_le]|constructor].
  - reflexivity.
  - exists c', w. split_and!; [exact E|exact Hs|exact Ht].
Defined.

Lemma reboot_ack_without_server_id_witness :
  exists c' w, on_packet demo_env (demo_reply (encode no_id_ack ++ [DHCP_END])) 548 true demo_rebooting =
      Some (true, c', w) /\ state c' = REBOOTING /\ sources (tmo c') = ∅ /\ listen_mode c' = L_NONE.
Proof.
  destruct (reboot_ack_without_server_id demo_env demo_rebooting (demo_reply (encode no_id_ack ++ [DHCP_END])) 548
    no_id_ack 3600 true) as (c' & w & E & _ & Hs & Ht & Hl).
  - apply demo_run_reachable. by vm_compute.
  - by apply demo_configured; vm_compute.
  - by vm_compute.
  - apply demo_answer; [by vm_compute..| |apply Nat.leb_le; reflexivity|reflexivity].
    repeat (constructor; [split_and!; [done..|by apply Nat.leb_le]|]). constructor.
  - reflexivity.
  - reflexivity.
  - lia.
  - exists c', w. split_and!; [exact E|exact Hs|exact Ht|exact Hl].
Defined.

Lemma restart_after_requests_deaf_witness :
  exists c1 c' w pkt, request_timeout demo_env demo_requesting = Some (tt, c1, []) /\
    g_dhcp_client_start demo_env None c1 = Some (0, c', w ++ [SendRaw pkt true]) /\ state c' = REQUESTING.
Proof.
  destruct (restart_after_requests_deaf demo_env demo_env demo_requesting) as (c1 & c' & w & pkt & E1 & E2 & _ & Hs & _).
  - apply demo_run_reachable. by vm_compute.
  - by apply demo_configured; vm_compute.
  - by apply demo_env_ok.
  - by vm_compute.
  - by vm_compute.
  - by vm_compute.
  - exists c1, c', w, pkt. split_and!; [|exact E2|exact Hs]. rewrite E1. by vm_compute.
Defined.

Definition ll_env : env := mk_env 1000 77 [0x1234] 5 true true.
Definition ll_env0 : env := mk_env 1000 3000 [0x1234] 5 true true.

Lemma ll_env_ok : env_ok ll_env /\ env_ok ll_env0.
Proof. split; (split; [vm_compute; discriminate|reflexivity..]). Qed.

Lemma ipv4ll_claims_witness :
  exists c' outs, (_ ← g_dhcp_client_start ll_env None; silence (repeat ll_env 6%nat)) demo_ll = Some (tt, c', outs) /\
    state c' = IPV4LL_MONITOR /\ assigned_ip c' = Some (inet_ntoa 0xa9fe1334).
Proof.
  destruct (ipv4ll_claims ll_env ll_env ll_env ll_env ll_env ll_env ll_env 0xa9fe1334 demo_ll)
    as (c' & outs & E & _ & Hs & Ha & _).
  - apply reach_new.
  - reflexivity.
  - repeat (constructor; [apply ll_env_ok|]). constructor.
  - by vm_compute.
  - by vm_compute.
  - exists c', outs. split_and!; [exact E|exact Hs|exact Ha].
Defined.

Lemma ipv4ll_zero_delay_never_starts_witness :
  exists c' w, (_ ← g_dhcp_client_start ll_env0 None; silence (repeat ll_env 20%nat)) demo_ll = Some (tt, c', w) /\
    state c' = INIT_SELECTING.
Proof.
  destruct (ipv4ll_zero_delay_never_starts ll_env0 (repeat ll_env 20%nat) 0xa9fe1334 demo_ll) as (c' & w & E & _ & Hs & _).
  - apply reach_new.
  - apply ll_env_ok.
  - reflexivity.
  - by vm_compute.
  - by vm_compute.
  - exists c', w. split; [exact E|exact Hs].
Defined.

End DhcpClientProps.
