(* ===== verification/DhcpExchange.v ===== *)
(** * A client and a server on one link

    The frames the client sends through its packet socket reach the server's
    UDP socket without their headers; the frames of the server reach the
    packet socket of the client whole.  With that the client of
    gdhcp/client.c acquires a lease from the server of gdhcp/server.c in two
    rounds. *)

From S2P Require Import Prelude Inet Effects Glib Buffer DhcpPacket DhcpFrame DhcpServer DhcpClient DhcpClientInv DhcpClientRun.
From stdpp Require Import list.
Open Scope Z_scope.
Import DhcpPacket DhcpFrame DhcpClientRun.

Module DhcpExchange.

(** ** The link *)

(** The payload the kernel hands to the server's socket. *)
Definition to_server (o : DhcpClient.output) : option (list Z) :=
  match o with
  | DhcpClient.SendRaw pkt bcast =>
      Some (drop 28 (take (Z.to_nat IP_UPD_DHCP_SIZE)
        (build_frame (set_broadcast pkt bcast) DhcpClient.INADDR_ANY CLIENT_PORT
           DhcpClient.INADDR_BROADCAST SERVER_PORT)))
  | DhcpClient.SendKernel pkt _ _ => Some (take 548 pkt)
  | _ => None
  end.

(** The frame the client's packet socket receives. *)
Definition to_client (o : DhcpServer.output) : option (list Z) :=
  match o with
  | DhcpServer.SendRaw pkt source_ip dest_ip _ =>
      Some (take (Z.to_nat IP_UPD_DHCP_SIZE) (build_frame pkt source_ip SERVER_PORT dest_ip CLIENT_PORT))
  | _ => None
  end.

Section Exchange.
Context `{GLib}.

Fixpoint server_gets (e : DhcpServer.env) (msgs : list (list Z)) :
    DhcpServer.server_prog unit :=
  match msgs with
  | [] => pskip
  | m :: msgs => _ ← DhcpServer.listener_event e false (inl m); server_gets e msgs
  end.

Fixpoint client_gets (e : DhcpClient.env) (frames : list (list Z)) : DhcpClient.M unit :=
  match frames with
  | [] => pskip
  | f :: frames => DhcpClient.handle (DhcpClient.Packet e false (inl f));; client_gets e frames
  end.

(** The client starts; twice the server answers what the client has sent.
    [ce] and [se] are what the system calls answer on either side. *)
Definition exchange (ce0 ce1 ce2 : DhcpClient.env) (se1 se2 : DhcpServer.env)
    (c : DhcpClient.GDHCPClient) (s : DhcpServer.GDHCPServer) :
    option (DhcpClient.GDHCPClient * DhcpServer.GDHCPServer * list DhcpClient.output) :=
  '(_, c, o) ← DhcpClient.g_dhcp_client_start ce0 None c;
  '(_, s, r) ← server_gets se1 (omap to_server o) s;
  '(_, c, o) ← client_gets ce1 (omap to_client r) c;
  '(_, s, r) ← server_gets se2 (omap to_server o) s;
  '(_, c, o) ← client_gets ce2 (omap to_client r) c;
  Some (c, s, o).

(** ** What arrives of a packet *)

Definition trimmed (pkt : list Z) : list Z := take 548 pkt ++ repeat 0 80.

Lemma slice_trimmed off n pkt :
  length pkt = packet_size -> (off + n <= 548)%nat -> slice off n (trimmed pkt) = slice off n pkt.
Proof.
  intros Hl Hn. apply (slice_agree 548); [|done]. unfold trimmed.
  rewrite take_app_le by (rewrite length_take, Hl; unfold packet_size; lia). by rewrite take_take.
Qed.

Lemma holds_trimmed pkt opts :
  holds pkt opts -> Z.of_nat (length (encode opts)) + 1 <= DHCP_OPTIONS_BUFSIZE -> holds (trimmed pkt) opts.
Proof.
  intros (Hl & Ho & hdr & rest & Hh & ->) Hf. unfold DHCP_OPTIONS_BUFSIZE in Hf.
  assert (Hl' := Hl). rewrite !length_app in Hl'. cbn [length] in Hl'. unfold packet_size, off_options in *.
  split_and!; [| done |].
  - unfold trimmed. rewrite length_app, length_take, Hl. reflexivity.
  - exists hdr, (take (548 - (240 + length (encode opts) + 1)) rest ++ repeat 0 80). split; [done|].
    unfold trimmed. rewrite take_app_ge by lia. rewrite take_app_ge by lia. rewrite Hh.
    replace (548 - 240 - length (encode opts))%nat with (S (548 - (240 + length (encode opts) + 1))) by lia.
    cbn [take]. rewrite <- !app_assoc. done.
Qed.

(** The fields of a request. *)
Lemma request_fields e c type pkt opts :
  well_configured c -> type = DHCPDISCOVER \/ type = DHCPREQUEST ->
  built (request_header e c type) pkt opts ->
  slice off_op 1 pkt = [BOOTREQUEST] /\ slice off_hlen 1 pkt = [6] /\
  slice off_xid 4 pkt = le_bytes32 (DhcpClient.xid c) /\ slice off_flags 2 pkt = [0; 0] /\
  slice off_ciaddr 4 pkt = [0; 0; 0; 0] /\
  slice off_chaddr 16 pkt = DhcpClient.mac_address c ++ repeat 0 10%nat /\
  slice off_cookie 4 pkt = be_bytes32 DHCP_MAGIC.
Proof.
  intros Hw Hty Hb. pose proof (built_header _ _ _ Hb) as E.
  unfold request_header, DhcpClient.stamp in E.
  destruct (wc_mac _ Hw) as [Hm _].
  destruct (DhcpClient.mac_address c) as [|m0 [|m1 [|m2 [|m3 [|m4 [|m5 [|]]]]]]]; try done.
  split_and!; (etransitivity; [apply (slice_agree off_options _ _ _ _ E); cbv; lia|]);
    destruct Hty as [-> | ->]; reflexivity.
Qed.

Lemma byte_at_slice off pkt b : slice off 1 pkt = [b] -> byte_at off pkt = b.
Proof.
  unfold slice, byte_at. intros E. destruct (drop off pkt) as [|x l] eqn:Ed; [done|].
  cbn in E. simplify_eq. rewrite <- (Nat.add_0_r off), <- nth_skipn, Ed. done.
Qed.

Lemma server_payload pkt : omap to_server [DhcpClient.SendRaw pkt false] = [take 548 pkt].
Proof. cbn [omap list_omap to_server set_broadcast]. by rewrite build_frame_payload. Qed.

(** What the client sends is a message for the server. *)
Lemma client_message e c type own pkt :
  well_configured c -> type = DHCPDISCOVER \/ type = DHCPREQUEST ->
  message_with e c type own pkt ->
  exists added, Forall (fun o => own_code o.1 = false) added /\
    DhcpServer.message (take 548 pkt) (trimmed pkt) (own ++ added) /\
    DhcpServer.chaddr_of (trimmed pkt) = DhcpClient.mac_address c ++ repeat 0 10%nat /\
    slice off_xid 4 (trimmed pkt) = le_bytes32 (DhcpClient.xid c) /\
    slice off_ciaddr 4 (trimmed pkt) = [0; 0; 0; 0] /\ slice off_flags 2 (trimmed pkt) = [0; 0].
Proof.
  intros Hw Hty (added & Hb & Ha & Hf). exists added. split; [done|].
  destruct (request_fields e c type pkt _ Hw Hty Hb) as (Hop & Hhl & Hx & Hfl & Hci & Hch & Hck).
  destruct (built_holds _ _ _ Hb) as (Hl & _).
  assert (Ht : forall off n v, slice off n pkt = v -> (off + n <= 548)%nat -> slice off n (trimmed pkt) = v)
    by (intros; subst; by apply slice_trimmed).
  split_and!; [|unfold DhcpServer.chaddr_of; apply Ht; [done|cbv; lia]|apply Ht; [done|cbv; lia]..].
  assert (El : length (take 548 pkt) = 548%nat) by (rewrite length_take, Hl; done).
  split.
  - unfold dhcp_recv_l3_packet. rewrite (take_ge (take 548 pkt)) by (rewrite El; cbv; lia).
    assert (Ew : wr 0 (take 548 pkt) (repeat 0 packet_size) = trimmed pkt)
      by (unfold wr, trimmed; rewrite El; reflexivity).
    rewrite Ew, (Ht off_cookie 4%nat _ Hck) by (cbv; lia). by rewrite bytes_eqb_refl.
  - by apply Forall_take, (built_bytes _ _ _ Hb).
  - apply holds_trimmed; [apply (built_holds _ _ _ Hb)|lia].
  - rewrite El. unfold DHCP_OPTIONS_BUFSIZE, off_options in *. lia.
  - by apply byte_at_slice, Ht; [|cbv; lia].
  - by apply byte_at_slice, Ht; [|cbv; lia].
Qed.

Lemma has_option_added (own added : list (Z * list Z)) code :
  own_code code = true -> Forall (fun o => own_code o.1 = false) added ->
  find (fun o => o.1 =? code) (own ++ added) = find (fun o => o.1 =? code) own.
Proof.
  intros Hc Ha. induction own as [|o own IH]; cbn [app find]; [|by destruct (o.1 =? code)].
  induction Ha as [|o l Ho _ IHl]; [done|]. cbn [find].
  destruct (Z.eqb_spec o.1 code); [congruence|done].
Qed.

Lemma length_configured l : (length (encode (concat (map DhcpServer.configured l))) <= 6 * length l)%nat.
Proof.
  induction l as [|kv l IH]; [done|]. cbn [map concat length]. rewrite encode_app, length_app.
  assert (length (encode (DhcpServer.configured kv)) <= 6)%nat; [|lia].
  unfold DhcpServer.configured. destruct (DhcpServer.is_address_option kv.1); [|cbn; lia].
  destruct (inet_aton kv.2); [|cbn; lia]. by apply Nat.leb_le.
Qed.

Lemma lease_options_fit s type :
  DhcpServer.inv s -> Z.of_nat (length (encode (DhcpServer.lease_options s type))) + 1 <= 40.
Proof.
  intros I. unfold DhcpServer.lease_options. rewrite !encode_app, !length_app.
  change (length (encode (DhcpServer.base_options s type))) with 9%nat.
  change (length (encode [(DHCP_LEASE_TIME, be_bytes32 (DhcpServer.lease_seconds s))])) with 6%nat.
  pose proof (length_configured (g_hash_table_foreach (DhcpServer.option_hash s))).
  pose proof (DhcpServer.options_fit s I). lia.
Qed.

(** The reply of a server reaches the client that it is for. *)
Lemma reply_arrives e s c req type nip reply :
  DhcpServer.inv s -> DhcpServer.lease_reply s req type nip reply ->
  slice off_xid 4 req = le_bytes32 (DhcpClient.xid c) ->
  DhcpServer.chaddr_of req = DhcpClient.mac_address c ++ repeat 0 10%nat ->
  length (DhcpClient.mac_address c) = 6%nat ->
  slice off_ciaddr 4 req = [0; 0; 0; 0] ->
  DhcpClient.listen_mode c = DhcpClient.L2 -> DhcpClient.listener_watch c = true ->
  exists frame, to_client (DhcpServer.reply_output s reply) = Some frame /\
    answer c (trimmed reply) 548 type (DhcpServer.lease_options s type) /\
    field32 off_yiaddr (trimmed reply) = nip /\
    DhcpClient.handle (DhcpClient.Packet e false (inl frame)) c =
      (DhcpClient.on_packet e (trimmed reply) 548 true;; pskip) (DhcpClient.set_status_code 0 c).
Proof.
  intros I [Hh [Rx Rch _ _ Rci Rhl Rck] Hy] Hx Hch Hm Hci Hl Hw.
  assert (Hlen : length reply = packet_size) by apply Hh. pose proof (lease_options_fit s type I) as Hfit.
  assert (Eo : DhcpServer.reply_output s reply =
    DhcpServer.SendRaw reply (DhcpServer.server_nip s) DhcpServer.INADDR_BROADCAST DhcpServer.MAC_BCAST_ADDR).
  { unfold DhcpServer.reply_output, DhcpServer.raw32, field32. rewrite Rci, Hci.
    change (htonl (be_word32 [0; 0; 0; 0]) =? 0) with true. by rewrite orb_true_r. }
  rewrite Eo. cbn [to_client]. eexists. split; [reflexivity|]. split_and!.
  - split.
    + rewrite slice_trimmed by (done || (cbv; lia)). congruence.
    + apply byte_at_slice. rewrite slice_trimmed by (done || (cbv; lia)). done.
    + rewrite slice_trimmed by (done || (cbv; lia)).
      assert (Es : slice off_chaddr 6 reply = take 6 (slice off_chaddr 16 reply)) by (unfold slice; by rewrite take_take).
      rewrite Es. change (slice off_chaddr 16 reply) with (DhcpServer.chaddr_of reply). rewrite Rch, Hch.
      rewrite take_app_le by lia. by rewrite !take_ge by lia.
    + apply holds_trimmed; [done|]. unfold DHCP_OPTIONS_BUFSIZE. lia.
    + unfold off_options. lia.
    + reflexivity.
  - unfold field32 in *. by rewrite slice_trimmed by (done || (cbv; lia)).
  - unfold DhcpClient.handle. eapply pbind_next; [reflexivity|]. cbv beta. rewrite Hw.
    unfold DhcpClient.listener_event. unfold mbind, pprog_bind.
    cbv [DhcpClient.set pmodify pget]. rewrite Hl.
    rewrite (recv_build_frame reply (repeat 0 packet_size) _ SERVER_PORT DhcpServer.INADDR_BROADCAST Hlen
      ltac:(by rewrite repeat_length) Rck).
    change (u16 548) with 548. change (bytes_eqb _ _) with true.
    change (take 548 reply ++ drop 548 (repeat 0 packet_size)) with (trimmed reply).
    by destruct (DhcpClient.on_packet e (trimmed reply) 548 true (DhcpClient.set_status_code 0 c)) as [[[? ?] ?]|].
Qed.

Lemma warnings_lost w : Forall DhcpClientInv.is_warning w -> omap to_server w = [].
Proof. induction 1 as [|o w Ho _ IH]; [done|]. by destruct o. Qed.

(** A round: the server answers what the client has sent last. *)
Lemma server_gets_one e s pkt w s' outs :
  Forall DhcpClientInv.is_warning w ->
  DhcpServer.listener_event e false (inl (take 548 pkt)) s = Some (true, s', outs) ->
  server_gets e (omap to_server (w ++ [DhcpClient.SendRaw pkt false])) s = Some (tt, s', outs).
Proof.
  intros Hw E. rewrite omap_app, warnings_lost, server_payload by done. cbn [app server_gets].
  unfold mbind, pprog_bind. rewrite E. cbn. by rewrite app_nil_r.
Qed.

Lemma client_gets_one e c f pkt c' o :
  DhcpClient.handle (DhcpClient.Packet e false (inl f)) c =
    (DhcpClient.on_packet e pkt 548 true;; pskip) (DhcpClient.set_status_code 0 c) ->
  DhcpClient.on_packet e pkt 548 true (DhcpClient.set_status_code 0 c) = Some (true, c', o) ->
  client_gets e [f] c = Some (tt, c', o).
Proof.
  intros E1 E2. cbn [client_gets]. unfold mbind, pprog_bind in *. rewrite E1, E2. cbn. by rewrite !app_nil_r.
Qed.

(** A client that may ask, a server that can offer. *)
Record ready (c : DhcpClient.GDHCPClient) (s : DhcpServer.GDHCPServer) : Prop := {
  ready_client : DhcpClientInv.reachable c;
  ready_configured : well_configured c;
  ready_type : DhcpClient.type_ c = DhcpClient.G_DHCP_IPV4;
  ready_retries : DhcpClient.retry_times c = 0;
  ready_closed : DhcpClient.listen_mode c = DhcpClient.L_NONE;
  ready_server : DhcpServer.reachable s;
  ready_nip : 0 <= DhcpServer.server_nip s < 2 ^ 32;
  ready_range : 0 < DhcpServer.start_ip s /\ DhcpServer.end_ip s < 2 ^ 32 - 1;
  ready_secs : 0 <= DhcpServer.lease_seconds s < 2 ^ 32;
  ready_new : DhcpServer.find_lease_by_mac (DhcpServer.leases s) (DhcpClient.mac_address c) = None;
  ready_mac : DhcpClient.mac_address c <> DhcpServer.MAC_BCAST_ADDR /\
    DhcpClient.mac_address c <> DhcpServer.MAC_ANY_ADDR;
  ready_free : exists a, DhcpServer.start_ip s <= a <= DhcpServer.end_ip s /\ DhcpServer.free_nip s a;
}.

(** The first half: an address is offered and asked for. *)
Lemma exchange_offer ce0 ce1 se1 c s :
  ready c s -> env_ok ce0 -> env_ok ce1 -> DhcpServer.alloc_ok se1 = true ->
  exists c1 o1 s1 r1 c2 w req nip p,
    DhcpClient.g_dhcp_client_start ce0 None c = Some (0, c1, o1) /\
    server_gets se1 (omap to_server o1) s = Some (tt, s1, r1) /\
    client_gets ce1 (omap to_client r1) c1 = Some (tt, c2, w ++ [DhcpClient.SendRaw req false]) /\
    Forall DhcpClientInv.is_warning w /\ DhcpClientInv.held c2 /\
    requesting (ntohl (DhcpServer.server_nip s)) nip c2 /\ config c2 = config c /\
    message_with ce1 c2 DHCPREQUEST (asked c2) req /\
    DhcpServer.reachable s1 /\ s1 = DhcpServer.set_leases (DhcpServer.leases s1) s /\
    DhcpServer.start_ip s <= nip <= DhcpServer.end_ip s /\ DhcpServer.free_nip s nip /\
    (forall b, DhcpServer.start_ip s <= b < nip -> ~ DhcpServer.free_nip s b) /\
    DhcpServer.leased (DhcpServer.leases s1) p
      (DhcpServer.mk_lease DhcpServer.OFFER_TIME nip (DhcpClient.mac_address c)).
Proof.
  intros R He0 He1 Hal. pose proof (DhcpClientInv.reachable_held c (ready_client _ _ R)) as Hh.
  pose proof (ready_configured _ _ R) as Hw. destruct (wc_mac _ Hw) as [Hm _].
  pose proof (DhcpServer.reachable_inv s (ready_server _ _ R)) as I.
  destruct (start_run ce0 c Hh Hw He0 (ready_type _ _ R) (ready_retries _ _ R) (ready_closed _ _ R))
    as (c1 & w0 & d & E1 & Hw0 & Hsel & Hcfg1 & Hx1 & _ & Hd & _).
  assert (Hh1 : DhcpClientInv.held c1)
    by exact (DhcpClientInv.held_client_start ce0 None None [] c 0 c1 _ Hh E1).
  assert (Hm1 : DhcpClient.mac_address c1 = DhcpClient.mac_address c) by (unfold config in Hcfg1; congruence).
  destruct (client_message ce0 c1 DHCPDISCOVER _ d (well_configured_same c c1 Hcfg1 Hw) (or_introl eq_refl) Hd)
    as (added & Ha & Hmsg & Hch & Hx & Hci & Hfl). rewrite Hm1 in Hch.
  assert (Emac : DhcpServer.mac_of (DhcpServer.chaddr_of (trimmed d)) = DhcpClient.mac_address c).
  { rewrite Hch. unfold DhcpServer.mac_of, DhcpServer.ETH_ALEN. rewrite take_app_le by lia. apply take_ge. lia. }
  assert (Efind : forall t, DhcpServer.find_lease_by_mac t (DhcpServer.chaddr_of (trimmed d)) =
    DhcpServer.find_lease_by_mac t (DhcpClient.mac_address c)).
  { intros t. unfold DhcpServer.find_lease_by_mac. rewrite Emac. unfold DhcpServer.mac_of, DhcpServer.ETH_ALEN.
    by rewrite (take_ge (DhcpClient.mac_address c)) by lia. }
  destruct (DhcpServer.discover_offers se1 s _ _ _ (ready_server _ _ R) (ready_nip _ _ R) (proj1 (ready_range _ _ R))
    (proj2 (ready_range _ _ R)) Hal Hmsg) as (nip & reply & p & s1 & E2 & Hrep & Hs1 & Hr & Hfree & Hmin & Hlease);
    [by unfold has_option; rewrite has_option_added..|by rewrite Efind; apply (ready_new _ _ R)|
     rewrite Emac; apply (ready_mac _ _ R)|rewrite Emac; apply (ready_mac _ _ R)|apply (ready_free _ _ R)|].
  destruct (reply_arrives ce1 s c1 (trimmed d) DHCPOFFER nip reply I Hrep Hx) as (f & Ef & Hans & Hy & Eh);
    [by rewrite Hm1|by rewrite Hm1|done|apply Hsel..|].
  destruct (offer_run ce1 (DhcpClient.set_status_code 0 c1) (trimmed reply) 548
    (DhcpServer.lease_options s DHCPOFFER) (ntohl (DhcpServer.server_nip s)) true)
    as (c2 & w & req & E3 & Hw2 & Hrq & Hcfg2 & Hx2 & Hreq);
    [done|by apply (well_configured_same c)|done|by destruct Hsel; split|by destruct Hans; split|done|apply bswap32_range|].
  rewrite Hy in Hrq. rewrite Emac in Hlease.
  exists c1, (w0 ++ [DhcpClient.SendRaw d false]), s1, [DhcpServer.reply_output s reply], c2, w, req, nip, p.
  split_and!; try done; try lia.
  - by apply server_gets_one.
  - cbn [omap list_omap]. rewrite Ef. by eapply client_gets_one.
  - exact (DhcpClientInv.held_on_packet ce1 _ _ _ None [] (DhcpClient.set_status_code 0 c1) _ _ _ Hh1 E3).
  - by rewrite Hcfg2.
  - eapply DhcpServer.reach_event; [apply (ready_server _ _ R)| |exact E2]. apply (DhcpServer.message_bytes _ _ _ Hmsg).
Qed.

(** The second half: the address is acknowledged. *)
Lemma exchange_ack ce1 ce2 se2 c s w req nip p :
  DhcpClientInv.held c -> well_configured c -> env_ok ce2 ->
  requesting (ntohl (DhcpServer.server_nip s)) nip c ->
  message_with ce1 c DHCPREQUEST (asked c) req -> Forall DhcpClientInv.is_warning w ->
  DhcpServer.reachable s -> 0 <= DhcpServer.server_nip s < 2 ^ 32 ->
  0 <= DhcpServer.lease_seconds s < 2 ^ 32 ->
  DhcpServer.leased (DhcpServer.leases s) p
    (DhcpServer.mk_lease DhcpServer.OFFER_TIME nip (DhcpClient.mac_address c)) ->
  exists s' r c' w',
    server_gets se2 (omap to_server (w ++ [DhcpClient.SendRaw req false])) s = Some (tt, s', r) /\
    client_gets ce2 (omap to_client r) c = Some (tt, c', w' ++
      if DhcpClient.has_cb c DhcpClient.LEASE_AVAILABLE
      then [DhcpClient.Callback DhcpClient.LEASE_AVAILABLE] else []) /\
    bound_for (ntohl (DhcpServer.server_nip s)) nip (Z.max 10 (DhcpServer.lease_seconds s)) c' /\
    (forall k, k ∈ map u8 (DhcpClient.request_list c) ->
      DhcpClient.code_value_hash c' !! k = value_of (DhcpServer.lease_options s DHCPACK) k) /\
    DhcpServer.leased (DhcpServer.leases s') p
      (DhcpServer.mk_lease (DhcpServer.now se2 + DhcpServer.lease_seconds s) nip (DhcpClient.mac_address c)).
Proof.
  intros Hh Hw He [Hst Hmode Hwatch Hip Hsrv] Hreq Hwn Hr Hnip Hsecs Hlease. destruct (wc_mac _ Hw) as [Hml _].
  destruct (client_message ce1 c DHCPREQUEST _ req Hw (or_intror eq_refl) Hreq)
    as (added & Ha & Hmsg & Hch & Hx & Hci & Hfl).
  destruct (DhcpServer.request_acks se2 s _ _ _ true p
    (DhcpServer.mk_lease DhcpServer.OFFER_TIME nip (DhcpClient.mac_address c)) Hr Hnip Hmsg)
    as (reply & s' & outs & E4 & Hout & Hrep & Hl').
  { unfold has_option. by rewrite has_option_added. }
  { unfold has_option. rewrite has_option_added by done. cbn. by rewrite Hsrv. }
  { unfold has_option. rewrite has_option_added by done. cbn. by rewrite Hip. }
  { done. }
  { rewrite Hch. unfold DhcpServer.mac_of, DhcpServer.ETH_ALEN. cbn [DhcpServer.lease_mac].
    rewrite take_app_le, take_ge by lia. done. }
  destruct (reply_arrives ce2 s c (trimmed req) DHCPACK nip reply (DhcpServer.reachable_inv s Hr) Hrep Hx Hch
    Hml Hci Hmode Hwatch) as (f & Ef & Hans & Hy & Eh).
  destruct (ack_run ce2 (DhcpClient.set_status_code 0 c) (trimmed reply) 548
    (DhcpServer.lease_options s DHCPACK) (DhcpServer.lease_seconds s) true)
    as (c' & w' & E5 & Hw' & Hcfg' & Hbound & Hvals);
    [done|by apply (well_configured_same c)|done|by left|by destruct Hans; split|done|done|].
  exists s', (DhcpServer.reply_output s reply :: outs), c', w'. split_and!; [by apply server_gets_one|..|done].
  - assert (Eo : omap to_client (DhcpServer.reply_output s reply :: outs) = [f]).
    { cbn [omap list_omap]. rewrite Ef, Hout. by destruct (DhcpServer.lease_added_cb s). }
    rewrite Eo. exact (client_gets_one ce2 c f (trimmed reply) c' _ Eh E5).
  - rewrite Hy in Hbound. cbn in Hbound. by rewrite Hsrv in Hbound.
  - intros k Hk. rewrite Hvals. change (DhcpClient.request_list _) with (DhcpClient.request_list c).
    by rewrite bool_decide_eq_true_2.
Qed.

(** C1: a client without a lease that starts on a link with a server that has
    a free address acquires one in two rounds: it ends up bound to the lowest
    free address of the server's range, for the server's lease time (10
    seconds at least), with the timers for renewing, rebinding and expiry
    running, has read the values of the options it asked for out of the
    server's configuration, and tells its user; and the server has that
    address leased to the client's hardware address for the lease time. *)
Theorem dhcp_exchange_binds ce0 ce1 ce2 se1 se2 c s :
  ready c s -> env_ok ce0 -> env_ok ce1 -> env_ok ce2 -> DhcpServer.alloc_ok se1 = true ->
  exists c' s' outs nip p, exchange ce0 ce1 ce2 se1 se2 c s = Some (c', s', outs) /\
    DhcpServer.start_ip s <= nip <= DhcpServer.end_ip s /\ DhcpServer.free_nip s nip /\
    (forall b, DhcpServer.start_ip s <= b < nip -> ~ DhcpServer.free_nip s b) /\
    bound_for (ntohl (DhcpServer.server_nip s)) nip (Z.max 10 (DhcpServer.lease_seconds s)) c' /\
    (forall k, k ∈ map u8 (DhcpClient.request_list c) ->
      DhcpClient.code_value_hash c' !! k = value_of (DhcpServer.lease_options s DHCPACK) k) /\
    (DhcpClient.has_cb c DhcpClient.LEASE_AVAILABLE = true ->
      DhcpClient.Callback DhcpClient.LEASE_AVAILABLE ∈ outs) /\
    DhcpServer.leased (DhcpServer.leases s') p
      (DhcpServer.mk_lease (DhcpServer.now se2 + DhcpServer.lease_seconds s) nip (DhcpClient.mac_address c)).
Proof.
  intros R He0 He1 He2 Hal.
  destruct (exchange_offer ce0 ce1 se1 c s R He0 He1 Hal) as (c1 & o1 & s1 & r1 & c2 & w & req & nip & p & E1 &
    E2 & E3 & Hwn & Hh2 & Hrq & Hcfg & Hreq & Hr1 & Hs1 & Hrange & Hfree & Hmin & Hlease).
  assert (Hc : DhcpClient.mac_address c2 = DhcpClient.mac_address c /\
    DhcpClient.request_list c2 = DhcpClient.request_list c /\
    DhcpClient.has_cb c2 = DhcpClient.has_cb c) by (unfold config in Hcfg; split_and!; congruence).
  assert (Es : DhcpServer.server_nip s1 = DhcpServer.server_nip s /\
    DhcpServer.lease_seconds s1 = DhcpServer.lease_seconds s /\
    DhcpServer.lease_options s1 DHCPACK = DhcpServer.lease_options s DHCPACK) by (rewrite Hs1; done).
  destruct Hc as (Hm & Hrl & Hcb), Es as (En & Els & Eopt). rewrite <- Hm in Hlease.
  destruct (exchange_ack ce1 ce2 se2 c2 s1 w req nip p Hh2) as (s' & r & c' & w' & E4 & E5 & Hb & Hv & Hl);
    rewrite ?En, ?Els, ?Hm; try done;
    [by apply (well_configured_same c), (ready_configured _ _ R)|apply (ready_nip _ _ R)|apply (ready_secs _ _ R)|by rewrite <- Hm|].
  rewrite ?En, ?Els, ?Hm, ?Hrl, ?Hcb, ?Eopt in *.
  eexists c', s', _, nip, p. split_and!; try done; try lia.
  - unfold exchange. rewrite E1. cbn [mbind option_bind]. rewrite E2. cbn [mbind option_bind]. rewrite E3.
    cbn [mbind option_bind]. rewrite E4. cbn [mbind option_bind]. by rewrite E5.
  - intros ->. rewrite elem_of_app. right. by apply list_elem_of_singleton.
Qed.

End Exchange.
(** ** A run *)

Section Run.
#[local] Existing Instance glib_reference.

Definition demo_env : DhcpClient.env := DhcpClient.mk_env 1000 77 [] 5 true true.

Definition demo_client : DhcpClient.GDHCPClient :=
  DhcpClient.g_dhcp_client_register_event DhcpClient.LEASE_AVAILABLE true
    (DhcpClient.g_dhcp_client_set_request DHCP_SUBNET
      (DhcpClient.g_dhcp_client_set_id
        (DhcpClient.g_dhcp_client_new DhcpClient.G_DHCP_IPV4 DhcpServer.demo_mac))).

Lemma demo_ready : ready demo_client DhcpServer.demo_range.
Proof.
  split; try done.
  - do 3 constructor. constructor.
  - split; [split; [done|by apply all_bytes_ok]|by repeat constructor|cbn; lia|].
    intros k v E. change (<[DhcpClient.G_DHCP_CLIENT_ID :=
      DhcpClient.alloc_dhcp_data_option DhcpClient.G_DHCP_CLIENT_ID (1 :: DhcpServer.demo_mac)]>
        (∅ : gmap Z (list Z)) !! k = Some v) in E. apply lookup_insert_Some in E as [[<- <-]|[_ E]]; [|by rewrite lookup_empty in E].
    exists (DhcpClient.G_DHCP_CLIENT_ID, 1 :: DhcpServer.demo_mac). split; [reflexivity|].
    split; [split_and!; [done..|by apply Nat.leb_le]|]. split_and!; [done..|by apply all_bytes_ok].
  - exact DhcpServer.demo_range_reachable.
  - exists 0xc0a80102. split; [by vm_compute|]. split; [by vm_compute|].
    intros p l [Hp _]. by apply elem_of_nil in Hp.
Qed.

Lemma dhcp_exchange_binds_witness :
  exists c' s' outs nip p, exchange demo_env demo_env demo_env DhcpServer.e0 DhcpServer.e0
      demo_client DhcpServer.demo_range = Some (c', s', outs) /\
    bound_for (ntohl (DhcpServer.server_nip DhcpServer.demo_range)) nip 28800 c' /\
    DhcpServer.leased (DhcpServer.leases s') p (DhcpServer.mk_lease 1700028800 nip DhcpServer.demo_mac).
Proof.
  assert (He : env_ok demo_env) by (split; [vm_compute; discriminate|reflexivity..]).
  destruct (dhcp_exchange_binds demo_env demo_env demo_env DhcpServer.e0 DhcpServer.e0
    demo_client DhcpServer.demo_range demo_ready He He He eq_refl)
    as (c' & s' & outs & nip & p & E & _ & _ & _ & Hb & _ & _ & Hl).
  exists c', s', outs, nip, p. split; [exact E|]. split; [exact Hb|exact Hl].
Defined.

End Run.

End DhcpExchange.
