(* ===== verification/Stats.v ===== *)
(** * Statistics files (src/stats.c)

    Every service has a file with a ring of records, mapped into memory, and a
    history file into which the ring is summarised when it is full.  A pointer
    into the mapping is its offset; the records are kept by offset, which is
    faithful as long as offsets are aligned to records, as in every file this
    code writes.  The page size, the maximal size, the clock and the outcome of
    the system calls are inputs; dates are those of GLib. *)

From S2P Require Import Prelude Effects.
From stdpp Require Import list.
Open Scope Z_scope.

Module Stats.

Definition MAGIC : Z := 0xFA00B916.
Definition sizeof_header : Z := 20.
Definition sizeof_record : Z := 48.

(** ** Data *)

Record connman_stats_data := mk_data {
  rx_packets : Z; tx_packets : Z; rx_bytes : Z; tx_bytes : Z;
  rx_errors : Z; tx_errors : Z; rx_dropped : Z; tx_dropped : Z; time : Z;
}.

Record stats_file_header := mk_hdr { magic : Z; begin : Z; end_ : Z; home : Z; roaming : Z }.

Record stats_record := mk_rec { ts : Z; rec_roaming : bool; data : connman_stats_data }.

(** [home] and [roaming] of the cache are pointers, NULL being [None]. *)
Record stats_file := mk_file {
  hdr : stats_file_header;
  recs : gmap Z stats_record;
  len : Z;
  max_len : Z;
  first : Z;
  last : Z;
  cached_home : option Z;
  cached_roaming : option Z;
}.

(** Page size and configured maximal size of a file. *)
Record config := mk_config { page_size : Z; STATS_MAX_FILE_SIZE : Z }.

Definition set_hdr (h : stats_file_header) (f : stats_file) : stats_file :=
  mk_file h (recs f) (len f) (max_len f) (first f) (last f) (cached_home f) (cached_roaming f).

Definition get_begin (f : stats_file) : Z := begin (hdr f).
Definition get_end (f : stats_file) : Z := end_ (hdr f).

Definition get_home (f : stats_file) : option Z :=
  if home (hdr f) =? UINT_MAX then None else Some (home (hdr f)).

Definition get_roaming (f : stats_file) : option Z :=
  if roaming (hdr f) =? UINT_MAX then None else Some (roaming (hdr f)).

Definition set_end (e : Z) (f : stats_file) : stats_file :=
  let h := hdr f in set_hdr (mk_hdr (magic h) (begin h) (u32 e) (home h) (roaming h)) f.

Definition set_home (p : Z) (f : stats_file) : stats_file :=
  let h := hdr f in set_hdr (mk_hdr (magic h) (begin h) (end_ h) (u32 p) (roaming h)) f.

Definition set_roaming (p : Z) (f : stats_file) : stats_file :=
  let h := hdr f in set_hdr (mk_hdr (magic h) (begin h) (end_ h) (home h) (u32 p)) f.

Definition store (p : Z) (r : stats_record) (f : stats_file) : stats_file :=
  mk_file (hdr f) (<[p := r]> (recs f)) (len f) (max_len f) (first f) (last f)
    (cached_home f) (cached_roaming f).

Definition get_next (f : stats_file) (cur : Z) : Z :=
  let cur := cur + sizeof_record in
  if last f <? cur then first f else cur.

Definition get_iterator_begin (f : stats_file) : Z := get_next f (get_begin f).
Definition get_iterator_end (f : stats_file) : Z := get_next f (get_end f).

(** ** The cache and the mapping *)

Definition update_first (f : stats_file) : stats_file :=
  mk_file (hdr f) (recs f) (len f) (max_len f) sizeof_header (last f) (cached_home f)
    (cached_roaming f).

Definition update_last (f : stats_file) : stats_file :=
  let max_entries := (len f - sizeof_header) / sizeof_record in
  mk_file (hdr f) (recs f) (len f) (max_len f) (first f)
    (first f + (max_entries - 1) * sizeof_record) (cached_home f) (cached_roaming f).

Definition update_home (f : stats_file) : stats_file :=
  mk_file (hdr f) (recs f) (len f) (max_len f) (first f) (last f) (get_home f) (cached_roaming f).

Definition update_roaming (f : stats_file) : stats_file :=
  mk_file (hdr f) (recs f) (len f) (max_len f) (first f) (last f) (cached_home f) (get_roaming f).

Definition stats_file_update_cache (f : stats_file) : stats_file :=
  update_roaming (update_home (update_last (update_first f))).

(** [err]: the error of [ftruncate], [mmap] or [mremap], if one fails. *)
Definition stats_file_remap (c : config) (err : option Z) (f : stats_file) (size : Z) :
    Z * stats_file :=
  let new_size := (size + page_size c - 1) .& Z.lnot (page_size c - 1) in
  match err with
  | Some e => (- e, f)
  | None =>
      (0, stats_file_update_cache
            (mk_file (hdr f) (recs f) new_size (max_len f) (first f) (last f) (cached_home f)
               (cached_roaming f)))
  end.

Definition header_ok (f : stats_file) : bool :=
  let h := hdr f in
  negb (negb (magic h =? MAGIC) ||
        (begin h <? sizeof_header) || (end_ h <? sizeof_header) ||
        (home h <? sizeof_header) || (roaming h <? sizeof_header) ||
        (len f <? begin h) || (len f <? end_ h)).

Definition fresh_header : stats_file_header :=
  mk_hdr MAGIC sizeof_header sizeof_header UINT_MAX UINT_MAX.

(** [size] is the size of the file as found; [f] holds what it contains. *)
Definition stats_file_setup (c : config) (err : option Z) (size : Z) (f : stats_file) :
    Z * stats_file :=
  let f := mk_file (hdr f) (recs f) (len f) (STATS_MAX_FILE_SIZE c) (first f) (last f)
             (cached_home f) (cached_roaming f) in
  let size := if size <? page_size c then page_size c else size in
  let '(r, f) := stats_file_remap c err f size in
  if r <? 0 then (r, f)
  else if header_ok f then (0, f)
  else (0, stats_file_update_cache (set_hdr fresh_header f)).

(** ** Iteration *)

Fixpoint iterate (fuel : nat) (f : stats_file) (it e : Z) : option (list stats_record) :=
  match fuel with
  | O => None
  | S fuel =>
      if it =? e then Some []
      else
        r ← recs f !! it;
        l ← iterate fuel f (get_next f it) e;
        Some (r :: l)
  end.

Definition entries (f : stats_file) : Z := (len f - sizeof_header) / sizeof_record.

(** The records that [get_next_record] delivers one after the other. *)
Definition records (f : stats_file) : option (list stats_record) :=
  iterate (S (Z.to_nat (entries f))) f (get_iterator_begin f) (get_iterator_end f).

Definition append_record (c : config) (err : option Z) (f : stats_file) (rec : stats_record) :
    Z * stats_file :=
  let '(r, f) :=
    if last f =? get_end f then
      let '(r, f) := stats_file_remap c err f (len f + page_size c) in
      if r <? 0 then (r, f) else (r, stats_file_update_cache f)
    else (0, f) in
  if r <? 0 then (r, f)
  else
    let next := get_next f (get_end f) in
    (0, set_end next (store next rec f)).

(** ** Summarising *)

(** The dates of GLib: the number of the day, the day and the month of a
    [time_t], and the date some months earlier set to a day of the month. *)
Class GDate := {
  julian : Z -> Z;
  day : Z -> Z;
  month : Z -> Z;
  months_before : Z -> Z -> Z -> Z;   (** months to subtract, day to set, today *)
}.

Section Summarize.
Context `{GDate}.

(** Does a period end between two records? *)
Definition period_ends (step_size account_period_offset : Z) (cur next : stats_record) : bool :=
  if julian (ts cur) <? step_size then
    ((day (ts cur) =? day (ts next)) && negb (month (ts cur) =? month (ts next))) ||
    ((day (ts cur) <? account_period_offset) && (account_period_offset <=? day (ts next)))
  else 0 <? julian (ts next) - julian (ts cur).

Definition list_of (r : option stats_record) : list stats_record :=
  match r with Some r => [r] | None => [] end.

(** The loop of [process_file]: [next] are the records not read yet.  The
    result is the last record read and the records appended, in order. *)
Fixpoint process_loop (step offset : Z) (home roaming : option stats_record) (cur : stats_record)
    (next : list stats_record) : stats_record * list stats_record :=
  match next with
  | [] => (cur, [])
  | n :: next =>
      let roaming := if rec_roaming cur then Some cur else roaming in
      let home := if rec_roaming cur then home else Some cur in
      if period_ends step offset cur n then
        let '(l, out) := process_loop step offset None None n next in
        (l, list_of home ++ list_of roaming ++ out)
      else process_loop step offset home roaming n next
  end.

Definition process_file (step offset : Z) (cur : option stats_record) (l : list stats_record) :
    option stats_record * list stats_record :=
  match cur, l with
  | None, [] => (None, [])
  | None, c :: l => let '(r, out) := process_loop step offset None None c l in (Some r, out)
  | Some c, l => let '(r, out) := process_loop step offset None None c l in (Some r, out)
  end.

(** [while (next && cur->ts > next->ts)]: the records left after the one that
    ended the loop, which has been read as well. *)
Fixpoint skip_older (cur : stats_record) (l : list stats_record) : list stats_record :=
  match l with
  | [] => []
  | n :: l => if ts n <? ts cur then skip_older cur l else l
  end.

Definition step_size_of (now offset : Z) : Z :=
  if 0 <=? day now - offset then months_before 2 offset now else months_before 3 offset now.

(** The records appended to the new history file, from the records of the old
    history, if there is one, and of the data file. *)
Definition summarize (now offset : Z) (data_recs : list stats_record)
    (history : option (list stats_record)) : list stats_record :=
  let step := step_size_of now offset in
  let '(cur, out1) := match history with
                      | Some h => process_file step offset None h
                      | None => (None, [])
                      end in
  let data_recs := match cur with Some c => skip_older c data_recs | None => data_recs end in
  let '(cur, out2) := process_file step offset cur data_recs in
  out1 ++ out2 ++ list_of cur.

(** The appends of [summarize]; a record that cannot be appended is dropped. *)
Definition append_all (c : config) (err : option Z) (f : stats_file) (l : list stats_record) :
    stats_file :=
  fold_left (fun f r => (append_record c err f r).2) l f.

(** What becomes of the history file. *)
Inductive history_result :=
| Unchanged
| Removed
| Replaced (f : stats_file).

(** An empty file, as [mkstemp] leaves it. *)
Definition empty_file : stats_file := mk_file (mk_hdr 0 0 0 0 0) ∅ 0 0 0 0 None None.

(** The history file is opened, summarised into a temporary file together with
    the data file and replaced by it.  [history] and [hsize] are its contents,
    [open_err] and [temp_err] the errors of opening the two files, [grow_err] of
    growing the temporary one, [link_ok] says whether linking succeeds.  The
    result of setting up the two files is not looked at; they are mapped here. *)
Definition stats_file_history_update (c : config) (now account_period_offset : Z)
    (open_err temp_err grow_err : option Z) (link_ok : bool) (history : stats_file) (hsize : Z)
    (data_file : stats_file) : option (Z * history_result) :=
  match open_err with
  | Some e => Some (- e, Unchanged)
  | None =>
      let history_file := (stats_file_setup c None hsize history).2 in
      match temp_err with
      | Some e => Some (- e, Unchanged)
      | None =>
          let temp_file := (stats_file_setup c None 0 empty_file).2 in
          hl ← records history_file;
          dl ← records data_file;
          let temp_file := append_all c grow_err temp_file
                             (summarize now account_period_offset dl (Some hl)) in
          Some (if link_ok then (0, Replaced temp_file) else (-1, Removed))
      end
  end.
End Summarize.

(** ** Updating and reading *)

(** The history update is an effect on other files. *)
Inductive output := HistoryUpdate (recs : option (list stats_record)).

(** [stats_hash]: services by address. *)
Definition stats_hash : Type := gmap Z stats_file.

(** [err] is the error of growing the file, [now] the clock. *)
Definition __connman_stats_update (c : config) (err : option Z) (now : Z) (service : Z)
    (roaming : bool) (data : connman_stats_data) : prog stats_hash output Z := fun h =>
  match h !! service with
  | None => (- EEXIST, h, [])
  | Some f =>
      let '(r, f) :=
        if (len f <? max_len f) && (last f =? get_end f)
        then stats_file_remap c err f (len f + page_size c)
        else (0, f) in
      if r <? 0 then (r, <[service := f]> h, [])
      else
        let next := get_next f (get_end f) in
        let out := if next =? get_begin f then [HistoryUpdate (records f)] else [] in
        let f := store next (mk_rec now roaming data) f in
        let f := if negb roaming then set_home next f else set_roaming next f in
        let f := set_end next f in
        (0, <[service := f]> h, out)
  end.

(** The data read, if any: [data] is left as it is when there is no record. *)
Definition __connman_stats_get (service : Z) (roaming : bool) :
    prog stats_hash output (Z * option connman_stats_data) := fun h =>
  match h !! service with
  | None => ((- EEXIST, None), h, [])
  | Some f =>
      let rec := if negb roaming then cached_home f else cached_roaming f in
      match rec with
      | None => ((0, None), h, [])
      | Some p => ((0, data <$> recs f !! p), h, [])
      end
  end.

(** [stored]: the contents of the file on disk with its size, after it could
    be opened; [err] the error of the directory, of opening it or of mapping
    it.  The file is entered before it is set up and removed on an error. *)
Definition __connman_stats_service_register (c : config) (service : Z)
    (mkdir_err open_err map_err : option Z) (alloc : bool) (stored : stats_file) (size : Z) :
    prog stats_hash output Z := fun h =>
  match mkdir_err with
  | Some e => (- e, delete service h, [])
  | None =>
      match h !! service with
      | Some _ => (- EALREADY, h, [])
      | None =>
          if negb alloc then (- ENOMEM, h, [])
          else
            match open_err with
            | Some e => (- e, delete service h, [])
            | None =>
                let '(r, f) := stats_file_setup c map_err size stored in
                if r <? 0 then (r, delete service h, []) else (0, <[service := f]> h, [])
            end
      end
  end.

Definition __connman_stats_service_unregister (service : Z) : prog stats_hash output unit :=
  modify (delete service).

(** ** The ring as a bounded list *)

Definition slot (i : Z) : Z := sizeof_header + i * sizeof_record.

(** Pages are powers of two, at least 4 KiB, and files fit in 31 bits. *)
Definition config_ok (c : config) : Prop :=
  exists k, 12 <= k <= 16 /\ page_size c = 2 ^ k /\ 0 <= STATS_MAX_FILE_SIZE c < 2 ^ 31.

(** The file represents the records [l], oldest first. *)
Record ring (c : config) (f : stats_file) (l : list stats_record) : Prop := mk_ring {
  ring_magic : magic (hdr f) = MAGIC;
  ring_begin : begin (hdr f) = slot 0;
  ring_end : end_ (hdr f) = slot (Z.of_nat (length l));
  ring_home : sizeof_header <= home (hdr f) <= UINT_MAX;
  ring_roaming : sizeof_header <= roaming (hdr f) <= UINT_MAX;
  ring_first : first f = slot 0;
  ring_last : last f = slot (entries f - 1);
  ring_room : Z.of_nat (length l) < entries f;
  ring_page : page_size c <= len f /\ len f mod page_size c = 0;
  ring_len : len f <= 2 ^ 31 + 2 ^ 16;
  ring_max : max_len f = STATS_MAX_FILE_SIZE c;
  ring_recs : forall i r, l !! i = Some r -> recs f !! slot (1 + Z.of_nat i) = Some r;
}.

(** What an update does to the list: append while there is room, and hand the
    whole list to the history when there is none. *)
Definition push (room : bool) (l : list stats_record) (r : stats_record) :
    list stats_record * list output :=
  if room then (l ++ [r], []) else ([], [HistoryUpdate (Some l)]).

Definition needs_growth (f : stats_file) (l : list stats_record) : bool :=
  (len f <? max_len f) && (Z.of_nat (length l) + 1 =? entries f).

Definition has_room (f : stats_file) (l : list stats_record) : bool :=
  needs_growth f l || (Z.of_nat (length l) + 1 <? entries f).

Lemma round_up_aligned k x :
  0 <= k -> 0 <= x -> x mod 2 ^ k = 0 -> (x + 2 ^ k - 1) .& Z.lnot (2 ^ k - 1) = x.
Proof.
  intros Hk Hx Hm.
  replace (2 ^ k - 1) with (Z.ones k) at 1 by (rewrite Z.ones_equiv; lia).
  rewrite <- Z.ldiff_land, Z.ldiff_ones_r by lia.
  rewrite Z.shiftr_div_pow2, Z.shiftl_mul_pow2 by lia.
  assert (0 < 2 ^ k) by (apply Z.pow_pos_nonneg; lia).
  pose proof (Z.div_mod x (2 ^ k) ltac:(lia)) as E. rewrite Hm in E.
  replace (x + 2 ^ k - 1) with (2 ^ k - 1 + (x / 2 ^ k) * 2 ^ k) by lia.
  rewrite Z.div_add, (Z.div_small (2 ^ k - 1)) by lia. lia.
Qed.

Lemma config_page c : config_ok c -> 4096 <= page_size c <= 65536.
Proof.
  intros (k & Hk & -> & _). change 4096 with (2 ^ 12). change 65536 with (2 ^ 16).
  split; apply Z.pow_le_mono_r; lia.
Qed.

Lemma remap_aligned c f size :
  config_ok c -> 0 <= size -> size mod page_size c = 0 ->
  stats_file_remap c None f size =
  (0, stats_file_update_cache
        (mk_file (hdr f) (recs f) size (max_len f) (first f) (last f) (cached_home f)
           (cached_roaming f))).
Proof.
  intros (k & Hk & Hp & _) H0 Hm. unfold stats_file_remap.
  rewrite Hp in *. rewrite round_up_aligned by (auto; lia). reflexivity.
Qed.

Lemma entries_range f : 4096 <= len f -> 84 <= entries f /\ slot (entries f) <= len f.
Proof.
  intros. unfold entries, slot, sizeof_header, sizeof_record.
  pose proof (Z.div_mod (len f - 20) 48 ltac:(lia)).
  pose proof (Z.mod_pos_bound (len f - 20) 48 ltac:(lia)). lia.
Qed.

Lemma get_next_slot f i :
  first f = slot 0 -> last f = slot (entries f - 1) -> 0 <= i < entries f ->
  get_next f (slot i) = slot (if i + 1 <? entries f then i + 1 else 0).
Proof.
  intros Hf Hl Hi. unfold get_next. rewrite Hf, Hl.
  unfold slot, sizeof_record. repeat case_match; bool_to_prop; lia.
Qed.

Lemma iterate_ring c f l fuel : forall i,
  ring c f l -> 2 <= entries f -> (i <= length l)%nat -> (length l - i < fuel)%nat ->
  iterate fuel f (get_next f (slot (Z.of_nat i))) (get_next f (slot (Z.of_nat (length l)))) =
  Some (drop i l).
Proof.
  induction fuel as [| fuel IH]; intros i R H2 Hi Hf; [lia |]. destruct R.
  cbn [iterate]. rewrite !get_next_slot by (auto; lia).
  destruct (decide (i = length l)) as [-> | Hn].
  { rewrite Z.eqb_refl, drop_all by lia. reflexivity. }
  replace (Z.of_nat i + 1 <? entries f) with true by (symmetry; apply Z.ltb_lt; lia).
  destruct (Z.eqb_spec (slot (Z.of_nat i + 1))
              (slot (if Z.of_nat (length l) + 1 <? entries f then Z.of_nat (length l) + 1 else 0)))
    as [E | _].
  { exfalso. revert E. unfold slot, sizeof_record. case_match; lia. }
  destruct (lookup_lt_is_Some_2 l i ltac:(lia)) as [r Hr].
  rewrite (Z.add_comm (Z.of_nat i)), (ring_recs0 i r Hr). cbn.
  pose proof (IH (S i)) as IH'. rewrite (get_next_slot f (Z.of_nat (length l))) in IH' by (auto; lia).
  replace (1 + Z.of_nat i) with (Z.of_nat (S i)) by lia.
  rewrite IH' by (first [constructor; assumption | lia]). cbn.
  rewrite (drop_S l r i Hr). reflexivity.
Qed.

Lemma records_ring c f l : config_ok c -> ring c f l -> records f = Some l.
Proof.
  intros Hc R. pose proof (config_page c Hc). pose proof R as [? ? ? ? ? ? ? ? [? ?] ? ? ?].
  destruct (entries_range f ltac:(lia)). unfold records, get_iterator_begin, get_iterator_end.
  unfold get_begin, get_end. rewrite ring_begin0, ring_end0.
  change (slot 0) with (slot (Z.of_nat 0)).
  rewrite (iterate_ring c f l _ 0 R) by lia. reflexivity.
Qed.

(** Mapping a file at a size that is a multiple of the page size. *)
Lemma ring_remap c f l size :
  config_ok c -> ring c f l -> len f <= size <= 2 ^ 31 + 2 ^ 16 -> size mod page_size c = 0 ->
  exists f', stats_file_remap c None f size = (0, f') /\ ring c f' l /\ hdr f' = hdr f /\
    recs f' = recs f /\ len f' = size /\ cached_home f' = get_home f /\
    cached_roaming f' = get_roaming f.
Proof.
  intros Hc R Hs Hm. pose proof (config_page c Hc). pose proof R as [? ? ? ? ? ? ? ? [? ?] ? ? ?].
  eexists. split; [apply remap_aligned; auto; lia |]. split; [| repeat split; reflexivity].
  constructor; cbn; auto; try lia; [].
  unfold entries in *; cbn. eapply Z.lt_le_trans; [eassumption |].
  apply Z.div_le_mono; unfold sizeof_record; lia.
Qed.

Lemma entries_grow f f' p :
  sizeof_record <= p -> len f' = len f + p -> entries f < entries f'.
Proof.
  unfold entries, sizeof_record. intros Hp ->.
  pose proof (Z.div_le_mono (len f - sizeof_header + 1 * 48) (len f + p - sizeof_header) 48
                ltac:(lia) ltac:(lia)) as E.
  rewrite Z.div_add in E by lia. lia.
Qed.

(** Writing the record after the end and moving the end. *)
Definition put (roaming : bool) (r : stats_record) (f : stats_file) : stats_file :=
  let next := get_next f (get_end f) in
  let f := store next r f in
  set_end next (if negb roaming then set_home next f else set_roaming next f).

Lemma slot_u32 f i :
  4096 <= len f -> len f <= 2 ^ 31 + 2 ^ 16 -> 0 <= i < entries f ->
  u32 (slot i) = slot i /\ sizeof_header <= slot i <= UINT_MAX /\ slot i < UINT_MAX.
Proof.
  intros Hl Hu Hi. destruct (entries_range f Hl) as [_ He].
  revert He. unfold slot, sizeof_header, sizeof_record, UINT_MAX. intros He.
  split; [apply u32_small |]; lia.
Qed.

Lemma ring_put c f l roaming r :
  config_ok c -> ring c f l ->
  ring c (put roaming r f)
    (if Z.of_nat (length l) + 1 <? entries f then l ++ [r] else []).
Proof.
  intros Hc R. pose proof (config_page c Hc). pose proof R as [? ? ? ? ? ? ? ? [? ?] ? ? Hrecs].
  assert (Hn : get_next f (get_end f) =
               slot (if Z.of_nat (length l) + 1 <? entries f then Z.of_nat (length l) + 1 else 0)).
  { unfold get_end. rewrite ring_end0. apply get_next_slot; auto; lia. }
  unfold put. rewrite Hn. set (n := if _ <? _ then _ else _).
  assert (Hr : 0 <= n < entries f).
  { subst n. destruct (entries_range f ltac:(lia)). case_match; bool_to_prop; lia. }
  destruct (slot_u32 f n ltac:(lia) ltac:(lia) Hr) as (Hu & Hb & _).
  destruct roaming; constructor; cbn; rewrite ?Hu; auto.
  all: try (subst n; case_match; rewrite ?length_app; cbn; bool_to_prop; f_equal; lia).
  all: try (subst n; case_match; rewrite ?length_app; cbn; bool_to_prop; unfold entries in *; cbn; lia).
  all: subst n; case_match eqn:E; [| intros i r' Hi; discriminate Hi]; intros i r' Hi.
  all: destruct (decide (i = length l)) as [-> | Hd];
    [rewrite list_lookup_middle in Hi by reflexivity; injection Hi as <-;
     rewrite (Z.add_comm 1), lookup_insert_eq; reflexivity |].
  all: assert (i < length (l ++ [r]))%nat by (eapply lookup_lt_Some; exact Hi);
    rewrite length_app in *; cbn in *; rewrite lookup_app_l in Hi by lia;
    rewrite lookup_insert_ne by (unfold slot, sizeof_record; lia); auto.
Qed.

Lemma last_is_end c f l :
  ring c f l -> (last f =? get_end f) = (Z.of_nat (length l) + 1 =? entries f).
Proof.
  intros []. unfold get_end. rewrite ring_last0, ring_end0. unfold slot, sizeof_record.
  apply eq_true_iff_eq. rewrite !Z.eqb_eq. lia.
Qed.

Lemma next_is_begin c f l :
  config_ok c -> ring c f l ->
  (get_next f (get_end f) =? get_begin f) = negb (Z.of_nat (length l) + 1 <? entries f).
Proof.
  intros Hc R. pose proof (config_page c Hc). pose proof R as [? ? ? ? ? ? ? ? [? ?] ? ? ?].
  unfold get_end, get_begin. rewrite ring_end0, ring_begin0, get_next_slot by (auto; lia).
  unfold slot, sizeof_record. apply eq_true_iff_eq. rewrite Z.eqb_eq. case_match; cbn; lia.
Qed.

(** The update on a file that needs no growth, or has been grown. *)
Lemma update_in_place c f l now roaming d :
  config_ok c -> ring c f l ->
  let r := mk_rec now roaming d in
  let '(l', out) := push (Z.of_nat (length l) + 1 <? entries f) l r in
  (if get_next f (get_end f) =? get_begin f then [HistoryUpdate (records f)] else []) = out /\
  ring c (put roaming r f) l' /\ records (put roaming r f) = Some l'.
Proof.
  intros Hc R r. pose proof (ring_put c f l roaming r Hc R) as P.
  rewrite (next_is_begin c f l Hc R), (records_ring c f l Hc R). unfold push.
  destruct (_ <? _); cbn; split; auto; split; auto; apply (records_ring c _ _ Hc P).
Qed.

Lemma update_aligned c f : config_ok c -> page_size c <= len f /\ len f mod page_size c = 0 ->
  (len f + page_size c) mod page_size c = 0.
Proof.
  intros Hc [H Hm]. pose proof (config_page c Hc).
  rewrite <- (Z.mul_1_l (page_size c)) at 1. rewrite Z.mod_add by lia. exact Hm.
Qed.

Lemma update_grown c f l :
  config_ok c -> ring c f l -> needs_growth f l = true ->
  exists f', stats_file_remap c None f (len f + page_size c) = (0, f') /\ ring c f' l /\
    (Z.of_nat (length l) + 1 <? entries f') = true.
Proof.
  intros Hc R Hg. pose proof (config_page c Hc). pose proof R as [? ? ? ? ? ? ? ? Hp ? ? ?].
  unfold needs_growth in Hg. bool_to_prop. pose proof Hc as (k & _ & _ & Hmax).
  destruct (ring_remap c f l (len f + page_size c) Hc R) as (f' & E & R' & _ & _ & Hl & _).
  - lia.
  - apply update_aligned; auto.
  - exists f'. split; [exact E |]. split; [exact R' |]. apply Z.ltb_lt.
    pose proof (entries_grow f f' (page_size c) ltac:(unfold sizeof_record; lia) Hl). lia.
Qed.

(** C27: The update of the statistics of a service refines the update of a
    bounded list: while there is room, or the file can grow, the new record is
    appended to the records of the file, in order; when the ring is full, its
    records go to the history and the ring is empty.  When growing the file
    fails the error is returned and nothing changes. *)
Theorem stats_update_refines c err now service roaming d h f l :
  config_ok c -> h !! service = Some f -> ring c f l ->
  (forall e, err = Some e -> 0 < e) ->
  let r := mk_rec now roaming d in
  match err with
  | Some e => if needs_growth f l
              then __connman_stats_update c err now service roaming d h = (- e, h, [])
              else True
  | None => True
  end /\
  (err = None \/ needs_growth f l = false ->
   exists f',
     __connman_stats_update c err now service roaming d h =
       (0, <[service := f']> h, (push (has_room f l) l r).2) /\
     ring c f' (push (has_room f l) l r).1 /\
     records f' = Some (push (has_room f l) l r).1).
Proof.
  intros Hc Hh R He r. split.
  { destruct err as [e |]; [| exact I]. destruct (needs_growth f l) eqn:Hg; [| exact I].
    unfold needs_growth in Hg. unfold __connman_stats_update. rewrite Hh.
    rewrite (last_is_end c f l R), Hg. unfold stats_file_remap. cbv beta iota zeta.
    assert (0 < e) by auto. replace (- e <? 0) with true by (symmetry; apply Z.ltb_lt; lia).
    rewrite (insert_id (M := gmap Z) h service f Hh). reflexivity. }
  intros Hok. unfold __connman_stats_update. rewrite Hh, (last_is_end c f l R).
  fold (needs_growth f l). unfold has_room.
  destruct (needs_growth f l) eqn:Hg; cbn [orb].
  - destruct Hok as [-> | [=]].
    destruct (update_grown c f l Hc R Hg) as (f' & -> & R' & Hroom).
    pose proof (update_in_place c f' l now roaming d Hc R') as U. rewrite Hroom in U.
    cbn in *. destruct U as (-> & U). eauto.
  - pose proof (update_in_place c f l now roaming d Hc R) as U.
    destruct (_ <? _); cbn in *; destruct U as (-> & U); eauto.
Qed.

(** ** Restart *)

Lemma header_ok_ring c f l : config_ok c -> ring c f l -> header_ok f = true.
Proof.
  intros Hc R. pose proof (config_page c Hc). pose proof R as [? ? ? ? ? ? ? ? [? ?] ? ? ?].
  destruct (entries_range f ltac:(lia)) as [_ He]. revert He ring_room0.
  unfold header_ok. rewrite ring_magic0, ring_begin0, ring_end0.
  unfold slot, sizeof_record, sizeof_header in *. intros.
  rewrite !orb_false_r. repeat (rewrite (proj2 (Z.ltb_ge _ _)) by lia). reflexivity.
Qed.

(** A file that was written by this code is taken over as it is. *)
Lemma setup_ring c f l :
  config_ok c -> ring c f l ->
  exists f', stats_file_setup c None (len f) f = (0, f') /\ ring c f' l /\
    recs f' = recs f /\ cached_home f' = get_home f /\ cached_roaming f' = get_roaming f.
Proof.
  intros Hc R. pose proof (config_page c Hc). pose proof R as [? ? ? ? ? ? ? ? [? ?] ? Hmax ?].
  unfold stats_file_setup. rewrite <- Hmax. rewrite (proj2 (Z.ltb_ge _ _)) by lia.
  replace (mk_file _ _ _ _ _ _ _ _) with f by (destruct f; reflexivity).
  destruct (ring_remap c f l (len f) Hc R ltac:(lia) ltac:(auto))
    as (f' & -> & R' & _ & Hr & _ & Hh & Hro).
  cbn. rewrite (header_ok_ring c f' l Hc R'). eauto 6.
Qed.

Lemma put_read c f l roaming r :
  config_ok c -> ring c f l ->
  exists p, (if negb roaming then get_home else get_roaming) (put roaming r f) = Some p /\
    recs (put roaming r f) !! p = Some r.
Proof.
  intros Hc R. pose proof (config_page c Hc). pose proof R as [? ? ? ? ? ? ? ? [? ?] ? ? Hrecs].
  exists (get_next f (get_end f)). unfold put. unfold get_end. rewrite ring_end0.
  rewrite get_next_slot by (auto; lia). set (n := if _ <? _ then _ else _).
  assert (Hr : 0 <= n < entries f).
  { subst n. destruct (entries_range f ltac:(lia)). case_match; bool_to_prop; lia. }
  destruct (slot_u32 f n ltac:(lia) ltac:(lia) Hr) as (Hu & _ & Hb).
  unfold get_home, get_roaming.
  destruct roaming; cbn; rewrite Hu, (proj2 (Z.eqb_neq _ _)) by lia;
    split; auto; apply lookup_insert_eq.
Qed.

(** An update that succeeds puts the record into the file, grown or not. *)
Lemma update_puts c err now service roaming d h f l h' out :
  config_ok c -> h !! service = Some f -> ring c f l -> (forall e, err = Some e -> 0 < e) ->
  __connman_stats_update c err now service roaming d h = (0, h', out) ->
  exists f1, ring c f1 l /\ h' = <[service := put roaming (mk_rec now roaming d) f1]> h.
Proof.
  intros Hc Hh R He. unfold __connman_stats_update. rewrite Hh, (last_is_end c f l R).
  fold (needs_growth f l). destruct (needs_growth f l) eqn:Hg.
  - destruct err as [e |].
    { cbn. assert (0 < e) by auto. rewrite (proj2 (Z.ltb_lt _ _)) by lia. intros [= ? ?]. lia. }
    destruct (update_grown c f l Hc R Hg) as (f' & -> & R' & _). cbn.
    intros [= <- _]. eauto.
  - cbn. intros [= <- _]. eauto.
Qed.

(** Statistics survive a restart: after an update, registering the service
    again on the file left behind makes reading the statistics of the same kind
    return exactly the data of that update, and every record is still there. *)
Lemma stats_survive_restart c err now service roaming d h f l h' out f' h0 :
  config_ok c -> h !! service = Some f -> ring c f l -> (forall e, err = Some e -> 0 < e) ->
  __connman_stats_update c err now service roaming d h = (0, h', out) ->
  h' !! service = Some f' -> h0 !! service = None ->
  exists f'',
    __connman_stats_service_register c service None None None true f' (len f') h0 =
      (0, <[service := f'']> h0, []) /\
    records f'' = records f' /\
    __connman_stats_get service roaming (<[service := f'']> h0) =
      ((0, Some d), <[service := f'']> h0, []).
Proof.
  intros Hc Hh R He HU Hf' H0.
  destruct (update_puts _ _ _ _ _ _ _ _ _ _ _ Hc Hh R He HU) as (f1 & R1 & ->).
  unfold stats_hash in *.
  rewrite lookup_insert_eq in Hf'. injection Hf' as <-.
  pose proof (ring_put c f1 l roaming (mk_rec now roaming d) Hc R1) as RP.
  destruct (setup_ring c _ _ Hc RP) as (f'' & E & R'' & Hrec & Hhome & Hroam).
  exists f''. unfold __connman_stats_service_register, stats_hash. rewrite H0. cbn [negb].
  rewrite E. split; [reflexivity |]. split.
  { rewrite (records_ring c _ _ Hc R''), (records_ring c _ _ Hc RP). reflexivity. }
  destruct (put_read c f1 l roaming (mk_rec now roaming d) Hc R1) as (p & Hp & Hl).
  unfold __connman_stats_get, stats_hash. rewrite lookup_insert_eq.
  destruct roaming; cbn in Hp |- *; rewrite ?Hhome, ?Hroam, Hp, Hrec, Hl; reflexivity.
Qed.

(** ** Setting up a file *)

Lemma round_up_range k x :
  0 <= k -> 0 <= x ->
  let y := (x + 2 ^ k - 1) .& Z.lnot (2 ^ k - 1) in x <= y < x + 2 ^ k /\ y mod 2 ^ k = 0.
Proof.
  intros Hk Hx y. subst y. assert (0 < 2 ^ k) by (apply Z.pow_pos_nonneg; lia).
  replace (2 ^ k - 1) with (Z.ones k) by (rewrite Z.ones_equiv; lia).
  rewrite <- Z.ldiff_land, Z.ldiff_ones_r by lia.
  rewrite Z.shiftr_div_pow2, Z.shiftl_mul_pow2 by lia.
  pose proof (Z.div_mod (x + 2 ^ k - 1) (2 ^ k) ltac:(lia)).
  pose proof (Z.mod_pos_bound (x + 2 ^ k - 1) (2 ^ k) ltac:(lia)).
  split; [lia |]. apply Z.mod_mul. lia.
Qed.

Lemma fresh_ring c f :
  config_ok c -> page_size c <= len f -> len f mod page_size c = 0 -> len f <= 2 ^ 31 + 2 ^ 16 ->
  max_len f = STATS_MAX_FILE_SIZE c ->
  ring c (stats_file_update_cache (set_hdr fresh_header f)) [].
Proof.
  intros Hc Hl Hm Hu Hx. pose proof (config_page c Hc).
  destruct (entries_range f ltac:(lia)) as [He _].
  constructor; cbn; auto; try (unfold sizeof_header, UINT_MAX; lia).
  all: try (intros i r Hi; discriminate Hi). all: unfold entries in *; cbn; lia.
Qed.

(** Setting up a file of any contents succeeds when it can be mapped, and
    leaves a header with the magic number and with begin and end inside the
    mapping, the first and last slots of the ring inside it as well; contents
    that fail the test of the header are replaced by an empty ring. *)
Lemma stats_setup_valid c size f :
  config_ok c -> 0 <= size <= 2 ^ 31 ->
  exists f', stats_file_setup c None size f = (0, f') /\
    magic (hdr f') = MAGIC /\
    (sizeof_header <= begin (hdr f') <= len f') /\ (sizeof_header <= end_ (hdr f') <= len f') /\
    sizeof_header <= first f' <= last f' /\ last f' + sizeof_record <= len f' /\
    ((hdr f' = hdr f /\ recs f' = recs f) \/ ring c f' []).
Proof.
  intros Hc Hs. pose proof (config_page c Hc) as Hp. pose proof Hc as (k & Hk & Hpk & Hmax).
  set (size' := if size <? page_size c then page_size c else size).
  assert (Hs' : page_size c <= size' <= 2 ^ 31) by (subst size'; case_match; bool_to_prop; lia).
  destruct (round_up_range k size' ltac:(lia) ltac:(lia)) as [Hr Hm].
  rewrite <- Hpk in Hr, Hm.
  unfold stats_file_setup. fold size'. unfold stats_file_remap. cbv beta iota zeta.
  change (0 <? 0) with false. cbv iota. cbn [hdr recs len max_len first last cached_home cached_roaming].
  set (new := (size' + page_size c - 1) .& Z.lnot (page_size c - 1)) in *.
  set (f1 := stats_file_update_cache _).
  assert (Hlen : len f1 = new) by reflexivity.
  destruct (entries_range f1 ltac:(lia)) as [He Hle].
  assert (Hlast : last f1 = slot (entries f1 - 1)) by reflexivity.
  unfold slot, sizeof_record in Hle, Hlast.
  destruct (header_ok f1) eqn:Hok; (eexists; split; [reflexivity |]).
  - unfold header_ok in Hok. rewrite negb_true_iff in Hok. bool_to_prop.
    repeat match goal with H : _ || _ = false |- _ => apply orb_false_elim in H as [? ?] end.
    bool_to_prop. unfold sizeof_record.
    change (first f1) with sizeof_header. repeat split; try lia. left; split; reflexivity.
  - assert (R : ring c (stats_file_update_cache (set_hdr fresh_header f1)) [])
      by (apply fresh_ring; rewrite ?Hlen; auto; lia).
    change (last (stats_file_update_cache (set_hdr fresh_header f1))) with (last f1).
    change (len (stats_file_update_cache (set_hdr fresh_header f1))) with (len f1).
    unfold sizeof_record. cbn [first hdr stats_file_update_cache update_roaming update_home
      update_last update_first set_hdr begin end_ magic fresh_header].
    unfold sizeof_header in *. repeat split; try lia. right; exact R.
Qed.

(** ** What is summarised *)

Lemma last_default {A} (a b : A) l d d' : List.last (a :: b :: l) d = List.last (b :: l) d'.
Proof. revert a b. induction l as [| x l IH]; intros a b; [reflexivity |]. apply (IH b x). Qed.

Section Periods.
Context `{GDate} (step offset : Z).

(** The records cut where a period ends; the last part is still open. *)
Fixpoint periods (cur : stats_record) (next : list stats_record) : list (list stats_record) :=
  match next with
  | [] => [[cur]]
  | n :: next =>
      match periods n next with
      | g :: gs => if period_ends step offset cur n then [cur] :: g :: gs else (cur :: g) :: gs
      | [] => [[cur]]
      end
  end.

(** The last record of a kind, or the one found before. *)
Fixpoint newest (kind : bool) (before : option stats_record) (g : list stats_record) :
    option stats_record :=
  match g with
  | [] => before
  | r :: g => newest kind (if eqb (rec_roaming r) kind then Some r else before) g
  end.

(** What is kept of a period: its newest home and its newest roaming record. *)
Definition keep (home roaming : option stats_record) (g : list stats_record) : list stats_record :=
  list_of (newest false home g) ++ list_of (newest true roaming g).

Definition keep_closed (home roaming : option stats_record) (gs : list (list stats_record)) :
    list stats_record :=
  match removelast gs with
  | [] => []
  | g :: gs => keep home roaming g ++ flat_map (keep None None) gs
  end.

Lemma periods_ne cur next : exists g gs, periods cur next = (cur :: g) :: gs.
Proof.
  revert cur. induction next as [| n next IH]; intros cur; cbn; [eauto |].
  destruct (IH n) as (g & gs & ->). destruct (period_ends _ _ _ _); eauto.
Qed.

Lemma periods_concat cur next : concat (periods cur next) = cur :: next.
Proof.
  revert cur. induction next as [| n next IH]; intros cur; cbn; [reflexivity |].
  destruct (periods_ne n next) as (g & gs & E). rewrite E. pose proof (IH n) as IHn.
  rewrite E in IHn. destruct (period_ends _ _ _ _); cbn in *; rewrite IHn; reflexivity.
Qed.

Lemma keep_closed_flat gs : keep_closed None None gs = flat_map (keep None None) (removelast gs).
Proof. unfold keep_closed. destruct (removelast gs); reflexivity. Qed.

Lemma process_loop_spec home roaming cur next :
  process_loop step offset home roaming cur next =
  (List.last (cur :: next) cur, keep_closed home roaming (periods cur next)).
Proof.
  revert home roaming cur. induction next as [| n next IH]; intros home roaming cur;
    [reflexivity |].
  cbn [process_loop periods]. destruct (periods_ne n next) as (g & gs & E). rewrite E.
  destruct (period_ends step offset cur n).
  - rewrite IH, E, keep_closed_flat, (last_default cur n next cur n). unfold keep_closed.
    cbn [removelast]. unfold keep. cbn [newest].
    destruct (rec_roaming cur); cbn [eqb]; rewrite <- app_assoc; reflexivity.
  - rewrite IH, E, (last_default cur n next cur n). f_equal. unfold keep_closed. destruct gs as [| g' gs]; [reflexivity |].
    cbn [removelast]. unfold keep. cbn [newest].
    destruct (rec_roaming cur); cbn; reflexivity.
Qed.

(** Processing a file agrees with a specification by periods: the records
    are cut into periods without losing any; the last record read is returned;
    and what is appended is, for every period that has ended, in order, its
    newest home record and its newest roaming record and nothing else. *)
Lemma process_file_by_periods cur l :
  concat (periods cur l) = cur :: l /\
  process_file step offset None (cur :: l) =
    (Some (List.last (cur :: l) cur),
     flat_map (keep None None) (removelast (periods cur l))).
Proof.
  split; [apply periods_concat |].
  cbn [process_file]. rewrite process_loop_spec, keep_closed_flat. reflexivity.
Qed.

End Periods.

(** When there is a history, the first record of the data file that is not
    older than the history never reaches the new history: whatever it
    contains, the summary is the same. *)
Lemma summarize_ignores_first `{GDate} now offset data_recs h0 history d d' :
  ts (List.last (h0 :: history) h0) <= ts d ->
  ts (List.last (h0 :: history) h0) <= ts d' ->
  summarize now offset (d :: data_recs) (Some (h0 :: history)) =
  summarize now offset (d' :: data_recs) (Some (h0 :: history)).
Proof.
  intros Hd Hd'. unfold summarize.
  cbn [process_file]. rewrite process_loop_spec. cbv beta iota zeta.
  cbn [skip_older]. rewrite !(proj2 (Z.ltb_ge _ _)) by assumption. reflexivity.
Qed.

(** ** The history file *)

Definition opt_size {A} (o : option A) : nat := match o with Some _ => 1 | None => 0 end.

Lemma length_list_of r : length (list_of r) = opt_size r.
Proof. destruct r; reflexivity. Qed.

Lemma process_loop_length `{GDate} step offset home roaming cur next :
  (length (process_loop step offset home roaming cur next).2 <=
   length next + opt_size home + opt_size roaming)%nat.
Proof.
  revert home roaming cur. induction next as [| n next IH]; intros home roaming cur;
    cbn [process_loop]; [cbn; lia |].
  set (home' := if rec_roaming cur then home else Some cur).
  set (roaming' := if rec_roaming cur then Some cur else roaming).
  assert (opt_size home' + opt_size roaming' <= S (opt_size home + opt_size roaming))%nat
    by (subst home' roaming'; destruct (rec_roaming cur), home, roaming; cbn; lia).
  destruct (period_ends _ _ _ _).
  - pose proof (IH None None n) as I. destruct (process_loop _ _ None None n next). cbn in *.
    rewrite !length_app, !length_list_of. lia.
  - pose proof (IH home' roaming' n). cbn [length]. lia.
Qed.

Lemma skip_older_length cur l : (length (skip_older cur l) <= length l)%nat.
Proof. induction l as [| n l IH]; cbn; [lia |]. destruct (_ <? _); cbn; lia. Qed.

Lemma summarize_length `{GDate} now offset data_recs history :
  (length (summarize now offset data_recs (Some history)) <=
   length history + length data_recs)%nat.
Proof.
  unfold summarize. generalize (step_size_of now offset) as step. intros step.
  destruct history as [| c l]; cbn [process_file].
  - destruct data_recs as [| d l]; [cbn; lia |]. cbn [process_file].
    pose proof (process_loop_length step offset None None d l).
    destruct (process_loop _ _ _ _ d l). rewrite !length_app. cbn in *. lia.
  - pose proof (process_loop_length step offset None None c l).
    destruct (process_loop _ _ _ _ c l) as [c' out]. cbn [process_file].
    pose proof (skip_older_length c' data_recs).
    pose proof (process_loop_length step offset None None c' (skip_older c' data_recs)).
    destruct (process_loop _ _ _ _ c' _). rewrite !length_app. cbn in *. lia.
Qed.

(** Appending never wraps around: the file grows first. *)
Lemma append_record_ring c f l r :
  config_ok c -> ring c f l -> len f + page_size c <= 2 ^ 31 + 2 ^ 16 ->
  exists f', append_record c None f r = (0, f') /\ ring c f' (l ++ [r]) /\
    (len f' = len f \/
     len f' = len f + page_size c /\ Z.of_nat (length l) + 1 = entries f).
Proof.
  intros Hc R Hl. pose proof (config_page c Hc).
  assert (A : forall f1, ring c f1 l -> Z.of_nat (length l) + 1 < entries f1 ->
    ring c (set_end (get_next f1 (get_end f1)) (store (get_next f1 (get_end f1)) r f1)) (l ++ [r])).
  { intros f1 R1 Hroom. pose proof (ring_put c f1 l true r Hc R1) as P.
    rewrite (proj2 (Z.ltb_lt _ _) Hroom) in P. destruct P, R1.
    constructor; cbn in *; auto. }
  unfold append_record. rewrite (last_is_end c f l R).
  destruct (Z.eqb_spec (Z.of_nat (length l) + 1) (entries f)) as [E | E].
  - pose proof R as [? ? ? ? ? ? ? ? [? ?] ? ? ?].
    destruct (ring_remap c f l (len f + page_size c) Hc R) as (f1 & Er & R1 & ? & ? & Hlen & ? & ?);
      [lia | apply update_aligned; auto |].
    rewrite Er. cbn. pose proof (entries_grow f f1 (page_size c) ltac:(unfold sizeof_record; lia) Hlen).
    replace (stats_file_update_cache f1) with f1.
    + eexists. split; [reflexivity |]. split; [apply A; auto; lia |]. right. auto.
    + rewrite remap_aligned in Er by (auto; try lia; apply update_aligned; auto).
      injection Er as <-. reflexivity.
  - cbn. eexists. split; [reflexivity |]. split; [| left; reflexivity].
    apply A; auto. destruct R. lia.
Qed.

Lemma append_all_ring c l : forall f l0,
  config_ok c -> ring c f l0 -> len f <= 48 * Z.of_nat (length l0) + 2 * page_size c ->
  Z.of_nat (length l0 + length l) <= 2 ^ 25 ->
  ring c (append_all c None f l) (l0 ++ l).
Proof.
  induction l as [| r l IH]; intros f l0 Hc R Hl Hb; [rewrite app_nil_r; exact R |].
  pose proof (config_page c Hc). cbn [length] in Hb.
  destruct (append_record_ring c f l0 r Hc R ltac:(lia)) as (f' & E & R' & Hlen).
  cbn [append_all fold_left]. rewrite E. cbn [snd]. fold (append_all c None f' l). replace (l0 ++ r :: l) with ((l0 ++ [r]) ++ l)
    by (rewrite <- app_assoc; reflexivity).
  apply IH; auto; rewrite length_app; cbn [length]; [| lia].
  destruct Hlen as [-> | [-> He]]; [lia |].
  unfold entries, sizeof_header, sizeof_record in He.
  pose proof (Z.div_mod (len f - 20) 48 ltac:(lia)).
  pose proof (Z.mod_pos_bound (len f - 20) 48 ltac:(lia)). lia.
Qed.

Lemma setup_empty c : config_ok c ->
  exists f, stats_file_setup c None 0 empty_file = (0, f) /\ ring c f [] /\ len f = page_size c.
Proof.
  intros Hc. pose proof (config_page c Hc). unfold stats_file_setup.
  rewrite (proj2 (Z.ltb_lt _ _)) by lia.
  rewrite remap_aligned by (auto; try lia; apply Z.mod_same; lia). cbn.
  eexists. split; [reflexivity |]. split; [| reflexivity].
  set (g := stats_file_update_cache (mk_file _ _ _ _ _ _ _ _)).
  apply (fresh_ring c g Hc); cbn; try lia. apply Z.mod_same. lia.
Qed.

(** Replacing the history: from a data file and a history file written by
    this code, the new history file holds exactly the summary of the two, in
    order, and never more records than they have together. *)
Lemma history_update_summarizes `{GDate} c now offset history hl data_file dl :
  config_ok c -> ring c history hl -> ring c data_file dl ->
  Z.of_nat (length hl + length dl) <= 2 ^ 25 ->
  exists f,
    stats_file_history_update c now offset None None None true history (len history) data_file =
      Some (0, Replaced f) /\
    ring c f (summarize now offset dl (Some hl)) /\
    records f = Some (summarize now offset dl (Some hl)) /\
    (length (summarize now offset dl (Some hl)) <= length hl + length dl)%nat.
Proof.
  intros Hc Rh Rd Hb. unfold stats_file_history_update.
  destruct (setup_ring c history hl Hc Rh) as (hf & -> & Rh' & _).
  destruct (setup_empty c Hc) as (tf & -> & Rt & Ht). cbn [snd].
  rewrite (records_ring c hf hl Hc Rh'), (records_ring c data_file dl Hc Rd).
  pose proof (summarize_length now offset dl hl) as Hs.
  pose proof (config_page c Hc).
  assert (R : ring c (append_all c None tf (summarize now offset dl (Some hl)))
                ([] ++ summarize now offset dl (Some hl)))
    by (apply append_all_ring; cbn [length]; auto; lia).
  eexists. split; [reflexivity |]. split; [exact R |]. split; [| exact Hs].
  apply (records_ring c _ _ Hc R).
Qed.

(** The upper bound of [home] and [roaming] is not part of the test of the
    header: any offset of 20 or more is taken for a record to be read. *)
Lemma stats_home_unchecked c p :
  config_ok c -> sizeof_header <= p < UINT_MAX ->
  let f := mk_file (mk_hdr MAGIC sizeof_header sizeof_header p UINT_MAX) ∅ 0 0 0 0 None None in
  exists f', stats_file_setup c None (page_size c) f = (0, f') /\ cached_home f' = Some p.
Proof.
  intros Hc Hp f. pose proof (config_page c Hc). unfold stats_file_setup.
  rewrite (proj2 (Z.ltb_ge _ _)) by lia.
  rewrite remap_aligned by (auto; try lia; apply Z.mod_same; lia).
  change (0 <? 0) with false. cbv iota. match goal with |- context [header_ok ?g] => set (f1 := g) end.
  assert (Hk : header_ok f1 = true).
  { subst f1. unfold header_ok, sizeof_header in *. cbn. unfold UINT_MAX in *.
    rewrite !(proj2 (Z.ltb_ge _ _)) by lia. reflexivity. }
  rewrite Hk. eexists. split; [reflexivity |]. cbn. unfold get_home. cbn.
  rewrite (proj2 (Z.eqb_neq _ _)) by lia. reflexivity.
Qed.

(** ** Concrete instances *)

Definition demo_config : config := mk_config 4096 8192.
Definition demo_file : stats_file := (stats_file_setup demo_config None 0 empty_file).2.
Definition demo_data (n : Z) : connman_stats_data := mk_data n n n n 0 0 0 0 n.
Definition demo_rec (n : Z) : stats_record := mk_rec n false (demo_data n).
Definition demo_hash : stats_hash := <[7 := demo_file]> ∅.

(** A calendar of months of thirty days. *)
Definition demo_date : GDate := {|
  julian t := t / 86400;
  day t := (t / 86400) mod 30 + 1;
  month t := ((t / 86400) / 30) mod 12 + 1;
  months_before n d now := (now / 86400 / 30 - n) * 30 + d - 1;
|}.

Lemma demo_config_ok : config_ok demo_config.
Proof. exists 12. cbn. lia. Qed.

Lemma demo_ring : ring demo_config demo_file [].
Proof.
  destruct (setup_empty demo_config demo_config_ok) as (f & E & R & _).
  unfold demo_file. rewrite E. exact R.
Qed.

Lemma stats_update_refines_witness :
  exists f',
    __connman_stats_update demo_config None 5 7 false (demo_data 5) demo_hash =
      (0, <[7 := f']> demo_hash, []) /\
    ring demo_config f' [demo_rec 5] /\ records f' = Some [demo_rec 5].
Proof.
  apply (stats_update_refines demo_config None 5 7 false (demo_data 5) demo_hash demo_file []
           demo_config_ok eq_refl demo_ring).
  - intros e [=].
  - left; reflexivity.
Defined.

Definition demo_updated : stats_file :=
  match (__connman_stats_update demo_config None 5 7 true (demo_data 5) demo_hash).1.2 !! 7 with
  | Some f => f
  | None => empty_file
  end.

Lemma stats_survive_restart_witness :
  exists f'',
    __connman_stats_service_register demo_config 7 None None None true demo_updated
      (len demo_updated) ∅ = (0, <[7 := f'']> ∅, []) /\
    records f'' = records demo_updated /\
    __connman_stats_get 7 true (<[7 := f'']> ∅) =
      ((0, Some (demo_data 5)), <[7 := f'']> ∅, []).
Proof.
  apply (stats_survive_restart demo_config None 5 7 true (demo_data 5) demo_hash demo_file []
           (<[7 := demo_updated]> demo_hash) [] demo_updated ∅ demo_config_ok eq_refl demo_ring).
  - intros e [=].
  - vm_compute. reflexivity.
  - reflexivity.
  - reflexivity.
Defined.

Lemma stats_setup_valid_witness :
  exists f', stats_file_setup demo_config None 100 empty_file = (0, f') /\
    magic (hdr f') = MAGIC /\
    (sizeof_header <= begin (hdr f') <= len f') /\ (sizeof_header <= end_ (hdr f') <= len f') /\
    sizeof_header <= first f' <= last f' /\ last f' + sizeof_record <= len f' /\
    ((hdr f' = hdr empty_file /\ recs f' = recs empty_file) \/ ring demo_config f' []).
Proof. apply (stats_setup_valid demo_config 100 empty_file demo_config_ok). lia. Defined.

Lemma demo_updated_ring : ring demo_config demo_updated [mk_rec 5 true (demo_data 5)].
Proof.
  exact (ring_put demo_config demo_file [] true (mk_rec 5 true (demo_data 5)) demo_config_ok demo_ring).
Qed.

Lemma history_update_summarizes_witness :
  exists f,
    @stats_file_history_update demo_date demo_config 100000 1 None None None true demo_file
      (len demo_file) demo_updated = Some (0, Replaced f) /\
    ring demo_config f [mk_rec 5 true (demo_data 5)] /\
    records f = Some [mk_rec 5 true (demo_data 5)] /\ (1 <= 1)%nat.
Proof.
  apply (@history_update_summarizes demo_date demo_config 100000 1 demo_file [] demo_updated
           [mk_rec 5 true (demo_data 5)] demo_config_ok demo_ring demo_updated_ring).
  cbn. lia.
Defined.

Lemma summarize_ignores_first_witness :
  @summarize demo_date 8640000 1 [demo_rec 8000000; demo_rec 8100000] (Some [demo_rec 7000000]) =
  @summarize demo_date 8640000 1 [demo_rec 7500000; demo_rec 8100000] (Some [demo_rec 7000000]).
Proof.
  apply (@summarize_ignores_first demo_date 8640000 1 [demo_rec 8100000] (demo_rec 7000000) []
           (demo_rec 8000000) (demo_rec 7500000)); cbn; lia.
Defined.

(** A ring of the maximal size that is full: its records go to the history. *)
Fixpoint updates (n : nat) (h : stats_hash) : stats_hash * list output :=
  match n with
  | O => (h, [])
  | S n =>
      let '(h, out) := updates n h in
      let '(_, h, out') :=
        __connman_stats_update demo_config None (Z.of_nat n) 7 false (demo_data (Z.of_nat n)) h in
      (h, out ++ out')
  end.

(** 8192 bytes hold 170 records, one slot staying empty: the 170th update finds
    the ring full and hands the 169 records before it to the history. *)
Lemma ring_fills_up :
  (updates 169 demo_hash).2 = [] /\
  match (updates 170 demo_hash).2 with
  | [HistoryUpdate (Some l)] => length l = 169%nat
  | _ => False
  end.
Proof. split; vm_compute; reflexivity. Qed.

End Stats.
