(* ===== verification/DnsMessage.v ===== *)
(** * DNS messages (src/dnsproxy.c)

    The part of the DNS proxy that reads and builds messages: names, resource
    records, the parser of the replies that are cached, the query with a domain
    appended, and the times to live.  A message lies in a buffer that may be
    larger than the message; a read outside the buffer makes a function return
    [None], a read behind the end of the message but inside the buffer does
    not. *)

From S2P Require Import Prelude Inet Buffer.
From stdpp Require Import list.
Open Scope Z_scope.

Module DnsMessage.

Definition NS_MAXDNAME : Z := 1025.
Definition NS_MAXCDNAME : Z := 255.
Definition NS_CMPRSFLGS : Z := 0xc0.
Definition DNS_HEADER_SIZE : Z := 12.
Definition DNS_QUESTION_SIZE : Z := 4.
Definition DNS_RR_SIZE : Z := 10.
Definition DNS_TYPE_A : Z := 1.
Definition DNS_TYPE_CNAME : Z := 5.
Definition DNS_TYPE_AAAA : Z := 28.

(** Offsets in [struct domain_hdr]; its flags are in the bytes 2 and 3. *)
Definition hdr_flags : nat := 2.
Definition hdr_rcode : nat := 3.
Definition hdr_qdcount : Z := 4.
Definition hdr_ancount : Z := 6.
Definition hdr_nscount : nat := 8.
Definition hdr_arcount : nat := 10.

(** [memcpy] out of the buffer. *)
Definition rd_bytes (mem : list Z) (p n : Z) : option (list Z) :=
  if (p <? 0) || (n <? 0) || (Z.of_nat (length mem) <? p + n) then None
  else Some (slice (Z.to_nat p) (Z.to_nat n) mem).

(** [memcpy] into the buffer; [None] is a store outside of it. *)
Definition store (p : Z) (bytes mem : list Z) : option (list Z) :=
  if (p <? 0) || (Z.of_nat (length mem) <? p + Z.of_nat (length bytes)) then None
  else Some (wr (Z.to_nat p) bytes mem).

(** [ntohs] and [ntohl] of the field at [p]. *)
Definition rd16 (mem : list Z) (p : Z) : option Z :=
  a ← rd mem p; b ← rd mem (p + 1); Some (a * 256 + b).

Definition rd32 (mem : list Z) (p : Z) : option Z :=
  hi ← rd16 mem p; lo ← rd16 mem (p + 2); Some (hi * 65536 + lo).

(** The C string at [p], without its terminator; [strlen] is its length. *)
Fixpoint c_str (l : list Z) : option (list Z) :=
  match l with
  | [] => None
  | b :: l => if b =? 0 then Some [] else s ← c_str l; Some (b :: s)
  end.

Definition c_str_at (mem : list Z) (p : Z) : option (list Z) :=
  if p <? 0 then None else c_str (drop (Z.to_nat p) mem).

(** ** Times to live *)

Definition round_down_ttl (end_time ttl : Z) : Z :=
  if ttl <? 15 then end_time
  else if ttl <? 300 then Z.quot end_time 10 * 10
  else Z.quot end_time 30 * 30.

(** ** Names *)

(** The length of the name at [p]. *)
Definition dns_name_length (mem : list Z) (p : Z) : option Z :=
  b ← rd mem p;
  if (b .& NS_CMPRSFLGS) =? NS_CMPRSFLGS then Some 2
  else s ← c_str_at mem p; Some (Z.of_nat (length s) + 1).

Record gn_state := mk_gn {
  gn_counter : Z;
  gn_p : Z;
  gn_output_len : Z;
  gn_end : option Z;
  gn_name : list Z;   (** the whole buffer *)
  gn_name_len : Z;
}.

(** What a round of the loop ends with: the return value, [None] when it
    reads outside the buffer. *)
Definition gn_result : Type := gn_state * option Z.

(** One round of [get_name], following a pointer included; [max] is the end of
    the message, whose start is offset 0. *)
Definition get_name_step (mem : list Z) (max output_max max_name : Z) (s : gn_state) :
    gn_state + gn_result :=
  let p := gn_p s in
  match rd mem p with
  | None => inr (s, None)
  | Some b =>
      if b =? 0 then inr (s, Some 0)
      else if (b .& NS_CMPRSFLGS) =? NS_CMPRSFLGS then
        match rd mem (p + 1) with
        | None => inr (s, None)
        | Some b1 =>
            let offset := (b .& 0x3f) * 256 + b1 in
            if max <=? offset then inr (s, Some (- ENOBUFS))
            else
              let s := mk_gn (gn_counter s + 1) offset (gn_output_len s)
                         (Some (default (p + 2) (gn_end s))) (gn_name s) (gn_name_len s) in
              if 10 <? gn_counter s then inr (s, Some (- EINVAL)) else inl s
        end
      else if max <? b then inr (s, Some (- ENOBUFS))
      else if output_max <? gn_output_len s then inr (s, Some (- ENOBUFS))
      else if max_name <? gn_name_len s + 1 + b + 1 then inr (s, Some (- ENOBUFS))
      else
        match rd_bytes mem (p + 1) (b + 1) with
        | None => inr (s, None)
        | Some label =>
            let p' := p + b + 1 in
            let s := mk_gn (gn_counter s) p' 2 (Some (default p' (gn_end s)))
                       (wr (Z.to_nat (gn_name_len s)) (b :: label) (gn_name s))
                       (gn_name_len s + 1 + b) in
            if max <=? p' then inr (s, Some (- ENOBUFS)) else inl s
        end
  end.

Fixpoint get_name_loop (fuel : nat) (mem : list Z) (max output_max max_name : Z) (s : gn_state) :
    option gn_result :=
  match fuel with
  | O => None
  | S fuel =>
      match get_name_step mem max output_max max_name s with
      | inr r => Some r
      | inl s => get_name_loop fuel mem max output_max max_name s
      end
  end.

(** At most 10 pointers are followed, and between two of them the position
    only grows: this many rounds are enough. *)
Definition name_fuel (max : Z) : nat := S (11 * S (Z.to_nat max)).

Definition get_name (mem : list Z) (max output_max max_name : Z) (name : list Z) (start : Z) :
    option gn_result :=
  get_name_loop (name_fuel max) mem max output_max max_name (mk_gn 0 start 0 None name 0).

(** ** Resource records *)

(** The output parameters [type], [class] and [ttl], which keep what the last
    record they were read from has. *)
Record rr_fields := mk_fields { f_type : Z; f_class : Z; f_ttl : Z }.

(** A parsed record: [rsp] is the record as it is cached, [next] what follows
    it. *)
Record rr := mk_rr { rr_rsp : list Z; rr_rdlen : Z; rr_next : Z; rr_name : list Z }.

Definition name_buffer : list Z := repeat 0 (Z.to_nat (NS_MAXDNAME + 1)).

(** The name a record is cached with, a pointer to the question. *)
Definition question_pointer : list Z := [NS_CMPRSFLGS; 0x0c].

(** [None]: a read outside the buffer, or no end of the loop; else the fields
    and the error or the record. *)
Definition parse_rr (mem : list Z) (start max response_size max_name : Z) (f : rr_fields) :
    option (rr_fields * (Z + rr)) :=
  '(s, r) ← get_name mem max response_size max_name name_buffer start;
  err ← r;
  if err <? 0 then Some (f, inl err)
  else
    let offset := gn_output_len s in
    if response_size <? offset then Some (f, inl (- ENOBUFS))
    else
      match gn_end s with
      | None => Some (f, inl (- EINVAL))
      | Some e =>
          fixed ← rd_bytes mem e DNS_RR_SIZE;
          type ← rd16 mem e;
          class ← rd16 mem (e + 2);
          ttl ← rd32 mem (e + 4);
          rdlen ← rd16 mem (e + 8);
          let f := mk_fields type class (s32 ttl) in
          if f_ttl f <? 0 then Some (f, inl (- EINVAL))
          else
            let offset := offset + DNS_RR_SIZE in
            let e := e + DNS_RR_SIZE in
            if response_size <? offset + rdlen then Some (f, inl (- ENOBUFS))
            else if max <? e + rdlen then Some (f, inl (- EINVAL))
            else
              rdata ← rd_bytes mem e rdlen;
              Some (f, inr (mk_rr (take (Z.to_nat (gn_output_len s)) question_pointer ++ fixed ++ rdata)
                              rdlen (e + rdlen) (gn_name s)))
      end.

(** [strncmp (a, b, n) == 0] *)
Definition strncmp_eq (a b : list Z) (n : Z) : bool :=
  bytes_eqb (take (Z.to_nat n) (upto_nul a)) (take (Z.to_nat n) (upto_nul b)).

Definition check_alias (aliases : list (list Z)) (name : list Z) : bool :=
  existsb (fun a => strncmp_eq a name NS_MAXDNAME) aliases.

(** ** Replies *)

Record answers_state := mk_answers {
  a_ptr : Z;
  a_fields : rr_fields;
  a_aliases : list (list Z);
  a_response : list Z;
  a_count : Z;
  a_err : Z;
}.

Definition RSP_SIZE : Z := NS_MAXCDNAME - 1.

(** One answer; [inr] leaves the loop. *)
Definition parse_answer (mem : list Z) (max maxlen : Z) (question : list Z) (qtype qclass : Z)
    (s : answers_state) : option (answers_state + answers_state) :=
  let qlen := Z.of_nat (length question) in
  '(f, r) ← parse_rr mem (a_ptr s) max RSP_SIZE NS_MAXDNAME (a_fields s);
  match r with
  | inl ret => Some (inr (mk_answers (a_ptr s) f (a_aliases s) (a_response s) (a_count s) ret))
  | inr x =>
      let s := mk_answers (rr_next x) f (a_aliases s) (a_response s) (a_count s) (a_err s) in
      if negb (f_class f =? qclass) then Some (inl s)
      else if (f_type f =? DNS_TYPE_CNAME) && strncmp_eq question (rr_name x) qlen then
        '(n, r) ← get_name mem max RSP_SIZE NS_MAXDNAME (rr_name x) (rr_next x - rr_rdlen x);
        ret ← r;
        if negb (ret =? 0) then Some (inl s)
        else Some (inl (mk_answers (rr_next x) f (upto_nul (gn_name n) :: a_aliases s)
                          (a_response s) (a_count s) (a_err s)))
      else if f_type f =? qtype then
        if check_alias (a_aliases s) (rr_name x) ||
           (bool_decide (a_aliases s = []) && strncmp_eq question (rr_name x) qlen) then
          if maxlen <? Z.of_nat (length (a_response s)) + Z.of_nat (length (rr_rsp x))
          then Some (inr (mk_answers (rr_next x) f (a_aliases s) (a_response s) (a_count s) (- ENOBUFS)))
          else Some (inl (mk_answers (rr_next x) f (a_aliases s) (a_response s ++ rr_rsp x)
                            (u16 (a_count s + 1)) 0))
        else Some (inl s)
      else Some (inl s)
  end.

Fixpoint parse_answers (n : nat) (mem : list Z) (max maxlen : Z) (question : list Z) (qtype qclass : Z)
    (s : answers_state) : option answers_state :=
  match n with
  | O => Some s
  | S n =>
      r ← parse_answer mem max maxlen question qtype qclass s;
      match r with
      | inl s => parse_answers n mem max maxlen question qtype qclass s
      | inr s => Some s
      end
  end.

(** The return value, [question], the fields, the response and the number of
    answers. *)
Record parsed := mk_parsed {
  p_err : Z;
  p_question : list Z;
  p_fields : rr_fields;
  p_response : list Z;
  p_answers : Z;
}.

(** The first [n] bytes of the question, as [strncpy] and [strlen] see them;
    [None]: there is no terminator in the [n] bytes and [strlen] goes on in
    the rest of the caller's buffer, so that the string is as long as the
    message at least. *)
Definition question_string (mem : list Z) (p n qlen : Z) : option (option (list Z)) :=
  bytes ← rd_bytes mem p n;
  Some (match c_str bytes with
        | Some s => Some s
        | None => if qlen <=? n then Some bytes else None
        end).

Definition parse_response (mem : list Z) (buflen qlen maxlen : Z) : option parsed :=
  let none := mk_fields 0 0 0 in
  let fail err q := Some (mk_parsed err q none [] 0) in
  if buflen <? DNS_HEADER_SIZE then fail (- EINVAL) []
  else
    flags ← rd mem (Z.of_nat hdr_flags);
    qdcount ← rd16 mem hdr_qdcount;
    if negb (flags .>> 7 =? 1) || negb (qdcount =? 1) then fail (- EINVAL) []
    else
      q ← question_string mem DNS_HEADER_SIZE (Z.min qlen (buflen - DNS_HEADER_SIZE)) qlen;
      match q with
      | None => fail (- EINVAL) []
      | Some question =>
          let ptr := DNS_HEADER_SIZE + Z.of_nat (length question) + 1 in
          if buflen <=? ptr + DNS_QUESTION_SIZE then fail (- EINVAL) question
          else
            qtype ← rd16 mem ptr;
            if negb (qtype =? DNS_TYPE_A) && negb (qtype =? DNS_TYPE_AAAA)
            then fail (- ENOMSG) question
            else
              ancount ← rd16 mem hdr_ancount;
              qclass ← rd16 mem (ptr + 2);
              s ← parse_answers (Z.to_nat ancount) mem buflen maxlen question qtype qclass
                    (mk_answers (ptr + DNS_QUESTION_SIZE) none [] [] 0 (- ENOMSG));
              Some (mk_parsed (a_err s) question (a_fields s) (a_response s) (a_count s))
      end.

Definition reply_query_type (mem : list Z) (len : Z) : option Z :=
  if len - DNS_HEADER_SIZE <? 0 then Some 0
  else
    n ← dns_name_length mem DNS_HEADER_SIZE;
    rd16 mem (DNS_HEADER_SIZE + n).

(** ** Cached messages *)

Fixpoint update_ttl_loop (fuel : nat) (mem : list Z) (ptr len raw_ttl : Z) : option (list Z) :=
  match fuel with
  | O => None
  | S fuel =>
      if len <=? 0 then Some mem
      else
        name_len ← dns_name_length mem ptr;
        if len <? name_len then Some mem
        else
          let ptr := ptr + name_len in
          let len := len - name_len in
          if len <? DNS_RR_SIZE then Some mem
          else
            mem ← store (ptr + 4) (be_bytes32 raw_ttl) mem;
            rdlen ← rd16 mem (ptr + 8);
            let rr_len := DNS_RR_SIZE + rdlen in
            if len <? rr_len then Some mem
            else update_ttl_loop fuel mem (ptr + rr_len) (len - rr_len) raw_ttl
  end.

(** Every round consumes 11 bytes at least; [ptr] is where the DNS message starts
    in the buffer. *)
Definition update_cached_ttl (mem : list Z) (ptr len new_ttl : Z) : option (list Z) :=
  if (new_ttl <? 0) || (len <? DNS_HEADER_SIZE + DNS_QUESTION_SIZE + 1) then Some mem
  else
    let ptr := ptr + DNS_HEADER_SIZE in
    let len := len - DNS_HEADER_SIZE in
    name_len ← dns_name_length mem ptr;
    if len <? name_len + DNS_QUESTION_SIZE then Some mem
    else
      update_ttl_loop (S (Z.to_nat len)) mem (ptr + name_len + DNS_QUESTION_SIZE)
        (len - (name_len + DNS_QUESTION_SIZE)) new_ttl.

(** ** Queries *)

Definition dot : Z := 46.

(** [strchrnul (data, '.') - data] and what is left of the memory behind. *)
Fixpoint strchrnul (mem : list Z) : option (list Z * list Z) :=
  match mem with
  | [] => None
  | b :: mem' =>
      if (b =? 0) || (b =? dot) then Some ([], mem)
      else '(l, rest) ← strchrnul mem'; Some (b :: l, rest)
  end.

(** [data] is the memory from the string on, to the end of the object it is
    in; the result is what is written to the buffer of [size] bytes, [inl] the
    error. *)
Fixpoint append_data_loop (fuel : nat) (size : Z) (data : list Z) : option (unit + list Z) :=
  match fuel with
  | O => None
  | S fuel =>
      '(label, rest) ← strchrnul data;
      let len := Z.of_nat (length label) in
      if len =? 0 then Some (inr [])
      else if size <? len + 1 then Some (inl tt)
      else
        r ← append_data_loop fuel (size - (len + 1)) (drop 1 rest);
        Some (match r with inl e => inl e | inr bytes => inr (u8 len :: label ++ bytes) end)
  end.

Definition append_data (size : Z) (data : list Z) : option (unit + list Z) :=
  append_data_loop (S (length data)) size data.

(** [None] from [append_data]: a read outside the string; the error is -1. *)
Definition append_query (size : Z) (query domain : list Z) : option (Z + list Z) :=
  r ← append_data size query;
  match r with
  | inl _ => Some (inl (-1))
  | inr a =>
      let left := size - Z.of_nat (length a) in
      r ← append_data left domain;
      match r with
      | inl _ => Some (inl (-1))
      | inr b =>
          let left := left - Z.of_nat (length b) in
          if left =? 0 then Some (inl (-1)) else Some (inr (a ++ b ++ [0]))
      end
  end.

(** ** Names: theory *)

Lemma rd_Some mem p b : rd mem p = Some b -> 0 <= p < Z.of_nat (length mem).
Proof.
  unfold rd. destruct (Z.ltb_spec p 0); [done|]. intros E%lookup_lt_Some. lia.
Qed.

Lemma rd_in mem p : 0 <= p < Z.of_nat (length mem) -> exists b, rd mem p = Some b.
Proof.
  intros Hp. unfold rd. destruct (Z.ltb_spec p 0); [lia|].
  destruct (lookup_lt_is_Some_2 mem (Z.to_nat p)) as [b E]; [lia|]. by exists b.
Qed.

Lemma rd_is_byte mem p b : Forall is_byte mem -> rd mem p = Some b -> 0 <= b < 256.
Proof.
  intros Hm. unfold rd. destruct (p <? 0); [done|]. intros E.
  exact (proj1 (list.Forall_forall is_byte mem) Hm b (list_elem_of_lookup_2 _ _ _ E)).
Qed.

Lemma rd_bytes_in mem p n :
  0 <= p -> 0 <= n -> p + n <= Z.of_nat (length mem) ->
  rd_bytes mem p n = Some (slice (Z.to_nat p) (Z.to_nat n) mem).
Proof.
  intros Hp Hn Hl. unfold rd_bytes.
  destruct (Z.ltb_spec p 0); [lia|]. destruct (Z.ltb_spec n 0); [lia|].
  by destruct (Z.ltb_spec (Z.of_nat (length mem)) (p + n)); [lia|].
Qed.

Lemma store_length p b mem mem' : store p b mem = Some mem' -> length mem' = length mem.
Proof.
  unfold store. case_match eqn:Hc; [done|]. intros [= <-]. bool_to_prop. apply length_wr. lia.
Qed.

Lemma store_in p b mem :
  0 <= p -> p + Z.of_nat (length b) <= Z.of_nat (length mem) -> store p b mem = Some (wr (Z.to_nat p) b mem).
Proof.
  intros Hp Hl. unfold store. by rewrite (proj2 (Z.ltb_ge p 0)), (proj2 (Z.ltb_ge _ _)) by lia.
Qed.

Lemma store_at pre old post b p :
  p = Z.of_nat (length pre) -> length old = length b -> store p b (pre ++ old ++ post) = Some (pre ++ b ++ post).
Proof.
  intros -> Hl. rewrite store_in by (rewrite ?length_app; lia). rewrite Nat2Z.id. f_equal.
  rewrite wr_app_mid by (rewrite length_app; lia). do 2 f_equal. by rewrite <- Hl, drop_app_length.
Qed.

(** What is left to do: pointers to follow and bytes to read. *)
Definition gn_measure (max : Z) (s : gn_state) : Z :=
  (10 - gn_counter s) * (max + 1) + Z.max 0 (max - gn_p s).

(** The state between two rounds. *)
Record gn_ok (mem : list Z) (max max_name : Z) (s : gn_state) : Prop := {
  ok_counter : 0 <= gn_counter s <= 10;
  ok_p : 0 <= gn_p s <= max;
  ok_name_len : 0 <= gn_name_len s /\ (gn_name_len s = 0 \/ gn_name_len s + 1 <= max_name);
  ok_output : gn_output_len s = 0 \/ gn_output_len s = 2;
}.

(** The buffer of the name as it is left behind: nothing was written outside of its first [max_name] bytes. *)
Definition name_kept (max_name : Z) (s s' : gn_state) : Prop :=
  max_name <= Z.of_nat (length (gn_name s)) ->
  length (gn_name s') = length (gn_name s) /\ drop (Z.to_nat max_name) (gn_name s') = drop (Z.to_nat max_name) (gn_name s).

(** What holds when the function returns [err]; the eleventh pointer is counted, but not followed. *)
Definition gn_final (max_name err : Z) (s : gn_state) : Prop :=
  0 <= gn_counter s <= (if decide (err = - EINVAL) then 11 else 10) /\ 0 <= gn_name_len s <= Z.max 0 (max_name - 1).

Lemma name_kept_trans max_name s1 s2 s3 : name_kept max_name s1 s2 -> name_kept max_name s2 s3 -> name_kept max_name s1 s3.
Proof. intros H12 H23 Hc. destruct (H12 Hc) as [L12 D12]. destruct (H23 ltac:(lia)) as [L23 D23]. split; congruence. Qed.

Lemma name_kept_wr max_name s s' label : 0 <= gn_name_len s -> gn_name_len s + Z.of_nat (length label) <= max_name ->
  gn_name s' = wr (Z.to_nat (gn_name_len s)) label (gn_name s) -> name_kept max_name s s'.
Proof.
  intros H0 Hm E Hc. rewrite E. split; [apply length_wr; lia|]. unfold wr.
  rewrite app_assoc, drop_app_ge by (rewrite length_app, length_take; lia). rewrite length_app, length_take, drop_drop. f_equal. lia.
Qed.

Lemma gn_ok_final mem max max_name err s : gn_ok mem max max_name s -> gn_final max_name err s.
Proof. intros [Hc _ [H0 H1] _]. split; [destruct (decide _); lia|lia]. Qed.

Lemma get_name_step_ok mem max output_max max_name s :
  Forall is_byte mem -> 0 <= max -> max + 193 <= Z.of_nat (length mem) ->
  gn_ok mem max max_name s ->
  match get_name_step mem max output_max max_name s with
  | inl s' => gn_ok mem max max_name s' /\ gn_measure max s' < gn_measure max s /\ name_kept max_name s s'
  | inr (s', r) => exists err, r = Some err /\ (err = 0 \/ err = - EINVAL \/ err = - ENOBUFS) /\
      gn_final max_name err s' /\ name_kept max_name s s'
  end.
Proof.
  intros Hb Hm Hl Hok. pose proof (gn_ok_final mem max max_name) as Hfin. destruct Hok as [Hc Hp Hn Ho] eqn:Eok. clear Eok.
  assert (Hsame : forall err, err = 0 \/ err = - EINVAL \/ err = - ENOBUFS -> exists err', Some err = Some err' /\
    (err' = 0 \/ err' = - EINVAL \/ err' = - ENOBUFS) /\ gn_final max_name err' s /\ name_kept max_name s s).
  { intros err He. exists err. split_and!; [done|done|by apply Hfin|done]. }
  unfold get_name_step. destruct (rd_in mem (gn_p s)) as [b Eb]; [lia|]. rewrite Eb.
  pose proof (rd_is_byte _ _ _ Hb Eb) as Hbr.
  destruct (Z.eqb_spec b 0) as [->|Hb0]; [by apply Hsame; auto|].
  destruct (Z.eqb_spec (b .& NS_CMPRSFLGS) NS_CMPRSFLGS) as [Hcomp|Hcomp].
  - destruct (rd_in mem (gn_p s + 1)) as [b1 E1]; [lia|]. rewrite E1.
    pose proof (rd_is_byte _ _ _ Hb E1) as Hb1r.
    assert (Hmask : 0 <= b .& 0x3f) by (apply Z.land_nonneg; lia).
    destruct (Z.leb_spec max ((b .& 0x3f) * 256 + b1)); [by apply Hsame; auto|]. cbn.
    destruct (Z.ltb_spec 10 (gn_counter s + 1)).
    + exists (- EINVAL). split_and!; [done|by auto| |done]. split; [|cbn; lia]. rewrite decide_True by done. cbn. lia.
    + split_and!; [split; cbn; [lia|lia|done|done]|unfold gn_measure; cbn; nia|done].
  - assert (Hlab : b <= 191).
    { apply Z.nlt_ge. intros Hge. apply Hcomp. unfold NS_CMPRSFLGS.
      assert (Hf : forallb (fun n => (192 + Z.of_nat n) .& 0xc0 =? 0xc0) (seq 0 64) = true) by by vm_compute.
      rewrite forallb_forall in Hf. specialize (Hf (Z.to_nat (b - 192))).
      replace (192 + Z.of_nat (Z.to_nat (b - 192))) with b in Hf by lia.
      apply Z.eqb_eq, Hf, in_seq. lia. }
    destruct (Z.ltb_spec max b); [by apply Hsame; auto|].
    destruct (Z.ltb_spec output_max (gn_output_len s)); [by apply Hsame; auto|].
    destruct (Z.ltb_spec max_name (gn_name_len s + 1 + b + 1)); [by apply Hsame; auto|].
    rewrite rd_bytes_in by lia. cbv zeta. cbn [gn_p].
    set (s1 := mk_gn _ _ _ _ _ _).
    assert (Hk : name_kept max_name s s1).
    { eapply (name_kept_wr max_name s s1); [lia| |done]. cbn [length]. rewrite length_slice by lia. lia. }
    destruct (Z.leb_spec max (gn_p s + b + 1)).
    + exists (- ENOBUFS). split_and!; [done|by auto| |done]. split; cbn [s1 gn_counter gn_name_len]; [destruct (decide _); lia|lia].
    + split_and!; [split; cbn [s1 gn_counter gn_p gn_name_len gn_output_len]; [lia|lia|lia|by right]|unfold gn_measure; cbn; nia|done].
Qed.

Lemma get_name_loop_returns mem max output_max max_name : forall fuel s,
  Forall is_byte mem -> 0 <= max -> max + 193 <= Z.of_nat (length mem) ->
  gn_ok mem max max_name s -> gn_measure max s < Z.of_nat fuel ->
  exists s' err, get_name_loop fuel mem max output_max max_name s = Some (s', Some err) /\
    (err = 0 \/ err = - EINVAL \/ err = - ENOBUFS) /\ gn_final max_name err s' /\ name_kept max_name s s'.
Proof.
  induction fuel as [|fuel IH]; intros s Hb Hm Hl Hs Hf; cbn [get_name_loop].
  { exfalso. destruct Hs as [Hc Hp _ _]. unfold gn_measure in Hf. nia. }
  pose proof (get_name_step_ok mem max output_max max_name s Hb Hm Hl Hs) as H.
  destruct (get_name_step mem max output_max max_name s) as [s1|[s1 r]].
  - destruct H as (Hs1 & Hd & Hk).
    destruct (IH s1 Hb Hm Hl Hs1 ltac:(lia)) as (s' & err & E & Hr & Hok & Hk'). exists s', err. split_and!; try done.
    by apply (name_kept_trans _ _ s1).
  - destruct H as (err & -> & H). by exists s1, err.
Qed.

(** ** Well-formed messages *)

(** A name as it is in a message, without the terminator. *)
Definition wire (labels : list (list Z)) : list Z :=
  concat (map (fun l => Z.of_nat (length l) :: l) labels).

(** A label: 1 to 63 bytes, none of them 0. *)
Definition label_ok (l : list Z) : Prop :=
  (1 <= length l <= 63)%nat /\ Forall (fun b => 0 < b < 256) l.

Lemma wire_cons l ls : wire (l :: ls) = Z.of_nat (length l) :: l ++ wire ls.
Proof. done. Qed.

Lemma label_byte n : (1 <= n <= 63)%nat ->
  (Z.of_nat n =? 0) = false /\ ((Z.of_nat n .& NS_CMPRSFLGS) =? NS_CMPRSFLGS) = false.
Proof.
  intros Hn.
  assert (Hf : forallb (fun n => negb (Z.of_nat n =? 0) && negb ((Z.of_nat n .& NS_CMPRSFLGS) =? NS_CMPRSFLGS))
    (seq 1 63) = true) by by vm_compute.
  rewrite forallb_forall in Hf. specialize (Hf n ltac:(rewrite in_seq; lia)).
  apply andb_true_iff in Hf as [H1 H2]. by apply negb_true_iff in H1, H2.
Qed.

Lemma slice_mid (pre x post : list Z) : slice (length pre) (length x) (pre ++ x ++ post) = x.
Proof. unfold slice. rewrite drop_app_length. by rewrite take_app_length. Qed.

Lemma wire_head ls : exists x rest, wire ls ++ [0] = x :: rest /\ (ls = [] -> x = 0).
Proof. destruct ls as [|l ls]; [by exists 0, []|]. rewrite wire_cons. by eexists _, _. Qed.

(** The loop reads a name of labels up to its terminator. *)
Lemma get_name_labels max output_max max_name mem : forall ls fuel pre post s done,
  mem = pre ++ wire ls ++ 0 :: post -> Forall label_ok ls ->
  gn_p s = Z.of_nat (length pre) -> gn_name_len s = Z.of_nat (length done) ->
  take (length done) (gn_name s) = done ->
  (ls = [] -> exists tail, gn_name s = done ++ 0 :: tail) ->
  (length done + length (wire ls) + 1 < length (gn_name s))%nat ->
  Z.of_nat (length done + length (wire ls)) + 2 <= max_name ->
  Z.of_nat (length pre + length (wire ls)) < max -> 2 <= output_max -> gn_output_len s <= 2 ->
  (length ls < fuel)%nat ->
  exists s', get_name_loop fuel mem max output_max max_name s = Some (s', Some 0) /\
    gn_output_len s' = (if decide (ls = []) then gn_output_len s else 2) /\
    (forall e, gn_end s = Some e -> gn_end s' = Some e) /\
    exists tail, gn_name s' = done ++ wire ls ++ 0 :: tail.
Proof.
  induction ls as [|l ls IH]; intros fuel pre post s done Hmem Hok Hp Hn Ht Hz Hcap Hmn Hmax Hom Hol Hf;
    (destruct fuel as [|fuel]; [cbn in Hf; lia|]); cbn [get_name_loop].
  - exists s. unfold get_name_step. rewrite Hp, Hmem. cbn [app wire map concat]. rewrite rd_mid.
    change (0 =? 0) with true. split_and!; [done|done|done|]. destruct (Hz eq_refl) as [tail E]. by exists tail.
  - apply Forall_cons_1 in Hok as [[Hl _] Hok]. destruct (label_byte (length l) Hl) as [E0 Ec].
    rewrite wire_cons in *. cbn [length] in *. rewrite length_app in *. cbn [app] in Hmem.
    destruct (wire_head ls) as (x & rest & Ex & Hx).
    set (n := length l) in *.
    assert (Hlab : rd_bytes mem (gn_p s + 1) (Z.of_nat n + 1) = Some (l ++ [x])).
    { rewrite rd_bytes_in; [|lia|lia|].
      2:{ rewrite Hmem, Hp. rewrite length_app. cbn [length]. rewrite !length_app. cbn [length]. lia. }
      f_equal. assert (Em : mem = (pre ++ [Z.of_nat n]) ++ (l ++ [x]) ++ rest ++ post).
      { rewrite Hmem, <- !app_assoc. cbn [app]. do 2 f_equal. f_equal.
        change (x :: rest ++ post) with ((x :: rest) ++ post). rewrite <- Ex, <- app_assoc. done. }
      rewrite Em. replace (Z.to_nat (gn_p s + 1)) with (length (pre ++ [Z.of_nat n])) by (rewrite length_app; cbn; lia).
      replace (Z.to_nat (Z.of_nat n + 1)) with (length (l ++ [x])) by (rewrite length_app; cbn; lia).
      apply slice_mid. }
    assert (Hstep : get_name_step mem max output_max max_name s =
      inl (mk_gn (gn_counter s) (gn_p s + Z.of_nat n + 1) 2 (Some (default (gn_p s + Z.of_nat n + 1) (gn_end s)))
        (wr (length done) (Z.of_nat n :: l ++ [x]) (gn_name s)) (gn_name_len s + 1 + Z.of_nat n))).
    { unfold get_name_step. replace (rd mem (gn_p s)) with (Some (Z.of_nat n)) by (rewrite Hp, Hmem; by rewrite rd_mid).
      rewrite E0, Ec. rewrite !(proj2 (Z.ltb_ge _ _)) by lia. rewrite Hlab. cbv zeta. cbn [gn_p].
      rewrite (proj2 (Z.leb_gt _ _)) by lia. by rewrite Hn, Nat2Z.id. }
    rewrite Hstep.
    assert (Hw : wr (length done) (Z.of_nat n :: l ++ [x]) (gn_name s) =
      (done ++ Z.of_nat n :: l) ++ x :: drop (length done + (n + 2)) (gn_name s)).
    { unfold wr. rewrite Ht. cbn [length]. rewrite length_app. cbn [length app]. fold n.
      rewrite <- !app_assoc. cbn [app].
      by replace (length done + S (n + 1))%nat with (length done + (n + 2))%nat by lia. }
    destruct (IH fuel (pre ++ Z.of_nat n :: l) post
      (mk_gn (gn_counter s) (gn_p s + Z.of_nat n + 1) 2 (Some (default (gn_p s + Z.of_nat n + 1) (gn_end s)))
        (wr (length done) (Z.of_nat n :: l ++ [x]) (gn_name s)) (gn_name_len s + 1 + Z.of_nat n))
      (done ++ Z.of_nat n :: l)) as (s' & E & Ho & He & tail & Et); cbn [gn_p gn_name gn_name_len gn_output_len gn_end];
      rewrite ?length_app; cbn [length]; fold n; try lia; try done.
    + rewrite <- app_assoc. cbn [app]. by rewrite Hmem, <- !app_assoc.
    + rewrite Hw. apply take_app_length'. rewrite length_app. cbn [length]. fold n. lia.
    + intros ->. rewrite Hw. rewrite (Hx eq_refl). by eexists.
    + rewrite Hw, !length_app. cbn [length]. rewrite length_drop. fold n. lia.
    + exists s'. split; [done|]. split; [by rewrite Ho; case_decide|]. split.
      { intros e Ee. apply He. by rewrite Ee. }
      exists tail. rewrite Et, <- !app_assoc. cbn [app]. by rewrite <- app_assoc.
Qed.

Lemma get_name_pointer mem hdr ls post max name p :
  mem = hdr ++ wire ls ++ 0 :: post -> length hdr = 12%nat -> ls <> [] -> Forall label_ok ls ->
  rd mem p = Some NS_CMPRSFLGS -> rd mem (p + 1) = Some 0x0c ->
  Z.of_nat (12 + length (wire ls)) < max -> Z.of_nat (length (wire ls)) + 2 <= NS_MAXDNAME ->
  length name = Z.to_nat (NS_MAXDNAME + 1) ->
  exists s, get_name mem max RSP_SIZE NS_MAXDNAME name p = Some (s, Some 0) /\
    gn_output_len s = 2 /\ gn_end s = Some (p + 2) /\ exists tail, gn_name s = wire ls ++ 0 :: tail.
Proof.
  intros Hmem Hh Hls Hok E0 E1 Hmax Hlen Hname. unfold get_name, name_fuel. cbn [get_name_loop].
  assert (Hstep : get_name_step mem max RSP_SIZE NS_MAXDNAME (mk_gn 0 p 0 None name 0) =
    inl (mk_gn 1 12 0 (Some (p + 2)) name 0)).
  { unfold get_name_step. cbn [gn_p]. rewrite E0. change (NS_CMPRSFLGS =? 0) with false.
    change ((NS_CMPRSFLGS .& NS_CMPRSFLGS) =? NS_CMPRSFLGS) with true. cbv iota. rewrite E1.
    change ((NS_CMPRSFLGS .& 63) * 256 + 12) with 12. cbv zeta. by rewrite (proj2 (Z.leb_gt _ _)) by lia. }
  rewrite Hstep.
  assert (Hn : (length ls <= length (wire ls))%nat).
  { clear. induction ls as [|l ls IH]; [done|]. rewrite wire_cons. cbn [length]. rewrite length_app. lia. }
  destruct (get_name_labels max RSP_SIZE NS_MAXDNAME mem ls (11 * S (Z.to_nat max)) hdr post
    (mk_gn 1 12 0 (Some (p + 2)) name 0) []) as (s & E & Ho & He & Ht);
    cbn [gn_p gn_name_len gn_name gn_output_len length take app]; try done; try lia.
  exists s. split_and!; [exact E| |by apply He|done]. rewrite Ho. by rewrite decide_False.
Qed.

Record answer := mk_answer { an_type : Z; an_class : Z; an_ttl : Z; an_data : list Z }.

Definition enc_fixed (a : answer) : list Z :=
  be_bytes16 (an_type a) ++ be_bytes16 (an_class a) ++ be_bytes32 (an_ttl a) ++
  be_bytes16 (Z.of_nat (length (an_data a))).

(** An answer for the name of the question, as servers send it. *)
Definition enc_answer (a : answer) : list Z := question_pointer ++ enc_fixed a ++ an_data a.

Record answer_ok (a : answer) : Prop := {
  aok_type : 0 <= an_type a < 65536;
  aok_class : 0 <= an_class a < 65536;
  aok_ttl : 0 <= an_ttl a < 2 ^ 31;
  aok_data : (length (an_data a) <= 242)%nat;
}.

Lemma byte_pair x : 0 <= x < 65536 -> byte_of x 1 * 256 + byte_of x 0 = x.
Proof.
  intros Hx. unfold byte_of. change (2 ^ (8 * 1)) with 256. change (2 ^ (8 * 0)) with 1. change (2 ^ 8) with 256.
  rewrite Z.div_1_r. rewrite (Z.mod_small (x / 256)) by (split; [apply Z.div_pos; lia|apply Z.div_lt_upper_bound; lia]).
  pose proof (Z.div_mod x 256 ltac:(lia)). lia.
Qed.

Lemma rd16_at pre post x p :
  0 <= x < 65536 -> p = Z.of_nat (length pre) -> rd16 (pre ++ be_bytes16 x ++ post) p = Some x.
Proof.
  intros Hx ->. unfold rd16, be_bytes16. cbn [app]. rewrite rd_mid, rd_mid1. cbn.
  by rewrite byte_pair.
Qed.

Lemma be_bytes32_halves x :
  0 <= x < 2 ^ 32 -> be_bytes32 x = be_bytes16 (x / 65536) ++ be_bytes16 (x mod 65536).
Proof.
  intros Hx. unfold be_bytes32, be_bytes16, byte_of. cbn [map app].
  change (2 ^ (8 * 3)) with 16777216. change (2 ^ (8 * 2)) with 65536. change (2 ^ (8 * 1)) with 256.
  change (2 ^ (8 * 0)) with 1. change (2 ^ 8) with 256. rewrite !Z.div_1_r.
  assert (E1 : x / 65536 / 256 = x / 16777216) by (rewrite Z.div_div by lia; done).
  assert (E2 : (x mod 65536 / 256) mod 256 = (x / 256) mod 256).
  { rewrite (Z.div_mod x 65536) at 2 by lia. replace (65536 * (x / 65536) + x mod 65536) with
      (x mod 65536 + (256 * (x / 65536)) * 256) by lia. rewrite Z.div_add by lia.
    replace (256 * (x / 65536)) with (x / 65536 * 256) by lia. by rewrite Z.mod_add by lia. }
  assert (E3 : (x mod 65536) mod 256 = x mod 256).
  { rewrite (Z.div_mod x 65536) at 2 by lia. replace (65536 * (x / 65536) + x mod 65536) with
      (x mod 65536 + (256 * (x / 65536)) * 256) by lia. by rewrite Z.mod_add by lia. }
  by rewrite E1, E2, E3.
Qed.

Lemma rd32_at pre post x p :
  0 <= x < 2 ^ 32 -> p = Z.of_nat (length pre) -> rd32 (pre ++ be_bytes32 x ++ post) p = Some x.
Proof.
  intros Hx ->. rewrite be_bytes32_halves by done. unfold rd32. rewrite <- app_assoc.
  pose proof (Z.mod_pos_bound x 65536 ltac:(lia)).
  assert (Hhi : 0 <= x / 65536 < 65536) by (split; [apply Z.div_pos; lia|apply Z.div_lt_upper_bound; lia]).
  rewrite (rd16_at pre _ (x / 65536) _ Hhi eq_refl). cbn [mbind option_bind].
  rewrite app_assoc. rewrite (rd16_at (pre ++ be_bytes16 (x / 65536)) post (x mod 65536)); [|done|].
  - cbn [mbind option_bind]. f_equal. pose proof (Z.div_mod x 65536 ltac:(lia)). lia.
  - rewrite length_app. change (length (be_bytes16 _)) with 2%nat. lia.
Qed.

Lemma length_enc_fixed a : length (enc_fixed a) = 10%nat.
Proof. done. Qed.

Lemma length_enc_answer a : length (enc_answer a) = (12 + length (an_data a))%nat.
Proof. unfold enc_answer. rewrite !length_app, length_enc_fixed. done. Qed.

Lemma rd_bytes_at pre x post p n :
  p = Z.of_nat (length pre) -> n = Z.of_nat (length x) -> rd_bytes (pre ++ x ++ post) p n = Some x.
Proof.
  intros -> ->. rewrite rd_bytes_in by (rewrite ?length_app; lia). rewrite !Nat2Z.id. by rewrite slice_mid.
Qed.

(** The fields of the fixed part of a record. *)
Lemma fixed_fields pre a post p :
  answer_ok a -> p = Z.of_nat (length pre) ->
  let mem := pre ++ enc_fixed a ++ post in
  rd_bytes mem p DNS_RR_SIZE = Some (enc_fixed a) /\ rd16 mem p = Some (an_type a) /\
  rd16 mem (p + 2) = Some (an_class a) /\ rd32 mem (p + 4) = Some (an_ttl a) /\
  rd16 mem (p + 8) = Some (Z.of_nat (length (an_data a))).
Proof.
  intros [Ht Hc Htl Hd] -> mem. subst mem. split; [by apply rd_bytes_at|].
  unfold enc_fixed. rewrite <- !app_assoc. split_and!.
  - by apply rd16_at.
  - rewrite app_assoc. apply rd16_at; [done|]. rewrite length_app. change (length (be_bytes16 _)) with 2%nat. lia.
  - rewrite 2!app_assoc. apply rd32_at; [lia|]. rewrite !length_app.
    change (length (be_bytes16 _)) with 2%nat. change (length (be_bytes16 _)) with 2%nat. lia.
  - rewrite 3!app_assoc. apply rd16_at; [lia|]. rewrite !length_app. change (length (be_bytes32 _)) with 4%nat.
    change (length (be_bytes16 _)) with 2%nat. change (length (be_bytes16 _)) with 2%nat. lia.
Qed.

(** The message a question and its answers are in: [pre] is what comes before
    the record at hand. *)
Lemma parse_rr_answer hdr ls q pre a post max f :
  length hdr = 12%nat -> ls <> [] -> Forall label_ok ls ->
  Z.of_nat (length (wire ls)) + 2 <= NS_MAXDNAME -> answer_ok a ->
  pre = hdr ++ wire ls ++ 0 :: q ->
  Z.of_nat (length pre + length (enc_answer a)) <= max ->
  exists name, parse_rr (pre ++ enc_answer a ++ post) (Z.of_nat (length pre)) max RSP_SIZE NS_MAXDNAME f =
    Some (mk_fields (an_type a) (an_class a) (an_ttl a),
          inr (mk_rr (enc_answer a) (Z.of_nat (length (an_data a)))
                 (Z.of_nat (length pre + length (enc_answer a))) name)) /\
    exists tail, name = wire ls ++ 0 :: tail.
Proof.
  intros Hh Hls Hok Hlen Ha Hpre Hmax.
  set (mem := pre ++ enc_answer a ++ post). rewrite length_enc_answer in Hmax.
  destruct (get_name_pointer mem hdr ls (q ++ enc_answer a ++ post) max name_buffer (Z.of_nat (length pre)))
    as (s & E & Ho & He & Ht); try done.
  { subst mem. rewrite Hpre, <- !app_assoc. cbn [app]. done. }
  { subst mem. unfold enc_answer, question_pointer. cbn [app]. by rewrite rd_mid. }
  { subst mem. unfold enc_answer, question_pointer. cbn [app]. by rewrite rd_mid1. }
  { rewrite Hpre, !length_app in Hmax. cbn [length] in Hmax. lia. }
  assert (Em : mem = (pre ++ question_pointer) ++ enc_fixed a ++ an_data a ++ post).
  { subst mem. unfold enc_answer. by rewrite <- !app_assoc. }
  assert (Hl2 : length (pre ++ question_pointer) = (length pre + 2)%nat) by (rewrite length_app; done).
  destruct (fixed_fields (pre ++ question_pointer) a (an_data a ++ post) (Z.of_nat (length pre) + 2) Ha)
    as (F0 & F1 & F2 & F3 & F4); [rewrite Hl2; lia|]. rewrite <- Em in *.
  exists (gn_name s). split; [|done]. unfold parse_rr. rewrite E. cbn [mbind option_bind].
  change (0 <? 0) with false. cbv iota zeta. rewrite Ho, He. change (RSP_SIZE <? 2) with false. cbv iota.
  rewrite F0, F1, F2, F3, F4. cbn [mbind option_bind f_ttl].
  pose proof (aok_ttl _ Ha). pose proof (aok_data _ Ha).
  rewrite s32_small by lia. rewrite (proj2 (Z.ltb_ge _ _)) by lia.
  rewrite (proj2 (Z.ltb_ge RSP_SIZE _)) by (unfold RSP_SIZE, NS_MAXCDNAME, DNS_RR_SIZE; lia).
  rewrite (proj2 (Z.ltb_ge max _)) by (unfold DNS_RR_SIZE; lia).
  replace mem with ((pre ++ question_pointer ++ enc_fixed a) ++ an_data a ++ post)
    by (rewrite Em, <- !app_assoc; done).
  rewrite (rd_bytes_at (pre ++ question_pointer ++ enc_fixed a) (an_data a) post);
    [|rewrite !length_app, length_enc_fixed; change (length question_pointer) with 2%nat; unfold DNS_RR_SIZE; lia|done].
  cbn [mbind option_bind]. do 2 f_equal. f_equal. rewrite length_enc_answer. f_equal. unfold DNS_RR_SIZE. lia.
Qed.

Lemma wire_nonzero ls : Forall label_ok ls -> Forall (fun b => 0 < b < 256) (wire ls).
Proof.
  induction 1 as [|l ls [Hl Hb] _ IH]; [constructor|]. rewrite wire_cons. constructor; [lia|].
  apply Forall_app. by split.
Qed.

(** The answers that answer the question. *)
Definition matching (qtype qclass : Z) (l : list answer) : list answer :=
  List.filter (fun a => (an_class a =? qclass) && (an_type a =? qtype)) l.

Definition enc_answers (l : list answer) : list Z := concat (map enc_answer l).

Definition fields_of (a : answer) : rr_fields := mk_fields (an_type a) (an_class a) (an_ttl a).

Lemma length_matching qtype qclass l : (length (matching qtype qclass l) <= length l)%nat.
Proof. apply filter_length_le. Qed.

Lemma parse_answer_run hdr ls q pre a post max maxlen qtype qclass s :
  length hdr = 12%nat -> ls <> [] -> Forall label_ok ls ->
  Z.of_nat (length (wire ls)) + 2 <= NS_MAXDNAME -> answer_ok a -> an_type a <> DNS_TYPE_CNAME ->
  pre = hdr ++ wire ls ++ 0 :: q ->
  Z.of_nat (length pre + length (enc_answer a)) <= max ->
  a_ptr s = Z.of_nat (length pre) -> a_aliases s = [] ->
  Z.of_nat (length (a_response s) + length (enc_answer a)) <= maxlen -> 0 <= a_count s < 65535 ->
  parse_answer (pre ++ enc_answer a ++ post) max maxlen (wire ls) qtype qclass s =
    Some (inl (mk_answers (Z.of_nat (length pre + length (enc_answer a))) (fields_of a) []
      (a_response s ++ enc_answers (matching qtype qclass [a]))
      (a_count s + Z.of_nat (length (matching qtype qclass [a])))
      (if decide (matching qtype qclass [a] = []) then a_err s else 0))).
Proof.
  intros Hh Hls Hok Hlen Ha Hnc Hpre Hmax Hptr Hal Hroom Hcnt.
  destruct (parse_rr_answer hdr ls q pre a post max (a_fields s) Hh Hls Hok Hlen Ha Hpre Hmax)
    as (name & E & tail & ->).
  unfold parse_answer. rewrite Hptr, E. cbn [mbind option_bind]. cbv iota beta. cbn [a_aliases rr_next f_class f_type rr_name rr_rsp].
  rewrite Hal. unfold matching. cbn [List.filter].
  assert (Enil : a_response s ++ enc_answers [] = a_response s) by apply app_nil_r.
  destruct (an_class a =? qclass); cbn [negb andb]; [|by rewrite Enil, Z.add_0_r].
  rewrite (proj2 (Z.eqb_neq _ _) Hnc). cbn [andb].
  destruct (an_type a =? qtype); [|by rewrite Enil, Z.add_0_r].
  assert (Eq : strncmp_eq (wire ls) (wire ls ++ 0 :: tail) (Z.of_nat (length (wire ls))) = true).
  { unfold strncmp_eq. rewrite upto_nul_app, upto_nul_id by by apply wire_nonzero. apply bytes_eqb_refl. }
  rewrite Eq. cbn [check_alias existsb orb andb]. rewrite (proj2 (Z.ltb_ge _ _)) by (cbn [a_response]; lia).
  cbn [length a_response a_count]. rewrite u16_small by lia. unfold enc_answers. cbn [map concat]. by rewrite app_nil_r.
Qed.

Lemma enc_answers_app l1 l2 : enc_answers (l1 ++ l2) = enc_answers l1 ++ enc_answers l2.
Proof. unfold enc_answers. by rewrite map_app, concat_app. Qed.

Lemma matching_cons qtype qclass a l :
  matching qtype qclass (a :: l) = matching qtype qclass [a] ++ matching qtype qclass l.
Proof. unfold matching. cbn. by destruct (_ && _). Qed.

Lemma parse_answers_run hdr ls max maxlen qtype qclass post : forall l q pre s,
  length hdr = 12%nat -> ls <> [] -> Forall label_ok ls ->
  Z.of_nat (length (wire ls)) + 2 <= NS_MAXDNAME ->
  Forall answer_ok l -> Forall (fun a => an_type a <> DNS_TYPE_CNAME) l ->
  pre = hdr ++ wire ls ++ 0 :: q ->
  Z.of_nat (length pre + length (enc_answers l)) <= max ->
  a_ptr s = Z.of_nat (length pre) -> a_aliases s = [] ->
  Z.of_nat (length (a_response s) + length (enc_answers l)) <= maxlen ->
  0 <= a_count s -> a_count s + Z.of_nat (length l) < 65536 ->
  parse_answers (length l) (pre ++ enc_answers l ++ post) max maxlen (wire ls) qtype qclass s =
    Some (mk_answers (Z.of_nat (length pre + length (enc_answers l)))
      (default (a_fields s) (fields_of <$> last l)) []
      (a_response s ++ enc_answers (matching qtype qclass l))
      (a_count s + Z.of_nat (length (matching qtype qclass l)))
      (if decide (matching qtype qclass l = []) then a_err s else 0)).
Proof.
  induction l as [|a l IH]; intros q pre s Hh Hls Hok Hlen Hans Hnc Hpre Hmax Hptr Hal Hroom Hc Hcnt; cbn [length parse_answers].
  { cbn [enc_answers map concat matching List.filter length last]. rewrite app_nil_r, Nat.add_0_r, Z.add_0_r.
    destruct s; cbn in *. by subst. }
  apply Forall_cons_1 in Hans as [Ha Hans], Hnc as [Hn Hnc].
  change (enc_answers (a :: l)) with (enc_answer a ++ enc_answers l) in *. rewrite length_app in *. cbn [length] in Hcnt.
  rewrite <- app_assoc.
  rewrite (parse_answer_run hdr ls q pre a (enc_answers l ++ post) max maxlen qtype qclass s); try done; try lia.
  cbn [mbind option_bind].
  pose proof (filter_length_le (fun a => (an_class a =? qclass) && (an_type a =? qtype)) [a]) as Hm1.
  change (length (matching qtype qclass [a]) <= 1)%nat in Hm1.
  assert (Hr1 : (length (enc_answers (matching qtype qclass [a])) <= length (enc_answer a))%nat).
  { unfold matching. cbn. destruct (_ && _); [|cbn; lia]. unfold enc_answers. cbn [map concat]. by rewrite app_nil_r. }
  rewrite (app_assoc pre). rewrite (IH (q ++ enc_answer a) (pre ++ enc_answer a)); cbn [a_ptr a_aliases a_response a_count a_err a_fields];
    rewrite ?length_app; try done; try lia.
  - f_equal. rewrite (matching_cons qtype qclass a l). rewrite enc_answers_app, <- !app_assoc, length_app. f_equal.
    + lia.
    + destruct l as [|x l]; [done|]. change (last (a :: x :: l)) with (last (x :: l)).
      destruct (last (x :: l)) eqn:El; [done|]. by apply last_None in El.
    + lia.
    + by destruct (matching qtype qclass [a]), (matching qtype qclass l).
  - rewrite Hpre, <- !app_assoc. done.
Qed.

(** A reply with one question and answers for its name. *)
Record reply := mk_reply {
  r_id : list Z;
  r_flags : Z;
  r_rcode : Z;        (** the byte the code is in *)
  r_labels : list (list Z);
  r_type : Z;
  r_class : Z;
  r_answers : list answer;
  r_counts : list Z;  (** of the other sections *)
}.

Definition enc_header (r : reply) : list Z :=
  r_id r ++ [r_flags r; r_rcode r] ++ be_bytes16 1 ++ be_bytes16 (Z.of_nat (length (r_answers r))) ++ r_counts r.

Definition enc_question (r : reply) : list Z := be_bytes16 (r_type r) ++ be_bytes16 (r_class r).

Definition enc_reply (r : reply) : list Z :=
  enc_header r ++ wire (r_labels r) ++ 0 :: enc_question r ++ enc_answers (r_answers r).

Record reply_ok (r : reply) : Prop := {
  rok_id : length (r_id r) = 2%nat;
  rok_counts : length (r_counts r) = 4%nat;
  rok_flags : 128 <= r_flags r < 256;
  rok_labels : r_labels r <> [] /\ Forall label_ok (r_labels r);
  rok_name : Z.of_nat (length (wire (r_labels r))) + 2 <= NS_MAXDNAME;
  rok_type : r_type r = DNS_TYPE_A \/ r_type r = DNS_TYPE_AAAA;
  rok_class : 0 <= r_class r < 65536;
  rok_answers : r_answers r <> [] /\ Forall answer_ok (r_answers r) /\
    Forall (fun a => an_type a <> DNS_TYPE_CNAME) (r_answers r);
  rok_size : Z.of_nat (length (enc_answers (r_answers r))) <= NS_MAXDNAME;
}.

Lemma c_str_take ls n rest :
  Forall (fun b => 0 < b < 256) ls -> (length ls < n)%nat -> c_str (take n (ls ++ 0 :: rest)) = Some ls.
Proof.
  intros Hl. revert n. induction Hl as [|b ls Hb _ IH]; intros n Hn; (destruct n; [cbn in Hn; lia|]); cbn [app take c_str].
  - done.
  - destruct (Z.eqb_spec b 0); [lia|]. rewrite IH by (cbn in Hn; lia). done.
Qed.

Lemma c_str_mid l post : Forall (fun b => 0 < b < 256) l -> c_str (l ++ 0 :: post) = Some l.
Proof.
  intros Hl. pose proof (c_str_take l (length (l ++ 0 :: post)) post Hl) as E. rewrite firstn_all in E. apply E.
  rewrite length_app. cbn [length]. lia.
Qed.

Lemma c_str_at_mid pre l post p :
  Forall (fun b => 0 < b < 256) l -> p = Z.of_nat (length pre) -> c_str_at (pre ++ l ++ 0 :: post) p = Some l.
Proof.
  intros Hl ->. unfold c_str_at. rewrite (proj2 (Z.ltb_ge _ _)) by lia. rewrite Nat2Z.id, drop_app_length. by apply c_str_mid.
Qed.

Lemma length_enc_header r : reply_ok r -> length (enc_header r) = 12%nat.
Proof.
  intros R. unfold enc_header. rewrite !length_app, (rok_id _ R), (rok_counts _ R). done.
Qed.

Lemma length_enc_answers_ge l : (12 * length l <= length (enc_answers l))%nat.
Proof.
  induction l as [|a l IH]; [done|]. change (enc_answers (a :: l)) with (enc_answer a ++ enc_answers l).
  rewrite length_app, length_enc_answer. cbn [length]. lia.
Qed.

Lemma length_enc_reply r :
  reply_ok r ->
  length (enc_reply r) = (12 + length (wire (r_labels r)) + 5 + length (enc_answers (r_answers r)))%nat.
Proof.
  intros R. unfold enc_reply, enc_question. rewrite !length_app, (length_enc_header r R). cbn [length].
  rewrite !length_app. change (length (be_bytes16 _)) with 2%nat. change (length (be_bytes16 _)) with 2%nat. lia.
Qed.

(** The header of a reply read back. *)
Lemma reply_header r tail :
  reply_ok r ->
  let mem := enc_reply r ++ tail in
  rd mem (Z.of_nat hdr_flags) = Some (r_flags r) /\ rd mem (Z.of_nat hdr_rcode) = Some (r_rcode r) /\
  rd16 mem hdr_qdcount = Some 1 /\
  rd16 mem hdr_ancount = Some (Z.of_nat (length (r_answers r))).
Proof.
  intros R mem. pose proof (length_enc_answers_ge (r_answers r)). pose proof (rok_size _ R).
  assert (Em : mem = r_id r ++ r_flags r :: r_rcode r :: be_bytes16 1 ++ be_bytes16 (Z.of_nat (length (r_answers r))) ++
    r_counts r ++ wire (r_labels r) ++ 0 :: enc_question r ++ enc_answers (r_answers r) ++ tail).
  { subst mem. unfold enc_reply, enc_header. by rewrite <- !app_assoc. }
  clearbody mem. subst mem. split_and!.
  - unfold hdr_flags. rewrite <- (rok_id _ R). by rewrite rd_mid.
  - unfold hdr_rcode. replace (Z.of_nat 3) with (Z.of_nat (length (r_id r)) + 1) by (rewrite (rok_id _ R); done).
    by rewrite rd_mid1.
  - change (r_id r ++ r_flags r :: r_rcode r :: ?x) with (r_id r ++ [r_flags r; r_rcode r] ++ x).
    rewrite app_assoc. apply rd16_at; [lia|]. rewrite length_app, (rok_id _ R). done.
  - change (r_id r ++ r_flags r :: r_rcode r :: ?x) with (r_id r ++ [r_flags r; r_rcode r] ++ x).
    rewrite 2!app_assoc. apply rd16_at; [unfold NS_MAXDNAME in *; lia|]. rewrite !length_app, (rok_id _ R). done.
Qed.

(** The question of a reply read back. *)
Lemma reply_question r tail :
  reply_ok r ->
  let mem := enc_reply r ++ tail in
  let ptr := 12 + Z.of_nat (length (wire (r_labels r))) + 1 in
  (forall n, Z.of_nat (length (wire (r_labels r))) < n -> 12 + n <= Z.of_nat (length mem) ->
    question_string mem 12 n NS_MAXDNAME = Some (Some (wire (r_labels r)))) /\
  rd16 mem ptr = Some (r_type r) /\ rd16 mem (ptr + 2) = Some (r_class r).
Proof.
  intros R mem ptr. pose proof (length_enc_header r R) as Hh.
  assert (Em : mem = enc_header r ++ wire (r_labels r) ++ 0 :: be_bytes16 (r_type r) ++ be_bytes16 (r_class r) ++
    enc_answers (r_answers r) ++ tail).
  { subst mem. unfold enc_reply, enc_question. rewrite <- !app_assoc. cbn [app]. by rewrite <- !app_assoc. }
  set (pre := enc_header r ++ wire (r_labels r) ++ [0]).
  assert (Hpre : Z.of_nat (length pre) = ptr) by (subst pre ptr; rewrite !length_app, Hh; cbn [length]; lia).
  assert (Em3 : mem = pre ++ be_bytes16 (r_type r) ++ be_bytes16 (r_class r) ++ enc_answers (r_answers r) ++ tail)
    by (rewrite Em; subst pre; by rewrite <- !app_assoc).
  split_and!.
  - intros n Hn Hl. unfold question_string. rewrite rd_bytes_in by lia. cbn [mbind option_bind].
    unfold slice. change (Z.to_nat 12) with 12%nat. rewrite <- Hh. rewrite Em at 1. rewrite drop_app_length.
    rewrite c_str_take; [done|apply wire_nonzero, (rok_labels _ R)|lia].
  - rewrite Em3. apply rd16_at; [|done]. destruct (rok_type _ R) as [-> | ->]; done.
  - rewrite Em3, app_assoc. apply rd16_at; [apply (rok_class _ R)|]. rewrite length_app.
    change (length (be_bytes16 _)) with 2%nat. lia.
Qed.

Lemma reply_qr r : reply_ok r -> (r_flags r .>> 7 =? 1) = true.
Proof.
  intros R. pose proof (rok_flags _ R). rewrite Z.shiftr_div_pow2 by lia. change (2 ^ 7) with 128.
  apply Z.eqb_eq. symmetry. apply (Z.div_unique _ _ _ (r_flags r - 128)); lia.
Qed.

Lemma parse_response_run r tail buflen :
  reply_ok r -> Z.of_nat (length (enc_reply r)) <= buflen <= Z.of_nat (length (enc_reply r ++ tail)) ->
  let m := matching (r_type r) (r_class r) (r_answers r) in
  parse_response (enc_reply r ++ tail) buflen NS_MAXDNAME NS_MAXDNAME =
    Some (mk_parsed (if decide (m = []) then - ENOMSG else 0) (wire (r_labels r))
      (default (mk_fields 0 0 0) (fields_of <$> last (r_answers r))) (enc_answers m) (Z.of_nat (length m))).
Proof.
  intros R Hlen m. destruct (rok_labels _ R) as [Hls Hok]. destruct (rok_answers _ R) as (Hne & Hans & Hnc).
  pose proof (length_enc_answers_ge (r_answers r)) as Hge. pose proof (rok_size _ R) as Hsz.
  pose proof (rok_name _ R) as Hnm. pose proof (length_enc_reply r R) as Elen.
  assert (Hn1 : (1 <= length (r_answers r))%nat) by (destruct (r_answers r); [done|cbn; lia]).
  destruct (reply_header r tail R) as (Ef & _ & Eq & Ea). destruct (reply_question r tail R) as (Es & Et & Ec).
  unfold parse_response, DNS_HEADER_SIZE, DNS_QUESTION_SIZE. rewrite (proj2 (Z.ltb_ge _ _)) by lia.
  rewrite Ef, Eq. cbn [mbind option_bind]. rewrite (reply_qr r R). change (1 =? 1) with true. cbn [negb orb].
  rewrite (Es (Z.min NS_MAXDNAME (buflen - 12))) by (unfold NS_MAXDNAME in *; lia). cbn [mbind option_bind].
  rewrite (proj2 (Z.leb_gt _ _)) by lia. rewrite Et. cbn [mbind option_bind].
  assert (Ety : negb (r_type r =? DNS_TYPE_A) && negb (r_type r =? DNS_TYPE_AAAA) = false)
    by (destruct (rok_type _ R) as [-> | ->]; done).
  rewrite Ety, Ea, Ec. cbn [mbind option_bind]. rewrite Nat2Z.id.
  set (pre := enc_header r ++ wire (r_labels r) ++ 0 :: enc_question r).
  assert (Hp : length pre = (12 + length (wire (r_labels r)) + 5)%nat)
    by (subst pre; rewrite !length_app, (length_enc_header r R); cbn [length enc_question app be_bytes16]; done).
  replace (enc_reply r ++ tail) with (pre ++ enc_answers (r_answers r) ++ tail)
    by (subst pre; unfold enc_reply; rewrite <- !app_assoc; cbn [app]; by rewrite <- !app_assoc).
  rewrite (parse_answers_run (enc_header r) (r_labels r) buflen NS_MAXDNAME (r_type r) (r_class r) tail
    (r_answers r) (enc_question r) pre); cbn [a_ptr a_aliases a_response a_count a_err a_fields length];
    try done; try (unfold NS_MAXDNAME in *; lia). by apply length_enc_header.
Qed.

(** ** Cached messages: theory *)

Definition with_ttl (t : Z) (a : answer) : answer := mk_answer (an_type a) (an_class a) t (an_data a).

Lemma length_with_ttl t l : length (enc_answers (map (with_ttl t) l)) = length (enc_answers l).
Proof.
  induction l as [|a l IH]; [done|]. cbn [map].
  change (enc_answers (?x :: ?y)) with (enc_answer x ++ enc_answers y). by rewrite !length_app, IH, !length_enc_answer.
Qed.

(** The times to live of all answers are replaced, and nothing else. *)
Lemma update_ttl_run t : forall l fuel pre,
  Forall answer_ok l -> (length l < fuel)%nat ->
  update_ttl_loop fuel (pre ++ enc_answers l) (Z.of_nat (length pre)) (Z.of_nat (length (enc_answers l))) t =
    Some (pre ++ enc_answers (map (with_ttl t) l)).
Proof.
  induction l as [|a l IH]; intros fuel pre Hl Hf; (destruct fuel as [|fuel]; [cbn in Hf; lia|]); cbn [update_ttl_loop map]; [done|].
  apply Forall_cons_1 in Hl as [Ha Hl]. change (enc_answers (?x :: ?y)) with (enc_answer x ++ enc_answers y).
  rewrite length_app, length_enc_answer.
  rewrite (proj2 (Z.leb_gt _ _)) by lia.
  set (rest := enc_answers l).
  assert (En : dns_name_length (pre ++ enc_answer a ++ rest) (Z.of_nat (length pre)) = Some 2).
  { unfold dns_name_length, enc_answer, question_pointer. cbn [app]. by rewrite rd_mid. }
  rewrite En. cbn [mbind option_bind]. rewrite !(proj2 (Z.ltb_ge _ _)) by (unfold DNS_RR_SIZE; lia).
  set (left := pre ++ question_pointer ++ be_bytes16 (an_type a) ++ be_bytes16 (an_class a)).
  set (right := be_bytes16 (Z.of_nat (length (an_data a))) ++ an_data a ++ rest).
  assert (Hll : length left = (length pre + 6)%nat).
  { subst left. rewrite !length_app. change (length question_pointer) with 2%nat.
    change (length (be_bytes16 _)) with 2%nat. change (length (be_bytes16 _)) with 2%nat. lia. }
  replace (pre ++ enc_answer a ++ rest) with (left ++ be_bytes32 (an_ttl a) ++ right)
    by (subst left right; unfold enc_answer, enc_fixed; by rewrite <- !app_assoc).
  rewrite (store_at left (be_bytes32 (an_ttl a)) right (be_bytes32 t)); [|lia|done]. cbn [mbind option_bind].
  replace (left ++ be_bytes32 t ++ right) with ((pre ++ question_pointer) ++ enc_fixed (with_ttl t a) ++ an_data a ++ rest)
    by (subst left right; unfold enc_fixed; rewrite <- !app_assoc; done).
  assert (Er : rd16 ((pre ++ question_pointer) ++ enc_fixed (with_ttl t a) ++ an_data a ++ rest)
    (Z.of_nat (length pre) + 2 + 8) = Some (Z.of_nat (length (an_data a)))).
  { unfold enc_fixed. rewrite <- !app_assoc. rewrite 4!app_assoc. pose proof (aok_data _ Ha).
    apply rd16_at; [cbn; lia|]. rewrite !length_app. change (length question_pointer) with 2%nat.
    change (length (be_bytes32 _)) with 4%nat. change (length (be_bytes16 _)) with 2%nat.
    change (length (be_bytes16 _)) with 2%nat. lia. }
  rewrite Er. cbn [mbind option_bind]. rewrite (proj2 (Z.ltb_ge _ _)) by (unfold DNS_RR_SIZE; lia).
  replace ((pre ++ question_pointer) ++ enc_fixed (with_ttl t a) ++ an_data a ++ rest)
    with ((pre ++ enc_answer (with_ttl t a)) ++ rest) by (unfold enc_answer; by rewrite <- !app_assoc).
  replace (Z.of_nat (length pre) + 2 + (DNS_RR_SIZE + Z.of_nat (length (an_data a))))
    with (Z.of_nat (length (pre ++ enc_answer (with_ttl t a))))
    by (rewrite length_app, length_enc_answer; cbn [with_ttl an_data]; unfold DNS_RR_SIZE; lia).
  replace (Z.of_nat (12 + length (an_data a) + length rest) - 2 - (DNS_RR_SIZE + Z.of_nat (length (an_data a))))
    with (Z.of_nat (length rest)) by (unfold DNS_RR_SIZE; lia).
  subst rest. rewrite IH by (try done; cbn in Hf; lia). by rewrite <- app_assoc.
Qed.

Lemma dns_name_length_wire pre ls post :
  ls <> [] -> Forall label_ok ls ->
  dns_name_length (pre ++ wire ls ++ 0 :: post) (Z.of_nat (length pre)) = Some (Z.of_nat (length (wire ls)) + 1).
Proof.
  intros Hls Hok. destruct ls as [|l ls]; [done|]. pose proof Hok as Hok'. apply Forall_cons_1 in Hok' as [[Hl _] _].
  unfold dns_name_length. rewrite wire_cons. cbn [app]. rewrite rd_mid. cbn [mbind option_bind].
  destruct (label_byte (length l) Hl) as [_ ->].
  change (Z.of_nat (length l) :: (l ++ wire ls) ++ 0 :: post) with ((Z.of_nat (length l) :: (l ++ wire ls)) ++ 0 :: post).
  change (Z.of_nat (length l) :: l ++ wire ls) with (wire (l :: ls)).
  by rewrite c_str_at_mid by (try done; by apply wire_nonzero).
Qed.

Lemma update_cached_ttl_run pre hdr ls ty cl l t :
  length hdr = 12%nat -> ls <> [] -> Forall label_ok ls -> Forall answer_ok l -> 0 <= t ->
  let msg l := hdr ++ wire ls ++ 0 :: be_bytes16 ty ++ be_bytes16 cl ++ enc_answers l in
  update_cached_ttl (pre ++ msg l) (Z.of_nat (length pre)) (Z.of_nat (length (msg l))) t =
    Some (pre ++ msg (map (with_ttl t) l)).
Proof.
  intros Hh Hls Hok Hl Ht msg.
  assert (Hlen : Z.of_nat (length (msg l)) = 12 + Z.of_nat (length (wire ls)) + 5 + Z.of_nat (length (enc_answers l))).
  { subst msg. cbv beta. rewrite !length_app. cbn [length]. rewrite !length_app.
    change (length (be_bytes16 _)) with 2%nat. change (length (be_bytes16 _)) with 2%nat. lia. }
  unfold update_cached_ttl. rewrite (proj2 (Z.ltb_ge t 0) Ht), Hlen.
  rewrite (proj2 (Z.ltb_ge _ (DNS_HEADER_SIZE + _ + 1))) by (unfold DNS_HEADER_SIZE, DNS_QUESTION_SIZE; lia). cbn [orb].
  replace (pre ++ msg l) with ((pre ++ hdr) ++ wire ls ++ 0 :: be_bytes16 ty ++ be_bytes16 cl ++ enc_answers l)
    by (subst msg; by rewrite <- !app_assoc).
  replace (Z.of_nat (length pre) + DNS_HEADER_SIZE) with (Z.of_nat (length (pre ++ hdr)))
    by (rewrite length_app; unfold DNS_HEADER_SIZE; lia).
  rewrite dns_name_length_wire by done. cbn [mbind option_bind].
  rewrite (proj2 (Z.ltb_ge _ _)) by (unfold DNS_HEADER_SIZE, DNS_QUESTION_SIZE; lia).
  set (left := (pre ++ hdr) ++ wire ls ++ 0 :: be_bytes16 ty ++ be_bytes16 cl).
  assert (E : forall x, (pre ++ hdr) ++ wire ls ++ 0 :: be_bytes16 ty ++ be_bytes16 cl ++ enc_answers x = left ++ enc_answers x).
  { intros x. subst left. rewrite <- !app_assoc. cbn [app]. by rewrite <- !app_assoc. }
  rewrite E. replace (Z.of_nat (length (pre ++ hdr)) + (Z.of_nat (length (wire ls)) + 1) + DNS_QUESTION_SIZE)
    with (Z.of_nat (length left)).
  2:{ subst left. rewrite !length_app. cbn [length]. rewrite length_app. change (length (be_bytes16 _)) with 2%nat.
      change (length (be_bytes16 _)) with 2%nat. unfold DNS_QUESTION_SIZE. lia. }
  match goal with |- update_ttl_loop ?f _ _ ?n _ = _ => replace n with (Z.of_nat (length (enc_answers l)))
    by (unfold DNS_HEADER_SIZE, DNS_QUESTION_SIZE; lia); set (fuel := f) end.
  rewrite update_ttl_run; [|done|subst fuel; pose proof (length_enc_answers_ge l); unfold DNS_HEADER_SIZE; lia].
  f_equal. rewrite <- E. subst msg. cbv beta. by rewrite <- app_assoc.
Qed.

(** ** Domain names in dotted form *)

(** Every label followed by a dot, the form the proxy keeps names in. *)
Definition dotted (ls : list (list Z)) : list Z := concat (map (fun l => l ++ [dot]) ls).

(** A label [append_data] takes: no dot, no zero. *)
Definition text_label (l : list Z) : Prop :=
  (1 <= length l <= 255)%nat /\ Forall (fun b => b <> 0 /\ b <> dot) l.

Lemma strchrnul_label l x rest :
  Forall (fun b => b <> 0 /\ b <> dot) l -> x = 0 \/ x = dot ->
  strchrnul (l ++ x :: rest) = Some (l, x :: rest).
Proof.
  intros Hl Hx. induction Hl as [|b l [Hb Hd] _ IH]; cbn [app strchrnul].
  - assert (E : (x =? 0) || (x =? dot) = true) by (destruct Hx as [-> | ->]; done). by rewrite E.
  - rewrite (proj2 (Z.eqb_neq _ _) Hb), (proj2 (Z.eqb_neq _ _) Hd). cbn [orb]. by rewrite IH.
Qed.

Lemma append_data_dotted ls : forall fuel size rest,
  Forall text_label ls -> (length ls < fuel)%nat ->
  append_data_loop fuel size (dotted ls ++ 0 :: rest) =
    Some (if Z.of_nat (length (wire ls)) <=? size then inr (wire ls)
          else if decide (ls = []) then inr [] else inl tt).
Proof.
  induction ls as [|l ls IH]; intros fuel size rest Hls Hf; (destruct fuel as [|fuel]; [cbn in Hf; lia|]).
  { cbn [dotted map concat app append_data_loop strchrnul]. rewrite decide_True by done. by case (_ <=? _). }
  apply Forall_cons_1 in Hls as [[Hl Hb] Hls].
  change (dotted (l :: ls)) with ((l ++ [dot]) ++ dotted ls). rewrite <- !app_assoc. cbn [app append_data_loop].
  rewrite strchrnul_label by auto. cbn [mbind option_bind].
  rewrite (proj2 (Z.eqb_neq _ _)) by lia. rewrite wire_cons. cbn [length]. rewrite length_app.
  rewrite decide_False by done.
  destruct (Z.ltb_spec size (Z.of_nat (length l) + 1)); [by rewrite (proj2 (Z.leb_gt _ _)) by lia|].
  cbn [drop]. rewrite drop_0, IH; [|done|cbn in Hf; lia]. cbn [mbind option_bind]. rewrite u8_small by lia.
  destruct (Z.leb_spec (Z.of_nat (length (wire ls))) (size - (Z.of_nat (length l) + 1))).
  - by rewrite (proj2 (Z.leb_le _ _)) by lia.
  - rewrite (proj2 (Z.leb_gt _ _)) by lia. case_decide as E; [|done].
    subst. cbn in *. lia.
Qed.

Lemma dotted_length ls : Forall text_label ls -> (length ls <= length (dotted ls))%nat.
Proof.
  induction 1 as [|l ls [Hl _] _ IH]; [done|]. change (dotted (l :: ls)) with ((l ++ [dot]) ++ dotted ls).
  rewrite !length_app. cbn [length]. lia.
Qed.

Lemma wire_app a b : wire (a ++ b) = wire a ++ wire b.
Proof. unfold wire. by rewrite map_app, concat_app. Qed.

Lemma append_data_spec ls size rest :
  Forall text_label ls -> 0 <= size ->
  append_data size (dotted ls ++ 0 :: rest) =
    Some (if Z.of_nat (length (wire ls)) <=? size then inr (wire ls) else inl tt).
Proof.
  intros Hls Hsize. unfold append_data. pose proof (dotted_length ls Hls).
  rewrite append_data_dotted; [|done|rewrite length_app; lia].
  destruct (Z.leb_spec (Z.of_nat (length (wire ls))) size) as [|Hgt]; [done|].
  rewrite decide_False; [done|]. intros ->. cbn in Hgt. lia.
Qed.

(** [append_query] writes the labels of the query and of the domain, in
    this order and in wire format with the terminator, exactly when they fit into
    the buffer, and fails with -1 otherwise; both strings end in a dot. *)
Lemma append_query_encodes qs ds r1 r2 size :
  Forall text_label qs -> Forall text_label ds -> 0 <= size ->
  append_query size (dotted qs ++ 0 :: r1) (dotted ds ++ 0 :: r2) =
    Some (if Z.of_nat (length (wire (qs ++ ds))) <? size then inr (wire (qs ++ ds) ++ [0]) else inl (-1)).
Proof.
  intros Hq Hd Hs. unfold append_query. rewrite append_data_spec by done. cbn [mbind option_bind].
  rewrite wire_app, length_app.
  destruct (Z.leb_spec (Z.of_nat (length (wire qs))) size); [|by rewrite (proj2 (Z.ltb_ge _ _)) by lia].
  rewrite append_data_spec by (try done; lia). cbn [mbind option_bind].
  destruct (Z.leb_spec (Z.of_nat (length (wire ds))) (size - Z.of_nat (length (wire qs))));
    [|by rewrite (proj2 (Z.ltb_ge _ _)) by lia].
  destruct (Z.eqb_spec (size - Z.of_nat (length (wire qs)) - Z.of_nat (length (wire ds))) 0).
  - by rewrite (proj2 (Z.ltb_ge _ _)) by lia.
  - rewrite (proj2 (Z.ltb_lt _ _)) by lia. by rewrite <- app_assoc.
Qed.

(** The labels of a concrete name. *)
Ltac concrete_labels :=
  repeat first [apply List.Forall_nil | apply List.Forall_cons | split | unfold dot; lia | done | progress cbn].

Definition www : list (list Z) := [[119; 119; 119]].
Definition example_com : list (list Z) := [[101; 120; 97; 109; 112; 108; 101]; [99; 111; 109]].

Lemma append_query_encodes_witness :
  append_query 32 (dotted www ++ [0]) (dotted example_com ++ [0]) = Some (inr (wire (www ++ example_com) ++ [0])).
Proof.
  refine (append_query_encodes www example_com [] [] 32 _ _ _); [| |lia].
  - concrete_labels.
  - concrete_labels.
Defined.

(** A domain that does not end in a dot: the label after the last dot ends at
    the terminator, and the loop goes on behind it; here the string is all of
    its object. *)
Lemma append_data_past_terminator l size :
  text_label l -> Z.of_nat (length l) + 1 <= size -> append_data size (l ++ [0]) = None.
Proof.
  intros [Hl Hb] Hs. unfold append_data. rewrite length_app. cbn [length].
  destruct (length l + 1)%nat as [|n] eqn:En; [lia|]. cbn [append_data_loop].
  rewrite strchrnul_label by auto. cbn [mbind option_bind].
  rewrite (proj2 (Z.eqb_neq _ _)) by lia. rewrite (proj2 (Z.ltb_ge _ _)) by lia. done.
Qed.

(** C26: For every message that is followed by 193 readable bytes [get_name] returns: the name, or one of the two
    errors.  It follows 10 pointers at most, the eleventh is refused with an error.  Whatever it returns, it has written to the first
    [max_name] bytes of the buffer only, and what it has written of the name leaves room for the byte that ends it. *)
Theorem get_name_returns mem max output_max max_name name start :
  Forall is_byte mem -> 0 <= start <= max -> max + 193 <= Z.of_nat (length mem) ->
  max_name <= Z.of_nat (length name) ->
  exists s err, get_name mem max output_max max_name name start = Some (s, Some err) /\
    (err = 0 \/ err = - EINVAL \/ err = - ENOBUFS) /\
    gn_counter s <= (if decide (err = - EINVAL) then 11 else 10) /\
    0 <= gn_name_len s <= Z.max 0 (max_name - 1) /\
    length (gn_name s) = length name /\ drop (Z.to_nat max_name) (gn_name s) = drop (Z.to_nat max_name) name.
Proof.
  intros Hb Hs Hl Hn.
  destruct (get_name_loop_returns mem max output_max max_name (name_fuel max) (mk_gn 0 start 0 None name 0))
    as (s & err & E & Hr & [Hc Hlen] & Hk); try done; [lia|split; cbn; lia|unfold gn_measure, name_fuel; cbn [gn_counter gn_p]; lia|].
  destruct (Hk Hn) as [L D]. exists s, err. split_and!; try done; lia.
Qed.

(** A message that is a loop of two pointers. *)
Lemma get_name_returns_witness : exists s err,
  get_name ([NS_CMPRSFLGS; 2; NS_CMPRSFLGS; 0] ++ repeat 0 193) 4 RSP_SIZE NS_MAXDNAME name_buffer 0 = Some (s, Some err).
Proof.
  destruct (get_name_returns ([NS_CMPRSFLGS; 2; NS_CMPRSFLGS; 0] ++ repeat 0 193) 4 RSP_SIZE NS_MAXDNAME name_buffer 0)
    as (s & err & E & _).
  - apply Forall_app. split; [repeat constructor; unfold is_byte, NS_CMPRSFLGS; lia|]. apply list.Forall_forall. intros x Hx%list_elem_of_In%repeat_spec. unfold is_byte. lia.
  - lia.
  - rewrite length_app, repeat_length. cbn. lia.
  - unfold name_buffer. rewrite repeat_length. unfold NS_MAXDNAME. lia.
  - by exists s, err.
Defined.

(** The length of a label is compared with the size of the message, not with
    what is left of it: a label of 63 bytes at the end of a message of 80 bytes
    is read from behind it. *)
Lemma get_name_overreads :
  exists s, get_name (repeat 1 79 ++ [63]) 80 RSP_SIZE NS_MAXDNAME name_buffer 79 = Some (s, None).
Proof. eexists. by vm_compute. Qed.

(** From a reply whose answers have the name of the question
    [parse_response] collects the answers of the type and class that were asked
    for, all of them, in their order and byte for byte, and reports when there
    are none; the type, class and time to live it reports are those of the last
    answer of the message. *)
Lemma parse_response_matching r tail :
  reply_ok r ->
  let m := matching (r_type r) (r_class r) (r_answers r) in
  let mem := enc_reply r ++ tail in
  exists f, fields_of <$> last (r_answers r) = Some f /\
  parse_response mem (Z.of_nat (length (enc_reply r))) NS_MAXDNAME NS_MAXDNAME =
    Some (mk_parsed (if decide (m = []) then - ENOMSG else 0) (wire (r_labels r)) f
      (enc_answers m) (Z.of_nat (length m))).
Proof.
  intros R m mem. subst mem. rewrite parse_response_run by (try done; rewrite length_app; lia).
  destruct (rok_answers _ R) as (Hne & _ & _). destruct (last (r_answers r)) as [a|] eqn:El.
  - by exists (fields_of a).
  - by apply last_None in El.
Qed.

(** A reply with two addresses for www.example.com. *)
Definition demo_answer (n : Z) : answer := mk_answer DNS_TYPE_A 1 600 [192; 0; 2; n].
Definition demo_reply : reply :=
  mk_reply [18; 52] 129 128 (www ++ example_com) DNS_TYPE_A 1 [demo_answer 1; demo_answer 2] [0; 0; 0; 0].

Lemma demo_reply_ok : reply_ok demo_reply.
Proof.
  split; try done.
  - split; [done|]. concrete_labels.
  - by left.
  - split_and!; [done|concrete_labels|repeat constructor; done].
Qed.

Lemma parse_response_matching_witness : exists f, f_ttl f = 600 /\
  parse_response (enc_reply demo_reply ++ []) (Z.of_nat (length (enc_reply demo_reply))) NS_MAXDNAME NS_MAXDNAME =
    Some (mk_parsed 0 (wire (www ++ example_com)) f (enc_answers [demo_answer 1; demo_answer 2]) 2).
Proof.
  destruct (parse_response_matching demo_reply [] demo_reply_ok) as (f & Ef & E).
  exists f. split; [by injection Ef as <-|exact E].
Defined.

(** The end of a name is taken to be behind its first label.  The answer below
    spells its name out instead of using a pointer, and its type is read from
    the second label. *)
Definition spelled_answer : list Z :=
  wire (www ++ example_com) ++ 0 :: enc_fixed (demo_answer 1) ++ [192; 0; 2; 1].

Lemma parse_rr_spelled_name : exists f r,
  parse_rr (repeat 0 12 ++ spelled_answer) 12 43 RSP_SIZE NS_MAXDNAME (mk_fields 0 0 0) = Some (f, r) /\
  f_type f = 7 * 256 + 101.
Proof. eexists _, _. split; [by vm_compute|done]. Qed.

End DnsMessage.
