(* ===== verification/DnsCache.v ===== *)
(** * The cache of the DNS proxy (src/dnsproxy.c)

    Replies are cached by the name of their question, in wire format; an entry
    has one reply for A and one for AAAA queries.  The cache is created with the
    first server or message and destroyed when its users are gone; it holds
    256 names at most.  A cached reply is kept as a message, in which a lookup
    replaces the identifier, the flags and the times to live in place before it is
    sent.

    [None] is a read outside the memory that is read.  The clock is the same
    during one call; the allocator and the order in which a hash table is
    visited are parameters. *)

From S2P Require Import Prelude Inet Buffer Glib DnsMessage.
From stdpp Require Import list gmap.
Import DnsMessage.
Open Scope Z_scope.

Module DnsCache.

Definition MAX_CACHE_TTL : Z := 60 * 30.
Definition MIN_CACHE_TTL : Z := 30.
Definition MAX_CACHE_SIZE : Z := 256.
Definition DNS_HEADER_TCP_EXTRA_BYTES : Z := 2.
Definition DNS_TCP_HEADER_SIZE : Z := DNS_HEADER_SIZE + DNS_HEADER_TCP_EXTRA_BYTES.

Inductive protocol := UDP | TCP.

Definition protocol_offset (p : protocol) : Z :=
  match p with UDP => 0 | TCP => DNS_HEADER_TCP_EXTRA_BYTES end.

(** The clock and the allocator during one call. *)
Record env := mk_env { now : Z; alloc_ok : bool }.

Record cache_data := mk_data {
  inserted : Z;
  valid_until : Z;
  cache_until : Z;
  timeout : Z;
  cd_type : Z;
  cd_answers : Z;
  data : list Z;      (** [data_len] is its length *)
}.

Record cache_entry := mk_entry {
  key : list Z;
  want_refresh : bool;
  hits : Z;
  ipv4 : option cache_data;
  ipv6 : option cache_data;
}.

Definition with_want_refresh (w : bool) (e : cache_entry) : cache_entry :=
  mk_entry (key e) w (hits e) (ipv4 e) (ipv6 e).
Definition with_hits (h : Z) (e : cache_entry) : cache_entry :=
  mk_entry (key e) (want_refresh e) h (ipv4 e) (ipv6 e).
Definition with_ipv4 (d : option cache_data) (e : cache_entry) : cache_entry :=
  mk_entry (key e) (want_refresh e) (hits e) d (ipv6 e).
Definition with_ipv6 (d : option cache_data) (e : cache_entry) : cache_entry :=
  mk_entry (key e) (want_refresh e) (hits e) (ipv4 e) d.

Abbreviation table := (gmap (list Z) cache_entry).

(** The variables of the file; [max_timeout] is the one [cache_cleanup] keeps. *)
Record state := mk_state {
  cache : option table;
  cache_size : Z;
  cache_refcount : Z;
  next_refresh : Z;
  max_timeout : Z;
  cache_timer : bool;
}.

Definition set_cache (t : option table) (n : Z) (s : state) : state :=
  mk_state t n (cache_refcount s) (next_refresh s) (max_timeout s) (cache_timer s).
Definition set_refcount (n : Z) (s : state) : state :=
  mk_state (cache s) (cache_size s) n (next_refresh s) (max_timeout s) (cache_timer s).
Definition set_next_refresh (t : Z) (s : state) : state :=
  mk_state (cache s) (cache_size s) (cache_refcount s) t (max_timeout s) (cache_timer s).
Definition set_max_timeout (t : Z) (s : state) : state :=
  mk_state (cache s) (cache_size s) (cache_refcount s) (next_refresh s) t (cache_timer s).
Definition set_cache_timer (b : bool) (s : state) : state :=
  mk_state (cache s) (cache_size s) (cache_refcount s) (next_refresh s) (max_timeout s) b.

(** Nothing is found in a table that is not there. *)
Definition entries (s : state) : table := default ∅ (cache s).

Inductive output :=
| Lookup_hostname (family6 : bool) (name : list Z)
| Send (sk : Z) (bytes : list Z).

(** ** Entries *)

Definition cache_check_is_valid (d : option cache_data) (current_time : Z) : bool :=
  match d with
  | None => false
  | Some d => negb (cache_until d <? current_time)
  end.

(** [cache_free_ipv4], [cache_free_ipv6] *)
Definition cache_free_ipv4 (e : cache_entry) : cache_entry := with_ipv4 None e.
Definition cache_free_ipv6 (e : cache_entry) : cache_entry := with_ipv6 None e.

Definition cache_enforce_validity (current_time : Z) (e : cache_entry) : cache_entry :=
  let e := if bool_decide (is_Some (ipv4 e)) && negb (cache_check_is_valid (ipv4 e) current_time)
           then cache_free_ipv4 e else e in
  if bool_decide (is_Some (ipv6 e)) && negb (cache_check_is_valid (ipv6 e) current_time)
  then cache_free_ipv6 e else e.

(** The value destructor of the table; the entry itself is freed. *)
Definition cache_element_destroy (size : Z) : Z := if size - 1 <? 0 then 0 else size - 1.

Definition g_hash_table_remove (k : list Z) (s : state) : state :=
  match cache s with
  | None => s
  | Some t =>
      match t !! k with
      | None => s
      | Some _ => set_cache (Some (delete k t)) (cache_element_destroy (cache_size s)) s
      end
  end.

(** The entry behind a key is written to. *)
Definition put_entry (k : list Z) (e : cache_entry) (s : state) : state :=
  set_cache ((fun t => <[k := e]> t) <$> cache s) (cache_size s) s.

(** [e] is the entry found for [question]. *)
Definition cache_check_validity (current_time : Z) (question : list Z) (type : Z) (e : cache_entry)
    (s : state) : bool * state :=
  let e := cache_enforce_validity current_time e in
  let s := put_entry question e s in
  if negb (type =? DNS_TYPE_A) && negb (type =? DNS_TYPE_AAAA) then (false, s)
  else
    let cached_ip := if type =? DNS_TYPE_A then ipv4 e else ipv6 e in
    let other_ip := if type =? DNS_TYPE_A then ipv6 e else ipv4 e in
    if negb (cache_check_is_valid cached_ip current_time) then
      if 2 <? hits e then (true, put_entry question (with_want_refresh true e) s)
      else if negb (cache_check_is_valid other_ip current_time)
      then (false, g_hash_table_remove question s)
      else (true, s)
    else (true, s).

(** ** The life of the cache *)

Definition try_remove_cache (s : state) : state :=
  let s := set_cache_timer false s in
  let old := cache_refcount s in
  let s := set_refcount (old - 1) s in
  if old =? 1 then set_cache None 0 s else s.

Definition create_cache (s : state) : state :=
  let old := cache_refcount s in
  let s := set_refcount (old + 1) s in
  if old =? 0 then set_cache (Some ∅) 0 s else s.

(** What [destroy_server] does to the cache. *)
Definition destroy_server_cache (s : state) : state :=
  match cache s with
  | Some _ => if negb (cache_timer s) then set_cache_timer true s else s
  | None => s
  end.

(** [request] is the client's message; the result is the name and the type of a
    query the cache has an entry for. *)
Definition cache_check (current_time : Z) (request : list Z) (p : protocol) (s : state) :
    option (option (list Z * Z) * state) :=
  let q := protocol_offset p + DNS_HEADER_SIZE in
  question ← c_str_at request q;
  type ← rd16 request (q + Z.of_nat (length question) + 1);
  if negb (type =? DNS_TYPE_A) && negb (type =? DNS_TYPE_AAAA) then Some (None, s)
  else
    match cache s with
    | None => Some (None, create_cache s)
    | Some t =>
        match t !! question with
        | None => Some (None, s)
        | Some e =>
            let '(ok, s) := cache_check_validity current_time question type e s in
            Some ((if ok then Some (question, type) else None), s)
        end
    end.

(** ** Cleaning *)

Record cache_timeout := mk_timeout { current_time : Z; to_max_timeout : Z; try_harder : bool }.

(** One cached reply: the largest timeout so far, and whether it has expired. *)
Definition check_data (d : option cache_data) (u : cache_timeout) : cache_timeout * bool :=
  match d with
  | None => (u, false)
  | Some d =>
      if 0 <? timeout d then
        (mk_timeout (current_time u)
           (if to_max_timeout u <? cache_until d then cache_until d else to_max_timeout u) (try_harder u),
         cache_until d <? current_time u)
      else (u, false)
  end.

Definition cache_check_entry (u : cache_timeout) (e : cache_entry) : cache_timeout * cache_entry * bool :=
  let e := with_hits (hits e / 2) e in
  let '(u, expired) := check_data (ipv4 e) u in
  if expired then (u, e, true)
  else
    let '(u, expired) := check_data (ipv6 e) u in
    if expired then (u, e, true)
    else (u, e, try_harder u && (hits e <? 4)).

Section foreach.
Context {A : Type} (f : A -> cache_entry -> A * cache_entry * bool).

(** [g_hash_table_foreach_remove] over the pairs in the order they are visited;
    the destructor runs for every pair that is removed. *)
Fixpoint foreach_remove (l : list (list Z * cache_entry)) (a : A) (t : table) (size : Z) (n : nat) :
    A * table * Z * nat :=
  match l with
  | [] => (a, t, size, n)
  | (k, e) :: l =>
      let '(a, e, remove) := f a e in
      if remove then foreach_remove l a (delete k t) (cache_element_destroy size) (S n)
      else foreach_remove l a (<[k := e]> t) size n
  end.
End foreach.

Section operations.
Context {glib : GLib}.

Definition g_hash_table_foreach_remove {A} (f : A -> cache_entry -> A * cache_entry * bool) (a : A)
    (s : state) : A * nat * state :=
  match cache s with
  | None => (a, O, s)
  | Some t =>
      let '(a, t, size, n) := foreach_remove f (g_hash_table_foreach t) a t (cache_size s) O in
      (a, n, set_cache (Some t) size s)
  end.

Definition cache_cleanup (e : env) (s : state) : state :=
  let u := mk_timeout (now e) 0 false in
  let '(u, count, s) :=
    if max_timeout s <=? current_time u then g_hash_table_foreach_remove cache_check_entry u s
    else (u, O, s) in
  let u := mk_timeout (current_time u) (to_max_timeout u) true in
  let '(u, count, s) :=
    match count with
    | O => g_hash_table_foreach_remove cache_check_entry u s
    | S _ => (u, count, s)
    end in
  match count with
  | O => set_max_timeout (to_max_timeout u) s
  | S _ => set_max_timeout 0 s
  end.

Definition cache_invalidate_entry (current_time : Z) (u : unit) (e : cache_entry) :
    unit * cache_entry * bool :=
  let e := cache_enforce_validity current_time e in
  let e := if (0 <? hits e) && (bool_decide (is_Some (ipv4 e)) || bool_decide (is_Some (ipv6 e)))
           then with_want_refresh true e else e in
  let e := cache_free_ipv6 (cache_free_ipv4 e) in
  (tt, e, negb (want_refresh e)).

Definition cache_invalidate (e : env) (s : state) : state :=
  (g_hash_table_foreach_remove (cache_invalidate_entry (now e)) tt s).2.

(** ** Refreshing *)

(** A [char] is signed. *)
Definition s8 (z : Z) : Z := (z + 128) mod 256 - 128.

(** The copy of the key; the last byte of the array is not written. *)
Definition dns_name_buffer (key : list Z) : list Z :=
  let k := take (Z.to_nat NS_MAXDNAME) key in
  k ++ repeat 0 (Z.to_nat NS_MAXDNAME - length k).

Fixpoint dots (fuel : nat) (dns_name : list Z) (c : Z) : option (list Z) :=
  match fuel with
  | O => None
  | S fuel =>
      b ← rd dns_name c;
      if b =? 0 then Some dns_name
      else dots fuel (wr (Z.to_nat c) [dot] dns_name) (c + s8 b + 1)
  end.

(** A byte that is not a dot becomes one; from a dot [c] moves on by 47, at most
    22 times before it leaves the array. *)
Definition dots_fuel : nat := Z.to_nat (24 * NS_MAXDNAME).

(** The hostname of a key. *)
Definition hostname (key : list Z) : option (list Z) :=
  dns_name ← dots dots_fuel (dns_name_buffer key) 0;
  c_str_at dns_name 1.

Definition refresh_dns_entry (e : cache_entry) (name : list Z) : cache_entry * list output :=
  let age4 := bool_decide (ipv4 e = None) in
  let age6 := bool_decide (ipv6 e = None) in
  let age := if age4 || age6 then 4 else 1 in
  (with_hits (if age <? hits e then hits e - age else 0) e,
   (if age4 then [Lookup_hostname false name] else []) ++ (if age6 then [Lookup_hostname true name] else [])).

Definition cache_refresh_entry (current_time : Z) (e : cache_entry) : option (cache_entry * list output) :=
  let e := cache_enforce_validity current_time e in
  let e := if (2 <? hits e) && (bool_decide (ipv4 e = None) || bool_decide (ipv6 e = None))
           then with_want_refresh true e else e in
  if want_refresh e then
    name ← hostname (key e);
    Some (refresh_dns_entry (with_want_refresh false e) name)
  else Some (e, []).

Fixpoint refresh_all (current_time : Z) (l : list (list Z * cache_entry)) (t : table) :
    option (table * list output) :=
  match l with
  | [] => Some (t, [])
  | (k, e) :: l =>
      '(e, o) ← cache_refresh_entry current_time e;
      '(t, os) ← refresh_all current_time l (<[k := e]> t);
      Some (t, o ++ os)
  end.

Definition cache_refresh (e : env) (s : state) : option (state * list output) :=
  match cache s with
  | None => Some (s, [])
  | Some t =>
      '(t, o) ← refresh_all (now e) (g_hash_table_foreach t) t;
      Some (set_cache (Some t) (cache_size s) s, o)
  end.

(** ** Filling *)

(** The reply to an AAAA query without an address, cached as long as the
    address for A. *)
Definition negative_data (p : protocol) (msg : list Z) (type ancount : Z) (d4 : cache_data) : cache_data :=
  let data_len := Z.of_nat (length msg) + match p with UDP => DNS_HEADER_TCP_EXTRA_BYTES | TCP => 0 end in
  mk_data (inserted d4) (valid_until d4) (cache_until d4) (timeout d4) type ancount
    (match p with UDP => be_bytes16 (u16 (data_len - DNS_HEADER_TCP_EXTRA_BYTES)) | TCP => [] end ++ msg).

(** The message that is cached: length, header, question and answers. *)
Definition cached_message (hdr question response : list Z) (type class : Z) : list Z :=
  let qlen := Z.of_nat (length question) in
  let data_len := DNS_TCP_HEADER_SIZE + qlen + 1 + 2 + 2 + Z.of_nat (length response) in
  be_bytes16 (u16 (data_len - DNS_HEADER_TCP_EXTRA_BYTES)) ++ hdr ++ question ++ [0] ++
  be_bytes16 type ++ be_bytes16 class ++ response.

Definition new_data (current_time ttl : Z) (type answers : Z) (message : list Z) : cache_data :=
  let ttl := if ttl <? MIN_CACHE_TTL then MIN_CACHE_TTL else ttl in
  let cache_ttl := if MAX_CACHE_TTL <? ttl then MAX_CACHE_TTL else ttl in
  mk_data current_time (current_time + ttl) (round_down_ttl (current_time + cache_ttl) cache_ttl) ttl
    type answers message.

Definition pred_hits (h : Z) : Z := if h =? 0 then 0 else h - 1.

(** The second half of [cache_update], from [parse_response] on. *)
Definition cache_reply (e : env) (p : protocol) (mem : list Z) (msg_len : Z) (s : state) :
    option (Z * state) :=
  let offset := protocol_offset p in
  let body := drop (Z.to_nat offset) mem in
  r ← parse_response body (msg_len - offset) NS_MAXDNAME NS_MAXDNAME;
  let question := p_question r in
  let type := f_type (p_fields r) in
  let class := f_class (p_fields r) in
  let ttl := f_ttl (p_fields r) in
  negative ←
    (if (p_err r =? - ENOMSG) || (p_err r =? - ENOBUFS) then
       qtype ← reply_query_type body (msg_len - offset);
       Some (if qtype =? DNS_TYPE_AAAA then
               match entries s !! question with
               | Some x =>
                   match ipv4 x, ipv6 x with
                   | Some d4, None => Some (x, d4)
                   | _, _ => None
                   end
               | None => None
               end
             else None)
     else Some None);
  match negative with
  | Some (x, d4) =>
      if negb (alloc_ok e) then Some (- ENOMEM, s)
      else
        ancount ← rd16 body hdr_ancount;
        msg ← rd_bytes mem 0 msg_len;
        Some (0, put_entry question
                   (with_hits (pred_hits (hits x)) (with_ipv6 (Some (negative_data p msg type ancount d4)) x)) s)
  | None =>
      if (p_err r <? 0) || (ttl =? 0) then Some (0, s)
      else
        match entries s !! question with
        | None =>
            if negb (alloc_ok e) then Some (- ENOMEM, s)
            else
              hdr ← rd_bytes body 0 DNS_HEADER_SIZE;
              let d := new_data (now e) ttl type (p_answers r)
                         (cached_message hdr question (p_response r) type class) in
              let x := mk_entry question false 0 None None in
              let x := if type =? DNS_TYPE_A then with_ipv4 (Some d) x else with_ipv6 (Some d) x in
              Some (0, set_cache ((fun t => <[question := x]> t) <$> cache s) (cache_size s + 1) s)
        | Some x =>
            if (type =? DNS_TYPE_A) && bool_decide (is_Some (ipv4 x)) then Some (0, s)
            else if (type =? DNS_TYPE_AAAA) && bool_decide (is_Some (ipv6 x)) then Some (0, s)
            else if negb (alloc_ok e) then Some (- ENOMEM, s)
            else
              hdr ← rd_bytes body 0 DNS_HEADER_SIZE;
              let d := new_data (now e) ttl type (p_answers r)
                         (cached_message hdr question (p_response r) type class) in
              let x := with_hits (pred_hits (hits x)) x in
              let x := if type =? DNS_TYPE_A then with_ipv4 (Some d) x else with_ipv6 (Some d) x in
              Some (0, put_entry question x s)
        end
  end.

Definition cache_update (e : env) (p : protocol) (mem : list Z) (msg_len : Z) (s : state) :
    option (Z * state * list output) :=
  let s := if MAX_CACHE_SIZE <=? cache_size s then cache_cleanup e s else s in
  if MAX_CACHE_SIZE <=? cache_size s then Some (0, s, [])
  else
    '(s, out) ←
      (if next_refresh s <? now e then
         '(s, out) ← cache_refresh e s;
         Some (set_next_refresh (now e + 30) s, out)
       else Some (s, []));
    b ← rd mem (protocol_offset p + Z.of_nat hdr_rcode);
    if negb (b .& 0x0f =? 0) then Some (0, s, out)
    else
      let s := match cache s with None => create_cache s | Some _ => s end in
      '(err, s) ← cache_reply e p mem msg_len s;
      Some (err, s, out).

(** ** Serving *)

(** The header of a cached message is written in place; the message starts
    behind the two bytes of the length. *)
Definition patch_header (id : list Z) (answers : Z) (d : list Z) : option (list Z) :=
  b2 ← rd d (DNS_HEADER_TCP_EXTRA_BYTES + Z.of_nat hdr_flags);
  b3 ← rd d (DNS_HEADER_TCP_EXTRA_BYTES + Z.of_nat hdr_rcode);
  d ← store DNS_HEADER_TCP_EXTRA_BYTES id d;
  d ← store (DNS_HEADER_TCP_EXTRA_BYTES + Z.of_nat hdr_flags) [b2 .| 0x80; b3 .& 0xf0] d;
  d ← store (DNS_HEADER_TCP_EXTRA_BYTES + hdr_ancount) (be_bytes16 answers ++ [0; 0; 0; 0]) d;
  if answers =? 0 then store (DNS_HEADER_TCP_EXTRA_BYTES + Z.of_nat hdr_flags) [b2 .| 0x80 .| 0x04] d
  else Some d.

(** The cached message after the call and what is sent. *)
Definition send_cached_response (d : list Z) (p : protocol) (id : list Z) (answers ttl : Z) :
    option (list Z * option (list Z)) :=
  let len := Z.of_nat (length d) - match p with UDP => DNS_HEADER_TCP_EXTRA_BYTES | TCP => 0 end in
  dns_len ← (match p with UDP => Some len | TCP => rd16 d 0 end);
  if len <? DNS_HEADER_SIZE then Some (d, None)
  else
    d ← patch_header id answers d;
    d ← (if answers =? 0 then Some d
         else update_cached_ttl d DNS_HEADER_TCP_EXTRA_BYTES dns_len ttl);
    Some (d, Some (match p with UDP => drop 2 d | TCP => d end)).

(** What is used of a client's request. *)
Record request := mk_request {
  rq_protocol : protocol;
  rq_client_sk : Z;
  rq_udp_sk : Z;        (** [get_req_udp_socket], -1 when there is none *)
  rq_srcid : list Z;    (** the two bytes of the client's message *)
}.

Definition slot (type : Z) (e : cache_entry) : option cache_data :=
  if type =? DNS_TYPE_A then ipv4 e else ipv6 e.
Definition set_slot (type : Z) (d : cache_data) (e : cache_entry) : cache_entry :=
  if type =? DNS_TYPE_A then with_ipv4 (Some d) e else with_ipv6 (Some d) e.
Definition with_data (bytes : list Z) (d : cache_data) : cache_data :=
  mk_data (inserted d) (valid_until d) (cache_until d) (timeout d) (cd_type d) (cd_answers d) bytes.

Definition ns_try_resolv_from_cache (e : env) (req : request) (msg : list Z) (s : state) :
    option (Z * state * list output) :=
  '(found, s) ← cache_check (now e) msg (rq_protocol req) s;
  match found with
  | None => Some (0, s, [])
  | Some (question, type) =>
      match entries s !! question with
      | None => Some (0, s, [])
      | Some x =>
          match slot type x with
          | None => Some (0, s, [])
          | Some d =>
              let ttl_left := s32 (valid_until d - now e) in
              let x := with_hits (hits x + 1) x in
              let sk := match rq_protocol req with TCP => rq_client_sk req | UDP => rq_udp_sk req end in
              if (match rq_protocol req with UDP => rq_udp_sk req <? 0 | TCP => false end)
              then Some (- EIO, put_entry question x s, [])
              else
                '(bytes, sent) ← send_cached_response (data d) (rq_protocol req) (rq_srcid req) (cd_answers d) ttl_left;
                Some (1, put_entry question (set_slot type (with_data bytes d) x) s,
                      match sent with None => [] | Some b => [Send sk b] end)
          end
      end
  end.

(** ** Theory: tables *)

Lemma cache_element_destroy_pos n : 1 <= n -> cache_element_destroy n = n - 1.
Proof. intros Hn. unfold cache_element_destroy. by rewrite (proj2 (Z.ltb_ge _ _)) by lia. Qed.

(** What is left of every entry after a pass, and the size of the table. *)
Lemma foreach_remove_spec {A} (f : A -> cache_entry -> A * cache_entry * bool) : forall l a t size n a' t' size' n',
  NoDup l.*1 -> (forall k e, (k, e) ∈ l -> t !! k = Some e) -> size = Z.of_nat (base.size t) ->
  foreach_remove f l a t size n = (a', t', size', n') ->
  size' = Z.of_nat (base.size t') /\ (base.size t' <= base.size t)%nat /\
  (forall k e', t' !! k = Some e' ->
    t !! k = Some e' /\ k ∉ l.*1 \/ exists e a1 a2, (k, e) ∈ l /\ f a1 e = (a2, e', false)).
Proof.
  induction l as [|[k e] l IH]; intros a t size n a' t' size' n' Hnd Hin Hs E; cbn [foreach_remove] in E.
  { simplify_eq. split_and!; [done|done|]. intros k e' Hk. left. split; [done|]. apply not_elem_of_nil. }
  cbn in Hnd. apply list.NoDup_cons in Hnd as [Hk Hnd].
  pose proof (Hin k e ltac:(by left)) as Ek.
  destruct (f a e) as [[a1 e1] b] eqn:Ef. destruct b.
  - assert (Hsz : S (base.size (delete k t)) = base.size t).
    { rewrite map_size_delete_Some by done. destruct (base.size t) eqn:Ez; [|done]. exfalso. apply map_size_empty_inv in Ez. subst t. done. }
    destruct (IH a1 (delete k t) (cache_element_destroy size) (S n) a' t' size' n' Hnd) as (H1 & H2 & H3); [| |done|].
    + intros k2 e2 H2. rewrite lookup_delete_ne; [apply Hin; by right|]. intros ->. apply Hk.
      apply list_elem_of_fmap. by exists (k2, e2).
    + subst size. rewrite cache_element_destroy_pos; lia.
    + split_and!; [done|lia|]. intros k2 e2 E2. destruct (H3 k2 e2 E2) as [[E3 Hn] | (x & a2 & a3 & E3 & E4)].
      * apply lookup_delete_Some in E3 as [Hne E3]. left. split; [done|]. cbn. apply not_elem_of_cons. by split.
      * right. exists x, a2, a3. split; [by right|done].
  - assert (Hsz : base.size (<[k:=e1]> t) = base.size t) by (rewrite map_size_insert_Some; [done|by rewrite Ek]).
    destruct (IH a1 (<[k:=e1]> t) size n a' t' size' n' Hnd) as (H1 & H2 & H3); [| |done|].
    + intros k2 e2 H2. rewrite lookup_insert_ne; [apply Hin; by right|]. intros ->. apply Hk.
      apply list_elem_of_fmap. by exists (k2, e2).
    + lia.
    + split_and!; [done|lia|]. intros k2 e2 E2. destruct (H3 k2 e2 E2) as [[E3 Hn] | (x & a2 & a3 & E3 & E4)].
      * apply lookup_insert_Some in E3 as [[<- <-] | [Hne E3]].
        -- right. exists e, a, a1. split; [by left|done].
        -- left. split; [done|]. cbn. apply not_elem_of_cons. by split.
      * right. exists x, a2, a3. split; [by right|done].
Qed.

(** ** Theory: the invariant *)

Record data_ok (d : cache_data) : Prop := {
  dok_valid : valid_until d = inserted d + timeout d;
  dok_timeout : MIN_CACHE_TTL <= timeout d < 2 ^ 31;
  dok_until : cache_until d <= valid_until d;
  dok_limit : cache_until d <= inserted d + MAX_CACHE_TTL;
  dok_len : DNS_TCP_HEADER_SIZE <= Z.of_nat (length (data d));
}.

Definition opt_ok (d : option cache_data) : Prop := forall x, d = Some x -> data_ok x.

Record entry_ok (k : list Z) (e : cache_entry) : Prop := {
  eok_key : key e = k;
  eok_hits : 0 <= hits e;
  eok_ipv4 : opt_ok (ipv4 e);
  eok_ipv6 : opt_ok (ipv6 e);
}.

Record inv (s : state) : Prop := {
  inv_users : 0 <= cache_refcount s /\ (cache_timer s = true -> 0 < cache_refcount s);
  inv_exists : is_Some (cache s) <-> 0 < cache_refcount s;
  inv_size : cache_size s = Z.of_nat (size (entries s));
  inv_limit : cache_size s <= MAX_CACHE_SIZE;
  inv_entries : map_Forall entry_ok (entries s);
}.

Lemma opt_ok_None : opt_ok None.
Proof. done. Qed.

Lemma opt_ok_Some d : data_ok d -> opt_ok (Some d).
Proof. by intros Hd x [= <-]. Qed.

(** The changes of an entry that keep it well formed. *)
Lemma entry_ok_want k w e : entry_ok k e -> entry_ok k (with_want_refresh w e).
Proof. by intros []. Qed.

Lemma entry_ok_with_hits k h e : 0 <= h -> entry_ok k e -> entry_ok k (with_hits h e).
Proof. by intros ? []. Qed.

Lemma entry_ok_with_ipv4 k d e : opt_ok d -> entry_ok k e -> entry_ok k (with_ipv4 d e).
Proof. by intros ? []. Qed.

Lemma entry_ok_with_ipv6 k d e : opt_ok d -> entry_ok k e -> entry_ok k (with_ipv6 d e).
Proof. by intros ? []. Qed.

Hint Resolve opt_ok_None opt_ok_Some entry_ok_want entry_ok_with_hits entry_ok_with_ipv4 entry_ok_with_ipv6 : connman.

Lemma enforce_ok k t e : entry_ok k e -> entry_ok k (cache_enforce_validity t e).
Proof.
  intros He. unfold cache_enforce_validity, cache_free_ipv4, cache_free_ipv6.
  repeat break_match; auto with connman.
Qed.

Lemma enforce_hits t e : hits (cache_enforce_validity t e) = hits e.
Proof. unfold cache_enforce_validity. by repeat break_match. Qed.

(** Nothing that has expired is left. *)
Lemma enforce_valid t e d :
  (ipv4 (cache_enforce_validity t e) = Some d \/ ipv6 (cache_enforce_validity t e) = Some d) -> t <= cache_until d.
Proof.
  unfold cache_enforce_validity, cache_check_is_valid.
  destruct e as [ky w h [d4|] [d6|]]; cbn; repeat (break_match; cbn); bool_to_prop; intros [?|?]; simplify_eq/=; lia.
Qed.

Lemma foreach_perm_ok (t : table) :
  NoDup (g_hash_table_foreach t).*1 /\ (forall k e, (k, e) ∈ g_hash_table_foreach t -> t !! k = Some e) /\
  (forall k e, t !! k = Some e -> k ∈ (g_hash_table_foreach t).*1).
Proof.
  split_and!.
  - rewrite g_hash_table_foreach_perm. apply NoDup_fst_map_to_list.
  - intros k e. rewrite g_hash_table_foreach_perm. by rewrite elem_of_map_to_list.
  - intros k e Hk. rewrite g_hash_table_foreach_perm. apply list_elem_of_fmap. exists (k, e).
    by rewrite elem_of_map_to_list.
Qed.

Lemma foreach_remove_entries {A} (f : A -> cache_entry -> A * cache_entry * bool) a s a' n s' :
  inv s -> g_hash_table_foreach_remove f a s = (a', n, s') ->
  s' = set_cache (cache s') (cache_size s') s /\ (is_Some (cache s') <-> is_Some (cache s)) /\
  cache_size s' = Z.of_nat (size (entries s')) /\ cache_size s' <= cache_size s /\
  (forall k e', entries s' !! k = Some e' -> exists e a1 a2, entries s !! k = Some e /\ f a1 e = (a2, e', false)).
Proof.
  intros I. unfold g_hash_table_foreach_remove. pose proof (inv_size _ I) as Hsz. unfold entries in *.
  destruct (cache s) as [t|] eqn:Ec.
  - destruct (foreach_remove f (g_hash_table_foreach t) a t (cache_size s) 0) as [[[a1 t1] z1] n1] eqn:E.
    intros [= <- <- <-]. cbn in *. destruct (foreach_perm_ok t) as (Hnd & Hin & Hall).
    destruct (foreach_remove_spec f _ _ _ _ _ _ _ _ _ Hnd Hin Hsz E) as (H1 & H2 & H3).
    split_and!; [done|done|done|lia|]. intros k e' Hk. destruct (H3 k e' Hk) as [[H4 H5]|(e & a2 & a3 & H4 & H5)].
    + by apply Hall in H4.
    + exists e, a2, a3. split; [|done]. by apply Hin.
  - intros [= <- <- <-]. rewrite Ec. split_and!; [by destruct s; cbn in *; subst|done|done|lia|]. done.
Qed.

Lemma foreach_remove_inv {A} (f : A -> cache_entry -> A * cache_entry * bool) a s a' n s' :
  (forall k a1 e a2 e', entry_ok k e -> f a1 e = (a2, e', false) -> entry_ok k e') ->
  inv s -> g_hash_table_foreach_remove f a s = (a', n, s') -> inv s'.
Proof.
  intros Hf I E. destruct (foreach_remove_entries f a s a' n s' I E) as (Es & Hc & H1 & H2 & H3).
  destruct I as [I1 I2 I3 I4 I5]. rewrite Es in *. split; cbn in *; [done|by rewrite Hc|done|lia|].
  intros k e' Hk. destruct (H3 k e' Hk) as (e & a1 & a2 & E1 & E2). eapply Hf; [|done]. by apply I5.
Qed.

Lemma check_entry_ok k u e u' e' b : entry_ok k e -> cache_check_entry u e = (u', e', b) -> entry_ok k e'.
Proof.
  intros He E. assert (Eq : e' = with_hits (hits e / 2) e).
  { unfold cache_check_entry in E. repeat break_match_hyp E; by simplify_eq. }
  subst e'. apply entry_ok_with_hits; [|done]. apply Z.div_pos; [apply (eok_hits _ _ He)|lia].
Qed.

Lemma cache_cleanup_inv e s : inv s -> inv (cache_cleanup e s).
Proof.
  intros I. unfold cache_cleanup. cbn [current_time].
  destruct (if max_timeout s <=? now e then _ else _) as [[u1 n1] s1] eqn:E1.
  assert (I1 : inv s1).
  { destruct (max_timeout s <=? now e); [|by simplify_eq].
    eapply foreach_remove_inv; [|exact I|exact E1]. intros. by eapply check_entry_ok. }
  destruct (match n1 with O => _ | S _ => _ end) as [[u2 n2] s2] eqn:E2.
  assert (I2 : inv s2).
  { destruct n1; [|by simplify_eq]. eapply foreach_remove_inv; [|exact I1|exact E2]. intros. by eapply check_entry_ok. }
  by destruct n2; destruct I2.
Qed.

Lemma cache_invalidate_inv e s : inv s -> inv (cache_invalidate e s).
Proof.
  intros I. unfold cache_invalidate.
  destruct (g_hash_table_foreach_remove _ _ _) as [[u n] s'] eqn:E. eapply foreach_remove_inv; [|exact I|exact E].
  intros k a1 x a2 x' Hx Ef. unfold cache_invalidate_entry in Ef. simplify_eq.
  unfold cache_free_ipv4, cache_free_ipv6. break_match; auto using enforce_ok with connman.
Qed.

Lemma put_entry_inv k e s : is_Some (entries s !! k) -> entry_ok k e -> inv s -> inv (put_entry k e s).
Proof.
  intros [x Hk] He [I1 I2 I3 I4 I5]. unfold entries in *. split; cbn; unfold entries; cbn; [done|by rewrite fmap_is_Some|..].
  all: destruct (cache s) as [t|]; cbn in *; [|done].
  - rewrite map_size_insert_Some; [done|by rewrite Hk].
  - done.
  - by apply map_Forall_insert_2.
Qed.

Lemma remove_inv k s : inv s -> inv (g_hash_table_remove k s).
Proof.
  intros I. unfold g_hash_table_remove. destruct (cache s) as [t|] eqn:Ec; [|done].
  destruct (t !! k) as [x|] eqn:Ek; [|done]. destruct I as [I1 I2 I3 I4 I5]. unfold entries in *. rewrite Ec in *. cbn in *.
  assert (Hsz : S (size (delete k t)) = size t).
  { rewrite map_size_delete_Some by done. destruct (size t) eqn:Ez; [|done].
    exfalso. apply map_size_empty_inv in Ez. subst t. done. }
  split; cbn; unfold entries; cbn; [done|by rewrite <- I2|..].
  - rewrite cache_element_destroy_pos; lia.
  - rewrite cache_element_destroy_pos; lia.
  - by apply map_Forall_delete.
Qed.

Lemma refresh_entry_ok k t e e' o : entry_ok k e -> cache_refresh_entry t e = Some (e', o) -> entry_ok k e'.
Proof.
  intros He. apply (enforce_ok k t) in He. unfold cache_refresh_entry. set (e1 := if (2 <? _) && _ then _ else _).
  assert (He1 : entry_ok k e1) by (subst e1; break_match; auto with connman).
  destruct (want_refresh e1); [|by intros [= <- _]].
  destruct (hostname (key e1)) as [name|]; [|done]. cbn [mbind option_bind].
  clearbody e1. unfold refresh_dns_entry. intros [= <- _].
  apply entry_ok_with_hits; [|by apply entry_ok_want].
  match goal with |- context [if ?a <? ?h then _ else _] => destruct (Z.ltb_spec a h); [|done] end.
  lia.
Qed.

Lemma refresh_all_ok c : forall l t t' o,
  (forall k e, (k, e) ∈ l -> entry_ok k e /\ is_Some (t !! k)) -> map_Forall entry_ok t ->
  refresh_all c l t = Some (t', o) ->
  map_Forall entry_ok t' /\ size t' = size t.
Proof.
  induction l as [|[k e] l IH]; intros t t' o Hl Ht E; cbn [refresh_all] in E; [by simplify_eq|].
  destruct (Hl k e ltac:(by left)) as [Hk Hs].
  destruct (cache_refresh_entry c e) as [[e1 o1]|] eqn:E1; [|done]. cbn in E.
  destruct (refresh_all c l (<[k:=e1]> t)) as [[t1 o2]|] eqn:E2; [|done]. cbn in E. simplify_eq.
  assert (He1 : entry_ok k e1) by by eapply refresh_entry_ok.
  destruct (IH (<[k:=e1]> t) t' o2) as [H1 H2]; [|by apply map_Forall_insert_2|done|].
  - intros k2 e2 H. split; [apply Hl; by right|]. destruct (decide (k = k2)) as [->|Hne].
    + by rewrite lookup_insert_eq.
    + rewrite lookup_insert_ne by done. apply (Hl k2 e2). by right.
  - split; [done|]. rewrite H2. by apply map_size_insert_Some.
Qed.

Lemma cache_refresh_inv e s s' o : inv s -> cache_refresh e s = Some (s', o) -> inv s' /\ cache_size s' = cache_size s.
Proof.
  intros I. unfold cache_refresh. destruct (cache s) as [t|] eqn:Ec; [|by intros [= <- _]].
  destruct (refresh_all (now e) (g_hash_table_foreach t) t) as [[t' o']|] eqn:E; [|done]. cbn. intros [= <- _].
  destruct I as [I1 I2 I3 I4 I5]. unfold entries in *. rewrite Ec in *. cbn in *.
  destruct (foreach_perm_ok t) as (_ & Hin & _).
  destruct (refresh_all_ok _ _ _ _ _ ltac:(intros k x Hx; apply Hin in Hx; split; [by apply I5|by exists x]) I5 E) as [H1 H2].
  split; [|done]. split; cbn; unfold entries; cbn; [done|by rewrite <- I2|lia|done|done].
Qed.

Lemma create_cache_inv s : inv s -> inv (create_cache s).
Proof.
  intros [I1 I2 I3 I4 I5]. unfold create_cache. cbn. destruct (Z.eqb_spec (cache_refcount s) 0) as [E|E].
  - split; cbn; unfold entries; cbn; [lia|split; [lia|by eexists]|by rewrite map_size_empty|done|apply map_Forall_empty].
  - split; cbn; [lia|rewrite I2; lia|done|done|done].
Qed.

Lemma create_cache_Some s : inv s -> is_Some (cache (create_cache s)).
Proof.
  intros [I1 I2 I3 I4 I5]. unfold create_cache. cbn. destruct (Z.eqb_spec (cache_refcount s) 0) as [E|E]; cbn; [by eexists|].
  apply I2. lia.
Qed.

Lemma create_cache_size s : cache_size (create_cache s) = 0 \/ cache_size (create_cache s) = cache_size s.
Proof. unfold create_cache. case_match; auto. Qed.

Lemma try_remove_cache_inv s : 0 < cache_refcount s -> inv s -> inv (try_remove_cache s).
Proof.
  intros Hr [I1 I2 I3 I4 I5]. unfold try_remove_cache. cbn. destruct (Z.eqb_spec (cache_refcount s) 1) as [E|E].
  - split; cbn; unfold entries; cbn; [lia| |by rewrite map_size_empty|done|apply map_Forall_empty].
    split; [by intros []|lia].
  - split; cbn; [lia|rewrite I2; lia|done|done|done].
Qed.

Lemma check_validity_inv t k type e s b s' :
  inv s -> entries s !! k = Some e -> cache_check_validity t k type e s = (b, s') -> inv s'.
Proof.
  intros I Ek. unfold cache_check_validity.
  assert (He : entry_ok k e) by by apply (inv_entries _ I).
  set (e1 := cache_enforce_validity t e). assert (He1 : entry_ok k e1) by by apply enforce_ok.
  assert (I1 : inv (put_entry k e1 s)) by (apply put_entry_inv; [by eexists|done|done]).
  assert (Hk1 : is_Some (entries (put_entry k e1 s) !! k)).
  { unfold entries in *. cbn. destruct (cache s); cbn in *; [|done]. by rewrite lookup_insert_eq. }
  repeat break_match; intros [= <- <-]; auto using remove_inv, put_entry_inv with connman.
Qed.

(** The time to live [parse_response] reports is an [int]. *)
Definition int_ttl (f : rr_fields) : Prop := - 2 ^ 31 <= f_ttl f < 2 ^ 31.

Lemma s32_range z : - 2 ^ 31 <= s32 z < 2 ^ 31.
Proof. unfold s32. pose proof (Z.mod_pos_bound (z + 2 ^ 31) (2 ^ 32) ltac:(lia)). lia. Qed.

Lemma parse_rr_ttl mem start max rsize mname f f' r :
  parse_rr mem start max rsize mname f = Some (f', r) -> int_ttl f -> int_ttl f'.
Proof.
  intros E Hf. unfold parse_rr in E. apply bind_Some in E as ([g q] & _ & E). apply bind_Some in E as (err & _ & E).
  destruct (err <? 0); [by simplify_eq|]. destruct (rsize <? _); [by simplify_eq|].
  destruct (gn_end g) as [x|]; [|by simplify_eq].
  repeat (apply bind_Some in E as (? & _ & E)).
  repeat (case_match; simplify_eq; try apply s32_range).
  apply bind_Some in E as (? & _ & E). simplify_eq. apply s32_range.
Qed.

Lemma parse_answer_ttl mem max maxlen q ty cl a r :
  parse_answer mem max maxlen q ty cl a = Some r -> int_ttl (a_fields a) ->
  match r with inl a' => int_ttl (a_fields a') | inr a' => int_ttl (a_fields a') end.
Proof.
  intros E Ha. unfold parse_answer in E. apply bind_Some in E as ([f x] & Ex & E).
  pose proof (parse_rr_ttl _ _ _ _ _ _ _ _ Ex Ha) as Hf.
  destruct x as [err|x]; [by simplify_eq|].
  repeat (case_match; simplify_eq; try done).
  all: apply bind_Some in E as ([g w] & _ & E); apply bind_Some in E as (ret & _ & E); case_match; by simplify_eq.
Qed.

Lemma parse_answers_ttl mem max maxlen q ty cl : forall n a a',
  parse_answers n mem max maxlen q ty cl a = Some a' -> int_ttl (a_fields a) -> int_ttl (a_fields a').
Proof.
  induction n as [|n IH]; intros a a' E Ha; cbn [parse_answers] in E; [by simplify_eq|].
  apply bind_Some in E as (r & Er & E). pose proof (parse_answer_ttl _ _ _ _ _ _ _ _ Er Ha) as H.
  destruct r as [b|b]; [by eapply IH|by simplify_eq].
Qed.

Lemma parse_response_ttl mem buflen qlen maxlen r :
  parse_response mem buflen qlen maxlen = Some r -> int_ttl (p_fields r).
Proof.
  intros E. assert (H0 : int_ttl (mk_fields 0 0 0)) by (unfold int_ttl; cbn; lia). unfold parse_response in E.
  destruct (buflen <? _); [by simplify_eq|].
  apply bind_Some in E as (? & _ & E). apply bind_Some in E as (? & _ & E). case_match; [by simplify_eq|].
  apply bind_Some in E as (q & _ & E). destruct q as [q|]; [|by simplify_eq].
  case_match; [by simplify_eq|]. apply bind_Some in E as (? & _ & E). case_match; [by simplify_eq|].
  apply bind_Some in E as (? & _ & E). apply bind_Some in E as (? & _ & E). apply bind_Some in E as (a & Ea & E).
  simplify_eq. cbn. by eapply parse_answers_ttl.
Qed.

Lemma round_down_ttl_le t ttl : 0 <= t -> round_down_ttl t ttl <= t.
Proof.
  intros Ht. unfold round_down_ttl. repeat case_match; [lia|..].
  - pose proof (Z.quot_rem' t 10). pose proof (Z.rem_nonneg t 10 ltac:(lia) Ht). lia.
  - pose proof (Z.quot_rem' t 30). pose proof (Z.rem_nonneg t 30 ltac:(lia) Ht). lia.
Qed.

Lemma rd_bytes_length mem p n l : rd_bytes mem p n = Some l -> Z.of_nat (length l) = n.
Proof.
  unfold rd_bytes. case_match eqn:Hc; [done|]. intros [= <-]. bool_to_prop. rewrite length_slice; lia.
Qed.

Lemma length_cached_message hdr q rsp ty cl :
  length (cached_message hdr q rsp ty cl) = (length hdr + length q + length rsp + 7)%nat.
Proof.
  unfold cached_message. rewrite !length_app. repeat change (length (be_bytes16 _)) with 2%nat. cbn [length].
  change (length (be_bytes16 _)) with 2%nat. change (length (be_bytes16 _)) with 2%nat. lia.
Qed.

Lemma new_data_ok t ttl ty an msg :
  0 <= t -> 0 < ttl < 2 ^ 31 -> DNS_TCP_HEADER_SIZE <= Z.of_nat (length msg) -> data_ok (new_data t ttl ty an msg).
Proof.
  intros Ht Httl Hm. unfold new_data, MIN_CACHE_TTL, MAX_CACHE_TTL.
  set (ttl1 := if ttl <? 30 then 30 else ttl). assert (H1 : 30 <= ttl1 < 2 ^ 31) by (subst ttl1; case_match; bool_to_prop; lia).
  clearbody ttl1. set (c := if 60 * 30 <? ttl1 then 60 * 30 else ttl1).
  assert (Hc : 0 <= c <= ttl1 /\ c <= 60 * 30) by (subst c; case_match; bool_to_prop; lia).
  pose proof (round_down_ttl_le (t + c) c ltac:(lia)). split; cbn [valid_until inserted timeout cache_until data]; unfold MIN_CACHE_TTL, MAX_CACHE_TTL; lia.
Qed.

Lemma negative_data_ok p msg ty an d4 :
  data_ok d4 -> DNS_HEADER_SIZE + protocol_offset p <= Z.of_nat (length msg) -> data_ok (negative_data p msg ty an d4).
Proof.
  intros [H1 H2 H3 H4 H5] Hm. split; cbn [negative_data valid_until inserted timeout cache_until data]; try done.
  rewrite length_app. destruct p; cbn in *; [change (length (be_bytes16 _)) with 2%nat|]; unfold DNS_TCP_HEADER_SIZE, DNS_HEADER_SIZE, DNS_HEADER_TCP_EXTRA_BYTES in *; lia.
Qed.

Lemma entries_ok k e s : inv s -> entries s !! k = Some e -> entry_ok k e.
Proof. intros I. apply (inv_entries _ I). Qed.

Lemma pred_hits_nonneg h : 0 <= h -> 0 <= pred_hits h.
Proof. intros H. unfold pred_hits. case_match; bool_to_prop; lia. Qed.

Hint Resolve entries_ok pred_hits_nonneg eok_hits : connman.

Lemma insert_new_inv k e s :
  is_Some (cache s) -> entries s !! k = None -> cache_size s < MAX_CACHE_SIZE -> entry_ok k e -> inv s ->
  inv (set_cache ((fun t => <[k := e]> t) <$> cache s) (cache_size s + 1) s).
Proof.
  intros [t Ec] Hk Hsz He [I1 I2 I3 I4 I5]. unfold entries in *. rewrite Ec in *. cbn in *.
  split; cbn; unfold entries; cbn; [done|by rewrite <- I2|..].
  - rewrite map_size_insert_None by done. lia.
  - lia.
  - by apply map_Forall_insert_2.
Qed.

(** The data for a reply without errors. *)
Lemma reply_data_ok e body hdr r ttl ty cl :
  0 <= now e -> int_ttl (p_fields r) -> ttl = f_ttl (p_fields r) -> 0 < ttl ->
  rd_bytes body 0 DNS_HEADER_SIZE = Some hdr ->
  data_ok (new_data (now e) ttl ty (p_answers r) (cached_message hdr (p_question r) (p_response r) ty cl)).
Proof.
  intros Hn Hi -> Ht Hh%rd_bytes_length. unfold int_ttl in Hi. apply new_data_ok; [done|lia|].
  rewrite length_cached_message. unfold DNS_TCP_HEADER_SIZE, DNS_HEADER_SIZE, DNS_HEADER_TCP_EXTRA_BYTES in *. lia.
Qed.

Lemma set_slot_ok k (b : bool) d e :
  data_ok d -> entry_ok k e -> entry_ok k (if b then with_ipv4 (Some d) e else with_ipv6 (Some d) e).
Proof. intros Hd He. destruct b; auto with connman. Qed.

(** What the parser accepts has a time to live that is not negative. *)
Lemma parse_rr_nonneg mem start max rsize mname f f' r :
  parse_rr mem start max rsize mname f = Some (f', r) ->
  match r with inl err => err < 0 | inr _ => 0 <= f_ttl f' end.
Proof.
  intros E. unfold parse_rr in E. apply bind_Some in E as ([g q] & _ & E). apply bind_Some in E as (err & _ & E).
  destruct (Z.ltb_spec err 0); [by simplify_eq|]. destruct (rsize <? _); [by simplify_eq|].
  destruct (gn_end g) as [z|]; [|by simplify_eq].
  apply bind_Some in E as (fixed & _ & E). apply bind_Some in E as (ty & _ & E). apply bind_Some in E as (cl & _ & E).
  apply bind_Some in E as (ttl & _ & E). apply bind_Some in E as (rdlen & _ & E). cbn [f_ttl] in E.
  destruct (Z.ltb_spec (s32 ttl) 0) as [|Hge]; [by simplify_eq|].
  destruct (rsize <? _ + rdlen); [by simplify_eq|]. destruct (max <? _); [by simplify_eq|].
  apply bind_Some in E as (? & _ & E). by simplify_eq.
Qed.

Lemma parse_answers_nonneg mem max maxlen q ty cl : forall n a a',
  parse_answers n mem max maxlen q ty cl a = Some a' -> 0 <= f_ttl (a_fields a) ->
  a_err a' < 0 \/ 0 <= f_ttl (a_fields a').
Proof.
  induction n as [|n IH]; intros a a' E Ha; cbn [parse_answers] in E; [simplify_eq; by right|].
  apply bind_Some in E as (r & Er & E). unfold parse_answer in Er. apply bind_Some in Er as ([f x] & Ex & Er).
  apply parse_rr_nonneg in Ex. destruct x as [err|x]; [simplify_eq; by left|].
  repeat (case_match; simplify_eq; try (by eapply IH); try by left).
  all: apply bind_Some in Er as ([g w] & _ & Er); apply bind_Some in Er as (ret & _ & Er);
    case_match; simplify_eq; by eapply IH.
Qed.

Lemma parse_response_nonneg mem buflen qlen maxlen r :
  parse_response mem buflen qlen maxlen = Some r -> 0 <= p_err r -> 0 <= f_ttl (p_fields r).
Proof.
  intros E Hr. unfold parse_response in E. destruct (buflen <? _); [by simplify_eq|].
  apply bind_Some in E as (? & _ & E). apply bind_Some in E as (? & _ & E). case_match; [by simplify_eq|].
  apply bind_Some in E as (q & _ & E). destruct q as [q|]; [|by simplify_eq].
  case_match; [by simplify_eq|]. apply bind_Some in E as (? & _ & E). case_match; [by simplify_eq|].
  apply bind_Some in E as (? & _ & E). apply bind_Some in E as (? & _ & E). apply bind_Some in E as (a & Ea & E).
  simplify_eq. cbn in *. apply parse_answers_nonneg in Ea; [|done]. destruct Ea; lia.
Qed.

Lemma cache_reply_inv e p mem msg_len s err s' :
  inv s -> is_Some (cache s) -> cache_size s < MAX_CACHE_SIZE -> 0 <= now e ->
  DNS_HEADER_SIZE + protocol_offset p <= msg_len ->
  cache_reply e p mem msg_len s = Some (err, s') -> inv s'.
Proof.
  intros I Hc Hsz Hn Hlen E. unfold cache_reply in E. apply bind_Some in E as (r & Er & E).
  pose proof (parse_response_ttl _ _ _ _ _ Er) as Hi. pose proof (parse_response_nonneg _ _ _ _ _ Er) as Hnn.
  apply bind_Some in E as (neg & Eneg & E). destruct neg as [[x d4]|].
  - assert (Hx : entries s !! p_question r = Some x /\ ipv4 x = Some d4).
    { clear E. case_match; [|done]. apply bind_Some in Eneg as (qt & _ & Eneg). by repeat case_match; simplify_eq. }
    destruct Hx as [Hx H4]. destruct (negb (alloc_ok e)); [by simplify_eq|].
    apply bind_Some in E as (an & _ & E). apply bind_Some in E as (msg & Em%rd_bytes_length & E). simplify_eq.
    assert (Hxo : entry_ok (p_question r) x) by by eapply entries_ok.
    apply put_entry_inv; [by eexists| |done]. apply entry_ok_with_hits; [eauto with connman|].
    apply entry_ok_with_ipv6; [|done]. apply opt_ok_Some, negative_data_ok; [by apply (eok_ipv4 _ _ Hxo)|lia].
  - clear Eneg. destruct (_ || _) eqn:Eerr; [by simplify_eq|]. bool_to_prop.
    assert (Ht : 0 < f_ttl (p_fields r)) by lia.
    destruct (entries s !! p_question r) as [x|] eqn:Hx.
    + assert (Hxo : entry_ok (p_question r) x) by by eapply entries_ok.
      case_match; [by simplify_eq|]. case_match; [by simplify_eq|]. destruct (negb (alloc_ok e)); [by simplify_eq|].
      apply bind_Some in E as (hdr & Eh & E). simplify_eq. apply put_entry_inv; [by eexists| |done].
      apply set_slot_ok; [by eapply reply_data_ok|]. apply entry_ok_with_hits; [eauto with connman|done].
    + destruct (negb (alloc_ok e)); [by simplify_eq|].
      apply bind_Some in E as (hdr & Eh & E). simplify_eq. apply insert_new_inv; try done.
      apply set_slot_ok; [by eapply reply_data_ok|]. split; cbn; auto using opt_ok_None. lia.
Qed.

Lemma cache_update_inv e p mem msg_len s err s' o :
  inv s -> 0 <= now e -> DNS_HEADER_SIZE + protocol_offset p <= msg_len ->
  cache_update e p mem msg_len s = Some (err, s', o) -> inv s'.
Proof.
  intros I Hn Hlen. unfold cache_update. set (s1 := if MAX_CACHE_SIZE <=? cache_size s then _ else s).
  assert (I1 : inv s1) by (subst s1; case_match; auto using cache_cleanup_inv). clearbody s1.
  destruct (Z.leb_spec MAX_CACHE_SIZE (cache_size s1)); [by intros [= <- <- <-]|].
  intros E. apply bind_Some in E as ([s2 o2] & E2 & E).
  assert (I2 : inv s2 /\ cache_size s2 = cache_size s1).
  { clear E. case_match; [|by simplify_eq]. apply bind_Some in E2 as ([s3 o3] & E3 & E2). simplify_eq.
    destruct (cache_refresh_inv _ _ _ _ I1 E3) as [I3 H3]. split; [by destruct I3|done]. }
  destruct I2 as [I2 Hs2]. apply bind_Some in E as (b & _ & E). case_match; [by simplify_eq|].
  set (s3 := match cache s2 with None => _ | Some _ => _ end) in E.
  assert (H3 : inv s3 /\ is_Some (cache s3) /\ cache_size s3 < MAX_CACHE_SIZE).
  { clear E. subst s3. destruct (cache s2) eqn:Ec; [split_and!; [done|by rewrite Ec|lia]|].
    split_and!; [by apply create_cache_inv|by apply create_cache_Some|].
    destruct (create_cache_size s2) as [-> | ->]; [done|lia]. }
  destruct H3 as (I3 & Hc & Hs3). clearbody s3. apply bind_Some in E as ([err' s4] & E4 & E). simplify_eq.
  by eapply cache_reply_inv.
Qed.

Lemma update_ttl_loop_length : forall fuel mem ptr len raw mem',
  update_ttl_loop fuel mem ptr len raw = Some mem' -> length mem' = length mem.
Proof.
  induction fuel as [|fuel IH]; intros mem ptr len raw mem' E; cbn [update_ttl_loop] in E; [done|].
  case_match; [by simplify_eq|]. apply bind_Some in E as (n & _ & E). case_match; [by simplify_eq|].
  case_match; [by simplify_eq|]. apply bind_Some in E as (m1 & Es%store_length & E).
  apply bind_Some in E as (r & _ & E). case_match; [by simplify_eq|]. rewrite <- Es. by eapply IH.
Qed.

Lemma update_cached_ttl_length mem ptr len ttl mem' :
  update_cached_ttl mem ptr len ttl = Some mem' -> length mem' = length mem.
Proof.
  unfold update_cached_ttl. case_match; [by intros [= <-]|]. intros E. apply bind_Some in E as (n & _ & E).
  case_match; [by simplify_eq|]. by eapply update_ttl_loop_length.
Qed.

Lemma patch_header_length id an d d' : patch_header id an d = Some d' -> length d' = length d.
Proof.
  intros E. unfold patch_header in E. apply bind_Some in E as (b2 & _ & E). apply bind_Some in E as (b3 & _ & E).
  apply bind_Some in E as (d1 & E1%store_length & E). apply bind_Some in E as (d2 & E2%store_length & E).
  apply bind_Some in E as (d3 & E3%store_length & E). case_match; [apply store_length in E|simplify_eq]; congruence.
Qed.

Lemma send_cached_length d p id an ttl d' o :
  send_cached_response d p id an ttl = Some (d', o) -> length d' = length d.
Proof.
  intros E. unfold send_cached_response in E. apply bind_Some in E as (n & _ & E). case_match; [by simplify_eq|].
  apply bind_Some in E as (d1 & E1%patch_header_length & E). apply bind_Some in E as (d2 & E2 & E). simplify_eq.
  case_match; [by simplify_eq|]. apply update_cached_ttl_length in E2. congruence.
Qed.

Lemma with_data_ok b d : length b = length (data d) -> data_ok d -> data_ok (with_data b d).
Proof. intros Hl [H1 H2 H3 H4 H5]. split; cbn; try done. by rewrite Hl. Qed.

Lemma cache_check_inv t msg p s r s' : inv s -> cache_check t msg p s = Some (r, s') -> inv s'.
Proof.
  intros I E. unfold cache_check in E. apply bind_Some in E as (q & _ & E). apply bind_Some in E as (ty & _ & E).
  case_match; [by simplify_eq|]. destruct (cache s) as [tb|] eqn:Ec; [|simplify_eq; by apply create_cache_inv].
  destruct (tb !! q) as [x|] eqn:Ex; [|by simplify_eq].
  destruct (cache_check_validity t q ty x s) as [b s1] eqn:Ev. simplify_eq.
  eapply check_validity_inv; [exact I| |exact Ev]. unfold entries. by rewrite Ec.
Qed.

Lemma resolv_inv e req msg s err s' o :
  inv s -> ns_try_resolv_from_cache e req msg s = Some (err, s', o) -> inv s'.
Proof.
  intros I E. unfold ns_try_resolv_from_cache in E. apply bind_Some in E as ([f s1] & E1 & E).
  pose proof (cache_check_inv _ _ _ _ _ _ I E1) as I1. destruct f as [[q ty]|]; [|by simplify_eq].
  destruct (entries s1 !! q) as [x|] eqn:Ex; [|by simplify_eq]. destruct (slot ty x) as [d|] eqn:Ed; [|by simplify_eq].
  assert (Hx : entry_ok q x) by by eapply entries_ok.
  assert (Hh : entry_ok q (with_hits (hits x + 1) x)).
  { apply entry_ok_with_hits; [|done]. pose proof (eok_hits _ _ Hx). lia. }
  case_match; [simplify_eq; apply put_entry_inv; [by eexists|done|done]|].
  apply bind_Some in E as ([b snt] & Eb%send_cached_length & E). simplify_eq.
  apply put_entry_inv; [by eexists| |done]. unfold set_slot. apply set_slot_ok; [|done].
  apply with_data_ok; [done|]. unfold slot in Ed. destruct (ty =? DNS_TYPE_A); [by apply (eok_ipv4 _ _ Hx)|by apply (eok_ipv6 _ _ Hx)].
Qed.

(** ** The cache over time *)

Definition initial : state := mk_state None 0 0 0 0 false.

(** What happens to the cache: replies and queries arrive, the network
    changes, servers come and go, and the timer of a removal fires. *)
Inductive step : state -> state -> Prop :=
| step_update s e p mem msg_len err s' o :
    0 <= now e -> DNS_HEADER_SIZE + protocol_offset p <= msg_len ->
    cache_update e p mem msg_len s = Some (err, s', o) -> step s s'
| step_resolv s e req msg err s' o :
    ns_try_resolv_from_cache e req msg s = Some (err, s', o) -> step s s'
| step_invalidate s e : step s (cache_invalidate e s)
| step_refresh s e s' o : cache_refresh e s = Some (s', o) -> step s s'
| step_server_created s : step s (create_cache s)
| step_server_destroyed s : step s (destroy_server_cache s)
| step_timer s : cache_timer s = true -> step s (try_remove_cache s).

Lemma initial_inv : inv initial.
Proof. by split; cbn; unfold entries; cbn; [|split; [by intros []|]| | |apply map_Forall_empty]. Qed.

Lemma step_inv s s' : step s s' -> inv s -> inv s'.
Proof.
  intros [s0 e p mem msg_len err s1 o Hn Hl E|s0 e req msg err s1 o E|s0 e|s0 e s1 o E|s0|s0|s0 Ht] I.
  - by eapply cache_update_inv.
  - by eapply resolv_inv.
  - by apply cache_invalidate_inv.
  - by eapply cache_refresh_inv.
  - by apply create_cache_inv.
  - unfold destroy_server_cache. destruct (cache s0) as [t|] eqn:Ec; [|done]. case_match; [|done].
    destruct I as [[I1 It] I2 I3 I4 I5]. split; cbn; try done. split; [done|]. intros _. apply I2. by rewrite Ec.
  - apply try_remove_cache_inv; [|done]. by apply (inv_users _ I).
Qed.

Lemma cache_reachable_inv s : rtc step initial s -> inv s.
Proof.
  intros H. pose proof initial_inv as I. induction H as [|x y z Hxy _ IH]; [done|]. apply IH. by eapply step_inv.
Qed.



Lemma entries_put k x s : is_Some (cache s) -> entries (put_entry k x s) !! k = Some x.
Proof. intros [t Ec]. unfold entries. cbn. rewrite Ec. cbn. apply lookup_insert_eq. Qed.





(** ** Serving: theory *)

Lemma enforce_slot t ty e d :
  slot ty (cache_enforce_validity t e) = Some d -> slot ty e = Some d /\ t <= cache_until d.
Proof.
  intros E. split.
  - revert E. unfold slot, cache_enforce_validity. destruct e as [ky w h d4 d6]. by repeat (case_match; cbn in *; try done).
  - apply (enforce_valid t e). unfold slot in E. case_match; auto.
Qed.


Lemma cache_check_found t msg p s q ty s1 x d :
  cache_check t msg p s = Some (Some (q, ty), s1) -> entries s1 !! q = Some x -> slot ty x = Some d ->
  c_str_at msg (protocol_offset p + DNS_HEADER_SIZE) = Some q /\
  rd16 msg (protocol_offset p + DNS_HEADER_SIZE + Z.of_nat (length q) + 1) = Some ty /\
  exists x0, entries s !! q = Some x0 /\ slot ty x0 = Some d /\ t <= cache_until d.
Proof.
  intros E Hx Hd. unfold cache_check in E. apply bind_Some in E as (q0 & Eq & E). apply bind_Some in E as (ty0 & Et & E).
  destruct (_ && _) eqn:Ety; [done|]. destruct (cache s) as [tb|] eqn:Ec; [|done].
  destruct (tb !! q0) as [x0|] eqn:E0; [|done].
  assert (He : entries s !! q0 = Some x0) by (unfold entries; by rewrite Ec).
  unfold cache_check_validity in E. rewrite Ety in E.
  set (e1 := cache_enforce_validity t x0) in E.
  assert (Hput : forall y, entries (put_entry q0 y (put_entry q0 e1 s)) !! q0 = Some y)
    by (intros y; apply entries_put; cbn; rewrite Ec; by eexists).
  assert (Hput1 : entries (put_entry q0 e1 s) !! q0 = Some e1) by (apply entries_put; rewrite Ec; by eexists).
  assert (Hs : slot ty e1 = Some d /\ q = q0 /\ ty = ty0).
  { repeat case_match; simplify_eq; rewrite ?Hput, ?Hput1 in Hx; simplify_eq; done. }
  destruct Hs as (Hs & -> & ->). split_and!; [done|done|]. exists x0. split; [done|]. by apply enforce_slot.
Qed.

(** C31: A query is answered from the cache only with the reply that is cached
    for its name and type, while it is valid: the time it may be cached is not
    over, and the time to live that goes into the answer is what is left of the
    one it was cached with. *)
Theorem served_is_valid s e req msg s' o :
  rtc step initial s -> ns_try_resolv_from_cache e req msg s = Some (1, s', o) ->
  exists q ty x d bytes sent,
    c_str_at msg (protocol_offset (rq_protocol req) + DNS_HEADER_SIZE) = Some q /\
    rd16 msg (protocol_offset (rq_protocol req) + DNS_HEADER_SIZE + Z.of_nat (length q) + 1) = Some ty /\
    entries s !! q = Some x /\ slot ty x = Some d /\
    now e <= cache_until d <= valid_until d /\
    send_cached_response (data d) (rq_protocol req) (rq_srcid req) (cd_answers d) (s32 (valid_until d - now e)) =
      Some (bytes, sent) /\
    o = match sent with
        | None => []
        | Some b => [Send (match rq_protocol req with TCP => rq_client_sk req | UDP => rq_udp_sk req end) b]
        end /\
    (inserted d <= now e ->
      s32 (valid_until d - now e) = valid_until d - now e /\ 0 <= valid_until d - now e <= timeout d).
Proof.
  intros I%cache_reachable_inv E. unfold ns_try_resolv_from_cache in E. apply bind_Some in E as ([f s1] & E1 & E).
  destruct f as [[q ty]|]; [|done]. destruct (entries s1 !! q) as [x1|] eqn:Ex; [|done].
  destruct (slot ty x1) as [d|] eqn:Ed; [|done].
  destruct (cache_check_found _ _ _ _ _ _ _ _ _ E1 Ex Ed) as (Hq & Hty & x & Hx & Hd & Ht).
  case_match; [done|]. apply bind_Some in E as ([b snt] & Eb & E). simplify_eq.
  assert (Hok : data_ok d).
  { pose proof (entries_ok _ _ _ I Hx) as [_ _ H4 H6]. unfold slot in Hd. case_match; [by apply H4|by apply H6]. }
  destruct Hok as [D1 D2 D3 D4 D5].
  exists q, ty, x, d, b, snt. split_and!; try done. intros Hi. rewrite s32_small by lia. lia.
Qed.

(** ** From a reply to its answer *)














(** The query of a client for the name and type of a reply. *)
Definition query (pfx hdr : list Z) (r : reply) (tail : list Z) : list Z :=
  pfx ++ hdr ++ wire (r_labels r) ++ 0 :: be_bytes16 (r_type r) ++ tail.
























(** ** Invalidation and refreshing *)

(** When the network changes no reply survives: the entries that are left have no data
    and wait for a refresh, so that no query is answered from the cache. *)
Lemma invalidate_forgets s e :
  rtc step initial s ->
  (forall k x, entries (cache_invalidate e s) !! k = Some x ->
    ipv4 x = None /\ ipv6 x = None /\ want_refresh x = true /\ is_Some (entries s !! k)) /\
  (forall e2 req msg s' o, ns_try_resolv_from_cache e2 req msg (cache_invalidate e s) <> Some (1, s', o)).
Proof.
  intros I%cache_reachable_inv.
  assert (H : forall k x, entries (cache_invalidate e s) !! k = Some x ->
    ipv4 x = None /\ ipv6 x = None /\ want_refresh x = true /\ is_Some (entries s !! k)).
  { unfold cache_invalidate. destruct (g_hash_table_foreach_remove _ _ _) as [[u n] s'] eqn:E.
    destruct (foreach_remove_entries _ _ _ _ _ _ I E) as (_ & _ & _ & _ & H).
    intros k x Hk. destruct (H k x Hk) as (x0 & a1 & a2 & E0 & Ef). unfold cache_invalidate_entry in Ef. simplify_eq.
    match goal with H : negb _ = false |- _ => apply negb_false_iff in H end. by split_and!. }
  split; [done|]. intros e2 req msg s' o E. unfold ns_try_resolv_from_cache in E.
  apply bind_Some in E as ([f s1] & E1 & E). destruct f as [[q ty]|]; [|done].
  destruct (entries s1 !! q) as [x1|] eqn:Ex; [|done]. destruct (slot ty x1) as [d|] eqn:Ed; [|done].
  destruct (cache_check_found _ _ _ _ _ _ _ _ _ E1 Ex Ed) as (_ & _ & x & Hx & Hd & _).
  destruct (H q x Hx) as (H4 & H6 & _). unfold slot in Hd. case_match; congruence.
Qed.

(** Labels joined by dots. *)
Definition dot_labels (ls : list (list Z)) : list Z := concat (map (fun l => dot :: l) ls).

Lemma length_dot_labels ls : length (dot_labels ls) = length (wire ls).
Proof.
  induction ls as [|l ls IH]; [done|]. change (dot_labels (l :: ls)) with (dot :: l ++ dot_labels ls).
  rewrite wire_cons. cbn [length]. by rewrite !length_app, IH.
Qed.

Lemma dots_run : forall ls fuel done post,
  Forall label_ok ls -> (length ls < fuel)%nat ->
  dots fuel (done ++ wire ls ++ 0 :: post) (Z.of_nat (length done)) = Some (done ++ dot_labels ls ++ 0 :: post).
Proof.
  induction ls as [|l ls IH]; intros fuel dn post Hok Hf; (destruct fuel as [|fuel]; [cbn in Hf; lia|]); cbn [dots].
  { cbn [wire map concat app]. by rewrite rd_mid. }
  apply Forall_cons_1 in Hok as [[Hl Hb] Hok]. rewrite wire_cons. cbn [app]. rewrite rd_mid. cbn [mbind option_bind].
  rewrite (proj1 (label_byte (length l) Hl)). rewrite Nat2Z.id.
  rewrite wr_app_mid by (cbn [length]; lia). cbn [length drop app]. rewrite drop_0.
  assert (Es : s8 (Z.of_nat (length l)) = Z.of_nat (length l)).
  { unfold s8. rewrite Z.mod_small; lia. }
  rewrite Es. rewrite <- (app_assoc l). change (dn ++ dot :: l ++ ?x) with (dn ++ (dot :: l) ++ x). rewrite (app_assoc dn).
  replace (Z.of_nat (length dn) + Z.of_nat (length l) + 1) with (Z.of_nat (length (dn ++ dot :: l)))
    by (rewrite length_app; cbn [length]; lia).
  rewrite IH by (try done; cbn in Hf; lia).
  change (dot_labels (l :: ls)) with (dot :: l ++ dot_labels ls). f_equal. rewrite <- app_assoc. cbn [app]. by rewrite <- !app_assoc.
Qed.

(** Bytes that are not yet dots, and moves from a dot that are left. *)
Definition dots_measure (dns_name : list Z) (c : Z) : Z :=
  Z.of_nat (length (List.filter (fun b => negb (b =? dot)) dns_name)) * 23 + (NS_MAXDNAME - c) / 47.

Lemma filter_app_cons (f : Z -> bool) l1 x l2 :
  length (List.filter f (l1 ++ x :: l2)) =
    (length (List.filter f l1) + (if f x then 1 else 0) + length (List.filter f l2))%nat.
Proof. rewrite List.filter_app, length_app. cbn. destruct (f x); cbn; lia. Qed.

Lemma s8_dot : s8 dot = 46.
Proof. done. Qed.

(** More fuel than [dots_fuel] changes nothing: the loop ends, in the array or by leaving it. *)
Lemma dots_fuel_enough_from : forall fuel fuel' dns_name c,
  Z.of_nat (length dns_name) <= NS_MAXDNAME -> dots_measure dns_name c < Z.of_nat fuel -> (fuel <= fuel')%nat ->
  dots fuel' dns_name c = dots fuel dns_name c \/ (c < 0 \/ NS_MAXDNAME <= c).
Proof.
  induction fuel as [|fuel IH]; intros fuel' dn c Hl Hm Hf.
  { right. unfold dots_measure in Hm. destruct (Z.lt_ge_cases c NS_MAXDNAME) as [Hlt|]; [|by right].
    pose proof (Z.div_pos (NS_MAXDNAME - c) 47 ltac:(lia) ltac:(lia)). lia. }
  destruct fuel' as [|fuel']; [lia|]. destruct (Z.lt_ge_cases c 0) as [|H0]; [right; by left|].
  left. cbn [dots]. destruct (rd dn c) as [b|] eqn:Eb; [|done]. cbn [mbind option_bind].
  destruct (Z.eqb_spec b 0) as [|Hb]; [done|].
  pose proof (rd_Some _ _ _ Eb) as Hc.
  unfold rd in Eb. rewrite (proj2 (Z.ltb_ge c 0)) in Eb by lia.
  pose proof (take_drop_middle dn (Z.to_nat c) b Eb) as Edn.
  set (l1 := take (Z.to_nat c) dn) in *. set (l2 := drop (S (Z.to_nat c)) dn) in *.
  assert (Hl1 : length l1 = Z.to_nat c) by (subst l1; rewrite length_take; lia).
  assert (Ew : wr (Z.to_nat c) [dot] dn = l1 ++ dot :: l2).
  { unfold wr. fold l1. cbn [length app]. subst l2. by rewrite Nat.add_1_r. }
  rewrite Ew. set (c' := c + s8 b + 1).
  assert (Hs : -128 <= s8 b < 128) by (unfold s8; pose proof (Z.mod_pos_bound (b + 128) 256 ltac:(lia)); lia).
  assert (Hout : forall n d, (c' < 0 \/ NS_MAXDNAME <= c') -> Z.of_nat (length d) <= NS_MAXDNAME -> dots n d c' = None).
  { intros n d Ho Hd. destruct n; [done|]. cbn [dots]. destruct (rd d c') eqn:Er; [|done]. apply rd_Some in Er. lia. }
  assert (Hld : length (l1 ++ dot :: l2) = length dn) by (rewrite <- Edn, !length_app; done).
  destruct (decide (c' < 0 \/ NS_MAXDNAME <= c')) as [Ho|Hi]; [rewrite !Hout by (try done; lia); done|].
  destruct (IH fuel' (l1 ++ dot :: l2) c') as [E|Ho]; [lia| |lia|done|by destruct Hi].
  unfold dots_measure in *. rewrite <- Edn in Hm. rewrite filter_app_cons in Hm |- *.
  change (negb (dot =? dot)) with false. cbv iota. destruct (Z.eqb_spec b dot) as [->|Hd]; cbn [negb] in Hm.
  - assert (Ec : NS_MAXDNAME - c = NS_MAXDNAME - c' + 1 * 47) by (subst c'; rewrite s8_dot; lia).
    rewrite Ec, Z.div_add in Hm by lia. lia.
  - assert ((NS_MAXDNAME - c') / 47 <= 21) by (apply Z.lt_succ_r, Z.div_lt_upper_bound; unfold NS_MAXDNAME in *; lia).
    assert (0 <= (NS_MAXDNAME - c) / 47) by (apply Z.div_pos; unfold NS_MAXDNAME in *; lia). lia.
Qed.

Lemma dots_fuel_enough fuel key :
  (dots_fuel <= fuel)%nat -> dots fuel (dns_name_buffer key) 0 = dots dots_fuel (dns_name_buffer key) 0.
Proof.
  intros Hf. assert (Hl : length (dns_name_buffer key) = Z.to_nat NS_MAXDNAME).
  { unfold dns_name_buffer. rewrite length_app, repeat_length, length_take. lia. }
  destruct (dots_fuel_enough_from dots_fuel fuel (dns_name_buffer key) 0) as [E|[H|H]]; [rewrite Hl; done| |done|done|lia|by vm_compute in H].
  unfold dots_measure. pose proof (filter_length_le (fun b => negb (b =? dot)) (dns_name_buffer key)) as H.
  rewrite Hl in H. unfold dots_fuel. change ((NS_MAXDNAME - 0) / 47) with 21. unfold NS_MAXDNAME in *. lia.
Qed.

(** A name that is refreshed is looked up in dotted form. *)
Lemma hostname_wire l ls :
  Forall label_ok (l :: ls) -> Z.of_nat (length (wire (l :: ls))) < NS_MAXDNAME ->
  hostname (wire (l :: ls)) = Some (l ++ dot_labels ls).
Proof.
  intros Hok Hlen. unfold hostname, dns_name_buffer.
  rewrite take_ge by lia.
  destruct (Z.to_nat NS_MAXDNAME - length (wire (l :: ls)))%nat as [|n] eqn:En; [lia|]. cbn [repeat].
  assert (Hn : (length (l :: ls) <= length (wire (l :: ls)))%nat).
  { generalize (l :: ls). intros k. induction k as [|y k IH]; [done|]. rewrite wire_cons. cbn [length]. rewrite length_app. lia. }
  pose proof (dots_run (l :: ls) dots_fuel [] (repeat 0 n) Hok) as E. cbn [app length] in E, Hn. change (Z.of_nat 0) with 0 in E.
  rewrite E by (unfold dots_fuel, NS_MAXDNAME in *; lia). cbn [mbind option_bind].
  change (dot_labels (l :: ls) ++ 0 :: repeat 0 n) with ([dot] ++ (l ++ dot_labels ls) ++ 0 :: repeat 0 n).
  apply c_str_at_mid; [|done].
  apply Forall_app. apply Forall_cons_1 in Hok as [[_ Hl] Hok]. split; [done|]. clear -Hok.
  induction Hok as [|y k [_ Hy] _ IH]; [constructor|]. change (dot_labels (y :: k)) with (dot :: y ++ dot_labels k).
  constructor; [unfold dot; lia|]. apply Forall_app. by split.
Qed.

End operations.

(** ** A run: an error, then a reply with two addresses, then queries *)

Definition demo_s0 : state := mk_state None 0 0 1030 0 false.
Definition refused : list Z := [0; 1; 129; 133; 0; 1; 0; 0; 0; 0; 0; 0].

Lemma demo_s0_reachable : rtc (step (glib := glib_reference)) initial demo_s0.
Proof.
  apply rtc_once. apply (step_update _ (mk_env 1000 true) UDP refused 12 0 demo_s0 []); [cbn; lia|done|by vm_compute].
Qed.

Definition demo_s1 : state :=
  match cache_update (glib := glib_reference) (mk_env 1010 true) UDP (enc_reply demo_reply)
          (Z.of_nat (length (enc_reply demo_reply))) demo_s0 with
  | Some (_, s, _) => s
  | None => initial
  end.

Lemma demo_s1_reachable : rtc (step (glib := glib_reference)) initial demo_s1.
Proof.
  eapply rtc_r; [exact demo_s0_reachable|].
  apply (step_update _ (mk_env 1010 true) UDP (enc_reply demo_reply) (Z.of_nat (length (enc_reply demo_reply))) 0 demo_s1 []);
    [cbn; lia|by vm_compute|by vm_compute].
Qed.


Definition demo_request : request := mk_request UDP 0 7 [171; 205].
Definition demo_query : list Z := query [] ([171; 205] ++ repeat 0 10) demo_reply [0; 1].

Definition demo_served := ns_try_resolv_from_cache (mk_env 1100 true) demo_request demo_query demo_s1.

Lemma served_is_valid_witness : exists s' o, demo_served = Some (1, s', o) /\
  exists q x d, entries demo_s1 !! q = Some x /\ slot DNS_TYPE_A x = Some d /\ 1100 <= cache_until d.
Proof.
  assert (Er : exists s' o, demo_served = Some (1, s', o)) by (eexists _, _; by vm_compute).
  destruct Er as (s' & o & E). exists s', o. split; [exact E|].
  destruct (served_is_valid (glib := glib_reference) demo_s1 (mk_env 1100 true) demo_request demo_query s' o demo_s1_reachable E)
    as (q & ty & x & d & b & snt & Hq & Ht & Hx & Hd & [Hn _] & _).
  exists q, x, d. split; [exact Hx|]. split; [|exact Hn].
  assert (Eq : c_str_at demo_query (protocol_offset UDP + DNS_HEADER_SIZE) = Some (wire (www ++ example_com))) by by vm_compute.
  change (rq_protocol demo_request) with UDP in *. rewrite Eq in Hq.
  assert (Hqe : q = wire (www ++ example_com)) by congruence. subst q.
  assert (Et : rd16 demo_query (protocol_offset UDP + DNS_HEADER_SIZE + Z.of_nat (length (wire (www ++ example_com))) + 1) =
    Some DNS_TYPE_A) by by vm_compute.
  rewrite Et in Ht. assert (Hte : ty = DNS_TYPE_A) by congruence. subst ty. exact Hd.
Defined.



Lemma invalidate_forgets_witness :
  size (entries demo_s1) = 1%nat /\
  ~ exists s' o, ns_try_resolv_from_cache (mk_env 1100 true) demo_request demo_query
      (cache_invalidate (glib := glib_reference) (mk_env 1100 true) demo_s1) = Some (1, s', o).
Proof.
  split; [by vm_compute|]. intros (s' & o & E).
  exact (proj2 (invalidate_forgets (glib := glib_reference) demo_s1 (mk_env 1100 true) demo_s1_reachable)
    (mk_env 1100 true) demo_request demo_query s' o E).
Defined.

(** ** Where the cache does not do what it means to *)

(** The type a reply is cached under is the one of its last answer.  After an A reply that also
    has a TXT record, a query for an IPv6 address is answered with the IPv4 address. *)
Definition mixed_reply : reply :=
  mk_reply [18; 52] 129 128 (www ++ example_com) DNS_TYPE_A 1 [demo_answer 1; mk_answer 16 1 600 [1; 65]] [0; 0; 0; 0].

Definition mixed_s : state :=
  match cache_update (glib := glib_reference) (mk_env 1010 true) UDP (enc_reply mixed_reply)
          (Z.of_nat (length (enc_reply mixed_reply))) demo_s0 with
  | Some (_, s, _) => s
  | None => initial
  end.

Definition aaaa_query : list Z :=
  [171; 205] ++ repeat 0 10 ++ wire (www ++ example_com) ++ 0 :: be_bytes16 DNS_TYPE_AAAA ++ be_bytes16 1.

Lemma mixed_reply_wrong_family : exists s' bytes,
  ns_try_resolv_from_cache (mk_env 1100 true) demo_request aaaa_query mixed_s =
    Some (1, s', [Send 7 bytes]) /\
  drop (12 + length (wire (www ++ example_com)) + 5) bytes = enc_answers [with_ttl 510 (demo_answer 1)].
Proof. eexists _, _. split; by vm_compute. Qed.

(** A label of 128 bytes is accepted by the parser; the length is read as a negative number when the
    name is turned into a hostname, and the byte 127 bytes before the array is read. *)
Definition long_label : list Z := repeat 97 128.

Definition long_reply : list Z :=
  [18; 52; 129; 128; 0; 1; 0; 1; 0; 0; 0; 0] ++ 128 :: long_label ++ 0 :: be_bytes16 DNS_TYPE_A ++ be_bytes16 1 ++
  enc_answer (demo_answer 1).

Lemma long_label_cached_not_refreshed :
  (exists r, parse_response long_reply (Z.of_nat (length long_reply)) NS_MAXDNAME NS_MAXDNAME = Some r /\
    p_err r = 0 /\ p_question r = 128 :: long_label) /\
  hostname (128 :: long_label) = None.
Proof. split; [eexists; split_and!; by vm_compute|by vm_compute]. Qed.

End DnsCache.
