(* ===== verification/DnsFixup.v ===== *)
(** * Removing an appended domain from a reply (src/dnsproxy.c)

    A query for a bare host name is also sent with the domains of a server
    appended.  In the reply to such a query the domain is taken out again:
    the answers are copied without compression into a buffer of their own
    ([uncompress]) and the domain is removed from their names
    ([strip_domains]).

    The two functions of the resolver library of the C library that are used
    are the class [Resolv].  A [char] is signed. *)

From S2P Require Import Prelude Inet Buffer DnsMessage.
From stdpp Require Import list.
Import DnsMessage.
Open Scope Z_scope.

Module DnsFixup.

Definition NS_MAXLABEL : Z := 63.
Definition NS_RRFIXEDSZ : Z := 10.
Definition DNS_TYPE_SOA : Z := 6.
Definition DNS_CLASS_IN : Z := 1.

Definition s8 (z : Z) : Z := (z + 128) mod 256 - 128.

(** [dn_expand (msg, msg + length msg, msg + p, dst, size)] returns how many
    bytes the name at [p] has in the message, and its text; [dn_comp] without
    earlier names writes the name of a text in wire format. *)
Class Resolv := {
  dn_expand : list Z -> Z -> Z -> option (Z * list Z);
  dn_comp : list Z -> Z -> option (list Z);
}.

Section fixup.
Context `{!Resolv}.

(** The bytes used in the message and the bytes for [uptr]. *)
Definition convert_label (msg : list Z) (ptr remaining_len : Z) : option (Z * list Z) :=
  '(pos, name) ← dn_expand msg ptr NS_MAXLABEL;
  comp ← dn_comp name remaining_len;
  Some (pos, comp).

(** Two signed bytes put together with [<<] and [|], as an [int]. *)
Definition be_chars (hi lo : Z) : Z := (s8 hi .<< 8) .| s8 lo.

(** The buffer [uncompressed], where it is written next, and where the reply is
    read next. *)
Record work := mk_work { w_buf : list Z; w_uptr : Z; w_ptr : Z }.

(** What a function ends with: [None] is the pointer [NULL]. *)
Definition failed {A} : option (option A) := Some None.
(** [if (!m) return NULL] *)
Definition or_null {A B} (m : option A) (k : A -> option (option B)) : option (option B) :=
  match m with
  | None => failed
  | Some a => k a
  end.

Definition uncomp_len : Z := NS_MAXDNAME.
Definition uncomp_end : Z := uncomp_len - 1.

(** The data of a record whose fixed part has been copied. *)
Definition uncompress_data (reply : list Z) (start end_ : Z) (dns_type : Z) (w : work) : option (option work) :=
  let msg := slice (Z.to_nat start) (Z.to_nat (end_ - start)) reply in
  let uptr := w_uptr w in
  let ptr := w_ptr w in
  if dns_type =? DNS_TYPE_CNAME then
    or_null (convert_label msg (ptr - start) (uncomp_len - uptr)) (fun '(pos, comp) =>
    b ← store uptr comp (w_buf w);
    let comp_pos := Z.of_nat (length comp) in
    b ← store (uptr - 2) [u8 (comp_pos .<< 8); comp_pos .& 0xff] b;
    Some (Some (mk_work b (uptr + comp_pos) (ptr + pos))))
  else if (dns_type =? DNS_TYPE_A) || (dns_type =? DNS_TYPE_AAAA) then
    hi ← rd (w_buf w) (uptr - 2);
    lo ← rd (w_buf w) (uptr - 1);
    let dlen := be_chars hi lo in
    if (end_ - ptr <? dlen) || (uncomp_end - uptr <? dlen) then failed
    else
      bytes ← rd_bytes reply ptr dlen;
      b ← store uptr bytes (w_buf w);
      Some (Some (mk_work b (uptr + dlen) (ptr + dlen)))
  else if dns_type =? DNS_TYPE_SOA then
    or_null (convert_label msg (ptr - start) (uncomp_len - uptr)) (fun '(pos, comp) =>
    b ← store uptr comp (w_buf w);
    let len_ptr := uptr - 2 in
    let uptr := uptr + Z.of_nat (length comp) in
    let ptr := ptr + pos in
    or_null (convert_label msg (ptr - start) (uncomp_len - uptr)) (fun '(pos2, comp2) =>
    b ← store uptr comp2 b;
    let uptr := uptr + Z.of_nat (length comp2) in
    let ptr := ptr + pos2 in
    if (uncomp_end <? uptr + 20) || (end_ <? ptr + 20) then failed
    else
      bytes ← rd_bytes reply ptr 20;
      b ← store uptr bytes b;
      let total_len := Z.of_nat (length comp) + Z.of_nat (length comp2) + 20 in
      b ← store len_ptr [u8 (total_len .<< 8); total_len .& 0xff] b;
      Some (Some (mk_work b (uptr + 20) (ptr + 20)))))
  else Some (Some w).

(** One round of the loop of [uncompress]; [start] is the start of the DNS header in
    the reply. *)
Definition uncompress_step (reply : list Z) (start end_ : Z) (w : work) : option (option work) :=
  let msg := slice (Z.to_nat start) (Z.to_nat (end_ - start)) reply in
  or_null (convert_label msg (w_ptr w - start) NS_MAXLABEL) (fun '(pos, comp) =>
  name ← c_str comp;
  let ulen := Z.of_nat (length name) + 1 in
  let uptr := w_uptr w in
  if uncomp_end <? uptr + ulen then failed
  else
    b ← store uptr (name ++ [0]) (w_buf w);
    let uptr := uptr + ulen in
    let ptr := w_ptr w + pos in
    if uncomp_end <? uptr + NS_RRFIXEDSZ then failed
    else
      fixed ← rd_bytes reply ptr NS_RRFIXEDSZ;
      b ← store uptr fixed b;
      t0 ← rd b uptr; t1 ← rd b (uptr + 1); c0 ← rd b (uptr + 2); c1 ← rd b (uptr + 3);
      let dns_type := u16 (be_chars t0 t1) in
      let dns_class := u16 (be_chars c0 c1) in
      if negb (dns_class =? DNS_CLASS_IN) then failed
      else uncompress_data reply start end_ dns_type (mk_work b (uptr + NS_RRFIXEDSZ) (ptr + NS_RRFIXEDSZ))).

Fixpoint uncompress_loop (n : nat) (reply : list Z) (start end_ : Z) (w : work) : option (option work) :=
  match n with
  | O => Some (Some w)
  | S n =>
      if w_ptr w <? end_ then
        r ← uncompress_step reply start end_ w;
        match r with
        | None => failed
        | Some w => uncompress_loop n reply start end_ w
        end
      else Some (Some w)
  end.

(** The count is an [int16_t]. *)
Definition uncompress (field_count : Z) (reply : list Z) (start end_ : Z) (w : work) : option (option work) :=
  uncompress_loop (Z.to_nat (s16 field_count)) reply start end_ w.

(** [strstr]: the offset of the first occurrence. *)
Fixpoint strstr (hay needle : list Z) : option Z :=
  if bytes_eqb (take (length needle) hay) needle then Some 0
  else match hay with
       | [] => None
       | _ :: hay => n ← strstr hay needle; Some (n + 1)
       end.

(** One round of the loop of [strip_domains]: the buffer, the position and the end. *)
Definition strip_step (name : list Z) (buf : list Z) (answers end_ : Z) : option (Z + list Z * Z * Z) :=
  s ← c_str_at buf answers;
  '(buf, end_) ←
    (match strstr s name with
     | None => Some (buf, end_)
     | Some at_ =>
         let domain := answers + at_ + Z.of_nat (length name) in
         d ← rd buf domain;
         if d =? 0 then Some (buf, end_)
         else
           ds ← c_str_at buf domain;
           let domain_len := Z.of_nat (length ds) in
           let remaining := domain + domain_len in
           moved ← rd_bytes buf remaining (end_ - remaining);
           buf ← store domain moved buf;
           Some (buf, end_ - domain_len)
     end);
  s ← c_str_at buf answers;
  let answers := answers + Z.of_nat (length s) + 1 in
  if end_ <? answers + DNS_RR_SIZE then Some (inl (- EINVAL))
  else
    data_len ← rd16 buf (answers + 8);
    Some (inr (buf, answers + DNS_RR_SIZE + data_len, end_)).

(** The buffer and the new length, or the error. *)
Fixpoint strip_loop (fuel : nat) (name : list Z) (buf : list Z) (answers end_ : Z) : option (Z + list Z * Z) :=
  match fuel with
  | O => None
  | S fuel =>
      if answers <? end_ then
        r ← strip_step name buf answers end_;
        match r with
        | inl err => Some (inl err)
        | inr (buf, answers, end_) => strip_loop fuel name buf answers end_
        end
      else Some (if end_ <? answers then inl (- EINVAL) else inr (buf, end_))
  end.

(** A round takes 11 bytes at least. *)
Definition strip_domains (name : list Z) (buf : list Z) (answers length_ : Z) : option (Z + list Z * Z) :=
  r ← strip_loop (S (length buf)) name buf answers (answers + length_);
  Some (match r with inl err => inl err | inr (buf, end_) => inr (buf, end_ - answers) end).

(** The result: an error, 0 for the reply as it is, or the new reply. *)
Inductive fixup_result := Fix_error (err : Z) | Fix_keep | Fix_new (bytes : list Z).

(** [strnlen] *)
Definition strnlen (l : list Z) : Z := Z.of_nat (length (upto_nul l)).

Fixpoint uncompress_sections (counts : list Z) (reply : list Z) (start end_ : Z) (w : work) : option (option work) :=
  match counts with
  | [] => Some (Some w)
  | n :: counts =>
      r ← uncompress n reply start end_ w;
      match r with
      | None => failed
      | Some w => uncompress_sections counts reply start end_ w
      end
  end.

(** [offset] is 0 for UDP and 2 for TCP; [reply_len] bytes of the buffer are the reply. *)
Definition dns_reply_fixup_domains (reply : list Z) (reply_len offset : Z) (alloc_ok : bool) : option fixup_result :=
  let eom := reply_len in
  let header_len := u16 (offset + DNS_HEADER_SIZE) in
  if reply_len <? header_len + 1 then Some (Fix_error (- EINVAL))
  else
    ancount ← rd16 reply (offset + hdr_ancount);
    nscount ← rd16 reply (offset + Z.of_nat hdr_nscount);
    arcount ← rd16 reply (offset + Z.of_nat hdr_arcount);
    host_len ← rd reply header_len;
    let ptr := header_len in
    let domain := ptr + host_len + 1 in
    if eom <=? domain then Some (Fix_error (- EINVAL))
    else
      rest ← rd_bytes reply domain (eom - domain);
      let domain_len := if host_len =? 0 then 0 else u16 (strnlen rest) in
      let qtc := domain + domain_len + 1 in
      if eom <? qtc + DNS_QUESTION_SIZE then Some (Fix_error (- EINVAL))
      else
        dns_type ← rd16 reply qtc;
        dns_class ← rd16 reply (qtc + 2);
        if domain_len =? 0 then Some Fix_keep
        else if negb (dns_type =? DNS_TYPE_A) && negb (dns_type =? DNS_TYPE_AAAA) && negb (dns_class =? DNS_CLASS_IN)
        then Some Fix_keep
        else
          host ← rd_bytes reply ptr (host_len + 1);
          qc ← rd_bytes reply qtc DNS_QUESTION_SIZE;
          let fixed := host ++ [0] ++ qc in
          let fixed_len := Z.of_nat (length fixed) in
          buf ← store 0 fixed (repeat 0 (Z.to_nat NS_MAXDNAME));
          r ← uncompress_sections [ancount; nscount; arcount] reply offset eom
                (mk_work buf fixed_len (qtc + DNS_QUESTION_SIZE));
          match r with
          | None => Some Fix_keep
          | Some w =>
              name ← c_str_at (w_buf w) 0;
              r ← strip_domains name (w_buf w) fixed_len (w_uptr w - fixed_len);
              match r with
              | inl _ => Some (Fix_error (- EINVAL))
              | inr (buf, new_an_len) =>
                  if negb alloc_ok then Some (Fix_error (- ENOMEM))
                  else
                    hdr ← rd_bytes reply 0 header_len;
                    body ← rd_bytes buf 0 (new_an_len + fixed_len);
                    Some (Fix_new (hdr ++ body))
              end
          end.

(** ** Theory *)

Lemma store_append dn x rest p :
  p = Z.of_nat (length dn) -> (length x <= length rest)%nat ->
  store p x (dn ++ rest) = Some ((dn ++ x) ++ drop (length x) rest).
Proof.
  intros -> Hl. rewrite store_in by (rewrite ?length_app; lia). rewrite Nat2Z.id, wr_app_mid by done. by rewrite <- app_assoc.
Qed.

Lemma s8_small z : 0 <= z < 128 -> s8 z = z.
Proof. intros Hz. unfold s8. rewrite Z.mod_small; lia. Qed.

(** Below 128 the two bytes of a number are read back. *)
Lemma be_chars_small n : 0 <= n < 128 -> exists hi lo, be_bytes16 n = [hi; lo] /\ be_chars hi lo = n.
Proof.
  intros Hn. exists (byte_of n 1), (byte_of n 0). split; [done|].
  assert (E1 : byte_of n 1 = 0) by byte_arith. assert (E0 : byte_of n 0 = n) by byte_arith.
  unfold be_chars. by rewrite E1, E0, !s8_small by lia.
Qed.

Lemma rd_off pre l post p i x :
  p = Z.of_nat (length pre + i) -> l !! i = Some x -> rd ((pre ++ l) ++ post) p = Some x.
Proof.
  intros -> Hx. pose proof (lookup_lt_Some _ _ _ Hx). unfold rd. rewrite (proj2 (Z.ltb_ge _ _)) by lia.
  rewrite Nat2Z.id, lookup_app_l by (rewrite length_app; lia). rewrite lookup_app_r by lia.
  by replace (length pre + i - length pre)%nat with i by lia.
Qed.

(** Names with the bytes of hostnames. *)
Definition host_byte (b : Z) : Prop := 97 <= b <= 122 \/ 48 <= b <= 57 \/ b = 45.
Definition host_label (l : list Z) : Prop := (1 <= length l <= 63)%nat /\ Forall host_byte l.

Lemma host_label_ok l : host_label l -> label_ok l.
Proof.
  intros [Hl Hb]. split; [done|]. eapply Forall_impl; [exact Hb|]. intros b. unfold host_byte. lia.
Qed.

(** What is used of the two library functions: a name that is a pointer to a name
    without further pointers is expanded, and the text of it is compressed to the name again. *)
Class ResolvLaws : Prop := {
  expand_pointer msg pre ls post p :
    msg = pre ++ wire ls ++ 0 :: post -> Z.of_nat (length pre) < 64 * 256 ->
    ls <> [] -> Forall host_label ls -> Z.of_nat (length (wire ls)) + 1 <= NS_MAXLABEL ->
    rd msg p = Some (192 + Z.of_nat (length pre) / 256) -> rd msg (p + 1) = Some (Z.of_nat (length pre) mod 256) ->
    exists text, dn_expand msg p NS_MAXLABEL = Some (2, text) /\
      forall size, Z.of_nat (length (wire ls)) + 1 <= size -> dn_comp text size = Some (wire ls ++ [0]);
}.

Context {laws : ResolvLaws}.

(** An answer with the name of [labels] spelled out. *)
Definition spelled (labels : list (list Z)) (a : answer) : list Z := wire labels ++ 0 :: enc_fixed a ++ an_data a.

Lemma length_spelled labels a : length (spelled labels a) = (length (wire labels) + 11 + length (an_data a))%nat.
Proof. unfold spelled. rewrite length_app. cbn [length]. rewrite length_app, length_enc_fixed. lia. Qed.

(** An address: what an A or AAAA query is answered with. *)
Record address_ok (a : answer) : Prop := {
  ad_ok : answer_ok a;
  ad_type : an_type a = DNS_TYPE_A \/ an_type a = DNS_TYPE_AAAA;
  ad_class : an_class a = DNS_CLASS_IN;
  ad_data : (length (an_data a) < 128)%nat;
}.

(** The fixed part of an address as [uncompress] reads it. *)
Lemma fixed_chars a :
  address_ok a -> exists t0 t1 c0 c1 rest4 d0 d1,
    enc_fixed a = [t0; t1; c0; c1] ++ rest4 ++ [d0; d1] /\ length rest4 = 4%nat /\
    u16 (be_chars t0 t1) = an_type a /\ u16 (be_chars c0 c1) = DNS_CLASS_IN /\
    be_chars d0 d1 = Z.of_nat (length (an_data a)).
Proof.
  intros [Hok Hty Hcl Hd].
  destruct (be_chars_small (an_type a)) as (t0 & t1 & Et & Et'); [destruct Hty as [-> | ->]; done|].
  destruct (be_chars_small (an_class a)) as (c0 & c1 & Ec & Ec'); [by rewrite Hcl|].
  destruct (be_chars_small (Z.of_nat (length (an_data a)))) as (d0 & d1 & Ed & Ed'); [lia|].
  exists t0, t1, c0, c1, (be_bytes32 (an_ttl a)), d0, d1. unfold enc_fixed. rewrite Et, Ec, Ed.
  split_and!; [done|done|rewrite Et'; destruct Hty as [-> | ->]; done|rewrite Ec', Hcl; done|done].
Qed.

(** The reply around an answer: [pfx] the length for TCP, then the DNS message [m]. *)
Lemma uncompress_step_run pfx hdr ls q before a after tail dn rest :
  let m := hdr ++ wire ls ++ 0 :: q ++ before ++ enc_answer a ++ after in
  length hdr = 12%nat -> ls <> [] -> Forall host_label ls -> Z.of_nat (length (wire ls)) + 1 <= NS_MAXLABEL ->
  address_ok a -> Z.of_nat (length (dn ++ rest)) = NS_MAXDNAME ->
  Z.of_nat (length dn + length (spelled ls a)) <= uncomp_end ->
  exists rest',
    uncompress_step (pfx ++ m ++ tail) (Z.of_nat (length pfx)) (Z.of_nat (length pfx + length m))
      (mk_work (dn ++ rest) (Z.of_nat (length dn))
         (Z.of_nat (length pfx + length hdr + length (wire ls) + 1 + length q + length before))) =
    Some (Some (mk_work ((dn ++ spelled ls a) ++ rest') (Z.of_nat (length (dn ++ spelled ls a)))
         (Z.of_nat (length pfx + length hdr + length (wire ls) + 1 + length q + length before + length (enc_answer a))))) /\
    Z.of_nat (length ((dn ++ spelled ls a) ++ rest')) = NS_MAXDNAME.
Proof.
  intros m Hh Hls Hok Hlen Ha Hbuf Hfit. unfold uncompress_step. cbn [w_ptr w_uptr w_buf].
  assert (Hlab : Forall label_ok ls) by (eapply Forall_impl; [exact Hok|apply host_label_ok]).
  assert (Emsg : slice (Z.to_nat (Z.of_nat (length pfx))) (Z.to_nat (Z.of_nat (length pfx + length m) - Z.of_nat (length pfx)))
    (pfx ++ m ++ tail) = m).
  { rewrite Nat2Z.id. replace (Z.to_nat _) with (length m) by lia. apply slice_mid. }
  rewrite Emsg. set (P := (length hdr + length (wire ls) + 1 + length q + length before)%nat).
  set (pre := hdr ++ wire ls ++ 0 :: q ++ before).
  assert (HP : length pre = P) by (subst pre P; rewrite !length_app; cbn [length]; rewrite length_app; lia).
  assert (Em : m = pre ++ NS_CMPRSFLGS :: 0x0c :: enc_fixed a ++ an_data a ++ after).
  { subst m pre. unfold enc_answer, question_pointer. rewrite <- !app_assoc. cbn [app]. by rewrite <- !app_assoc. }
  replace (Z.of_nat (length pfx + length hdr + length (wire ls) + 1 + length q + length before) - Z.of_nat (length pfx))
    with (Z.of_nat (length pre)) by lia.
  destruct (expand_pointer m hdr ls (q ++ before ++ enc_answer a ++ after) (Z.of_nat (length pre))) as (text & Ex & Ec); try done.
  { rewrite Hh. lia. }
  { rewrite Em, rd_mid, Hh. done. }
  { rewrite Em, rd_mid1, Hh. done. }
  unfold convert_label. rewrite Ex. cbn [mbind option_bind]. rewrite (Ec NS_MAXLABEL Hlen). cbn [mbind option_bind or_null].
  rewrite (c_str_mid (wire ls) []) by by apply wire_nonzero. cbn [mbind option_bind].
  rewrite length_spelled in Hfit. rewrite length_app in Hbuf. unfold uncomp_end, uncomp_len, NS_RRFIXEDSZ in *.
  rewrite (proj2 (Z.ltb_ge _ _)) by lia.
  rewrite store_append by (try done; rewrite length_app; cbn [length]; lia). cbn [mbind option_bind].
  set (r1 := drop (length (wire ls ++ [0])) rest).
  assert (Hr1 : (length r1 + length (wire ls) + 1 = length rest)%nat) by (subst r1; rewrite length_drop, length_app; cbn [length]; lia).
  rewrite (proj2 (Z.ltb_ge _ _)) by lia.
  assert (Ef : rd_bytes (pfx ++ m ++ tail) (Z.of_nat (length pfx + length hdr + length (wire ls) + 1 + length q + length before) + 2) 10 =
    Some (enc_fixed a)).
  { rewrite Em. change (pre ++ NS_CMPRSFLGS :: 12 :: ?x) with (pre ++ [NS_CMPRSFLGS; 12] ++ x).
    rewrite <- !app_assoc. rewrite 2!app_assoc. apply rd_bytes_at; [|done]. rewrite !length_app. cbn [length]. lia. }
  rewrite Ef. cbn [mbind option_bind].
  set (d1 := dn ++ wire ls ++ [0]).
  assert (Hd1 : length d1 = (length dn + length (wire ls) + 1)%nat) by (subst d1; rewrite !length_app; cbn [length]; lia).
  rewrite (store_append d1 (enc_fixed a) r1) by (rewrite ?length_enc_fixed; lia). cbn [mbind option_bind].
  set (r2 := drop (length (enc_fixed a)) r1).
  assert (Hr2 : (length r2 + 10 = length r1)%nat) by (subst r2; rewrite length_drop, length_enc_fixed; lia).
  destruct (fixed_chars a Ha) as (t0 & t1 & c0 & c1 & x4 & e0 & e1 & Efx & Hx4 & Et & Ecl & Edl).
  assert (L0 : enc_fixed a !! 0%nat = Some t0 /\ enc_fixed a !! 1%nat = Some t1 /\ enc_fixed a !! 2%nat = Some c0 /\
    enc_fixed a !! 3%nat = Some c1 /\ enc_fixed a !! 8%nat = Some e0 /\ enc_fixed a !! 9%nat = Some e1).
  { rewrite Efx. destruct x4 as [|y0 [|y1 [|y2 [|y3 [|]]]]]; done. }
  destruct L0 as (L0 & L1 & L2 & L3 & L8 & L9).
  set (U := Z.of_nat (length dn) + (Z.of_nat (length (wire ls)) + 1)).
  rewrite (rd_off d1 _ _ U 0 t0) by (try done; lia). cbn [mbind option_bind].
  rewrite (rd_off d1 _ _ (U + 1) 1 t1) by (try done; lia). cbn [mbind option_bind].
  rewrite (rd_off d1 _ _ (U + 2) 2 c0) by (try done; lia). cbn [mbind option_bind].
  rewrite (rd_off d1 _ _ (U + 3) 3 c1) by (try done; lia). cbn [mbind option_bind].
  rewrite Et, Ecl. change (negb (DNS_CLASS_IN =? DNS_CLASS_IN)) with false. cbv iota.
  unfold uncompress_data. cbn [w_uptr w_ptr w_buf].
  assert (Hty : (an_type a =? DNS_TYPE_CNAME) = false /\ (an_type a =? DNS_TYPE_A) || (an_type a =? DNS_TYPE_AAAA) = true)
    by (destruct (ad_type _ Ha) as [-> | ->]; done).
  destruct Hty as [-> ->].
  rewrite (rd_off d1 _ _ (U + 10 - 2) 8 e0) by (try done; lia). cbn [mbind option_bind].
  rewrite (rd_off d1 _ _ (U + 10 - 1) 9 e1) by (try done; lia). cbn [mbind option_bind]. rewrite Edl.
  assert (Hm : length m = (P + 12 + length (an_data a) + length after)%nat).
  { rewrite Em, length_app. cbn [length]. rewrite !length_app, length_enc_fixed. lia. }
  unfold uncomp_end, uncomp_len. rewrite !(proj2 (Z.ltb_ge _ _)) by lia. cbn [orb].
  assert (Ed : rd_bytes (pfx ++ m ++ tail) (Z.of_nat (length pfx + length hdr + length (wire ls) + 1 + length q + length before) + 2 + 10)
    (Z.of_nat (length (an_data a))) = Some (an_data a)).
  { rewrite Em. change (pre ++ NS_CMPRSFLGS :: 12 :: ?x) with (pre ++ [NS_CMPRSFLGS; 12] ++ x).
    rewrite <- !app_assoc. rewrite 3!app_assoc. apply rd_bytes_at; [|done]. rewrite !length_app, length_enc_fixed. cbn [length]. lia. }
  rewrite Ed. cbn [mbind option_bind].
  rewrite (store_append (d1 ++ enc_fixed a) (an_data a) r2) by (rewrite ?length_app, ?length_enc_fixed; lia). cbn [mbind option_bind].
  exists (drop (length (an_data a)) r2).
  assert (Es : (d1 ++ enc_fixed a) ++ an_data a = dn ++ spelled ls a).
  { subst d1. unfold spelled. rewrite <- !app_assoc. done. }
  rewrite Es. split.
  - do 3 f_equal.
    + rewrite <- Es, !length_app, length_enc_fixed. lia.
    + rewrite length_enc_answer. lia.
  - rewrite <- Es. rewrite !length_app, length_drop, length_enc_fixed. lia.
Qed.

Definition spelled_all (labels : list (list Z)) (l : list answer) : list Z := concat (map (spelled labels) l).

Lemma spelled_all_cons labels a l : spelled_all labels (a :: l) = spelled labels a ++ spelled_all labels l.
Proof. done. Qed.

Lemma uncompress_loop_run pfx hdr ls q m tail : forall l before dn rest,
  m = hdr ++ wire ls ++ 0 :: q ++ before ++ enc_answers l ->
  length hdr = 12%nat -> ls <> [] -> Forall host_label ls -> Z.of_nat (length (wire ls)) + 1 <= NS_MAXLABEL ->
  Forall address_ok l -> Z.of_nat (length (dn ++ rest)) = NS_MAXDNAME ->
  Z.of_nat (length dn + length (spelled_all ls l)) <= uncomp_end ->
  exists rest',
    uncompress_loop (length l) (pfx ++ m ++ tail) (Z.of_nat (length pfx)) (Z.of_nat (length pfx + length m))
      (mk_work (dn ++ rest) (Z.of_nat (length dn))
         (Z.of_nat (length pfx + length hdr + length (wire ls) + 1 + length q + length before))) =
    Some (Some (mk_work ((dn ++ spelled_all ls l) ++ rest') (Z.of_nat (length (dn ++ spelled_all ls l)))
         (Z.of_nat (length pfx + length m)))) /\
    Z.of_nat (length ((dn ++ spelled_all ls l) ++ rest')) = NS_MAXDNAME.
Proof.
  induction l as [|a l IH]; intros before dn rest Hm Hh Hls Hok Hlen Hl Hbuf Hfit; cbn [length uncompress_loop].
  { exists rest. rewrite Hm. unfold spelled_all, enc_answers. cbn [map concat]. rewrite !app_nil_r. split; [|done].
    rewrite !length_app. cbn [length]. rewrite length_app. do 3 f_equal. lia. }
  apply Forall_cons_1 in Hl as [Ha Hl]. rewrite spelled_all_cons, length_app in Hfit.
  assert (Hm' : m = hdr ++ wire ls ++ 0 :: q ++ before ++ enc_answer a ++ enc_answers l) by done.
  assert (Hlm : length m = (length hdr + length (wire ls) + 1 + length q + length before + length (enc_answer a) + length (enc_answers l))%nat).
  { rewrite Hm', !length_app. cbn [length]. rewrite !length_app. lia. }
  rewrite length_enc_answer in Hlm. rewrite (proj2 (Z.ltb_lt _ _)) by (cbn [w_ptr]; lia).
  destruct (uncompress_step_run pfx hdr ls q before a (enc_answers l) tail dn rest) as (r1 & E1 & Hr1); try done; [lia|].
  rewrite <- Hm' in E1. rewrite E1. cbn [mbind option_bind].
  destruct (IH (before ++ enc_answer a) (dn ++ spelled ls a) r1) as (r2 & E2 & Hr2); try done.
  { rewrite Hm'. by rewrite <- !app_assoc. }
  { rewrite length_app. lia. }
  rewrite spelled_all_cons. rewrite (app_assoc dn). exists r2. split; [|done]. rewrite <- E2. do 2 f_equal.
  rewrite length_app. lia.
Qed.

Lemma strstr_prefix n rest : strstr (n ++ rest) n = Some 0.
Proof.
  assert (E : bytes_eqb (take (length n) (n ++ rest)) n = true) by (rewrite take_app_length; apply bytes_eqb_refl).
  destruct (n ++ rest) as [|x l]; cbn [strstr]; by rewrite E.
Qed.

Lemma wire_app_one host dom : wire (host :: dom) = wire [host] ++ wire dom.
Proof. change (host :: dom) with ([host] ++ dom). apply wire_app. Qed.

Lemma strip_step_run host dom a later dn junk :
  Forall label_ok (host :: dom) -> dom <> [] -> address_ok a ->
  exists junk',
    strip_step (wire [host]) (dn ++ spelled (host :: dom) a ++ later ++ junk) (Z.of_nat (length dn))
      (Z.of_nat (length dn + length (spelled (host :: dom) a) + length later)) =
    Some (inr ((dn ++ spelled [host] a) ++ later ++ junk', Z.of_nat (length (dn ++ spelled [host] a)),
      Z.of_nat (length (dn ++ spelled [host] a) + length later))) /\
    length junk' = (length (wire dom) + length junk)%nat.
Proof.
  intros Hok Hdom Ha. pose proof Hok as Hok'. apply Forall_cons_1 in Hok' as [Hh Hd].
  set (body := enc_fixed a ++ an_data a ++ later).
  assert (Eb : forall ls j, dn ++ spelled ls a ++ later ++ j = dn ++ wire ls ++ 0 :: body ++ j).
  { intros ls j. unfold spelled. subst body. rewrite <- !app_assoc. cbn [app]. by rewrite <- !app_assoc. }
  assert (Hbl : length body = (10 + length (an_data a) + length later)%nat).
  { subst body. rewrite !length_app, length_enc_fixed. lia. }
  unfold strip_step. rewrite Eb, length_spelled.
  rewrite c_str_at_mid by (try done; by apply wire_nonzero). cbn [mbind option_bind].
  rewrite wire_app_one, strstr_prefix, length_app. rewrite Z.add_0_r.
  destruct dom as [|d0 dom]; [done|]. set (wd := wire (d0 :: dom)) in *. set (wh := wire [host]) in *.
  assert (Hwd : exists x y, wd = x :: y /\ x <> 0).
  { subst wd. rewrite wire_cons. eexists _, _. split; [done|]. apply Forall_cons_1 in Hd as [[Hd _] _]. lia. }
  assert (Hnz : Forall (fun b => 0 < b < 256) wd) by by apply wire_nonzero.
  assert (E0 : dn ++ (wh ++ wd) ++ 0 :: body ++ junk = (dn ++ wh) ++ wd ++ 0 :: body ++ junk) by by rewrite <- !app_assoc.
  rewrite E0. replace (Z.of_nat (length dn) + Z.of_nat (length wh)) with (Z.of_nat (length (dn ++ wh))) by (rewrite length_app; lia).
  destruct Hwd as (x & y & Ewd & Hx).
  assert (Erd : rd ((dn ++ wh) ++ wd ++ 0 :: body ++ junk) (Z.of_nat (length (dn ++ wh))) = Some x)
    by (rewrite Ewd; apply rd_mid).
  rewrite Erd. cbn [mbind option_bind]. rewrite (proj2 (Z.eqb_neq _ _) Hx).
  rewrite c_str_at_mid by done. cbn [mbind option_bind].
  assert (Emv : rd_bytes ((dn ++ wh) ++ wd ++ 0 :: body ++ junk) (Z.of_nat (length (dn ++ wh)) + Z.of_nat (length wd))
    (Z.of_nat (length dn + (length wh + length wd + 11 + length (an_data a)) + length later) -
      (Z.of_nat (length (dn ++ wh)) + Z.of_nat (length wd))) = Some (0 :: body)).
  { rewrite app_assoc. change (0 :: body ++ junk) with ((0 :: body) ++ junk).
    apply rd_bytes_at; rewrite !length_app; cbn [length]; lia. }
  rewrite Emv. cbn [mbind option_bind].
  rewrite (store_append (dn ++ wh) (0 :: body)) by (try done; rewrite length_app; cbn [length]; rewrite length_app; lia).
  cbn [mbind option_bind].
  set (junk' := drop (length (0 :: body)) (wd ++ 0 :: body ++ junk)).
  replace (((dn ++ wh) ++ 0 :: body) ++ junk') with (dn ++ wh ++ 0 :: body ++ junk') by (rewrite <- !app_assoc; done).
  rewrite c_str_at_mid by (try done; apply wire_nonzero; by constructor). cbn [mbind option_bind].
  rewrite (proj2 (Z.ltb_ge _ _)) by (unfold DNS_RR_SIZE; lia).
  set (d1 := dn ++ wh ++ [0]).
  assert (Erl : rd16 (dn ++ wh ++ 0 :: body ++ junk') (Z.of_nat (length dn) + Z.of_nat (length wh) + 1 + 8) =
    Some (Z.of_nat (length (an_data a)))).
  { destruct (fixed_fields d1 a (an_data a ++ later ++ junk') (Z.of_nat (length d1)) (ad_ok _ Ha) eq_refl) as (_ & _ & _ & _ & E).
    replace (Z.of_nat (length dn) + Z.of_nat (length wh) + 1) with (Z.of_nat (length d1))
      by (subst d1; rewrite !length_app; cbn [length]; lia).
    replace (dn ++ wh ++ 0 :: body ++ junk') with (d1 ++ enc_fixed a ++ an_data a ++ later ++ junk'); [done|].
    subst d1 body. rewrite <- !app_assoc. done. }
  rewrite Erl. cbn [mbind option_bind]. exists junk'. split.
  - rewrite <- (Eb [host]). rewrite <- app_assoc. do 3 f_equal.
    + f_equal. rewrite !length_app, length_spelled. fold wh. unfold DNS_RR_SIZE. lia.
    + rewrite !length_app, length_spelled. fold wh. lia.
  - subst junk'. rewrite length_drop, !length_app. cbn [length]. rewrite length_app. lia.
Qed.

Lemma length_spelled_all_ge labels l : (11 * length l <= length (spelled_all labels l))%nat.
Proof.
  induction l as [|a l IH]; [done|]. rewrite spelled_all_cons, length_app, length_spelled. cbn [length]. lia.
Qed.

Lemma strip_loop_run host dom : forall l fuel dn junk,
  Forall label_ok (host :: dom) -> dom <> [] -> Forall address_ok l -> (length l < fuel)%nat ->
  exists junk',
    strip_loop fuel (wire [host]) (dn ++ spelled_all (host :: dom) l ++ junk) (Z.of_nat (length dn))
      (Z.of_nat (length dn + length (spelled_all (host :: dom) l))) =
    Some (inr ((dn ++ spelled_all [host] l) ++ junk', Z.of_nat (length (dn ++ spelled_all [host] l)))).
Proof.
  induction l as [|a l IH]; intros fuel dn junk Hok Hdom Hl Hf; (destruct fuel as [|fuel]; [cbn in Hf; lia|]); cbn [strip_loop].
  { exists junk. cbn [spelled_all map concat length]. rewrite Nat.add_0_r, app_nil_r, Z.ltb_irrefl. done. }
  apply Forall_cons_1 in Hl as [Ha Hl]. rewrite !spelled_all_cons, length_app.
  rewrite (proj2 (Z.ltb_lt _ _)) by (rewrite length_spelled; lia).
  destruct (strip_step_run host dom a (spelled_all (host :: dom) l) dn junk Hok Hdom Ha) as (j1 & E1 & _).
  rewrite Nat.add_assoc. rewrite <- (app_assoc (spelled (host :: dom) a)). rewrite E1. cbn [mbind option_bind].
  destruct (IH fuel (dn ++ spelled [host] a) j1 Hok Hdom Hl) as (j2 & E2); [cbn in Hf; lia|].
  exists j2. rewrite E2. by rewrite <- !app_assoc.
Qed.

(** A reply to a query with a domain appended. *)
Record appended := mk_appended {
  ap_start : list Z;     (** the identifier, the flags and the number of questions *)
  ap_host : list Z;
  ap_domain : list (list Z);
  ap_type : Z;
  ap_answers : list answer;
}.

Definition ap_header (r : appended) : list Z :=
  ap_start r ++ be_bytes16 (Z.of_nat (length (ap_answers r))) ++ be_bytes16 0 ++ be_bytes16 0.

Definition ap_question (r : appended) : list Z := be_bytes16 (ap_type r) ++ be_bytes16 DNS_CLASS_IN.

Definition enc_appended (r : appended) : list Z :=
  ap_header r ++ wire (ap_host r :: ap_domain r) ++ 0 :: ap_question r ++ [] ++ enc_answers (ap_answers r).

(** The reply without the domain, and without compression. *)
Definition enc_bare (r : appended) : list Z :=
  ap_header r ++ wire [ap_host r] ++ 0 :: ap_question r ++ spelled_all [ap_host r] (ap_answers r).

Record appended_ok (r : appended) : Prop := {
  pok_start : length (ap_start r) = 6%nat;
  pok_labels : Forall host_label (ap_host r :: ap_domain r);
  pok_domain : ap_domain r <> [];
  pok_name : Z.of_nat (length (wire (ap_host r :: ap_domain r))) + 1 <= NS_MAXLABEL;
  pok_type : ap_type r = DNS_TYPE_A \/ ap_type r = DNS_TYPE_AAAA;
  pok_answers : Forall address_ok (ap_answers r);
  pok_fit : Z.of_nat (length (ap_host r) + 6 + length (spelled_all (ap_host r :: ap_domain r) (ap_answers r))) <= uncomp_end;
}.

Lemma ap_header_counts pfx r rest :
  appended_ok r ->
  let reply := pfx ++ ap_header r ++ rest in
  rd16 reply (Z.of_nat (length pfx) + hdr_ancount) = Some (Z.of_nat (length (ap_answers r))) /\
  rd16 reply (Z.of_nat (length pfx) + Z.of_nat hdr_nscount) = Some 0 /\
  rd16 reply (Z.of_nat (length pfx) + Z.of_nat hdr_arcount) = Some 0.
Proof.
  intros R reply. subst reply. pose proof (pok_start _ R) as H6. pose proof (pok_fit _ R) as Hf.
  pose proof (length_spelled_all_ge (ap_host r :: ap_domain r) (ap_answers r)). unfold uncomp_end, uncomp_len, NS_MAXDNAME in Hf.
  unfold ap_header, hdr_ancount, hdr_nscount, hdr_arcount. rewrite <- !app_assoc. split_and!.
  - rewrite app_assoc. apply rd16_at; [lia|]. rewrite length_app. lia.
  - rewrite 2!app_assoc. apply rd16_at; [lia|]. rewrite !length_app. change (length (be_bytes16 _)) with 2%nat. lia.
  - rewrite 3!app_assoc. apply rd16_at; [lia|]. rewrite !length_app.
    change (length (be_bytes16 (Z.of_nat _))) with 2%nat. change (length (be_bytes16 0)) with 2%nat. lia.
Qed.

Lemma length_wire_one h : length (wire [h]) = (length h + 1)%nat.
Proof. rewrite wire_cons. cbn [length]. rewrite length_app. cbn. lia. Qed.

Lemma length_ap_header r : appended_ok r -> length (ap_header r) = 12%nat.
Proof. intros R. unfold ap_header. rewrite !length_app, (pok_start _ R). done. Qed.

Lemma length_enc_appended r :
  appended_ok r ->
  length (enc_appended r) =
    (12 + length (wire (ap_host r :: ap_domain r)) + 5 + length (enc_answers (ap_answers r)))%nat.
Proof.
  intros R. unfold enc_appended. rewrite !length_app, (length_ap_header r R). cbn [length]. rewrite !length_app. cbn [length].
  change (length (ap_question r)) with 4%nat. lia.
Qed.

(** The copy of the answers, from a reply of the given form. *)
Lemma fixup_uncompress r pfx tail buf fixed :
  appended_ok r -> fixed = wire [ap_host r] ++ 0 :: ap_question r ->
  store 0 fixed (repeat 0 (Z.to_nat NS_MAXDNAME)) = Some buf ->
  exists rest,
    uncompress_sections [Z.of_nat (length (ap_answers r)); 0; 0] (pfx ++ enc_appended r ++ tail) (Z.of_nat (length pfx))
      (Z.of_nat (length pfx + length (enc_appended r)))
      (mk_work buf (Z.of_nat (length fixed))
        (Z.of_nat (length pfx + 12 + length (wire (ap_host r :: ap_domain r)) + 5))) =
    Some (Some (mk_work ((fixed ++ spelled_all (ap_host r :: ap_domain r) (ap_answers r)) ++ rest)
      (Z.of_nat (length (fixed ++ spelled_all (ap_host r :: ap_domain r) (ap_answers r))))
      (Z.of_nat (length pfx + length (enc_appended r))))) /\
    Z.of_nat (length ((fixed ++ spelled_all (ap_host r :: ap_domain r) (ap_answers r)) ++ rest)) = NS_MAXDNAME.
Proof.
  intros R Efx Est. pose proof (pok_fit _ R) as Hf. pose proof (length_ap_header r R) as Hh.
  pose proof (length_spelled_all_ge (ap_host r :: ap_domain r) (ap_answers r)) as Hge.
  assert (Hfx : length fixed = (length (ap_host r) + 6)%nat).
  { subst fixed. rewrite length_app, length_wire_one. cbn [length]. change (length (ap_question r)) with 4%nat. lia. }
  unfold uncomp_end, uncomp_len in *.
  assert (Hz : length (repeat 0 (Z.to_nat NS_MAXDNAME)) = Z.to_nat NS_MAXDNAME) by apply repeat_length.
  set (zs := repeat 0 (Z.to_nat NS_MAXDNAME)) in *.
  change zs with ([] ++ zs) in Est. rewrite store_append in Est by (try done; unfold NS_MAXDNAME in *; lia).
  assert (Ebuf : buf = fixed ++ drop (length fixed) zs) by (cbn [app] in Est; congruence). subst buf.
  destruct (uncompress_loop_run pfx (ap_header r) (ap_host r :: ap_domain r) (ap_question r) (enc_appended r) tail
    (ap_answers r) [] fixed (drop (length fixed) zs)) as (rest & E & Hr); try done; try apply R.
  { rewrite length_app, length_drop. unfold NS_MAXDNAME in *. lia. }
  { rewrite Hfx. unfold uncomp_end, uncomp_len. lia. }
  exists rest. split; [|done]. unfold uncompress_sections, uncompress.
  assert (Es : s16 (Z.of_nat (length (ap_answers r))) = Z.of_nat (length (ap_answers r))).
  { unfold s16. rewrite Z.mod_small; unfold NS_MAXDNAME in *; lia. }
  rewrite Es, Nat2Z.id. rewrite Hh in E. change (length (ap_question r)) with 4%nat in E. cbn [length] in E.
  replace (length pfx + 12 + length (wire (ap_host r :: ap_domain r)) + 5)%nat
    with (length pfx + 12 + length (wire (ap_host r :: ap_domain r)) + 1 + 4 + 0)%nat by lia.
  rewrite E. cbn [mbind option_bind]. done.
Qed.

Lemma ap_lengths r (R : appended_ok r) :
  length (wire (ap_host r :: ap_domain r)) = (length (ap_host r) + 1 + length (wire (ap_domain r)))%nat /\
  (1 <= length (wire (ap_domain r)))%nat /\ (1 <= length (ap_host r))%nat /\
  Z.of_nat (length (wire (ap_host r :: ap_domain r))) <= 62.
Proof.
  pose proof (pok_name _ R) as Hnm. unfold NS_MAXLABEL in Hnm. split_and!.
  - rewrite wire_cons. cbn [length]. rewrite length_app. lia.
  - destruct (ap_domain r) eqn:E; [by pose proof (pok_domain _ R)|]. rewrite wire_cons. cbn [length]. lia.
  - pose proof (pok_labels _ R) as Hl. apply Forall_cons_1 in Hl as [[Hl _] _]. lia.
  - lia.
Qed.

Lemma ap_labels_ok r (R : appended_ok r) : Forall label_ok (ap_host r :: ap_domain r).
Proof. eapply Forall_impl; [apply (pok_labels _ R)|apply host_label_ok]. Qed.

(** What [dns_reply_fixup_domains] reads of such a reply. *)
Section reads.
Context (r : appended) (pfx tail : list Z) (R : appended_ok r).
Let reply : list Z := pfx ++ enc_appended r ++ tail.
Let header_len : Z := Z.of_nat (length pfx) + 12.
Let domain : Z := header_len + Z.of_nat (length (ap_host r)) + 1.
Let qtc : Z := domain + Z.of_nat (length (wire (ap_domain r))) + 1.

Lemma ap_reply_split :
  reply = pfx ++ ap_header r ++ wire (ap_host r :: ap_domain r) ++ 0 :: ap_question r ++ enc_answers (ap_answers r) ++ tail.
Proof. subst reply. unfold enc_appended. rewrite <- !app_assoc. cbn [app]. by rewrite <- !app_assoc. Qed.

Lemma ap_read_name :
  rd reply header_len = Some (Z.of_nat (length (ap_host r))) /\
  rd_bytes reply header_len (Z.of_nat (length (ap_host r)) + 1) = Some (wire [ap_host r]) /\
  rd_bytes reply 0 header_len = Some (pfx ++ ap_header r) /\
  rd_bytes reply domain (Z.of_nat (length pfx + length (enc_appended r)) - domain) =
    Some (wire (ap_domain r) ++ 0 :: ap_question r ++ enc_answers (ap_answers r)).
Proof.
  pose proof (length_ap_header r R) as Hh. destruct (ap_lengths r R) as (Hw & _). pose proof (length_wire_one (ap_host r)) as Hw1.
  pose proof (length_enc_appended r R) as Hlen.
  assert (Hp : header_len = Z.of_nat (length (pfx ++ ap_header r))) by (subst header_len; rewrite length_app; lia).
  assert (E1 : reply = (pfx ++ ap_header r) ++ wire [ap_host r] ++
    (wire (ap_domain r) ++ 0 :: ap_question r ++ enc_answers (ap_answers r)) ++ tail).
  { rewrite ap_reply_split, wire_app_one. rewrite <- !app_assoc. cbn [app]. by rewrite <- !app_assoc. }
  rewrite E1. split_and!.
  - rewrite Hp, wire_cons. apply rd_mid.
  - apply rd_bytes_at; lia.
  - apply (rd_bytes_at []); [done|lia].
  - rewrite app_assoc. apply rd_bytes_at; [subst domain; rewrite !length_app; lia|].
    subst domain header_len. rewrite Hlen, length_app. cbn [length]. rewrite length_app.
    change (length (ap_question r)) with 4%nat. lia.
Qed.

Lemma ap_read_question :
  rd16 reply qtc = Some (ap_type r) /\ rd16 reply (qtc + 2) = Some DNS_CLASS_IN /\
  rd_bytes reply qtc 4 = Some (ap_question r).
Proof.
  pose proof (length_ap_header r R) as Hh. destruct (ap_lengths r R) as (Hw & _).
  set (pre := pfx ++ ap_header r ++ wire (ap_host r :: ap_domain r) ++ [0]).
  assert (HQ : qtc = Z.of_nat (length pre)) by (subst qtc domain header_len pre; rewrite !length_app; cbn [length]; lia).
  assert (E3 : reply = pre ++ ap_question r ++ enc_answers (ap_answers r) ++ tail).
  { rewrite ap_reply_split. subst pre. by rewrite <- !app_assoc. }
  rewrite E3. split_and!; [| |by apply rd_bytes_at].
  - unfold ap_question. rewrite <- app_assoc. apply rd16_at; [|done]. destruct (pok_type _ R) as [-> | ->]; done.
  - unfold ap_question. rewrite <- app_assoc, app_assoc. apply rd16_at; [done|]. rewrite length_app.
    change (length (be_bytes16 _)) with 2%nat. lia.
Qed.
End reads.

(** The second half: from the copied answers to the new reply. *)
Lemma fixup_strip r rest :
  appended_ok r ->
  let fixed := wire [ap_host r] ++ 0 :: ap_question r in
  let buf := (fixed ++ spelled_all (ap_host r :: ap_domain r) (ap_answers r)) ++ rest in
  c_str_at buf 0 = Some (wire [ap_host r]) /\
  exists junk, strip_domains (wire [ap_host r]) buf (Z.of_nat (length fixed))
      (Z.of_nat (length (fixed ++ spelled_all (ap_host r :: ap_domain r) (ap_answers r))) - Z.of_nat (length fixed)) =
    Some (inr ((fixed ++ spelled_all [ap_host r] (ap_answers r)) ++ junk,
      Z.of_nat (length (spelled_all [ap_host r] (ap_answers r))))).
Proof.
  intros R fixed buf. pose proof (ap_labels_ok r R) as Hok. subst buf. set (sp := spelled_all (_ :: _) (ap_answers r)). split.
  - replace ((fixed ++ sp) ++ rest) with ([] ++ wire [ap_host r] ++ 0 :: ap_question r ++ sp ++ rest)
      by (subst fixed; rewrite <- !app_assoc; done).
    apply c_str_at_mid; [|done]. apply wire_nonzero. apply Forall_cons_1 in Hok as [? _]. by constructor.
  - unfold strip_domains.
    replace (Z.of_nat (length fixed) + (Z.of_nat (length (fixed ++ sp)) - Z.of_nat (length fixed)))
      with (Z.of_nat (length fixed + length sp)) by (rewrite length_app; lia).
    rewrite <- app_assoc.
    destruct (strip_loop_run (ap_host r) (ap_domain r) (ap_answers r) (S (length (fixed ++ sp ++ rest))) fixed rest Hok
      (pok_domain _ R) (pok_answers _ R)) as (junk & Es).
    { pose proof (length_spelled_all_ge (ap_host r :: ap_domain r) (ap_answers r)) as Hge. fold sp in Hge.
      rewrite !length_app. lia. }
    fold sp in Es. rewrite Es. exists junk. cbn [mbind option_bind]. rewrite !length_app. do 3 f_equal. lia.
Qed.

(** C39: A reply with addresses for a host and an appended domain, received over UDP or
    TCP, becomes the reply for the bare host: the question and every answer
    lose the domain, and type, class, time to live and data of all answers
    are kept in their order.  The name of host and domain takes 62 bytes of the message at most, which is what
    the buffers for names hold, and the spelled out answers fit the buffer of 1025 bytes; longer names are passed
    on with the domain ([fixup_long_name_kept]). *)
Theorem fixup_removes_domain r pfx tail :
  appended_ok r -> (length pfx <= 2)%nat ->
  dns_reply_fixup_domains (pfx ++ enc_appended r ++ tail) (Z.of_nat (length pfx + length (enc_appended r)))
    (Z.of_nat (length pfx)) true = Some (Fix_new (pfx ++ enc_bare r)).
Proof.
  intros R Hpfx. pose proof (length_enc_appended r R) as Hlen. destruct (ap_lengths r R) as (Hw & Hwd & Hhl & Hnm).
  destruct (ap_read_name r pfx tail R) as (Er & Eh & Ehd & Erest). destruct (ap_read_question r pfx tail R) as (Et & Ec & Eqc).
  unfold dns_reply_fixup_domains, DNS_HEADER_SIZE, DNS_QUESTION_SIZE. rewrite (u16_small (_ + 12)) by lia.
  rewrite (proj2 (Z.ltb_ge _ _)) by lia.
  destruct (ap_header_counts pfx r (wire (ap_host r :: ap_domain r) ++ 0 :: ap_question r ++ enc_answers (ap_answers r) ++ tail) R)
    as (C1 & C2 & C3). rewrite <- (ap_reply_split r pfx tail) in C1, C2, C3.
  rewrite C1, C2, C3. cbn [mbind option_bind]. rewrite Er. cbn [mbind option_bind]. rewrite (proj2 (Z.leb_gt _ _)) by lia.
  rewrite Erest. cbn [mbind option_bind]. rewrite (proj2 (Z.eqb_neq _ _)) by lia. unfold strnlen.
  rewrite upto_nul_app by (apply wire_nonzero; pose proof (ap_labels_ok r R) as Hok; apply Forall_cons_1 in Hok; apply Hok).
  rewrite (u16_small (Z.of_nat _)) by lia. rewrite (proj2 (Z.ltb_ge _ _)) by lia.
  rewrite Et, Ec. cbn [mbind option_bind]. rewrite (proj2 (Z.eqb_neq (Z.of_nat _) 0)) by lia.
  rewrite Z.eqb_refl, !andb_false_r. rewrite Eh, Eqc. cbn [mbind option_bind].
  change (wire [ap_host r] ++ [0] ++ ap_question r) with (wire [ap_host r] ++ 0 :: ap_question r).
  set (fixed := wire [ap_host r] ++ 0 :: ap_question r).
  assert (Hfx : length fixed = (length (ap_host r) + 6)%nat).
  { subst fixed. rewrite length_app, length_wire_one. cbn [length]. change (length (ap_question r)) with 4%nat. lia. }
  destruct (store 0 fixed (repeat 0 (Z.to_nat NS_MAXDNAME))) as [buf|] eqn:Est.
  2:{ rewrite store_in in Est; [done|lia|]. rewrite repeat_length. pose proof (pok_fit _ R).
      unfold uncomp_end, uncomp_len, NS_MAXDNAME in *. lia. }
  cbn [mbind option_bind].
  destruct (fixup_uncompress r pfx tail buf fixed R eq_refl Est) as (rest & Eu & _).
  match goal with |- context [mk_work buf _ ?p] => replace p with
    (Z.of_nat (length pfx + 12 + length (wire (ap_host r :: ap_domain r)) + 5)) by lia end.
  rewrite Eu. cbn [mbind option_bind w_buf w_uptr].
  destruct (fixup_strip r rest R) as (Ename & junk & Es). fold fixed in Ename, Es. rewrite Ename. cbn [mbind option_bind].
  rewrite Es. cbn [mbind option_bind negb]. rewrite Ehd. cbn [mbind option_bind].
  rewrite (rd_bytes_at [] (fixed ++ spelled_all [ap_host r] (ap_answers r)) junk 0) by (try done; rewrite length_app; lia).
  cbn [mbind option_bind]. do 2 f_equal. unfold enc_bare. subst fixed. rewrite <- !app_assoc. done.
Qed.

End fixup.

(** ** The library functions: a reference *)

(** Labels in wire format as text with dots. *)
Fixpoint to_text (fuel : nat) (w : list Z) : list Z :=
  match fuel, w with
  | S fuel, n :: w =>
      let rest := drop (Z.to_nat n) w in
      take (Z.to_nat n) w ++ (match rest with [] => [] | _ => dot :: to_text fuel rest end)
  | _, _ => []
  end.

#[export] Instance resolv_reference : Resolv := {
  dn_expand msg p size :=
    b ← rd msg p; b1 ← rd msg (p + 1);
    if b <? 192 then None
    else
      w ← c_str_at msg ((b - 192) * 256 + b1);
      let text := to_text (length w) w in
      if size <? Z.of_nat (length text) + 1 then None else Some (2, text);
  dn_comp text size :=
    r ← append_data size (text ++ [dot; 0]);
    match r with
    | inl _ => None
    | inr w => if size <? Z.of_nat (length w) + 1 then None else Some (w ++ [0])
    end;
}.
#[global] Remove Hints resolv_reference : typeclass_instances.

Lemma to_text_wire : forall ls fuel, Forall label_ok ls -> (length ls <= fuel)%nat -> ls <> [] ->
  to_text fuel (wire ls) ++ [dot] = dotted ls.
Proof.
  induction ls as [|l ls IH]; intros fuel Hok Hf Hne; [done|]. destruct fuel as [|fuel]; [cbn in Hf; lia|].
  apply Forall_cons_1 in Hok as [[Hl _] Hok]. rewrite wire_cons. cbn [to_text]. rewrite Nat2Z.id, drop_app_length, take_app_length.
  change (dotted (l :: ls)) with ((l ++ [dot]) ++ dotted ls).
  destruct ls as [|l2 ls]; [cbn; by rewrite !app_nil_r|].
  destruct (wire (l2 :: ls)) as [|x w] eqn:Ew; [by rewrite wire_cons in Ew|].
  rewrite <- app_assoc. change ((dot :: to_text fuel (x :: w)) ++ [dot]) with (dot :: (to_text fuel (x :: w) ++ [dot])).
  rewrite IH by (try done; cbn in Hf |- *; lia). by rewrite <- app_assoc.
Qed.

Lemma resolv_reference_laws : @ResolvLaws resolv_reference.
Proof.
  split. intros msg pre ls post p Hm Hpre Hls Hok Hlen E0 E1.
  assert (Hlab : Forall label_ok ls) by (eapply Forall_impl; [exact Hok|apply host_label_ok]).
  assert (Htx : Forall text_label ls).
  { eapply Forall_impl; [exact Hok|]. intros l [Hl Hb]. split; [lia|]. eapply Forall_impl; [exact Hb|].
    intros b. unfold host_byte, dot. lia. }
  assert (Hn : (length ls <= length (wire ls))%nat).
  { clear. induction ls as [|l ls IH]; [done|]. rewrite wire_cons. cbn [length]. rewrite length_app. lia. }
  pose proof (to_text_wire ls (length (wire ls)) Hlab Hn Hls) as Et. set (text := to_text (length (wire ls)) (wire ls)) in *.
  assert (Hdl : length (dotted ls) = length (wire ls)).
  { clear. induction ls as [|l ls IH]; [done|]. change (dotted (l :: ls)) with ((l ++ [dot]) ++ dotted ls).
    rewrite wire_cons. cbn [length]. rewrite !length_app, IH. cbn [length]. lia. }
  assert (Htl : (length text + 1 = length (wire ls))%nat) by (rewrite <- Hdl, <- Et, length_app; done).
  exists text. cbn [dn_expand dn_comp resolv_reference]. rewrite E0, E1. cbn [mbind option_bind].
  pose proof (Z.div_pos (Z.of_nat (length pre)) 256 ltac:(lia) ltac:(lia)).
  rewrite (proj2 (Z.ltb_ge _ _)) by lia.
  replace ((192 + Z.of_nat (length pre) / 256 - 192) * 256 + Z.of_nat (length pre) mod 256) with (Z.of_nat (length pre))
    by (pose proof (Z.div_mod (Z.of_nat (length pre)) 256); lia).
  rewrite Hm, c_str_at_mid by (try done; by apply wire_nonzero). cbn [mbind option_bind]. fold text. split.
  - by rewrite (proj2 (Z.ltb_ge _ _)) by lia.
  - intros size Hs. replace (text ++ [dot; 0]) with (dotted ls ++ [0]) by (rewrite <- Et, <- app_assoc; done).
    rewrite (append_data_spec ls size []) by (try done; lia). rewrite (proj2 (Z.leb_le _ _)) by lia. cbn [mbind option_bind].
    by rewrite (proj2 (Z.ltb_ge _ _)) by lia.
Qed.

(** ** A reply for [www] in the domain [example.com] *)

Definition demo_appended : appended :=
  mk_appended [18; 52; 129; 128; 0; 1] [119; 119; 119] example_com DNS_TYPE_A [demo_answer 1; demo_answer 2].

Lemma demo_appended_ok : appended_ok demo_appended.
Proof.
  split; try done.
  - repeat first [apply List.Forall_nil | apply List.Forall_cons | split | progress cbn | unfold host_byte; lia | lia].
  - by left.
  - repeat (apply List.Forall_cons || apply List.Forall_nil); (split; [concrete_labels|by left|done|cbn; lia]).
Qed.

Lemma fixup_removes_domain_witness :
  @dns_reply_fixup_domains resolv_reference ([] ++ enc_appended demo_appended ++ [])
    (Z.of_nat (0 + length (enc_appended demo_appended))) 0 true = Some (Fix_new ([] ++ enc_bare demo_appended)).
Proof.
  refine (@fixup_removes_domain resolv_reference resolv_reference_laws demo_appended [] [] demo_appended_ok _). cbn. lia.
Defined.

(** ** Where it does not do what it means to *)

(** The length of an address is put together from signed bytes: with 128 to 255 bytes of
    data it is negative, passes both tests of the size and is the size of a copy. *)
Definition big_address : answer := mk_answer DNS_TYPE_A 1 600 (repeat 1 200).

Definition big_appended : appended :=
  mk_appended [18; 52; 129; 128; 0; 1] [119; 119; 119] example_com DNS_TYPE_A [big_address].

Lemma fixup_negative_length :
  be_chars 0 200 = -56 /\
  @dns_reply_fixup_domains resolv_reference (enc_appended big_appended)
    (Z.of_nat (length (enc_appended big_appended))) 0 true = None.
Proof. split; by vm_compute. Qed.

(** The buffers for names have the size of a label: with a domain of more than 62 bytes together with the host the reply is passed on with the domain. *)
Definition long_appended : appended :=
  mk_appended [18; 52; 129; 128; 0; 1] [119; 119; 119] (repeat 97 50 :: example_com) DNS_TYPE_A [demo_answer 1].

Lemma fixup_long_name_kept :
  @dns_reply_fixup_domains resolv_reference (enc_appended long_appended)
    (Z.of_nat (length (enc_appended long_appended))) 0 true = Some Fix_keep.
Proof. by vm_compute. Qed.

(** The data of a record of another type is not skipped: what follows the fixed part of a TXT record is
    taken for the name of the next record, and the reply is passed on with the domain. *)
Definition txt_appended : appended :=
  mk_appended [18; 52; 129; 128; 0; 1] [119; 119; 119] example_com DNS_TYPE_A
    [mk_answer 16 1 600 [1; 65]; demo_answer 1].

Lemma fixup_other_type_kept :
  @dns_reply_fixup_domains resolv_reference (enc_appended txt_appended)
    (Z.of_nat (length (enc_appended txt_appended))) 0 true = Some Fix_keep.
Proof. by vm_compute. Qed.

End DnsFixup.
