(* ===== verification/DnsForward.v ===== *)
(** * Forwarding of DNS requests (src/dnsproxy.c)

    The proxy takes the query of a client, answers it from the cache or sends
    it to every enabled server under an identifier of its own, and relays the
    first useful reply under the identifier of the client.  A timer ends every
    request.  This file has the requests, the list of servers and the handlers for
    UDP; [DnsCache] is the cache they share and [DnsFixup] what is done to
    replies when a domain was appended.

    Requests are objects with an address, as they stay allocated after they have
    left the list.  A domain is the memory from its first byte to the end of the
    object it is in, terminator included. *)

From S2P Require Import Prelude Inet Buffer Effects Glib DnsMessage DnsCache DnsFixup.
From stdpp Require Import list gmap.
Import DnsMessage.
Open Scope Z_scope.

Module DnsForward.
Import DnsCache (protocol, UDP, TCP, protocol_offset, DNS_HEADER_TCP_EXTRA_BYTES).
Import DnsFixup (Resolv).

Definition ENODEV : Z := 19.
Definition DNS_QTYPE_QCLASS_SIZE : Z := 4.
Definition DNS_CLASS_ANY : Z := 255.

Record server_data := mk_server {
  sv_id : Z;               (** the address of the object *)
  sv_index : Z;
  domains : list (list Z);
  server : list Z;
  sv_protocol : protocol;
  channel : option Z;      (** the file descriptor *)
  enabled : bool;
}.

Record request_data := mk_req {
  rq : DnsCache.request;   (** protocol, sockets and the identifier of the client *)
  dstid : list Z;
  altid : list Z;
  timeout : bool;          (** its timer is pending *)
  numserv : Z;
  numresp : Z;
  request : option (list Z);
  request_len : Z;
  name : list Z;
  resp : option (list Z);
  append_domain : bool;
}.

Record proxy := mk_proxy {
  cache : DnsCache.state;
  server_list : list server_data;
  heap : gmap Z request_data;
  request_list : list Z;
  fresh : Z;               (** addresses from here on are free *)
}.

Definition srcid (r : request_data) : list Z := DnsCache.rq_srcid (rq r).
Definition req_protocol (r : request_data) : protocol := DnsCache.rq_protocol (rq r).

(** Where the answer to a request goes; [get_req_udp_socket] for UDP. *)
Definition client_socket (r : request_data) : Z :=
  match req_protocol r with UDP => DnsCache.rq_udp_sk (rq r) | TCP => DnsCache.rq_client_sk (rq r) end.

Inductive output :=
| To_client (sk : Z) (bytes : list Z)
| To_server (sk : Z) (bytes : list Z)
| Lookup_hostname (family6 : bool) (name : list Z)
| Disconnect (sk : Z).     (** the TCP client is removed *)

(** The world during one call: the clock, the allocator, whether a message can be sent on a
    socket, the socket for a server or the error, whether the text is an address, and the
    services of an index. *)
Record env := mk_env {
  now : Z;
  alloc_ok : bool;
  send_ok : Z -> bool;
  open_socket : list Z -> Z + Z;
  is_address : list Z -> bool;
  index_is_default : Z -> bool;
  index_is_split_routing : Z -> bool;
}.

Definition cache_env (e : env) : DnsCache.env := DnsCache.mk_env (now e) (alloc_ok e).

(** ** Parts of the state *)

Definition set_dns_cache (c : DnsCache.state) (p : proxy) : proxy :=
  mk_proxy c (server_list p) (heap p) (request_list p) (fresh p).
Definition set_servers (l : list server_data) (p : proxy) : proxy :=
  mk_proxy (cache p) l (heap p) (request_list p) (fresh p).
Definition set_heap (h : gmap Z request_data) (p : proxy) : proxy :=
  mk_proxy (cache p) (server_list p) h (request_list p) (fresh p).
Definition set_requests (l : list Z) (p : proxy) : proxy :=
  mk_proxy (cache p) (server_list p) (heap p) l (fresh p).

Definition with_numserv (n : Z) (r : request_data) : request_data :=
  mk_req (rq r) (dstid r) (altid r) (timeout r) n (numresp r) (request r) (request_len r) (name r) (resp r) (append_domain r).
Definition with_numresp (n : Z) (r : request_data) : request_data :=
  mk_req (rq r) (dstid r) (altid r) (timeout r) (numserv r) n (request r) (request_len r) (name r) (resp r) (append_domain r).
Definition with_append_domain (b : bool) (r : request_data) : request_data :=
  mk_req (rq r) (dstid r) (altid r) (timeout r) (numserv r) (numresp r) (request r) (request_len r) (name r) (resp r) b.
Definition with_resp (b : option (list Z)) (r : request_data) : request_data :=
  mk_req (rq r) (dstid r) (altid r) (timeout r) (numserv r) (numresp r) (request r) (request_len r) (name r) b (append_domain r).
Definition with_request (b : option (list Z)) (n : list Z) (t : bool) (r : request_data) : request_data :=
  mk_req (rq r) (dstid r) (altid r) t (numserv r) (numresp r) b (request_len r) n (resp r) (append_domain r).
Definition with_timeout (t : bool) (r : request_data) : request_data :=
  mk_req (rq r) (dstid r) (altid r) t (numserv r) (numresp r) (request r) (request_len r) (name r) (resp r) (append_domain r).

Definition M (A : Type) : Type := pprog proxy output A.

(** The request behind a pointer; a pointer to memory that was freed fails. *)
Definition load (id : Z) : M request_data := fun p =>
  match heap p !! id with
  | None => None
  | Some r => Some (r, p, [])
  end.

Definition update (id : Z) (f : request_data -> request_data) : M unit :=
  r ← load id; pmodify (fun p => set_heap (<[id := f r]> (heap p)) p).

(** An operation of the cache. *)
Definition from_cache (o : DnsCache.output) : output :=
  match o with
  | DnsCache.Lookup_hostname b n => Lookup_hostname b n
  | DnsCache.Send sk b => To_client sk b
  end.

Definition on_cache {A} (f : DnsCache.state -> option (A * DnsCache.state * list DnsCache.output)) : M A := fun p =>
  match f (cache p) with
  | None => None
  | Some (a, c, o) => Some (a, set_dns_cache c p, map from_cache o)
  end.

(** ** Lookups *)

(** The outer [None]: an element of the list has been freed. *)
Fixpoint find_request (h : gmap Z request_data) (id : list Z) (l : list Z) : option (option Z) :=
  match l with
  | [] => Some None
  | r :: l =>
      x ← h !! r;
      if bytes_eqb (dstid x) id || bytes_eqb (altid x) id then Some (Some r) else find_request h id l
  end.

#[global] Instance protocol_eq_dec : EqDecision protocol.
Proof. solve_decision. Defined.

Definition find_server (l : list server_data) (index : Z) (name : list Z) (p : protocol) : option server_data :=
  List.find (fun d =>
    if (index <? 0) && (sv_index d <? 0) && bytes_eqb (server d) name && bool_decide (sv_protocol d = p) then true
    else if (index <? 0) || (sv_index d <? 0) then false
    else (sv_index d =? index) && bytes_eqb (server d) name && bool_decide (sv_protocol d = p)) l.

(** ** Requests *)

(** The error reply: the header of the query with the code SERVFAIL; the buffer is that of
    the request and at least as long as the header. *)
Definition servfail (p : protocol) (buf : list Z) : option (list Z) :=
  let o := Z.to_nat (protocol_offset p) in
  b2 ← rd buf (protocol_offset p + 2); b3 ← rd buf (protocol_offset p + 3);
  let buf := match p with TCP => wr 0 [0; DNS_HEADER_SIZE] buf | UDP => buf end in
  let buf := wr (o + 2) [b2 .| 0x80; (b3 .& 0xf0) .| 2] buf in
  Some (take (o + 12) (wr (o + 4) [0; 0; 0; 0; 0; 0; 0; 0] buf)).

Definition send_response (sk : Z) (buf : list Z) (len : Z) (p : protocol) : M unit :=
  if len <? DNS_HEADER_SIZE + protocol_offset p then pskip
  else
    bytes ← plift (servfail p buf);
    pemit (To_client sk bytes).

Definition destroy_request_data (id : Z) : M unit :=
  load id;; pmodify (fun p => set_heap (delete id (heap p)) p).

(** The timer of a request. *)
Definition request_timeout (id : Z) : M unit :=
  r ← load id;
  pmodify (fun p => set_requests (g_list_remove id (request_list p)) p);;
  (if client_socket r <? 0 then pskip
   else
     (match resp r, request r with
      | Some (b :: bs), _ => pemit (To_client (client_socket r) (b :: bs))
      | _, Some q =>
          q ← plift (store (protocol_offset (req_protocol r)) (srcid r) q);
          send_response (client_socket r) q (request_len r) (req_protocol r)
      | _, None => pskip
      end);;
     match req_protocol r with
     | TCP => pemit (Disconnect (client_socket r))
     | UDP => pskip
     end);;
  destroy_request_data id.

(** [strchr (lookup, '.')] is there and not the last byte. *)
Fixpoint inner_dot (l : list Z) : bool :=
  match l with
  | [] => false
  | b :: l => if b =? dot then bool_decide (l <> []) else inner_dot l
  end.

(** The message with a domain appended, in a buffer of 1024 bytes: [inl] is an error. *)
Definition alt_message (p : protocol) (alt_id : list Z) (req : list Z) (req_len : Z) (lookup domain : list Z) :
    option (Z + list Z) :=
  text ← c_str domain;
  let offset := protocol_offset p in
  let domlen := Z.of_nat (length text) + 1 in
  if domlen <? 5 then Some (inl (- EINVAL))
  else
    hdr ← rd_bytes req (offset + 2) (DNS_HEADER_SIZE - 2);
    let hdr := wr 2 [0; 1] hdr in
    r ← append_query (1024 - DNS_HEADER_SIZE - offset) (lookup ++ [0]) domain;
    match r with
    | inl _ => Some (inl (- EINVAL))
    | inr bytes =>
        let altlen := Z.of_nat (length bytes) - 1 + DNS_HEADER_SIZE + offset in
        rest ← rd_bytes req (altlen - domlen) (req_len - altlen + domlen);
        let len_hdr := match p with
                       | UDP => []
                       | TCP => be_bytes16 (u16 (req_len + domlen - DNS_HEADER_TCP_EXTRA_BYTES))
                       end in
        let alt := len_hdr ++ alt_id ++ hdr ++ take (length bytes - 1) bytes ++ rest in
        if 1024 <? Z.of_nat (length alt) then None else Some (inr alt)
    end.

(** The loop over the domains of a server. *)
Fixpoint send_domains (e : env) (sk : Z) (p : protocol) (id : Z) (req : list Z) (lookup : list Z) (l : list (list Z)) : M Z :=
  match l with
  | [] => mret 0
  | d :: l =>
      r ← load id;
      m ← plift (alt_message p (altid r) req (request_len r) lookup d);
      match m with
      | inl err => mret err
      | inr alt =>
          if negb (send_ok e sk) then mret (- EIO)
          else
            pemit (To_server sk alt);;
            update id (fun r => with_numserv (numserv r + 1) r);;
            send_domains e sk p id req lookup l
      end
  end.

(** [req] is the memory of the query; [lookup] its name as text.  A server without a channel cannot
    be used. *)
Definition ns_resolv (e : env) (srv : server_data) (id : Z) (req lookup : list Z) : M Z :=
  if bool_decide (lookup = []) then mret (- EINVAL)
  else
    r ← load id;
    err ← on_cache (DnsCache.ns_try_resolv_from_cache (cache_env e) (rq r) req);
    if 0 <? err then mret 1
    else if negb (err =? 0) then mret err
    else
      sk ← plift (channel srv);
      if negb (send_ok e sk) then mret (- EIO)
      else
        bytes ← plift (rd_bytes req 0 (request_len r));
        pemit (To_server sk bytes);;
        update id (fun r => with_numserv (numserv r + 1) r);;
        if inner_dot lookup then mret 0
        else
          (if bool_decide (domains srv <> []) then update id (with_append_domain true) else pskip);;
          send_domains e sk (sv_protocol srv) id req lookup (domains srv).

(** ** Replies *)

Section replies.
Context `{!GLib} `{!Resolv}.

Definition lookup_request (reply : list Z) (len : Z) (p : protocol) : M (option Z) :=
  if len <? DNS_HEADER_SIZE + protocol_offset p then mret None
  else
    hid ← plift (rd_bytes reply (protocol_offset p) 2);
    st ← pget (fun p => p);
    found ← plift (find_request (heap st) hid (request_list st));
    match found with
    | None => mret None
    | Some id => update id (fun r => with_numresp (numresp r + 1) r);; mret (Some id)
    end.

(** The reply that is kept for the client, and cached; [inl] ends the handler. *)
Definition keep_reply (e : env) (reply : list Z) (reply_len : Z) (p : protocol) (id : Z) : M (Z + unit) :=
  r ← load id;
  qdcount ← plift (rd16 reply (protocol_offset p + hdr_qdcount));
  fix_ ← (if append_domain r && (qdcount =? 1)
          then plift (DnsFixup.dns_reply_fixup_domains reply reply_len (protocol_offset p) (alloc_ok e))
          else mret DnsFixup.Fix_keep);
  match fix_ with
  | DnsFixup.Fix_error err => mret (inl err)
  | _ =>
      let '(buf, len) := match fix_ with
                         | DnsFixup.Fix_new b => (b, Z.of_nat (length b))
                         | _ => (reply, reply_len)
                         end in
      if negb (alloc_ok e) then update id (with_resp None);; mret (inl (- ENOMEM))
      else
        bytes ← plift (rd_bytes buf 0 len);
        update id (with_resp (Some bytes));;
        on_cache (DnsCache.cache_update (cache_env e) p buf len);;
        mret (inr tt)
  end.

(** The return value: the bytes sent, or the error. *)
Definition forward_dns_reply (e : env) (reply : list Z) (reply_len : Z) (p : protocol) (id : Z) : M Z :=
  let offset := protocol_offset p in
  r ← load id;
  reply ← plift (store offset (srcid r) reply);
  b3 ← plift (rd reply (offset + Z.of_nat hdr_rcode));
  let rcode := b3 .& 0x0f in
  kept ← (if (rcode =? 0) || bool_decide (resp r = None) then keep_reply e reply reply_len p id else mret (inr tt));
  match kept with
  | inl err => mret err
  | inr _ =>
      r ← load id;
      ancount ← plift (rd16 reply (offset + hdr_ancount));
      if (numresp r <? numserv r) && ((0 <? rcode) || ((ancount =? 0) && append_domain r)) then mret (- EINVAL)
      else
        pmodify (fun st => set_requests (g_list_remove id (request_list st)) st);;
        match resp r with
        | None => mret (- EIO)
        | Some b =>
            let b := match p with
                     | UDP => b
                     | TCP => wr 0 (be_bytes16 (u16 (Z.of_nat (length b) - DNS_HEADER_TCP_EXTRA_BYTES))) b
                     end in
            update id (with_resp (Some b));;
            if (match p with UDP => client_socket r <? 0 | TCP => false end) then mret (- EIO)
            else if negb (send_ok e (client_socket r)) then mret (-1)
            else pemit (To_client (client_socket r) b);; mret (Z.of_nat (length b))
        end
  end.

(** A message of [len] bytes from a server, in the buffer [buf] of the handler. *)
Definition udp_server_event (e : env) (buf : list Z) (len : Z) : M unit :=
  if len <=? 0 then pskip
  else
    found ← lookup_request buf len UDP;
    match found with
    | None => pskip
    | Some id =>
        res ← forward_dns_reply e buf len UDP id;
        r ← load id;
        if (res =? 0) || (numserv r <=? numresp r) then destroy_request_data id else pskip
    end.

(** ** Queries *)

(** What [strncat] copies: up to [n] bytes, and none from a zero on. *)
Definition label_text (buf : list Z) (p n : Z) : option (list Z) :=
  let avail := slice (Z.to_nat p) (Z.to_nat n) buf in
  if (Z.of_nat (length avail) <? n) && (length (upto_nul avail) =? length avail)%nat then None
  else Some (upto_nul avail).

(** The loop of [parse_request]: the error, or the name and what is behind the question. *)
Fixpoint request_name (fuel : nat) (buf : list Z) (ptr remain used : Z) (name : list Z) (size : Z) :
    option (Z + list Z * Z * Z) :=
  match fuel with
  | O => None
  | S fuel =>
      if remain =? 0 then Some (inr (name, ptr, remain))
      else
        label_len ← rd buf ptr;
        if label_len =? 0 then
          if remain <? DNS_QTYPE_QCLASS_SIZE then Some (inl (- EINVAL))
          else
            class ← rd16 buf (ptr + 3);
            if negb (class =? DnsFixup.DNS_CLASS_IN) && negb (class =? DNS_CLASS_ANY) then Some (inl (- EINVAL))
            else Some (inr (name, ptr + 5, u64 (remain - 5)))
        else if size <? used + label_len + 1 then Some (inl (- ENOBUFS))
        else
          bytes ← label_text buf (ptr + 1) label_len;
          let name := name ++ bytes ++ [dot] in
          if size <=? Z.of_nat (length name) then None
          else request_name fuel buf (ptr + label_len + 1) (u64 (remain - (label_len + 1)))
                 (used + label_len + 1) name size
  end.

(** The name of a query as text, in a buffer of [size] bytes; the terminator of the name has to
    fit too. *)
Definition parse_request (buf : list Z) (len size : Z) : option (Z + list Z) :=
  if len <? DNS_HEADER_SIZE + DNS_QTYPE_QCLASS_SIZE then Some (inl (- EINVAL))
  else
    flags ← rd buf (Z.of_nat hdr_flags);
    qdcount ← rd16 buf hdr_qdcount; ancount ← rd16 buf hdr_ancount;
    nscount ← rd16 buf (Z.of_nat hdr_nscount); arcount ← rd16 buf (Z.of_nat hdr_arcount);
    if (flags .>> 7 =? 1) || negb (qdcount =? 1) || negb (ancount =? 0) || negb (nscount =? 0)
    then Some (inl (- EINVAL))
    else
      r ← request_name (S (length buf)) buf DNS_HEADER_SIZE (len - DNS_HEADER_SIZE) 0 [] size;
      match r with
      | inl err => Some (inl err)
      | inr (name, ptr, remain) =>
          if negb (arcount =? 0) && (DNS_RR_SIZE + 1 <=? remain) then
            b0 ← rd buf ptr; b1 ← rd buf (ptr + 1); b2 ← rd buf (ptr + 2);
            Some (inr name)
          else Some (inr name)
      end.

(** ** Servers *)

Definition update_server (id : Z) (f : server_data -> server_data) (p : proxy) : proxy :=
  set_servers (map (fun d => if sv_id d =? id then f d else d) (server_list p)) p.

Definition with_channel (c : option Z) (d : server_data) : server_data :=
  mk_server (sv_id d) (sv_index d) (domains d) (server d) (sv_protocol d) c (enabled d).
Definition with_enabled (b : bool) (d : server_data) : server_data :=
  mk_server (sv_id d) (sv_index d) (domains d) (server d) (sv_protocol d) (channel d) b.
Definition with_domains (l : list (list Z)) (d : server_data) : server_data :=
  mk_server (sv_id d) (sv_index d) l (server d) (sv_protocol d) (channel d) (enabled d).

Definition with_cache (f : DnsCache.state -> DnsCache.state) (p : proxy) : proxy := set_dns_cache (f (cache p)) p.

Definition server_destroy_socket (id : Z) : M unit := pmodify (update_server id (with_channel None)).

(** An error or hang-up on the socket of a server. *)
Definition udp_server_error (id : Z) : M unit := server_destroy_socket id.

(** The socket of a server; the cache has one more user. *)
Definition server_create_socket (e : env) (d : server_data) : M (Z + server_data) :=
  match open_socket e (server d) with
  | inl err => mret (inl (- err))
  | inr fd => pmodify (with_cache DnsCache.create_cache);; mret (inr (with_channel (Some fd) d))
  end.

Definition destroy_server (id : Z) : M unit :=
  pmodify (fun p => set_servers (List.filter (fun d => negb (sv_id d =? id)) (server_list p)) p);;
  pmodify (with_cache DnsCache.destroy_server_cache).

Definition enable_fallback (enable : bool) (p : proxy) : proxy :=
  set_servers (map (fun d => if sv_index d =? -1 then with_enabled enable d else d) (server_list p)) p.

Definition get_enabled_server_number (p : proxy) : nat :=
  length (List.filter (fun d => negb (sv_index d =? -1) && enabled d) (server_list p)).

(** A server for UDP. *)
Definition create_server (e : env) (index : Z) (domain : option (list Z)) (name : list Z) : M (option server_data) :=
  if negb (alloc_ok e) then mret None
  else
    st ← pget (fun p => p);
    pmodify (fun p => mk_proxy (cache p) (server_list p) (heap p) (request_list p) (fresh p + 1));;
    let d := mk_server (fresh st) index (match domain with Some t => [t] | None => [] end) name UDP None false in
    if negb (is_address e name) then destroy_server (sv_id d);; mret None
    else
      r ← server_create_socket e d;
      match r with
      | inl _ => destroy_server (sv_id d);; mret None
      | inr d =>
          d ← (if index_is_default e index || index_is_split_routing e index then
                 pmodify (enable_fallback false);; mret (with_enabled true d)
               else if (index =? -1) && (get_enabled_server_number st =? 0)%nat then mret (with_enabled true d)
               else mret d);
          pmodify (fun p => set_servers (server_list p ++ [d]) p);;
          mret (Some d)
      end.

(** The query to every enabled server, until one answers from the cache. *)
Fixpoint resolv_loop (e : env) (l : list server_data) (id : Z) (req lookup : list Z) : M bool :=
  match l with
  | [] => mret false
  | d :: l =>
      if bool_decide (sv_protocol d = TCP) || negb (enabled d) then resolv_loop e l id req lookup
      else
        r ← (match channel d with
             | Some _ => mret (inr d)
             | None =>
                 r ← server_create_socket e d;
                 match r with
                 | inl err => mret (inl err)
                 | inr d => pmodify (update_server (sv_id d) (with_channel (channel d)));; mret (inr d)
                 end
             end);
        match r with
        | inl _ => resolv_loop e l id req lookup
        | inr d =>
            err ← ns_resolv e d id req lookup;
            if 0 <? err then mret true else resolv_loop e l id req lookup
        end
  end.

Definition resolv (e : env) (id : Z) (req lookup : list Z) : M bool :=
  l ← pget server_list; resolv_loop e l id req lookup.

(** A query of [len] bytes at a listener for UDP, in the buffer [buf] of the handler; [udp_sk] is the
    socket of the listener, [dst] and [alt] are random. *)
Definition udp_listener_event (e : env) (buf : list Z) (len : Z) (udp_sk : Z) (dst alt : list Z) : M unit :=
  if len <? 2 then pskip
  else
    buf ← plift (store len [0] buf);
    q ← plift (parse_request buf len 512);
    l ← pget server_list;
    match q, l with
    | inr query, _ :: _ =>
        if negb (alloc_ok e) then pskip
        else
          src ← plift (rd_bytes buf 0 2);
          id ← pget fresh;
          let r := mk_req (DnsCache.mk_request UDP 0 udp_sk src) dst alt false 0 0 None len [] None false in
          pmodify (fun p => mk_proxy (cache p) (server_list p) (<[id := r]> (heap p)) (request_list p) (id + 1));;
          buf ← plift (store 0 dst buf);
          hit ← resolv e id buf query;
          if hit : bool then destroy_request_data id
          else
            bytes ← plift (rd_bytes buf 0 len);
            update id (with_request (Some bytes) query true);;
            pmodify (fun p => set_requests (request_list p ++ [id]) p)
    | _, _ => send_response udp_sk buf len UDP
    end.

(** ** Changes of the servers *)

(** A domain is added to or removed from the servers of an index. *)
Definition update_domain (index : Z) (domain : option (list Z)) (append : bool) (p : proxy) : proxy :=
  match domain with
  | None => p
  | Some dm =>
      set_servers (map (fun d =>
        if (sv_index d <? 0) || negb (sv_index d =? index) then d
        else
          let found := existsb (fun x => bytes_eqb (upto_nul x) (upto_nul dm)) (domains d) in
          if negb found && append then with_domains (domains d ++ [dm]) d
          else if found && negb append then
            with_domains ((fix remove l := match l with
                           | [] => []
                           | x :: l => if bytes_eqb (upto_nul x) (upto_nul dm) then l else x :: remove l
                           end) (domains d)) d
          else d) (server_list p)) p
  end.

(** The waiting requests are sent to a new server. *)
Fixpoint flush_loop (e : env) (d : server_data) (l : list Z) : M unit :=
  match l with
  | [] => pskip
  | id :: l =>
      r ← load id;
      req ← plift (request r);
      err ← ns_resolv e d id req (name r);
      (if negb (err =? 0) then
         pmodify (fun p => set_requests (g_list_remove id (request_list p)) p);;
         destroy_request_data id
       else update id (with_timeout true));;
      flush_loop e d l
  end.

Definition flush_requests (e : env) (d : server_data) : M unit :=
  l ← pget request_list; flush_loop e d l.

Definition localhost4 : list Z := [49; 50; 55; 46; 48; 46; 48; 46; 49].
Definition localhost6 : list Z := [58; 58; 49].

Definition __connman_dnsproxy_append (e : env) (index : Z) (domain name : option (list Z)) : M Z :=
  match name with
  | None =>
      match domain with
      | None => mret (- EINVAL)
      | Some _ => pmodify (update_domain index domain true);; mret 0
      end
  | Some name =>
      if bytes_eqb name localhost4 || bytes_eqb name localhost6 then mret (- ENODEV)
      else
        l ← pget server_list;
        match find_server l index name UDP with
        | Some _ => pmodify (update_domain index domain true);; mret 0
        | None =>
            d ← create_server e index domain name;
            match d with
            | None => mret (- EIO)
            | Some d => flush_requests e d;; mret 0
            end
        end
  end.

Definition remove_server (index : Z) (name : list Z) (p : protocol) : M unit :=
  l ← pget server_list;
  match find_server l index name p with
  | None => pskip
  | Some d =>
      destroy_server (sv_id d);;
      n ← pget get_enabled_server_number;
      if (n =? 0)%nat then pmodify (enable_fallback true) else pskip
  end.

Definition __connman_dnsproxy_remove (index : Z) (domain name : option (list Z)) : M Z :=
  match name with
  | None =>
      match domain with
      | None => mret (- EINVAL)
      | Some _ => pmodify (update_domain index domain false);; mret 0
      end
  | Some name =>
      if bytes_eqb name localhost4 || bytes_eqb name localhost6 then mret (- ENODEV)
      else remove_server index name UDP;; remove_server index name TCP;; mret 0
  end.

Definition invalidate_cache (e : env) : M unit := pmodify (with_cache (DnsCache.cache_invalidate (cache_env e))).

Definition refresh_cache (e : env) : M unit :=
  on_cache (fun c => '(c, o) ← DnsCache.cache_refresh (cache_env e) c; Some (tt, c, o)).

Fixpoint offline_loop (e : env) (offline : bool) (l : list server_data) : M unit :=
  match l with
  | [] => pskip
  | d :: l =>
      pmodify (update_server (sv_id d) (with_enabled (negb offline)));;
      invalidate_cache e;;
      (if offline then pskip else refresh_cache e);;
      offline_loop e offline l
  end.

Definition dnsproxy_offline_mode (e : env) (offline : bool) : M unit :=
  l ← pget server_list; offline_loop e offline l.

(** The service is given by the index of its interface, and the index of its VPN. *)
Definition dnsproxy_default_changed (e : env) (service : option (Z * Z)) : M unit :=
  invalidate_cache e;;
  match service with
  | None => dnsproxy_offline_mode e true
  | Some (index, vpn_index) =>
      if index <? 0 then pskip
      else
        pmodify (fun p => set_servers (map (fun d =>
          with_enabled ((sv_index d =? index) || (sv_index d =? vpn_index)) d) (server_list p)) p);;
        l ← pget server_list;
        (if existsb (fun d => sv_index d =? index) l then pskip else pmodify (enable_fallback true));;
        refresh_cache e
  end.

(** A service that disconnects or is idle. *)
Fixpoint remove_servers (index : Z) (l : list server_data) : M unit :=
  match l with
  | [] => pskip
  | d :: l => (if sv_index d =? index then destroy_server (sv_id d) else pskip);; remove_servers index l
  end.

Definition dnsproxy_service_down (index : Z) : M unit :=
  l ← pget server_list; remove_servers index l.

End replies.

(** ** Theory: queries *)

Lemma label_text_mid pre l post p n :
  Forall (fun b => 0 < b < 256) l -> p = Z.of_nat (length pre) -> n = Z.of_nat (length l) ->
  label_text (pre ++ l ++ post) p n = Some l.
Proof.
  intros Hl -> ->. unfold label_text. rewrite !Nat2Z.id, slice_mid. rewrite upto_nul_id by done.
  by rewrite Z.ltb_irrefl.
Qed.

Lemma length_dotted ls : length (dotted ls) = length (wire ls).
Proof.
  induction ls as [|l ls IH]; [done|]. change (dotted (l :: ls)) with ((l ++ [dot]) ++ dotted ls).
  rewrite wire_cons. cbn [length]. rewrite !length_app, IH. cbn [length]. lia.
Qed.

(** The name of a well-formed question is read up to its class. *)
Lemma request_name_run ty cl post size buf : forall ls fuel pre nm,
  buf = pre ++ wire ls ++ 0 :: be_bytes16 ty ++ be_bytes16 cl ++ post ->
  Forall label_ok ls -> (length ls < fuel)%nat -> 0 <= cl < 65536 -> cl = DnsFixup.DNS_CLASS_IN \/ cl = DNS_CLASS_ANY ->
  Z.of_nat (length nm + length (wire ls)) < size -> Z.of_nat (length buf) < 2 ^ 64 ->
  forall extra, 0 <= extra <= Z.of_nat (length post) ->
  request_name fuel buf (Z.of_nat (length pre)) (Z.of_nat (length (wire ls)) + 5 + extra) (Z.of_nat (length nm)) nm size =
    Some (inr (nm ++ dotted ls, Z.of_nat (length pre + length (wire ls)) + 5, extra)).
Proof.
  induction ls as [|l ls IH]; intros fuel pre nm Hbuf Hok Hf Hcl Hc Hsz H64 extra Hx;
    (destruct fuel as [|fuel]; [cbn in Hf; lia|]); cbn [request_name].
  - cbn [wire map concat app length] in *. rewrite (proj2 (Z.eqb_neq _ _)) by lia.
    rewrite Hbuf, rd_mid. cbn [mbind option_bind]. change (0 =? 0) with true. cbv iota.
    rewrite (proj2 (Z.ltb_ge _ _)) by (unfold DNS_QTYPE_QCLASS_SIZE; lia).
    assert (Ec : rd16 (pre ++ 0 :: be_bytes16 ty ++ be_bytes16 cl ++ post) (Z.of_nat (length pre) + 3) = Some cl).
    { replace (pre ++ 0 :: be_bytes16 ty ++ be_bytes16 cl ++ post) with ((pre ++ 0 :: be_bytes16 ty) ++ be_bytes16 cl ++ post)
        by (by rewrite <- app_assoc). apply rd16_at; [done|]. rewrite length_app. cbn [length].
      change (length (be_bytes16 _)) with 2%nat. lia. }
    rewrite Ec. cbn [mbind option_bind].
    assert (Ecl : negb (cl =? DnsFixup.DNS_CLASS_IN) && negb (cl =? DNS_CLASS_ANY) = false) by (destruct Hc as [-> | ->]; done).
    rewrite Ecl. rewrite u64_small; [|rewrite Hbuf, !length_app in H64; cbn [length] in H64; rewrite !length_app in H64; lia].
    rewrite app_nil_r, Nat.add_0_r. do 3 f_equal. lia.
  - apply Forall_cons_1 in Hok as [[Hl Hb] Hok]. rewrite wire_cons in *. cbn [length] in *. rewrite length_app in *.
    set (n := length l) in *. rewrite (proj2 (Z.eqb_neq _ _)) by lia. cbn [app] in Hbuf.
    rewrite Hbuf at 1. rewrite rd_mid. cbn [mbind option_bind]. rewrite (proj2 (Z.eqb_neq _ _)) by lia.
    rewrite (proj2 (Z.ltb_ge _ _)) by lia.
    assert (Eb : buf = (pre ++ [Z.of_nat n]) ++ l ++ wire ls ++ 0 :: be_bytes16 ty ++ be_bytes16 cl ++ post).
    { rewrite Hbuf, <- !app_assoc. done. }
    rewrite Eb at 1. rewrite (label_text_mid (pre ++ [Z.of_nat n]) l) by (try done; rewrite length_app; cbn [length]; lia).
    cbn [mbind option_bind]. rewrite (proj2 (Z.leb_gt _ _)) by (rewrite !length_app; cbn [length]; lia).
    replace (u64 (Z.of_nat (S (n + length (wire ls))) + 5 + extra - (Z.of_nat n + 1)))
      with (Z.of_nat (length (wire ls)) + 5 + extra).
    2:{ rewrite u64_small; [lia|]. rewrite Eb, !length_app in H64. cbn [length] in H64.
        rewrite !length_app in H64. change (length (be_bytes16 ty)) with 2%nat in H64. change (length (be_bytes16 cl)) with 2%nat in H64. lia. }
    replace (Z.of_nat (length pre) + Z.of_nat n + 1) with (Z.of_nat (length ((pre ++ [Z.of_nat n]) ++ l)))
      by (rewrite !length_app; cbn [length]; lia).
    replace (Z.of_nat (length nm) + Z.of_nat n + 1) with (Z.of_nat (length (nm ++ l ++ [dot])))
      by (rewrite !length_app; cbn [length]; lia).
    rewrite (IH fuel ((pre ++ [Z.of_nat n]) ++ l) (nm ++ l ++ [dot])); try done; try lia.
    + change (dotted (l :: ls)) with ((l ++ [dot]) ++ dotted ls). rewrite <- (app_assoc nm).
      replace (Z.of_nat (length ((pre ++ [Z.of_nat n]) ++ l) + length (wire ls)) + 5)
        with (Z.of_nat (length pre + S (n + length (wire ls))) + 5); [done|].
      rewrite !length_app. cbn [length]. lia.
    + rewrite Eb. by rewrite <- !app_assoc.
    + rewrite !length_app. cbn [length]. lia.
Qed.

(** ** A query and its reply *)

Record question := mk_question {
  qn_id : list Z;
  qn_flags : Z;
  qn_more : Z;           (** the second byte of flags *)
  qn_labels : list (list Z);
  qn_type : Z;
  qn_class : Z;
}.

(** The query without the identifier. *)
Definition qn_rest (q : question) : list Z :=
  [qn_flags q; qn_more q] ++ be_bytes16 1 ++ be_bytes16 0 ++ be_bytes16 0 ++ be_bytes16 0 ++
  wire (qn_labels q) ++ 0 :: be_bytes16 (qn_type q) ++ be_bytes16 (qn_class q).

Record question_ok (q : question) : Prop := {
  qok_id : length (qn_id q) = 2%nat;
  qok_flags : 0 <= qn_flags q < 128;
  qok_labels : qn_labels q <> [] /\ Forall label_ok (qn_labels q);
  qok_name : (length (wire (qn_labels q)) < 512)%nat;
  qok_type : 0 <= qn_type q < 65536;
  qok_class : qn_class q = DnsFixup.DNS_CLASS_IN \/ qn_class q = DNS_CLASS_ANY;
}.

Lemma length_qn_rest q : length (qn_rest q) = (15 + length (wire (qn_labels q)))%nat.
Proof.
  unfold qn_rest. rewrite !length_app. cbn [length]. rewrite !length_app.
  repeat change (length (be_bytes16 _)) with 2%nat. cbn [length].
  change (length (be_bytes16 (qn_type q))) with 2%nat. change (length (be_bytes16 (qn_class q))) with 2%nat. lia.
Qed.

Lemma qn_counts q id post :
  question_ok q -> length id = 2%nat ->
  let buf := id ++ qn_rest q ++ post in
  rd buf (Z.of_nat hdr_flags) = Some (qn_flags q) /\ rd16 buf hdr_qdcount = Some 1 /\ rd16 buf hdr_ancount = Some 0 /\
  rd16 buf (Z.of_nat hdr_nscount) = Some 0 /\ rd16 buf (Z.of_nat hdr_arcount) = Some 0.
Proof.
  intros Q Hid buf. subst buf. unfold qn_rest. rewrite <- !app_assoc. cbn [app].
  set (rest := wire (qn_labels q) ++ 0 :: _).
  split_and!.
  - unfold hdr_flags. rewrite <- Hid. apply rd_mid.
  - change (id ++ qn_flags q :: qn_more q :: ?x) with (id ++ [qn_flags q; qn_more q] ++ x). rewrite app_assoc.
    apply rd16_at; [lia|]. rewrite length_app, Hid. done.
  - change (id ++ qn_flags q :: qn_more q :: ?x) with (id ++ [qn_flags q; qn_more q] ++ x). rewrite 2!app_assoc.
    apply rd16_at; [lia|]. rewrite !length_app, Hid. done.
  - change (id ++ qn_flags q :: qn_more q :: ?x) with (id ++ [qn_flags q; qn_more q] ++ x). rewrite 3!app_assoc.
    apply rd16_at; [lia|]. rewrite !length_app, Hid. done.
  - change (id ++ qn_flags q :: qn_more q :: ?x) with (id ++ [qn_flags q; qn_more q] ++ x). rewrite 4!app_assoc.
    apply rd16_at; [lia|]. rewrite !length_app, Hid. done.
Qed.

Lemma parse_request_run q id post :
  question_ok q -> length id = 2%nat -> Z.of_nat (length post) < 65536 ->
  parse_request (id ++ qn_rest q ++ post) (Z.of_nat (2 + length (qn_rest q))) 512 = Some (inr (dotted (qn_labels q))).
Proof.
  intros Q Hid Hpost. pose proof (length_qn_rest q) as Hl. pose proof (qok_name _ Q) as Hn. destruct (qok_labels _ Q) as [_ Hok].
  destruct (qn_counts q id post Q Hid) as (E1 & E2 & E3 & E4 & E5).
  unfold parse_request, DNS_HEADER_SIZE, DNS_QTYPE_QCLASS_SIZE. rewrite (proj2 (Z.ltb_ge _ _)) by lia.
  rewrite E1, E2, E3, E4, E5. cbn [mbind option_bind].
  assert (Ef : (qn_flags q .>> 7 =? 1) = false).
  { pose proof (qok_flags _ Q). rewrite Z.shiftr_div_pow2 by lia. by rewrite Z.div_small by (change (2 ^ 7) with 128; lia). }
  rewrite Ef. cbn [orb negb Z.eqb].
  set (hdr := id ++ [qn_flags q; qn_more q] ++ be_bytes16 1 ++ be_bytes16 0 ++ be_bytes16 0 ++ be_bytes16 0).
  assert (Hh : length hdr = 12%nat) by (subst hdr; rewrite !length_app, Hid; done).
  assert (Eb : id ++ qn_rest q ++ post = hdr ++ wire (qn_labels q) ++ 0 :: be_bytes16 (qn_type q) ++ be_bytes16 (qn_class q) ++ post).
  { subst hdr. unfold qn_rest. rewrite <- !app_assoc. cbn [app]. by rewrite <- !app_assoc. }
  rewrite Eb. set (buf := hdr ++ wire (qn_labels q) ++ _).
  assert (Hbl : length buf = (17 + length (wire (qn_labels q)) + length post)%nat).
  { subst buf. rewrite <- Eb, !length_app, Hl, Hid. lia. }
  assert (Hnl : (length (qn_labels q) <= length (wire (qn_labels q)))%nat).
  { generalize (qn_labels q). clear. induction l as [|x l IH]; [done|]. rewrite wire_cons. cbn [length]. rewrite length_app. lia. }
  replace (Z.of_nat (2 + length (qn_rest q)) - 12) with (Z.of_nat (length (wire (qn_labels q))) + 5 + 0) by lia.
  pose proof (request_name_run (qn_type q) (qn_class q) post 512 buf (qn_labels q) (S (length buf)) hdr [] eq_refl Hok) as E.
  rewrite Hh in E. cbn [length app] in E. change (Z.of_nat 12) with 12 in E. change (Z.of_nat 0) with 0 in E.
  rewrite E; try lia.
  - cbn [mbind option_bind]. done.
  - destruct (qok_class _ Q) as [-> | ->]; done.
  - apply (qok_class _ Q).
Qed.

(** The cache after a query it cannot answer. *)
Definition missed (ty : Z) (c : DnsCache.state) : DnsCache.state :=
  if negb (ty =? DNS_TYPE_A) && negb (ty =? DNS_TYPE_AAAA) then c
  else match DnsCache.cache c with None => DnsCache.create_cache c | Some _ => c end.

Lemma cache_misses e rqs q id post c :
  question_ok q -> length id = 2%nat -> DnsCache.rq_protocol rqs = UDP ->
  DnsCache.entries c !! wire (qn_labels q) = None ->
  DnsCache.ns_try_resolv_from_cache e rqs (id ++ qn_rest q ++ post) c = Some (0, missed (qn_type q) c, []).
Proof.
  intros Q Hid Hp Hn. destruct (qok_labels _ Q) as [_ Hok]. unfold DnsCache.ns_try_resolv_from_cache, DnsCache.cache_check.
  rewrite Hp. cbn [protocol_offset]. set (hdr := id ++ [qn_flags q; qn_more q] ++ be_bytes16 1 ++ be_bytes16 0 ++ be_bytes16 0 ++ be_bytes16 0).
  assert (Hh : length hdr = 12%nat) by (subst hdr; rewrite !length_app, Hid; done).
  assert (Eb : id ++ qn_rest q ++ post = hdr ++ wire (qn_labels q) ++ 0 :: be_bytes16 (qn_type q) ++ be_bytes16 (qn_class q) ++ post).
  { subst hdr. unfold qn_rest. rewrite <- !app_assoc. cbn [app]. by rewrite <- !app_assoc. }
  rewrite Eb. change (0 + DNS_HEADER_SIZE) with 12. rewrite c_str_at_mid; [|by apply wire_nonzero|by rewrite Hh].
  cbn [mbind option_bind].
  assert (Et : rd16 (hdr ++ wire (qn_labels q) ++ 0 :: be_bytes16 (qn_type q) ++ be_bytes16 (qn_class q) ++ post)
    (12 + Z.of_nat (length (wire (qn_labels q))) + 1) = Some (qn_type q)).
  { replace (hdr ++ wire (qn_labels q) ++ 0 :: be_bytes16 (qn_type q) ++ be_bytes16 (qn_class q) ++ post)
      with ((hdr ++ wire (qn_labels q) ++ [0]) ++ be_bytes16 (qn_type q) ++ be_bytes16 (qn_class q) ++ post)
      by (rewrite <- !app_assoc; done).
    apply rd16_at; [apply (qok_type _ Q)|]. rewrite !length_app. cbn [length]. lia. }
  rewrite Et. cbn [mbind option_bind]. unfold missed. destruct (_ && _); [done|].
  unfold DnsCache.entries in Hn. destruct (DnsCache.cache c) as [t|]; [|done]. cbn in Hn. by rewrite Hn.
Qed.

Ltac step := eapply bind_next; [reflexivity|].

Lemma load_run id r st : heap st !! id = Some r -> load id st = Some (r, st, []).
Proof. intros E. unfold load. by rewrite E. Qed.

Lemma update_run id f r st :
  heap st !! id = Some r -> update id f st = Some (tt, set_heap (<[id := f r]> (heap st)) st, []).
Proof. intros E. unfold update. eapply bind_next; [by apply load_run|]. done. Qed.

Lemma plift_run {A} (x : option A) (a : A) (st : proxy) : x = Some a -> plift x st = Some (a, st, @nil output).
Proof. by intros ->. Qed.

(** A server without domains that a query is sent to. *)
Record plain_server (d : server_data) (sk : Z) : Prop := {
  ps_protocol : sv_protocol d = UDP;
  ps_channel : channel d = Some sk;
  ps_domains : domains d = [];
}.

Lemma ns_resolv_run e d sk id r req lookup c st bytes :
  plain_server d sk -> send_ok e sk = true -> lookup <> [] -> heap st !! id = Some r ->
  DnsCache.ns_try_resolv_from_cache (cache_env e) (rq r) req (cache st) = Some (0, c, []) ->
  rd_bytes req 0 (request_len r) = Some bytes ->
  ns_resolv e d id req lookup st =
    Some (0, set_heap (<[id := with_numserv (numserv r + 1) r]> (heap st)) (set_dns_cache c st), [To_server sk bytes]).
Proof.
  intros [Hp Hc Hd] Hsend Hl Hr Hcache Hb. unfold ns_resolv. rewrite bool_decide_eq_false_2 by done.
  eapply bind_next; [by apply load_run|].
  eapply (bind_next _ _ _ 0 (set_dns_cache c st)). { unfold on_cache. by rewrite Hcache. }
  change (0 <? 0) with false. change (negb (0 =? 0)) with false. cbv iota.
  eapply bind_next; [by apply plift_run|]. rewrite Hsend. cbn [negb].
  eapply bind_next; [by apply plift_run|].
  change [To_server sk bytes] with ([To_server sk bytes] ++ []). eapply bind_run; [done|].
  eapply bind_next; [by apply update_run|].
  destruct (inner_dot lookup); [done|]. rewrite Hd. rewrite bool_decide_eq_false_2 by tauto. step. done.
Qed.

Definition waiting (q : question) (usk : Z) (dst alt : list Z) : request_data :=
  mk_req (DnsCache.mk_request UDP 0 usk (qn_id q)) dst alt true 1 0 (Some (dst ++ qn_rest q))
    (Z.of_nat (2 + length (qn_rest q))) (dotted (qn_labels q)) None false.

Lemma query_forwarded e st d sk q pad usk dst alt :
  question_ok q -> length dst = 2%nat -> pad <> [] -> Z.of_nat (length pad) < 65536 ->
  server_list st = [d] -> plain_server d sk -> enabled d = true -> alloc_ok e = true -> send_ok e sk = true ->
  DnsCache.entries (cache st) !! wire (qn_labels q) = None ->
  udp_listener_event e (qn_id q ++ qn_rest q ++ pad) (Z.of_nat (2 + length (qn_rest q))) usk dst alt st =
    Some (tt, mk_proxy (missed (qn_type q) (cache st)) [d] (<[fresh st := waiting q usk dst alt]> (heap st))
      (request_list st ++ [fresh st]) (fresh st + 1), [To_server sk (dst ++ qn_rest q)]).
Proof.
  intros Q Hdst Hpad Hpl Hsv Hd Hen Hal Hsend Hmiss. pose proof (qok_id _ Q) as Hid. pose proof (length_qn_rest q) as Hrl.
  destruct pad as [|x pad]; [done|]. cbn [length] in Hpl.
  unfold udp_listener_event. rewrite (proj2 (Z.ltb_ge _ _)) by lia.
  assert (E0 : store (Z.of_nat (2 + length (qn_rest q))) [0] (qn_id q ++ qn_rest q ++ x :: pad) =
    Some (qn_id q ++ qn_rest q ++ 0 :: pad)).
  { rewrite app_assoc. change (x :: pad) with ([x] ++ pad). rewrite store_at by (try done; rewrite length_app; lia).
    by rewrite <- app_assoc. }
  eapply bind_next; [by apply plift_run|].
  eapply bind_next. { apply plift_run, parse_request_run; [done|done|cbn [length]; lia]. }
  eapply bind_next; [reflexivity|]. rewrite Hsv, Hal. cbn [negb].
  eapply bind_next; [apply plift_run, (rd_bytes_at []); [done|by rewrite Hid]|].
  eapply bind_next; [reflexivity|]. eapply bind_next; [reflexivity|].
  eapply bind_next; [apply plift_run, (store_at [] (qn_id q)); [done|lia]|]. cbn [app].
  set (r := mk_req _ _ _ _ _ _ _ _ _ _ _).
  set (st1 := mk_proxy (cache st) (server_list st) (<[fresh st := r]> (heap st)) (request_list st) (fresh st + 1)).
  assert (Eb : rd_bytes (dst ++ qn_rest q ++ 0 :: pad) 0 (Z.of_nat (2 + length (qn_rest q))) = Some (dst ++ qn_rest q)).
  { rewrite app_assoc. apply (rd_bytes_at []); [done|]. rewrite length_app. lia. }
  assert (Hlk : dotted (qn_labels q) <> []).
  { destruct (qok_labels _ Q) as [Hne _]. destruct (qn_labels q) as [|l ls]; [done|].
    change (dotted (l :: ls)) with ((l ++ [dot]) ++ dotted ls). by destruct l. }
  assert (Hr1 : heap st1 !! fresh st = Some r) by apply lookup_insert_eq.
  pose proof (ns_resolv_run e d sk (fresh st) r (dst ++ qn_rest q ++ 0 :: pad) (dotted (qn_labels q))
    (missed (qn_type q) (cache st)) st1 (dst ++ qn_rest q) Hd Hsend Hlk Hr1) as Hns.
  rewrite cache_misses in Hns by done. specialize (Hns eq_refl Eb).
  set (st2 := set_heap _ _) in Hns.
  assert (Hres : resolv e (fresh st) (dst ++ qn_rest q ++ 0 :: pad) (dotted (qn_labels q)) st1 =
    Some (false, st2, [To_server sk (dst ++ qn_rest q)])).
  { assert (Hs1 : server_list st1 = [d]) by done. unfold resolv. eapply bind_next; [reflexivity|]. rewrite Hs1. cbn [resolv_loop].
    rewrite (ps_protocol _ _ Hd), Hen. rewrite bool_decide_eq_false_2 by done. cbn [orb negb]. rewrite (ps_channel _ _ Hd).
    eapply bind_next; [reflexivity|]. change [To_server sk ?b] with ([To_server sk b] ++ []).
    eapply bind_run; [exact Hns|]. done. }
  change [To_server sk ?b] with ([To_server sk b] ++ []). eapply bind_run; [exact Hres|].
  eapply bind_next; [by apply plift_run|].
  eapply bind_next. { apply (update_run _ _ (with_numserv 1 r)). apply lookup_insert_eq. }
  unfold pmodify. do 3 f_equal. subst st2 st1 r. unfold set_requests, set_heap, set_dns_cache. cbn.
  rewrite Hsv. f_equal. by rewrite !insert_insert_eq.
Qed.

Lemma rd16_in mem p : 0 <= p -> p + 2 <= Z.of_nat (length mem) -> exists n, rd16 mem p = Some n.
Proof.
  intros Hp Hl. destruct (rd_in mem p) as [x Ex]; [lia|]. destruct (rd_in mem (p + 1)) as [y Ey]; [lia|].
  exists (x * 256 + y). unfold rd16. rewrite Ex. cbn [mbind option_bind]. by rewrite Ey.
Qed.

Section relay.
Context `{!GLib} `{!Resolv}.
Context (e : env) (Halloc : alloc_ok e = true).
(** A reply: the identifier, the two bytes of flags and the rest, in a buffer. *)
Context (dst more pad : list Z) (b2 b3 : Z).
Context (Hdst : length dst = 2%nat) (Hmore : (8 <= length more)%nat).
Let rest : list Z := b2 :: b3 :: more.
Let len : Z := Z.of_nat (2 + length rest).

Lemma keep_reply_run st id r src qd err c o :
  heap st !! id = Some r -> append_domain r = false -> length src = 2%nat ->
  rd16 (src ++ rest ++ pad) hdr_qdcount = Some qd ->
  DnsCache.cache_update (cache_env e) UDP (src ++ rest ++ pad) len (cache st) = Some (err, c, o) ->
  keep_reply e (src ++ rest ++ pad) len UDP id st =
    Some (inr tt, set_dns_cache c (set_heap (<[id := with_resp (Some (src ++ rest)) r]> (heap st)) st), map from_cache o).
Proof.
  intros Hr Ha Hsrc Hq Hc. unfold keep_reply. eapply bind_next; [by apply load_run|].
  eapply bind_next; [apply plift_run; exact Hq|]. rewrite Ha. cbn [andb]. eapply bind_next; [reflexivity|].
  cbv iota beta. rewrite Halloc. cbn [negb].
  eapply bind_next. { apply plift_run. rewrite app_assoc. apply (rd_bytes_at []); [done|]. rewrite length_app. subst len. lia. }
  eapply bind_next; [by apply update_run|].
  rewrite <- (app_nil_r (map from_cache o)). eapply bind_run; [|done]. unfold on_cache. cbn [cache set_heap]. by rewrite Hc.
Qed.

(** A reply without an error is relayed: the first one for a request with one server. *)
Lemma reply_relayed st id r err c o :
  find_request (heap st) dst (request_list st) = Some (Some id) -> heap st !! id = Some r ->
  req_protocol r = UDP -> length (srcid r) = 2%nat -> 0 <= client_socket r -> send_ok e (client_socket r) = true ->
  append_domain r = false -> numserv r = 1 -> numresp r = 0 -> b3 .& 0x0f = 0 ->
  DnsCache.cache_update (cache_env e) UDP (srcid r ++ rest ++ pad) len (cache st) = Some (err, c, o) ->
  udp_server_event e (dst ++ rest ++ pad) len st =
    Some (tt, mk_proxy c (server_list st) (delete id (heap st)) (g_list_remove id (request_list st)) (fresh st),
      map from_cache o ++ [To_client (client_socket r) (srcid r ++ rest)]).
Proof.
  intros Hf Hr Hp Hsrc Hsk Hsend Ha Hns Hnr Hrc Hcu. unfold udp_server_event.
  rewrite (proj2 (Z.leb_gt _ _)) by (subst len; lia).
  set (r1 := with_numresp 1 r). set (st1 := set_heap (<[id := r1]> (heap st)) st).
  assert (Hlook : lookup_request (dst ++ rest ++ pad) len UDP st = Some (Some id, st1, [])).
  { unfold lookup_request. rewrite (proj2 (Z.ltb_ge _ _)) by (subst len rest; cbn [length protocol_offset]; unfold DNS_HEADER_SIZE; lia).
    eapply bind_next; [apply plift_run, (rd_bytes_at []); [done|by rewrite Hdst]|]. eapply bind_next; [reflexivity|].
    eapply bind_next; [by apply plift_run|].
    eapply bind_next; [by apply update_run|]. cbv beta. by rewrite Hnr. }
  eapply bind_next; [exact Hlook|]. cbv iota beta.
  assert (Hr1 : heap st1 !! id = Some r1) by apply lookup_insert_eq.
  set (r2 := with_resp (Some (srcid r ++ rest)) r1).
  set (st2 := set_dns_cache c (set_heap (<[id := r2]> (heap st1)) st1)).
  destruct (rd16_in (srcid r ++ rest ++ pad) hdr_qdcount) as [qd Hq];
    [done|subst rest; rewrite !length_app; cbn [length]; unfold hdr_qdcount; lia|].
  destruct (rd16_in (srcid r ++ rest ++ pad) hdr_ancount) as [an Han];
    [done|subst rest; rewrite !length_app; cbn [length]; unfold hdr_ancount; lia|].
  set (st3 := set_heap (<[id := r2]> (heap st2)) (set_requests (g_list_remove id (request_list st2)) st2)).
  assert (Hfwd : forward_dns_reply e (dst ++ rest ++ pad) len UDP id st1 =
    Some (Z.of_nat (length (srcid r ++ rest)), st3, map from_cache o ++ [To_client (client_socket r) (srcid r ++ rest)])).
  { unfold forward_dns_reply. eapply bind_next; [by apply load_run|].
    eapply bind_next; [apply plift_run, (store_at [] dst); [done|rewrite Hdst; by symmetry]|].
    cbn [app]. change (srcid r1) with (srcid r).
    eapply bind_next. { apply plift_run. change (protocol_offset UDP + Z.of_nat hdr_rcode) with 3.
      replace 3 with (Z.of_nat (length (srcid r)) + 1) by lia. apply rd_mid1. }
    rewrite Hrc. change (0 =? 0) with true. cbn [orb].
    eapply bind_run.
    { eapply keep_reply_run; [exact Hr1|done|done|exact Hq|]. subst st1. exact Hcu. }
    cbv iota beta. fold r2. fold st2.
    assert (Hr2 : heap st2 !! id = Some r2) by apply lookup_insert_eq.
    eapply bind_next; [by apply load_run|]. eapply bind_next; [apply plift_run; exact Han|].
    change (numresp r2) with 1. change (numserv r2) with (numserv r). rewrite Hns. change (1 <? 1) with false. cbn [andb].
    eapply bind_next; [reflexivity|]. change (resp r2) with (Some (srcid r ++ rest)). cbv iota beta.
    eapply bind_next; [by apply update_run|]. change (client_socket r2) with (client_socket r).
    rewrite (proj2 (Z.ltb_ge _ _) Hsk), Hsend. cbn [negb]. done. }
  rewrite <- (app_nil_r (map from_cache o ++ _)). eapply bind_run; [exact Hfwd|].
  assert (Hr3 : heap st3 !! id = Some r2) by apply lookup_insert_eq.
  eapply bind_next; [by apply load_run|]. change (numserv r2) with (numserv r). rewrite Hns. change (numresp r2) with 1.
  change (1 <=? 1) with true. rewrite orb_true_r. unfold destroy_request_data.
  eapply bind_next; [by apply load_run|]. unfold pmodify. do 3 f_equal. subst st3 st2 st1. unfold set_heap, set_requests, set_dns_cache. cbn.
  f_equal. by rewrite !delete_insert_eq.
Qed.
End relay.

Lemma find_request_last h id x dst l :
  (forall j, j ∈ l -> exists y, h !! j = Some y /\ bytes_eqb (dstid y) dst = false /\ bytes_eqb (altid y) dst = false) ->
  h !! id = Some x -> dstid x = dst -> find_request h dst (l ++ [id]) = Some (Some id).
Proof.
  intros Hl Hx Hd. induction l as [|j l IH]; cbn [app find_request].
  - rewrite Hx. cbn [mbind option_bind]. by rewrite Hd, bytes_eqb_refl.
  - destruct (Hl j) as (y & Ey & E1 & E2); [by left|]. rewrite Ey. cbn [mbind option_bind]. rewrite E1, E2. cbn [orb].
    apply IH. intros k Hk. apply Hl. by right.
Qed.

Lemma g_list_remove_last (x : Z) l : x ∉ l -> g_list_remove x (l ++ [x]) = l.
Proof.
  induction l as [|y l IH]; intros Hx; cbn [app g_list_remove].
  - by rewrite decide_True.
  - apply not_elem_of_cons in Hx as [Hne Hx]. rewrite decide_False by done. by rewrite IH.
Qed.

(** C8: With one server, which is enabled and has no domains, a UDP query for a name that is not in the cache is sent to the
    server under the identifier of the proxy, and the reply to it, if it is no error, is sent to the client under the client's
    own identifier, byte for byte otherwise; after it the request is gone.  The identifier is not the one of another request, there is
    memory, the sockets take what is sent and the cache can read the reply.  With two servers the request outlives its
    answer ([answered_twice]). *)
Theorem query_relayed `{!GLib} `{!Resolv} e st d sk q pad usk dst alt :
  question_ok q -> length dst = 2%nat -> pad <> [] -> Z.of_nat (length pad) < 65536 ->
  server_list st = [d] -> plain_server d sk -> enabled d = true -> alloc_ok e = true -> send_ok e sk = true ->
  DnsCache.entries (cache st) !! wire (qn_labels q) = None -> heap st !! fresh st = None -> 0 <= usk ->
  (forall j, j ∈ request_list st -> exists y, heap st !! j = Some y /\
    bytes_eqb (dstid y) dst = false /\ bytes_eqb (altid y) dst = false) ->
  exists st1,
    udp_listener_event e (qn_id q ++ qn_rest q ++ pad) (Z.of_nat (2 + length (qn_rest q))) usk dst alt st =
      Some (tt, st1, [To_server sk (dst ++ qn_rest q)]) /\
    forall e2 b2 b3 more pad2 err c o,
      alloc_ok e2 = true -> send_ok e2 usk = true -> (8 <= length more)%nat -> b3 .& 0x0f = 0 ->
      let reply := b2 :: b3 :: more in
      let len := Z.of_nat (2 + length reply) in
      DnsCache.cache_update (cache_env e2) UDP (qn_id q ++ reply ++ pad2) len (cache st1) = Some (err, c, o) ->
      exists st2,
        udp_server_event e2 (dst ++ reply ++ pad2) len st1 =
          Some (tt, st2, map from_cache o ++ [To_client usk (qn_id q ++ reply)]) /\
        heap st2 = heap st /\ request_list st2 = request_list st.
Proof.
  intros Q Hdst Hpad Hpl Hsv Hd Hen Hal Hsend Hmiss Hfresh Husk Hothers.
  eexists. split; [by apply query_forwarded|].
  intros e2 b2 b3 more pad2 err c o Hal2 Hsend2 Hmore Hrc reply len Hcu.
  set (r := waiting q usk dst alt).
  assert (Hfl : fresh st ∉ request_list st).
  { intros Hin. destruct (Hothers _ Hin) as (y & Ey & _). congruence. }
  eexists. split.
  - apply (reply_relayed e2 Hal2 dst more pad2 b2 b3 Hdst Hmore _ (fresh st) r err c o); try done.
    + cbn [heap request_list]. apply (find_request_last _ _ r); [|apply lookup_insert_eq|done].
      intros j Hj. destruct (Hothers j Hj) as (y & Ey & E1 & E2). exists y. split_and!; try done.
      rewrite lookup_insert_ne; [done|]. intros <-. congruence.
    + apply lookup_insert_eq.
    + apply (qok_id _ Q).
  - cbn [heap request_list]. split; [by rewrite delete_insert_id|]. by apply g_list_remove_last.
Qed.

(** ** Requests over time

    Without domains no reply is rewritten, and the requests obey the rules that keep pointers to them
    valid. *)

Record req_ok (r : request_data) : Prop := {
  ro_protocol : req_protocol r = UDP;
  ro_srcid : length (srcid r) = 2%nat;
  ro_timeout : timeout r = true;
  ro_append : append_domain r = false;
  ro_request : exists q, request r = Some q /\ request_len r = Z.of_nat (length q) /\ DNS_HEADER_SIZE <= request_len r;
  ro_resp : forall b, resp r = Some b -> take 2 b = srcid r /\ DNS_HEADER_SIZE <= Z.of_nat (length b);
}.

Record pinv (st : proxy) : Prop := {
  pi_nodup : NoDup (request_list st);
  pi_live : forall id, id ∈ request_list st -> is_Some (heap st !! id);
  pi_fresh : forall id, is_Some (heap st !! id) -> id < fresh st;
  pi_req : forall id r, heap st !! id = Some r -> req_ok r;
  pi_servers : Forall (fun d => domains d = []) (server_list st);
}.

Ltac inv_bind H x E := apply pbind_inv in H as (x & ? & ? & ? & E & H & ->).

Lemma load_inv id st r st' o : load id st = Some (r, st', o) -> heap st !! id = Some r /\ st' = st /\ o = [].
Proof. unfold load. destruct (heap st !! id) eqn:E; [|done]. by intros [= -> -> ->]. Qed.

Lemma plift_inv {A} (x : option A) (st : proxy) a st' (o : list output) : plift x st = Some (a, st', o) -> x = Some a /\ st' = st /\ o = [].
Proof. unfold plift. destruct x; [|done]. by intros [= -> -> ->]. Qed.

Lemma update_inv id f st u st' o :
  update id f st = Some (u, st', o) -> exists r, heap st !! id = Some r /\ st' = set_heap (<[id := f r]> (heap st)) st /\ o = [].
Proof.
  intros H. unfold update in H. inv_bind H r E. apply load_inv in E as (E & -> & ->). injection H as <- <- <-. by exists r.
Qed.

Lemma on_cache_inv {A} f st (a : A) st' o : on_cache f st = Some (a, st', o) -> exists c, st' = set_dns_cache c st.
Proof. unfold on_cache. destruct (f (cache st)) as [[[a' c] o']|]; [|done]. intros [= -> <- <-]. by exists c. Qed.

(** What sending a query to servers may change: counters of the request, the cache, channels. *)
Record sends (id : Z) (st st' : proxy) : Prop := {
  se_list : request_list st' = request_list st;
  se_fresh : fresh st' = fresh st;
  se_servers : Forall (fun d => domains d = []) (server_list st) -> Forall (fun d => domains d = []) (server_list st');
  se_other : forall j, j <> id -> heap st' !! j = heap st !! j;
  se_this : forall r, heap st !! id = Some r -> exists n, heap st' !! id = Some (with_numserv n r);
}.

Lemma sends_refl id st : sends id st st.
Proof.
  split; try done. intros r Hr. exists (numserv r). rewrite Hr. by destruct r.
Qed.

Lemma sends_trans id st1 st2 st3 : sends id st1 st2 -> sends id st2 st3 -> sends id st1 st3.
Proof.
  intros [A1 A2 A3 A4 A5] [B1 B2 B3 B4 B5]. split; [congruence|congruence|auto| |].
  - intros j Hj. rewrite B4, A4 by done. done.
  - intros r Hr. destruct (A5 r Hr) as [n Hn]. destruct (B5 _ Hn) as [m Hm]. by exists m.
Qed.

Lemma sends_cache id c st : sends id st (set_dns_cache c st).
Proof. split; try done. intros r Hr. exists (numserv r). cbn. rewrite Hr. by destruct r. Qed.

Lemma ns_resolv_sends e d id req lookup st a st' o :
  domains d = [] -> ns_resolv e d id req lookup st = Some (a, st', o) -> sends id st st'.
Proof.
  intros Hd H. unfold ns_resolv in H. case_bool_decide; [injection H as <- <- <-; apply sends_refl|].
  inv_bind H r E. apply load_inv in E as (Hr & -> & ->).
  inv_bind H err E. apply on_cache_inv in E as [c ->].
  eapply sends_trans; [apply (sends_cache id c)|].
  case_match; [injection H as <- <- <-; apply sends_refl|]. case_match; [injection H as <- <- <-; apply sends_refl|].
  inv_bind H sk E. apply plift_inv in E as (_ & -> & ->). case_match; [injection H as <- <- <-; apply sends_refl|].
  inv_bind H bytes E. apply plift_inv in E as (_ & -> & ->).
  inv_bind H u E. injection E as <- <- <-. inv_bind H u2 E. apply update_inv in E as (r2 & Hr2 & -> & ->).
  assert (Hs : sends id (set_dns_cache c st) (set_heap (<[id:=with_numserv (numserv r2 + 1) r2]> (heap (set_dns_cache c st))) (set_dns_cache c st))).
  { split; try done.
    - intros j Hj. cbn. by rewrite lookup_insert_ne.
    - intros r3 Hr3. exists (numserv r2 + 1). cbn in *. rewrite lookup_insert_eq. congruence. }
  eapply sends_trans; [exact Hs|]. destruct (inner_dot lookup); [injection H as <- <- <-; apply sends_refl|].
  rewrite Hd in H. rewrite bool_decide_eq_false_2 in H by tauto. inv_bind H u3 E. injection E as <- <- <-.
  injection H as <- <- <-. apply sends_refl.
Qed.

Lemma create_socket_sends e d id st r st' o : server_create_socket e d st = Some (r, st', o) -> sends id st st' /\
  match r with inl _ => True | inr d' => domains d' = domains d end.
Proof.
  unfold server_create_socket. destruct (open_socket e (server d)).
  - intros [= <- <- <-]. split; [apply sends_refl|done].
  - intros H. inv_bind H u E. injection E as <- <- <-. injection H as <- <- <-. split; [|done]. apply sends_cache.
Qed.

Lemma Forall_map_domains (f : server_data -> server_data) l :
  (forall d, domains d = [] -> domains (f d) = []) -> Forall (fun d => domains d = []) l -> Forall (fun d => domains d = []) (map f l).
Proof. intros Hf. induction 1; cbn; constructor; auto. Qed.

Lemma resolv_loop_sends e id req lookup : forall l st a st' o,
  Forall (fun d => domains d = []) l -> resolv_loop e l id req lookup st = Some (a, st', o) -> sends id st st'.
Proof.
  induction l as [|d l IH]; intros st a st' o Hl H; cbn [resolv_loop] in H; [injection H as <- <- <-; apply sends_refl|].
  apply Forall_cons_1 in Hl as [Hd Hl]. destruct (_ || _); [by eapply IH|].
  inv_bind H r E. rename x into st1.
  assert (Hs1 : sends id st st1 /\ match r with inl _ => True | inr d' => domains d' = [] end).
  { destruct (channel d); [injection E as <- <- <-; split; [apply sends_refl|done]|].
    inv_bind E r1 E1. apply (create_socket_sends e d id) in E1 as [Hs Hr1]. destruct r1 as [err|d1].
    - injection E as <- <- <-. by split.
    - inv_bind E u E2. injection E2 as <- <- <-. injection E as <- <- <-. split; [|congruence].
      eapply sends_trans; [exact Hs|]. split; try done.
      + cbn. intros Hf. apply Forall_map_domains; [|done]. intros d2 Hd2. by case_match.
      + intros r2 Hr2. exists (numserv r2). cbn. rewrite Hr2. by destruct r2. }
  destruct Hs1 as [Hs1 Hr]. destruct r as [err|d1].
  - eapply sends_trans; [exact Hs1|]. by eapply IH.
  - inv_bind H err E1. apply ns_resolv_sends in E1; [|done].
    eapply sends_trans; [exact Hs1|]. eapply sends_trans; [exact E1|].
    case_match; [injection H as <- <- <-; apply sends_refl|]. by eapply IH.
Qed.

(** The elementary changes. *)
Lemma pinv_heap id r r' st : pinv st -> heap st !! id = Some r -> req_ok r' -> pinv (set_heap (<[id := r']> (heap st)) st).
Proof.
  intros [I1 I2 I3 I4 I5] Hr Hok. split; cbn; try done.
  - intros j Hj. destruct (decide (j = id)) as [->|]; [by rewrite lookup_insert_eq|rewrite lookup_insert_ne by done; auto].
  - intros j. destruct (decide (j = id)) as [->|]; [intros _; apply I3; by rewrite Hr|rewrite lookup_insert_ne by done; auto].
  - intros j x. destruct (decide (j = id)) as [->|]; [rewrite lookup_insert_eq; by intros [= <-]|rewrite lookup_insert_ne by done; eauto].
Qed.

Lemma pinv_delete id st : pinv st -> id ∉ request_list st -> pinv (set_heap (delete id (heap st)) st).
Proof.
  intros [I1 I2 I3 I4 I5] Hn. split; cbn; try done.
  - intros j Hj. rewrite lookup_delete_ne; [auto|]. by intros ->.
  - intros j [x Hx]. apply lookup_delete_Some in Hx as [_ Hx]. apply I3. by exists x.
  - intros j x Hx. apply lookup_delete_Some in Hx as [_ Hx]. eauto.
Qed.

Lemma pinv_unlist id st : pinv st -> pinv (set_requests (g_list_remove id (request_list st)) st) /\
  id ∉ g_list_remove id (request_list st).
Proof.
  intros [I1 I2 I3 I4 I5]. split; [split; cbn; try done|].
  - by apply NoDup_g_list_remove.
  - intros j Hj. apply elem_of_g_list_remove in Hj as [Hj _]; [auto|done].
  - rewrite elem_of_g_list_remove by done. tauto.
Qed.

(** Changes that leave the requests alone. *)
Record apart (st st' : proxy) : Prop := {
  ap_heap : heap st' = heap st;
  ap_list : request_list st' = request_list st;
  ap_fresh : fresh st <= fresh st';
  ap_servers : Forall (fun d => domains d = []) (server_list st) -> Forall (fun d => domains d = []) (server_list st');
}.

Lemma pinv_apart st st' : apart st st' -> pinv st -> pinv st'.
Proof.
  intros [A1 A2 A3 A4] [I1 I2 I3 I4 I5]. split; rewrite ?A1, ?A2; auto.
  intros j Hj. apply I3 in Hj. lia.
Qed.

Lemma apart_trans a b c : apart a b -> apart b c -> apart a c.
Proof. intros [A1 A2 A3 A4] [B1 B2 B3 B4]. split; [congruence|congruence|lia|auto]. Qed.

Lemma apart_refl st : apart st st.
Proof. by split. Qed.

Lemma apart_cache c st : apart st (set_dns_cache c st).
Proof. by split. Qed.

Lemma apart_servers l st :
  (Forall (fun d => domains d = []) (server_list st) -> Forall (fun d => domains d = []) l) -> apart st (set_servers l st).
Proof. intros H. by split. Qed.

Lemma apart_map f st : (forall d, domains d = [] -> domains (f d) = []) -> apart st (set_servers (map f (server_list st)) st).
Proof. intros H. apply apart_servers. by apply Forall_map_domains. Qed.

Lemma apart_fallback b st : apart st (enable_fallback b st).
Proof. apply apart_map. intros d Hd. by case_match. Qed.

Lemma apart_destroy id st u st' o : destroy_server id st = Some (u, st', o) -> apart st st'.
Proof.
  unfold destroy_server. intros H. inv_bind H v E. injection E as <- <- <-. injection H as <- <- <-.
  eapply apart_trans; [apply apart_servers|apply apart_cache]. intros Hf. apply list.Forall_forall. intros d Hd.
  rewrite list.Forall_forall in Hf. apply Hf. apply list_elem_of_In. apply list_elem_of_In, filter_In in Hd. tauto.
Qed.

Lemma pinv_sends id st st' r : pinv st -> heap st !! id = Some r -> sends id st st' -> pinv st'.
Proof.
  intros [I1 I2 I3 I4 I5] Hr [A1 A2 A3 A4 A5]. destruct (A5 r Hr) as [n Hn].
  split; rewrite ?A1, ?A2; auto.
  - intros j Hj. destruct (decide (j = id)) as [->|]; [by rewrite Hn|rewrite A4 by done; auto].
  - intros j. destruct (decide (j = id)) as [->|]; [intros _; apply I3; by rewrite Hr|rewrite A4 by done; auto].
  - intros j x. destruct (decide (j = id)) as [->|]; [|rewrite A4 by done; eauto].
    rewrite Hn. intros [= <-]. destruct (I4 _ _ Hr). by split.
Qed.

Lemma destroy_inv id st u st' o :
  destroy_request_data id st = Some (u, st', o) -> st' = set_heap (delete id (heap st)) st /\ o = [] /\ is_Some (heap st !! id).
Proof.
  unfold destroy_request_data. intros H. inv_bind H r E. apply load_inv in E as (E & -> & ->). injection H as <- <- <-.
  split_and!; [done|done|by rewrite E].
Qed.

(** The timer of a request answers and frees it. *)
Definition dropped (id : Z) (st : proxy) : proxy :=
  set_heap (delete id (heap st)) (set_requests (g_list_remove id (request_list st)) st).

Lemma pinv_dropped id st : pinv st -> pinv (dropped id st).
Proof. intros I. destruct (pinv_unlist id st I) as [I1 Hn]. by apply (pinv_delete id _ I1). Qed.

Lemma take_wr0 b l : (length b <= length l)%nat -> take (length b) (wr 0 b l) = b.
Proof. intros. unfold wr. rewrite take_0. cbn [app]. by rewrite take_app_length. Qed.

Lemma servfail_run q :
  12 <= Z.of_nat (length q) -> exists b, servfail UDP q = Some b /\ take 2 b = take 2 q /\ length b = 12%nat.
Proof.
  intros Hl. do 12 (destruct q as [|? q]; [cbn in Hl; lia|]). eexists. split; [reflexivity|]. done.
Qed.

Lemma request_timeout_run id r st :
  heap st !! id = Some r -> req_ok r ->
  exists out, request_timeout id st = Some (tt, dropped id st, out) /\
    if client_socket r <? 0 then out = []
    else exists bytes, out = [To_client (client_socket r) bytes] /\ take 2 bytes = srcid r /\ DNS_HEADER_SIZE <= Z.of_nat (length bytes).
Proof.
  intros Hr [Hp Hs Ht Ha (q & Hq & Hlen & H12) Hresp]. unfold request_timeout.
  set (st1 := set_requests (g_list_remove id (request_list st)) st).
  assert (Hd : destroy_request_data id st1 = Some (tt, dropped id st, [])).
  { unfold destroy_request_data. eapply bind_next; [by apply load_run|]. done. }
  destruct (client_socket r <? 0) eqn:Esk.
  - exists []. split; [|done]. eapply bind_next; [by apply load_run|]. eapply bind_next; [reflexivity|].
    rewrite Esk. eapply bind_next; [reflexivity|]. exact Hd.
  - assert (Hans : exists bytes, take 2 bytes = srcid r /\ DNS_HEADER_SIZE <= Z.of_nat (length bytes) /\
      (match resp r, request r with
      | Some (b :: bs), _ => pemit (To_client (client_socket r) (b :: bs))
      | _, Some q =>
          q ← plift (store (protocol_offset (req_protocol r)) (srcid r) q);
          send_response (client_socket r) q (request_len r) (req_protocol r)
      | _, None => pskip
      end) st1 = Some (tt, st1, [To_client (client_socket r) bytes])).
    { destruct (resp r) as [[|b bs]|] eqn:Er.
      - destruct (Hresp [] eq_refl) as [_ H]. cbn in H. unfold DNS_HEADER_SIZE in H. lia.
      - exists (b :: bs). destruct (Hresp _ eq_refl). done.
      - rewrite Hq, Hp. cbn [protocol_offset]. unfold DNS_HEADER_SIZE in *.
        destruct (servfail_run (wr 0 (srcid r) q)) as (b & Eb & Et & El).
        { rewrite length_wr by lia. lia. }
        exists b. split_and!.
        + rewrite Et, <- Hs. apply take_wr0. lia.
        + rewrite El. lia.
        + eapply bind_next; [apply plift_run, store_in; lia|]. unfold send_response, DNS_HEADER_SIZE.
          cbn [protocol_offset]. rewrite (proj2 (Z.ltb_ge _ _)) by lia. eapply bind_next; [apply plift_run; exact Eb|]. done. }
    destruct Hans as (bytes & Hb1 & Hb2 & Hrun). exists [To_client (client_socket r) bytes]. split; [|by exists bytes].
    eapply bind_next; [by apply load_run|]. eapply bind_next; [reflexivity|]. rewrite Esk.
    rewrite <- (app_nil_r [To_client _ _]). eapply bind_run; [|exact Hd].
    rewrite <- (app_nil_r [To_client _ _]). eapply bind_run; [exact Hrun|]. by rewrite Hp.
Qed.

Lemma store_inv p b mem mem' : store p b mem = Some mem' -> 0 <= p /\ p + Z.of_nat (length b) <= Z.of_nat (length mem) /\
  mem' = wr (Z.to_nat p) b mem.
Proof. unfold store. case_match eqn:Hc; [done|]. intros [= <-]. bool_to_prop. split_and!; [lia|lia|done]. Qed.

Lemma rd_bytes_inv mem p n b : rd_bytes mem p n = Some b -> 0 <= p /\ p + n <= Z.of_nat (length mem) /\ Z.of_nat (length b) = n /\
  b = slice (Z.to_nat p) (Z.to_nat n) mem.
Proof.
  unfold rd_bytes. case_match eqn:Hc; [done|]. intros [= <-]. bool_to_prop. split_and!; [lia|lia| |done].
  unfold slice. rewrite length_take, length_drop. lia.
Qed.

Lemma parse_request_long buf len size r : parse_request buf len size = Some (inr r) -> DNS_HEADER_SIZE + DNS_QTYPE_QCLASS_SIZE <= len.
Proof. unfold parse_request. case_match eqn:Hc; [done|]. intros _. apply Z.ltb_ge in Hc. lia. Qed.

Lemma resolv_sends e id req lookup st a st' o :
  Forall (fun d => domains d = []) (server_list st) -> resolv e id req lookup st = Some (a, st', o) -> sends id st st'.
Proof. intros Hf H. unfold resolv in H. inv_bind H l E. injection E as <- <- <-. by apply resolv_loop_sends in H. Qed.

Lemma send_response_state sk buf len p st u st' o : send_response sk buf len p st = Some (u, st', o) -> st' = st.
Proof.
  unfold send_response. case_match; [by intros [= <- <- <-]|]. intros Hs. inv_bind Hs b E.
  apply plift_inv in E as (_ & -> & ->). by injection Hs as <- <- <-.
Qed.

(** A request that was allocated and sent to the servers. *)
Lemma pinv_new st r st2 :
  pinv st ->
  sends (fresh st) (mk_proxy (cache st) (server_list st) (<[fresh st := r]> (heap st)) (request_list st) (fresh st + 1)) st2 ->
  pinv (set_heap (delete (fresh st) (heap st2)) st2) /\
  forall r', req_ok r' ->
    pinv (set_requests (request_list st2 ++ [fresh st]) (set_heap (<[fresh st := r']> (heap st2)) st2)).
Proof.
  intros [I1 I2 I3 I4 I5] [A1 A2 A3 A4 A5]. cbn in *.
  assert (Hfresh : heap st !! fresh st = None).
  { destruct (heap st !! fresh st) eqn:E; [|done]. assert (fresh st < fresh st) by (apply I3; by rewrite E). lia. }
  assert (Hn : fresh st ∉ request_list st). { intros Hin. destruct (I2 _ Hin). congruence. }
  assert (Ho : forall j, j <> fresh st -> heap st2 !! j = heap st !! j).
  { intros j Hj. rewrite A4 by done. by rewrite lookup_insert_ne. }
  split.
  - split; cbn; rewrite ?A1, ?A2; auto.
    + intros j Hj. rewrite lookup_delete_ne by (by intros <-). rewrite Ho by (by intros ->). auto.
    + intros j [x Hx]. apply lookup_delete_Some in Hx as [Hne Hx]. rewrite Ho in Hx by done.
      assert (j < fresh st) by (apply I3; by exists x). lia.
    + intros j x Hx. apply lookup_delete_Some in Hx as [Hne Hx]. rewrite Ho in Hx by done. eauto.
  - intros r' Hr'. split; cbn; rewrite ?A1, ?A2; auto.
    + apply NoDup_app. split_and!; [done| |apply NoDup_singleton]. intros j Hj ->%list_elem_of_singleton. done.
    + intros j Hj. destruct (decide (j = fresh st)) as [->|Hne]; [by rewrite lookup_insert_eq|].
      rewrite lookup_insert_ne, Ho by done. apply elem_of_app in Hj as [Hj|Hj%list_elem_of_singleton]; [auto|done].
    + intros j Hj. destruct (decide (j = fresh st)) as [->|Hne]; [lia|].
      rewrite lookup_insert_ne, Ho in Hj by done. apply I3 in Hj. lia.
    + intros j x. destruct (decide (j = fresh st)) as [->|Hne]; [rewrite lookup_insert_eq; by intros [= <-]|].
      rewrite lookup_insert_ne, Ho by done. eauto.
Qed.

Lemma udp_listener_pinv `{!GLib} `{!Resolv} e buf len usk dst alt st u st' o :
  pinv st -> udp_listener_event e buf len usk dst alt st = Some (u, st', o) -> pinv st'.
Proof.
  intros I Hv. unfold udp_listener_event in Hv. case_match; [by injection Hv as <- <- <-|].
  inv_bind Hv buf1 E. apply plift_inv in E as (E0 & -> & ->).
  inv_bind Hv q E. apply plift_inv in E as (Eq & -> & ->). inv_bind Hv l E. injection E as <- <- <-.
  destruct q as [err|query]; [apply send_response_state in Hv as ->; done|].
  destruct (server_list st) eqn:Hsl; [apply send_response_state in Hv as ->; done|].
  case_match; [by injection Hv as <- <- <-|].
  inv_bind Hv src E. apply plift_inv in E as (Esrc & -> & ->). inv_bind Hv i E. injection E as <- <- <-.
  inv_bind Hv v E. injection E as <- <- <-. inv_bind Hv buf2 E. apply plift_inv in E as (E2 & -> & ->).
  inv_bind Hv hit E. apply resolv_sends in E; [|apply I].
  pose proof (se_this _ _ _ E) as Hthis. destruct (pinv_new st _ _ I E) as [Hdel Hnew].
  destruct hit; [by apply destroy_inv in Hv as (-> & _ & _)|].
  inv_bind Hv bytes Eb. apply plift_inv in Eb as (Eb & -> & ->).
  inv_bind Hv w Eu. apply update_inv in Eu as (r2 & Hr2 & -> & ->). injection Hv as <- <- <-.
  destruct (Hthis _ (lookup_insert_eq _ _ _)) as [n Hn]. rewrite Hn in Hr2. injection Hr2 as <-.
  cbn. apply Hnew. apply rd_bytes_inv in Esrc as (_ & _ & Hs & _). apply rd_bytes_inv in Eb as (_ & _ & Hb & _).
  apply parse_request_long in Eq. unfold DNS_HEADER_SIZE, DNS_QTYPE_QCLASS_SIZE in *. split; cbn; try done; [lia|].
  exists bytes. split_and!; [done|lia|unfold DNS_HEADER_SIZE; lia].
Qed.

(** Without an appended domain and with memory the reply is kept as it came. *)
Lemma keep_reply_inv `{!GLib} `{!Resolv} e reply len id r st k st' o :
  alloc_ok e = true -> heap st !! id = Some r -> append_domain r = false ->
  keep_reply e reply len UDP id st = Some (k, st', o) ->
  k = inr tt /\ exists c bytes, rd_bytes reply 0 len = Some bytes /\
    st' = set_dns_cache c (set_heap (<[id := with_resp (Some bytes) r]> (heap st)) st).
Proof.
  intros Hal Hr Ha Hv. unfold keep_reply in Hv. inv_bind Hv r1 E. apply load_inv in E as (E & -> & ->).
  rewrite Hr in E. injection E as <-. inv_bind Hv qd E. apply plift_inv in E as (_ & -> & ->).
  rewrite Ha in Hv. cbn [andb] in Hv. inv_bind Hv fx E. injection E as <- <- <-. rewrite Hal in Hv. cbn [negb] in Hv.
  inv_bind Hv bytes E. apply plift_inv in E as (Eb & -> & ->).
  inv_bind Hv v E. apply update_inv in E as (r2 & Hr2 & -> & ->). rewrite Hr in Hr2. injection Hr2 as <-.
  inv_bind Hv w E. apply on_cache_inv in E as [c ->]. injection Hv as <- <- <-.
  split; [done|]. by exists c, bytes.
Qed.

Lemma req_ok_resp r b :
  req_ok r -> take 2 b = srcid r -> DNS_HEADER_SIZE <= Z.of_nat (length b) -> req_ok (with_resp (Some b) r).
Proof. intros [] H1 H2. split; try done. cbn. by intros b' [= <-]. Qed.

Lemma forward_pinv `{!GLib} `{!Resolv} e reply len id r st res st' o :
  alloc_ok e = true -> pinv st -> heap st !! id = Some r -> DNS_HEADER_SIZE <= len ->
  forward_dns_reply e reply len UDP id st = Some (res, st', o) ->
  pinv st' /\ exists r', heap st' !! id = Some r' /\ (id ∉ request_list st' \/ (res <> 0 /\ numresp r' < numserv r')).
Proof.
  intros Hal I Hr Hlen Hv. pose proof (pi_req _ I _ _ Hr) as Hok. unfold forward_dns_reply in Hv.
  inv_bind Hv r0 E. apply load_inv in E as (E & -> & ->). rewrite Hr in E. injection E as <-.
  inv_bind Hv rep E. apply plift_inv in E as (Es & -> & ->). apply store_inv in Es as (_ & Hrl & ->).
  inv_bind Hv b3 E. apply plift_inv in E as (_ & -> & ->). cbn [protocol_offset] in *.
  pose proof (ro_srcid _ Hok) as Hs.
  inv_bind Hv kept E. rename x into st1.
  assert (H1 : kept = inr tt /\ pinv st1 /\ exists r1, heap st1 !! id = Some r1).
  { destruct (_ || _); [|injection E as <- <- <-; split_and!; [done|done|by exists r]].
    destruct (keep_reply_inv _ _ _ _ _ _ _ _ _ Hal Hr (ro_append _ Hok) E) as (-> & c & bytes & Hb & ->).
    split; [done|]. split; [|eexists; apply lookup_insert_eq].
    eapply pinv_apart; [apply apart_cache|]. apply (pinv_heap _ r); [done|done|].
    apply rd_bytes_inv in Hb as (_ & Hl & Hb1 & ->). unfold DNS_HEADER_SIZE in *. apply req_ok_resp; [done| |unfold DNS_HEADER_SIZE; lia].
    unfold slice. rewrite drop_0, take_take, Nat.min_l by lia. rewrite <- Hs. apply take_wr0. lia. }
  destruct H1 as (-> & I1 & r1 & Hr1).
  inv_bind Hv r2 E2. apply load_inv in E2 as (E2 & -> & ->). rewrite Hr1 in E2. injection E2 as <-.
  inv_bind Hv an E3. apply plift_inv in E3 as (_ & -> & ->).
  destruct ((numresp r1 <? numserv r1) && _) eqn:Hc.
  { injection Hv as <- <- <-. split; [done|]. exists r1. split; [done|]. right. split; [done|].
    apply andb_true_iff in Hc as [Hc _]. by apply Z.ltb_lt. }
  inv_bind Hv v E4. injection E4 as <- <- <-. destruct (pinv_unlist id st1 I1) as [I2 Hn].
  destruct (resp r1) as [b|] eqn:Hb; [|injection Hv as <- <- <-; split; [done|]; exists r1; split; [done|by left]].
  inv_bind Hv w E5. apply update_inv in E5 as (r2 & Hr2 & -> & ->). cbn [heap set_requests] in Hr2.
  rewrite Hr1 in Hr2. injection Hr2 as <-.
  assert (I3 : pinv (set_heap (<[id := with_resp (Some b) r1]> (heap st1)) (set_requests (g_list_remove id (request_list st1)) st1))).
  { pose proof (pi_req _ I1 _ _ Hr1) as Hok1. destruct (ro_resp _ Hok1 b Hb). by apply (pinv_heap id r1 _ _ I2 Hr1), req_ok_resp. }
  assert (st' = set_heap (<[id := with_resp (Some b) r1]> (heap st1)) (set_requests (g_list_remove id (request_list st1)) st1)) as ->.
  { repeat case_match; by injection Hv as <- <- <-. }
  split; [done|]. eexists. split; [apply lookup_insert_eq|by left].
Qed.

Lemma find_request_in h id : forall l i, find_request h id l = Some (Some i) -> i ∈ l /\ is_Some (h !! i).
Proof.
  induction l as [|j l IH]; intros i Hf; cbn [find_request] in Hf; [done|].
  destruct (h !! j) as [x|] eqn:Ej; [|done]. cbn [mbind option_bind] in Hf. destruct (_ || _).
  - injection Hf as <-. split; [by left|by rewrite Ej].
  - apply IH in Hf as [Hf1 Hf2]. split; [by right|done].
Qed.

Lemma udp_server_pinv `{!GLib} `{!Resolv} e buf len st u st' o :
  alloc_ok e = true -> pinv st -> udp_server_event e buf len st = Some (u, st', o) -> pinv st'.
Proof.
  intros Hal I Hv. unfold udp_server_event in Hv. case_match; [by injection Hv as <- <- <-|].
  inv_bind Hv found E. unfold lookup_request in E. destruct (len <? _) eqn:Hlen.
  { injection E as <- <- <-. by injection Hv as <- <- <-. }
  apply Z.ltb_ge in Hlen. cbn [protocol_offset] in Hlen.
  inv_bind E hid E1. apply plift_inv in E1 as (_ & -> & ->). inv_bind E s0 E1. injection E1 as <- <- <-.
  inv_bind E f E1. apply plift_inv in E1 as (Ef & -> & ->).
  destruct f as [i|]; [|injection E as <- <- <-; by injection Hv as <- <- <-].
  inv_bind E v E1. apply update_inv in E1 as (r & Hr & -> & ->). injection E as <- <- <-.
  set (r1 := with_numresp _ r) in *. set (st1 := set_heap _ st) in *.
  assert (I1 : pinv st1). { apply (pinv_heap i r); [done|done|]. destruct (pi_req _ I _ _ Hr). by split. }
  inv_bind Hv res E. apply (forward_pinv _ _ _ _ r1) in E; [|done|done|apply lookup_insert_eq|lia].
  destruct E as (I2 & r2 & Hr2 & Hor). inv_bind Hv r3 E3. apply load_inv in E3 as (E3 & -> & ->).
  rewrite Hr2 in E3. injection E3 as <-. destruct (_ || _) eqn:Hc; [|by injection Hv as <- <- <-].
  apply destroy_inv in Hv as (-> & _ & _). apply pinv_delete; [done|].
  destruct Hor as [Hn|[Hz Hlt]]; [done|]. apply orb_true_iff in Hc as [Hc|Hc].
  - by apply Z.eqb_eq in Hc.
  - apply Z.leb_le in Hc. lia.
Qed.

(** The changes of the servers do not touch the requests. *)
Lemma apart_update_server i f st : (forall d, domains d = [] -> domains (f d) = []) -> apart st (update_server i f st).
Proof. intros Hf. apply apart_map. intros d Hd. case_match; auto. Qed.

Lemma server_error_apart i st u st' o : udp_server_error i st = Some (u, st', o) -> apart st st'.
Proof. intros [= <- <- <-]. by apply apart_update_server. Qed.

Lemma apart_update_domain i dm st : apart st (update_domain i dm false st).
Proof.
  destruct dm as [dm|]; [|apply apart_refl]. apply apart_map. intros d Hd. case_match; [done|]. by rewrite Hd.
Qed.

Lemma create_server_pinv `{!GLib} e index nm st r st' o :
  create_server e index None nm st = Some (r, st', o) ->
  apart st st' /\ match r with Some d => domains d = [] | None => True end.
Proof.
  intros Hv. unfold create_server in Hv. case_match; [injection Hv as <- <- <-; split; [apply apart_refl|done]|].
  inv_bind Hv s0 E. injection E as <- <- <-. inv_bind Hv v E. injection E as <- <- <-. cbn [sv_id] in Hv.
  set (st1 := mk_proxy _ _ _ _ (fresh st + 1)) in *.
  assert (H1 : apart st st1) by (split; cbn; [done|done|lia|done]).
  destruct (negb (is_address e nm)).
  { inv_bind Hv w E. apply apart_destroy in E. injection Hv as <- <- <-. split; [by eapply apart_trans|done]. }
  inv_bind Hv sr E. unfold server_create_socket in E. cbn [server] in E. destruct (open_socket e nm) as [err|fd].
  { injection E as <- <- <-. inv_bind Hv w E. apply apart_destroy in E. injection Hv as <- <- <-. split; [by eapply apart_trans|done]. }
  inv_bind E w E1. injection E1 as <- <- <-. injection E as <- <- <-.
  inv_bind Hv d E. rename x into st2.
  assert (H2 : apart st1 st2 /\ domains d = []).
  { destruct (_ || _).
    - inv_bind E w E1. injection E1 as <- <- <-. injection E as <- <- <-. split; [|done].
      eapply apart_trans; [apply apart_cache|apply apart_fallback].
    - destruct (_ && _); injection E as <- <- <-; (split; [apply apart_cache|done]). }
  destruct H2 as [H2 Hd]. inv_bind Hv w E1. injection E1 as <- <- <-. injection Hv as <- <- <-. split; [|done].
  eapply apart_trans; [exact H1|]. eapply apart_trans; [exact H2|]. apply apart_servers. intros Hf.
  apply Forall_app. split; [done|]. by constructor.
Qed.

Lemma flush_loop_pinv `{!GLib} e d : domains d = [] -> forall l st u st' o,
  pinv st -> flush_loop e d l st = Some (u, st', o) -> pinv st'.
Proof.
  intros Hd. induction l as [|i l IH]; intros st u st' o I Hv; cbn [flush_loop] in Hv; [by injection Hv as <- <- <-|].
  inv_bind Hv r E. apply load_inv in E as (Hr & -> & ->). inv_bind Hv rqs E. apply plift_inv in E as (_ & -> & ->).
  inv_bind Hv err E. apply ns_resolv_sends in E; [|done]. rename x into st1.
  assert (I1 : pinv st1) by (by eapply pinv_sends). inv_bind Hv v E1. apply (IH x) in Hv; [done|].
  destruct (negb (err =? 0)).
  - inv_bind E1 w E2. injection E2 as <- <- <-. apply destroy_inv in E1 as (-> & _ & _). by apply (pinv_dropped i st1).
  - apply update_inv in E1 as (r1 & Hr1 & -> & _). apply (pinv_heap i r1); [done|done|].
    destruct (pi_req _ I1 _ _ Hr1). by split.
Qed.

Lemma append_pinv `{!GLib} e index nm st r st' o :
  pinv st -> __connman_dnsproxy_append e index None nm st = Some (r, st', o) -> pinv st'.
Proof.
  intros I Hv. unfold __connman_dnsproxy_append in Hv. destruct nm as [nm|]; [|by injection Hv as <- <- <-].
  case_match; [by injection Hv as <- <- <-|]. inv_bind Hv l E. injection E as <- <- <-.
  destruct (find_server _ _ _ _); [by injection Hv as <- <- <-|].
  inv_bind Hv d E. apply create_server_pinv in E as [Hap Hd]. rename x into st1.
  assert (I1 : pinv st1) by (by eapply pinv_apart). destruct d as [d|]; [|by injection Hv as <- <- <-].
  inv_bind Hv w E. unfold flush_requests in E. inv_bind E l E1. injection E1 as <- <- <-.
  apply flush_loop_pinv in E; [|done|done]. by injection Hv as <- <- <-.
Qed.

Lemma remove_server_apart index nm p st u st' o : remove_server index nm p st = Some (u, st', o) -> apart st st'.
Proof.
  intros Hv. unfold remove_server in Hv. inv_bind Hv l E. injection E as <- <- <-.
  destruct (find_server _ _ _ _); [|injection Hv as <- <- <-; apply apart_refl].
  inv_bind Hv w E. apply apart_destroy in E. inv_bind Hv n E1. injection E1 as <- <- <-.
  case_match; injection Hv as <- <- <-; [|done]. eapply apart_trans; [exact E|apply apart_fallback].
Qed.

Lemma remove_apart index dm nm st r st' o : __connman_dnsproxy_remove index dm nm st = Some (r, st', o) -> apart st st'.
Proof.
  intros Hv. unfold __connman_dnsproxy_remove in Hv. destruct nm as [nm|].
  - case_match; [injection Hv as <- <- <-; apply apart_refl|].
    inv_bind Hv w1 E1. inv_bind Hv w2 E2. apply remove_server_apart in E1, E2. injection Hv as <- <- <-. by eapply apart_trans.
  - destruct dm as [dm|]; [|injection Hv as <- <- <-; apply apart_refl].
    inv_bind Hv w E. injection E as <- <- <-. injection Hv as <- <- <-.
    apply (apart_update_domain index (Some dm)).
Qed.

Lemma refresh_cache_apart `{!GLib} e st u st' o : refresh_cache e st = Some (u, st', o) -> apart st st'.
Proof. intros Hv. unfold refresh_cache in Hv. apply on_cache_inv in Hv as [c ->]. apply apart_cache. Qed.

Lemma offline_loop_apart `{!GLib} e off : forall l st u st' o, offline_loop e off l st = Some (u, st', o) -> apart st st'.
Proof.
  induction l as [|d l IH]; intros st u st' o Hv; cbn [offline_loop] in Hv; [injection Hv as <- <- <-; apply apart_refl|].
  inv_bind Hv v E. injection E as <- <- <-. inv_bind Hv w E. injection E as <- <- <-.
  eapply apart_trans; [apply (apart_update_server (sv_id d) (with_enabled (negb off)) st); done|].
  eapply apart_trans; [apply apart_cache|]. inv_bind Hv x E.
  eapply apart_trans; [|by eapply IH]. destruct off; [injection E as <- <- <-; apply apart_refl|by apply refresh_cache_apart in E].
Qed.

Lemma offline_mode_apart `{!GLib} e off st u st' o : dnsproxy_offline_mode e off st = Some (u, st', o) -> apart st st'.
Proof. intros Hv. unfold dnsproxy_offline_mode in Hv. inv_bind Hv l E. injection E as <- <- <-. by eapply offline_loop_apart. Qed.

Lemma default_changed_apart `{!GLib} e sv st u st' o : dnsproxy_default_changed e sv st = Some (u, st', o) -> apart st st'.
Proof.
  intros Hv. unfold dnsproxy_default_changed in Hv. inv_bind Hv v E. injection E as <- <- <-.
  eapply apart_trans; [apply apart_cache|]. destruct sv as [[i vpn]|]; [|by eapply offline_mode_apart].
  case_match; [injection Hv as <- <- <-; apply apart_refl|]. inv_bind Hv v E. injection E as <- <- <-.
  inv_bind Hv l E. injection E as <- <- <-. inv_bind Hv w E. apply refresh_cache_apart in Hv.
  eapply apart_trans; [by apply (apart_map (fun d => with_enabled ((sv_index d =? i) || (sv_index d =? vpn)) d))|]. eapply apart_trans; [|exact Hv].
  case_match; injection E as <- <- <-; [apply apart_refl|apply apart_fallback].
Qed.

Lemma remove_servers_apart index : forall l st u st' o, remove_servers index l st = Some (u, st', o) -> apart st st'.
Proof.
  induction l as [|d l IH]; intros st u st' o Hv; cbn [remove_servers] in Hv; [injection Hv as <- <- <-; apply apart_refl|].
  inv_bind Hv v E. eapply apart_trans; [|by eapply IH].
  case_match; [by apply apart_destroy in E|injection E as <- <- <-; apply apart_refl].
Qed.

Lemma service_down_apart index st u st' o : dnsproxy_service_down index st = Some (u, st', o) -> apart st st'.
Proof. intros Hv. unfold dnsproxy_service_down in Hv. inv_bind Hv l E. injection E as <- <- <-. by eapply remove_servers_apart. Qed.

(** The events of the proxy, with memory for the copy of a reply and no domains. *)
Inductive pstep `{!GLib} `{!Resolv} : proxy -> proxy -> Prop :=
| Ps_query e buf len usk dst alt st st' u o :
    udp_listener_event e buf len usk dst alt st = Some (u, st', o) -> pstep st st'
| Ps_reply e buf len st st' u o :
    alloc_ok e = true -> udp_server_event e buf len st = Some (u, st', o) -> pstep st st'
| Ps_error id st st' u o : udp_server_error id st = Some (u, st', o) -> pstep st st'
| Ps_timer id r st st' u o :
    heap st !! id = Some r -> timeout r = true -> request_timeout id st = Some (u, st', o) -> pstep st st'
| Ps_append e index nm st st' r o :
    __connman_dnsproxy_append e index None nm st = Some (r, st', o) -> pstep st st'
| Ps_remove index dm nm st st' r o :
    __connman_dnsproxy_remove index dm nm st = Some (r, st', o) -> pstep st st'
| Ps_offline e b st st' u o : dnsproxy_offline_mode e b st = Some (u, st', o) -> pstep st st'
| Ps_default e sv st st' u o : dnsproxy_default_changed e sv st = Some (u, st', o) -> pstep st st'
| Ps_down index st st' u o : dnsproxy_service_down index st = Some (u, st', o) -> pstep st st'.

Definition initial : proxy := mk_proxy DnsCache.initial [] ∅ [] 0.

Lemma pinv_initial : pinv initial.
Proof.
  split; cbn; try done.
  - apply NoDup_nil_2.
  - intros j Hj. by apply not_elem_of_nil in Hj.
  - intros j [x Hx]. by rewrite lookup_empty in Hx.
Qed.

Lemma pstep_pinv `{!GLib} `{!Resolv} st st' : pstep st st' -> pinv st -> pinv st'.
Proof.
  intros Hs I. destruct Hs;
    eauto using udp_listener_pinv, udp_server_pinv, append_pinv, pinv_apart, remove_apart, offline_mode_apart,
      default_changed_apart, service_down_apart, server_error_apart.
  destruct (request_timeout_run id r st) as (out & E & _); [done|by eapply pi_req|].
  match goal with Ht : request_timeout _ _ = Some _ |- _ => rewrite E in Ht; injection Ht as <- <- <- end.
  by apply pinv_dropped.
Qed.

Lemma find_request_total st hid : pinv st -> exists f, find_request (heap st) hid (request_list st) = Some f.
Proof.
  intros I. assert (Hl : forall i, i ∈ request_list st -> is_Some (heap st !! i)) by apply I. revert Hl.
  induction (request_list st) as [|j l IH]; intros Hl; cbn [find_request]; [by eexists|].
  destruct (Hl j) as [x Ex]; [by left|]. rewrite Ex. cbn [mbind option_bind]. case_match; [by eexists|].
  apply IH. intros i Hi. apply Hl. by right.
Qed.

(** C17: Over every sequence of UDP queries, replies, timers and changes of the servers, while no domain is appended and there
    is memory when a reply arrives, the list of requests has no duplicates and no pointer to freed memory, so that looking up a
    reply never fails; and every request that is allocated has its timer pending, which frees the request and answers the client
    once, under the client's identifier, unless its socket is negative.  Without memory at a reply the list keeps a request that
    was freed ([request_dangles]). *)
Theorem requests_answered `{!GLib} `{!Resolv} st :
  rtc pstep initial st ->
  NoDup (request_list st) /\
  (forall hid, exists f, find_request (heap st) hid (request_list st) = Some f) /\
  forall id r, heap st !! id = Some r ->
    timeout r = true /\
    exists out st', request_timeout id st = Some (tt, st', out) /\ pstep st st' /\
      heap st' !! id = None /\ (id ∉ request_list st') /\
      (if client_socket r <? 0 then out = []
       else exists bytes, out = [To_client (client_socket r) bytes] /\ take 2 bytes = srcid r /\
         DNS_HEADER_SIZE <= Z.of_nat (length bytes)).
Proof.
  intros Hreach. assert (I : pinv st).
  { apply (rtc_ind_r (R := pstep) pinv initial pinv_initial); [|done]. intros a b _ Hab. by apply pstep_pinv. }
  split_and!; [apply I|intros hid; by apply find_request_total|].
  intros id r Hr. pose proof (pi_req _ I _ _ Hr) as Hok. pose proof (ro_timeout _ Hok) as Ht. split; [done|].
  destruct (request_timeout_run id r st Hr Hok) as (out & E & Hout). exists out, (dropped id st).
  split_and!; [done|by eapply Ps_timer|apply lookup_delete_eq| |done].
  by apply (pinv_unlist id st I).
Qed.

(** ** A run: a server, a query for [www.example.com] and the reply *)

Definition demo_env : env :=
  mk_env 1000 true (fun _ => true) (fun _ => inr 7) (fun _ => true) (fun _ => true) (fun _ => false).

Definition demo_name : list Z := [49; 48; 46; 48; 46; 48; 46; 49].

Definition demo_question : question :=
  mk_question [171; 205] 1 0 ([119; 119; 119] :: example_com) DNS_TYPE_A 1.

Definition result {A} (m : option (A * proxy * list output)) : proxy :=
  match m with Some (_, st, _) => st | None => initial end.

#[local] Existing Instance glib_reference.
#[local] Existing Instance DnsFixup.resolv_reference.

Definition demo_server : proxy := result (__connman_dnsproxy_append demo_env 3 None (Some demo_name) initial).

Definition demo_query : list Z := qn_id demo_question ++ qn_rest demo_question ++ [0].
Definition demo_query_len : Z := Z.of_nat (2 + length (qn_rest demo_question)).

Definition demo_waiting : proxy :=
  result (udp_listener_event demo_env demo_query demo_query_len 5 [17; 34] [51; 68] demo_server).

Lemma demo_question_ok : question_ok demo_question.
Proof.
  split; cbn [demo_question qn_id qn_flags qn_labels qn_type qn_class]; [done|lia| |vm_compute; lia|unfold DNS_TYPE_A; lia|by left].
  split; [done|concrete_labels].
Qed.

Lemma demo_server_step : pstep initial demo_server.
Proof. eapply (Ps_append demo_env 3 (Some demo_name) _ _ 0 []). by vm_compute. Qed.

Lemma demo_waiting_reachable : rtc pstep initial demo_waiting.
Proof.
  eapply rtc_l; [exact demo_server_step|]. apply rtc_once.
  eapply (Ps_query demo_env demo_query demo_query_len 5 [17; 34] [51; 68] _ _ tt
    [To_server 7 ([17; 34] ++ qn_rest demo_question)]). by vm_compute.
Qed.

Lemma requests_answered_witness :
  exists bytes, request_timeout 1 demo_waiting = Some (tt, dropped 1 demo_waiting, [To_client 5 bytes]) /\
    take 2 bytes = [171; 205].
Proof.
  destruct (requests_answered demo_waiting demo_waiting_reachable) as (_ & _ & H).
  destruct (heap demo_waiting !! 1) as [r|] eqn:E; [|by vm_compute in E].
  destruct (H 1 r E) as (_ & out & st' & H1 & _ & _ & _ & H2).
  assert (Hs : client_socket r = 5 /\ srcid r = [171; 205]) by (vm_compute in E; by injection E as <-).
  destruct Hs as [Hs1 Hs2]. rewrite Hs1, Hs2 in H2. change (5 <? 0) with false in H2. cbv iota in H2.
  destruct H2 as (bytes & -> & H2 & _). exists bytes. split; [|exact H2].
  rewrite H1. assert (Hr : exists b, request_timeout 1 demo_waiting = Some (tt, dropped 1 demo_waiting, [To_client 5 b]))
    by (eexists; by vm_compute). destruct Hr as [b Hr]. congruence.
Defined.

Definition demo_reply (first : Z) : list Z :=
  [17; 34; 129; 128; 0; 1; 0; 1; 0; 0; 0; 0] ++ wire ([119; 119; 119] :: example_com) ++ 0 ::
  be_bytes16 DNS_TYPE_A ++ be_bytes16 1 ++ [192; 12] ++ be_bytes16 DNS_TYPE_A ++ be_bytes16 1 ++ [0; 0; 0; 60; 0; 4; first; 2; 3; 4].

Lemma query_relayed_witness :
  exists st1 st2 o, udp_listener_event demo_env demo_query demo_query_len 5 [17; 34] [51; 68] demo_server =
      Some (tt, st1, [To_server 7 ([17; 34] ++ qn_rest demo_question)]) /\
    udp_server_event demo_env (demo_reply 1) (Z.of_nat (length (demo_reply 1))) st1 =
      Some (tt, st2, map from_cache o ++ [To_client 5 (qn_id demo_question ++ drop 2 (demo_reply 1))]) /\
    heap st2 = heap demo_server /\ request_list st2 = request_list demo_server.
Proof.
  assert (Hd : exists d, server_list demo_server = [d] /\ plain_server d 7 /\ enabled d = true).
  { eexists. split; [by vm_compute|]. split; [split|]; by vm_compute. }
  destruct Hd as (d & Hl & Hd & He).
  destruct (query_relayed demo_env demo_server d 7 demo_question [0] 5 [17; 34] [51; 68] demo_question_ok) as (st1 & E & H);
    [done|done|by vm_compute|exact Hl|exact Hd|exact He|done|done|by vm_compute|by vm_compute|done| |].
  - intros j Hj. assert (En : request_list demo_server = []) by (by vm_compute). rewrite En in Hj. by apply not_elem_of_nil in Hj.
  - assert (Ew : st1 = demo_waiting) by (unfold demo_waiting, demo_query, demo_query_len; by rewrite E).
    assert (Hc : exists err c o, DnsCache.cache_update (cache_env demo_env) UDP (qn_id demo_question ++ drop 2 (demo_reply 1) ++ [])
      (Z.of_nat (2 + length (drop 2 (demo_reply 1)))) (cache demo_waiting) = Some (err, c, o)).
    { eexists _, _, _. by vm_compute. }
    destruct Hc as (err & c & o & Hc). rewrite Ew in H.
    destruct (H demo_env 129 128 (drop 4 (demo_reply 1)) [] err c o) as (st2 & E2 & Hh & Hr); [done|done|cbn; lia|done|exact Hc|].
    exists st1, st2, o. split; [exact E|]. rewrite Ew. split; [exact E2|]. by split.
Defined.

(** ** Where it does not do what it means to *)

Definition no_memory : env :=
  mk_env 1000 false (fun _ => true) (fun _ => inr 7) (fun _ => true) (fun _ => true) (fun _ => false).

(** An error in [forward_dns_reply] comes before the request leaves the list, and the request is freed
    all the same: the next reply that is looked up reads freed memory. *)
Lemma request_dangles :
  exists st, udp_server_event no_memory (demo_reply 1) (Z.of_nat (length (demo_reply 1))) demo_waiting = Some (tt, st, []) /\
    request_list st = [1] /\ heap st !! 1 = None /\
    udp_server_event demo_env (demo_reply 1) (Z.of_nat (length (demo_reply 1))) st = None.
Proof. eexists. split; [by vm_compute|]. split_and!; by vm_compute. Qed.

(** Success is the number of bytes sent, never 0: with two servers the request outlives its answer,
    and its timer sends the answer again. *)
Definition demo_two : proxy :=
  result (udp_listener_event demo_env demo_query demo_query_len 5 [17; 34] [51; 68]
    (result (__connman_dnsproxy_append demo_env 3 None (Some (49 :: demo_name)) demo_server))).

Lemma answered_twice :
  exists st bytes, udp_server_event demo_env (demo_reply 1) (Z.of_nat (length (demo_reply 1))) demo_two =
      Some (tt, st, [To_client 5 bytes]) /\
    request_timeout 2 st = Some (tt, dropped 2 st, [To_client 5 bytes]).
Proof. eexists _, _. split; by vm_compute. Qed.

End DnsForward.
