(* ===== verification/CText.v ===== *)
(** * Text as C and GLib see it

    Strings are lists of bytes without the terminator.  Here are the functions of the C
    library the HTTP code uses, written out, and the class [GText] of the functions of
    GLib on text, with what is documented of them. *)

From S2P Require Import Prelude Inet Buffer.
From stdpp Require Import list.
Open Scope Z_scope.

Definition CR : Z := 13.
Definition LF : Z := 10.
Definition SP : Z := 32.
Definition TAB : Z := 9.

Definition ULONG_MAX : Z := 2 ^ 64 - 1.

(** [memchr]: the bytes before the first [c] and those behind it. *)
Fixpoint memchr (c : Z) (l : list Z) : option (list Z * list Z) :=
  match l with
  | [] => None
  | b :: l => if b =? c then Some ([], l) else '(x, y) ← memchr c l; Some (b :: x, y)
  end.

Fixpoint prefix_of (p l : list Z) : bool :=
  match p, l with
  | [], _ => true
  | a :: p, b :: l => (a =? b) && prefix_of p l
  | _, [] => false
  end.

(** [memmem]: the bytes before the first occurrence and those behind it. *)
Fixpoint memmem (needle l : list Z) : option (list Z * list Z) :=
  if prefix_of needle l then Some ([], drop (length needle) l)
  else
    match l with
    | [] => None
    | b :: l => '(x, y) ← memmem needle l; Some (b :: x, y)
    end.

(** [isspace] in the C locale. *)
Definition isspace (b : Z) : bool := (b =? SP) || ((9 <=? b) && (b <=? 13)).

Fixpoint skip_while (f : Z -> bool) (l : list Z) : list Z :=
  match l with
  | [] => []
  | b :: l' => if f b then skip_while f l' else l
  end.

(** ** Numbers *)

Definition digit (base b : Z) : option Z :=
  let v := if (48 <=? b) && (b <=? 57) then b - 48
           else if (97 <=? b) && (b <=? 122) then b - 87
           else if (65 <=? b) && (b <=? 90) then b - 55
           else base in
  if v <? base then Some v else None.

(** The value of the digits at the start and what is behind them. *)
Fixpoint digits (base : Z) (l : list Z) (acc : Z) : Z * list Z :=
  match l with
  | [] => (acc, [])
  | b :: l' => match digit base b with
               | None => (acc, l)
               | Some v => digits base l' (acc * base + v)
               end
  end.

(** [strtoul] to a base of at most 16: the value and what is behind the number ([*endptr]). *)
Definition strtoul (base : Z) (l : list Z) : Z * list Z :=
  let l1 := skip_while isspace l in
  let '(neg, l2) := match l1 with
                    | 45 :: l2 => (true, l2)
                    | 43 :: l2 => (false, l2)
                    | _ => (false, l1)
                    end in
  let l3 := match l2 with
            | 48 :: x :: d :: l3 =>
                if (base =? 16) && ((x =? 120) || (x =? 88)) && bool_decide (is_Some (digit 16 d)) then d :: l3 else l2
            | _ => l2
            end in
  match l3 with
  | [] => (0, l)
  | d :: _ =>
      match digit base d with
      | None => (0, l)
      | Some _ =>
          let '(v, rest) := digits base l3 0 in
          if ULONG_MAX <? v then (ULONG_MAX, rest)
          else (if neg then u64 (- v) else v, rest)
      end
  end.

Definition digit_char (v : Z) : Z := if v <? 10 then 48 + v else 87 + v.

(** The digits of a number, as [printf] writes it. *)
Fixpoint print_digits (fuel : nat) (base n : Z) (acc : list Z) : list Z :=
  match fuel with
  | O => acc
  | S fuel =>
      let acc := digit_char (n mod base) :: acc in
      if n <? base then acc else print_digits fuel base (n / base) acc
  end.

(** 64 digits are enough for a number of 64 bits in every base. *)
Definition print_number (base n : Z) : list Z := print_digits 64 base n [].

(** ** GLib *)

Class GText := {
  (** White space. *)
  g_ascii_isspace : Z -> bool;
  g_ascii_isspace_space : g_ascii_isspace SP = true;
  g_ascii_isspace_alnum b : is_Some (digit 36 b) -> g_ascii_isspace b = false;
  (** Whether a string occurs in another. *)
  g_strrstr : list Z -> list Z -> bool;
  g_strrstr_spec hay needle : g_strrstr hay needle = true <-> exists a b, hay = a ++ needle ++ b;
  (** Whether two strings are equal but for the case of ASCII letters. *)
  g_ascii_strcasecmp : list Z -> list Z -> bool;
  g_ascii_strcasecmp_refl a : g_ascii_strcasecmp a a = true;
  g_ascii_strcasecmp_length a b : g_ascii_strcasecmp a b = true -> length a = length b;
}.

(** ** Lemmas *)

Lemma memchr_app c x y : Forall (fun b => b <> c) x -> memchr c (x ++ c :: y) = Some (x, y).
Proof.
  induction 1 as [|b x Hb _ IH]; cbn [app memchr]; [by rewrite Z.eqb_refl|].
  rewrite (proj2 (Z.eqb_neq b c)) by done. by rewrite IH.
Qed.

Lemma memchr_none c x : Forall (fun b => b <> c) x -> memchr c x = None.
Proof. induction 1 as [|b x Hb _ IH]; cbn [memchr]; [done|]. rewrite (proj2 (Z.eqb_neq b c)) by done. by rewrite IH. Qed.

Lemma memchr_inv c l : 
  match memchr c l with
  | Some (x, y) => l = x ++ c :: y /\ Forall (fun b => b <> c) x
  | None => Forall (fun b => b <> c) l
  end.
Proof.
  induction l as [|b l IH]; cbn [memchr]; [constructor|].
  destruct (Z.eqb_spec b c) as [->|Hb]; [by split|].
  destruct (memchr c l) as [[x y]|]; cbn [mbind option_bind].
  - destruct IH as [-> Hx]. split; [done|by constructor].
  - by constructor.
Qed.

Lemma digit_char_digit base v : 2 <= base <= 36 -> 0 <= v < base -> digit base (digit_char v) = Some v.
Proof.
  intros Hb Hv. unfold digit, digit_char. destruct (Z.ltb_spec v 10).
  - rewrite (proj2 (Z.leb_le 48 _)), (proj2 (Z.leb_le _ 57)) by lia. cbn [andb].
    replace (48 + v - 48) with v by lia. by rewrite (proj2 (Z.ltb_lt _ _)) by lia.
  - rewrite (proj2 (Z.leb_gt (87 + v) 57)) by lia. rewrite andb_false_r.
    rewrite (proj2 (Z.leb_le 97 _)), (proj2 (Z.leb_le _ 122)) by lia. cbn [andb].
    replace (87 + v - 87) with v by lia. by rewrite (proj2 (Z.ltb_lt _ _)) by lia.
Qed.

(** Printing and reading digits. *)
Lemma digits_print base rest : 2 <= base <= 36 -> forall fuel n acc k,
  0 <= n < base ^ Z.of_nat fuel -> (0 < fuel)%nat ->
  digits base (acc ++ rest) n = digits base rest k ->
  digits base (print_digits fuel base n acc ++ rest) 0 = digits base rest k.
Proof.
  intros Hb. induction fuel as [|fuel IH]; intros n acc k Hn Hf Hacc; [lia|]. cbn [print_digits].
  pose proof (Z.mod_pos_bound n base ltac:(lia)) as Hm.
  destruct (Z.ltb_spec n base) as [Hlt|Hge].
  - cbn [app digits]. rewrite Z.mod_small by lia. rewrite digit_char_digit by lia. by rewrite Z.mul_0_l, Z.add_0_l.
  - rewrite Nat2Z.inj_succ, Z.pow_succ_r in Hn by lia.
    assert (Hd : 0 < n / base) by (apply Z.div_str_pos; lia).
    assert (Hd2 : n / base < base ^ Z.of_nat fuel) by (apply Z.div_lt_upper_bound; lia).
    destruct fuel as [|fuel]; [cbn in Hd2; lia|]. apply IH; [lia|lia|].
    cbn [app digits]. rewrite digit_char_digit by lia.
    replace (n / base * base + n mod base) with n by (pose proof (Z.div_mod n base ltac:(lia)); lia). done.
Qed.

Lemma print_digits_cons fuel base n acc : (0 < fuel)%nat -> 2 <= base <= 16 -> 0 <= n ->
  exists v l, print_digits fuel base n acc = digit_char v :: l /\ 0 <= v < base.
Proof.
  intros Hf Hb. revert n acc. induction fuel as [|fuel IH]; intros n acc Hn; [lia|]. cbn [print_digits].
  pose proof (Z.mod_pos_bound n base ltac:(lia)) as Hm.
  destruct (n <? base); [by eexists _, _|].
  destruct fuel as [|fuel]; [by eexists _, _|]. apply IH; [lia|]. apply Z.div_pos; lia.
Qed.

Lemma print_digits_all base fuel : 2 <= base <= 36 -> forall n acc,
  0 <= n -> Forall (fun b => is_Some (digit base b)) acc -> Forall (fun b => is_Some (digit base b)) (print_digits fuel base n acc).
Proof.
  intros Hb. induction fuel as [|fuel IH]; intros n acc Hn Ha; cbn [print_digits]; [done|].
  pose proof (Z.mod_pos_bound n base ltac:(lia)) as Hm.
  assert (Hc : Forall (fun b => is_Some (digit base b)) (digit_char (n mod base) :: acc)).
  { constructor; [|done]. rewrite digit_char_digit by lia. by eexists. }
  destruct (n <? base); [done|]. apply IH; [apply Z.div_pos; lia|done].
Qed.

(** What may follow a number so that it ends there. *)
Definition ends_number (rest : list Z) : Prop :=
  match rest with [] => True | b :: _ => digit 16 b = None /\ b <> 120 /\ b <> 88 end.

Lemma digit_16 base b : base <= 16 -> digit 16 b = None -> digit base b = None.
Proof.
  intros Hb. unfold digit. repeat case_match; bool_to_prop; try done; intros _; lia.
Qed.

Lemma digit_no_space base b : is_Some (digit base b) -> base <= 16 -> 48 <= b <= 57 \/ 97 <= b <= 102 \/ 65 <= b <= 70.
Proof. intros [v Hv] Hb. unfold digit in Hv. repeat case_match; bool_to_prop; try done; lia. Qed.

Lemma strtoul_print base n rest :
  base = 10 \/ base = 16 -> 0 <= n < 2 ^ 64 -> ends_number rest ->
  strtoul base (print_number base n ++ rest) = (n, rest).
Proof.
  intros Hb Hn Hrest. assert (Hb2 : 2 <= base <= 16) by (destruct Hb; lia).
  assert (Hpow : n < base ^ Z.of_nat 64).
  { apply (Z.lt_le_trans _ (2 ^ Z.of_nat 64)); [exact (proj2 Hn)|]. apply Z.pow_le_mono_l. lia. }
  assert (Hd : digits base (print_number base n ++ rest) 0 = (n, rest)).
  { unfold print_number. rewrite (digits_print base rest ltac:(lia) 64 n [] n) by (try done; lia).
    destruct rest as [|b rest]; [done|]. cbn [digits]. destruct Hrest as [Hr _]. by rewrite (digit_16 base) by (try done; lia). }
  destruct (print_digits_cons 64 base n []) as (v & l & E & Hv); [lia|lia|lia|]. fold (print_number base n) in E.
  pose proof (print_digits_all base 64 ltac:(lia) n [] ltac:(lia) ltac:(constructor)) as Hall. fold (print_number base n) in Hall.
  rewrite E in *. apply Forall_cons_1 in Hall as [H1 Hall]. cbn [app] in *.
  pose proof (digit_no_space base _ H1 ltac:(lia)) as Hc. set (c := digit_char v) in *.
  assert (Hc0 : digit base c = Some v) by (apply digit_char_digit; lia).
  assert (Hx : match l ++ rest with [] => True | x :: _ => x <> 120 /\ x <> 88 end).
  { destruct l as [|x l]; cbn [app].
    - destruct rest; [done|]. destruct Hrest as (_ & ? & ?). done.
    - apply Forall_cons_1 in Hall as [H2 _]. apply (digit_no_space base) in H2; lia. }
  unfold strtoul. cbn [skip_while].
  assert (Hs : isspace c = false) by (unfold isspace, SP; rewrite (proj2 (Z.eqb_neq _ _)), (proj2 (Z.leb_gt c 13)) by lia; by rewrite andb_false_r).
  rewrite Hs. set (r := l ++ rest) in *.
  assert (Hsign : match c :: r with 45 :: l2 => (true, l2) | 43 :: l2 => (false, l2) | _ => (false, c :: r) end = (false, c :: r)).
  { destruct Hc as [Hc|[Hc|Hc]]; destruct c as [|p|p]; try lia; repeat (destruct p as [p|p|]; try done; try lia). }
  rewrite Hsign.
  assert (H0x : match c :: r with
                | 48 :: x :: d :: l3 =>
                    if (base =? 16) && ((x =? 120) || (x =? 88)) && bool_decide (is_Some (digit 16 d)) then d :: l3 else c :: r
                | _ => c :: r
                end = c :: r).
  { destruct r as [|x [|d r]]; [by repeat case_match|by repeat case_match|]. destruct Hx as [Hx1 Hx2].
    rewrite (proj2 (Z.eqb_neq x 120)), (proj2 (Z.eqb_neq x 88)) by done. rewrite andb_false_r. by repeat case_match. }
  rewrite H0x, Hc0, Hd. by rewrite (proj2 (Z.ltb_ge _ _)) by (unfold ULONG_MAX; lia).
Qed.

(** Leading white space. *)
Lemma strtoul_space base l n rest : strtoul base l = (n, rest) -> rest <> l -> strtoul base (SP :: l) = (n, rest).
Proof.
  unfold strtoul. change (skip_while isspace (SP :: l)) with (skip_while isspace l).
  intros E Hne. repeat case_match; simplify_eq; done.
Qed.

(** ** An instance of [GText] *)

Fixpoint occurs (needle hay : list Z) : bool :=
  prefix_of needle hay || match hay with [] => false | _ :: hay => occurs needle hay end.

Lemma prefix_of_spec p l : prefix_of p l = true <-> exists b, l = p ++ b.
Proof.
  revert l. induction p as [|a p IH]; intros l; cbn [prefix_of].
  - split; [by exists l|done].
  - destruct l as [|b l]; [split; [done|by intros [? ?]]|]. rewrite andb_true_iff, Z.eqb_eq, IH. split.
    + intros [-> [r ->]]. by exists r.
    + intros [r [= -> ->]]. split; [done|by exists r].
Qed.

Lemma occurs_spec needle hay : occurs needle hay = true <-> exists a b, hay = a ++ needle ++ b.
Proof.
  induction hay as [|x hay IH]; cbn [occurs]; rewrite orb_true_iff, prefix_of_spec.
  - split; [intros [[b Hb]|]; [by exists [], b|done]|]. intros (a & b & E). left. exists b. by destruct a.
  - rewrite IH. split.
    + intros [[b Hb]|(a & b & ->)]; [by exists [], b|by exists (x :: a), b].
    + intros ([|y a] & b & E); [left; by exists b|]. injection E as -> ->. right. by exists a, b.
Qed.

Definition to_lower (b : Z) : Z := if (65 <=? b) && (b <=? 90) then b + 32 else b.

Definition ascii_isspace (b : Z) : bool := (b =? SP) || (b =? 9) || (b =? 10) || (b =? 12) || (b =? 13).
Definition ascii_strcaseeq (a b : list Z) : bool := bytes_eqb (map to_lower a) (map to_lower b).

Lemma ascii_isspace_alnum b : is_Some (digit 36 b) -> ascii_isspace b = false.
Proof.
  intros [v Hv]. unfold digit in Hv. unfold ascii_isspace, SP. rewrite !orb_false_iff, !Z.eqb_neq.
  repeat case_match; bool_to_prop; simplify_eq; lia.
Qed.

Lemma ascii_strcaseeq_refl a : ascii_strcaseeq a a = true.
Proof. by apply bool_decide_eq_true. Qed.

Lemma ascii_strcaseeq_length a b : ascii_strcaseeq a b = true -> length a = length b.
Proof. intros E. apply bool_decide_eq_true in E. rewrite <- (length_map to_lower a), E. apply length_map. Qed.

#[local] Instance gtext_reference : GText := {
  g_ascii_isspace := ascii_isspace;
  g_ascii_isspace_space := eq_refl;
  g_ascii_isspace_alnum := ascii_isspace_alnum;
  g_strrstr hay needle := occurs needle hay;
  g_strrstr_spec hay needle := occurs_spec needle hay;
  g_ascii_strcasecmp := ascii_strcaseeq;
  g_ascii_strcasecmp_refl := ascii_strcaseeq_refl;
  g_ascii_strcasecmp_length := ascii_strcaseeq_length;
}.
