(* ===== verification/WebHttp.v ===== *)
(** * The HTTP client of gweb (gweb/gweb.c): receiving and sending

    A session reads its response in pieces of whatever size the transport delivers.  The
    header is split into lines and fields, and the body is passed on as it comes, or
    decoded first when it is sent in chunks.  The receiving and the sending half of
    [struct web_session] are records of their own; the calls of [result_func] are the outputs. *)

From S2P Require Import Prelude Inet Buffer CText.
From stdpp Require Import list gmap.
Open Scope Z_scope.

Module WebHttp.

Definition EILSEQ : Z := 84.
Definition ECONNRESET : Z := 104.
Definition DEFAULT_BUFFER_SIZE : Z := 2048.
Definition GWEB_HTTP_STATUS_CODE_UNKNOWN : Z := 0.

Inductive chunk_state := CHUNK_SIZE | CHUNK_R_BODY | CHUNK_N_BODY | CHUNK_DATA.

#[global] Instance chunk_state_eq_dec : EqDecision chunk_state.
Proof. solve_decision. Defined.

Record receiver := mk_receiver {
  status : Z;
  use_chunk : bool;
  last_key : option (list Z);
  headers : gmap (list Z) (list Z);
  current_header : list Z;
  header_done : bool;
  chunck_state : chunk_state;
  chunk_size : Z;
  chunk_left : Z;
  total_len : Z;
  transport_watch : bool;
  connect_timeout : bool;
}.

Inductive gerror :=
| Chunk_decode (err : Z)
| Io (errno : Z)
| Channel_error            (** the error of the channel, passed through *)
| Timed_out.

(** A call of [result_func] with the error and the data. *)
Inductive output := Result (error : option gerror) (buffer : list Z).

(** ** Parts of the state *)

Definition set_header (l : list Z) (s : receiver) : receiver :=
  mk_receiver (status s) (use_chunk s) (last_key s) (headers s) l (header_done s) (chunck_state s) (chunk_size s)
    (chunk_left s) (total_len s) (transport_watch s) (connect_timeout s).
Definition set_chunck_state (c : chunk_state) (s : receiver) : receiver :=
  mk_receiver (status s) (use_chunk s) (last_key s) (headers s) (current_header s) (header_done s) c (chunk_size s)
    (chunk_left s) (total_len s) (transport_watch s) (connect_timeout s).
Definition set_chunk (c : chunk_state) (size left : Z) (s : receiver) : receiver :=
  mk_receiver (status s) (use_chunk s) (last_key s) (headers s) (current_header s) (header_done s) c size
    left (total_len s) (transport_watch s) (connect_timeout s).
Definition set_left (left total : Z) (s : receiver) : receiver :=
  mk_receiver (status s) (use_chunk s) (last_key s) (headers s) (current_header s) (header_done s) (chunck_state s)
    (chunk_size s) left total (transport_watch s) (connect_timeout s).
Definition set_field (key value : list Z) (s : receiver) : receiver :=
  mk_receiver (status s) (use_chunk s) (Some key) (<[key := value]> (headers s)) (current_header s) (header_done s)
    (chunck_state s) (chunk_size s) (chunk_left s) (total_len s) (transport_watch s) (connect_timeout s).
Definition set_status (code : Z) (s : receiver) : receiver :=
  mk_receiver code (use_chunk s) (last_key s) (headers s) (current_header s) (header_done s) (chunck_state s)
    (chunk_size s) (chunk_left s) (total_len s) (transport_watch s) (connect_timeout s).
Definition set_done (chunked : bool) (s : receiver) : receiver :=
  if chunked
  then mk_receiver (status s) true (last_key s) (headers s) (current_header s) true CHUNK_SIZE (chunk_size s) 0 0
         (transport_watch s) (connect_timeout s)
  else mk_receiver (status s) (use_chunk s) (last_key s) (headers s) (current_header s) true (chunck_state s)
         (chunk_size s) (chunk_left s) (total_len s) (transport_watch s) (connect_timeout s).
Definition stop_watch (s : receiver) : receiver :=
  mk_receiver (status s) (use_chunk s) (last_key s) (headers s) (current_header s) (header_done s) (chunck_state s)
    (chunk_size s) (chunk_left s) (total_len s) false (connect_timeout s).
Definition cancel_connect_timeout (s : receiver) : receiver :=
  mk_receiver (status s) (use_chunk s) (last_key s) (headers s) (current_header s) (header_done s) (chunck_state s)
    (chunk_size s) (chunk_left s) (total_len s) (transport_watch s) false.

(** [g_string_append_len] to the header. *)
Definition append_header (l : list Z) (s : receiver) : receiver := set_header (current_header s ++ l) s.

(** ** Chunks *)

(** ** Sending *)

Record sender := mk_sender {
  send_buffer : list Z;
  more_data : bool;
  body_done : bool;
  request_started : bool;
  fd : option Z;             (** -1 is no file *)
  length_ : Z;
  offset : Z;
}.

(** What a request says, of the session and of its [GWeb]. *)
Record request_text := mk_text {
  request : list Z;
  host : list Z;
  content_type : option (list Z);
  http_version : option (list Z);
  user_agent : option (list Z);
  user_agent_profile : option (list Z);
  accept_option : option (list Z);
  close_connection : bool;
}.

(** The transport and the file during one call: what [g_io_channel_write_chars] takes of a buffer ([None] is an
    error), the socket, and what [sendfile] returns and whether [errno] is [EAGAIN]. *)
Record transport := mk_transport {
  write : list Z -> option nat;
  sk : Z;
  sendfile : Z;
  eagain : bool;
}.

Definition set_buffer (b : list Z) (s : sender) : sender :=
  mk_sender b (more_data s) (body_done s) (request_started s) (fd s) (length_ s) (offset s).
Definition set_more (m : bool) (s : sender) : sender :=
  mk_sender (send_buffer s) m (body_done s) (request_started s) (fd s) (length_ s) (offset s).
Definition set_body_done (s : sender) : sender :=
  mk_sender (send_buffer s) (more_data s) true (request_started s) (fd s) (length_ s) (offset s).
Definition set_started (s : sender) : sender :=
  mk_sender (send_buffer s) (more_data s) (body_done s) true (fd s) (length_ s) (offset s).
Definition set_file (len off : Z) (s : sender) : sender :=
  mk_sender (send_buffer s) (more_data s) (body_done s) (request_started s) (fd s) len off.

(** The new state, the bytes that were written, and the return value. *)
Definition process_send_buffer (t : transport) (s : sender) : sender * list Z * bool :=
  let buf := send_buffer s in
  if bool_decide (buf = []) then
    (if request_started s && negb (more_data s) && bool_decide (fd s = None) then set_body_done s else s, [], false)
  else
    match write t buf with
    | None => (s, [], false)
    | Some n => (set_buffer (drop n buf) s, take n buf, true)
    end.

Definition process_send_file (t : transport) (s : sender) : sender * bool :=
  match fd s with
  | None => (s, false)
  | Some _ =>
      if negb (request_started s) || more_data s then (s, false)
      else if sk t <? 0 then (s, false)
      else if (sendfile t <? 0) && negb (eagain t) then (s, false)
      else
        let s := set_file (u64 (length_ s - sendfile t)) (if sendfile t <? 0 then offset s else offset s + sendfile t) s in
        if length_ s =? 0 then (set_body_done s, false) else (s, true)
  end.

Definition CRLF : list Z := [CR; LF].

(** A chunk: its size in hexadecimal, and the data. *)
Definition chunk (body : list Z) : list Z :=
  print_number 16 (Z.of_nat (length body)) ++ CRLF ++ body ++ CRLF.

Definition last_chunk : list Z := [48] ++ CRLF ++ CRLF.

(** [input] is what [input_func] gives, if there is one: data, and whether there is more. *)
Definition process_next_chunk (input : option (list Z * bool)) (s : sender) : sender :=
  match input with
  | None => set_more false s
  | Some (body, more) =>
      let s := set_more more s in
      let s := if bool_decide (body = []) then s else set_buffer (send_buffer s ++ chunk body) s in
      if negb more then set_buffer (send_buffer s ++ last_chunk) s else s
  end.

(** A line of the header: the name with its colon, and the value if there is one. *)
Definition header_text (name : list Z) (value : option (list Z)) : list Z :=
  match value with Some v => name ++ v ++ CRLF | None => [] end.

Definition GET_ : list Z := [71; 69; 84; 32].
Definition POST_ : list Z := [80; 79; 83; 84; 32].
Definition HTTP_1 : list Z := [32; 72; 84; 84; 80; 47].
Definition version_1_1 : list Z := [49; 46; 49].
Definition Host_ : list Z := [72; 111; 115; 116; 58; 32].
Definition User_Agent_ : list Z := [85; 115; 101; 114; 45; 65; 103; 101; 110; 116; 58; 32].
Definition x_wap_profile_ : list Z := [120; 45; 119; 97; 112; 45; 112; 114; 111; 102; 105; 108; 101; 58; 32].
Definition Accept_ : list Z := [65; 99; 99; 101; 112; 116; 58; 32].
Definition Content_Type_ : list Z := [67; 111; 110; 116; 101; 110; 116; 45; 84; 121; 112; 101; 58; 32].
Definition Content_Length_ : list Z := [67; 111; 110; 116; 101; 110; 116; 45; 76; 101; 110; 103; 116; 104; 58; 32].
Definition Transfer_Encoding_chunked : list Z :=
  [84; 114; 97; 110; 115; 102; 101; 114; 45; 69; 110; 99; 111; 100; 105; 110; 103; 58; 32; 99; 104; 117; 110; 107; 101; 100] ++ CRLF.
Definition Connection_close : list Z :=
  [67; 111; 110; 110; 101; 99; 116; 105; 111; 110; 58; 32; 99; 108; 111; 115; 101] ++ CRLF.

Definition start_request (r : request_text) (input : option (list Z * bool)) (s : sender) : sender :=
  let version := match http_version r with Some v => v | None => version_1_1 end in
  let first := (match content_type r with None => GET_ | Some _ => POST_ end) ++ request r ++ HTTP_1 ++ version ++ CRLF in
  let fixed := first ++ header_text Host_ (Some (host r)) ++ header_text User_Agent_ (user_agent r) ++
    header_text x_wap_profile_ (user_agent_profile r) ++ header_text Accept_ (accept_option r) in
  let close := if close_connection r then Connection_close else [] in
  match content_type r with
  | None => set_buffer (fixed ++ close ++ CRLF) s
  | Some _ =>
      let '(body, more, len) := match input with
                                | None => ([], false, length_ s)
                                | Some (body, more) => (body, more, Z.of_nat (length body))
                                end in
      let s := set_more more s in
      let kind := if negb more then header_text Content_Length_ (Some (print_number 10 len)) else Transfer_Encoding_chunked in
      let data := if len =? 0 then []
                  else if more then chunk body
                  else if bool_decide (fd s = None) then body else [] in
      set_buffer (fixed ++ header_text Content_Type_ (content_type r) ++ kind ++ close ++ CRLF ++ data) s
  end.

(** The channel can be written to, or has an error; the result says whether to watch it further. *)
Definition send_data (t : transport) (bad : bool) (r : request_text) (input : option (list Z * bool)) (s : sender) :
    sender * list Z * bool :=
  if bad then (s, [], false)
  else
    let '(s, out, more) := process_send_buffer t s in
    if (more : bool) then (s, out, true)
    else
      let '(s, more) := process_send_file t s in
      if (more : bool) then (s, out, true)
      else
        let s := if negb (request_started s) then start_request r input (set_started s)
                 else if more_data s then process_next_chunk input s else s in
        let '(s, out2, _) := process_send_buffer t s in
        (s, out ++ out2, negb (body_done s)).

Section receiving.
Context {gt : GText}.
(** Whether [errno] is [EINVAL] when it is read after [strtoul], which does not reset it. *)
Context (einval : bool).

(** One round of the loop of [decode_chunked] on the bytes that are left: the return value, or what is left then. *)
Definition decode_step (s : receiver) (ptr : list Z) : receiver * list output * (Z + list Z) :=
  match chunck_state s with
  | CHUNK_SIZE =>
      match memchr LF ptr with
      | None => (append_header ptr s, [], inl 0)
      | Some (line, rest) =>
          if negb (bool_decide (last line = Some CR)) then (s, [], inl (- EILSEQ))
          else
            let s := append_header line s in
            let counter := (strtoul 16 (upto_nul (current_header s))).1 in
            if ((counter =? 0) && einval) || (counter =? ULONG_MAX) then (s, [], inl (- EILSEQ))
            else (set_chunk CHUNK_DATA counter counter s, [], inr rest)
      end
  | CHUNK_R_BODY =>
      match ptr with
      | b :: rest => if b =? CR then (set_chunck_state CHUNK_N_BODY s, [], inr rest) else (s, [], inl (- EILSEQ))
      | [] => (s, [], inl 0)
      end
  | CHUNK_N_BODY =>
      match ptr with
      | b :: rest => if b =? LF then (set_chunck_state CHUNK_SIZE s, [], inr rest) else (s, [], inl (- EILSEQ))
      | [] => (s, [], inl 0)
      end
  | CHUNK_DATA =>
      if chunk_size s =? 0 then (set_header [] s, [], inl 0)
      else if chunk_left s <=? Z.of_nat (length ptr) then
        let n := Z.to_nat (chunk_left s) in
        (set_chunck_state CHUNK_R_BODY (set_header [] (set_left 0 (u64 (total_len s + chunk_left s)) s)),
         [Result None (take n ptr)], inr (drop n ptr))
      else
        let len := Z.of_nat (length ptr) in
        (set_left (chunk_left s - len) (u64 (total_len s + len)) s, [Result None ptr], inr [])
  end.

Fixpoint decode_loop (fuel : nat) (s : receiver) (ptr : list Z) : option (receiver * list output * Z) :=
  match ptr with
  | [] => Some (s, [], 0)
  | _ =>
      match fuel with
      | O => None
      | S fuel =>
          let '(s, o, r) := decode_step s ptr in
          match r with
          | inl err => Some (s, o, err)
          | inr rest => '(s, o', err) ← decode_loop fuel s rest; Some (s, o ++ o', err)
          end
      end
  end.

(** A round consumes a byte or leaves [CHUNK_DATA]. *)
Definition decode_measure (s : receiver) (ptr : list Z) : nat :=
  2 * length ptr + (if bool_decide (chunck_state s = CHUNK_DATA) then 1 else 0).

Definition decode_chunked (s : receiver) (buf : list Z) : option (receiver * list output * Z) :=
  decode_loop (S (decode_measure s buf)) s buf.

Definition handle_body (s : receiver) (buf : list Z) : option (receiver * list output * Z) :=
  if negb (use_chunk s) then
    Some (s, if bool_decide (buf = []) then [] else [Result None buf], 0)
  else
    '(s, o, err) ← decode_chunked s buf;
    if err <? 0 then Some (s, o ++ [Result (Some (Chunk_decode err)) []], err) else Some (s, o, err).

(** ** Header lines *)

Definition is_blank (b : Z) : bool := (b =? SP) || (b =? TAB).

Definition handle_multi_line (s : receiver) : receiver :=
  match last_key s, current_header s with
  | Some key, b :: _ =>
      if negb (is_blank b) then s
      else
        let s := set_header (SP :: skip_while is_blank (current_header s)) s in
        match headers s !! key with
        | None => s
        | Some value =>
            let s := set_header (value ++ current_header s) s in
            set_field key (upto_nul (current_header s)) s
        end
  | _, _ => s
  end.

Definition colon : Z := 58.
Definition semicolon : Z := 59.

Definition add_header_field (s : receiver) : receiver :=
  match memchr colon (current_header s) with
  | None => s
  | Some (name, rest) =>
      let key := upto_nul name in
      let rest := skip_while (Z.eqb SP) rest in
      let line := match headers s !! key with
                  | Some value => value ++ [semicolon; SP] ++ rest
                  | None => rest
                  end in
      set_field key (upto_nul line) (set_header line s)
  end.

(** [sscanf (str, "HTTP/%*s %u %*s", &code) == 1] *)
Definition HTTP_slash : list Z := [72; 84; 84; 80; 47].

Definition scan_status (str : list Z) : option Z :=
  if negb (prefix_of HTTP_slash str) then None
  else
    match skip_while isspace (drop 5 str) with
    | [] => None
    | l =>
        let l := skip_while (fun b => negb (isspace b)) l in
        let '(v, rest) := strtoul 10 l in
        if (length rest =? length l)%nat then None else Some (u32 v)
    end.

Definition Transfer_Encoding : list Z :=
  [84; 114; 97; 110; 115; 102; 101; 114; 45; 69; 110; 99; 111; 100; 105; 110; 103].
Definition chunked : list Z := [99; 104; 117; 110; 107; 101; 100].

(** A complete line that is not empty. *)
Definition header_line (s : receiver) : receiver :=
  let str := upto_nul (current_header s) in
  let s := if status s =? GWEB_HTTP_STATUS_CODE_UNKNOWN then
             match scan_status str with Some code => set_status (u16 code) s | None => s end
           else s in
  let s := match str with
           | b :: _ => if is_blank b then handle_multi_line s else add_header_field s
           | [] => add_header_field s
           end in
  set_header [] s.

(** Whether the response says that its body is sent in chunks. *)
Definition announces_chunks (s : receiver) : bool :=
  match headers s !! Transfer_Encoding with Some val => g_strrstr val chunked | None => false end.

Definition strip_cr (line : list Z) : list Z :=
  if bool_decide (last line = Some CR) then removelast line else line.

(** The body, and whether to go on watching the channel. *)
Definition body (s : receiver) (buf : list Z) : option (receiver * list output * bool) :=
  '(s, o, err) ← handle_body s buf;
  if err <? 0 then Some (stop_watch s, o, false) else Some (s, o, true).

(** The loop over the lines. *)
Fixpoint header_loop (fuel : nat) (s : receiver) (ptr : list Z) : option (receiver * list output * bool) :=
  match ptr with
  | [] => Some (s, [], true)
  | _ =>
      match fuel with
      | O => None
      | S fuel =>
          match memchr LF ptr with
          | None => Some (append_header ptr s, [], true)
          | Some (line, rest) =>
              let s := append_header (strip_cr line) s in
              match current_header s with
              | [] =>
                  body (set_done (announces_chunks s) s) rest
              | _ => header_loop fuel (header_line s) rest
              end
          end
      end
  end.

Definition received_data_continue (s : receiver) (buf : list Z) : option (receiver * list output * bool) :=
  if header_done s then body s buf
  else header_loop (length buf) s buf.

(** ** The watch of the channel *)

Inductive io_status := Io_error (given : bool) | Io_eof | Io_data.

Definition g_web_result_has_headers (s : receiver) : bool := bool_decide (headers s <> ∅).

Definition received_data_finalize (s : receiver) (st : io_status) (bytes_available bytes_read : Z) :
    receiver * list output * bool :=
  let passed := match st with
                | Io_error given => Some (if given then Channel_error else Io EIO)
                | Io_eof =>
                    if (0 <? bytes_available) && (bytes_read =? 0) && negb (g_web_result_has_headers s)
                    then Some (Io ECONNRESET) else None
                | Io_data => None
                end in
  (stop_watch s, [Result passed []], false).

(** [bad] is the condition of the channel, [st] and [bytes] what reading it gives. *)
Definition received_data (s : receiver) (bad : bool) (st : io_status) (bytes : list Z) : option (receiver * list output * bool) :=
  let s := cancel_connect_timeout s in
  if bad then Some (stop_watch s, [Result (Some (Io EIO)) []], false)
  else
    match st with
    | Io_data => received_data_continue s bytes
    | _ => Some (received_data_finalize s st (DEFAULT_BUFFER_SIZE - 1) (Z.of_nat (length bytes)))
    end.

(** The transport is closed too. *)
Definition connect_timeout_cb (s : receiver) : receiver * list output :=
  (stop_watch (cancel_connect_timeout s), [Result (Some Timed_out) []]).

(** The pieces of a response, one call each, while the channel is watched. *)
Fixpoint receive (s : receiver) (frs : list (list Z)) : option (receiver * list output * bool) :=
  match frs with
  | [] => Some (s, [], true)
  | f :: frs =>
      '(s1, o1, go) ← received_data_continue s f;
      if (go : bool) then '(s2, o2, go2) ← receive s1 frs; Some (s2, o1 ++ o2, go2) else Some (s1, o1, false)
  end.

(** ** Theory: the loop of the decoder *)

Lemma decode_step_less s ptr s' o rest :
  ptr <> [] -> decode_step s ptr = (s', o, inr rest) -> (decode_measure s' rest < decode_measure s ptr)%nat.
Proof.
  intros Hp. unfold decode_step, decode_measure. destruct (chunck_state s) eqn:Es.
  - pose proof (memchr_inv LF ptr) as Hm. destruct (memchr LF ptr) as [[line r]|]; [|done].
    destruct (negb _) eqn:Hl; [done|]. case_match; [done|]. intros [= <- <- <-]. destruct Hm as [-> _].
    apply negb_false_iff, bool_decide_eq_true in Hl. destruct line as [|b line]; [done|].
    rewrite length_app. cbn [length chunck_state set_chunk]. repeat case_bool_decide; try done; lia.
  - destruct ptr as [|b ptr]; [done|]. case_match; [|done]. intros [= <- <- <-]. cbn [length chunck_state set_chunck_state].
    repeat case_bool_decide; try done; lia.
  - destruct ptr as [|b ptr]; [done|]. case_match; [|done]. intros [= <- <- <-]. cbn [length chunck_state set_chunck_state].
    repeat case_bool_decide; try done; lia.
  - case_match; [done|]. case_match; intros [= <- <- <-].
    + cbn [chunck_state set_chunck_state]. rewrite length_drop. repeat case_bool_decide; try done; lia.
    + destruct ptr; [done|]. cbn [length chunck_state set_left]. repeat case_bool_decide; lia.
Qed.

(** Fuel is never missing, and more of it changes nothing. *)
Lemma decode_loop_enough : forall fuel fuel' s ptr,
  (decode_measure s ptr < fuel)%nat -> (decode_measure s ptr < fuel')%nat ->
  decode_loop fuel s ptr = decode_loop fuel' s ptr /\ is_Some (decode_loop fuel s ptr).
Proof.
  induction fuel as [|fuel IH]; intros fuel' s ptr Hf Hf'; [lia|]. destruct fuel' as [|fuel']; [lia|].
  cbn [decode_loop]. destruct ptr as [|b ptr]; [by split|].
  destruct (decode_step s (b :: ptr)) as [[s' o] [err|rest]] eqn:E; [by split|].
  apply decode_step_less in E; [|done].
  destruct (IH fuel' s' rest) as [Heq [[[s2 o2] e2] H2]]; [lia|lia|]. rewrite <- Heq, H2. cbn. by split.
Qed.

Lemma decode_chunked_nil s : decode_chunked s [] = Some (s, [], 0).
Proof. done. Qed.

Lemma decode_chunked_cons s ptr :
  ptr <> [] -> decode_chunked s ptr =
    let '(s', o, r) := decode_step s ptr in
    match r with
    | inl err => Some (s', o, err)
    | inr rest => '(s'', o', err) ← decode_chunked s' rest; Some (s'', o ++ o', err)
    end.
Proof.
  intros Hp. unfold decode_chunked at 1. cbn [decode_loop]. destruct ptr as [|b ptr]; [done|].
  destruct (decode_step s (b :: ptr)) as [[s' o] [err|rest]] eqn:E; [done|].
  apply decode_step_less in E; [|done].
  destruct (decode_loop_enough (decode_measure s (b :: ptr)) (S (decode_measure s' rest)) s' rest) as [Heq _]; [lia|lia|].
  unfold decode_chunked. by rewrite Heq.
Qed.

Lemma decode_chunked_total s ptr : exists s' o err, decode_chunked s ptr = Some (s', o, err).
Proof.
  destruct (decode_loop_enough (S (decode_measure s ptr)) (S (decode_measure s ptr)) s ptr) as [_ [[[s' o] err] H]]; [lia|lia|].
  by exists s', o, err.
Qed.

#[local] Arguments decode_chunked : simpl never.

(** ** Fragments do not matter *)

(** The data the client gets: the calls without an error. *)
Definition data_of (o : output) : list Z := match o with Result None b => b | Result (Some _) _ => [] end.
Definition delivered (o : list output) : list Z := concat (map data_of o).

Definition errors_of (o : list output) : list gerror :=
  omap (fun x => match x with Result e _ => e end) o.

Lemma delivered_app a b : delivered (a ++ b) = delivered a ++ delivered b.
Proof. unfold delivered. by rewrite map_app, concat_app. Qed.

(** The same but for how the data is cut into calls; the state does not matter after an error. *)
Definition same_run (x y : receiver * list output * Z) : Prop :=
  x.2 = y.2 /\ delivered x.1.2 = delivered y.1.2 /\ (x.2 = 0 -> x.1.1 = y.1.1).

(** The line break behind a chunk size has been torn apart. *)
Definition torn (s : receiver) (b : list Z) : Prop :=
  chunck_state s = CHUNK_SIZE /\ last (current_header s) = Some CR /\ head b = Some LF.

Lemma memchr_app_l c a b x y : memchr c a = Some (x, y) -> memchr c (a ++ b) = Some (x, y ++ b).
Proof.
  intros E. pose proof (memchr_inv c a) as Hm. rewrite E in Hm. destruct Hm as [-> Hx].
  rewrite <- app_assoc. by apply memchr_app.
Qed.

Lemma memchr_app_r c a b : memchr c a = None ->
  memchr c (a ++ b) = match memchr c b with Some (x, y) => Some (a ++ x, y) | None => None end.
Proof.
  intros E. pose proof (memchr_inv c a) as Hm. rewrite E in Hm. clear E.
  induction Hm as [|x a Hx _ IH]; cbn [app memchr]; [by destruct (memchr c b) as [[? ?]|]|].
  rewrite (proj2 (Z.eqb_neq x c)) by done. rewrite IH. by destruct (memchr c b) as [[? ?]|].
Qed.

Lemma last_app_ne {A} (a b : list A) : b <> [] -> last (a ++ b) = last b.
Proof. intros Hb. rewrite last_app. destruct (last b) eqn:E; [done|]. by apply last_None in E. Qed.

Lemma append_header_app a b s : append_header b (append_header a s) = append_header (a ++ b) s.
Proof. unfold append_header, set_header. cbn. by rewrite app_assoc. Qed.

Definition then_decode (r : option (receiver * list output * Z)) (b : list Z) : option (receiver * list output * Z) :=
  '(s1, o1, e1) ← r;
  if e1 =? 0 then '(s2, o2, e2) ← decode_chunked s1 b; Some (s2, o1 ++ o2, e2) else Some (s1, o1, e1).

Definition runs_alike (x y : option (receiver * list output * Z)) : Prop :=
  exists r r', x = Some r /\ y = Some r' /\ same_run r r'.

Lemma runs_alike_refl s ptr : runs_alike (decode_chunked s ptr) (decode_chunked s ptr).
Proof. destruct (decode_chunked_total s ptr) as (s' & o & e & E). rewrite E. by eexists _, _. Qed.

Lemma runs_alike_prepend o1 o2 x y : delivered o1 = delivered o2 -> runs_alike x y ->
  runs_alike ('(s, o, e) ← x; Some (s, o1 ++ o, e)) ('(s, o, e) ← y; Some (s, o2 ++ o, e)).
Proof.
  intros Ho ([[s o] e] & [[s' o'] e'] & -> & -> & (H1 & H2 & H3)). cbn [fst snd] in *.
  eexists _, _. split_and!; [done|done|]. split_and!; cbn [fst snd]; [done| |done]. rewrite !delivered_app. congruence.
Qed.

Lemma then_decode_nil s ptr : runs_alike (decode_chunked s ptr) (then_decode (decode_chunked s ptr) []).
Proof.
  destruct (decode_chunked_total s ptr) as (s' & o & e & E). rewrite E. cbn. destruct (Z.eqb_spec e 0) as [->|].
  - rewrite decode_chunked_nil. cbn. rewrite app_nil_r. by eexists _, _.
  - by eexists _, _.
Qed.

Lemma then_decode_step b s' o rest :
  then_decode ('(s2, o2, e2) ← decode_chunked s' rest; Some (s2, o ++ o2, e2)) b =
  '(s2, o2, e2) ← then_decode (decode_chunked s' rest) b; Some (s2, o ++ o2, e2).
Proof.
  destruct (decode_chunked_total s' rest) as (s2 & o2 & e2 & ->). cbn. destruct (e2 =? 0); [|done].
  destruct (decode_chunked_total s2 b) as (s3 & o3 & e3 & ->). cbn. by rewrite app_assoc.
Qed.

Lemma split_at_nothing s a b : a = [] \/ b = [] -> runs_alike (decode_chunked s (a ++ b)) (then_decode (decode_chunked s a) b).
Proof.
  intros [-> | ->].
  - cbn [app]. rewrite decode_chunked_nil. cbn. destruct (decode_chunked_total s b) as (s' & o & e & ->). by eexists _, _.
  - rewrite app_nil_r. apply then_decode_nil.
Qed.

(** The first piece ends in the line with the size. *)
Lemma split_in_line s a b :
  a <> [] -> b <> [] -> chunck_state s = CHUNK_SIZE -> memchr LF a = None -> ~ torn (append_header a s) b ->
  runs_alike (decode_chunked s (a ++ b)) (then_decode (decode_chunked s a) b).
Proof.
  intros Ha Hb Es Em Ht. assert (Hab : a ++ b <> []) by (by destruct a).
  assert (E1 : decode_chunked s a = Some (append_header a s, [], 0)).
  { rewrite decode_chunked_cons by done. unfold decode_step. by rewrite Es, Em. }
  rewrite E1. cbn [then_decode mbind option_bind]. change (0 =? 0) with true. cbv iota.
  rewrite (decode_chunked_cons s (a ++ b)), (decode_chunked_cons _ b) by done.
  unfold decode_step. cbn [append_header set_header chunck_state]. rewrite Es, (memchr_app_r _ _ _ Em).
  fold (set_header (current_header s ++ a) s) (append_header a s).
  pose proof (memchr_inv LF b) as Hmb. destruct (memchr LF b) as [[line rest]|]; rewrite append_header_app; [|by eexists _, _].
  destruct Hmb as [-> Hline].
  assert (Hlast : bool_decide (last (a ++ line) = Some CR) = bool_decide (last line = Some CR)).
  { destruct line as [|x line]; [|by rewrite last_app_ne by done].
    rewrite app_nil_r. apply bool_decide_ext. split; [|done]. intros Hl. exfalso. apply Ht. split_and!; [done| |done].
    cbn [append_header set_header current_header]. by rewrite last_app_ne by done. }
  rewrite Hlast. destruct (negb _); [by eexists _, _|].
  unfold append_header, set_header. cbn [status use_chunk last_key headers current_header header_done chunck_state chunk_size
    chunk_left total_len transport_watch connect_timeout]. destruct (_ || _); [by eexists _, _|].
  match goal with |- context [decode_chunked ?x rest] => destruct (decode_chunked_total x rest) as (s2 & o2 & e2 & ->) end.
  by eexists _, _.
Qed.

(** The first piece ends in the data of a chunk. *)
Lemma split_in_chunk s a b :
  a <> [] -> b <> [] -> chunck_state s = CHUNK_DATA -> chunk_size s <> 0 -> Z.of_nat (length a) < chunk_left s ->
  runs_alike (decode_chunked s (a ++ b)) (then_decode (decode_chunked s a) b).
Proof.
  intros Ha Hb Es Hz Hgt. assert (Hab : a ++ b <> []) by (by destruct a).
  set (s1 := set_left (chunk_left s - Z.of_nat (length a)) (u64 (total_len s + Z.of_nat (length a))) s).
  assert (E1 : decode_chunked s a = Some (s1, [Result None a], 0)).
  { rewrite decode_chunked_cons by done. unfold decode_step. by rewrite Es, (proj2 (Z.eqb_neq _ _) Hz), (proj2 (Z.leb_gt _ _) Hgt). }
  rewrite E1. cbn [then_decode mbind option_bind]. change (0 =? 0) with true. cbv iota.
  rewrite (decode_chunked_cons s (a ++ b)), (decode_chunked_cons s1 b) by done.
  unfold decode_step. subst s1. cbn [chunck_state chunk_size chunk_left total_len set_left]. rewrite Es, (proj2 (Z.eqb_neq _ _) Hz).
  rewrite length_app, Nat2Z.inj_add, !u64_add_l.
  destruct (Z.leb_spec (chunk_left s) (Z.of_nat (length a) + Z.of_nat (length b))) as [Hle|Hgt2].
  - rewrite (proj2 (Z.leb_le _ (Z.of_nat (length b)))) by lia.
    replace (Z.to_nat (chunk_left s)) with (length a + Z.to_nat (chunk_left s - Z.of_nat (length a)))%nat by lia.
    rewrite take_app_add, drop_app_add.
    replace (total_len s + Z.of_nat (length a) + (chunk_left s - Z.of_nat (length a))) with (total_len s + chunk_left s) by lia.
    unfold set_chunck_state, set_header, set_left.
    cbn [status use_chunk last_key headers current_header header_done chunck_state chunk_size chunk_left total_len transport_watch connect_timeout].
    match goal with |- context [decode_chunked ?x ?r] => destruct (decode_chunked_total x r) as (s2 & o2 & e2 & ->) end.
    eexists _, _. split_and!; [done|done|]. split_and!; [done| |done].
    unfold delivered. cbn [fst snd map app concat data_of]. by rewrite app_assoc.
  - rewrite (proj2 (Z.leb_gt _ (Z.of_nat (length b)))) by lia. rewrite !decode_chunked_nil.
    eexists _, _. split_and!; [done|done|]. split_and!; [done| |intros _]; cbn [fst snd].
    + unfold delivered. cbn. by rewrite !app_nil_r.
    + unfold set_left. cbn [status use_chunk last_key headers current_header header_done chunck_state chunk_size chunk_left total_len
        transport_watch connect_timeout]. rewrite Z.sub_add_distr, Z.add_assoc. done.
Qed.

(** A step that does not see the end of the first piece. *)
Lemma step_app s a b : a <> [] ->
  match chunck_state s with
  | CHUNK_SIZE => memchr LF a <> None
  | CHUNK_DATA => chunk_size s <> 0 /\ chunk_left s <= Z.of_nat (length a)
  | _ => True
  end ->
  exists s' o r, decode_step s a = (s', o, r) /\ decode_step s (a ++ b) = (s', o, match r with inl e => inl e | inr l => inr (l ++ b) end) /\
    (r <> inl 0).
Proof.
  intros Ha. unfold decode_step. destruct (chunck_state s) eqn:Es.
  - intros Hm. destruct (memchr LF a) as [[line rest]|] eqn:Em; [|done]. rewrite (memchr_app_l _ _ b _ _ Em).
    destruct (negb _); [by eexists _, _, _|]. destruct (_ || _); by eexists _, _, _.
  - intros _. destruct a as [|x a]; [done|]. cbn [app]. destruct (x =? CR); by eexists _, _, _.
  - intros _. destruct a as [|x a]; [done|]. cbn [app]. destruct (x =? LF); by eexists _, _, _.
  - intros [Hz Hle]. rewrite (proj2 (Z.eqb_neq _ _) Hz), length_app, (proj2 (Z.leb_le _ _) Hle), (proj2 (Z.leb_le _ _)) by lia.
    rewrite take_app_le, drop_app_le by lia. by eexists _, _, _.
Qed.

(** Decoding what comes in two pieces is decoding it in one. *)
Lemma decode_split : forall n s a b, (decode_measure s a < n)%nat ->
  (forall s1 o1, decode_chunked s a = Some (s1, o1, 0) -> ~ torn s1 b) ->
  runs_alike (decode_chunked s (a ++ b)) (then_decode (decode_chunked s a) b).
Proof.
  induction n as [|n IH]; intros s a b Hn Ht; [lia|].
  destruct (decide (a = [])) as [Ha|Ha]; [apply split_at_nothing; by left|].
  destruct (decide (b = [])) as [Hb|Hb]; [apply split_at_nothing; by right|].
  assert (Hab : a ++ b <> []) by (by destruct a).
  assert (Hgo : match chunck_state s with
    | CHUNK_SIZE => memchr LF a <> None
    | CHUNK_DATA => chunk_size s <> 0 /\ chunk_left s <= Z.of_nat (length a)
    | _ => True
    end -> runs_alike (decode_chunked s (a ++ b)) (then_decode (decode_chunked s a) b)).
  { intros Hm. destruct (step_app s a b Ha Hm) as (s' & o & r & E1 & E2 & Hr).
    rewrite (decode_chunked_cons s a), (decode_chunked_cons s (a ++ b)), E1, E2 by done. destruct r as [e|rest].
    - cbn. destruct (Z.eqb_spec e 0) as [->|]; [done|]. by eexists _, _.
    - rewrite then_decode_step. apply runs_alike_prepend; [done|].
      pose proof (decode_step_less _ _ _ _ _ Ha E1). apply IH; [lia|].
      intros s1 o1 E. apply (Ht s1 (o ++ o1)). rewrite (decode_chunked_cons s a), E1, E by done. done. }
  destruct (chunck_state s) eqn:Es; [|by apply Hgo|by apply Hgo|].
  - destruct (memchr LF a) as [x|] eqn:Em; [by apply Hgo|]. apply split_in_line; try done.
    apply (Ht (append_header a s) []). rewrite decode_chunked_cons by done. unfold decode_step. by rewrite Es, Em.
  - destruct (Z.eqb_spec (chunk_size s) 0) as [Hz|Hz].
    + assert (E : forall l, decode_step s l = (set_header [] s, [], inl 0)) by (intros l; unfold decode_step; by rewrite Es, Hz).
      rewrite !decode_chunked_cons, !E by done. cbn [then_decode mbind option_bind]. change (0 =? 0) with true. cbv iota.
      rewrite decode_chunked_cons by done. unfold decode_step. cbn [chunck_state chunk_size set_header]. rewrite Es, Hz. by eexists _, _.
    + destruct (Z.leb_spec (chunk_left s) (Z.of_nat (length a))); [by apply Hgo|by apply split_in_chunk].
Qed.

(** ** The whole response in pieces *)

(** What the decoder leaves alone. *)
Definition same_frame (s s' : receiver) : Prop := header_done s' = header_done s /\ use_chunk s' = use_chunk s.

Lemma decode_step_frame s ptr s' o r : decode_step s ptr = (s', o, r) ->
  same_frame s s' /\ errors_of o = [] /\ (forall e, r = inl e -> e = 0 \/ e = - EILSEQ).
Proof.
  unfold decode_step. intros E. destruct (chunck_state s); repeat case_match; simplify_eq;
    (split_and!; [done|done|intros e He; simplify_eq; auto]).
Qed.

Lemma errors_app a b : errors_of (a ++ b) = errors_of a ++ errors_of b.
Proof. apply omap_app. Qed.

Lemma decode_loop_frame : forall fuel s ptr s' o e, decode_loop fuel s ptr = Some (s', o, e) ->
  same_frame s s' /\ errors_of o = [] /\ (e = 0 \/ e = - EILSEQ).
Proof.
  induction fuel as [|fuel IH]; intros s ptr s' o e E; destruct ptr as [|x ptr]; cbn [decode_loop] in E; try done.
  1,2: injection E as <- <- <-; split_and!; [done|done|by left].
  destruct (decode_step s (x :: ptr)) as [[s1 o1] r] eqn:Es. apply decode_step_frame in Es as (F1 & F2 & F3).
  destruct r as [err|rest]; [injection E as <- <- <-; split_and!; [done|done|by apply F3]|].
  destruct (decode_loop fuel s1 rest) as [[[s2 o2] e2]|] eqn:E2; [|done]. injection E as <- <- <-.
  apply IH in E2 as (G1 & G2 & G3). split_and!; [|by rewrite errors_app, F2, G2|done].
  destruct F1, G1. split; congruence.
Qed.

Lemma decode_frame s ptr s' o e : decode_chunked s ptr = Some (s', o, e) ->
  same_frame s s' /\ errors_of o = [] /\ (e = 0 \/ e = - EILSEQ).
Proof. apply decode_loop_frame. Qed.

(** The same but for how the data is cut into calls; the state does not matter when the session is over. *)
Definition same_cont (x y : option (receiver * list output * bool)) : Prop :=
  match x, y with
  | Some (s, o, go), Some (s', o', go') =>
      go = go' /\ delivered o = delivered o' /\ errors_of o = errors_of o' /\ (go = true -> s = s')
  | _, _ => False
  end.

Definition then_continue (r : option (receiver * list output * bool)) (b : list Z) : option (receiver * list output * bool) :=
  '(s1, o1, go) ← r;
  if (go : bool) then '(s2, o2, go2) ← received_data_continue s1 b; Some (s2, o1 ++ o2, go2) else Some (s1, o1, go).

(** A line break that matters has been torn apart: one behind a line of the header or a chunk size. *)
Definition torn_line (s : receiver) (b : list Z) : Prop :=
  last (current_header s) = Some CR /\ head b = Some LF /\
  (header_done s = false \/ (use_chunk s = true /\ chunck_state s = CHUNK_SIZE)).

Lemma body_run s buf : body s buf =
  if use_chunk s then
    '(s', o, e) ← decode_chunked s buf;
    if e =? 0 then Some (s', o, true) else Some (stop_watch s', o ++ [Result (Some (Chunk_decode e)) []], false)
  else Some (s, if bool_decide (buf = []) then [] else [Result None buf], true).
Proof.
  unfold body, handle_body. destruct (use_chunk s); cbn [negb]; [|done].
  destruct (decode_chunked_total s buf) as (s' & o & e & E). rewrite E. cbn [mbind option_bind].
  apply decode_frame in E as (_ & _ & [-> | ->]); done.
Qed.

Lemma body_frame s buf s' o go : body s buf = Some (s', o, go) -> header_done s' = header_done s /\ use_chunk s' = use_chunk s.
Proof.
  rewrite body_run. destruct (use_chunk s) eqn:Hu; [|by intros [= <- <- <-]].
  destruct (decode_chunked_total s buf) as (s1 & o1 & e & E). rewrite E. cbn [mbind option_bind].
  apply decode_frame in E as ([F1 F2] & _ & [-> | ->]); cbn; intros [= <- <- <-]; cbn; split; congruence.
Qed.

Lemma body_split s a b : header_done s = true ->
  (forall s1 o1, body s a = Some (s1, o1, true) -> ~ torn_line s1 b) ->
  same_cont (body s (a ++ b)) (then_continue (body s a) b).
Proof.
  intros Hd Ht. rewrite (body_run s (a ++ b)). rewrite (body_run s a) in *. destruct (use_chunk s) eqn:Hu.
  - destruct (decode_chunked_total s a) as (s1 & o1 & e1 & E1). rewrite E1 in *. cbn [mbind option_bind] in *.
    destruct (decode_frame _ _ _ _ _ E1) as ([F1 F2] & Herr & He).
    destruct (decode_split (S (decode_measure s a)) s a b ltac:(lia)) as ([[s2 o2] e2] & r' & E2 & E3 & Hr).
    { intros s3 o3 E3. rewrite E1 in E3. injection E3 as <- <- ->. intros (T1 & T2 & T3). apply (Ht s1 o1 eq_refl).
      split_and!; [done|done|right; split; congruence]. }
    rewrite E2. cbn [mbind option_bind]. destruct (decode_frame _ _ _ _ _ E2) as (_ & Herr2 & _).
    destruct Hr as (H1 & H2 & H3). cbn [fst snd] in *. rewrite E1 in E3. cbn [then_decode mbind option_bind] in E3.
    destruct (Z.eqb_spec e1 0) as [He0|Hne]; [subst e1|].
    + destruct (decode_chunked_total s1 b) as (s4 & o4 & e4 & E4). rewrite E4 in E3. cbn [mbind option_bind] in E3.
      injection E3 as <-. cbn [fst snd] in *. subst e4. cbn [then_continue mbind option_bind]. unfold received_data_continue.
      rewrite F1, Hd, body_run, F2, Hu, E4. cbn [mbind option_bind].
      destruct (decode_frame _ _ _ _ _ E4) as (_ & Herr4 & _).
      destruct (Z.eqb_spec e2 0) as [->|Hne]; cbn [mbind option_bind same_cont]; split_and!; try done; auto.
      * by rewrite errors_app, Herr, Herr2, Herr4.
      * rewrite !delivered_app in *. by rewrite H2, app_assoc.
      * by rewrite !errors_app, Herr, Herr2, Herr4.
    + injection E3 as <-. cbn [fst snd] in *. subst e2. rewrite (proj2 (Z.eqb_neq _ _)) by done.
      cbn [then_continue mbind option_bind same_cont]. split_and!; [done| | |done].
      * rewrite !delivered_app. by rewrite H2.
      * by rewrite !errors_app, Herr, Herr2.
  - cbn [then_continue mbind option_bind]. unfold received_data_continue. rewrite Hd, body_run, Hu. cbn [mbind option_bind same_cont].
    split_and!; try done; repeat case_bool_decide; simplify_list_eq; try done; unfold delivered; cbn; by rewrite ?app_nil_r.
Qed.

Lemma header_line_frame s : header_done (header_line s) = header_done s.
Proof. unfold header_line, add_header_field, handle_multi_line, set_field, set_header, set_status. repeat case_match; done. Qed.

Lemma header_loop_enough : forall fuel fuel' s ptr, (length ptr <= fuel)%nat -> (length ptr <= fuel')%nat ->
  header_loop fuel s ptr = header_loop fuel' s ptr.
Proof.
  induction fuel as [|fuel IH]; intros fuel' s ptr Hf Hf'; destruct ptr as [|x ptr]; cbn [length] in *; try lia;
    destruct fuel' as [|fuel']; cbn [length] in *; try lia; try done.
  cbn [header_loop]. pose proof (memchr_inv LF (x :: ptr)) as Hm. destruct (memchr LF (x :: ptr)) as [[line rest]|]; [|done].
  destruct Hm as [Heq _]. assert (Hl : length (x :: ptr) = length (line ++ LF :: rest)) by (by rewrite Heq).
  rewrite length_app in Hl. cbn [length] in Hl. destruct (current_header _); [done|]. apply IH; lia.
Qed.

Lemma continue_nil s : received_data_continue s [] = Some (s, [], true).
Proof.
  unfold received_data_continue. destruct (header_done s); [|done]. rewrite body_run. destruct (use_chunk s); [|done].
  by rewrite decode_chunked_nil.
Qed.

(** A line of the header. *)
Definition line_done (s : receiver) (line rest : list Z) : option (receiver * list output * bool) :=
  let s := append_header line s in
  match current_header s with
  | [] => body (set_done (announces_chunks s) s) rest
  | _ => received_data_continue (header_line s) rest
  end.

Lemma continue_line s ptr : header_done s = false -> ptr <> [] ->
  received_data_continue s ptr =
    match memchr LF ptr with
    | None => Some (append_header ptr s, [], true)
    | Some (line, rest) => line_done s (strip_cr line) rest
    end.
Proof.
  intros Hd Hp. unfold received_data_continue at 1. rewrite Hd. destruct ptr as [|x ptr]; [done|]. cbn [header_loop length].
  pose proof (memchr_inv LF (x :: ptr)) as Hm. destruct (memchr LF (x :: ptr)) as [[line rest]|]; [|done].
  destruct Hm as [Heq _]. assert (Hl : length (x :: ptr) = length (line ++ LF :: rest)) by (by rewrite Heq).
  rewrite length_app in Hl. cbn [length] in Hl. unfold line_done. destruct (current_header _) eqn:Ec; [done|].
  unfold received_data_continue. rewrite header_line_frame. cbn [header_done append_header set_header]. rewrite Hd.
  apply header_loop_enough; lia.
Qed.

Lemma strip_cr_app a line : (line = [] -> last a <> Some CR) -> strip_cr (a ++ line) = a ++ strip_cr line.
Proof.
  intros Hl. unfold strip_cr. destruct line as [|x line].
  - rewrite app_nil_r. rewrite !bool_decide_eq_false_2; [by rewrite app_nil_r|done|by apply Hl].
  - rewrite last_app_ne by done. case_bool_decide; [|done]. by apply removelast_app.
Qed.

Lemma continue_total : forall n s ptr, (length ptr < n)%nat -> exists s' o go, received_data_continue s ptr = Some (s', o, go).
Proof.
  induction n as [|n IH]; intros s ptr Hn; [lia|]. destruct (header_done s) eqn:Hd.
  - unfold received_data_continue. rewrite Hd, body_run. destruct (use_chunk s); [|by eexists _, _, _].
    destruct (decode_chunked_total s ptr) as (s' & o & e & ->). cbn. destruct (e =? 0); by eexists _, _, _.
  - destruct (decide (ptr = [])) as [->|Hp]; [rewrite continue_nil; by eexists _, _, _|].
    rewrite continue_line by done. pose proof (memchr_inv LF ptr) as Hm. destruct (memchr LF ptr) as [[line rest]|]; [|by eexists _, _, _].
    destruct Hm as [-> _]. rewrite length_app in Hn. cbn [length] in Hn. unfold line_done. destruct (current_header _); [|apply IH; lia].
    rewrite body_run. case_match; [|by eexists _, _, _].
    match goal with |- context [decode_chunked ?x rest] => destruct (decode_chunked_total x rest) as (s' & o & e & ->) end.
    cbn. destruct (e =? 0); by eexists _, _, _.
Qed.

Lemma same_cont_refl s ptr : same_cont (received_data_continue s ptr) (received_data_continue s ptr).
Proof. destruct (continue_total (S (length ptr)) s ptr ltac:(lia)) as (s' & o & go & ->). done. Qed.

(** A response that comes in two pieces is treated as one that comes in one. *)
Lemma continue_split : forall n s a b, (length a < n)%nat ->
  (forall s1 o1, received_data_continue s a = Some (s1, o1, true) -> ~ torn_line s1 b) ->
  same_cont (received_data_continue s (a ++ b)) (then_continue (received_data_continue s a) b).
Proof.
  induction n as [|n IH]; intros s a b Hn Ht; [lia|].
  destruct (decide (a = [])) as [->|Ha].
  { cbn [app]. rewrite continue_nil. cbn. pose proof (same_cont_refl s b) as H. by destruct (received_data_continue s b) as [[[? ?] ?]|]. }
  destruct (header_done s) eqn:Hd.
  { unfold received_data_continue in *. rewrite Hd in *. by apply body_split. }
  assert (Hab : a ++ b <> []) by (by destruct a).
  rewrite (continue_line s (a ++ b)) by done. rewrite (continue_line s a) in * by done.
  pose proof (memchr_inv LF a) as Hm. destruct (memchr LF a) as [[line rest]|] eqn:Em.
  - rewrite (memchr_app_l _ _ b _ _ Em). unfold line_done in *. destruct Hm as [-> _].
    rewrite length_app in Hn. cbn [length] in Hn.
    destruct (current_header (append_header (strip_cr line) s)); [|apply IH; [lia|done]].
    apply body_split; [|done]. unfold set_done. by case_match.
  - rewrite (memchr_app_r _ _ _ Em). cbn [then_continue mbind option_bind].
    destruct (decide (b = [])) as [->|Hb]; [rewrite continue_nil; cbn; by rewrite app_nil_r|].
    specialize (Ht (append_header a s) [] eq_refl).
    rewrite (continue_line (append_header a s) b) by done.
    pose proof (memchr_inv LF b) as Hmb. destruct (memchr LF b) as [[line rest]|].
    + destruct Hmb as [-> _]. unfold line_done. rewrite strip_cr_app.
      2:{ intros -> Hl. apply Ht. split_and!; [|done|left; exact Hd]. cbn [append_header set_header current_header].
          by rewrite last_app_ne. }
      rewrite append_header_app. pose proof (continue_total (S (length rest)) (header_line (append_header (a ++ strip_cr line) s)) rest
        ltac:(lia)) as (s2 & o2 & go2 & E2).
      destruct (current_header _); [|rewrite E2; done].
      rewrite body_run. destruct (use_chunk _); [|done].
      match goal with |- context [decode_chunked ?x rest] => destruct (decode_chunked_total x rest) as (s3 & o3 & e3 & ->) end.
      cbn. destruct (e3 =? 0); done.
    + cbn. split_and!; try done. intros _. by rewrite append_header_app.
Qed.

(** No piece ends inside a line break that matters. *)
Fixpoint untorn (s : receiver) (frs : list (list Z)) : Prop :=
  match frs with
  | [] => True
  | f :: frs => forall s1 o1, received_data_continue s f = Some (s1, o1, true) -> ~ torn_line s1 (concat frs) /\ untorn s1 frs
  end.

Lemma receive_concat : forall frs s, untorn s frs -> same_cont (receive s frs) (received_data_continue s (concat frs)).
Proof.
  induction frs as [|f frs IH]; intros s Hu; cbn [receive concat]; [by rewrite continue_nil|]. cbn [untorn] in Hu.
  pose proof (continue_split (S (length f)) s f (concat frs) ltac:(lia) (fun s1 o1 E => proj1 (Hu s1 o1 E))) as Hs.
  destruct (continue_total (S (length f)) s f ltac:(lia)) as (s1 & o1 & go & E). rewrite E in *. cbn [mbind option_bind then_continue] in *.
  destruct (continue_total (S (length (f ++ concat frs))) s (f ++ concat frs) ltac:(lia)) as (s2 & o2 & go2 & E2).
  rewrite E2 in *. cbn [same_cont] in *. destruct go.
  - destruct (Hu s1 o1 eq_refl) as [_ Hu2]. specialize (IH s1 Hu2).
    destruct (receive s1 frs) as [[[s3 o3] go3]|]; [|done].
    destruct (received_data_continue s1 (concat frs)) as [[[s4 o4] go4]|]; [|done]. cbn [mbind option_bind same_cont] in *.
    destruct IH as (-> & H2 & H3 & H4), Hs as (-> & K2 & K3 & K4). rewrite !delivered_app, !errors_app in *. split_and!; try congruence.
    intros Hgo. rewrite H4, K4; done.
  - destruct Hs as (-> & K2 & K3 & _). done.
Qed.

(** ** Chunks that are decoded *)

Lemma hex_bytes n : 0 <= n -> Forall (fun b => 48 <= b <= 102) (print_number 16 n).
Proof.
  intros Hn. pose proof (print_digits_all 16 64 ltac:(lia) n [] Hn ltac:(constructor)) as H. unfold print_number.
  eapply Forall_impl; [exact H|]. intros b Hb. cbn beta in Hb. apply (digit_no_space 16) in Hb; lia.
Qed.

Lemma size_line n : 0 <= n < 2 ^ 64 ->
  strtoul 16 (upto_nul (print_number 16 n ++ [CR])) = (n, [CR]).
Proof.
  intros Hn. rewrite upto_nul_id.
  - apply strtoul_print; [by right|done|]. done.
  - apply Forall_app. split; [|constructor; [unfold CR; lia|constructor]].
    eapply Forall_impl; [apply (hex_bytes n); lia|]. cbn beta. lia.
Qed.

(** At the start of a chunk. *)
Definition chunk_start (s : receiver) : Prop := chunck_state s = CHUNK_SIZE /\ current_header s = [].

Definition after_size (n : Z) (s : receiver) : receiver :=
  set_chunk CHUNK_DATA n n (set_header (print_number 16 n ++ [CR]) s).

Lemma decode_size s n rest : chunk_start s -> 0 <= n < ULONG_MAX -> (n = 0 -> einval = false) ->
  decode_chunked s (print_number 16 n ++ CRLF ++ rest) = decode_chunked (after_size n s) rest.
Proof.
  intros [Es Eh] Hn Hz. unfold ULONG_MAX in Hn.
  assert (Hp : print_number 16 n ++ CRLF ++ rest <> []) by (intros E; apply app_eq_nil in E as [_ E]; done).
  rewrite decode_chunked_cons by done.
  assert (Em : memchr LF (print_number 16 n ++ CRLF ++ rest) = Some (print_number 16 n ++ [CR], rest)).
  { change (CRLF ++ rest) with ([CR] ++ LF :: rest). rewrite app_assoc. apply memchr_app. apply Forall_app.
    split; [|by repeat constructor]. eapply Forall_impl; [apply (hex_bytes n); lia|]. unfold LF. cbn beta. lia. }
  unfold decode_step. rewrite Es, Em. rewrite bool_decide_eq_true_2 by (by rewrite last_app_ne). cbn [negb].
  unfold append_header. rewrite Eh. cbn [app set_header current_header]. rewrite size_line by lia. cbn [fst].
  assert (Hb : ((n =? 0) && einval) || (n =? ULONG_MAX) = false).
  { rewrite (proj2 (Z.eqb_neq n ULONG_MAX)) by (unfold ULONG_MAX; lia). rewrite orb_false_r.
    destruct (Z.eqb_spec n 0); [by rewrite Hz|done]. }
  rewrite Hb. fold (set_header (print_number 16 n ++ [CR]) s) (after_size n s).
  destruct (decode_chunked_total (after_size n s) rest) as (s2 & o2 & e2 & E2). rewrite E2. done.
Qed.

Definition after_chunk (n : Z) (s : receiver) : receiver :=
  mk_receiver (status s) (use_chunk s) (last_key s) (headers s) [] (header_done s) CHUNK_SIZE n 0 (u64 (total_len s + n))
    (transport_watch s) (connect_timeout s).

Lemma decode_chunk s bytes rest : chunk_start s -> bytes <> [] -> Z.of_nat (length bytes) < ULONG_MAX ->
  decode_chunked s (chunk bytes ++ rest) =
    '(s', o, e) ← decode_chunked (after_chunk (Z.of_nat (length bytes)) s) rest; Some (s', Result None bytes :: o, e).
Proof.
  intros Hs Hb Hl. unfold chunk. rewrite <- !app_assoc. set (n := Z.of_nat (length bytes)) in *.
  assert (Hn : n <> 0) by (destruct bytes; [done|cbn in n; lia]).
  rewrite decode_size by (done || lia).
  assert (Hp : forall l, bytes ++ l <> []) by (by destruct bytes).
  rewrite decode_chunked_cons by apply Hp. unfold decode_step. cbn [after_size set_chunk chunck_state chunk_size chunk_left].
  rewrite (proj2 (Z.eqb_neq _ _) Hn), (proj2 (Z.leb_le _ _)) by (rewrite length_app; lia).
  replace (Z.to_nat n) with (length bytes) by lia. rewrite take_app_length, drop_app_length.
  rewrite decode_chunked_cons by done. unfold decode_step. cbn [chunck_state set_chunck_state CRLF app].
  change (CR =? CR) with true. cbv iota. rewrite decode_chunked_cons by done. unfold decode_step. cbn [chunck_state set_chunck_state].
  change (LF =? LF) with true. cbv iota.
  match goal with |- context [decode_chunked ?x rest] => change x with (after_chunk n s) end.
  destruct (decode_chunked_total (after_chunk n s) rest) as (s2 & o2 & e2 & ->). done.
Qed.

(** A body that is sent in chunks. *)
Definition chunks (bodies : list (list Z)) : list Z := concat (map chunk bodies) ++ last_chunk.

Definition chunk_ok (bytes : list Z) : Prop := bytes <> [] /\ Z.of_nat (length bytes) < ULONG_MAX.

Lemma decode_chunks bodies : einval = false -> forall s, chunk_start s -> Forall chunk_ok bodies ->
  exists s' o, decode_chunked s (chunks bodies) = Some (s', o, 0) /\ delivered o = concat bodies /\
    chunck_state s' = CHUNK_DATA /\ chunk_size s' = 0 /\ status s' = status s /\ headers s' = headers s /\ transport_watch s' = transport_watch s.
Proof.
  intros Hz. induction bodies as [|b bodies IH]; intros s Hs Hok; unfold chunks; cbn [map concat app].
  - change last_chunk with (print_number 16 0 ++ CRLF ++ CRLF).
    rewrite decode_size by (try done; unfold ULONG_MAX; lia). eexists _, _. split; [by vm_compute|done].
  - apply Forall_cons_1 in Hok as [[Hb1 Hb2] Hok]. rewrite <- app_assoc, decode_chunk by done.
    destruct (IH (after_chunk (Z.of_nat (length b)) s)) as (s' & o & E & H1 & H2 & H3 & H4 & H5 & H6); [done|done|].
    unfold chunks in E. rewrite E. eexists _, _. split; [done|]. unfold delivered in *. cbn [map concat data_of]. by rewrite H1.
Qed.

(** ** A whole response *)

Inductive payload :=
| Plain (bytes : list Z)
| Chunked (bodies : list (list Z)).

Record response := mk_response {
  rs_code : Z;
  rs_reason : list Z;
  rs_fields : list (list Z * list Z);
  rs_payload : payload;
}.

Definition field (kv : list Z * list Z) : list Z := kv.1 ++ [colon; SP] ++ kv.2.

Definition status_line (r : response) : list Z :=
  HTTP_slash ++ version_1_1 ++ [SP] ++ print_number 10 (rs_code r) ++ [SP] ++ rs_reason r.

Definition render_lines (l : list (list Z)) : list Z := concat (map (fun x => x ++ CRLF) l).

Definition render_payload (p : payload) : list Z :=
  match p with Plain b => b | Chunked bodies => chunks bodies end.

Definition render (r : response) : list Z :=
  render_lines (status_line r :: map field (rs_fields r)) ++ CRLF ++ render_payload (rs_payload r).

Definition payload_data (p : payload) : list Z :=
  match p with Plain b => b | Chunked bodies => concat bodies end.

Definition text_byte (b : Z) : Prop := 0 < b < 256 /\ b <> LF.

Record field_ok (kv : list Z * list Z) : Prop := {
  fo_key : Forall (fun b => text_byte b /\ b <> colon) kv.1;
  fo_head : match kv.1 with b :: _ => is_blank b = false | [] => False end;
  fo_value : Forall text_byte kv.2;
  fo_start : head kv.2 <> Some SP;
}.

Record response_ok (r : response) : Prop := {
  ro_code : 100 <= rs_code r < 1000;
  ro_reason : Forall (fun b => text_byte b /\ b <> colon) (rs_reason r);
  ro_fields : Forall field_ok (rs_fields r);
  ro_keys : NoDup (rs_fields r).*1;
  ro_payload :
    match rs_payload r with
    | Plain _ => forall v, (Transfer_Encoding, v) ∈ rs_fields r -> ~ exists a b, v = a ++ chunked ++ b
    | Chunked bodies => Forall chunk_ok bodies /\ exists a b, (Transfer_Encoding, a ++ chunked ++ b) ∈ rs_fields r
    end;
}.

(** In front of a line of the header. *)
Definition line_start (s : receiver) : Prop := header_done s = false /\ current_header s = [].

Lemma continue_whole_line s line rest : line_start s -> line <> [] -> Forall (fun b => b <> LF) line ->
  received_data_continue s (line ++ CRLF ++ rest) = received_data_continue (header_line (set_header line s)) rest.
Proof.
  intros [Hd Hh] Hne Hl. rewrite continue_line by (try done; by destruct line).
  assert (Em : memchr LF (line ++ CRLF ++ rest) = Some (line ++ [CR], rest)).
  { change (CRLF ++ rest) with ([CR] ++ LF :: rest). rewrite app_assoc. apply memchr_app. apply Forall_app.
    split; [done|by repeat constructor]. }
  rewrite Em. unfold strip_cr. rewrite bool_decide_eq_true_2 by (by rewrite last_app_ne). rewrite removelast_last.
  unfold line_done, append_header. rewrite Hh. cbn [app]. change (current_header (set_header line s)) with line. by destruct line.
Qed.

Lemma header_line_start s line : header_done s = false -> line_start (header_line (set_header line s)).
Proof. intros Hd. split; [by rewrite header_line_frame|done]. Qed.

Lemma scan_status_line r : response_ok r -> scan_status (status_line r) = Some (rs_code r).
Proof.
  intros R. pose proof (ro_code _ R) as Hc. unfold scan_status, status_line.
  assert (Hp : prefix_of HTTP_slash (HTTP_slash ++ version_1_1 ++ [SP] ++ print_number 10 (rs_code r) ++ [SP] ++ rs_reason r) = true) by done.
  rewrite Hp. cbn [negb]. set (tail := print_number 10 (rs_code r) ++ [SP] ++ rs_reason r).
  change (skip_while isspace (drop 5 (HTTP_slash ++ version_1_1 ++ [SP] ++ tail))) with (49 :: 46 :: 49 :: SP :: tail).
  cbv beta iota zeta. change (skip_while (fun b => negb (isspace b)) (49 :: 46 :: 49 :: SP :: tail)) with (SP :: tail).
  assert (E : strtoul 10 (SP :: tail) = (rs_code r, [SP] ++ rs_reason r)).
  { apply strtoul_space; [apply strtoul_print; [by left|lia|done]|].
    intros Heq. assert (Hl : length ([SP] ++ rs_reason r) = length tail) by (by rewrite Heq).
    subst tail. rewrite !length_app in Hl. destruct (print_digits_cons 64 10 (rs_code r) []) as (v & l & Ep & _); [lia|lia|lia|].
    fold (print_number 10 (rs_code r)) in Ep. rewrite Ep in Hl. cbn [length] in Hl. lia. }
  rewrite E. assert (Hlt : (length ([SP] ++ rs_reason r) < length (SP :: tail))%nat).
  { subst tail. cbn [length]. rewrite !length_app. cbn [length]. lia. }
  rewrite (proj2 (Nat.eqb_neq _ _)) by lia. by rewrite u32_small by lia.
Qed.

Lemma text_upto l : Forall text_byte l -> upto_nul l = l.
Proof. intros H. apply upto_nul_id. eapply Forall_impl; [exact H|]. by intros b [Hb _]. Qed.

Lemma text_no_lf l : Forall text_byte l -> Forall (fun b => b <> LF) l.
Proof. intros H. eapply Forall_impl; [exact H|]. by intros b [_ Hb]. Qed.

Lemma status_line_text r : response_ok r -> Forall (fun b => text_byte b /\ b <> colon) (status_line r).
Proof.
  intros R. unfold status_line, text_byte, LF, colon. repeat apply Forall_app_2; [..|apply (ro_reason _ R)].
  1,2,3,5: repeat constructor; unfold SP; lia.
  pose proof (ro_code _ R). eapply Forall_impl; [apply (print_digits_all 10 64 ltac:(lia) (rs_code r) [] ltac:(lia) ltac:(constructor))|].
  intros b [v Hv]. unfold digit in Hv. repeat case_match; bool_to_prop; simplify_eq; lia.
Qed.

Lemma header_line_status r s : response_ok r -> status s = 0 -> current_header s = [] ->
  header_line (set_header (status_line r) s) = set_status (rs_code r) s.
Proof.
  intros R Hs Hc. pose proof (status_line_text r R) as Ht. pose proof (ro_code _ R) as Hcode. unfold header_line.
  cbn [current_header set_header status]. rewrite text_upto by (eapply Forall_impl; [exact Ht|]; by intros b [Hb _]).
  rewrite Hs. change (0 =? GWEB_HTTP_STATUS_CODE_UNKNOWN) with true. cbv iota. rewrite scan_status_line by done.
  assert (Hm : memchr colon (status_line r) = None) by (apply memchr_none; eapply Forall_impl; [exact Ht|]; by intros b [_ Hb]).
  assert (Hh : exists l, status_line r = 72 :: l) by (by eexists). destruct Hh as [l Hl].
  rewrite u16_small by lia.
  assert (Ha : forall x, current_header x = status_line r -> add_header_field x = x) by (intros x Hx; unfold add_header_field; by rewrite Hx, Hm).
  rewrite Hl at 1. change (is_blank 72) with false. cbv iota. rewrite Ha by done.
  unfold set_header, set_status. cbn. destruct s; cbn in *. by rewrite Hc.
Qed.

(** The header with one more field. *)
Definition with_field (kv : list Z * list Z) (s : receiver) : receiver := set_header [] (set_field kv.1 kv.2 s).

Lemma header_line_field kv s : field_ok kv -> status s <> 0 -> headers s !! kv.1 = None ->
  header_line (set_header (field kv) s) = with_field kv s.
Proof.
  intros [Hk Hh Hv Hst] Hs Hn. destruct kv as [k v]; cbn [fst snd] in *. unfold header_line. cbn [current_header set_header status].
  assert (Ht : Forall text_byte (field (k, v))).
  { unfold field. cbn [fst snd]. repeat apply Forall_app_2; [eapply Forall_impl; [exact Hk|]; by intros b [Hb _]| |done].
    repeat constructor; unfold text_byte, colon, SP, LF; lia. }
  rewrite text_upto by done. rewrite (proj2 (Z.eqb_neq _ _)) by done.
  destruct k as [|b k]; [done|]. assert (Hf : field (b :: k, v) = b :: (k ++ [colon; SP] ++ v)) by done. rewrite Hf at 1. rewrite Hh.
  unfold add_header_field. cbn [current_header set_header headers].
  assert (Em : memchr colon (field (b :: k, v)) = Some (b :: k, SP :: v)).
  { unfold field. apply (memchr_app colon (b :: k) (SP :: v)). eapply Forall_impl; [exact Hk|]. by intros x [_ Hx]. }
  rewrite Em. rewrite text_upto by (eapply Forall_impl; [exact Hk|]; by intros x [Hx _]). rewrite Hn.
  assert (Esk : skip_while (Z.eqb SP) (SP :: v) = v).
  { cbn [skip_while]. rewrite Z.eqb_refl. destruct v as [|x v]; [done|]. cbn [skip_while]. rewrite (proj2 (Z.eqb_neq SP x)); [done|].
    intros <-. by apply Hst. }
  rewrite Esk, text_upto by done. done.
Qed.

Lemma continue_fields rest : forall l s, line_start s -> status s <> 0 -> Forall field_ok l -> NoDup l.*1 ->
  (forall k, k ∈ l.*1 -> headers s !! k = None) ->
  exists s', received_data_continue s (render_lines (map field l) ++ rest) = received_data_continue s' rest /\
    line_start s' /\ status s' = status s /\ headers s' = list_to_map l ∪ headers s /\ use_chunk s' = use_chunk s /\
    transport_watch s' = transport_watch s.
Proof.
  induction l as [|kv l IH]; intros s Hs Hst Hok Hnd Hnew.
  - exists s. split; [done|]. split; [done|]. split; [done|]. split; [|done]. symmetry. apply (left_id_L ∅ (∪)).
  - apply Forall_cons_1 in Hok as [Hkv Hok]. cbn [fmap list_fmap] in Hnd, Hnew. apply list.NoDup_cons in Hnd as [Hnk Hnd].
    change (render_lines (map field (kv :: l)) ++ rest) with (((field kv ++ CRLF) ++ render_lines (map field l)) ++ rest).
    rewrite <- !app_assoc. rewrite continue_whole_line; [|done|unfold field; by destruct kv.1|].
    2:{ destruct Hkv as [Hk _ Hv _]. unfold field. repeat apply Forall_app_2; [eapply Forall_impl; [exact Hk|]; intros b [[_ Hb] _]; done| |by apply text_no_lf].
        repeat constructor; unfold colon, SP, LF; lia. }
    rewrite header_line_field by (try done; apply Hnew; by left).
    destruct (IH (with_field kv s)) as (s' & E & H1 & H2 & H3 & H4 & H5); try done.
    + split; [apply Hs|done].
    + intros k Hk. cbn. rewrite lookup_insert_ne by (by intros <-). apply Hnew. by right.
    + exists s'. split; [done|]. split; [done|]. split; [done|]. split; [|done]. rewrite H3. destruct kv as [k v].
      cbn [with_field set_header set_field headers fst snd list_to_map foldr uncurry]. rewrite <- insert_union_l.
      symmetry. apply insert_union_r. by apply not_elem_of_list_to_map_1.
Qed.

(** A session that has received nothing. *)
Definition fresh_receiver : receiver := mk_receiver 0 false None ∅ [] false CHUNK_SIZE 0 0 0 true true.

Lemma blank_line s rest : line_start s ->
  received_data_continue s (CRLF ++ rest) = body (set_done (announces_chunks s) s) rest.
Proof.
  intros [Hd Hh]. rewrite continue_line by done. change (memchr LF (CRLF ++ rest)) with (Some ([CR], rest)).
  cbv iota beta. change (strip_cr [CR]) with (@nil Z). unfold line_done.
  assert (Es : append_header [] s = s) by (unfold append_header; rewrite app_nil_r; by destruct s). by rewrite Es, Hh.
Qed.

(** The response in one piece. *)
Lemma continue_response r : einval = false -> response_ok r ->
  exists s' o, received_data_continue fresh_receiver (render r) = Some (s', o, true) /\
    status s' = rs_code r /\ headers s' = list_to_map (rs_fields r) /\ delivered o = payload_data (rs_payload r) /\ errors_of o = [].
Proof.
  intros Hz R. pose proof (ro_code _ R) as Hc. unfold render. cbn [map]. 
  change (render_lines (status_line r :: map field (rs_fields r))) with ((status_line r ++ CRLF) ++ render_lines (map field (rs_fields r))).
  rewrite <- !app_assoc. pose proof (status_line_text r R) as Ht.
  rewrite continue_whole_line; [|done|done|apply text_no_lf; eapply Forall_impl; [exact Ht|]; by intros b [Hb _]].
  rewrite header_line_status by done. set (s1 := set_status (rs_code r) fresh_receiver).
  destruct (continue_fields (CRLF ++ render_payload (rs_payload r)) (rs_fields r) s1) as (s2 & E & H1 & H2 & H3 & H4 & H5);
    [done|cbn; lia|apply R|apply R|done|].
  rewrite E, blank_line by done.
  assert (Hhd : headers s2 = list_to_map (rs_fields r)) by (rewrite H3; apply (right_id_L ∅ (∪))).
  pose proof (ro_payload _ R) as Hp. destruct (rs_payload r) as [bytes|bodies]; cbn [render_payload payload_data].
  - assert (Ha : announces_chunks s2 = false).
    { unfold announces_chunks. rewrite Hhd. destruct (list_to_map (rs_fields r) !! Transfer_Encoding) as [v|] eqn:El; [|done].
      apply elem_of_list_to_map_2 in El. specialize (Hp v El). destruct (g_strrstr v chunked) eqn:Eg; [|done].
      by apply g_strrstr_spec in Eg. }
    rewrite Ha, body_run. cbn [set_done use_chunk]. rewrite H4. cbn [use_chunk s1 set_status fresh_receiver].
    eexists _, _. split; [done|]. cbn [status headers set_done]. split; [done|]. split; [done|].
    case_bool_decide as Hb; [by rewrite Hb|]. unfold delivered. cbn. by rewrite app_nil_r.
  - destruct Hp as (Hok & a & b & Hin).
    assert (Ha : announces_chunks s2 = true).
    { unfold announces_chunks. rewrite Hhd. erewrite elem_of_list_to_map_1; [|apply R|exact Hin]. apply g_strrstr_spec. by exists a, b. }
    rewrite Ha, body_run. cbn [set_done use_chunk].
    destruct (decode_chunks bodies Hz (set_done true s2)) as (s3 & o & E3 & K1 & K2 & K3 & K4 & K5 & K6); [split; [done|apply H1]|done|].
    cbn [set_done] in E3. rewrite E3. cbn [mbind option_bind]. change (0 =? 0) with true. cbv iota.
    apply decode_frame in E3 as (_ & Herr & _). exists s3, o. cbn [set_done status headers] in *.
    split_and!; [done|rewrite K4; exact H2|congruence|done|done].
Qed.

(** C18: A response, its body plain or in chunks, that arrives in pieces of any size is read to its status, its
    header fields and exactly the bytes of its body, without an error, as long as no
    piece ends between the CR and the LF that end a line of the header or a chunk size, and no earlier call has left
    EINVAL in errno, which the reading of a chunk size does not reset.  The names of the header fields differ, the reason has no
    colon, no line break is in a field or the reason, and a plain body comes without a field that says it is in chunks. *)
Theorem response_received r frs :
  einval = false -> response_ok r -> concat frs = render r -> untorn fresh_receiver frs ->
  exists s o, receive fresh_receiver frs = Some (s, o, true) /\
    status s = rs_code r /\ headers s = list_to_map (rs_fields r) /\
    delivered o = payload_data (rs_payload r) /\ errors_of o = [].
Proof.
  intros Hz R Hcat Hu. pose proof (receive_concat frs fresh_receiver Hu) as Hs. rewrite Hcat in Hs.
  destruct (continue_response r Hz R) as (s' & o' & E & H1 & H2 & H3 & H4). rewrite E in Hs.
  destruct (receive fresh_receiver frs) as [[[s o] go]|]; [|done]. destruct Hs as (-> & K1 & K2 & K3).
  exists s, o. rewrite (K3 eq_refl). split_and!; congruence.
Qed.

(** C21: For every input, not only well-formed responses: reading it in pieces is reading it at once, up to how the
    data is cut into calls, as long as no line break that matters is torn apart. *)
Theorem pieces_do_not_matter s frs :
  untorn s frs -> same_cont (receive s frs) (received_data_continue s (concat frs)).
Proof. apply receive_concat. Qed.

(** ** What is sent in chunks *)

(** The input function gives the pieces one after the other, and says with the last that there is no more. *)
Definition next_input (pieces : list (list Z)) : option (list Z * bool) :=
  match pieces with
  | [] => None
  | [b] => Some (b, false)
  | b :: _ => Some (b, true)
  end.

(** Whether a call of [send_data] calls the input function. *)
Definition asks (t : transport) (s : sender) : bool :=
  let '(s, _, more) := process_send_buffer t s in
  if (more : bool) then false
  else
    let '(s, more) := process_send_file t s in
    if (more : bool) then false else negb (request_started s) || more_data s.

(** The main loop calls [send_data] whenever the channel can be written to, until it says that it is done: the bytes that were
    written and the pieces that are left. *)
Fixpoint upload (r : request_text) (calls : list transport) (pieces : list (list Z)) (s : sender) : sender * list Z * list (list Z) :=
  match calls with
  | [] => (s, [], pieces)
  | t :: calls =>
      let '(s1, out, go) := send_data t false r (next_input pieces) s in
      let pieces1 := if asks t s then tail pieces else pieces in
      if (go : bool) then let '(s2, out2, pieces2) := upload r calls pieces1 s1 in (s2, out ++ out2, pieces2)
      else (s1, out, pieces1)
  end.

(** The header of a request with a body in chunks. *)
Definition request_head (r : request_text) : list Z :=
  POST_ ++ request r ++ HTTP_1 ++ default version_1_1 (http_version r) ++ CRLF ++
  header_text Host_ (Some (host r)) ++ header_text User_Agent_ (user_agent r) ++
  header_text x_wap_profile_ (user_agent_profile r) ++ header_text Accept_ (accept_option r) ++
  header_text Content_Type_ (content_type r) ++ Transfer_Encoding_chunked ++
  (if close_connection r then Connection_close else []) ++ CRLF.

Definition piece_chunk (b : list Z) : list Z := if bool_decide (b = []) then [] else chunk b.

(** What is written for the pieces that are left. *)
Definition rest_text (pieces : list (list Z)) : list Z :=
  match pieces with [] => [] | _ => concat (map piece_chunk pieces) ++ last_chunk end.

(** A session that has just been made, for a request without a file. *)
Definition fresh_sender : sender := mk_sender [] false false false None 0 0.

(** The bytes that are still to be written. *)
Inductive sending (r : request_text) : list (list Z) -> sender -> list Z -> Prop :=
| sending_fresh pieces : (2 <= length pieces)%nat -> sending r pieces fresh_sender (request_head r ++ rest_text pieces)
| sending_started pieces buf len off :
    sending r pieces (mk_sender buf (negb (bool_decide (pieces = []))) false true None len off) (buf ++ rest_text pieces).

(** A channel that takes at least a byte. *)
Definition takes (t : transport) : Prop := forall b, b <> [] -> exists n, write t b = Some n /\ (0 < n <= length b)%nat.

Lemma piece_chunk_nonempty b : b <> [] -> piece_chunk b <> [].
Proof.
  intros Hb. unfold piece_chunk. rewrite bool_decide_eq_false_2 by done. unfold chunk. intros E.
  apply app_eq_nil in E as [_ E]. done.
Qed.

Lemma rest_text_cons b pieces : rest_text (b :: pieces) = piece_chunk b ++ (if bool_decide (pieces = []) then last_chunk else rest_text pieces).
Proof. unfold rest_text. cbn [map concat]. rewrite <- app_assoc. destruct pieces; [done|]. by rewrite bool_decide_eq_false_2 by done. Qed.

(** Writing from a buffer that is not empty. *)
Lemma write_step t buf more len off : takes t -> buf <> [] ->
  exists n, (0 < n <= length buf)%nat /\ process_send_buffer t (mk_sender buf more false true None len off) =
    (mk_sender (drop n buf) more false true None len off, take n buf, true).
Proof.
  intros Ht Hb. destruct (Ht buf Hb) as (n & E & Hn). exists n. split; [done|]. unfold process_send_buffer. cbn [send_buffer].
  by rewrite bool_decide_eq_false_2, E.
Qed.

(** After the buffer has been filled, it is written. *)
Lemma fill_step t buf more len off : takes t -> buf <> [] \/ more = true ->
  exists n, (n <= length buf)%nat /\ (buf <> [] -> (0 < n)%nat) /\ process_send_buffer t (mk_sender buf more false true None len off) =
    (mk_sender (drop n buf) more false true None len off, take n buf, bool_decide (buf <> [])).
Proof.
  intros Ht Hb. destruct (decide (buf = [])) as [->|Hne].
  - exists 0%nat. split; [done|]. split; [done|]. destruct Hb as [| -> ]; done.
  - destruct (write_step t buf more len off Ht Hne) as (n & Hn & E). exists n. rewrite bool_decide_eq_true_2 by done. split_and!; [lia|lia|done].
Qed.

Lemma send_step r t pieces s todo : content_type r <> None -> takes t -> sending r pieces s todo ->
  exists s1 out go todo1, send_data t false r (next_input pieces) s = (s1, out, go) /\ todo = out ++ todo1 /\
    let pieces1 := if asks t s then tail pieces else pieces in
    if (go : bool) then sending r pieces1 s1 todo1 /\ (length todo1 + length pieces1 < length todo + length pieces)%nat
    else todo1 = [] /\ pieces1 = [] /\ body_done s1 = true.
Proof.
  intros Hct Ht Hs. destruct Hs as [pieces Hp|pieces buf len off].
  - destruct pieces as [|b [|b2 pieces]]; [cbn in Hp; lia..|].
    assert (Er : exists len off, start_request r (Some (b, true)) (set_started fresh_sender) =
      mk_sender (request_head r ++ piece_chunk b) true false true None len off).
    { exists 0, 0. unfold start_request, request_head, piece_chunk. destruct (content_type r) as [ct|]; [|done].
      cbn [set_started fresh_sender set_more set_buffer send_buffer more_data body_done request_started fd length_ offset negb].
      unfold set_buffer, set_more. cbn [send_buffer more_data body_done request_started fd length_ offset]. f_equal.
      assert (Ez : (Z.of_nat (length b) =? 0) = bool_decide (b = [])).
      { destruct b; [done|]. rewrite bool_decide_eq_false_2 by done. by apply Z.eqb_neq. }
      rewrite Ez. rewrite <- !app_assoc. destruct (http_version r); cbn [default]; by case_bool_decide. }
    destruct Er as (len & off & Er).
    assert (Hne : request_head r ++ piece_chunk b <> []) by (intros [E _]%app_eq_nil; done).
    destruct (write_step t (request_head r ++ piece_chunk b) true len off Ht Hne) as (n & Hn & Ew).
    set (buf := request_head r ++ piece_chunk b) in *.
    exists (mk_sender (drop n buf) true false true None len off), (take n buf), true, (drop n buf ++ rest_text (b2 :: pieces)).
    split; [|split].
    + unfold send_data. change (process_send_buffer t fresh_sender) with (fresh_sender, @nil Z, false).
      cbv beta iota. change (process_send_file t fresh_sender) with (fresh_sender, false). cbv beta iota.
      change (negb (request_started fresh_sender)) with true. cbv beta iota. cbn [next_input]. rewrite Er, Ew. done.
    + rewrite (rest_text_cons b), (bool_decide_eq_false_2 (b2 :: pieces = [])) by done. rewrite app_assoc. fold buf. by rewrite app_assoc, take_drop.
    + change (asks t fresh_sender) with true. cbv iota zeta. cbn [tail]. split; [exact (sending_started r (b2 :: pieces) (drop n buf) len off)|].
      rewrite (rest_text_cons b), (bool_decide_eq_false_2 (b2 :: pieces = [])) by done. rewrite app_assoc. fold buf. rewrite !length_app, length_drop. cbn [length]. lia.
  - destruct (decide (buf = [])) as [->|Hb].
    + destruct pieces as [|b pieces].
      * eexists _, [], false, []. split; [reflexivity|]. split; [done|]. split_and!; [done| |done]. by destruct (asks _ _).
      * set (more := negb (bool_decide (pieces = []))).
        set (buf := piece_chunk b ++ (if bool_decide (pieces = []) then last_chunk else [])).
        assert (En : process_next_chunk (next_input (b :: pieces)) (mk_sender [] true false true None len off) =
          mk_sender buf more false true None len off).
        { unfold buf, more, piece_chunk. destruct pieces as [|b2 pieces]; cbn [next_input process_next_chunk].
          - rewrite (bool_decide_eq_true_2 ([] = [])) by done. by case_bool_decide.
          - rewrite (bool_decide_eq_false_2 (b2 :: pieces = [])) by done. rewrite app_nil_r. by case_bool_decide. }
        assert (Hf : buf <> [] \/ more = true).
        { unfold buf, more. destruct (bool_decide_reflect (pieces = [])); [left|by right]. by intros [_ E]%app_eq_nil. }
        destruct (fill_step t buf more len off Ht Hf) as (n & Hn & Hn0 & Ew).
        exists (mk_sender (drop n buf) more false true None len off), (take n buf), true, (drop n buf ++ rest_text pieces).
        assert (Et : rest_text (b :: pieces) = buf ++ rest_text pieces).
        { rewrite rest_text_cons. unfold buf. destruct (bool_decide_reflect (pieces = [])) as [->|]; by rewrite ?app_nil_r. }
        split; [|split].
        -- unfold send_data. change (process_send_buffer t (mk_sender [] (negb (bool_decide (b :: pieces = []))) false true None len off)) with
             (mk_sender [] true false true None len off, @nil Z, false). cbv beta iota.
           change (process_send_file t (mk_sender [] true false true None len off)) with (mk_sender [] true false true None len off, false).
           cbv beta iota. cbn [request_started more_data negb]. rewrite En, Ew. done.
        -- cbn [app]. by rewrite Et, app_assoc, take_drop.
        -- change (asks t _) with true. cbv iota zeta. cbn [tail]. split; [exact (sending_started r pieces (drop n buf) len off)|].
           cbn [app]. rewrite Et, !length_app, length_drop. cbn [length]. lia.
    + destruct (write_step t buf (negb (bool_decide (pieces = []))) len off Ht Hb) as (n & Hn & Ew).
      eexists _, (take n buf), true, (drop n buf ++ rest_text pieces). split; [|split].
      * unfold send_data. rewrite Ew. reflexivity.
      * by rewrite app_assoc, take_drop.
      * unfold asks. rewrite Ew. cbv iota zeta. split; [exact (sending_started r pieces (drop n buf) len off)|].
        rewrite !length_app, length_drop. lia.
Qed.

Lemma upload_all r calls : content_type r <> None -> Forall takes calls -> forall pieces s todo, sending r pieces s todo ->
  (length todo + length pieces < length calls)%nat -> exists s', upload r calls pieces s = (s', todo, []) /\ body_done s' = true.
Proof.
  intros Hct. induction 1 as [|t calls Ht _ IH]; intros pieces s todo Hs Hl; [cbn in Hl; lia|]. cbn [upload].
  destruct (send_step r t pieces s todo Hct Ht Hs) as (s1 & out & go & todo1 & E & -> & H). rewrite E. cbv zeta in H.
  destruct go.
  - destruct H as [H Hm]. destruct (IH _ s1 todo1 H) as (s' & E' & Hd); [cbn [length] in Hl; lia|]. rewrite E'. by exists s'.
  - destruct H as (-> & E2 & Hd). rewrite app_nil_r, E2. by exists s1.
Qed.

(** Empty pieces make no chunk. *)
Lemma rest_text_chunks pieces : pieces <> [] -> rest_text pieces = chunks (List.filter (fun b => negb (bool_decide (b = []))) pieces).
Proof.
  intros Hp. unfold rest_text, chunks. destruct pieces as [|b0 pieces]; [done|]. f_equal. clear Hp.
  induction (b0 :: pieces) as [|b l IH]; [done|]. cbn [map concat List.filter]. rewrite IH. unfold piece_chunk. by case_bool_decide.
Qed.

Lemma concat_nonempty (pieces : list (list Z)) : concat (List.filter (fun b => negb (bool_decide (b = []))) pieces) = concat pieces.
Proof. induction pieces as [|b l IH]; [done|]. cbn [List.filter concat]. case_bool_decide as Hb; cbn [negb concat]; [by rewrite Hb|by rewrite IH]. Qed.

(** C38: A body that the input function gives in two or more pieces, empty ones too, is sent in chunks: however much of its
    buffer the channel takes at a time, as long as it takes a byte, the calls of the main loop come to an end, all pieces have been asked
    for, and what was written is the header of the request and then bytes from which the decoder of this client reads back exactly
    the pieces, provided that no earlier call has left EINVAL in errno.  The calls are no more than the bytes and the pieces, and one. *)
Theorem upload_roundtrip r pieces calls rcv :
  einval = false -> content_type r <> None -> (2 <= length pieces)%nat -> Forall (fun b => Z.of_nat (length b) < ULONG_MAX) pieces ->
  Forall takes calls -> (length (request_head r ++ rest_text pieces) + length pieces < length calls)%nat -> chunk_start rcv ->
  exists snd body s o, upload r calls pieces fresh_sender = (snd, request_head r ++ body, []) /\ body_done snd = true /\
    decode_chunked rcv body = Some (s, o, 0) /\ delivered o = concat pieces /\ chunk_size s = 0.
Proof.
  intros Hz Hct Hp Hok Ht Hl Hr.
  destruct (upload_all r calls Hct Ht pieces fresh_sender _ (sending_fresh r pieces Hp) Hl) as (snd & E & Hd).
  destruct (decode_chunks (List.filter (fun b => negb (bool_decide (b = []))) pieces) Hz rcv Hr) as (s & o & Ed & H1 & _ & H2 & _).
  { apply List.Forall_forall. intros b [Hb Hn]%filter_In. rewrite list.Forall_forall in Hok. split.
    - intros ->. by rewrite bool_decide_eq_true_2 in Hn.
    - apply Hok. by apply list_elem_of_In. }
  exists snd, (rest_text pieces), s, o. rewrite rest_text_chunks by (intros ->; cbn in Hp; lia). rewrite rest_text_chunks in E by (intros ->; cbn in Hp; lia).
  split_and!; [done|done|done|by rewrite H1, concat_nonempty|done].
Qed.

End receiving.

(** What is written and what is left in the buffer, in this order, is what was in the buffer and what was added to it. *)
Lemma process_send_buffer_order t s s' out more :
  (forall b n, write t b = Some n -> (n <= length b)%nat) ->
  process_send_buffer t s = (s', out, more) -> out ++ send_buffer s' = send_buffer s.
Proof.
  intros Hw. unfold process_send_buffer. case_bool_decide as Hb.
  - case_match; intros [= <- <- <-]; done.
  - destruct (write t (send_buffer s)) as [n|]; intros [= <- <- <-]; [|done]. apply take_drop.
Qed.

(** ** A run *)

#[local] Existing Instance gtext_reference.

Definition demo_response : response :=
  mk_response 200 [79; 75] [(Transfer_Encoding, chunked); ([65], [98])] (Chunked [[104; 101; 108; 108; 111]; [33]]).

Lemma demo_response_ok : response_ok demo_response.
Proof.
  split; cbn [demo_response rs_code rs_reason rs_fields rs_payload]; [lia|..].
  - repeat constructor; unfold text_byte, LF, colon; lia.
  - repeat constructor; cbn; unfold text_byte, LF, colon, SP; try lia; done.
  - apply (bool_decide_unpack _). by vm_compute.
  - split; [repeat constructor; by vm_compute|]. exists [], []. by left.
Qed.

(** Two pieces, cut in the data of the first chunk. *)
Definition demo_pieces : list (list Z) := [take 60 (render demo_response); drop 60 (render demo_response)].

Lemma demo_untorn : untorn false fresh_receiver demo_pieces.
Proof.
  intros s1 o1 E. vm_compute in E. injection E as <- <-. split; [intros (_ & T & _); by vm_compute in T|].
  intros s2 o2 E. split; [|done]. intros (_ & T & _). by vm_compute in T.
Qed.

Lemma response_received_witness :
  exists s o, receive false fresh_receiver demo_pieces = Some (s, o, true) /\ status s = 200 /\
    headers s = list_to_map (rs_fields demo_response) /\ delivered o = [104; 101; 108; 108; 111; 33] /\ errors_of o = [].
Proof.
  refine (response_received false demo_response demo_pieces eq_refl demo_response_ok _ demo_untorn).
  unfold demo_pieces. cbn [concat]. rewrite app_nil_r. apply take_drop.
Defined.

Lemma pieces_do_not_matter_witness :
  same_cont (receive false fresh_receiver demo_pieces) (received_data_continue false fresh_receiver (concat demo_pieces)).
Proof. exact (pieces_do_not_matter false fresh_receiver demo_pieces demo_untorn). Defined.

Definition demo_text : request_text := mk_text [47] [104] (Some [120]) None None None None true.

(** A channel that takes three bytes at a time. *)
Definition slow_channel : transport := mk_transport (fun b => Some (Nat.min 3 (length b))) 3 0 false.

Lemma slow_channel_takes : takes slow_channel.
Proof. intros b Hb. eexists. split; [done|]. destruct b; [done|]. cbn [length]. lia. Qed.

Lemma upload_roundtrip_witness :
  exists snd body s o,
    upload demo_text (repeat slow_channel 200) [[104; 105]; []; [33]] fresh_sender = (snd, request_head demo_text ++ body, []) /\
    body_done snd = true /\ decode_chunked false fresh_receiver body = Some (s, o, 0) /\ delivered o = [104; 105; 33] /\ chunk_size s = 0.
Proof.
  apply (upload_roundtrip false demo_text [[104; 105]; []; [33]] (repeat slow_channel 200) fresh_receiver eq_refl).
  - done.
  - cbn. lia.
  - repeat constructor; by vm_compute.
  - apply List.Forall_forall. intros t Ht%repeat_spec. subst t. exact slow_channel_takes.
  - apply Nat.ltb_lt. by vm_compute.
  - by split.
Defined.

(** ** Where it does not do what it means to *)

(** A piece that ends between the CR and the LF behind a chunk size makes a correct response fail. *)
Definition in_body : receiver := mk_receiver 200 true None ∅ [] true CHUNK_SIZE 0 0 0 true false.

Lemma torn_size_fails :
  (exists s o, receive false in_body [chunks [[104; 105]]] = Some (s, o, true) /\ delivered o = [104; 105]) /\
  (exists s o, receive false in_body [take 2 (chunks [[104; 105]]); drop 2 (chunks [[104; 105]])] = Some (s, o, false) /\
    delivered o = [] /\ errors_of o = [Chunk_decode (- EILSEQ)]).
Proof. split; eexists _, _; (split; [by vm_compute|by vm_compute]). Qed.

(** One that ends between the CR and the LF of the empty line loses the end of the header, and the body with it. *)
Definition short_response : list Z := HTTP_slash ++ version_1_1 ++ [SP; 50; 48; 48] ++ CRLF ++ CRLF ++ [104; 105].

Lemma torn_header_lost :
  (exists s o, receive false fresh_receiver [short_response] = Some (s, o, true) /\ delivered o = [104; 105]) /\
  (exists s o, receive false fresh_receiver [take 15 short_response; drop 15 short_response] = Some (s, o, true) /\
    delivered o = [] /\ header_done s = false).
Proof. split; eexists _, _; (split; [by vm_compute|by vm_compute]). Qed.

(** When the socket would block, -1 is subtracted from what is left of the file: one byte too many is sent. *)
Lemma eagain_grows :
  process_send_file (mk_transport (fun _ => None) 3 (-1) true) (mk_sender [] false false true (Some 4) 10 0) =
    (mk_sender [] false false true (Some 4) 11 0, true).
Proof. by vm_compute. Qed.

End WebHttp.
