(* ===== verification/WebUrl.v ===== *)
(** * URLs and the token parser of gweb (gweb/gweb.c)

    A request names its target by a URL, which is split into scheme, host, port and
    path; a proxy has a URL too.  The parser cuts the parts of a page between two tokens out of
    the data of a response, which comes in pieces. *)

From S2P Require Import Prelude Inet Buffer CText.
From stdpp Require Import list.
Open Scope Z_scope.

Module WebUrl.

Definition ERANGE : Z := 34.
Definition colon : Z := 58.
Definition slash : Z := 47.
Definition opening : Z := 91.
Definition closing : Z := 93.

(** A cursor is an offset into the URL. *)
Definition at_cursor (url : list Z) (cursor : Z) : list Z := drop (Z.to_nat cursor) url.

Definition scheme_delimiter : list Z := [colon; slash; slash].

Definition parse_url_scheme (url : list Z) (cursor : Z) : Z + option (list Z) * Z :=
  if bool_decide (url = []) then inl (- EINVAL)
  else
    match memmem scheme_delimiter (at_cursor url cursor) with
    | Some (scheme, _) => inr (Some scheme, cursor + Z.of_nat (length scheme) + 3)
    | None => inr (None, cursor)
    end.

Definition parse_url_host (url : list Z) (cursor : Z) : Z + list Z * Z :=
  if bool_decide (url = []) then inl (- EINVAL)
  else
    let finish host := if bool_decide (host = []) then inl (- EINVAL) else inr (host, cursor + Z.of_nat (length host)) in
    match memchr opening (at_cursor url cursor) with
    | Some (_, inside) =>
        match memchr closing inside with
        | None => inl (- EINVAL)
        | Some (host, _) => finish host
        end
    | None =>
        match memchr colon (at_cursor url cursor) with
        | Some (host, _) => finish host
        | None =>
            match memchr slash (at_cursor url cursor) with
            | Some (host, _) => finish host
            | None => finish (at_cursor url cursor)
            end
        end
    end.

Definition UINT16_MAX : Z := 65535.

(** The port is an [int16_t]; -1 is no port. *)
Definition parse_url_port (url : list Z) (cursor : Z) : Z + Z * Z :=
  if bool_decide (url = []) then inl (- EINVAL)
  else
    match memchr colon (at_cursor url cursor) with
    | Some (_, text) =>
        let '(tmp_port, end_) := strtoul 10 text in
        if tmp_port =? ULONG_MAX then inl (- ERANGE)
        else if UINT16_MAX <? tmp_port then inl (- ERANGE)
        else if (length end_ =? length text)%nat then inl (- EINVAL)
        else inr (s16 tmp_port, cursor + (Z.of_nat (length text) - Z.of_nat (length end_)))
    | None => inr (-1, cursor)
    end.

Definition parse_url_host_and_port (url : list Z) (cursor : Z) : Z + list Z * Z * Z :=
  match parse_url_host url cursor with
  | inl err => inl err
  | inr (host, cursor) =>
      match parse_url_port url cursor with
      | inl err => inl err
      | inr (port, cursor) => inr (host, port, cursor)
      end
  end.

Definition parse_url_path (url : list Z) (cursor : Z) : option (list Z) :=
  match memchr slash (at_cursor url cursor) with
  | Some (_, path) => Some path
  | None => None
  end.

Record components := mk_components {
  c_scheme : option (list Z);
  c_host : list Z;
  c_port : Z;
  c_path : option (list Z);
}.

Section urls.
Context {gt : GText}.

Definition parse_url_components (url : list Z) : Z + components :=
  if bool_decide (url = []) then inl (- EINVAL)
  else
    let p := Z.of_nat (length url) - Z.of_nat (length (skip_while g_ascii_isspace url)) in
    match parse_url_scheme url p with
    | inl err => inl err
    | inr (scheme, p) =>
        match parse_url_host_and_port url p with
        | inl err => inl err
        | inr (host, port, p) => inr (mk_components scheme host port (parse_url_path url p))
        end
    end.

(** A string of the session; [Freed] is one whose memory has been given back. *)
Inductive pointer := Null | Text (l : list Z) | Freed.

Record target := mk_target {
  t_address : pointer;
  t_host : pointer;
  t_port : Z;
  t_request : pointer;
}.

Definition http : list Z := [104; 116; 116; 112].
Definition https : list Z := [104; 116; 116; 112; 115].

(** The error, or 0, and the session. *)
Definition parse_request_url (t : target) (request_url : list Z) (has_proxy_url : bool) : Z * target :=
  match parse_url_components request_url with
  | inl err => (err, t)
  | inr c =>
      let default := match c_scheme c with
                     | Some s => if g_ascii_strcasecmp s https then Some 443
                                 else if g_ascii_strcasecmp s http then Some 80 else None
                     | None => Some 80
                     end in
      match default with
      | None => (- EINVAL, t)
      | Some d =>
          let port := if c_port c =? -1 then d else u16 (c_port c) in
          let host := if negb (c_port c =? -1) && has_proxy_url
                      then c_host c ++ [colon] ++ print_number 10 (u32 (c_port c)) else c_host c in
          let request := if has_proxy_url then request_url
                         else slash :: match c_path c with Some p => p | None => [] end in
          (0, mk_target (t_address t) (Text host) port (Text request))
      end
  end.

(** [host] is freed when the function returns, and [session->address] is [host]. *)
Definition parse_proxy_url (t : target) (proxy_url : list Z) : Z * target :=
  match parse_url_scheme proxy_url 0 with
  | inl err => (err, t)
  | inr (scheme, p) =>
      match parse_url_host_and_port proxy_url p with
      | inl err => (err, t)
      | inr (host, port, _) =>
          if match scheme with Some s => negb (g_ascii_strcasecmp s http) | None => false end then (- EINVAL, t)
          else (0, mk_target Freed (t_host t) (if port =? -1 then t_port t else u16 port) (t_request t))
      end
  end.

Definition parse_request_and_proxy_urls (t : target) (url : list Z) (proxy : option (list Z)) : Z * target :=
  let '(err, t) := parse_request_url t url (bool_decide (is_Some proxy)) in
  if negb (err =? 0) then (err, t)
  else match proxy with None => (err, t) | Some proxy => parse_proxy_url t proxy end.

End urls.

(** ** The token parser *)

Record parser := mk_parser {
  begin_token : list Z;
  end_token : list Z;
  token_pos : nat;
  intoken : bool;
  content : list Z;
}.

Definition g_web_parser_new (begin_ end_ : list Z) : parser := mk_parser begin_ end_ 0 false [].

(** [token_str] is the end token exactly while in a token; behind its bytes it has a zero. *)
Definition token_str (p : parser) : list Z := if intoken p then end_token p else begin_token p.
Definition token_char (p : parser) : Z := default 0 (token_str p !! token_pos p).

Definition set_pos (n : nat) (p : parser) : parser := mk_parser (begin_token p) (end_token p) n (intoken p) (content p).

(** Data goes to the content while in a token. *)
Definition collect (l : list Z) (p : parser) : parser :=
  mk_parser (begin_token p) (end_token p) (token_pos p) (intoken p) (if intoken p then content p ++ l else content p).

(** A token is complete: the begin token starts the content, the end token reports it. *)
Definition token_done (p : parser) : parser * list (list Z) :=
  if intoken p then (mk_parser (begin_token p) (end_token p) 0 false [], [content p])
  else (mk_parser (begin_token p) (end_token p) 0 true (content p ++ begin_token p), []).

(** One round of the loop: the strings reported to [func], and the data that is left. *)
Definition feed_step (p : parser) (data : list Z) : parser * list (list Z) * list Z :=
  match token_pos p with
  | O =>
      match memchr (token_char p) data with
      | None => (collect data p, [], [])
      | Some (before, rest) => (set_pos 1 (collect (before ++ [token_char p]) p), [], rest)
      end
  | S _ =>
      match data with
      | [] => (p, [], [])
      | b :: rest =>
          let chr := token_char p in
          let p := collect [b] p in
          if negb (b =? chr) then (set_pos 0 p, [], rest)
          else
            let p := set_pos (S (token_pos p)) p in
            if (token_pos p =? length (token_str p))%nat then
              let '(p, out) := token_done p in (p, out, rest)
            else (p, [], rest)
      end
  end.

Fixpoint feed_loop (fuel : nat) (p : parser) (data : list Z) : parser * list (list Z) :=
  match fuel, data with
  | O, _ | _, [] => (p, [])
  | S fuel, _ =>
      let '(p, out, rest) := feed_step p data in
      let '(p, out') := feed_loop fuel p rest in
      (p, out ++ out')
  end.

(** Every round consumes a byte. *)
Definition g_web_parser_feed_data (p : parser) (data : list Z) : parser * list (list Z) := feed_loop (length data) p data.

(** ** Theory: the parser byte by byte *)

Fixpoint feed_bytes (p : parser) (data : list Z) : parser * list (list Z) :=
  match data with
  | [] => (p, [])
  | b :: data =>
      let '(p, out, _) := feed_step p [b] in
      let '(p, out') := feed_bytes p data in
      (p, out ++ out')
  end.

Lemma feed_bytes_app p a b : feed_bytes p (a ++ b) =
  let '(p1, o1) := feed_bytes p a in let '(p2, o2) := feed_bytes p1 b in (p2, o1 ++ o2).
Proof.
  revert p. induction a as [|x a IH]; intros p; cbn [app feed_bytes]; [by destruct (feed_bytes p b)|].
  destruct (feed_step p [x]) as [[p1 o1] r1]. rewrite IH. destruct (feed_bytes p1 a) as [p2 o2].
  destruct (feed_bytes p2 b) as [p3 o3]. by rewrite app_assoc.
Qed.

Lemma collect_collect a b p : collect b (collect a p) = collect (a ++ b) p.
Proof. unfold collect. cbn. destruct (intoken p); [by rewrite app_assoc|done]. Qed.

Lemma collect_nil p : collect [] p = p.
Proof. unfold collect. destruct p as [b e n [|] c]; cbn; by rewrite ?app_nil_r. Qed.

(** Data without the first byte of the token. *)
Lemma feed_bytes_other p l : token_pos p = O -> Forall (fun b => b <> token_char p) l ->
  feed_bytes p l = (collect l p, []).
Proof.
  revert p. induction l as [|b l IH]; intros p Hp Hl; cbn [feed_bytes]; [by rewrite collect_nil|].
  apply Forall_cons_1 in Hl as [Hb Hl].
  assert (E : feed_step p [b] = (collect [b] p, [], [])).
  { unfold feed_step. rewrite Hp. cbn [memchr]. by rewrite (proj2 (Z.eqb_neq _ _)) by done. }
  rewrite E, IH; [by rewrite collect_collect|done|exact Hl].
Qed.

Lemma feed_step_bytes p data p' out rest : data <> [] -> feed_step p data = (p', out, rest) ->
  (length rest < length data)%nat /\
  feed_bytes p data = let '(p2, out2) := feed_bytes p' rest in (p2, out ++ out2).
Proof.
  intros Hd. destruct (token_pos p) as [|n] eqn:Hp.
  - unfold feed_step. rewrite Hp. pose proof (memchr_inv (token_char p) data) as Hm.
    destruct (memchr (token_char p) data) as [[before r]|].
    + intros [= <- <- <-]. destruct Hm as [-> Hb]. split; [rewrite length_app; cbn; lia|].
      rewrite feed_bytes_app, feed_bytes_other by done. cbn [feed_bytes]. set (q := collect before p).
      assert (E : feed_step q [token_char p] = (set_pos 1 (collect [token_char p] q), [], [])).
      { unfold feed_step. change (token_pos q) with (token_pos p). rewrite Hp. change (token_char q) with (token_char p).
        cbn [memchr]. by rewrite Z.eqb_refl. }
      rewrite E. subst q. rewrite collect_collect. destruct (feed_bytes _ r). done.
    + intros [= <- <- <-]. split; [destruct data; [done|cbn; lia]|]. by rewrite feed_bytes_other.
  - destruct data as [|b data]; [done|]. intros E. assert (E1 : feed_step p [b] = (p', out, []) /\ rest = data).
    { unfold feed_step in *. rewrite Hp in *. repeat case_match; simplify_eq; done. }
    destruct E1 as [E1 ->]. split; [cbn; lia|]. cbn [feed_bytes]. by rewrite E1.
Qed.

Lemma feed_loop_bytes : forall fuel p data, (length data <= fuel)%nat -> feed_loop fuel p data = feed_bytes p data.
Proof.
  induction fuel as [|fuel IH]; intros p data Hf; destruct data as [|b data]; try (cbn in Hf; lia); try done.
  cbn [feed_loop]. destruct (feed_step p (b :: data)) as [[p' out] rest] eqn:E.
  apply feed_step_bytes in E as [Hl E]; [|done]. rewrite E. rewrite IH; [done|]. cbn in *. lia.
Qed.

Lemma feed_data_bytes p data : g_web_parser_feed_data p data = feed_bytes p data.
Proof. by apply feed_loop_bytes. Qed.

(** The pieces of a page. *)
Fixpoint feed_all (p : parser) (frs : list (list Z)) : parser * list (list Z) :=
  match frs with
  | [] => (p, [])
  | f :: frs =>
      let '(p, o1) := g_web_parser_feed_data p f in
      let '(p, o2) := feed_all p frs in
      (p, o1 ++ o2)
  end.

Lemma feed_all_concat frs : forall p, feed_all p frs = g_web_parser_feed_data p (concat frs).
Proof.
  induction frs as [|f frs IH]; intros p; cbn [feed_all concat]; [done|]. rewrite feed_data_bytes, feed_data_bytes, feed_bytes_app.
  destruct (feed_bytes p f) as [p1 o1]. rewrite IH, feed_data_bytes. done.
Qed.

(** While in a token the content starts with the begin token and ends with what has been seen of the end token. *)
Record parser_inv (p : parser) : Prop := {
  pv_end : (2 <= length (end_token p))%nat;
  pv_out : intoken p = false -> content p = [];
  pv_in : intoken p = true -> (token_pos p < length (end_token p))%nat /\
    exists m, content p = begin_token p ++ m ++ take (token_pos p) (end_token p);
}.

Definition enclosed (b e x : list Z) : Prop := exists m, x = b ++ m ++ e.

Lemma feed_byte_inv p x p' out rest : parser_inv p -> feed_step p [x] = (p', out, rest) ->
  parser_inv p' /\ begin_token p' = begin_token p /\ end_token p' = end_token p /\
  Forall (enclosed (begin_token p) (end_token p)) out.
Proof.
  intros [H1 H2 H3] E. destruct p as [b e n it c]. unfold feed_step in E. cbn in H1, H2, H3. unfold token_char, token_str in E.
  cbn [token_pos intoken begin_token end_token] in E. destruct it.
  - destruct (H3 eq_refl) as (Hn & m & Hc). clear H2 H3. unfold collect, set_pos, token_done, token_str in E.
    cbn [begin_token end_token token_pos intoken content] in E.
    destruct (e !! n) as [ch|] eqn:Ech; [|apply lookup_ge_None in Ech; lia]. cbn [default from_option id] in E.
    assert (Hap : forall y, c ++ [y] = b ++ (m ++ take n e ++ [y])) by (intros y; by rewrite Hc, <- !app_assoc).
    assert (Hts : take (S n) e = take n e ++ [ch]) by (by apply take_S_r).
    destruct n as [|n].
    + cbn [memchr] in E. destruct (Z.eqb_spec x ch) as [->|Hx]; cbn [mbind option_bind] in E; simplify_eq; split_and!; try done; split; cbn; try done; intros _.
      * split; [lia|]. exists m. rewrite Hts. by rewrite Hap.
      * split; [lia|]. exists (m ++ [x]). rewrite Hap. cbn. by rewrite app_nil_r.
    + destruct (Z.eqb_spec x ch) as [->|Hx]; cbn [negb] in E.
      * destruct (Nat.eqb_spec (S (S n)) (length e)) as [Hl|Hl]; injection E as <- <- <-; split_and!; try done.
        -- constructor; [|constructor]. exists m. rewrite Hap, <- Hts. by rewrite take_ge by lia.
        -- split; cbn; try done. intros _. split; [lia|]. exists m. rewrite Hts. by rewrite Hap.
      * simplify_eq. split_and!; try done. split; cbn; try done. intros _. split; [lia|]. exists (m ++ take (S n) e ++ [x]).
        rewrite Hap. by rewrite take_0, app_nil_r.
  - specialize (H2 eq_refl). subst c. clear H3. unfold collect, set_pos, token_done in E. cbn in E.
    repeat case_match; simplify_eq; split_and!; try done; split; cbn; try done; intros _.
    split; [lia|]. exists []. by rewrite take_0, app_nil_r.
Qed.

Lemma feed_bytes_inv data : forall p p' out, parser_inv p -> feed_bytes p data = (p', out) ->
  parser_inv p' /\ Forall (enclosed (begin_token p) (end_token p)) out.
Proof.
  induction data as [|x data IH]; intros p p' out I E; cbn [feed_bytes] in E; [by simplify_eq|].
  destruct (feed_step p [x]) as [[p1 o1] r1] eqn:E1. destruct (feed_bytes p1 data) as [p2 o2] eqn:E2. simplify_eq.
  apply feed_byte_inv in E1 as (I1 & Hb & He & Ho1); [|done]. apply IH in E2 as [I2 Ho2]; [|done].
  split; [done|]. apply Forall_app. split; [done|]. by rewrite <- Hb, <- He.
Qed.

(** The rest of a token. *)
Lemma feed_bytes_rest : forall n p, (n = length (token_str p) - token_pos p)%nat -> (0 < token_pos p < length (token_str p))%nat ->
  feed_bytes p (drop (token_pos p) (token_str p)) =
    token_done (set_pos (length (token_str p)) (collect (drop (token_pos p) (token_str p)) p)).
Proof.
  induction n as [|n IH]; intros p Hn Hp; [lia|].
  destruct (token_str p !! token_pos p) as [ch|] eqn:Ech; [|apply lookup_ge_None in Ech; lia].
  rewrite (drop_S _ _ _ Ech). cbn [feed_bytes].
  assert (E : feed_step p [ch] = let q := set_pos (S (token_pos p)) (collect [ch] p) in
    if (S (token_pos p) =? length (token_str p))%nat then let '(q', o) := token_done q in (q', o, []) else (q, [], [])).
  { unfold feed_step. destruct (token_pos p) as [|k] eqn:Ek; [lia|]. unfold token_char. rewrite Ek, Ech. cbn [default from_option id].
    rewrite Z.eqb_refl. cbn [negb]. change (token_pos (collect [ch] p)) with (token_pos p). by rewrite Ek. }
  rewrite E. destruct (Nat.eqb_spec (S (token_pos p)) (length (token_str p))) as [Hl|Hl].
  - rewrite drop_ge by lia. rewrite Hl. cbv zeta. destruct (token_done _) as [q o]. cbn [feed_bytes]. by rewrite app_nil_r.
  - cbv zeta iota beta. set (q := set_pos (S (token_pos p)) (collect [ch] p)).
    assert (IHq : feed_bytes q (drop (S (token_pos p)) (token_str p)) =
      token_done (set_pos (length (token_str p)) (collect (drop (S (token_pos p)) (token_str p)) q))).
    { apply (IH q); change (token_str q) with (token_str p); change (token_pos q) with (S (token_pos p)); lia. }
    rewrite IHq.
    assert (Hc : set_pos (length (token_str p)) (collect (drop (S (token_pos p)) (token_str p)) q) =
      set_pos (length (token_str p)) (collect (ch :: drop (S (token_pos p)) (token_str p)) p)).
    { change (ch :: ?l) with ([ch] ++ l). rewrite <- collect_collect. done. }
    rewrite Hc. set (X := token_done _). by destruct X.
Qed.

(** Data without the first byte of the token, and then the token. *)
Lemma feed_bytes_token p pre : token_pos p = O -> (2 <= length (token_str p))%nat -> Forall (fun b => b <> token_char p) pre ->
  feed_bytes p (pre ++ token_str p) = token_done (set_pos (length (token_str p)) (collect (pre ++ token_str p) p)).
Proof.
  intros Hp Hl Hpre. rewrite feed_bytes_app, feed_bytes_other by done. set (q := collect pre p).
  destruct (token_str p) as [|c tok] eqn:Et; [cbn in Hl; lia|].
  assert (Hc : token_char p = c) by (unfold token_char; by rewrite Hp, Et).
  cbn [feed_bytes]. assert (E : feed_step q [c] = (set_pos 1 (collect [c] q), [], [])).
  { unfold feed_step. change (token_pos q) with (token_pos p). rewrite Hp. change (token_char q) with (token_char p).
    rewrite Hc. cbn [memchr]. by rewrite Z.eqb_refl. }
  rewrite E. set (q1 := set_pos 1 (collect [c] q)).
  assert (Hq1 : token_str q1 = c :: tok) by (by change (token_str q1) with (token_str p)).
  pose proof (feed_bytes_rest (length tok) q1) as H. rewrite Hq1 in H. cbn [token_pos q1 set_pos drop length] in H.
  change (drop 0 tok) with tok in H. rewrite H by (cbn in Hl; lia). subst q1 q.
  assert (Hs : set_pos (S (length tok)) (collect tok (set_pos 1 (collect [c] (collect pre p)))) =
    set_pos (length (c :: tok)) (collect (pre ++ c :: tok) p)).
  { change (pre ++ c :: tok) with (pre ++ [c] ++ tok). rewrite <- !collect_collect. done. }
  rewrite Hs. set (X := token_done _). by destruct X.
Qed.

(** The parser of pages reports only texts from a begin token to an end token, reports one that is
    there, and does not depend on how the page is cut into pieces. *)
Lemma parser_reports b e frs :
  (2 <= length b)%nat -> (2 <= length e)%nat ->
  Forall (enclosed b e) (feed_all (g_web_parser_new b e) frs).2 /\
  feed_all (g_web_parser_new b e) frs = g_web_parser_feed_data (g_web_parser_new b e) (concat frs) /\
  forall pre mid, concat frs = pre ++ b ++ mid ++ e ->
    Forall (fun x => head b <> Some x) pre -> Forall (fun x => head e <> Some x) mid ->
    (feed_all (g_web_parser_new b e) frs).2 = [b ++ mid ++ e].
Proof.
  intros Hb He. set (p := g_web_parser_new b e). split_and!; [|apply feed_all_concat|].
  - rewrite feed_all_concat, feed_data_bytes. destruct (feed_bytes p (concat frs)) as [p' out] eqn:E.
    apply feed_bytes_inv in E as [_ E]; [done|]. split; cbn; done.
  - intros pre mid Hcat Hpre Hmid. rewrite feed_all_concat, feed_data_bytes, Hcat. rewrite app_assoc, feed_bytes_app.
    change b with (token_str p) at 1. rewrite feed_bytes_token.
    2: done. 2: done.
    2:{ eapply Forall_impl; [exact Hpre|]. intros x Hx ->. apply Hx. unfold token_char. cbn. destruct b; [cbn in Hb; lia|done]. }
    cbn [token_done set_pos collect intoken p g_web_parser_new content begin_token app].
    set (q := mk_parser _ _ _ _ _). change e with (token_str q) at 2. rewrite feed_bytes_token.
    2: done. 2: done.
    2:{ eapply Forall_impl; [exact Hmid|]. intros x Hx ->. apply Hx. unfold token_char. cbn. destruct e; [cbn in He; lia|done]. }
    done.
Qed.

(** ** Theory: URLs *)

Record url := mk_url {
  u_scheme : list Z;
  u_host : list Z;
  u_v6 : bool;                 (** the host is in brackets *)
  u_port : option Z;
  u_path : option (list Z);
}.

Definition host_text (u : url) : list Z := if u_v6 u then [opening] ++ u_host u ++ [closing] else u_host u.
Definition port_text (u : url) : list Z := match u_port u with Some n => colon :: print_number 10 n | None => [] end.
Definition path_text (u : url) : list Z := match u_path u with Some p => slash :: p | None => [] end.
Definition url_text (u : url) : list Z := u_scheme u ++ scheme_delimiter ++ host_text u ++ port_text u ++ path_text u.

(** The parser looks for delimiters in all that is left, so that those of the host must not be in the path. *)
Record url_ok (u : url) : Prop := {
  uo_scheme : u_scheme u <> [] /\ Forall (fun b => is_Some (digit 36 b)) (u_scheme u);
  uo_host : u_host u <> [] /\ Forall (fun b => b <> slash /\ b <> opening /\ b <> closing) (u_host u);
  uo_colon : if u_v6 u then last (u_host u) <> Some colon else Forall (fun b => b <> colon) (u_host u);
  uo_port : match u_port u with Some n => 0 <= n < 65536 | None => True end;
  uo_path : match u_path u with Some p => Forall (fun b => b <> opening /\ b <> colon) p | None => True end;
}.

Lemma memmem_first a needle rest c : head needle = Some c -> Forall (fun b => b <> c) a ->
  memmem needle (a ++ needle ++ rest) = Some (a, rest).
Proof.
  intros Hc. destruct needle as [|x needle]; [done|]. injection Hc as ->. induction 1 as [|b a Hb _ IH].
  - cbn [app memmem]. change (c :: needle ++ rest) with ((c :: needle) ++ rest).
    assert (Hp : prefix_of (c :: needle) ((c :: needle) ++ rest) = true) by (apply prefix_of_spec; by exists rest).
    rewrite Hp. by rewrite drop_app_length.
  - change ((b :: a) ++ (c :: needle) ++ rest) with (b :: (a ++ (c :: needle) ++ rest)). cbn [memmem prefix_of].
    rewrite (proj2 (Z.eqb_neq c b)) by done. cbn [andb]. by rewrite IH.
Qed.

Lemma at_cursor_app base l k : at_cursor (base ++ l) (Z.of_nat (length base + k)) = drop k l.
Proof. unfold at_cursor. by rewrite Nat2Z.id, drop_app_add. Qed.

(** What is in front of the path has no slash. *)
Lemma path_found x path k : Forall (fun b => b <> slash) x -> (k <= length x)%nat ->
  memchr slash (drop k (x ++ slash :: path)) = Some (drop k x, path).
Proof. intros Hx Hk. rewrite drop_app_le by done. apply memchr_app. by apply Forall_drop. Qed.

Lemma number_chars n : 0 <= n -> Forall (fun b => 48 <= b <= 57) (print_number 10 n).
Proof.
  intros Hn. eapply Forall_impl; [apply (print_digits_all 10 64 ltac:(lia) n [] Hn ltac:(constructor))|].
  intros b [v Hv]. unfold digit in Hv. repeat case_match; bool_to_prop; simplify_eq; lia.
Qed.

Lemma port_read n u : 0 <= n < 65536 ->
  strtoul 10 (print_number 10 n ++ path_text u) = (n, path_text u) /\ print_number 10 n <> [].
Proof.
  intros Hn. split.
  - apply strtoul_print; [by left|lia|]. unfold path_text. by destruct (u_path u).
  - destruct (print_digits_cons 64 10 n []) as (v & l & E & _); [lia|lia|lia|]. unfold print_number. by rewrite E.
Qed.

(** The port behind [k] bytes of which none is a colon. *)
Lemma port_parsed u base x (k : nat) :
  url_ok u -> (k <= length x)%nat ->
  base <> [] -> Forall (fun b => b <> colon) (drop k x) ->
  parse_url_port (base ++ x ++ port_text u ++ path_text u) (Z.of_nat (length base + k)) =
    inr (match u_port u with Some n => s16 n | None => -1 end,
         Z.of_nat (length base + (k + (length (port_text u) - 1)))).
Proof.
  intros U Hd Hb Hx. unfold parse_url_port. rewrite bool_decide_eq_false_2 by (by destruct base). rewrite at_cursor_app, drop_app_le by done.
  pose proof (uo_port _ U) as Hp. unfold port_text in *. destruct (u_port u) as [n|] eqn:Ep.
  - destruct (port_read n u Hp) as [E Hne]. cbn [app]. rewrite memchr_app by done. rewrite E.
    rewrite (proj2 (Z.eqb_neq n ULONG_MAX)) by (unfold ULONG_MAX; lia). rewrite (proj2 (Z.ltb_ge _ _)) by (unfold UINT16_MAX; lia).
    rewrite length_app. destruct (print_number 10 n) as [|d l] eqn:Ed; [done|]. cbn [length].
    rewrite (proj2 (Nat.eqb_neq _ _)) by lia. do 2 f_equal. lia.
  - cbn [app length]. rewrite memchr_none.
    + do 2 f_equal. lia.
    + apply Forall_app. split; [done|]. pose proof (uo_path _ U) as Hpa. unfold path_text. destruct (u_path u); [|constructor].
      constructor; [done|]. eapply Forall_impl; [exact Hpa|]. by intros b [_ Hb'].
Qed.

Lemma path_parsed u base x k :
  url_ok u -> Forall (fun b => b <> slash) x -> (k <= length x)%nat ->
  parse_url_path (base ++ x ++ path_text u) (Z.of_nat (length base + k)) = u_path u.
Proof.
  intros U Hx Hk. unfold parse_url_path. rewrite at_cursor_app. unfold path_text. destruct (u_path u) as [p|].
  - by rewrite path_found.
  - rewrite app_nil_r. by rewrite memchr_none by (by apply Forall_drop).
Qed.

Lemma port_no_slash u : url_ok u -> Forall (fun b => b <> slash /\ b <> opening) (port_text u).
Proof.
  intros U. pose proof (uo_port _ U) as Hp. unfold port_text. destruct (u_port u) as [n|]; [|constructor]. constructor; [done|].
  eapply Forall_impl; [apply number_chars; lia|]. unfold slash, opening. cbn beta. lia.
Qed.

Lemma host_no_slash u : url_ok u -> Forall (fun b => b <> slash) (host_text u ++ port_text u).
Proof.
  intros U. apply Forall_app_2; [|eapply Forall_impl; [by apply port_no_slash|]; by intros b [Hb _]].
  destruct (uo_host _ U) as [_ Hh]. unfold host_text. destruct (u_v6 u).
  - apply Forall_app_2; [by repeat constructor|]. apply Forall_app_2; [|by repeat constructor].
    eapply Forall_impl; [exact Hh|]. by intros b [Hb _].
  - eapply Forall_impl; [exact Hh|]. by intros b [Hb _].
Qed.

Lemma host_parsed u base : url_ok u -> base <> [] ->
  parse_url_host (base ++ host_text u ++ port_text u ++ path_text u) (Z.of_nat (length base)) =
    inr (u_host u, Z.of_nat (length base + length (u_host u))).
Proof.
  intros U Hb. destruct (uo_host _ U) as [Hne Hh]. pose proof (uo_colon _ U) as Hc. unfold parse_url_host.
  rewrite bool_decide_eq_false_2 by (by destruct base). rewrite <- (Nat.add_0_r (length base)), at_cursor_app, drop_0, Nat.add_0_r.
  unfold host_text. destruct (u_v6 u).
  - cbn [app memchr]. rewrite Z.eqb_refl. rewrite <- app_assoc. cbn [app]. rewrite memchr_app.
    + rewrite bool_decide_eq_false_2 by done. do 2 f_equal. lia.
    + eapply Forall_impl; [exact Hh|]. by intros b (_ & _ & Hb').
  - assert (Hop : memchr opening (u_host u ++ port_text u ++ path_text u) = None).
    { apply memchr_none. repeat apply Forall_app_2.
      - eapply Forall_impl; [exact Hh|]. by intros b (_ & Hb' & _).
      - eapply Forall_impl; [by apply port_no_slash|]. by intros b (_ & Hb').
      - pose proof (uo_path _ U) as Hpa. unfold path_text. destruct (u_path u); [|constructor].
        constructor; [done|]. eapply Forall_impl; [exact Hpa|]. by intros b (Hb' & _). }
    rewrite Hop. unfold port_text. destruct (u_port u) as [n|].
    + cbn [app]. rewrite memchr_app by done. rewrite bool_decide_eq_false_2 by done. do 2 f_equal. lia.
    + cbn [app]. assert (Hco : memchr colon (u_host u ++ path_text u) = None).
      { apply memchr_none. apply Forall_app_2; [done|]. pose proof (uo_path _ U) as Hpa. unfold path_text.
        destruct (u_path u); [|constructor]. constructor; [done|]. eapply Forall_impl; [exact Hpa|]. by intros b (_ & Hb'). }
      rewrite Hco. assert (Hs : Forall (fun b => b <> slash) (u_host u)) by (eapply Forall_impl; [exact Hh|]; by intros b [Hb' _]).
      unfold path_text. destruct (u_path u) as [p|].
      * rewrite memchr_app by done. rewrite bool_decide_eq_false_2 by done. do 2 f_equal. lia.
      * rewrite app_nil_r, memchr_none by done. rewrite bool_decide_eq_false_2 by done. do 2 f_equal. lia.
Qed.

(** Where the parser is behind the host: at the last byte of an address in brackets, or at its end. *)
Lemma behind_host u : url_ok u -> (length (u_host u) <= length (host_text u))%nat /\
  Forall (fun b => b <> colon) (drop (length (u_host u)) (host_text u)).
Proof.
  intros U. destruct (uo_host _ U) as [Hne _]. pose proof (uo_colon _ U) as Hc. unfold host_text. destruct (u_v6 u).
  - split; [rewrite !length_app; lia|]. destruct (u_host u) as [|z h _] using rev_ind; [done|].
    rewrite last_snoc in Hc. rewrite length_app. cbn [length]. rewrite Nat.add_1_r.
    change ([opening] ++ (h ++ [z]) ++ [closing]) with (opening :: ((h ++ [z]) ++ [closing])). cbn [drop].
    rewrite <- app_assoc, drop_app_length. constructor; [congruence|by repeat constructor].
  - split; [lia|]. rewrite drop_ge by lia. constructor.
Qed.

Section theory.
Context {gt : GText}.

Lemma url_components_parsed u : url_ok u ->
  parse_url_components (url_text u) =
    inr (mk_components (Some (u_scheme u)) (u_host u) (match u_port u with Some n => s16 n | None => -1 end) (u_path u)).
Proof.
  intros U. destruct (uo_scheme _ U) as [Hne Hs]. unfold parse_url_components, url_text.
  rewrite bool_decide_eq_false_2 by (by destruct (u_scheme u)).
  assert (Hskip : skip_while g_ascii_isspace (u_scheme u ++ scheme_delimiter ++ host_text u ++ port_text u ++ path_text u) =
    u_scheme u ++ scheme_delimiter ++ host_text u ++ port_text u ++ path_text u).
  { destruct (u_scheme u) as [|c l]; [done|]. apply Forall_cons_1 in Hs as [Hc _]. cbn [app skip_while].
    by rewrite g_ascii_isspace_alnum. }
  rewrite Hskip, Z.sub_diag. unfold parse_url_scheme. rewrite bool_decide_eq_false_2 by (by destruct (u_scheme u)).
  change (at_cursor ?l 0) with l. rewrite (memmem_first _ _ _ colon); [|done|].
  2:{ eapply Forall_impl; [exact Hs|]. intros b [v Hv]. unfold digit in Hv. unfold colon. repeat case_match; bool_to_prop; simplify_eq; lia. }
  set (base := u_scheme u ++ scheme_delimiter).
  replace (0 + Z.of_nat (length (u_scheme u)) + 3) with (Z.of_nat (length base)) by (subst base; rewrite length_app; cbn; lia).
  rewrite (app_assoc (u_scheme u) scheme_delimiter). fold base. assert (Hb : base <> []) by (subst base; by destruct (u_scheme u)).
  unfold parse_url_host_and_port. rewrite host_parsed by done. destruct (behind_host u U) as [Hk Hx].
  rewrite port_parsed by done. do 2 f_equal. rewrite (app_assoc (host_text u)). apply path_parsed; [done|by apply host_no_slash|].
  rewrite length_app. lia.
Qed.

Definition is_http (scheme : list Z) : Prop := scheme = http \/ scheme = https.

(** The URL of a request over HTTP, with or without a port below 32768 and a path, and with a name, an IPv4 address or an
    IPv6 address in brackets as host, gives the session exactly this host, port and path; without a port
    it is 80 or 443 by the scheme. *)
Lemma request_url_parsed u t :
  url_ok u -> is_http (u_scheme u) -> match u_port u with Some n => n < 32768 | None => True end ->
  parse_request_and_proxy_urls t (url_text u) None =
    (0, mk_target (t_address t) (Text (u_host u))
          (match u_port u with Some n => n | None => if bool_decide (u_scheme u = https) then 443 else 80 end)
          (Text (slash :: match u_path u with Some p => p | None => [] end))).
Proof.
  intros U Hs Hp. unfold parse_request_and_proxy_urls, parse_request_url. rewrite bool_decide_eq_false_2 by (by intros [? ?]).
  rewrite url_components_parsed by done. cbn [c_scheme c_host c_port c_path].
  assert (Hd : (if g_ascii_strcasecmp (u_scheme u) https then Some 443
                else if g_ascii_strcasecmp (u_scheme u) http then Some 80 else None) =
    Some (if bool_decide (u_scheme u = https) then 443 else 80)).
  { destruct Hs as [-> | ->].
    - destruct (g_ascii_strcasecmp http https) eqn:E; [by apply g_ascii_strcasecmp_length in E|].
      rewrite g_ascii_strcasecmp_refl. done.
    - by rewrite g_ascii_strcasecmp_refl. }
  rewrite Hd. pose proof (uo_port _ U) as Hr. destruct (u_port u) as [n|].
  - rewrite s16_small by lia. rewrite (proj2 (Z.eqb_neq n (-1))) by lia. cbn [negb andb]. rewrite u16_small by lia. done.
  - done.
Qed.

(** ** Where it does not do what it means to *)

(** The address of a proxy is freed before it is used: whenever a proxy URL is accepted. *)
Lemma proxy_address_freed t proxy t' : parse_proxy_url t proxy = (0, t') -> t_address t' = Freed.
Proof.
  unfold parse_proxy_url, parse_url_scheme, parse_url_host_and_port, parse_url_host, parse_url_port. intros E.
  repeat case_match; simplify_eq; done.
Qed.

End theory.

#[local] Existing Instance gtext_reference.

Definition demo_url : url := mk_url http [102; 101; 56; 48; 58; 58; 49] true (Some 8080) (Some [120]).

Lemma request_url_parsed_witness :
  parse_request_and_proxy_urls (mk_target Null Null 0 Null) (url_text demo_url) None =
    (0, mk_target Null (Text [102; 101; 56; 48; 58; 58; 49]) 8080 (Text [47; 120])).
Proof.
  refine (request_url_parsed demo_url (mk_target Null Null 0 Null) _ _ _); [|by left|done].
  split; cbn; [split; [done|repeat constructor; by eexists]|split; [done|repeat constructor]|done|lia|repeat constructor]; done.
Defined.

Lemma parser_reports_witness :
  (feed_all (g_web_parser_new [60; 97] [97; 62]) [[32; 60]; [97; 120]; [97; 62]]).2 = [[60; 97] ++ [120] ++ [97; 62]].
Proof.
  refine (proj2 (proj2 (parser_reports [60; 97] [97; 62] [[32; 60]; [97; 120]; [97; 62]] _ _)) [32] [120] eq_refl _ _);
    [cbn; lia|cbn; lia|by repeat constructor|by repeat constructor].
Defined.

(** Port 65535 is taken for no port, and a port from 32768 on is written as a negative number for a proxy. *)
Definition plain_url (port : Z) (path : option (list Z)) : list Z := url_text (mk_url http [97] false (Some port) path).

Lemma port_65535_ignored : (parse_request_url (mk_target Null Null 0 Null) (plain_url 65535 None) false).2 = mk_target Null (Text [97]) 80 (Text [47]).
Proof. by vm_compute. Qed.

Lemma port_40000_for_proxy :
  t_host (parse_request_url (mk_target Null Null 0 Null) (plain_url 40000 None) true).2 = Text ([97; 58] ++ print_number 10 (2 ^ 32 - 25536)).
Proof. by vm_compute. Qed.

(** A bracket or a colon in the path is taken for one of the host. *)
Lemma bracket_in_path : t_host (parse_request_url (mk_target Null Null 0 Null) (url_text (mk_url http [97] false None (Some [91; 98; 93]))) false).2 = Text [98].
Proof. by vm_compute. Qed.

Lemma colon_in_path : (parse_request_url (mk_target Null Null 0 Null) (url_text (mk_url http [97] false None (Some [98; 58; 99]))) false).1 = - EINVAL.
Proof. by vm_compute. Qed.

(** The cursor does not move over the brackets: an address that ends in a colon, such as [fe80::], is refused. *)
Lemma colon_before_bracket : (parse_request_url (mk_target Null Null 0 Null) (url_text (mk_url http [102; 58; 58] true None None)) false).1 = - EINVAL.
Proof. by vm_compute. Qed.

(** After a mismatch the byte is not looked at again: [<<a] hides the begin token [<a]. *)
Lemma token_missed : (feed_all (g_web_parser_new [60; 97] [97; 62]) [[60; 60; 97; 120; 97; 62]]).2 = [].
Proof. by vm_compute. Qed.

End WebUrl.
