(* ===== verification/Gateway.v ===== *)
(** * Gateways and default routes (src/gateway.c)

    Every connected service has a gateway per address family.  The gateway of the
    default service has the default route with the highest priority, the others
    have routes of low priority (IPv4 only; the kernel manages those of IPv6).  A gateway goes
    through the states inactive, added, active (acknowledged by the kernel) and removed, driven by the
    calls of the services and by the notifications of the kernel.

    Objects of the hash table are named by their service.  The kernel answers every change of a route
    with a result of its own: the state carries the answers to come, and the calls are outputs. *)

From S2P Require Import Prelude Inet Effects Glib.
From stdpp Require Import list gmap.
Open Scope Z_scope.

Module Gateway.

Definition ESRCH : Z := 3.
Definition UINT32_MAX : Z := 2 ^ 32 - 1.

Inductive family := V4 | V6.

Inductive ipconfig_type := TYPE_UNKNOWN | TYPE_IPV4 | TYPE_IPV6 | TYPE_ALL.

Inductive gateway_config_state := STATE_INACTIVE | STATE_ADDED | STATE_ACTIVE | STATE_REMOVED.

Inductive gateway_config_type := CONFIG_NONE | HIGH_PRIORITY_DEFAULT | LOW_PRIORITY_DEFAULT.

#[global] Instance family_eq_dec : EqDecision family.
Proof. solve_decision. Defined.
#[global] Instance ipconfig_type_eq_dec : EqDecision ipconfig_type.
Proof. solve_decision. Defined.
#[global] Instance gateway_config_state_eq_dec : EqDecision gateway_config_state.
Proof. solve_decision. Defined.
#[global] Instance gateway_config_type_eq_dec : EqDecision gateway_config_type.
Proof. solve_decision. Defined.

Record gateway_config := mk_config {
  flags : Z;
  g_state : gateway_config_state;
  g_type : gateway_config_type;
  gateway : list Z;
  vpn_ip : option (list Z);
  vpn_phy_index : Z;
}.

Record gateway_data := mk_data {
  index : Z;
  ipv4_config : option gateway_config;
  ipv6_config : option gateway_config;
  default_checked : bool;
}.

Inductive route_op :=
| Add_interface_route (f : family) (index : Z)
| Del_interface_route (f : family) (index : Z)
| Add_default_route (f : family) (index : Z) (gateway : list Z)
| Del_default_route (f : family) (index : Z) (gateway : list Z)
| Add_default_route_with_metric (index : Z) (gateway : list Z) (metric : Z)
| Del_default_route_with_metric (index : Z) (gateway : list Z) (metric : Z)
| Add_host_route (f : family) (index : Z) (host : list Z) (via : option (list Z))
| Del_host_route (f : family) (index : Z) (host : list Z)
| Clear_gateway_address (f : family) (index : Z) (address : option (list Z)).

Inductive output :=
| Route (op : route_op) (result : Z)
| Indicate_default (service : Z)
| Indicate_ready (service : Z) (f : family)
| Nameserver_add_routes (service : Z) (gateway : list Z)
| Nameserver_del_routes (service : Z) (gateway : list Z) (type : ipconfig_type)
| Get_route (gateway : list Z) (vpn_index : Z).

Record state := mk_state {
  gateway_hash : gmap Z gateway_data;
  answers : list Z;             (** of the kernel; success when there are no more *)
}.

(** What the rest of the program says during one call. *)
Record env := mk_env {
  alloc_ok : bool;
  params_alloc_ok : bool;
  default_service : option Z;
  service_compare : Z -> Z -> Z;
  service_index : Z -> Z;
  service_is_vpn : Z -> bool;
  service_is_split_routing : Z -> bool;
  ipconfig_index : Z -> family -> Z;
  compare_subnet : family -> Z -> list Z -> bool;
  get_dest_addr : family -> Z -> option (list Z);
  check_ipaddress : list Z -> option family;
}.

Definition M (A : Type) : Type := pprog state output A.

Definition set_hash (h : gmap Z gateway_data) (st : state) : state := mk_state h (answers st).

(** A call to change a route. *)
Definition route (op : route_op) : M Z := fun st =>
  match answers st with
  | [] => Some (0, st, [Route op 0])
  | r :: l => Some (r, mk_state (gateway_hash st) l, [Route op r])
  end.

(** ** Configurations *)

Definition FLAG_VPN : Z := 1.

Definition is_gateway_config_vpn (c : gateway_config) : bool := Z.land (flags c) FLAG_VPN =? FLAG_VPN.

Definition with_flags (fl : Z) (c : gateway_config) : gateway_config :=
  mk_config fl (g_state c) (g_type c) (gateway c) (vpn_ip c) (vpn_phy_index c).
Definition gateway_config_set_vpn (c : gateway_config) : gateway_config := with_flags (Z.lor (flags c) FLAG_VPN) c.
Definition gateway_config_clear_vpn (c : gateway_config) : gateway_config :=
  with_flags (Z.land (flags c) (u32_not FLAG_VPN)) c.
Definition gateway_config_state_set (x : gateway_config_state) (c : gateway_config) : gateway_config :=
  mk_config (flags c) x (g_type c) (gateway c) (vpn_ip c) (vpn_phy_index c).
Definition gateway_config_type_set (x : gateway_config_type) (c : gateway_config) : gateway_config :=
  mk_config (flags c) (g_state c) x (gateway c) (vpn_ip c) (vpn_phy_index c).
Definition with_vpn_ip (ip : option (list Z)) (c : gateway_config) : gateway_config :=
  mk_config (flags c) (g_state c) (g_type c) (gateway c) ip (vpn_phy_index c).
Definition with_vpn_phy_index (i : Z) (c : gateway_config) : gateway_config :=
  mk_config (flags c) (g_state c) (g_type c) (gateway c) (vpn_ip c) i.

Definition gateway_config_set_active (c : gateway_config) : gateway_config := gateway_config_state_set STATE_ACTIVE c.
Definition gateway_config_set_inactive (c : gateway_config) : gateway_config :=
  gateway_config_type_set CONFIG_NONE (gateway_config_state_set STATE_INACTIVE c).

Definition is_gateway_config_state (x : gateway_config_state) (c : gateway_config) : bool := bool_decide (g_state c = x).
Definition is_gateway_config_type (x : gateway_config_type) (c : gateway_config) : bool := bool_decide (g_type c = x).

Definition config_of (f : family) (d : gateway_data) : option gateway_config :=
  match f with V4 => ipv4_config d | V6 => ipv6_config d end.
Definition with_config (f : family) (c : option gateway_config) (d : gateway_data) : gateway_data :=
  match f with
  | V4 => mk_data (index d) c (ipv6_config d) (default_checked d)
  | V6 => mk_data (index d) (ipv4_config d) c (default_checked d)
  end.

(** Which families a type stands for; the outer [None] is an invalid one. *)
Definition families (type : ipconfig_type) : option (bool * bool) :=
  match type with
  | TYPE_IPV4 => Some (true, false)
  | TYPE_IPV6 => Some (false, true)
  | TYPE_ALL => Some (true, true)
  | TYPE_UNKNOWN => None
  end.

Definition type_of (f : family) : ipconfig_type := match f with V4 => TYPE_IPV4 | V6 => TYPE_IPV6 end.

(** The object behind a pointer to gateway data, and its configuration; [None] is a null pointer. *)
Definition load (s : Z) : M gateway_data := fun st => match gateway_hash st !! s with None => None | Some d => Some (d, st, []) end.

Definition load_config (s : Z) (f : family) : M (gateway_data * gateway_config) :=
  d ← load s; c ← plift (config_of f d); mret (d, c).

Definition update (s : Z) (g : gateway_data -> gateway_data) : M unit :=
  pmodify (fun st => set_hash (alter g s (gateway_hash st)) st).

Definition update_config (s : Z) (f : family) (g : gateway_config -> gateway_config) : M unit :=
  update s (fun d => with_config f (g <$> config_of f d) d).

Definition ipv4_addr_any_str : list Z := [48; 46; 48; 46; 48; 46; 48].
Definition ipv6_addr_any_str : list Z := [58; 58].

Definition is_addr_any_str (a : list Z) : bool := bytes_eqb ipv4_addr_any_str a || bytes_eqb ipv6_addr_any_str a.

(** ** Routes *)

Definition set_default_gateway_route_common (s : Z) (f : family) (type : gateway_config_type)
    (cb : gateway_data -> gateway_config -> M Z) : M Z :=
  '(d, c) ← load_config s f;
  let added := is_gateway_config_state STATE_ADDED c in
  let active := is_gateway_config_state STATE_ACTIVE c in
  if (added || active) && negb (is_gateway_config_type type c) then mret (- EINVAL)
  else if added then mret (- EINPROGRESS)
  else if active then mret (- EALREADY)
  else
    err ← cb d c;
    if err <? 0 then mret err
    else
      update_config s f (fun c => gateway_config_type_set type (gateway_config_state_set STATE_ADDED c));;
      mret err.

Definition unset_default_gateway_route_common (s : Z) (f : family) (type : gateway_config_type)
    (cb : gateway_data -> gateway_config -> M Z) : M Z :=
  '(d, c) ← load_config s f;
  let inactive := is_gateway_config_state STATE_INACTIVE c in
  if negb inactive && negb (is_gateway_config_type type c) then mret (- EINVAL)
  else if is_gateway_config_state STATE_REMOVED c then mret (- EINPROGRESS)
  else if inactive then mret (- EALREADY)
  else
    err ← cb d c;
    let err := if err =? - ESRCH then 0 else err in
    if err <? 0 then mret err
    else update_config s f (gateway_config_state_set STATE_REMOVED);; mret err.

(** [set_ipv4_high_priority_default_gateway_route_cb] and the function for IPv6. *)
Definition set_high_priority_cb (f : family) (d : gateway_data) (c : gateway_config) : M Z :=
  if is_gateway_config_vpn c then route (Add_interface_route f (index d))
  else if is_addr_any_str (gateway c) then route (Add_interface_route f (index d))
  else route (Add_default_route f (index d) (gateway c)).

Definition unset_high_priority_cb (f : family) (d : gateway_data) (c : gateway_config) : M Z :=
  if is_gateway_config_vpn c then route (Del_interface_route f (index d))
  else if is_addr_any_str (gateway c) then route (Del_interface_route f (index d))
  else route (Del_default_route f (index d) (gateway c)).

Definition compute_low_priority_metric (d : gateway_data) : Z :=
  Z.max (2 ^ 20) (u32 (UINT32_MAX - u32 (index d * 2 ^ 10))).

Definition set_low_priority_cb (d : gateway_data) (c : gateway_config) : M Z :=
  route (Add_default_route_with_metric (index d) (gateway c) (compute_low_priority_metric d)).

Definition unset_low_priority_cb (d : gateway_data) (c : gateway_config) : M Z :=
  route (Del_default_route_with_metric (index d) (gateway c) (compute_low_priority_metric d)).

Definition set_high_priority_default_gateway (f : family) (s : Z) : M Z :=
  set_default_gateway_route_common s f HIGH_PRIORITY_DEFAULT (set_high_priority_cb f).
Definition unset_high_priority_default_gateway (f : family) (s : Z) : M Z :=
  unset_default_gateway_route_common s f HIGH_PRIORITY_DEFAULT (unset_high_priority_cb f).
Definition set_ipv4_low_priority_default_gateway (s : Z) : M Z :=
  set_default_gateway_route_common s V4 LOW_PRIORITY_DEFAULT set_low_priority_cb.
Definition unset_ipv4_low_priority_default_gateway (s : Z) : M Z :=
  unset_default_gateway_route_common s V4 LOW_PRIORITY_DEFAULT unset_low_priority_cb.

(** The operation on a family if it has a configuration and there is an operation. *)
Definition mutate_one (want : bool) (f : family) (op : option (Z -> M Z)) (s : Z) : M Z :=
  d ← load s;
  match op with
  | Some op => if want && bool_decide (is_Some (config_of f d)) then op s else mret 0
  | None => mret 0
  end.

Definition mutate_default_gateway (s : Z) (type : ipconfig_type) (ipv4 ipv6 : option (Z -> M Z)) : M Z :=
  match families type with
  | None => mret (- EINVAL)
  | Some (do_ipv4, do_ipv6) =>
      status4 ← mutate_one do_ipv4 V4 ipv4 s;
      status6 ← mutate_one do_ipv6 V6 ipv6 s;
      mret (if status4 <? 0 then status4 else status6)
  end.

Definition set_default_gateway (s : Z) (type : ipconfig_type) : M Z :=
  status ← mutate_default_gateway s type
    (Some (set_high_priority_default_gateway V4)) (Some (set_high_priority_default_gateway V6));
  if status <? 0 then mret status else pemit (Indicate_default s);; mret status.

Definition unset_default_gateway (s : Z) (type : ipconfig_type) : M Z :=
  mutate_default_gateway s type
    (Some (unset_high_priority_default_gateway V4)) (Some (unset_high_priority_default_gateway V6)).

Definition set_low_priority_default_gateway (s : Z) (type : ipconfig_type) : M Z :=
  mutate_default_gateway s type (Some set_ipv4_low_priority_default_gateway) None.

Definition unset_low_priority_default_gateway (s : Z) (type : ipconfig_type) : M Z :=
  mutate_default_gateway s type (Some unset_ipv4_low_priority_default_gateway) None.

Definition demote_default_gateway (s : Z) (type : ipconfig_type) : M Z :=
  unset_status ← unset_default_gateway s type;
  set_status ← set_low_priority_default_gateway s type;
  mret (if unset_status =? 0 then unset_status else set_status).

Definition promote_default_gateway (s : Z) (type : ipconfig_type) : M Z :=
  unset_status ← unset_low_priority_default_gateway s type;
  set_status ← set_default_gateway s type;
  mret (if set_status =? 0 then set_status else unset_status).

(** The routes of one family when a gateway is taken away. *)
Definition del_family_routes (s : Z) (type : ipconfig_type) (f : family) (want : bool) : M Z :=
  d ← load s;
  match config_of f d with
  | Some c =>
      if negb want then mret 0
      else if is_gateway_config_vpn c then route (Clear_gateway_address f (index d) (vpn_ip c))
      else
        route (Del_host_route f (index d) (gateway c));;
        status ← unset_default_gateway s type;
        unset_low_priority_default_gateway s type;;
        mret status
  | None => mret 0
  end.

Definition del_gateway_routes (s : Z) (type : ipconfig_type) : M Z :=
  match families type with
  | None => mret (- EINVAL)
  | Some (do_ipv4, do_ipv6) =>
      status4 ← del_family_routes s type V4 do_ipv4;
      status6 ← del_family_routes s type V6 do_ipv6;
      mret (if status4 <? 0 then status4 else status6)
  end.

Definition config_active (c : option gateway_config) : bool :=
  match c with Some c => is_gateway_config_state STATE_ACTIVE c | None => false end.

Definition del_gateway_routes_if_active (s : Z) (type : ipconfig_type) : M Z :=
  if bool_decide (type = TYPE_UNKNOWN) then mret (- EINVAL)
  else
    d ← load s;
    let active := match type with
                  | TYPE_IPV4 => config_active (ipv4_config d)
                  | TYPE_IPV6 => config_active (ipv6_config d)
                  | TYPE_ALL => true
                  | TYPE_UNKNOWN => false
                  end in
    if active then del_gateway_routes s type else mret 0.

(** ** Finding gateways *)

Section table.
Context {gl : GLib}.

(** The services in the order in which the table is visited; visiting does not add or take away. *)
Definition services : M (list Z) := pget (fun st => map fst (g_hash_table_foreach (gateway_hash st))).

(** The first service whose data has a property. *)
Definition first_data (p : Z * gateway_data -> bool) (h : gmap Z gateway_data) : option (Z * gateway_data) :=
  head (filter (fun x => p x = true) (g_hash_table_foreach h)).

Definition config_matches (i : Z) (gw : list Z) (f : family) (d : gateway_data) : bool :=
  match config_of f d with
  | Some c => (index d =? i) && bytes_eqb (gateway c) gw
  | None => false
  end.

(** The configuration is named by its service and its family. *)
Definition find_gateway_config (i : Z) (gw : list Z) : M (option (Z * family)) :=
  pget (fun st =>
    '(s, d) ← first_data (fun x => config_matches i gw V4 x.2 || config_matches i gw V6 x.2) (gateway_hash st);
    Some (s, if config_matches i gw V4 d then V4 else V6)).

Definition find_any_active_gateway_data : M (option Z) :=
  pget (fun st => fst <$> first_data (fun x => config_active (ipv4_config x.2) || config_active (ipv6_config x.2))
                            (gateway_hash st)).

Definition find_default_gateway_data (e : env) : M (option Z) :=
  pget (fun st => s ← default_service e; if bool_decide (is_Some (gateway_hash st !! s)) then Some s else None).

Definition find_vpn_gateway_data (i : Z) (gw : list Z) : M (option Z) :=
  pget (fun st => fst <$> first_data (fun x => config_matches i gw V4 x.2 || config_matches i gw V6 x.2)
                            (gateway_hash st)).

Definition get_gateway_cb (e : env) (i : Z) (vpn_index : Z) (vpn_gateway : list Z) : M unit :=
  if i <? 0 then pskip
  else
    data ← find_vpn_gateway_data vpn_index vpn_gateway;
    match data, check_ipaddress e vpn_gateway with
    | Some s, Some f => load_config s f;; update_config s f (with_vpn_phy_index i)
    | _, _ => pskip
    end.

(** ** Adding a gateway *)

Definition new_config (gw : list Z) : gateway_config := mk_config 0 STATE_INACTIVE CONFIG_NONE gw None (-1).

Definition add_gateway (e : env) (s : Z) (i : Z) (gw : list Z) (type : ipconfig_type) : M Z :=
  if (i <? 0) || (Z.of_nat (length gw) =? 0) then mret (- EINVAL)
  else
    match type with
    | TYPE_IPV4 | TYPE_IPV6 =>
        if negb (alloc_ok e) then mret (- ENOMEM)
        else
          let f := match type with TYPE_IPV4 => V4 | _ => V6 end in
          let other := match f with V4 => V6 | V6 => V4 end in
          let data := with_config f (Some (new_config gw)) (mk_data i None None false) in
          old ← pget (fun st => gateway_hash st !! s);
          data ← (match old with
                  | Some _ =>
                      del_gateway_routes_if_active s type;;
                      old ← load s;
                      mret (with_config other (config_of other old) data)
                  | None => mret data
                  end);
          pmodify (fun st => set_hash (<[s := data]> (gateway_hash st)) st);;
          mret 0
    | _ => mret (- EINVAL)
    end.

Definition add_host_route (e : env) (s : Z) (f : family) (vpn : bool) : M unit :=
  d ← load s;
  match config_of f d with
  | None => pskip
  | Some c =>
      if negb (is_addr_any_str (gateway c)) then
        if negb vpn then route (Add_host_route f (index d) (gateway c) None);; pskip else pskip
      else
        match get_dest_addr e f (index d) with
        | Some dest => route (Add_host_route f (index d) dest None);; pskip
        | None => pskip
        end
  end.

Definition route_to_vpn_server (e : env) (s : Z) (gw : list Z) (f : family) (active_gateway : option Z) : M unit :=
  match active_gateway with
  | None => pskip
  | Some a =>
      ad ← load a;
      match config_of f ad with
      | None => pskip
      | Some ac =>
          load_config s f;;
          if compare_subnet e f (index ad) gw then pskip
          else
            let dest := if is_addr_any_str (gateway ac) then None else Some (gateway ac) in
            route (Add_host_route f (index ad) gw dest);; pskip
      end
  end.

Definition set_vpn_routes (e : env) (s : Z) (gw : list Z) (f : family) (peer : option (list Z))
    (active_gateway : option Z) : M unit :=
  d ← load s;
  if bool_decide (is_Some (config_of f d)) then
    update_config s f (fun c => with_vpn_ip (Some (default gw peer)) (gateway_config_set_vpn c));;
    if negb (params_alloc_ok e) then pskip
    else
      pemit (Get_route gw (ipconfig_index e s f));;
      route_to_vpn_server e s gw f active_gateway
  else route_to_vpn_server e s gw f active_gateway.

(** Is the configuration that of a virtual private network? *)
Definition vpn_of (s : Z) (f : family) : M bool :=
  d ← load s;
  mret (match config_of f d with Some c => is_gateway_config_vpn c | None => false end).

(** The default route of the active gateway is taken away when all traffic goes through the network. *)
Definition clear_active (e : env) (s : Z) (f : family) (active_gateway : Z) : M unit :=
  if negb (service_is_split_routing e s) then
    '(ad, ac) ← load_config active_gateway f;
    route (Clear_gateway_address f (index ad) (Some (gateway ac)));; pskip
  else pskip.

Definition connman_gateway_add (e : env) (s : Z) (gw : option (list Z)) (type : ipconfig_type)
    (peer : option (list Z)) : M Z :=
  match type with
  | TYPE_IPV4 | TYPE_IPV6 =>
      let f := match type with TYPE_IPV4 => V4 | _ => V6 end in
      let i := service_index e s in
      if i <? 0 then mret (- EINVAL)
      else
        let gw := default (match f with V4 => ipv4_addr_any_str | V6 => ipv6_addr_any_str end) gw in
        err ← add_gateway e s i gw type;
        if err <? 0 then mret err
        else
          any_active_gateway ← find_any_active_gateway_data;
          default_gateway ← find_default_gateway_data e;
          d ← load s;
          match config_of f d with
          | Some c => add_host_route e s f (service_is_vpn e s);; pemit (Nameserver_add_routes s (gateway c))
          | None => pskip
          end;;
          is_vpn ← (if service_is_vpn e s
                    then set_vpn_routes e s gw f peer any_active_gateway;; vpn_of s f
                    else update_config s f gateway_config_clear_vpn;; mret false);
          match any_active_gateway with
          | None => set_default_gateway s type;; pskip
          | Some a =>
              if bool_decide (is_Some default_gateway) && negb is_vpn
              then set_low_priority_default_gateway s type;; pskip
              else if is_vpn then clear_active e s f a else pskip
          end;;
          pemit (Indicate_ready s f);;
          mret err
  | _ => mret (- EINVAL)
  end.

(** ** Removing a gateway *)

Definition nameserver_del_routes (s : Z) (f : family) (want : bool) (type : ipconfig_type) : M unit :=
  d ← load s;
  match config_of f d with
  | Some c => if want then pemit (Nameserver_del_routes s (gateway c) type) else pskip
  | None => pskip
  end.

Definition del_vpn_host_route (s : Z) (f : family) (vpn : bool) : M unit :=
  if vpn then
    '(d, c) ← load_config s f;
    if 0 <=? index d then route (Del_host_route f (vpn_phy_index c) (gateway c));; pskip else pskip
  else pskip.

Definition connman_gateway_remove (e : env) (s : Z) (type : ipconfig_type) : M unit :=
  match families type with
  | None => pskip
  | Some (do_ipv4, do_ipv6) =>
      h ← pget gateway_hash;
      match h !! s with
      | None => pskip
      | Some _ =>
          nameserver_del_routes s V4 do_ipv4 type;;
          nameserver_del_routes s V6 do_ipv6 type;;
          is_vpn4 ← (if do_ipv4 then vpn_of s V4 else mret false);
          is_vpn6 ← (if do_ipv6 then vpn_of s V6 else mret false);
          del_vpn_host_route s V4 is_vpn4;;
          del_vpn_host_route s V6 is_vpn6;;
          err ← del_gateway_routes_if_active s type;
          d ← load s;
          let has4 := bool_decide (is_Some (ipv4_config d)) in
          let has6 := bool_decide (is_Some (ipv6_config d)) in
          (if eqb do_ipv4 do_ipv6 || (has4 && negb has6 && do_ipv4) || (has6 && negb has4 && do_ipv6)
           then pmodify (fun st => set_hash (delete s (gateway_hash st)) st)
           else pskip);;
          if is_vpn4 || is_vpn6 || (err <? 0) then
            data ← find_default_gateway_data e;
            match data with
            | Some def => promote_default_gateway def type;; pskip
            | None => pskip
            end
          else pskip
      end
  end.

(** ** The choice of the default gateway *)

Definition yield_default_gateway_for_type (e : env) (activated existing : Z) (f : family) : M bool :=
  ad ← load activated;
  ed ← load existing;
  match config_of f ad, config_of f ed with
  | Some _, Some ec =>
      (if negb (is_gateway_config_state STATE_ACTIVE ec)
       then demote_default_gateway existing (type_of f);; pskip else pskip);;
      '(_, ec) ← load_config existing f;
      if is_gateway_config_state STATE_ACTIVE ec && (service_compare e existing activated <? 0)
      then demote_default_gateway activated (type_of f);; mret true
      else mret false
  | _, _ => mret false
  end.

Definition yield_default_gateway (e : env) (activated existing : Z) : M bool :=
  yield_ipv4_activated ← yield_default_gateway_for_type e activated existing V4;
  yield_ipv6_activated ← yield_default_gateway_for_type e activated existing V6;
  mret (yield_ipv4_activated || yield_ipv6_activated).

Fixpoint yield_loop (e : env) (activated : Z) (l : list Z) : M bool :=
  match l with
  | [] => mret false
  | existing :: l =>
      if existing =? activated then yield_loop e activated l
      else
        yield_activated ← yield_default_gateway e activated existing;
        if (yield_activated : bool) then mret true else yield_loop e activated l
  end.

Definition promote_family (s : Z) (f : family) : M unit :=
  d ← load s;
  if bool_decide (is_Some (config_of f d)) then promote_default_gateway s (type_of f);; pskip else pskip.

Definition check_default_gateway (e : env) (activated : Z) : M unit :=
  d ← load activated;
  if default_checked d then pskip
  else
    l ← services;
    yield_activated ← yield_loop e activated l;
    (if (yield_activated : bool) then pskip else promote_family activated V4;; promote_family activated V6);;
    update activated (fun d => mk_data (index d) (ipv4_config d) (ipv6_config d) true).

(** The kernel says that a route was added or removed. *)
Definition gateway_rtnl_new (e : env) (i : Z) (gw : list Z) : M unit :=
  config ← find_gateway_config i gw;
  match config with
  | None => pskip
  | Some (s, f) =>
      '(_, c) ← load_config s f;
      if is_gateway_config_state STATE_REMOVED c then pskip
      else if is_gateway_config_state STATE_INACTIVE c then pskip
      else
        update_config s f gateway_config_set_active;;
        check_default_gateway e s
  end.

Definition promote_default (e : env) : M unit :=
  data ← find_default_gateway_data e;
  match data with
  | Some def => promote_default_gateway def TYPE_ALL;; pskip
  | None => pskip
  end.

Definition gateway_rtnl_del (e : env) (i : Z) (gw : list Z) : M unit :=
  config ← find_gateway_config i gw;
  match config with
  | None => promote_default e
  | Some (s, f) =>
      '(_, c) ← load_config s f;
      if is_gateway_config_state STATE_REMOVED c
      then update_config s f gateway_config_set_inactive;; promote_default e
      else pskip
  end.

Definition demote_if_active (s : Z) (f : family) (updated : bool) : M bool :=
  d ← load s;
  if config_active (config_of f d)
  then status ← demote_default_gateway s (type_of f); mret (status =? 0)
  else mret updated.

Fixpoint update_loop (default_gateway : option Z) (l : list Z) (updated4 updated6 : bool) : M (bool * bool) :=
  match l with
  | [] => mret (updated4, updated6)
  | s :: l =>
      if bool_decide (default_gateway = Some s) then update_loop default_gateway l updated4 updated6
      else
        updated4 ← demote_if_active s V4 updated4;
        updated6 ← demote_if_active s V6 updated6;
        update_loop default_gateway l updated4 updated6
  end.

Definition promote_if_needed (s : Z) (f : family) (updated : bool) : M unit :=
  d ← load s;
  match config_of f d with
  | Some c =>
      if updated || negb (is_gateway_config_state STATE_ACTIVE c)
      then promote_default_gateway s (type_of f);; pskip else pskip
  | None => pskip
  end.

Definition connman_gateway_update (e : env) : M bool :=
  default_gateway ← find_default_gateway_data e;
  l ← services;
  '(updated4, updated6) ← update_loop default_gateway l false false;
  match default_gateway with
  | Some def => promote_if_needed def V4 updated4;; promote_if_needed def V6 updated6
  | None => pskip
  end;;
  mret (updated4 || updated6).

Definition phy_index_is (phy : Z) (c : option gateway_config) : bool :=
  match c with Some c => vpn_phy_index c =? phy | None => false end.

Definition connman_gateway_get_vpn_index (phy_index : Z) (h : gmap Z gateway_data) : Z :=
  match first_data (fun x => phy_index_is phy_index (ipv4_config x.2) || phy_index_is phy_index (ipv6_config x.2)) h with
  | Some (_, d) => index d
  | None => -1
  end.

Definition has_config (d : gateway_data) : bool :=
  bool_decide (is_Some (ipv4_config d)) || bool_decide (is_Some (ipv6_config d)).

Definition connman_gateway_get_vpn_phy_index (vpn_index : Z) (h : gmap Z gateway_data) : Z :=
  match first_data (fun x => (index x.2 =? vpn_index) && has_config x.2) h with
  | Some (_, d) =>
      match ipv4_config d, ipv6_config d with
      | Some c, _ => vpn_phy_index c
      | None, Some c => vpn_phy_index c
      | None, None => -1
      end
  | None => -1
  end.

Fixpoint cleanup_loop (l : list Z) : M unit :=
  match l with
  | [] => pskip
  | s :: l => del_gateway_routes_if_active s TYPE_ALL;; cleanup_loop l
  end.

Definition connman_gateway_cleanup : M unit :=
  l ← services;
  cleanup_loop l;;
  pmodify (set_hash ∅).

End table.

End Gateway.
