(* ===== verification/GatewayProps.v ===== *)
(** * Properties of the gateways

    - the states and types of the gateways agree with the calls that the kernel has accepted, in every
      state the events lead to, and the handlers always return;
    - after a change of the default service no other service keeps an active default route of high
      priority, and the default service gets one. *)

From S2P Require Import Prelude Inet Effects Glib Gateway.
From stdpp Require Import list gmap.
Import Gateway.
Open Scope Z_scope.

Module GatewayProps.

(** ** The default routes the kernel was asked for *)

Record key := Key { k_family : family; k_index : Z; k_gateway : option (list Z); k_metric : option Z }.

#[global] Instance key_eq_dec : EqDecision key.
Proof. solve_decision. Defined.

(** The default route that an operation adds ([true]) or removes.  [clears] has the routes of [Clear_gateway_address]. *)
Definition op_key (op : route_op) : option (bool * key) :=
  match op with
  | Add_interface_route f i => Some (true, Key f i None None)
  | Del_interface_route f i => Some (false, Key f i None None)
  | Add_default_route f i gw => Some (true, Key f i (Some gw) None)
  | Del_default_route f i gw => Some (false, Key f i (Some gw) None)
  | Add_default_route_with_metric i gw m => Some (true, Key V4 i (Some gw) (Some m))
  | Del_default_route_with_metric i gw m => Some (false, Key V4 i (Some gw) (Some m))
  | _ => None
  end.

(** The kernel accepts a call whose result is not negative; it says [ESRCH] of a route it does not have. *)
Definition track (k : key) (b : bool) (o : output) : bool :=
  match o with
  | Route op r =>
      match op_key op with
      | Some (true, k') => if bool_decide (k' = k) && (0 <=? r) then true else b
      | Some (false, k') => if bool_decide (k' = k) && ((0 <=? r) || (r =? - ESRCH)) then false else b
      | None => b
      end
  | _ => b
  end.

(** Was the route asked for, and accepted, and not deleted since by the call that names it? *)
Definition requested (k : key) (tr : list output) : bool := fold_left (track k) tr false.

(** Removing the default route by the address of the gateway: for IPv4 the call names neither the interface nor the metric. *)
Definition clears (op : route_op) (k : key) : bool :=
  match op with
  | Clear_gateway_address V4 _ (Some gw) => bool_decide (k_family k = V4 /\ k_gateway k = Some gw)
  | Clear_gateway_address V6 i (Some gw) => bool_decide (k_family k = V6 /\ k_index k = i /\ k_gateway k = Some gw)
  | _ => false
  end.

(** What the calls have made of a route of the kernel: [Cleared] is gone by the address of its gateway. *)
Inductive route_status := Absent | Present | Cleared.

Definition status_step (k : key) (b : route_status) (o : output) : route_status :=
  match o with
  | Route op r =>
      match op_key op with
      | Some (true, k') => if bool_decide (k' = k) && (0 <=? r) then Present else b
      | Some (false, k') => if bool_decide (k' = k) && ((0 <=? r) || (r =? - ESRCH)) then Absent else b
      | None => if clears op k && (0 <=? r) then match b with Present => Cleared | _ => b end else b
      end
  | _ => b
  end.

Definition status_of (k : key) (tr : list output) : route_status := fold_left (status_step k) tr Absent.

(** The default route of a gateway. *)
Definition high_key (f : family) (i : Z) (c : gateway_config) : key :=
  if is_gateway_config_vpn c || is_addr_any_str (gateway c) then Key f i None None else Key f i (Some (gateway c)) None.
Definition low_key (d : gateway_data) (c : gateway_config) : key :=
  Key V4 (index d) (Some (gateway c)) (Some (compute_low_priority_metric d)).

Definition key_of (f : family) (d : gateway_data) (c : gateway_config) : option key :=
  match g_type c with
  | CONFIG_NONE => None
  | HIGH_PRIORITY_DEFAULT => Some (high_key f (index d) c)
  | LOW_PRIORITY_DEFAULT => Some (low_key d c)
  end.

Definition pending (c : gateway_config) : Prop := g_state c = STATE_ADDED \/ g_state c = STATE_ACTIVE.

Record config_ok (f : family) (d : gateway_data) (c : gateway_config) (tr : list output) : Prop := {
  ok_inactive : g_state c = STATE_INACTIVE <-> g_type c = CONFIG_NONE;
  ok_low : f = V6 -> g_type c <> LOW_PRIORITY_DEFAULT;
  ok_route : pending c -> exists k, key_of f d c = Some k /\ requested k tr = true;
}.

Definition data_ok (d : gateway_data) (tr : list output) : Prop :=
  forall f c, config_of f d = Some c -> config_ok f d c tr.

(** Which configurations every service has, and its interface. *)
Definition shape_of (d : gateway_data) : bool * bool * Z :=
  (bool_decide (is_Some (ipv4_config d)), bool_decide (is_Some (ipv6_config d)), index d).

Abbreviation shape := (gmap Z (bool * bool * Z)).

Definition has (S : shape) (s : Z) (f : family) : Prop :=
  exists p, S !! s = Some p /\ (match f with V4 => p.1.1 | V6 => p.1.2 end) = true.

Record inv (S : shape) (st : state) (tr : list output) : Prop := {
  inv_data s d : gateway_hash st !! s = Some d -> data_ok d tr;
  inv_apart s1 s2 d1 d2 : gateway_hash st !! s1 = Some d1 -> gateway_hash st !! s2 = Some d2 ->
    index d1 = index d2 -> s1 = s2;
  inv_shape : shape_of <$> gateway_hash st = S;
}.

(** ** Handlers with a history

    [runs m P Q]: from a state and a history with [P] the handler returns, with [Q] of its result, of the
    new state and of the longer history. *)

Definition runs {A} (m : M A) (P : state -> list output -> Prop) (Q : A -> state -> list output -> Prop) : Prop :=
  forall st tr, P st tr -> exists a st' o, m st = Some (a, st', o) /\ Q a st' (tr ++ o).

Lemma runs_bind {A B} (m : M A) (k : A -> M B) P R Q :
  runs m P R -> (forall a, runs (k a) (R a) Q) -> runs (m ≫= k) P Q.
Proof.
  intros Hm Hk st tr HP. destruct (Hm st tr HP) as (a & st1 & o1 & E1 & HR).
  destruct (Hk a st1 _ HR) as (b & st2 & o2 & E2 & HQ).
  exists b, st2, (o1 ++ o2). split; [by apply (bind_run _ _ _ a st1)|]. by rewrite app_assoc.
Qed.

Lemma runs_ret {A} (a : A) (P : state -> list output -> Prop) Q :
  (forall st tr, P st tr -> Q a st tr) -> runs (mret a) P Q.
Proof. intros H st tr HP. exists a, st, []. split; [done|]. rewrite app_nil_r. by apply H. Qed.

Lemma runs_conseq {A} (m : M A) P P' (Q Q' : A -> state -> list output -> Prop) :
  runs m P' Q' -> (forall st tr, P st tr -> P' st tr) -> (forall a st tr, Q' a st tr -> Q a st tr) -> runs m P Q.
Proof.
  intros Hm HP HQ st tr H. destruct (Hm st tr (HP _ _ H)) as (a & st' & o & E & HQ').
  exists a, st', o. split; [done|]. by apply HQ.
Qed.

Lemma runs_pure {A} (m : M A) (X : Prop) P Q : (X -> runs m P Q) -> runs m (fun st tr => P st tr /\ X) Q.
Proof. intros H st tr [HP HX]. by apply H. Qed.

(** The value read is a function of the state. *)
Lemma runs_get {A B} (g : state -> A) (k : A -> M B) P Q :
  (forall a, runs (k a) (fun st tr => P st tr /\ g st = a) Q) -> runs (pget g ≫= k) P Q.
Proof.
  intros H st tr HP. destruct (H (g st) st tr (conj HP eq_refl)) as (b & st' & o & E & HQ).
  exists b, st', o. split; [|done]. by apply (bind_next _ _ _ (g st) st).
Qed.

Lemma runs_load {B} (s : Z) (k : gateway_data -> M B) P Q :
  (forall st tr, P st tr -> is_Some (gateway_hash st !! s)) ->
  (forall d, runs (k d) (fun st tr => P st tr /\ gateway_hash st !! s = Some d) Q) -> runs (load s ≫= k) P Q.
Proof.
  intros Hs H st tr HP. destruct (Hs _ _ HP) as [d E].
  destruct (H d st tr (conj HP E)) as (b & st' & o & E' & HQ).
  exists b, st', o. split; [|done]. apply (bind_next _ _ _ d st); [|done]. unfold load. by rewrite E.
Qed.

Lemma runs_load_config {B} (s : Z) (f : family) (k : gateway_data * gateway_config -> M B) P Q :
  (forall st tr, P st tr -> exists d c, gateway_hash st !! s = Some d /\ config_of f d = Some c) ->
  (forall d c, runs (k (d, c)) (fun st tr => P st tr /\ gateway_hash st !! s = Some d /\ config_of f d = Some c) Q) ->
  runs (load_config s f ≫= k) P Q.
Proof.
  intros Hs H st tr HP. destruct (Hs _ _ HP) as (d & c & E & Ec).
  destruct (H d c st tr (conj HP (conj E Ec))) as (b & st' & o & E' & HQ).
  exists b, st', o. split; [|done]. apply (bind_next _ _ _ (d, c) st); [|done].
  unfold load_config. apply (bind_next _ _ _ d st); [unfold load; by rewrite E|].
  unfold plift, mbind, pprog_bind. by rewrite Ec.
Qed.

Lemma runs_modify (g : state -> state) (P : state -> list output -> Prop) Q :
  (forall st tr, P st tr -> Q tt (g st) tr) -> runs (pmodify g) P Q.
Proof. intros H st tr HP. exists tt, (g st), []. split; [done|]. rewrite app_nil_r. by apply H. Qed.

Lemma runs_route (op : route_op) (P : state -> list output -> Prop) Q :
  (forall st tr r l, P st tr -> Q r (mk_state (gateway_hash st) l) (tr ++ [Route op r])) -> runs (route op) P Q.
Proof.
  intros H st tr HP. unfold route. destruct (answers st) as [|r l] eqn:E.
  - exists 0, st, [Route op 0]. split; [done|]. destruct st as [h a]. apply (H _ _ 0 a HP).
  - exists r, (mk_state (gateway_hash st) l), [Route op r]. split; [done|]. by apply H.
Qed.

(** ** The history and the invariant *)

Lemma requested_snoc k tr o : requested k (tr ++ [o]) = track k (requested k tr) o.
Proof. unfold requested. by rewrite fold_left_app. Qed.

Definition silent (o : output) : Prop := match o with Route op _ => op_key op = None | _ => True end.

Lemma requested_silent k tr o : silent o -> requested k (tr ++ [o]) = requested k tr.
Proof. intros H. rewrite requested_snoc. destruct o as [op r| | | | |]; cbn in *; [by rewrite H|done..]. Qed.

Lemma requested_added k tr op k' r :
  op_key op = Some (true, k') -> requested k tr = true -> requested k (tr ++ [Route op r]) = true.
Proof. intros Hk H. rewrite requested_snoc. cbn. rewrite Hk, H. by case_match. Qed.

Lemma requested_accepted tr op k r :
  op_key op = Some (true, k) -> 0 <= r -> requested k (tr ++ [Route op r]) = true.
Proof.
  intros Hk Hr. rewrite requested_snoc. cbn. rewrite Hk, bool_decide_eq_true_2 by done.
  by rewrite (proj2 (Z.leb_le 0 r) Hr).
Qed.

Lemma requested_refused k tr op b k' r :
  op_key op = Some (b, k') -> r < 0 -> r <> - ESRCH -> requested k (tr ++ [Route op r]) = requested k tr.
Proof.
  intros Hk Hr Hs. rewrite requested_snoc. cbn. rewrite Hk.
  rewrite (proj2 (Z.leb_gt 0 r) Hr), (proj2 (Z.eqb_neq r (- ESRCH)) Hs), ?andb_false_r. cbn [orb]. destruct b; by rewrite ?andb_false_r.
Qed.

Lemma requested_other k tr op b k' r :
  op_key op = Some (b, k') -> k' <> k -> requested k (tr ++ [Route op r]) = requested k tr.
Proof.
  intros Hk Hn. rewrite requested_snoc. cbn. rewrite Hk, bool_decide_eq_false_2 by done. by destruct b.
Qed.

(** A route that was requested is there unless a call has cleared it. *)
Lemma requested_status k tr : requested k tr = true ->
  status_of k tr = Present \/
  status_of k tr = Cleared /\ exists op r, Route op r ∈ tr /\ clears op k = true /\ 0 <= r.
Proof.
  enough (H : match status_of k tr with
              | Absent => requested k tr = false
              | Present => requested k tr = true
              | Cleared => requested k tr = true /\ exists op r, Route op r ∈ tr /\ clears op k = true /\ 0 <= r
              end) by (destruct (status_of k tr); [congruence|by left|right; split; [done|apply H]]).
  induction tr as [|o tr IH] using rev_ind; [done|]. rewrite requested_snoc. unfold status_of in *. rewrite fold_left_app. cbn [fold_left].
  assert (Hin : forall op r, Route op r ∈ tr -> Route op r ∈ tr ++ [o]) by (intros; apply elem_of_app; by left).
  set (b := fold_left (status_step k) tr Absent) in *.
  assert (Hsame : match b with
              | Absent => requested k tr = false
              | Present => requested k tr = true
              | Cleared => requested k tr = true /\ exists op r, Route op r ∈ tr ++ [o] /\ clears op k = true /\ 0 <= r
              end) by (destruct b; [done|done|destruct IH as (? & op & r & ? & ?); split; [done|]; exists op, r; auto]).
  destruct o as [op r| | | | |]; cbn [status_step track]; try exact Hsame.
  destruct (op_key op) as [[[] k']|].
  - destruct (bool_decide (k' = k) && (0 <=? r)); [done|exact Hsame].
  - destruct (bool_decide (k' = k) && _); [done|exact Hsame].
  - destruct (clears op k) eqn:Ec; cbn [andb]; [|exact Hsame]. destruct (Z.leb_spec 0 r) as [Hr|]; [|exact Hsame].
    destruct b; [done| |exact Hsame]. split; [done|]. exists op, r. split; [|done]. apply elem_of_app. right. by apply list_elem_of_singleton.
Qed.

Lemma config_ok_more f d c tr tr' :
  (forall k, key_of f d c = Some k -> requested k tr = true -> requested k tr' = true) ->
  config_ok f d c tr -> config_ok f d c tr'.
Proof. intros H [H1 H2 H3]. split; [done..|]. intros Hp. destruct (H3 Hp) as (k & Hk & Hr). eauto. Qed.

Lemma inv_more S st st' tr tr' :
  gateway_hash st' = gateway_hash st -> (forall k, requested k tr = true -> requested k tr' = true) ->
  inv S st tr -> inv S st' tr'.
Proof.
  intros E Hr [H1 H2 H3]. split; rewrite E; [|done..].
  intros s d Hs f c Hc. eapply config_ok_more; [|by apply (H1 s d Hs f c)]. eauto.
Qed.

Lemma key_family f d c k : (f = V6 -> g_type c <> LOW_PRIORITY_DEFAULT) -> key_of f d c = Some k ->
  k_family k = f /\ k_index k = index d.
Proof.
  unfold key_of, high_key, low_key. destruct (g_type c); intros H E; simplify_eq.
  - by destruct (_ || _).
  - destruct f; [done|]. by destruct (H eq_refl).
Qed.

Lemma config_with_same f c d : config_of f (with_config f c d) = c.
Proof. by destruct f. Qed.
Lemma config_with_other f f' c d : f <> f' -> config_of f (with_config f' c d) = config_of f d.
Proof. by destruct f, f'. Qed.
Lemma index_with f c d : index (with_config f c d) = index d.
Proof. by destruct f. Qed.
Lemma key_of_with f f' c c' d : key_of f (with_config f' c' d) c = key_of f d c.
Proof. unfold key_of, low_key, compute_low_priority_metric. by rewrite index_with. Qed.
Lemma shape_with f c c' d : config_of f d = Some c -> shape_of (with_config f (Some c') d) = shape_of d.
Proof. destruct f; cbn; unfold shape_of; cbn; by intros ->. Qed.

Lemma config_ok_with f f' c c' d tr : config_ok f d c tr -> config_ok f (with_config f' c' d) c tr.
Proof. intros [H1 H2 H3]. split; [done..|]. by rewrite key_of_with. Qed.

(** One configuration is changed and the history grows, with nothing lost for the others. *)
Lemma inv_put S st st' tr tr' s d f c (g : gateway_config -> gateway_config) :
  inv S st tr -> gateway_hash st !! s = Some d -> config_of f d = Some c ->
  gateway_hash st' = alter (fun d => with_config f (g <$> config_of f d) d) s (gateway_hash st) ->
  config_ok f d (g c) tr' ->
  (forall k, (k_family k <> f \/ k_index k <> index d) -> requested k tr = true -> requested k tr' = true) ->
  inv S st' tr'.
Proof.
  intros [H1 H2 H3] Hs Hc E Hok Hr. split; rewrite E.
  - intros s' d'. destruct (decide (s = s')) as [<-|Hn].
    + rewrite lookup_alter_eq, Hs. intros [= <-] f' c'. rewrite Hc. cbn [fmap option_fmap option_map].
      destruct (decide (f' = f)) as [->|Hf].
      * rewrite config_with_same. intros [= <-]. by apply config_ok_with.
      * rewrite config_with_other by done. intros Hc'. apply config_ok_with.
        pose proof (H1 s d Hs f' c' Hc') as Hok'. eapply config_ok_more; [|exact Hok'].
        intros k Hk. apply Hr. left. apply key_family in Hk as [-> _]; [done|]. by apply (ok_low _ _ _ _ Hok').
    + rewrite lookup_alter_ne by done. intros Hs' f' c' Hc'.
      pose proof (H1 s' d' Hs' f' c' Hc') as Hok'. eapply config_ok_more; [|exact Hok'].
      intros k Hk. apply Hr. right. apply key_family in Hk as [_ ->]; [|by apply (ok_low _ _ _ _ Hok')].
      intros Hi. by destruct (Hn (H2 _ _ _ _ Hs Hs' (eq_sym Hi))).
  - intros s1 s2 d1 d2 E1 E2 Hi. apply lookup_alter_Some in E1, E2.
    destruct E1 as [(<- & d1' & E1 & ->)|[_ E1]], E2 as [(<- & d2' & E2 & ->)|[_ E2]];
      rewrite ?index_with in Hi; eauto.
  - rewrite <- H3. apply map_eq. intros s'. rewrite !lookup_fmap. destruct (decide (s = s')) as [<-|Hn].
    + rewrite lookup_alter_eq, Hs. cbn. rewrite Hc. cbn. by rewrite (shape_with f c).
    + by rewrite lookup_alter_ne.
Qed.

Lemma inv_has S st tr s f :
  inv S st tr -> has S s f -> exists d c, gateway_hash st !! s = Some d /\ config_of f d = Some c.
Proof.
  intros H (p & Hp & Hf). rewrite <- (inv_shape _ _ _ H) in Hp. rewrite lookup_fmap in Hp.
  destruct (gateway_hash st !! s) as [d|] eqn:E; [|done]. cbn in Hp. simplify_eq.
  destruct f; cbn in Hf; apply bool_decide_eq_true_1 in Hf as [c Hc]; by exists d, c.
Qed.

Lemma has_of S st tr s d f c :
  inv S st tr -> gateway_hash st !! s = Some d -> config_of f d = Some c -> has S s f.
Proof.
  intros H E Ec. exists (shape_of d). rewrite <- (inv_shape _ _ _ H), lookup_fmap, E. split; [done|].
  destruct f; cbn in *; rewrite Ec; by apply bool_decide_eq_true_2.
Qed.

Lemma inv_there S st tr s : inv S st tr -> is_Some (S !! s) <-> is_Some (gateway_hash st !! s).
Proof. intros H. by rewrite <- (inv_shape _ _ _ H), lookup_fmap, fmap_is_Some. Qed.

(** ** Routes *)

Definition add_of (f : family) (type : gateway_config_type) (cb : gateway_data -> gateway_config -> M Z) : Prop :=
  forall d c, exists op k, cb d c = route op /\ op_key op = Some (true, k) /\
    key_of f d (gateway_config_type_set type c) = Some k.

Definition del_of (f : family) (type : gateway_config_type) (cb : gateway_data -> gateway_config -> M Z) : Prop :=
  forall d c, exists op k, cb d c = route op /\ op_key op = Some (false, k) /\
    key_of f d (gateway_config_type_set type c) = Some k.

Lemma add_high f : add_of f HIGH_PRIORITY_DEFAULT (set_high_priority_cb f).
Proof.
  intros d c. unfold set_high_priority_cb, key_of, high_key. cbn [g_type gateway_config_type_set].
  change (is_gateway_config_vpn (gateway_config_type_set HIGH_PRIORITY_DEFAULT c)) with (is_gateway_config_vpn c).
  change (gateway (gateway_config_type_set HIGH_PRIORITY_DEFAULT c)) with (gateway c).
  destruct (is_gateway_config_vpn c); [by eexists _, _|]. destruct (is_addr_any_str (gateway c)); by eexists _, _.
Qed.

Lemma del_high f : del_of f HIGH_PRIORITY_DEFAULT (unset_high_priority_cb f).
Proof.
  intros d c. unfold unset_high_priority_cb, key_of, high_key. cbn [g_type gateway_config_type_set].
  change (is_gateway_config_vpn (gateway_config_type_set HIGH_PRIORITY_DEFAULT c)) with (is_gateway_config_vpn c).
  change (gateway (gateway_config_type_set HIGH_PRIORITY_DEFAULT c)) with (gateway c).
  destruct (is_gateway_config_vpn c); [by eexists _, _|]. destruct (is_addr_any_str (gateway c)); by eexists _, _.
Qed.

Lemma add_low : add_of V4 LOW_PRIORITY_DEFAULT set_low_priority_cb.
Proof. intros d c. by eexists _, _. Qed.
Lemma del_low : del_of V4 LOW_PRIORITY_DEFAULT unset_low_priority_cb.
Proof. intros d c. by eexists _, _. Qed.

Definition allowed (f : family) (type : gateway_config_type) : Prop :=
  type <> CONFIG_NONE /\ (f = V6 -> type <> LOW_PRIORITY_DEFAULT).

Lemma set_common_runs S s f type cb :
  has S s f -> allowed f type -> add_of f type cb ->
  runs (set_default_gateway_route_common s f type cb) (inv S) (fun _ => inv S).
Proof.
  intros Hh [Hn Hl] Hcb. unfold set_default_gateway_route_common.
  apply runs_load_config; [intros st tr H; by apply (inv_has S st tr)|]. intros d c.
  destruct (_ && _); [apply runs_ret; tauto|]. destruct (is_gateway_config_state STATE_ADDED c); [apply runs_ret; tauto|].
  destruct (is_gateway_config_state STATE_ACTIVE c); [apply runs_ret; tauto|].
  destruct (Hcb d c) as (op & k & -> & Hop & Hk).
  eapply runs_bind with (R := fun r st tr => inv S st tr /\ gateway_hash st !! s = Some d /\ config_of f d = Some c /\
    (0 <= r -> requested k tr = true)).
  - apply runs_route. intros st tr r l (Hi & Hd & Hc). split; [|split; [done|split; [done|]]].
    + eapply inv_more; [| |exact Hi]; [done|]. intros k'. by apply (requested_added k' tr op k).
    + intros Hr. by apply requested_accepted.
  - intros r. destruct (Z.ltb_spec r 0); [apply runs_ret; tauto|].
    eapply runs_bind with (R := fun _ => inv S); [|intros; apply runs_ret; tauto].
    apply runs_modify. intros st tr (Hi & Hd & Hc & Hr).
    eapply inv_put; [exact Hi|exact Hd|exact Hc|reflexivity| |done].
    split; cbn; [done|done|]. intros _. exists k. split; [done|by apply Hr].
Qed.

Lemma unset_common_runs S s f type cb :
  has S s f -> del_of f type cb ->
  runs (unset_default_gateway_route_common s f type cb) (inv S) (fun _ => inv S).
Proof.
  intros Hh Hcb. unfold unset_default_gateway_route_common.
  apply runs_load_config; [intros st tr H; by apply (inv_has S st tr)|]. intros d c.
  destruct (negb _ && negb _) eqn:Et; [apply runs_ret; tauto|].
  destruct (is_gateway_config_state STATE_REMOVED c) eqn:Er; [apply runs_ret; tauto|].
  destruct (is_gateway_config_state STATE_INACTIVE c) eqn:Ei; [apply runs_ret; tauto|].
  destruct (Hcb d c) as (op & k & -> & Hop & Hk).
  assert (Ht : g_type c = type) by (cbn in Et; apply negb_false_iff, bool_decide_eq_true_1 in Et; done).
  assert (Hset : gateway_config_type_set type c = c) by (destruct c; cbn in *; by subst). rewrite Hset in Hk.
  apply bool_decide_eq_false_1 in Er, Ei.
  eapply runs_bind with (R := fun r st tr => exists st0 tr0, inv S st0 tr0 /\ gateway_hash st0 !! s = Some d /\
    config_of f d = Some c /\ gateway_hash st = gateway_hash st0 /\ tr = tr0 ++ [Route op r]).
  { apply runs_route. intros st tr r l (Hi & Hd & Hc). by exists st, tr. }
  intros r. destruct (Z.ltb_spec (if r =? - ESRCH then 0 else r) 0) as [Hneg|Hpos].
  - apply runs_ret. intros st tr (st0 & tr0 & Hi & Hd & Hc & Eh & ->).
    destruct (Z.eqb_spec r (- ESRCH)); [lia|].
    eapply inv_more; [exact Eh| |exact Hi]. intros k'. by rewrite (requested_refused k' tr0 op false k).
  - eapply runs_bind with (R := fun _ => inv S); [|intros; apply runs_ret; tauto].
    apply runs_modify. intros st tr (st0 & tr0 & Hi & Hd & Hc & Eh & ->).
    pose proof (inv_data _ _ _ Hi s d Hd f c Hc) as Hok.
    destruct (key_family f d c k (ok_low _ _ _ _ Hok) Hk) as [Hkf Hki].
    eapply inv_put; [exact Hi|exact Hd|exact Hc|cbn; by rewrite Eh| |].
    + destruct Hok as [H1 H2 _]. split; cbn; [|done|by intros [?|?]]. split; [done|]. intros E. by apply H1 in E.
    + intros k' Hk'. rewrite (requested_other k' tr0 op false k); [done..|]. intros ->. tauto.
Qed.

(** ** Handlers that keep the invariant *)

Definition keeps {A} (S : shape) (m : M A) : Prop := runs m (inv S) (fun _ => inv S).

Lemma gw_keeps_bind {A B} S (m : M A) (k : A -> M B) : keeps S m -> (forall a, keeps S (k a)) -> keeps S (m ≫= k).
Proof. intros. by eapply runs_bind. Qed.

Lemma gw_keeps_ret {A} S (a : A) : keeps S (mret a).
Proof. by apply runs_ret. Qed.

Lemma gw_keeps_skip S : keeps S pskip.
Proof. by apply runs_ret. Qed.

Lemma gw_keeps_get {A B} S (g : state -> A) (k : A -> M B) : (forall a, keeps S (k a)) -> keeps S (pget g ≫= k).
Proof. intros H. apply runs_get. intros a. eapply runs_conseq; [apply (H a)|by intros ? ? [? ?]|done]. Qed.

Lemma gw_keeps_emit S o : silent o -> keeps S (pemit o).
Proof.
  intros Ho st tr H. exists tt, st, [o]. split; [done|].
  eapply inv_more; [| |exact H]; [done|]. intros k. by rewrite requested_silent.
Qed.

Lemma gw_keeps_route S op : op_key op = None -> keeps S (route op).
Proof.
  intros Ho. apply runs_route. intros st tr r l H.
  eapply inv_more; [| |exact H]; [done|]. intros k. by rewrite requested_silent.
Qed.

Lemma gw_keeps_load {B} S s (k : gateway_data -> M B) :
  is_Some (S !! s) -> (forall d, S !! s = Some (shape_of d) -> keeps S (k d)) -> keeps S (load s ≫= k).
Proof.
  intros Hs H. apply runs_load; [intros st tr Hi; by apply (inv_there S st tr)|]. intros d st tr [Hi Hd].
  apply (H d); [|done]. by rewrite <- (inv_shape _ _ _ Hi), lookup_fmap, Hd.
Qed.

Lemma gw_keeps_load_config {B} S s f (k : gateway_data * gateway_config -> M B) :
  has S s f -> (forall d c, keeps S (k (d, c))) -> keeps S (load_config s f ≫= k).
Proof.
  intros Hs H. apply runs_load_config; [intros st tr Hi; by apply (inv_has S st tr)|].
  intros d c st tr [Hi _]. by apply H.
Qed.

Lemma has_shape (S : shape) s f d c : S !! s = Some (shape_of d) -> config_of f d = Some c -> has S s f.
Proof. intros E Ec. exists (shape_of d). split; [done|]. destruct f; cbn in *; rewrite Ec; by apply bool_decide_eq_true_2. Qed.

Lemma has_there (S : shape) s f : has S s f -> is_Some (S !! s).
Proof. intros (p & -> & _). by exists p. Qed.

Create HintDb keeping.
#[local] Hint Resolve gw_keeps_ret gw_keeps_skip has_there : keeping.

(** Take a handler apart. *)
Ltac keeping :=
  repeat match goal with
  | |- keeps _ (load_config _ _ ≫= _) => apply gw_keeps_load_config; [eauto with keeping|intros ? ?]
  | |- keeps _ (load _ ≫= _) => apply gw_keeps_load; [eauto with keeping|intros ? ?]
  | |- keeps _ (pget _ ≫= _) => apply gw_keeps_get; intros ?
  | |- keeps _ (_ ≫= _) => apply gw_keeps_bind; [|intros ?]
  | |- keeps _ (mret _) => apply gw_keeps_ret
  | |- keeps _ pskip => apply gw_keeps_skip
  | |- keeps _ (pemit _) => apply gw_keeps_emit; done
  | |- keeps _ (route _) => apply gw_keeps_route; done
  | |- keeps _ (match config_of ?f ?d with _ => _ end) => destruct (config_of f d) eqn:?
  | |- keeps _ (if ?b then _ else _) => destruct b eqn:?
  | |- keeps _ (let '(_, _) := ?x in _) => destruct x
  end; eauto with keeping.

Lemma gw_keeps_set_high S s f : has S s f -> keeps S (set_high_priority_default_gateway f s).
Proof. intros H. apply set_common_runs; [done|by split|apply add_high]. Qed.
Lemma gw_keeps_unset_high S s f : has S s f -> keeps S (unset_high_priority_default_gateway f s).
Proof. intros H. apply unset_common_runs; [done|apply del_high]. Qed.
Lemma gw_keeps_set_low S s : has S s V4 -> keeps S (set_ipv4_low_priority_default_gateway s).
Proof. intros H. apply set_common_runs; [done|by split|apply add_low]. Qed.
Lemma gw_keeps_unset_low S s : has S s V4 -> keeps S (unset_ipv4_low_priority_default_gateway s).
Proof. intros H. apply unset_common_runs; [done|apply del_low]. Qed.

Lemma gw_keeps_mutate_one S want f op s :
  is_Some (S !! s) -> (forall o, op = Some o -> has S s f -> keeps S (o s)) -> keeps S (mutate_one want f op s).
Proof.
  intros Hs Ho. unfold mutate_one. keeping. destruct op as [o|]; [|keeping].
  destruct (want && _) eqn:E; [|keeping]. apply andb_prop in E as [_ [c Hc]%bool_decide_eq_true_1].
  apply Ho; [done|]. by eapply has_shape.
Qed.

Lemma gw_keeps_mutate S s type o4 o6 :
  is_Some (S !! s) -> (forall o, o4 = Some o -> has S s V4 -> keeps S (o s)) ->
  (forall o, o6 = Some o -> has S s V6 -> keeps S (o s)) -> keeps S (mutate_default_gateway s type o4 o6).
Proof.
  intros Hs H4 H6. unfold mutate_default_gateway. destruct (families type) as [[do4 do6]|]; keeping;
    by apply gw_keeps_mutate_one.
Qed.

Lemma gw_keeps_set_default S s type : is_Some (S !! s) -> keeps S (set_default_gateway s type).
Proof.
  intros Hs. unfold set_default_gateway. keeping. apply gw_keeps_mutate; [done| |];
    intros o [= <-] Hh; by apply gw_keeps_set_high.
Qed.
Lemma gw_keeps_unset_default S s type : is_Some (S !! s) -> keeps S (unset_default_gateway s type).
Proof. intros Hs. apply gw_keeps_mutate; [done| |]; intros o [= <-] Hh; by apply gw_keeps_unset_high. Qed.
Lemma gw_keeps_set_low_default S s type : is_Some (S !! s) -> keeps S (set_low_priority_default_gateway s type).
Proof. intros Hs. apply gw_keeps_mutate; [done| |done]; intros o [= <-] Hh; by apply gw_keeps_set_low. Qed.
Lemma gw_keeps_unset_low_default S s type : is_Some (S !! s) -> keeps S (unset_low_priority_default_gateway s type).
Proof. intros Hs. apply gw_keeps_mutate; [done| |done]; intros o [= <-] Hh; by apply gw_keeps_unset_low. Qed.
#[local] Hint Resolve gw_keeps_set_default gw_keeps_unset_default gw_keeps_set_low_default gw_keeps_unset_low_default : keeping.

Lemma gw_keeps_demote S s type : is_Some (S !! s) -> keeps S (demote_default_gateway s type).
Proof. intros Hs. unfold demote_default_gateway. keeping. Qed.
Lemma gw_keeps_promote S s type : is_Some (S !! s) -> keeps S (promote_default_gateway s type).
Proof. intros Hs. unfold promote_default_gateway. keeping. Qed.
#[local] Hint Resolve gw_keeps_demote gw_keeps_promote : keeping.

Lemma gw_keeps_del_family S s type f want : is_Some (S !! s) -> keeps S (del_family_routes s type f want).
Proof. intros Hs. unfold del_family_routes. keeping. Qed.
#[local] Hint Resolve gw_keeps_del_family : keeping.

Lemma gw_keeps_del S s type : is_Some (S !! s) -> keeps S (del_gateway_routes s type).
Proof. intros Hs. unfold del_gateway_routes. destruct (families type) as [[do4 do6]|]; keeping. Qed.
#[local] Hint Resolve gw_keeps_del : keeping.

Lemma gw_keeps_del_active S s type : is_Some (S !! s) -> keeps S (del_gateway_routes_if_active s type).
Proof. intros Hs. unfold del_gateway_routes_if_active. keeping. Qed.
#[local] Hint Resolve gw_keeps_del_active : keeping.

Lemma gw_keeps_yield_type S e a x f : is_Some (S !! a) -> is_Some (S !! x) -> keeps S (yield_default_gateway_for_type e a x f).
Proof.
  intros Ha Hx. unfold yield_default_gateway_for_type. keeping. by eapply has_shape.
Qed.
#[local] Hint Resolve gw_keeps_yield_type : keeping.

Lemma gw_keeps_yield_loop S e a l : is_Some (S !! a) -> Forall (fun x => is_Some (S !! x)) l -> keeps S (yield_loop e a l).
Proof.
  intros Ha Hl. induction Hl as [|x l Hx Hl IH]; cbn [yield_loop]; [keeping|].
  unfold yield_default_gateway. keeping.
Qed.

Lemma gw_keeps_promote_family S s f : is_Some (S !! s) -> keeps S (promote_family s f).
Proof. intros Hs. unfold promote_family. keeping. Qed.
Lemma gw_keeps_promote_needed S s f u : is_Some (S !! s) -> keeps S (promote_if_needed s f u).
Proof. intros Hs. unfold promote_if_needed. keeping. Qed.
Lemma gw_keeps_demote_active S s f u : is_Some (S !! s) -> keeps S (demote_if_active s f u).
Proof. intros Hs. unfold demote_if_active. keeping. Qed.
#[local] Hint Resolve gw_keeps_promote_family gw_keeps_promote_needed gw_keeps_demote_active : keeping.

Lemma gw_keeps_update_loop S def l u4 u6 : Forall (fun x => is_Some (S !! x)) l -> keeps S (update_loop def l u4 u6).
Proof.
  intros Hl. revert u4 u6. induction Hl as [|x l Hx Hl IH]; intros u4 u6; cbn [update_loop]; keeping.
Qed.

Lemma gw_keeps_cleanup S l : Forall (fun x => is_Some (S !! x)) l -> keeps S (cleanup_loop l).
Proof. intros Hl. induction Hl as [|x l Hx Hl IH]; cbn [cleanup_loop]; keeping. Qed.

(** ** The handlers *)

Section handlers.
Context {gl : GLib}.

Lemma visited (h : gmap Z gateway_data) s d : (s, d) ∈ g_hash_table_foreach h <-> h !! s = Some d.
Proof. by rewrite g_hash_table_foreach_perm, elem_of_map_to_list. Qed.

Lemma runs_services {B} S (k : list Z -> M B) Q :
  (forall l, Forall (fun s => is_Some (S !! s)) l -> runs (k l) (inv S) Q) -> runs (services ≫= k) (inv S) Q.
Proof.
  intros H. apply runs_get. intros l st tr [Hi <-]. apply H; [|done].
  apply list.Forall_forall. intros s Hs. apply list_elem_of_fmap in Hs as ([s' d] & -> & Hs).
  apply visited in Hs. apply (inv_there S st tr); [done|]. by exists d.
Qed.

Lemma first_data_Some p (h : gmap Z gateway_data) s d : first_data p h = Some (s, d) -> h !! s = Some d /\ p (s, d) = true.
Proof.
  unfold first_data. intros E. destruct (filter _ _) as [|x l] eqn:Ef; [done|]. cbn in E. simplify_eq.
  assert (Hin : (s, d) ∈ filter (fun x => p x = true) (g_hash_table_foreach h)) by (rewrite Ef; mem).
  apply list_elem_of_filter in Hin as [Hp Hin]. by rewrite visited in Hin.
Qed.

Lemma config_matches_Some i gw f d : config_matches i gw f d = true ->
  exists c, config_of f d = Some c /\ index d = i /\ gateway c = gw.
Proof.
  unfold config_matches. destruct (config_of f d) as [c|]; [|done]. intros [Hi Hg]%andb_prop.
  exists c. split; [done|]. split; [lia|]. by apply bool_decide_eq_true_1 in Hg.
Qed.

Lemma runs_find_config {B} S i gw (k : option (Z * family) -> M B) Q :
  runs (k None) (inv S) Q -> (forall s f, has S s f -> runs (k (Some (s, f))) (inv S) Q) ->
  runs (find_gateway_config i gw ≫= k) (inv S) Q.
Proof.
  intros Hn Hs. apply runs_get. intros a st tr [Hi Ha].
  destruct (first_data _ (gateway_hash st)) as [[s d]|] eqn:E; cbn in Ha; subst a; [|by apply Hn].
  apply first_data_Some in E as [Hd Hm]. cbn in Hm. apply Hs; [|done].
  destruct (config_matches i gw V4 d) eqn:E4; cbn in Hm.
  - apply config_matches_Some in E4 as (c & Hc & _). by eapply has_of.
  - apply config_matches_Some in Hm as (c & Hc & _). by eapply has_of.
Qed.

Lemma runs_find_default {B} S e (k : option Z -> M B) Q :
  runs (k None) (inv S) Q -> (forall s, is_Some (S !! s) -> runs (k (Some s)) (inv S) Q) ->
  runs (find_default_gateway_data e ≫= k) (inv S) Q.
Proof.
  intros Hn Hs. apply runs_get. intros a st tr [Hi Ha]. destruct (default_service e) as [s|]; cbn in Ha; [|subst a; by apply Hn].
  case_bool_decide as Hd; subst a; [|by apply Hn]. apply Hs; [|done]. by apply (inv_there S st tr).
Qed.

Lemma gw_keeps_update_config S s f g :
  (forall st tr d c, inv S st tr -> gateway_hash st !! s = Some d -> config_of f d = Some c -> config_ok f d (g c) tr) ->
  has S s f -> keeps S (update_config s f g).
Proof.
  intros Hg Hh. apply runs_modify. intros st tr Hi. destruct (inv_has _ _ _ _ _ Hi Hh) as (d & c & Hd & Hc).
  eapply inv_put; [exact Hi|exact Hd|exact Hc|reflexivity|by apply (Hg st)|done].
Qed.

Lemma gw_keeps_checked S s : keeps S (update s (fun d => mk_data (index d) (ipv4_config d) (ipv6_config d) true)).
Proof.
  apply runs_modify. intros st tr [H1 H2 H3]. split; cbn [gateway_hash set_hash].
  - intros s' d [(<- & d' & E & ->)|[_ E]]%lookup_alter_Some; [|by apply (H1 s')].
    intros f c Hc. destruct (H1 _ _ E f c) as [Ha Hb Hr]; [by destruct f|]. by split.
  - intros s1 s2 d1 d2 [(<- & d1' & E1 & ->)|[_ E1]]%lookup_alter_Some [(<- & d2' & E2 & ->)|[_ E2]]%lookup_alter_Some Hi;
      cbn in Hi; eauto.
  - rewrite <- H3. apply map_eq. intros s'. rewrite !lookup_fmap. destruct (decide (s = s')) as [<-|Hn].
    + rewrite lookup_alter_eq. by destruct (gateway_hash st !! s).
    + by rewrite lookup_alter_ne.
Qed.

Lemma gw_keeps_check S e s : is_Some (S !! s) -> keeps S (check_default_gateway e s).
Proof.
  intros Hs. unfold check_default_gateway. apply gw_keeps_load; [done|]. intros d _.
  destruct (default_checked d); [apply gw_keeps_skip|]. apply runs_services. intros l Hl.
  apply gw_keeps_bind; [by apply gw_keeps_yield_loop|]. intros y. keeping; apply gw_keeps_checked.
Qed.

Lemma gw_keeps_rtnl_new S e i gw : keeps S (gateway_rtnl_new e i gw).
Proof.
  apply runs_find_config; [apply gw_keeps_skip|]. intros s f Hh.
  apply runs_load_config; [intros st tr Hi; by apply (inv_has S st tr)|]. intros d c.
  destruct (is_gateway_config_state STATE_REMOVED c) eqn:Er; [apply runs_ret; tauto|].
  destruct (is_gateway_config_state STATE_INACTIVE c) eqn:Ei; [apply runs_ret; tauto|].
  apply bool_decide_eq_false_1 in Er, Ei.
  eapply runs_bind with (R := fun _ => inv S); [|intros _; apply gw_keeps_check; by eapply has_there].
  apply runs_modify. intros st tr (Hi & Hd & Hc).
  eapply inv_put; [exact Hi|exact Hd|exact Hc|reflexivity| |done].
  pose proof (inv_data _ _ _ Hi s d Hd f c Hc) as [H1 H2 H3]. split; cbn; [|done|].
  - split; [done|]. intros E. by apply H1 in E.
  - intros _. apply H3. unfold pending. destruct (g_state c); tauto.
Qed.

Lemma gw_keeps_promote_default S e : keeps S (promote_default e).
Proof. apply runs_find_default; [by apply gw_keeps_skip|]. intros s Hs. change (keeps S (promote_default_gateway s TYPE_ALL;; pskip)). keeping. Qed.

Lemma gw_keeps_rtnl_del S e i gw : keeps S (gateway_rtnl_del e i gw).
Proof.
  apply runs_find_config; [apply gw_keeps_promote_default|]. intros s f Hh.
  change (keeps S ('(_, c) ← load_config s f; if is_gateway_config_state STATE_REMOVED c
    then update_config s f gateway_config_set_inactive;; promote_default e else pskip)).
  keeping; [|apply gw_keeps_promote_default]. apply gw_keeps_update_config; [|done].
  intros st tr d0 c0 Hi Hd Hc. split; [done..|]. by intros [?|?].
Qed.

Lemma gw_keeps_update S e : keeps S (connman_gateway_update e).
Proof.
  assert (Hk : forall def, (forall s, def = Some s -> is_Some (S !! s)) -> keeps S (
    l ← services; '(updated4, updated6) ← update_loop def l false false;
    match def with
    | Some def => promote_if_needed def V4 updated4;; promote_if_needed def V6 updated6
    | None => pskip
    end;; mret (updated4 || updated6))).
  { intros def Hdef. apply runs_services. intros l Hl.
    change (keeps S ('(updated4, updated6) ← update_loop def l false false;
      match def with
      | Some def => promote_if_needed def V4 updated4;; promote_if_needed def V6 updated6
      | None => pskip
      end;; mret (updated4 || updated6))).
    keeping; [by apply gw_keeps_update_loop|]. destruct def as [s|]; [|keeping].
    assert (is_Some (S !! s)) by by apply Hdef. keeping. }
  apply runs_find_default; [by apply (Hk None)|]. intros s Hs. apply (Hk (Some s)). by intros ? [= <-].
Qed.

(** The invariant for some shape, of the services whose data is kept. *)
Definition good (st : state) (tr : list output) : Prop := exists S, inv S st tr.

Lemma inv_delete S st tr s : inv S st tr -> inv (delete s S) (set_hash (delete s (gateway_hash st)) st) tr.
Proof.
  intros [H1 H2 H3]. split; cbn.
  - intros s' d [_ E]%lookup_delete_Some. by apply (H1 s').
  - intros s1 s2 d1 d2 [_ E1]%lookup_delete_Some [_ E2]%lookup_delete_Some. by apply H2.
  - by rewrite fmap_delete, H3.
Qed.

Lemma has_vpn S s f (b : bool) : is_Some (S !! s) -> runs (if b then vpn_of s f else mret false) (inv S) (fun v st tr => inv S st tr /\ (v = true -> has S s f)).
Proof.
  intros Hs. destruct b; [|by apply runs_ret]. apply runs_load; [intros st tr Hi; by apply (inv_there S st tr)|].
  intros d. apply runs_ret. intros st tr [Hi Hd]. split; [done|].
  destruct (config_of f d) as [c|] eqn:Ec; [|done]. intros _. by eapply has_of.
Qed.

Lemma gw_keeps_vpn_host_route S s f v : (v = true -> has S s f) -> keeps S (del_vpn_host_route s f v).
Proof. intros H. unfold del_vpn_host_route. destruct v; [|keeping]. specialize (H eq_refl). keeping. Qed.

Lemma gw_keeps_nameserver S s f w type : is_Some (S !! s) -> keeps S (nameserver_del_routes s f w type).
Proof. intros Hs. unfold nameserver_del_routes. keeping. Qed.

Lemma runs_good {A} S (m : M A) : keeps S m -> runs m (inv S) (fun _ => good).
Proof. intros H. eapply runs_conseq; [exact H|done|]. intros a st tr Hi. by exists S. Qed.

Lemma remove_runs e s type : runs (connman_gateway_remove e s type) good (fun _ => good).
Proof.
  intros st tr [S Hinv]. revert st tr Hinv. change (runs (connman_gateway_remove e s type) (inv S) (fun _ => good)).
  unfold connman_gateway_remove. destruct (families type) as [[do4 do6]|]; [|apply runs_good, gw_keeps_skip].
  apply runs_get. intros h st tr [Hi <-]. revert st tr Hi.
  intros st tr Hi. destruct (gateway_hash st !! s) as [d0|] eqn:E; [|by apply (runs_good S _ (gw_keeps_skip S))].
  assert (Hs : is_Some (S !! s)) by (apply (inv_there S st tr); [done|by exists d0]). clear E d0.
  revert st tr Hi. eapply runs_bind with (R := fun _ => inv S); [by apply gw_keeps_nameserver|intros _].
  eapply runs_bind with (R := fun _ => inv S); [by apply gw_keeps_nameserver|intros _].
  eapply runs_bind; [by apply (has_vpn S s V4)|]. intros v4. apply runs_pure. intros H4.
  eapply runs_bind; [by apply (has_vpn S s V6)|]. intros v6. apply runs_pure. intros H6.
  eapply runs_bind with (R := fun _ => inv S); [by apply gw_keeps_vpn_host_route|intros _].
  eapply runs_bind with (R := fun _ => inv S); [by apply gw_keeps_vpn_host_route|intros _].
  eapply runs_bind with (R := fun _ => inv S); [by apply gw_keeps_del_active|intros err].
  apply runs_load; [intros st tr Hi; by apply (inv_there S st tr)|intros d].
  eapply runs_bind with (R := fun _ => good).
  - destruct (_ || _).
    + apply runs_modify. intros st tr [Hi _]. exists (delete s S). by apply inv_delete.
    + apply runs_ret. intros st tr [Hi _]. by exists S.
  - intros _ st tr [S' Hi]. revert st tr Hi. destruct (_ || _ || _); [|apply runs_good, gw_keeps_skip].
    change (runs (data ← find_default_gateway_data e;
      match data with Some def => promote_default_gateway def type;; pskip | None => pskip end) (inv S') (fun _ => good)).
    apply runs_good, runs_find_default; [apply gw_keeps_skip|]. intros s' Hs'.
    change (keeps S' (promote_default_gateway s' type;; pskip)). keeping.
Qed.

(** ** Adding *)

Definition other (f : family) : family := match f with V4 => V6 | V6 => V4 end.

(** The interface of a service is its own, and stays the same while it has a gateway. *)
Definition interface_free (s i : Z) (h : gmap Z gateway_data) : Prop :=
  forall s' d, h !! s' = Some d -> index d = i <-> s' = s.

Lemma interface_free_shape S st st' tr tr' s i :
  inv S st tr -> inv S st' tr' -> interface_free s i (gateway_hash st) -> interface_free s i (gateway_hash st').
Proof.
  intros H H' Hf s' d' E'. assert (E : S !! s' = Some (shape_of d')).
  { by rewrite <- (inv_shape _ _ _ H'), lookup_fmap, E'. }
  rewrite <- (inv_shape _ _ _ H), lookup_fmap in E. destruct (gateway_hash st !! s') as [d|] eqn:Ed; [|done].
  cbn in E. assert (index d' = index d) as -> by (unfold shape_of in E; by simplify_eq). by apply (Hf s').
Qed.

(** A new gateway: the service has it, and no route was asked for. *)
Definition fresh (s : Z) (f : family) (st : state) : Prop :=
  exists d c, gateway_hash st !! s = Some d /\ config_of f d = Some c /\ g_state c = STATE_INACTIVE /\ g_type c = CONFIG_NONE.

Lemma inv_insert S st tr s i f gw oc :
  inv S st tr -> interface_free s i (gateway_hash st) ->
  (forall c, oc = Some c -> exists d, gateway_hash st !! s = Some d /\ config_of (other f) d = Some c) ->
  let data := with_config (other f) oc (with_config f (Some (new_config gw)) (mk_data i None None false)) in
  inv (<[s := shape_of data]> S) (set_hash (<[s := data]> (gateway_hash st)) st) tr.
Proof.
  intros [H1 H2 H3] Hfree Hoc data. assert (Hix : index data = i) by (unfold data; by rewrite !index_with).
  split; cbn [gateway_hash set_hash].
  - intros s' d [[<- <-]|[_ E]]%lookup_insert_Some; [|by apply (H1 s')]. intros f' c Hc.
    destruct (decide (f' = f)) as [->|Hf].
    + assert (c = new_config gw) as -> by (unfold data in Hc; destruct f; cbn in Hc; by simplify_eq).
      split; [done..|]. by intros [?|?].
    + assert (f' = other f) as -> by (by destruct f', f). unfold data in Hc. rewrite config_with_same in Hc.
      destruct (Hoc c Hc) as (d & Hd & Hcd). destruct (H1 s d Hd _ _ Hcd) as [Ha Hb Hr]. split; [done..|].
      intros Hp. destruct (Hr Hp) as (k & Hk & Hreq). exists k. split; [|done]. rewrite <- Hk.
      unfold key_of, low_key, compute_low_priority_metric. by rewrite Hix, (proj2 (Hfree s d Hd) eq_refl).
  - intros s1 s2 d1 d2 [[<- <-]|[N1 E1]]%lookup_insert_Some [[<- <-]|[N2 E2]]%lookup_insert_Some Hi; [done|..|eauto].
    + rewrite Hix in Hi. symmetry. by apply (Hfree s2 d2 E2).
    + rewrite Hix in Hi. by apply (Hfree s1 d1 E1).
  - by rewrite fmap_insert, H3.
Qed.

Definition family_type (type : ipconfig_type) : option family :=
  match type with TYPE_IPV4 => Some V4 | TYPE_IPV6 => Some V6 | _ => None end.

(** The data was put in place of what was there, or nothing has happened. *)
Definition added (S : shape) (s : Z) (f : family) (err : Z) (st : state) (tr : list output) : Prop :=
  (err < 0 /\ inv S st tr) \/
  (err = 0 /\ exists p, inv (<[s := p]> S) st tr /\ has (<[s := p]> S) s f /\ fresh s f st).

Lemma add_put_runs S s i f gw oc :
  runs (pmodify (fun st => set_hash (<[s := with_config (other f) oc
      (with_config f (Some (new_config gw)) (mk_data i None None false))]> (gateway_hash st)) st);; mret 0)
    (fun st tr => inv S st tr /\ interface_free s i (gateway_hash st) /\
      (forall c, oc = Some c -> exists d, gateway_hash st !! s = Some d /\ config_of (other f) d = Some c))
    (added S s f).
Proof.
  eapply runs_bind with (R := fun _ => added S s f 0); [|intros _; by apply runs_ret].
  apply runs_modify. intros st tr (Hi & Hf & Hoc). right. split; [done|].
  set (d := with_config (other f) oc (with_config f (Some (new_config gw)) (mk_data i None None false))).
  assert (Hc : config_of f d = Some (new_config gw)) by (by destruct f).
  exists (shape_of d). split; [by apply inv_insert|]. split.
  - eapply has_shape; [apply lookup_insert_eq|exact Hc].
  - exists d, (new_config gw). cbn [gateway_hash set_hash]. by rewrite lookup_insert_eq.
Qed.

Lemma add_gateway_runs S e s i gw type f :
  family_type type = Some f ->
  runs (add_gateway e s i gw type) (fun st tr => inv S st tr /\ interface_free s i (gateway_hash st)) (added S s f).
Proof.
  intros Ht. unfold add_gateway.
  assert (Hret : forall r, r < 0 -> runs (mret r) (fun st tr => inv S st tr /\ interface_free s i (gateway_hash st)) (added S s f)).
  { intros r Hr. apply runs_ret. intros st tr [Hi _]. by left. }
  destruct (_ || _); [apply Hret; done|].
  assert (Hgo : runs (if negb (alloc_ok e) then mret (- ENOMEM)
    else old ← pget (fun st => gateway_hash st !! s);
      data ← (match old with
              | Some _ =>
                  del_gateway_routes_if_active s type;;
                  old ← load s;
                  mret (with_config (other f) (config_of (other f) old) (with_config f (Some (new_config gw)) (mk_data i None None false)))
              | None => mret (with_config f (Some (new_config gw)) (mk_data i None None false))
              end);
      pmodify (fun st => set_hash (<[s := data]> (gateway_hash st)) st);; mret 0)
    (fun st tr => inv S st tr /\ interface_free s i (gateway_hash st)) (added S s f)).
  { destruct (negb (alloc_ok e)); [apply Hret; done|]. apply runs_get. intros [d0|] st tr [[Hi Hf] Hold].
    - destruct (gw_keeps_del_active S s type) with (st := st) (tr := tr) as (a & st1 & o1 & E1 & Hi1); [|done|].
      { apply (inv_there S st tr); [done|by exists d0]. }
      destruct (proj1 (inv_there S st1 _ s Hi1)) as [d1 Hd1]; [apply (inv_there S st tr); [done|by exists d0]|].
      destruct (add_put_runs S s i f gw (config_of (other f) d1) st1 (tr ++ o1)) as (b & st2 & o2 & E2 & H2).
      { split; [done|]. split; [by apply (interface_free_shape S st st1 tr (tr ++ o1))|]. intros c Hc. by exists d1. }
      exists b, st2, (o1 ++ o2). rewrite app_assoc. split; [|done].
      eapply bind_run; [|exact E2]. rewrite <- (app_nil_r o1). eapply bind_run; [exact E1|].
      apply (bind_next (load s) _ st1 d1 st1); [unfold load; by rewrite Hd1|]. done.
    - destruct (add_put_runs S s i f gw None st tr) as (b & st2 & o2 & E2 & H2); [done|].
      exists b, st2, o2. split; [|done].
      eapply bind_next; [reflexivity|].
      assert (Hw : with_config (other f) None (with_config f (Some (new_config gw)) (mk_data i None None false)) =
                   with_config f (Some (new_config gw)) (mk_data i None None false)) by (by destruct f).
      rewrite Hw in E2. exact E2. }
  destruct type; cbn in Ht; simplify_eq; exact Hgo.
Qed.

(** A handler that returns or crashes for a reason. *)
Definition may {A} (X : Prop) (m : M A) (P : state -> list output -> Prop) (Q : A -> state -> list output -> Prop) : Prop :=
  forall st tr, P st tr -> (m st = None /\ X) \/ exists a st' o, m st = Some (a, st', o) /\ Q a st' (tr ++ o).

Lemma runs_may {A} X (m : M A) P Q : runs m P Q -> may X m P Q.
Proof. intros H st tr HP. right. by apply H. Qed.

Lemma may_bind {A B} X (m : M A) (k : A -> M B) P R Q :
  may X m P R -> (forall a, may X (k a) (R a) Q) -> may X (m ≫= k) P Q.
Proof.
  intros Hm Hk st tr HP. unfold mbind, pprog_bind. destruct (Hm st tr HP) as [[-> HX]|(a & st1 & o1 & -> & HR)]; [by left|].
  destruct (Hk a st1 _ HR) as [[-> HX]|(b & st2 & o2 & -> & HQ)]; [by left|]. right.
  exists b, st2, (o1 ++ o2). by rewrite app_assoc.
Qed.

Lemma may_get {A B} X (g : state -> A) (k : A -> M B) P Q :
  (forall a, may X (k a) (fun st tr => P st tr /\ g st = a) Q) -> may X (pget g ≫= k) P Q.
Proof. intros H. eapply may_bind; [|exact H]. apply runs_may. intros st tr HP. eexists _, _, []. split; [done|]. by rewrite app_nil_r. Qed.

Lemma may_pure {A} X (m : M A) (Y : Prop) P Q : (Y -> may X m P Q) -> may X m (fun st tr => P st tr /\ Y) Q.
Proof. intros H st tr [HP HY]. by apply H. Qed.

(** The table is left alone. *)
Definition calm {A} (m : M A) : Prop := forall st a st' o, m st = Some (a, st', o) -> gateway_hash st' = gateway_hash st.

Lemma calm_bind {A B} (m : M A) (k : A -> M B) : calm m -> (forall a, calm (k a)) -> calm (m ≫= k).
Proof. intros Hm Hk st a st' o (b & st1 & o1 & o2 & E1 & E2 & _)%pbind_inv. rewrite (Hk _ _ _ _ _ E2). by eapply Hm. Qed.
Lemma calm_route op : calm (route op).
Proof. intros st a st' o. unfold route. destruct (answers st); intros; by simplify_eq. Qed.
Lemma calm_load s : calm (load s).
Proof. intros st a st' o. unfold load. destruct (gateway_hash st !! s); intros; by simplify_eq. Qed.
Lemma calm_ret {A} (a : A) : calm (mret a).
Proof. intros st b st' o [= _ <- _]. done. Qed.

Lemma calm_host_route e s f v : calm (add_host_route e s f v).
Proof.
  unfold add_host_route. apply calm_bind; [apply calm_load|]. intros d. destruct (config_of f d) as [c|]; [|apply calm_ret].
  destruct (negb _); [destruct (negb v)|destruct (get_dest_addr _ _ _)];
    repeat (apply calm_bind; [apply calm_route|intros _]); apply calm_ret.
Qed.

Lemma gw_keeps_fresh {A} S s f (m : M A) : calm m -> keeps S m ->
  runs m (fun st tr => inv S st tr /\ fresh s f st) (fun _ st tr => inv S st tr /\ fresh s f st).
Proof.
  intros Hc Hk st tr [Hi (d & c & Hd & Hr)]. destruct (Hk st tr Hi) as (a & st' & o & E & H').
  exists a, st', o. split; [done|]. split; [done|]. exists d, c. by rewrite (Hc _ _ _ _ E).
Qed.

Lemma gw_keeps_host_route S e s f v : is_Some (S !! s) -> keeps S (add_host_route e s f v).
Proof. intros Hs. unfold add_host_route. keeping; destruct (get_dest_addr _ _ _); keeping. Qed.

Lemma gw_keeps_vpn_server S e s gw f a : has S s f -> (forall x, a = Some x -> is_Some (S !! x)) -> keeps S (route_to_vpn_server e s gw f a).
Proof. intros Hs Ha. unfold route_to_vpn_server. destruct a as [a|]; [|keeping]. specialize (Ha a eq_refl). keeping. Qed.

(** Flags and addresses of a new gateway may change. *)
Lemma fresh_update S s f g :
  (forall c, g_state (g c) = g_state c /\ g_type (g c) = g_type c) ->
  runs (update_config s f g) (fun st tr => inv S st tr /\ fresh s f st) (fun _ => inv S).
Proof.
  intros Hg. apply runs_modify. intros st tr [Hi (d & c & Hd & Hc & Hst & Hty)]. destruct (Hg c) as [G1 G2].
  eapply inv_put; [exact Hi|exact Hd|exact Hc|reflexivity| |done].
  split; rewrite ?G1, ?G2, ?Hst, ?Hty; [done..|]. unfold pending. rewrite G1, Hst. by intros [?|?].
Qed.

Lemma set_vpn_runs S e s gw f peer a :
  has S s f -> (forall x, a = Some x -> is_Some (S !! x)) ->
  runs (set_vpn_routes e s gw f peer a) (fun st tr => inv S st tr /\ fresh s f st) (fun _ => inv S).
Proof.
  intros Hs Ha. unfold set_vpn_routes.
  apply runs_load; [intros st tr [Hi _]; apply (inv_there S st tr); [done|by eapply has_there]|]. intros d.
  destruct (bool_decide _).
  - eapply runs_bind with (R := fun _ => inv S).
    + eapply runs_conseq; [by apply (fresh_update S s f)|by intros ? ? [? _]|done].
    + intros _. change (keeps S (if negb (params_alloc_ok e) then pskip
        else pemit (Get_route gw (ipconfig_index e s f));; route_to_vpn_server e s gw f a)).
      keeping. by apply gw_keeps_vpn_server.
  - eapply runs_conseq; [by apply (gw_keeps_vpn_server S e s gw f a)|by intros ? ? [[? _] _]|done].
Qed.

(** A service with a gateway has none of the family. *)
Definition lacks (h : gmap Z gateway_data) (f : family) : Prop :=
  exists s d, h !! s = Some d /\ config_of f d = None.

(** The reason for a crash. *)
Definition full_vpn (e : env) (s : Z) (f : family) (h : gmap Z gateway_data) : Prop :=
  service_is_vpn e s = true /\ service_is_split_routing e s = false /\ lacks h f.

Lemma has_or_lacks S st tr s f p a :
  inv S st tr -> has (<[s := p]> S) s f -> is_Some ((<[s := p]> S) !! a) -> has (<[s := p]> S) a f \/ lacks (gateway_hash st) f.
Proof.
  intros Hi Hs Ha. destruct (decide (s = a)) as [<-|Hn]; [by left|]. rewrite lookup_insert_ne in Ha by done.
  apply (inv_there S st tr) in Ha as [d Hd]; [|done]. destruct (config_of f d) as [c|] eqn:Ec.
  - left. destruct (has_of _ _ _ _ _ _ _ Hi Hd Ec) as (q & Hq & Hb). exists q. by rewrite lookup_insert_ne.
  - right. by exists a, d.
Qed.

Lemma clear_active_may S e s f a (X : Prop) :
  (service_is_split_routing e s = false -> has S a f \/ X) -> is_Some (S !! a) -> may X (clear_active e s f a) (inv S) (fun _ => inv S).
Proof.
  intros HX Ha. unfold clear_active. destruct (service_is_split_routing e s); cbn [negb]; [by apply runs_may, runs_ret|].
  destruct (HX eq_refl) as [Hh|HX'].
  - apply runs_may. change (keeps S ('(ad, ac) ← load_config a f; route (Clear_gateway_address f (index ad) (Some (gateway ac)));; pskip)).
    keeping.
  - intros st tr Hi. destruct (proj1 (inv_there S st tr a Hi) Ha) as [d Hd]. destruct (config_of f d) as [c|] eqn:Ec.
    + right. assert (Hh : has S a f) by by eapply has_of.
      assert (Hk : keeps S ('(ad, ac) ← load_config a f; route (Clear_gateway_address f (index ad) (Some (gateway ac)));; pskip)) by keeping.
      by apply Hk.
    + left. split; [|done]. unfold load_config, mbind, pprog_bind, load. rewrite Hd. unfold plift. by rewrite Ec.
Qed.

Lemma runs_any_active {B} S X (k : option Z -> M B) P Q :
  (forall st tr, P st tr -> inv S st tr) ->
  (forall a, (forall x, a = Some x -> is_Some (S !! x)) -> may X (k a) P Q) ->
  may X (find_any_active_gateway_data ≫= k) P Q.
Proof.
  intros HP H. apply may_get. intros a st tr [Hi Ha]. apply (H a); [|done]. intros x ->.
  destruct (first_data _ (gateway_hash st)) as [[s d]|] eqn:E; [|done]. cbn in Ha. simplify_eq.
  apply first_data_Some in E as [E _]. apply (inv_there S st tr); [by apply HP|by exists d].
Qed.

(** What is done once the data is in the table. *)
Lemma add_rest_may X S e s gw type f peer :
  family_type type = Some f -> has S s f ->
  (service_is_vpn e s = true -> service_is_split_routing e s = false -> forall a, is_Some (S !! a) -> has S a f \/ X) ->
  may X (any_active_gateway ← find_any_active_gateway_data;
      default_gateway ← find_default_gateway_data e;
      d ← load s;
      match config_of f d with
      | Some c => add_host_route e s f (service_is_vpn e s);; pemit (Nameserver_add_routes s (gateway c))
      | None => pskip
      end;;
      is_vpn ← (if service_is_vpn e s
                then set_vpn_routes e s gw f peer any_active_gateway;; vpn_of s f
                else update_config s f gateway_config_clear_vpn;; mret false);
      match any_active_gateway with
      | None => set_default_gateway s type;; pskip
      | Some a =>
          if bool_decide (is_Some default_gateway) && negb is_vpn
          then set_low_priority_default_gateway s type;; pskip
          else if is_vpn then clear_active e s f a else pskip
      end;;
      pemit (Indicate_ready s f);;
      mret 0) (fun st tr => inv S st tr /\ fresh s f st) (fun _ => inv S).
Proof.
  intros Ht Hs HX. assert (Hs' := has_there _ _ _ Hs).
  apply (runs_any_active S); [by intros ? ? [? _]|]. intros a Ha. apply may_get. intros def.
  eapply may_bind with (R := fun _ st tr => inv S st tr /\ fresh s f st).
  { apply runs_may. intros st tr [[Hi Hf] _]. destruct (proj1 (inv_there S st tr s Hi) Hs') as [d Hd].
    exists d, st, []. rewrite app_nil_r. split; [unfold load; by rewrite Hd|done]. }
  intros d. eapply may_bind with (R := fun _ st tr => inv S st tr /\ fresh s f st).
  { apply runs_may. destruct (config_of f d) as [c|]; [|by apply runs_ret].
    eapply runs_bind with (R := fun _ st tr => inv S st tr /\ fresh s f st).
    - apply gw_keeps_fresh; [apply calm_host_route|by apply gw_keeps_host_route].
    - intros _. apply gw_keeps_fresh; [by intros st x st' o [= _ <- _]|by apply gw_keeps_emit]. }
  intros _. eapply may_bind with (R := fun v st tr => inv S st tr /\ (v = true -> service_is_vpn e s = true)).
  { apply runs_may. destruct (service_is_vpn e s).
    - eapply runs_bind; [by apply set_vpn_runs|]. intros ?.
      assert (Hk : keeps S (vpn_of s f)) by (unfold vpn_of; keeping). eapply runs_conseq; [exact Hk|done|done].
    - eapply runs_bind; [by apply fresh_update|]. intros ?. by apply runs_ret. }
  intros v. eapply may_bind with (R := fun _ => inv S).
  - apply may_pure. intros Hv. destruct a as [a|].
    + specialize (Ha a eq_refl). destruct (bool_decide _ && negb v).
      * apply runs_may. change (keeps S (set_low_priority_default_gateway s type;; pskip)). keeping.
      * destruct v; [|by apply runs_may, runs_ret]. apply clear_active_may; [|done]. intros Hsp. by apply HX; [apply Hv|..].
    + apply runs_may. change (keeps S (set_default_gateway s type;; pskip)). keeping.
  - intros _. apply runs_may. change (keeps S (pemit (Indicate_ready s f);; mret 0)). keeping.
Qed.

Lemma add_may e s gw type peer f :
  family_type type = Some f ->
  forall st tr, good st tr -> interface_free s (service_index e s) (gateway_hash st) ->
  (connman_gateway_add e s gw type peer st = None /\ full_vpn e s f (gateway_hash st)) \/
  exists a st' o, connman_gateway_add e s gw type peer st = Some (a, st', o) /\ good st' (tr ++ o).
Proof.
  intros Ht st tr [S Hi] Hfree.
  set (gw' := default (match f with V4 => ipv4_addr_any_str | V6 => ipv6_addr_any_str end) gw).
  cut (may (full_vpn e s f (gateway_hash st)) (connman_gateway_add e s gw type peer)
    (fun st1 tr1 => st1 = st /\ tr1 = tr) (fun _ => good)).
  { intros H. by apply H. }
  assert (Hret : forall st1 tr1, (st1 = st /\ tr1 = tr) -> good st1 tr1) by (intros ? ? [-> ->]; by exists S).
  assert (Hadd : runs (add_gateway e s (service_index e s) gw' type) (fun st1 tr1 => st1 = st /\ tr1 = tr) (added S s f)).
  { intros st1 tr1 [-> ->]. by apply (add_gateway_runs S e s (service_index e s) gw' type f Ht st tr). }
  assert (Hgo : may (full_vpn e s f (gateway_hash st)) (if service_index e s <? 0 then mret (- EINVAL)
    else err ← add_gateway e s (service_index e s) gw' type;
      if err <? 0 then mret err
      else any_active_gateway ← find_any_active_gateway_data;
        default_gateway ← find_default_gateway_data e;
        d ← load s;
        match config_of f d with
        | Some c => add_host_route e s f (service_is_vpn e s);; pemit (Nameserver_add_routes s (gateway c))
        | None => pskip
        end;;
        is_vpn ← (if service_is_vpn e s
                  then set_vpn_routes e s gw' f peer any_active_gateway;; vpn_of s f
                  else update_config s f gateway_config_clear_vpn;; mret false);
        match any_active_gateway with
        | None => set_default_gateway s type;; pskip
        | Some a =>
            if bool_decide (is_Some default_gateway) && negb is_vpn
            then set_low_priority_default_gateway s type;; pskip
            else if is_vpn then clear_active e s f a else pskip
        end;;
        pemit (Indicate_ready s f);;
        mret err) (fun st1 tr1 => st1 = st /\ tr1 = tr) (fun _ => good)).
  { destruct (service_index e s <? 0); [by apply runs_may, runs_ret|].
    eapply may_bind; [apply runs_may, Hadd|]. intros err.
    intros st1 tr1 [[Hneg H1]|(-> & p & H1 & Hh & Hfr)].
    - rewrite (proj2 (Z.ltb_lt err 0) Hneg). right. exists err, st1, []. rewrite app_nil_r. split; [done|by exists S].
    - destruct (add_rest_may (full_vpn e s f (gateway_hash st)) (<[s := p]> S) e s gw' type f peer Ht Hh) with (st := st1) (tr := tr1)
        as [HN|(a & st2 & o & E & H2)]; [|done|by left|right].
      + intros Hv Hsp a Ha. destruct (has_or_lacks S st tr s f p a Hi Hh Ha) as [?|?]; [by left|by right].
      + exists a, st2, o. split; [exact E|by eexists]. }
  destruct type; cbn in Ht; simplify_eq; exact Hgo.
Qed.

(** ** Events *)

Inductive event :=
| Add (s : Z) (gw : option (list Z)) (type : ipconfig_type) (peer : option (list Z))
| Remove (s : Z) (type : ipconfig_type)
| Update
| Route_added (i : Z) (gw : list Z)
| Route_removed (i : Z) (gw : list Z)
| Got_route (i : Z) (vpn_index : Z) (vpn_gateway : list Z).

Definition handle (e : env) (ev : event) : M unit :=
  match ev with
  | Add s gw type peer => connman_gateway_add e s gw type peer;; pskip
  | Remove s type => connman_gateway_remove e s type
  | Update => connman_gateway_update e;; pskip
  | Route_added i gw => gateway_rtnl_new e i gw
  | Route_removed i gw => gateway_rtnl_del e i gw
  | Got_route i vpn_index vpn_gateway => get_gateway_cb e i vpn_index vpn_gateway
  end.

(** A service that is added has an interface of its own. *)
Definition admissible (e : env) (ev : event) (st : state) : Prop :=
  match ev with
  | Add s _ _ _ => interface_free s (service_index e s) (gateway_hash st)
  | _ => True
  end.

(** The states the events lead to, with the history of the calls; the kernel answers as it likes. *)
Inductive reachable : state -> list output -> Prop :=
| reachable_start : reachable (mk_state ∅ []) []
| reachable_event st tr e ev l st' o :
    reachable st tr -> admissible e ev st -> handle e ev (mk_state (gateway_hash st) l) = Some (tt, st', o) ->
    reachable st' (tr ++ o).

Lemma good_answers st tr l : good st tr -> good (mk_state (gateway_hash st) l) tr.
Proof. intros [S H]. exists S. eapply inv_more; [| |exact H]; done. Qed.

(** The service on an interface has an address of the family [f] as its gateway of the other family, and no gateway of [f]. *)
Definition misplaced (i : Z) (gw : list Z) (f : family) (h : gmap Z gateway_data) : Prop :=
  exists s d f' c, h !! s = Some d /\ index d = i /\ config_of f' d = Some c /\ gateway c = gw /\ config_of f d = None.

Definition crashing (e : env) (ev : event) (st : state) : Prop :=
  match ev with
  | Add s _ type _ => exists f, family_type type = Some f /\ full_vpn e s f (gateway_hash st)
  | Got_route _ vpn_index gw => exists f, check_ipaddress e gw = Some f /\ misplaced vpn_index gw f (gateway_hash st)
  | _ => False
  end.

Lemma get_gateway_may e i vi gw st tr :
  good st tr ->
  (get_gateway_cb e i vi gw st = None /\ exists f, check_ipaddress e gw = Some f /\ misplaced vi gw f (gateway_hash st)) \/
  exists a st' o, get_gateway_cb e i vi gw st = Some (a, st', o) /\ good st' (tr ++ o).
Proof.
  intros [S Hi]. unfold get_gateway_cb. destruct (i <? 0); [right; by apply (runs_good S _ (gw_keeps_skip S))|].
  set (X := exists f, check_ipaddress e gw = Some f /\ misplaced vi gw f (gateway_hash st)).
  cut (may X (data ← find_vpn_gateway_data vi gw;
      match data, check_ipaddress e gw with
      | Some s, Some f => load_config s f;; update_config s f (with_vpn_phy_index i)
      | _, _ => pskip
      end) (fun st1 tr1 => st1 = st /\ tr1 = tr) (fun _ => good)); [intros H; by apply H|].
  assert (Hskip : may X pskip (fun st1 tr1 => st1 = st /\ tr1 = tr) (fun _ => good)).
  { apply runs_may, runs_ret. intros ? ? [-> ->]. by exists S. }
  apply may_get. intros a st1 tr1 [[-> ->] Ha].
  destruct (first_data _ (gateway_hash st)) as [[s d]|] eqn:E; cbn in Ha; subst a; [|by apply Hskip].
  apply first_data_Some in E as [Hd Hm]. destruct (check_ipaddress e gw) as [f|] eqn:Ef; [|by apply Hskip].
  destruct (config_of f d) as [c|] eqn:Ec.
  - right. assert (Hk : keeps S (load_config s f;; update_config s f (with_vpn_phy_index i))).
    { assert (has S s f) by by eapply has_of. keeping. apply gw_keeps_update_config; [|done].
      intros st1 tr1 d1 c1 Hi1 Hd1 Hc1. by destruct (inv_data _ _ _ Hi1 s d1 Hd1 f c1 Hc1). }
    by apply (runs_good S _ Hk).
  - left. split; [|exists f; split; [done|]].
    2: { apply orb_true_iff in Hm as [Hm|Hm]; apply config_matches_Some in Hm as (c & Hc & Hix & Hg); cbn in Hc, Hix; [exists s, d, V4, c|exists s, d, V6, c]; by split_and!. }
    unfold load_config, mbind, pprog_bind, load. rewrite Hd. unfold plift. by rewrite Ec.
Qed.

Lemma handle_may e ev st tr :
  good st tr -> admissible e ev st ->
  (handle e ev st = None /\ crashing e ev st) \/ exists st' o, handle e ev st = Some (tt, st', o) /\ good st' (tr ++ o).
Proof.
  intros Hg Ha. assert (Hk : forall m : M unit, (forall S, keeps S m) -> exists st' o, m st = Some (tt, st', o) /\ good st' (tr ++ o)).
  { intros m Hm. destruct Hg as [S Hi]. destruct (Hm S st tr Hi) as ([] & st' & o & E & H). exists st', o. split; [done|by exists S]. }
  destruct ev as [s gw type peer|s type| |i gw|i gw|i vi gw]; cbn [handle crashing admissible] in *.
  - destruct (family_type type) as [f|] eqn:Ht.
    + destruct (add_may e s gw type peer f Ht st tr Hg Ha) as [[E HX]|(a & st' & o & E & H)].
      * left. unfold mbind, pprog_bind. rewrite E. split; [done|by exists f].
      * right. exists st', o. unfold mbind, pprog_bind. rewrite E. cbn. by rewrite app_nil_r.
    + right. exists st, []. rewrite app_nil_r. destruct type; (split; [reflexivity|done]) || done.
  - right. destruct (remove_runs e s type st tr Hg) as ([] & st' & o & E & H). by exists st', o.
  - right. apply Hk. intros S. apply gw_keeps_bind; [apply gw_keeps_update|]. intros _. apply gw_keeps_skip.
  - right. apply Hk. intros S. apply gw_keeps_rtnl_new.
  - right. apply Hk. intros S. apply gw_keeps_rtnl_del.
  - destruct (get_gateway_may e i vi gw st tr Hg) as [?|([] & st' & o & E & H)]; [by left|right]. by exists st', o.
Qed.

Lemma reachable_good st tr : reachable st tr -> good st tr.
Proof.
  induction 1 as [|st tr e ev l st' o Hr IH Ha E].
  - exists ∅. split; cbn; [by intros ? ?|by intros ? ? ? ?|done].
  - destruct (handle_may e ev (mk_state (gateway_hash st) l) tr) as [[E' _]|(st1 & o1 & E' & H)];
      [by apply good_answers|by destruct ev|congruence|congruence].
Qed.

(** ** A kernel that accepts everything

    What becomes of one configuration, and the result. *)

Definition set_spec (type : gateway_config_type) (c : gateway_config) : Z * gateway_config :=
  match g_state c with
  | STATE_ADDED => (if bool_decide (g_type c = type) then - EINPROGRESS else - EINVAL, c)
  | STATE_ACTIVE => (if bool_decide (g_type c = type) then - EALREADY else - EINVAL, c)
  | _ => (0, gateway_config_type_set type (gateway_config_state_set STATE_ADDED c))
  end.

Definition unset_spec (type : gateway_config_type) (c : gateway_config) : Z * gateway_config :=
  match g_state c with
  | STATE_INACTIVE => (- EALREADY, c)
  | STATE_REMOVED => (if bool_decide (g_type c = type) then - EINPROGRESS else - EINVAL, c)
  | _ => if bool_decide (g_type c = type) then (0, gateway_config_state_set STATE_REMOVED c) else (- EINVAL, c)
  end.

Definition demote_spec (f : family) (c : gateway_config) : gateway_config :=
  let c1 := (unset_spec HIGH_PRIORITY_DEFAULT c).2 in
  match f with V4 => (set_spec LOW_PRIORITY_DEFAULT c1).2 | V6 => c1 end.

Definition promote_spec (f : family) (c : gateway_config) : gateway_config :=
  (set_spec HIGH_PRIORITY_DEFAULT (match f with V4 => (unset_spec LOW_PRIORITY_DEFAULT c).2 | V6 => c end)).2.

Definition put (s : Z) (f : family) (c : gateway_config) (h : gmap Z gateway_data) : gmap Z gateway_data :=
  alter (with_config f (Some c)) s h.

(** The table, with no answers of the kernel to come. *)
Definition at_table (h : gmap Z gateway_data) (st : state) (tr : list output) : Prop := st = mk_state h [].

Definition moves {A} (m : M A) (h h' : gmap Z gateway_data) (P : A -> Prop) : Prop :=
  runs m (at_table h) (fun a st tr => at_table h' st tr /\ P a).

#[local] Arguments moves : simpl never.

Lemma moves_bind {A B} (m : M A) (k : A -> M B) h h1 h2 P Q :
  moves m h h1 P -> (forall a, P a -> moves (k a) h1 h2 Q) -> moves (m ≫= k) h h2 Q.
Proof. intros Hm Hk. eapply runs_bind; [exact Hm|]. intros a. apply runs_pure. by apply Hk. Qed.

Lemma moves_ret {A} (a : A) h (P : A -> Prop) : P a -> moves (mret a) h h P.
Proof. intros HP. by apply runs_ret. Qed.

Lemma moves_emit o h : moves (pemit o) h h (fun _ => True).
Proof. intros st tr ->. by exists tt, (mk_state h []), [o]. Qed.

Lemma moves_route op h : moves (route op) h h (fun r => r = 0).
Proof. intros st tr ->. by exists 0, (mk_state h []), [Route op 0]. Qed.

Lemma moves_load {B} s d (k : gateway_data -> M B) h h' Q : h !! s = Some d -> moves (k d) h h' Q -> moves (load s ≫= k) h h' Q.
Proof.
  intros Hd Hk. eapply moves_bind with (P := fun x => x = d); [|by intros ? ->].
  intros st tr ->. exists d, (mk_state h []), []. unfold load. cbn. by rewrite Hd.
Qed.

Lemma moves_load_config {B} s f d c (k : gateway_data * gateway_config -> M B) h h' Q :
  h !! s = Some d -> config_of f d = Some c -> moves (k (d, c)) h h' Q -> moves (load_config s f ≫= k) h h' Q.
Proof.
  intros Hd Hc Hk. eapply moves_bind with (P := fun x => x = (d, c)); [|by intros ? ->].
  eapply moves_load; [exact Hd|]. eapply moves_bind with (P := fun x => x = c); [|intros ? ->; by apply moves_ret].
  intros st tr ->. exists c, (mk_state h []), []. unfold plift. by rewrite Hc.
Qed.

Lemma moves_update_config s f d c g h :
  h !! s = Some d -> config_of f d = Some c -> moves (update_config s f g) h (put s f (g c) h) (fun _ => True).
Proof.
  intros Hd Hc. apply runs_modify. intros st tr ->. split; [|done]. unfold at_table, set_hash. cbn. f_equal.
  apply map_eq. intros s'. unfold put. destruct (decide (s = s')) as [<-|Hn].
  - rewrite !lookup_alter_eq, Hd. cbn. by rewrite Hc.
  - by rewrite !lookup_alter_ne.
Qed.

Lemma with_config_id f c d : config_of f d = Some c -> with_config f (Some c) d = d.
Proof. destruct d, f; cbn; by intros ->. Qed.

Lemma put_id s f d c h : h !! s = Some d -> config_of f d = Some c -> put s f c h = h.
Proof. intros Hd Hc. apply alter_id. intros d' Hd'. simplify_eq. by apply with_config_id. Qed.

Lemma put_put s f c c' h : put s f c' (put s f c h) = put s f c' h.
Proof.
  unfold put. rewrite alter_alter_eq. apply alter_ext. intros d _. by destruct f.
Qed.

Lemma lookup_put s f c h d : h !! s = Some d -> put s f c h !! s = Some (with_config f (Some c) d).
Proof. intros Hd. unfold put. by rewrite lookup_alter_eq, Hd. Qed.

Lemma lookup_put_ne s s' f c h : s <> s' -> put s f c h !! s' = h !! s'.
Proof. intros Hn. unfold put. by rewrite lookup_alter_ne. Qed.

Lemma set_moves s f type cb d c h :
  add_of f type cb -> h !! s = Some d -> config_of f d = Some c ->
  moves (set_default_gateway_route_common s f type cb) h (put s f (set_spec type c).2 h) (fun r => r = (set_spec type c).1).
Proof.
  intros Hcb Hd Hc. unfold set_default_gateway_route_common. eapply moves_load_config; [done..|].
  assert (Hgo : moves (err ← cb d c; if err <? 0 then mret err
     else update_config s f (fun c => gateway_config_type_set type (gateway_config_state_set STATE_ADDED c));; mret err) h
     (put s f (gateway_config_type_set type (gateway_config_state_set STATE_ADDED c)) h) (fun r => r = 0)).
  { destruct (Hcb d c) as (op & k & -> & _). eapply moves_bind; [apply moves_route|]. intros r ->. cbn [Z.ltb Z.compare].
    eapply moves_bind; [by apply (moves_update_config s f d c)|]. intros _ _. by apply moves_ret. }
  unfold set_spec, is_gateway_config_state, is_gateway_config_type.
  destruct (g_state c); cbn; try exact Hgo; destruct (bool_decide (g_type c = type)); cbn;
    rewrite (put_id s f d c) by done; by apply moves_ret.
Qed.

Lemma unset_moves s f type cb d c h :
  del_of f type cb -> h !! s = Some d -> config_of f d = Some c ->
  moves (unset_default_gateway_route_common s f type cb) h (put s f (unset_spec type c).2 h) (fun r => r = (unset_spec type c).1).
Proof.
  intros Hcb Hd Hc. unfold unset_default_gateway_route_common. eapply moves_load_config; [done..|].
  assert (Hgo : moves (err ← cb d c; let err := if err =? - ESRCH then 0 else err in
     if err <? 0 then mret err
     else update_config s f (gateway_config_state_set STATE_REMOVED);; mret err) h
     (put s f (gateway_config_state_set STATE_REMOVED c) h) (fun r => r = 0)).
  { destruct (Hcb d c) as (op & k & -> & _). eapply moves_bind; [apply moves_route|]. intros r ->.
    eapply moves_bind; [by apply (moves_update_config s f d c)|]. intros _ _. by apply moves_ret. }
  unfold unset_spec, is_gateway_config_state, is_gateway_config_type.
  destruct (g_state c); cbn; destruct (bool_decide (g_type c = type)); cbn; try exact Hgo;
    rewrite (put_id s f d c) by done; by apply moves_ret.
Qed.

Definition op_of (f : family) (o4 o6 : option (Z -> M Z)) : option (Z -> M Z) := match f with V4 => o4 | V6 => o6 end.

Lemma mutate_none h s d f want op : h !! s = Some d -> want = false \/ op = None -> moves (mutate_one want f op s) h h (fun r => r = 0).
Proof.
  intros Hd Hw. unfold mutate_one. eapply moves_load; [exact Hd|]. destruct op as [op|]; [|by apply moves_ret].
  destruct Hw as [->|?]; [|done]. by apply moves_ret.
Qed.

Lemma mutate_moves f s d c o4 o6 op h c' r0 :
  h !! s = Some d -> config_of f d = Some c -> op_of f o4 o6 = Some op -> r0 <= 0 ->
  moves (op s) h (put s f c' h) (fun r => r = r0) ->
  moves (mutate_default_gateway s (type_of f) o4 o6) h (put s f c' h) (fun r => r = r0).
Proof.
  intros Hd Hc Hop Hr Hm. assert (Hone : moves (mutate_one true f (Some op) s) h (put s f c' h) (fun r => r = r0)).
  { unfold mutate_one. eapply moves_load; [exact Hd|]. rewrite bool_decide_eq_true_2; [done|by exists c]. }
  destruct f; cbn in Hop; subst.
  - eapply moves_bind; [exact Hone|]. intros r ->. eapply moves_bind.
    { eapply mutate_none; [by apply lookup_put|by left]. }
    intros r ->. apply moves_ret. destruct (Z.ltb_spec r0 0); lia.
  - eapply moves_bind; [eapply mutate_none; [exact Hd|by left]|]. intros r ->.
    eapply moves_bind; [exact Hone|]. intros r ->. by apply moves_ret.
Qed.

Lemma mutate_moves_none f s d o4 o6 h :
  h !! s = Some d -> op_of f o4 o6 = None -> moves (mutate_default_gateway s (type_of f) o4 o6) h h (fun r => r = 0).
Proof.
  intros Hd Hop. destruct f; cbn in Hop; subst;
    (eapply moves_bind; [eapply mutate_none; [exact Hd|by (left + right)]|]; intros r ->;
     eapply moves_bind; [eapply mutate_none; [exact Hd|by (left + right)]|]; intros r ->; by apply moves_ret).
Qed.

Lemma set_spec_le type c : (set_spec type c).1 <= 0.
Proof. unfold set_spec. destruct (g_state c); [|case_bool_decide..|]; done. Qed.
Lemma unset_spec_le type c : (unset_spec type c).1 <= 0.
Proof. unfold unset_spec. destruct (g_state c); [|case_bool_decide..]; done. Qed.

Lemma demote_moves s f d c h :
  h !! s = Some d -> config_of f d = Some c ->
  moves (demote_default_gateway s (type_of f)) h (put s f (demote_spec f c) h) (fun _ => True).
Proof.
  intros Hd Hc. unfold demote_default_gateway. eapply moves_bind.
  { apply (mutate_moves f s d c _ _ (unset_high_priority_default_gateway f)); [done..|by destruct f|apply unset_spec_le|].
    apply (unset_moves s f HIGH_PRIORITY_DEFAULT _ d c); [apply del_high|done..]. }
  intros r _. set (c1 := (unset_spec HIGH_PRIORITY_DEFAULT c).2). destruct f.
  - unfold demote_spec. fold c1. rewrite <- (put_put s V4 c1 (set_spec LOW_PRIORITY_DEFAULT c1).2). eapply moves_bind; [|intros; by apply moves_ret].
    eapply (mutate_moves V4 s (with_config V4 (Some c1) d) c1); [by apply lookup_put|done|done|apply set_spec_le|].
    apply (set_moves s V4 LOW_PRIORITY_DEFAULT _ (with_config V4 (Some c1) d) c1); [apply add_low|by apply lookup_put|done].
  - eapply moves_bind; [|intros; by apply moves_ret]. eapply (mutate_moves_none V6); [by apply lookup_put|done].
Qed.

Lemma promote_moves s f d c h :
  h !! s = Some d -> config_of f d = Some c ->
  moves (promote_default_gateway s (type_of f)) h (put s f (promote_spec f c) h) (fun _ => True).
Proof.
  intros Hd Hc. unfold promote_default_gateway.
  assert (Hset : forall h c1 d1, h !! s = Some d1 -> config_of f d1 = Some c1 ->
    moves (set_default_gateway s (type_of f)) h (put s f (set_spec HIGH_PRIORITY_DEFAULT c1).2 h) (fun _ => True)).
  { intros h1 c1 d1 Hd1 Hc1. unfold set_default_gateway. eapply moves_bind.
    - apply (mutate_moves f s d1 c1 _ _ (set_high_priority_default_gateway f)); [done..|by destruct f|apply set_spec_le|].
      apply (set_moves s f HIGH_PRIORITY_DEFAULT _ d1 c1); [apply add_high|done..].
    - intros r _. destruct (r <? 0); [by apply moves_ret|]. eapply moves_bind; [apply moves_emit|]. intros _ _. by apply moves_ret. }
  unfold promote_spec. destruct f.
  - set (c1 := (unset_spec LOW_PRIORITY_DEFAULT c).2). eapply moves_bind.
    + eapply (mutate_moves V4 s d c); [done..|apply unset_spec_le|].
      apply (unset_moves s V4 LOW_PRIORITY_DEFAULT _ d c); [apply del_low|done..].
    + intros r _. fold c1. rewrite <- (put_put s V4 c1 (set_spec HIGH_PRIORITY_DEFAULT c1).2). eapply moves_bind; [|intros; by apply moves_ret].
      apply (Hset _ _ (with_config V4 (Some c1) d)); [by apply lookup_put|done].
  - eapply moves_bind; [by eapply (mutate_moves_none V6)|]. intros r _.
    eapply moves_bind; [|intros; by apply moves_ret]. by apply (Hset _ _ d).
Qed.

(** The gateway does not hold an acknowledged route of high priority. *)
Definition low_or_waiting (c : gateway_config) : Prop := g_state c <> STATE_ACTIVE \/ g_type c <> HIGH_PRIORITY_DEFAULT.

Lemma demote_spec_low f c : low_or_waiting (demote_spec f c).
Proof.
  unfold low_or_waiting, demote_spec, unset_spec, set_spec.
  destruct f, c as [fl [] [] gw ip ix]; cbn; try (by left); by right.
Qed.

Lemma promote_spec_high f c tr d :
  config_ok f d c tr -> g_state c <> STATE_ACTIVE ->
  g_state (promote_spec f c) = STATE_ADDED /\ g_type (promote_spec f c) = HIGH_PRIORITY_DEFAULT.
Proof.
  intros [H1 H2 _] Hs. unfold promote_spec, unset_spec, set_spec.
  destruct f, c as [fl [] [] gw ip ix]; cbn in *; try done; try (by destruct H1 as [_ H1]; specialize (H1 eq_refl)); by destruct (H2 eq_refl).
Qed.

(** One family of one service, the other and the rest being left alone. *)
Record touches (s : Z) (f : family) (h h' : gmap Z gateway_data) (P : gateway_config -> gateway_config -> Prop) : Prop := {
  touches_rest s' : s' <> s -> h' !! s' = h !! s';
  touches_data d : h !! s = Some d -> exists d', h' !! s = Some d' /\ config_of (other f) d' = config_of (other f) d /\
    match config_of f d with
    | Some c => exists c', config_of f d' = Some c' /\ P c c'
    | None => config_of f d' = None
    end;
}.

Lemma touches_none s f h P : (forall d c, h !! s = Some d -> config_of f d = Some c -> P c c) -> touches s f h h P.
Proof. intros HP. split; [done|]. intros d Hd. exists d. split; [done|]. split; [done|].
  destruct (config_of f d) as [c|] eqn:E; [|done]. exists c. eauto. Qed.

Lemma touches_put s f h d c c' (P : gateway_config -> gateway_config -> Prop) :
  h !! s = Some d -> config_of f d = Some c -> P c c' -> touches s f h (put s f c' h) P.
Proof.
  intros Hd Hc HP. split; [intros; by apply lookup_put_ne|]. intros d1 Hd1. rewrite Hd in Hd1. injection Hd1 as <-.
  exists (with_config f (Some c') d). rewrite (lookup_put s f c' h d), Hc by done. split; [done|].
  split; [by destruct f|]. exists c'. by rewrite config_with_same.
Qed.

Lemma demote_active_moves s f d h : h !! s = Some d ->
  exists h', (forall u, moves (demote_if_active s f u) h h' (fun _ => True)) /\ touches s f h h' (fun _ => low_or_waiting).
Proof.
  intros Hd. destruct (config_active (config_of f d)) eqn:Ea.
  - destruct (config_of f d) as [c|] eqn:Ec; [|done]. exists (put s f (demote_spec f c) h). split.
    + intros u. unfold demote_if_active. eapply moves_load; [exact Hd|]. rewrite Ec, Ea.
      eapply moves_bind; [by apply (demote_moves s f d c)|]. intros r _. by apply moves_ret.
    + eapply touches_put; [exact Hd|exact Ec|apply demote_spec_low].
  - exists h. split.
    + intros u. unfold demote_if_active. eapply moves_load; [exact Hd|]. rewrite Ea. by apply moves_ret.
    + apply touches_none. intros d' c' Hd' Hc'. simplify_eq. rewrite Hc' in Ea. left. intros Es.
      cbn in Ea. unfold is_gateway_config_state in Ea. by rewrite bool_decide_eq_true_2 in Ea.
Qed.

Definition settled (h : gmap Z gateway_data) (s : Z) : Prop :=
  forall d f c, h !! s = Some d -> config_of f d = Some c -> low_or_waiting c.

Lemma touches_both s h h1 h2 P Q :
  touches s V4 h h1 P -> touches s V6 h1 h2 Q -> is_Some (h !! s) ->
  forall d, h2 !! s = Some d -> exists d0, h !! s = Some d0 /\
    (forall c, ipv4_config d = Some c -> exists c0, ipv4_config d0 = Some c0 /\ P c0 c) /\
    (forall c, ipv6_config d = Some c -> exists c0, ipv6_config d0 = Some c0 /\ Q c0 c).
Proof.
  intros [_ H1] [_ H2] [d0 Hd0] d Hd. destruct (H1 d0 Hd0) as (d1 & Hd1 & Ho1 & Hp).
  destruct (H2 d1 Hd1) as (d2 & Hd2 & Ho2 & Hq). simplify_eq. exists d0. split; [done|]. cbn in *. split.
  - intros c Hc. rewrite Ho2 in Hc. destruct (ipv4_config d0) as [c0|]; [|congruence]. destruct Hp as (c' & Hc' & HP).
    exists c0. split; [done|]. congruence.
  - intros c Hc. rewrite Ho1 in Hq. destruct (ipv6_config d0) as [c0|]; [|congruence]. destruct Hq as (c' & Hc' & HQ).
    exists c0. split; [done|]. congruence.
Qed.

Lemma update_loop_moves def l h :
  NoDup l -> Forall (fun s => is_Some (h !! s)) l ->
  exists h', (forall u4 u6, moves (update_loop def l u4 u6) h h' (fun _ => True)) /\
    (forall s, (s ∉ l) \/ def = Some s -> h' !! s = h !! s) /\ (forall s, s ∈ l -> def <> Some s -> settled h' s).
Proof.
  revert h. induction l as [|s l IH]; intros h Hnd Hl.
  { exists h. split; [intros; by apply moves_ret|]. split; [done|]. intros s Hs. by apply elem_of_nil in Hs. }
  apply list.NoDup_cons in Hnd as [Hn Hnd]. apply Forall_cons_1 in Hl as [Hs Hl].
  destruct (decide (def = Some s)) as [->|Hdef].
  - destruct (IH h Hnd Hl) as (h' & Hm & Hrest & Hset). exists h'. split; [|split].
    + intros u4 u6. cbn [update_loop]. rewrite bool_decide_eq_true_2 by done. apply Hm.
    + intros s' Hs'. apply Hrest. destruct Hs' as [Hs'|?]; [|by right]. left. intros ?. apply Hs'. mem.
    + intros s' [->|Hs']%elem_of_cons Hd; [done|by apply Hset].
  - destruct Hs as [d Hd]. destruct (demote_active_moves s V4 d h Hd) as (h1 & Hm1 & Ht1).
    destruct (touches_data _ _ _ _ _ Ht1 d Hd) as (d1 & Hd1 & _).
    destruct (demote_active_moves s V6 d1 h1 Hd1) as (h2 & Hm2 & Ht2).
    assert (Hr : forall s', s' <> s -> h2 !! s' = h !! s').
    { intros s' Hne. by rewrite (touches_rest _ _ _ _ _ Ht2), (touches_rest _ _ _ _ _ Ht1). }
    destruct (IH h2 Hnd) as (h' & Hm & Hrest & Hset).
    { rewrite list.Forall_forall in Hl |- *. intros s' Hs'. rewrite Hr; [by apply Hl|]. by intros ->. }
    exists h'. split; [|split].
    + intros u4 u6. cbn [update_loop]. rewrite bool_decide_eq_false_2 by done.
      eapply moves_bind; [apply Hm1|]. intros v4 _. eapply moves_bind; [apply Hm2|]. intros v6 _. apply Hm.
    + intros s' Hs'. rewrite Hrest by (destruct Hs' as [Hs'|?]; [left; intros ?; apply Hs'; mem|by right]).
      apply Hr. intros ->. destruct Hs' as [Hs'|?]; [apply Hs'; mem|done].
    + intros s' [->|Hs']%elem_of_cons Hds; [|by apply Hset]. intros d' f c Hd' Hc.
      rewrite Hrest in Hd' by (by left). destruct (touches_both _ _ _ _ _ _ Ht1 Ht2 (mk_is_Some _ _ Hd) d' Hd') as (d0 & _ & H4 & H6).
      destruct f; [by destruct (H4 c Hc) as (? & _ & ?)|by destruct (H6 c Hc) as (? & _ & ?)].
Qed.

(** A configuration that was not active is set with high priority. *)
Definition raised (f : family) (c c' : gateway_config) : Prop := g_state c <> STATE_ACTIVE -> c' = promote_spec f c.

Lemma promote_needed_runs s f u d h : h !! s = Some d ->
  runs (promote_if_needed s f u) (at_table h) (fun _ st tr => exists h', at_table h' st tr /\ touches s f h h' (raised f)).
Proof.
  intros Hd. assert (Hm : exists h', moves (promote_if_needed s f u) h h' (fun _ => True) /\ touches s f h h' (raised f)).
  { destruct (config_of f d) as [c|] eqn:Ec.
    2:{ exists h. split; [|apply touches_none; intros; simplify_eq; congruence]. unfold promote_if_needed.
        eapply moves_load; [exact Hd|]. rewrite Ec. by apply moves_ret. }
    destruct (u || negb (is_gateway_config_state STATE_ACTIVE c)) eqn:Eu.
    - exists (put s f (promote_spec f c) h). split; [|by eapply touches_put].
      unfold promote_if_needed. eapply moves_load; [exact Hd|]. rewrite Ec, Eu.
      eapply moves_bind; [by apply (promote_moves s f d c)|]. intros _ _. by apply moves_ret.
    - exists h. split.
      + unfold promote_if_needed. eapply moves_load; [exact Hd|]. rewrite Ec, Eu. by apply moves_ret.
      + apply touches_none. intros d' c' Hd' Hc' Hs. simplify_eq. apply orb_false_iff in Eu as [_ Eu%negb_false_iff].
        apply bool_decide_eq_true_1 in Eu. congruence. }
  destruct Hm as (h' & Hm & Ht). eapply runs_conseq; [exact Hm|done|]. intros ? st tr [? _]. by exists h'.
Qed.

Lemma services_moves {B} (k : list Z -> M B) h Q :
  (forall l, NoDup l -> (forall s, s ∈ l <-> is_Some (h !! s)) -> runs (k l) (at_table h) Q) ->
  runs (services ≫= k) (at_table h) Q.
Proof.
  intros H. apply runs_get. intros l st tr [-> <-]. apply H; [| |done]; cbn.
  - rewrite g_hash_table_foreach_perm. apply NoDup_fst_map_to_list.
  - intros s. rewrite list_elem_of_fmap. split.
    + intros ([s' d] & -> & Hin%visited). by exists d.
    + intros [d Hd%visited]. by exists (s, d).
Qed.

Lemma find_default_at {B} e (k : option Z -> M B) h Q :
  (default_service e ≫= (fun s => if bool_decide (is_Some (h !! s)) then Some s else None)) = None /\ runs (k None) (at_table h) Q \/
  (exists s d, default_service e = Some s /\ h !! s = Some d /\ runs (k (Some s)) (at_table h) Q) ->
  runs (find_default_gateway_data e ≫= k) (at_table h) Q.
Proof.
  intros [[E Hk]|(s & d & E & Hd & Hk)]; apply runs_get; intros a st tr [-> Ha]; cbn in Ha.
  - assert (a = None) as -> by (rewrite <- Ha; exact E). by apply Hk.
  - rewrite E in Ha. cbn in Ha. rewrite bool_decide_eq_true_2 in Ha by (by exists d). subst a. by apply Hk.
Qed.

(** What an update leaves: the others hold no acknowledged route of high priority, and the gateway of
    the default service is set with high priority if it was not active. *)
Definition updated (def : option Z) (h h' : gmap Z gateway_data) : Prop :=
  (forall s, def <> Some s -> settled h' s) /\
  (forall s d f c, def = Some s -> h !! s = Some d -> config_of f d = Some c -> g_state c <> STATE_ACTIVE ->
     exists d' , h' !! s = Some d' /\ config_of f d' = Some (promote_spec f c)).

Lemma promotes_updated s h h1 h2 h3 :
  h1 !! s = h !! s -> is_Some (h !! s) -> (forall s', s <> s' -> settled h1 s') ->
  touches s V4 h1 h2 (raised V4) -> touches s V6 h2 h3 (raised V6) -> updated (Some s) h h3.
Proof.
  intros E [d0 Hd0] Hset [R1 T1] [R2 T2]. split.
  - intros s' Hn d f c. assert (s' <> s) by congruence. rewrite R2, R1 by done. apply Hset. congruence.
  - intros s' d f c [= <-] Hd Hc Ha. rewrite <- E in Hd. destruct (T1 d Hd) as (d1 & Hd1 & Ho1 & H1).
    destruct (T2 d1 Hd1) as (d2 & Hd2 & Ho2 & H2). exists d2. split; [done|]. destruct f.
    + rewrite Hc in H1. destruct H1 as (c1 & Hc1 & Hr). cbn in Ho2, Hc1 |- *. by rewrite Ho2, Hc1, Hr.
    + cbn in Ho1, Hc. cbn in H2. rewrite Ho1, Hc in H2. destruct H2 as (c2 & Hc2 & Hr). cbn. by rewrite Hc2, Hr.
Qed.

Lemma update_runs e h :
  runs (connman_gateway_update e) (at_table h) (fun _ st tr => exists h', at_table h' st tr /\ updated (default_service e) h h').
Proof.
  assert (Hgo : forall def,
    (def = None /\ (forall s, default_service e = Some s -> h !! s = None)) \/
      (exists s d, def = Some s /\ default_service e = Some s /\ h !! s = Some d) ->
    runs (l ← services;
      '(updated4, updated6) ← update_loop def l false false;
      match def with
      | Some def => promote_if_needed def V4 updated4;; promote_if_needed def V6 updated6
      | None => pskip
      end;; mret (updated4 || updated6)) (at_table h)
      (fun _ st tr => exists h', at_table h' st tr /\ updated (default_service e) h h')).
  { intros def Hdef. apply services_moves. intros l Hnd Hl.
    destruct (update_loop_moves def l h Hnd) as (h1 & Hm & Hrest & Hset).
    { apply list.Forall_forall. intros s. apply Hl. }
    assert (Hsettled : forall s, def <> Some s -> settled h1 s).
    { intros s Hs. destruct (decide (s ∈ l)) as [Hin|Hout]; [by apply Hset|].
      intros d f c Hd. rewrite Hrest in Hd by (by left). destruct (Hout (proj2 (Hl s) (mk_is_Some _ _ Hd))). }
    eapply runs_bind; [apply Hm|]. intros [u4 u6]. destruct Hdef as [[-> Hno]|(s & d & -> & -> & Hd)].
    - eapply runs_bind with (R := fun _ => at_table h1); [apply runs_ret; tauto|]. intros _. apply runs_ret. intros st tr Hat.
      exists h1. split; [done|]. split; [intros s _; by apply Hsettled|]. intros s d f c Hs Hd. rewrite Hno in Hd; done.
    - assert (Hd1 : h1 !! s = Some d) by (rewrite Hrest; [done|by right]).
      eapply runs_bind with (R := fun _ st tr => exists h', at_table h' st tr /\ updated (Some s) h h'); [|intros _; by apply runs_ret].
      eapply runs_bind; [eapply runs_conseq; [by apply (promote_needed_runs s V4 u4 d h1)|tauto|done]|].
      intros x st tr (h2 & -> & T4). destruct (touches_data _ _ _ _ _ T4 d Hd1) as (d2 & Hd2 & _).
      destruct (promote_needed_runs s V6 u6 d2 h2 Hd2 (mk_state h2 []) tr eq_refl) as (y & st' & o & E & h3 & Hat & T6).
      exists y, st', o. split; [done|]. exists h3. split; [done|].
      eapply promotes_updated; [by rewrite Hd1, Hd|by exists d| |exact T4|exact T6]. intros s' Hn. apply Hsettled. congruence. }
  apply find_default_at. destruct (default_service e) as [s|] eqn:Ed; [destruct (h !! s) as [d|] eqn:Eh|].
  - right. exists s, d. split; [done|]. split; [done|]. apply (Hgo (Some s)). right. by exists s, d.
  - left. split; [cbn; by rewrite Eh|]. apply (Hgo None). left. split; [done|]. by intros ? [= <-].
  - left. split; [done|]. apply (Hgo None). by left.
Qed.

(** C10: The state and the type of every gateway agree with the calls to the kernel: in every state that services, each with an
    interface of its own, and notifications lead to, whatever the kernel answers, an inactive gateway has no type, low priority is
    used for IPv4 only, and the default route of a gateway that is added or active was asked for and accepted, and is still there
    by all calls since, unless a call has removed the default route by the address of the gateway, as for a VPN that takes all
    traffic: then the gateway keeps its state ([active_without_route]). *)
Theorem routes_tracked st tr s d f c :
  reachable st tr -> gateway_hash st !! s = Some d -> config_of f d = Some c ->
  (g_state c = STATE_INACTIVE <-> g_type c = CONFIG_NONE) /\ (f = V6 -> g_type c <> LOW_PRIORITY_DEFAULT) /\
  (pending c -> exists k, key_of f d c = Some k /\
     (status_of k tr = Present \/
      status_of k tr = Cleared /\ exists op r, Route op r ∈ tr /\ clears op k = true /\ 0 <= r)).
Proof.
  intros Hr Hd Hc. destruct (reachable_good st tr Hr) as [S Hi]. destruct (inv_data S st tr Hi s d Hd f c Hc) as [H1 H2 H3].
  split_and!; [done..|]. intros Hp. destruct (H3 Hp) as (k & Hk & Hq). exists k. split; [done|]. by apply requested_status.
Qed.

(** C22: The handlers always return while every service that is added has an interface of its own, with two exceptions: a VPN
    that takes all traffic is added while a service with a gateway has none of the family, or the kernel answers about the route to a
    VPN gateway whose address is of one family while its own service has it as the gateway of the other family and none of the first. *)
Theorem handlers_return e ev st tr l :
  reachable st tr -> admissible e ev st -> handle e ev (mk_state (gateway_hash st) l) = None -> crashing e ev st.
Proof.
  intros Hr Ha E. pose proof (good_answers st tr l (reachable_good st tr Hr)) as Hg.
  destruct (handle_may e ev (mk_state (gateway_hash st) l) tr Hg) as [[_ H]|(st' & o & E' & _)]; [by destruct ev| |congruence].
  by destruct ev.
Qed.

(** C15: After an update that the kernel accepts, no service but the default one holds an acknowledged
    default route of high priority, and the default service has set one for every family in which it was
    not active. *)
Theorem update_settles e st tr :
  reachable st tr ->
  exists b st' o, connman_gateway_update e (mk_state (gateway_hash st) []) = Some (b, st', o) /\
    (forall s d f c, default_service e <> Some s -> gateway_hash st' !! s = Some d -> config_of f d = Some c ->
       ~ (g_state c = STATE_ACTIVE /\ g_type c = HIGH_PRIORITY_DEFAULT)) /\
    (forall s d f c, default_service e = Some s -> gateway_hash st !! s = Some d -> config_of f d = Some c ->
       g_state c <> STATE_ACTIVE ->
       exists d' c', gateway_hash st' !! s = Some d' /\ config_of f d' = Some c' /\
         g_state c' = STATE_ADDED /\ g_type c' = HIGH_PRIORITY_DEFAULT).
Proof.
  intros Hr. destruct (update_runs e (gateway_hash st) (mk_state (gateway_hash st) []) tr eq_refl) as (b & st' & o & E & h' & Hat & Hu).
  exists b, st', o. split; [done|]. rewrite Hat. cbn [gateway_hash]. destruct Hu as [H1 H2]. split.
  - intros s d f c Hs Hd Hc [Ha Hh]. by destruct (H1 s Hs d f c Hd Hc).
  - intros s d f c Hs Hd Hc Ha. destruct (H2 s d f c Hs Hd Hc Ha) as (d' & Hd' & Hc').
    exists d', (promote_spec f c). split; [done|]. split; [done|]. destruct (reachable_good st tr Hr) as [S Hi].
    eapply promote_spec_high; [|done]. by apply (inv_data S st tr Hi s d).
Qed.

End handlers.

(** Low priorities of different interfaces differ, and leave the metrics below 2^20 to others. *)
Lemma low_metrics_distinct d1 d2 :
  0 <= index d1 < 2 ^ 22 - 2 ^ 10 -> 0 <= index d2 < 2 ^ 22 - 2 ^ 10 -> index d1 <> index d2 ->
  compute_low_priority_metric d1 <> compute_low_priority_metric d2 /\ 2 ^ 20 <= compute_low_priority_metric d1 < 2 ^ 32.
Proof.
  intros H1 H2 Hn. unfold compute_low_priority_metric, UINT32_MAX.
  rewrite !(u32_small (index _ * _)), !u32_small by lia. lia.
Qed.

(** ** An example *)

#[local] Existing Instance glib_reference.

Definition demo_gw : list Z := [49; 46; 49; 46; 49; 46; 49].
Definition demo_gw6 : list Z := [102; 101; 56; 48; 58; 58; 49].

(** The default service comes first in the order of the services; 9 is a VPN. *)
Definition demo_env (def : option Z) : env :=
  mk_env true true def
    (fun a b => if bool_decide (def = Some a) then -1 else if bool_decide (def = Some b) then 1 else 0)
    (fun s => s) (fun s => s =? 9) (fun _ => false)
    (fun s _ => s) (fun _ _ _ => false) (fun _ _ => None) (fun _ => Some V4).

(** Events with the default service at the time of each; an interface is named like its service. *)
Fixpoint run_events (evs : list (option Z * event)) (st : state) : option (state * list output) :=
  match evs with
  | [] => Some (st, [])
  | (def, ev) :: evs =>
      if bool_decide (map_Forall (fun s d => index d = s) (gateway_hash st)) then
        match handle (demo_env def) ev st with
        | Some (_, st, o) => '(st, o') ← run_events evs st; Some (st, o ++ o')
        | None => None
        end
      else None
  end.

Lemma run_events_reachable evs st tr st' o :
  reachable st tr -> run_events evs st = Some (st', o) -> reachable st' (tr ++ o).
Proof.
  revert st tr o. induction evs as [|[def ev] evs IH]; intros st tr o Hr E; cbn [run_events] in E.
  - simplify_eq. by rewrite app_nil_r.
  - case_bool_decide as Hix; [|done]. destruct (handle (demo_env def) ev st) as [[[[] st1] o1]|] eqn:E1; [|done].
    destruct (run_events evs st1) as [[st2 o2]|] eqn:E2; [|done]. cbn in E. simplify_eq. rewrite app_assoc.
    apply (IH st1); [|done]. apply (reachable_event st tr (demo_env def) ev (answers st)); [done| |by destruct st].
    destruct ev; try done. intros s' d Hd. by rewrite (Hix s' d Hd).
Qed.

Definition after (evs : list (option Z * event)) : state * list output :=
  default (mk_state ∅ [], []) (run_events evs (mk_state ∅ [])).

Lemma after_reachable evs : is_Some (run_events evs (mk_state ∅ [])) -> reachable (after evs).1 (after evs).2.
Proof.
  intros [[st o] E]. unfold after. rewrite E. cbn.
  apply (run_events_reachable evs _ [] st o reachable_start E).
Qed.

Definition gateway_of (s : Z) (f : family) (st : state) : option (gateway_config_state * gateway_config_type) :=
  d ← gateway_hash st !! s; c ← config_of f d; Some (g_state c, g_type c).

Definition connect (def s : Z) : list (option Z * event) :=
  [(Some def, Add s (Some demo_gw) TYPE_IPV4 None); (Some def, Route_added s demo_gw)].
Definition connect6 (def s : Z) : list (option Z * event) :=
  [(Some def, Add s (Some demo_gw6) TYPE_IPV6 None); (Some def, Route_added s demo_gw6)].

Definition connect_both (def s : Z) : list (option Z * event) :=
  [(Some def, Add s (Some demo_gw) TYPE_IPV4 None); (Some def, Add s (Some demo_gw6) TYPE_IPV6 None);
   (Some def, Route_added s demo_gw); (Some def, Route_added s demo_gw6)].

(** Service 1 is the default with IPv4 and IPv6, and 2 is connected too. *)
Definition demo_two : list (option Z * event) := connect_both 1 1 ++ connect 1 2.

Definition demo_config (st : gateway_config_state) (type : gateway_config_type) : gateway_config :=
  mk_config 0 st type demo_gw None (-1).

Lemma demo_two_reachable : reachable (after demo_two).1 (after demo_two).2.
Proof. apply after_reachable. eexists. by vm_compute. Qed.

Lemma routes_tracked_witness :
  exists d, gateway_hash (after demo_two).1 !! 1 = Some d /\
    ipv4_config d = Some (demo_config STATE_ACTIVE HIGH_PRIORITY_DEFAULT) /\
    exists k, key_of V4 d (demo_config STATE_ACTIVE HIGH_PRIORITY_DEFAULT) = Some k /\ status_of k (after demo_two).2 = Present.
Proof.
  destruct (gateway_hash (after demo_two).1 !! 1) as [d|] eqn:E; [|by vm_compute in E].
  assert (Hc : ipv4_config d = Some (demo_config STATE_ACTIVE HIGH_PRIORITY_DEFAULT)).
  { vm_compute in E. injection E as <-. reflexivity. }
  exists d. split; [reflexivity|]. split; [exact Hc|].
  destruct (routes_tracked _ _ 1 d V4 _ demo_two_reachable E Hc) as (_ & _ & H).
  destruct (H ltac:(by right)) as (k & Hk & _). exists k. split; [exact Hk|].
  vm_compute in E. injection E as <-. vm_compute in Hk. injection Hk as <-. by vm_compute.
Defined.

Lemma handlers_return_witness :
  handle (demo_env (Some 1)) (Add 9 (Some demo_gw6) TYPE_IPV6 None) (mk_state (gateway_hash (after demo_two).1) []) = None /\
  crashing (demo_env (Some 1)) (Add 9 (Some demo_gw6) TYPE_IPV6 None) (after demo_two).1.
Proof.
  assert (E : handle (demo_env (Some 1)) (Add 9 (Some demo_gw6) TYPE_IPV6 None)
    (mk_state (gateway_hash (after demo_two).1) []) = None) by by vm_compute.
  assert (Hix : map_Forall (fun s d => index d = s) (gateway_hash (after demo_two).1)) by (apply (bool_decide_unpack _); by vm_compute).
  split; [exact E|]. apply (handlers_return _ _ _ _ [] demo_two_reachable); [|exact E].
  intros s' d Hd. by rewrite (Hix s' d Hd).
Defined.

Lemma update_settles_witness :
  exists b st' o, connman_gateway_update (demo_env (Some 2)) (mk_state (gateway_hash (after demo_two).1) []) = Some (b, st', o) /\
    gateway_of 1 V4 st' = Some (STATE_ADDED, LOW_PRIORITY_DEFAULT).
Proof.
  destruct (update_settles (demo_env (Some 2)) _ _ demo_two_reachable) as (b & st' & o & E & _).
  exists b, st', o. split; [exact E|]. vm_compute in E. by injection E as <- <- <-.
Defined.

(** ** Deviations *)

(** A VPN that takes all traffic clears the default route of the active gateway, which stays active, also when the kernel says that
    the route is gone: an update then takes the route for set. *)
Lemma active_without_route :
  let evs := connect 1 1 ++ [(Some 1, Add 9 (Some demo_gw6) TYPE_IPV4 None); (Some 1, Route_removed 1 demo_gw); (Some 1, Update)] in
  is_Some (run_events evs (mk_state ∅ [])) /\
  gateway_of 1 V4 (after evs).1 = Some (STATE_ACTIVE, HIGH_PRIORITY_DEFAULT) /\
  status_of (Key V4 1 (Some demo_gw) None) (after evs).2 = Cleared.
Proof. split; [eexists|]; by vm_compute. Qed.

(** Three services are connected and 3 is the default; then 2 becomes the default. *)
Definition demo_three : list (option Z * event) := connect 3 3 ++ connect 3 1 ++ connect 3 2.

Definition demo_changed : list (option Z * event) :=
  demo_three ++ [(Some 2, Update); (Some 2, Route_removed 3 demo_gw); (Some 2, Route_added 3 demo_gw); (Some 2, Update)].

Definition types (evs : list (option Z * event)) : list (option (gateway_config_state * gateway_config_type)) :=
  map (fun s => gateway_of s V4 (after evs).1) [1; 2; 3].

(** The result for the gateway visited last overwrites those before, and the new default service is not
    promoted: no service is left with a route of high priority, and later updates do not change it. *)
Lemma no_default_left :
  types demo_three = [Some (STATE_ACTIVE, LOW_PRIORITY_DEFAULT); Some (STATE_ACTIVE, LOW_PRIORITY_DEFAULT);
                      Some (STATE_ACTIVE, HIGH_PRIORITY_DEFAULT)] /\
  types demo_changed = [Some (STATE_ACTIVE, LOW_PRIORITY_DEFAULT); Some (STATE_ACTIVE, LOW_PRIORITY_DEFAULT);
                        Some (STATE_ACTIVE, LOW_PRIORITY_DEFAULT)].
Proof. by vm_compute. Qed.

(** The gateway of a family that was removed is set again when the kernel has acknowledged its removal. *)
Lemma removed_gateway_returns :
  let evs := connect_both 1 1 ++ [(Some 1, Remove 1 TYPE_IPV4)] in
  gateway_of 1 V4 (after evs).1 = Some (STATE_REMOVED, HIGH_PRIORITY_DEFAULT) /\
  gateway_of 1 V4 (after (evs ++ [(Some 1, Route_removed 1 demo_gw)])).1 = Some (STATE_ADDED, HIGH_PRIORITY_DEFAULT).
Proof. by vm_compute. Qed.

(** All routes are deleted, and the result says that it was in progress already. *)
Lemma delete_all_in_progress :
  match del_gateway_routes 1 TYPE_ALL (after (connect_both 1 1)).1 with
  | Some (r, st, _) => r = - EINPROGRESS /\ gateway_of 1 V4 st = Some (STATE_REMOVED, HIGH_PRIORITY_DEFAULT) /\
      gateway_of 1 V6 st = Some (STATE_REMOVED, HIGH_PRIORITY_DEFAULT)
  | None => False
  end.
Proof. by vm_compute. Qed.

(** A VPN is added over IPv4 and the active gateway is one of IPv6: a null pointer is followed. *)
Lemma vpn_over_ipv6_crashes :
  reachable (after (connect6 1 1)).1 (after (connect6 1 1)).2 /\
  connman_gateway_add (demo_env (Some 1)) 9 (Some demo_gw) TYPE_IPV4 None (after (connect6 1 1)).1 = None.
Proof. split; [apply after_reachable; eexists|]; by vm_compute. Qed.

End GatewayProps.
