(* ===== verification/Iptables.v ===== *)
(** * Netfilter tables (src/iptables.c)

    A table of the kernel is a sequence of entries, one after the other in memory.  A chain of the kernel
    (a hook) is its rules and a policy; a chain of the user is a head that carries its name, its rules and
    an entry that returns; the table ends with an error entry.  A jump holds the offset of the first entry
    behind the head of a chain, so that every change of the table moves the targets of jumps and the
    offsets at which the hooks start and end.

    An entry is kept as a record of its parts and not as bytes; [next_offset] is its size.  A node of the
    list of entries is named by its position.  [None] is a function that follows a null pointer or leaves
    its memory.  The rule to add or delete comes parsed: options are read by libxtables. *)

From S2P Require Import Prelude Inet Buffer.
From stdpp Require Import list.
Open Scope Z_scope.

Module Iptables.

Inductive family := AF_INET | AF_INET6.

#[global] Instance family_eq_dec : EqDecision family.
Proof. solve_decision. Defined.

#[global] Instance family_countable : Countable family.
Proof. by apply (inj_countable' (fun f => bool_decide (f = AF_INET)) (fun b : bool => if b then AF_INET else AF_INET6)); intros []. Defined.

(** ** Entries *)

Record xt_entry_match := mk_match {
  match_size : Z;
  m_revision : Z;
  m_name : list Z;
  m_data : list Z;
}.

(** Standard targets have the empty name, and a verdict where the others have data. *)
Record xt_entry_target := mk_target {
  target_size : Z;
  t_name : list Z;
  t_verdict : Z;
  t_data : list Z;
}.

Record ipt_entry := mk_ipt_entry {
  ip : list Z;
  target_offset : Z;
  next_offset : Z;
  elems : list xt_entry_match;
  target : xt_entry_target;
}.

Record connman_iptables_entry := mk_entry {
  offset : Z;
  builtin : Z;
  counter_idx : Z;
  entry : ipt_entry;
}.

Record connman_iptables := mk_table {
  type : family;
  valid_hooks : Z;
  old_entries : Z;
  num_entries : Z;
  size : Z;
  underflow : list Z;
  hook_entry : list Z;
  entries : list connman_iptables_entry;
}.

(** Sizes of the structures, aligned to 8 bytes. *)
Definition entry_struct_size (f : family) : Z := match f with AF_INET => 112 | AF_INET6 => 168 end.
Definition ip_size (f : family) : Z := match f with AF_INET => 84 | AF_INET6 => 136 end.
Definition entry_target_size : Z := 32.
Definition standard_target_size : Z := 40.
Definition error_target_size : Z := 64.
Definition entry_match_size : Z := 32.

Definition NF_INET_NUMHOOKS : Z := 5.

Definition XT_STANDARD_TARGET : list Z := [].
Definition XT_ERROR_TARGET : list Z := [69; 82; 82; 79; 82].

Definition hooknames : list (list Z) :=
  [ [80; 82; 69; 82; 79; 85; 84; 73; 78; 71];
    [73; 78; 80; 85; 84];
    [70; 79; 82; 87; 65; 82; 68];
    [79; 85; 84; 80; 85; 84];
    [80; 79; 83; 84; 82; 79; 85; 84; 73; 78; 71] ].

Definition LABEL_ACCEPT : list Z := [65; 67; 67; 69; 80; 84].
Definition LABEL_DROP : list Z := [68; 82; 79; 80].
Definition LABEL_QUEUE : list Z := [81; 85; 69; 85; 69].
Definition LABEL_RETURN : list Z := [82; 69; 84; 85; 82; 78].

Definition NF_DROP : Z := 0.
Definition NF_ACCEPT : Z := 1.
Definition NF_QUEUE : Z := 3.
Definition NF_REPEAT : Z := 4.
Definition NF_STOP : Z := 5.
Definition XT_RETURN : Z := - NF_REPEAT - 1.

Definition with_offset (o : Z) (e : connman_iptables_entry) : connman_iptables_entry :=
  mk_entry o (builtin e) (counter_idx e) (entry e).
Definition with_builtin (b : Z) (e : connman_iptables_entry) : connman_iptables_entry :=
  mk_entry (offset e) b (counter_idx e) (entry e).
Definition with_target (t : xt_entry_target) (e : connman_iptables_entry) : connman_iptables_entry :=
  mk_entry (offset e) (builtin e) (counter_idx e)
    (mk_ipt_entry (ip (entry e)) (target_offset (entry e)) (next_offset (entry e)) (elems (entry e)) t).
Definition set_verdict (v : Z) (t : xt_entry_target) : xt_entry_target :=
  mk_target (target_size t) (t_name t) v (t_data t).

Definition with_entries (l : list connman_iptables_entry) (t : connman_iptables) : connman_iptables :=
  mk_table (type t) (valid_hooks t) (old_entries t) (num_entries t) (size t) (underflow t) (hook_entry t) l.
Definition with_size (n s : Z) (t : connman_iptables) : connman_iptables :=
  mk_table (type t) (valid_hooks t) (old_entries t) n s (underflow t) (hook_entry t) (entries t).
Definition with_hooks (uf he : list Z) (t : connman_iptables) : connman_iptables :=
  mk_table (type t) (valid_hooks t) (old_entries t) (num_entries t) (size t) uf he (entries t).

Definition entry_size (e : connman_iptables_entry) : Z := next_offset (entry e).
Definition entry_target (e : connman_iptables_entry) : xt_entry_target := target (entry e).

(** Hooks are below [NF_INET_NUMHOOKS] wherever an array is indexed by one. *)
Definition hook_add (b d : Z) (l : list Z) : list Z := alter (fun x => u32 (x + d)) (Z.to_nat b) l.

(** Every allocation succeeds. *)
Definition all_ok : nat -> bool := fun _ => true.

(** ** Verdicts *)

Definition target_to_verdict (name : list Z) : Z :=
  if bytes_eqb name LABEL_ACCEPT then - NF_ACCEPT - 1
  else if bytes_eqb name LABEL_DROP then - NF_DROP - 1
  else if bytes_eqb name LABEL_QUEUE then - NF_QUEUE - 1
  else if bytes_eqb name LABEL_RETURN then XT_RETURN
  else 0.

Definition is_builtin_target (name : list Z) : bool :=
  bytes_eqb name LABEL_ACCEPT || bytes_eqb name LABEL_DROP || bytes_eqb name LABEL_QUEUE || bytes_eqb name LABEL_RETURN.

Definition no_jump (v : Z) : bool :=
  (v =? XT_RETURN) || (v =? - NF_ACCEPT - 1) || (v =? - NF_DROP - 1) || (v =? - NF_QUEUE - 1) || (v =? - NF_STOP - 1).

Definition is_jump (e : connman_iptables_entry) : bool :=
  bytes_eqb (t_name (entry_target e)) XT_STANDARD_TARGET && negb (no_jump (t_verdict (entry_target e))).

Definition is_fallthrough (e : connman_iptables_entry) : bool :=
  bytes_eqb (t_name (entry_target e)) XT_STANDARD_TARGET && (t_verdict (entry_target e) =? 0).

(** ** Chains *)

Definition is_error (e : connman_iptables_entry) : bool := bytes_eqb (t_name (entry_target e)) XT_ERROR_TARGET.

Definition is_chain (e : connman_iptables_entry) : bool := (0 <=? builtin e) || is_error e.

(** The entry starts the chain of the name. *)
Definition heads (name : list Z) (e : connman_iptables_entry) : bool :=
  ((0 <=? builtin e) && bool_decide (hooknames !! Z.to_nat (builtin e) = Some name)) ||
  (is_error e && bytes_eqb (upto_nul (t_data (entry_target e))) name).

(** The position of the first element with a property, counted from [i]. *)
Fixpoint find_from {A} (p : A -> bool) (i : nat) (l : list A) : option nat :=
  match l with
  | [] => None
  | x :: l => if p x then Some i else find_from p (S i) l
  end.

Definition find_chain_head (t : connman_iptables) (name : list Z) : option nat := find_from (heads name) 0 (entries t).

Definition find_chain_tail (t : connman_iptables) (name : list Z) : option nat :=
  h ← find_chain_head t name;
  Some (default (length (entries t) - 1)%nat (find_from is_chain (S h) (drop (S h) (entries t)))).

(** ** Offsets and jumps *)

Fixpoint offsets_from (o : Z) (l : list connman_iptables_entry) : list connman_iptables_entry :=
  match l with
  | [] => []
  | e :: l => with_offset o e :: offsets_from (u32 (o + entry_size e)) l
  end.

Definition update_offsets (t : connman_iptables) : connman_iptables := with_entries (offsets_from 0 (entries t)) t.

(** The verdict is an [int], and is compared as unsigned. *)
Definition move_jump (before_offset modified : Z) (is_removing : bool) (e : connman_iptables_entry) : connman_iptables_entry :=
  if is_jump e then
    let v := t_verdict (entry_target e) in
    if is_removing then
      if before_offset <=? u32 v then with_target (set_verdict (s32 (v - modified)) (entry_target e)) e else e
    else
      if before_offset <? u32 v then with_target (set_verdict (s32 (v + modified)) (entry_target e)) e else e
  else e.

(** A rule without a target goes on to the next entry. *)
Definition fall_through (before_offset : Z) (e : connman_iptables_entry) : connman_iptables_entry :=
  if is_fallthrough e then
    let t := entry_target e in
    with_target
      (mk_target standard_target_size (t_name t)
         (s32 (before_offset + target_offset (entry e) + standard_target_size)) (t_data t)) e
  else e.

(** [modified] is the position of the entry, which is in the list. *)
Definition update_targets_reference (t : connman_iptables) (before_offset : Z) (modified : nat) (is_removing : bool) : connman_iptables :=
  match entries t !! modified with
  | Some m => with_entries (alter (fall_through before_offset) modified
                (map (move_jump before_offset (entry_size m) is_removing) (entries t))) t
  | None => t
  end.

(** Insert before the node at a position, [None] being the end. *)
Definition insert_before {A} (before : option nat) (x : A) (l : list A) : list A :=
  match before with
  | Some i => take i l ++ x :: drop i l
  | None => l ++ [x]
  end.

Definition iptables_add_entry (ok : bool) (t : connman_iptables) (e : ipt_entry) (before : option nat) (b idx : Z) : Z * connman_iptables :=
  if negb ok then (- ENOMEM, t)
  else
    let new := mk_entry 0 b idx e in
    let before_offset := i ← before; offset <$> entries t !! i in
    let t := with_size (u32 (num_entries t + 1)) (u32 (size t + next_offset e))
               (with_entries (insert_before before new (entries t)) t) in
    match before, before_offset with
    | Some i, Some o => (0, update_offsets (update_targets_reference t o i false))
    | _, _ => (0, with_entries (alter (with_offset (u32 (size t - next_offset e))) (length (entries t) - 1)%nat (entries t)) t)
    end.

Definition remove_at {A} (i : nat) (l : list A) : list A := take i l ++ drop (S i) l.

(** The entry at a position; the result is its size. *)
Definition remove_table_entry (t : connman_iptables) (i : nat) : option (Z * connman_iptables) :=
  e ← entries t !! i;
  Some (entry_size e,
        with_size (u32 (num_entries t - 1)) (u32 (size t - entry_size e)) (with_entries (remove_at i (entries t)) t)).

(** The hooks that start behind an entry move. *)
Fixpoint move_hooks (l : list connman_iptables_entry) (d : Z) (t : connman_iptables) : connman_iptables :=
  match l with
  | [] => t
  | e :: l =>
      move_hooks l d
        (if builtin e <? 0 then t
         else with_hooks (hook_add (builtin e) d (underflow t)) (hook_add (builtin e) d (hook_entry t)) t)
  end.

Definition delete_update_hooks (t : connman_iptables) (b : Z) (chain_head : nat) (removed : Z) : option connman_iptables :=
  _ ← entries t !! chain_head;
  let t := with_entries (alter (with_builtin b) chain_head (entries t)) t in
  let t := with_hooks (hook_add b (- removed) (underflow t)) (hook_entry t) t in
  Some (move_hooks (drop (S chain_head) (entries t)) (- removed) t).

(** [n] entries from a position on. *)
Fixpoint remove_entries (n i : nat) (removed : Z) (t : connman_iptables) : option (Z * connman_iptables) :=
  match n with
  | O => Some (removed, t)
  | S n => '(r, t) ← remove_table_entry t i; remove_entries n i (s32 (removed + r)) t
  end.

Definition iptables_flush_chain (t : connman_iptables) (name : list Z) : option (Z * connman_iptables) :=
  match find_chain_head t name, find_chain_tail t name with
  | Some chain_head, Some chain_tail =>
      entry ← entries t !! chain_head;
      let b := builtin entry in
      let first := if 0 <=? b then chain_head else S chain_head in
      if (chain_tail =? 0)%nat then if 0 <=? b then None else Some (0, t)
      else
        let last := (chain_tail - 1)%nat in
        if (first =? last)%nat then Some (0, t)
        else if (last <? first)%nat then None
        else
          '(removed, t) ← remove_entries (last - first) first 0 t;
          t ← (if 0 <=? b then delete_update_hooks t b first removed else Some t);
          Some (0, update_offsets t)
  | _, _ => Some (- EINVAL, t)
  end.

(** ** Chains of the user *)

Definition zeros (f : family) : list Z := replicate (Z.to_nat (ip_size f)) 0.

Definition head_entry (f : family) (name : list Z) : ipt_entry :=
  mk_ipt_entry (zeros f) (entry_struct_size f) (entry_struct_size f + error_target_size) []
    (mk_target error_target_size XT_ERROR_TARGET 0 name).

Definition return_entry (f : family) : ipt_entry :=
  mk_ipt_entry (zeros f) (entry_struct_size f) (entry_struct_size f + standard_target_size) []
    (mk_target standard_target_size XT_STANDARD_TARGET XT_RETURN []).

(** [ok n] says whether the n-th allocation succeeds.  The name is copied behind the header of the target,
    and entries that were freed stay in the list when the second half fails. *)
Definition iptables_add_chain (ok : nat -> bool) (t : connman_iptables) (name : list Z) : option (Z * connman_iptables) :=
  match find_chain_head t name with
  | Some _ => Some (- EEXIST, t)
  | None =>
      let last := match length (entries t) with O => None | S n => Some n end in
      if negb (ok 0%nat) then Some (- ENOMEM, t)
      else if error_target_size - entry_target_size <? Z.of_nat (length name) + 1 then None
      else
        let '(err, t1) := iptables_add_entry (ok 1%nat) t (head_entry (type t) name) last (-1) (-1) in
        if err <? 0 then Some (- ENOMEM, t)
        else if negb (ok 2%nat) then None
        else
          let '(err, t2) := iptables_add_entry (ok 3%nat) t1 (return_entry (type t)) (S <$> last) (-1) (-1) in
          if err <? 0 then None else Some (0, t2)
  end.

Definition iptables_delete_chain (t : connman_iptables) (name : list Z) : option (Z * connman_iptables) :=
  match find_chain_head t name, find_chain_tail t name with
  | Some chain_head, Some chain_tail =>
      e ← entries t !! chain_head;
      if 0 <=? builtin e then Some (- EINVAL, t)
      else if (chain_tail =? 0)%nat then None
      else if negb (S chain_head =? chain_tail - 1)%nat then Some (- EINVAL, t)
      else
        '(_, t) ← remove_table_entry t chain_head;
        '(_, t) ← remove_table_entry t chain_head;
        Some (0, update_offsets t)
  | _, _ => Some (- EINVAL, t)
  end.

(** ** Rules *)

Fixpoint matches_size (l : list xt_entry_match) : Z :=
  match l with
  | [] => 0
  | m :: l => match_size m + matches_size l
  end.

(** Without a target the memory behind the matches is zero. *)
Definition no_target : xt_entry_target := mk_target 0 [] 0 [].

Definition new_rule (ok : nat -> bool) (f : family) (ip : list Z) (xt_t : option xt_entry_target) (xt_rm : list xt_entry_match) : option ipt_entry :=
  if negb (ok 0%nat) || negb (ok 1%nat) then None
  else
    let ms := matches_size xt_rm in
    let ts := match xt_t with Some t => target_size t | None => standard_target_size end in
    Some (mk_ipt_entry ip (u16 (entry_struct_size f + ms)) (u16 (entry_struct_size f + ts + ms)) xt_rm
            (default no_target xt_t)).

Definition update_hooks (t : connman_iptables) (chain_head : nat) (new : ipt_entry) : connman_iptables :=
  match entries t !! chain_head with
  | None => t
  | Some head =>
      if builtin head <? 0 then t
      else
        let t := with_hooks (hook_add (builtin head) (next_offset new) (underflow t)) (hook_entry t) t in
        move_hooks (drop (S chain_head) (entries t)) (next_offset new) t
  end.

(** The entry and the hook it becomes the start of, if any. *)
Definition prepare_rule_inclusion (ok : nat -> bool) (t : connman_iptables) (ip : list Z) (chain_name : list Z)
    (xt_t : option xt_entry_target) (xt_rm : list xt_entry_match) (insert : bool) : option (ipt_entry * Z * connman_iptables) :=
  chain_head ← find_chain_head t chain_name;
  chain_tail ← find_chain_tail t chain_name;
  new ← new_rule ok (type t) ip xt_t xt_rm;
  head ← entries t !! chain_head;
  let t := update_hooks t chain_head new in
  if builtin head <? 0 then Some (new, -1, t)
  else if insert || (S chain_head =? chain_tail)%nat
  then Some (new, builtin head, with_entries (alter (with_builtin (-1)) chain_head (entries t)) t)
  else Some (new, -1, t).

Definition iptables_append_rule (ok : nat -> bool) (t : connman_iptables) (ip : list Z) (chain_name : list Z)
    (xt_t : option xt_entry_target) (xt_rm : list xt_entry_match) : option (Z * connman_iptables) :=
  match find_chain_tail t chain_name with
  | None => Some (- EINVAL, t)
  | Some chain_tail =>
      match prepare_rule_inclusion ok t ip chain_name xt_t xt_rm false with
      | None => Some (- EINVAL, t)
      | Some (new, b, t) =>
          let before := match chain_tail with O => None | S n => Some n end in
          Some (iptables_add_entry (ok 2%nat) t new before b (-1))
      end
  end.

Definition iptables_insert_rule (ok : nat -> bool) (t : connman_iptables) (ip : list Z) (chain_name : list Z)
    (xt_t : option xt_entry_target) (xt_rm : list xt_entry_match) : option (Z * connman_iptables) :=
  match find_chain_head t chain_name with
  | None => Some (- EINVAL, t)
  | Some chain_head =>
      match prepare_rule_inclusion ok t ip chain_name xt_t xt_rm true with
      | None => Some (- EINVAL, t)
      | Some (new, b, t) =>
          let pos := if b =? -1 then S chain_head else chain_head in
          let before := if (pos <? length (entries t))%nat then Some pos else None in
          Some (iptables_add_entry (ok 2%nat) t new before b (-1))
      end
  end.

(** ** Finding and deleting a rule *)

Definition is_same_iptables_entry (e1 e2 : ipt_entry) : bool :=
  bytes_eqb (ip e1) (ip e2) && (target_offset e1 =? target_offset e2) && (next_offset e1 =? next_offset e2).

(** The int at the start of the data of a target. *)
Definition verdict_of (t : xt_entry_target) : Z :=
  if bytes_eqb (t_name t) XT_STANDARD_TARGET then t_verdict t
  else match t_data t with
       | a :: b :: c :: d :: _ => s32 (a + 2 ^ 8 * b + 2 ^ 16 * c + 2 ^ 24 * d)
       | _ => 0
       end.

(** [None] when the number of bytes to compare, an unsigned value, wraps around. *)
Definition is_same_target (t1 t2 : xt_entry_target) : option bool :=
  if bytes_eqb (t_name t1) [] && bytes_eqb (t_name t2) [] then Some true
  else if bytes_eqb (t_name t1) XT_STANDARD_TARGET then Some (verdict_of t1 =? verdict_of t2)
  else if negb (target_size t1 =? target_size t2) then Some false
  else if negb (bytes_eqb (t_name t1) (t_name t2)) then Some false
  else if target_size t1 <? standard_target_size then None
  else
    let n := Z.to_nat (target_size t1 - standard_target_size) in
    Some (bytes_eqb (take n (t_data t1)) (take n (t_data t2))).

Definition is_same_match (m1 m2 : xt_entry_match) : option bool :=
  if negb (match_size m1 =? match_size m2) then Some false
  else if negb (m_revision m1 =? m_revision m2) then Some false
  else if negb (bytes_eqb (m_name m1) (m_name m2)) then Some false
  else if match_size m1 <? entry_match_size then None
  else
    let n := Z.to_nat (match_size m1 - entry_match_size) in
    Some (bytes_eqb (take n (m_data m1)) (take n (m_data m2))).

(** Is the entry the rule that is looked for?  Only the first of the matches is compared. *)
Definition same_rule (test : ipt_entry) (xt_t : option xt_entry_target) (xt_rm : list xt_entry_match) (e : ipt_entry) : option bool :=
  if negb (is_same_iptables_entry test e) then Some false
  else
    ts ← match xt_t with Some _ => is_same_target (target e) (target test) | None => Some true end;
    if negb ts then Some false
    else
      match xt_rm, elems e, elems test with
      | [], _, _ => Some true
      | _ :: _, m :: _, m' :: _ => is_same_match m m'
      | _, _, _ => None
      end.

(** Search of the positions from [i] on, [n] of them. *)
Fixpoint search_rule (n i : nat) (p : ipt_entry -> option bool) (l : list connman_iptables_entry) : option (option nat) :=
  match n with
  | O => Some None
  | S n =>
      e ← l !! i;
      same ← p (entry e);
      if (same : bool) then Some (Some i) else search_rule n (S i) p l
  end.

Definition find_existing_rule (ok : nat -> bool) (t : connman_iptables) (ip : list Z) (chain_name : list Z)
    (xt_t : option xt_entry_target) (xt_rm : list xt_entry_match) : option (option nat) :=
  match find_chain_head t chain_name, find_chain_tail t chain_name with
  | Some chain_head, Some chain_tail =>
      match xt_t, xt_rm with
      | None, [] => Some None
      | _, _ =>
          test ← new_rule ok (type t) ip xt_t xt_rm;
          head ← entries t !! chain_head;
          let first := if 0 <=? builtin head then chain_head else S chain_head in
          if (chain_tail =? 0)%nat
          then search_rule (length (entries t) - first) first (same_rule test xt_t xt_rm) (entries t)
          else if (chain_tail <=? first)%nat then None
          else search_rule (chain_tail - 1 - first) first (same_rule test xt_t xt_rm) (entries t)
      end
  | _, _ => Some None
  end.

Definition iptables_delete_rule (ok : nat -> bool) (t : connman_iptables) (ip : list Z) (chain_name : list Z)
    (xt_t : option xt_entry_target) (xt_rm : list xt_entry_match) : option (Z * connman_iptables) :=
  match find_chain_head t chain_name, find_chain_tail t chain_name with
  | Some chain_head, Some chain_tail =>
      rule ← find_existing_rule ok t ip chain_name xt_t xt_rm;
      match rule with
      | None => Some (- EINVAL, t)
      | Some i =>
          head ← entries t !! chain_head;
          let b := builtin head in
          let t := if (0 <=? b) && (i =? chain_head)%nat
                   then with_entries (alter (with_builtin b) (S chain_head) (entries t)) t else t in
          let t := match entries t !! S i with
                   | Some next => update_targets_reference t (offset next) i true
                   | None => t
                   end in
          '(removed, t) ← remove_table_entry t i;
          t ← (if 0 <=? b then delete_update_hooks t b chain_head removed else Some t);
          Some (0, update_offsets t)
      end
  | _, _ => Some (- EINVAL, t)
  end.

Definition iptables_change_policy (t : connman_iptables) (chain_name policy : list Z) : option (Z * connman_iptables) :=
  let verdict := target_to_verdict policy in
  if negb ((verdict =? - NF_ACCEPT - 1) || (verdict =? - NF_DROP - 1)) then Some (- EINVAL, t)
  else
    match find_chain_head t chain_name, find_chain_tail t chain_name with
    | Some chain_head, Some chain_tail =>
        head ← entries t !! chain_head;
        if builtin head <? 0 then Some (- EINVAL, t)
        else
          match chain_tail with
          | O => None
          | S i =>
              e ← entries t !! i;
              let idx := if verdict_of (entry_target e) =? verdict then counter_idx e else -1 in
              let e := with_target (set_verdict verdict (entry_target e)) e in
              Some (0, with_entries (<[i := mk_entry (offset e) (builtin e) idx (entry e)]> (entries t)) t)
          end
    | _, _ => Some (- EINVAL, t)
    end.

(** The standard target of a rule, a verdict or a jump; [None] is a target of an extension. *)
Definition prepare_standard_target (t : connman_iptables) (name : list Z) : option xt_entry_target :=
  if is_builtin_target name
  then Some (mk_target standard_target_size XT_STANDARD_TARGET (target_to_verdict name) [])
  else
    chain_head ← find_chain_head t name;
    rule ← entries t !! S chain_head;
    Some (mk_target standard_target_size XT_STANDARD_TARGET (s32 (offset rule)) []).

(** ** Reading a table *)

(** What the kernel says of a table. *)
Record ipt_info := mk_info {
  i_valid_hooks : Z;
  i_num_entries : Z;
  i_size : Z;
  i_hook_entry : list Z;
  i_underflow : list Z;
  i_entries : list ipt_entry;
}.

(** The number of the lowest bit that is set, and the others; [NF_INET_NUMHOOKS] if there is none. *)
Fixpoint lowest_bit (n : nat) (h : Z) (hooks : Z) : Z :=
  match n with
  | O => NF_INET_NUMHOOKS
  | S n => if Z.testbit hooks h then h else lowest_bit n (h + 1) hooks
  end.

Definition next_hook_entry_index (hooks : Z) : Z * Z :=
  if hooks =? 0 then (NF_INET_NUMHOOKS, hooks)
  else let h := lowest_bit 32 0 hooks in (h, Z.lxor hooks (Z.shiftl 1 h)).

(** The entry at an offset of the memory the kernel has written. *)
Fixpoint entry_at (o : Z) (l : list ipt_entry) : option ipt_entry :=
  match l with
  | [] => None
  | e :: l => if o =? 0 then Some e else if o <? next_offset e then None else entry_at (o - next_offset e) l
  end.

Section iterate.
Context {A : Type}.

(** The callback gets the entry, the hook it starts if any, the hook it belongs to and its offset. *)
Variable cb : A -> ipt_entry -> Z -> Z -> Z -> Z * A.

(** A round; the sum is the end with its result. *)
Definition iterate_step (i : ipt_info) (o h hook hooks : Z) (a : A) : option (Z * A + (Z * Z * Z * Z * A)) :=
  e ← entry_at o (i_entries i);
  let starts := (h <? NF_INET_NUMHOOKS) && bool_decide (i_hook_entry i !! Z.to_nat h = Some o) in
  let b := if starts then h else -1 in
  let hook := if starts then h else hook in
  let hook := if h =? NF_INET_NUMHOOKS then h else hook in
  let ends := (h <? NF_INET_NUMHOOKS) &&
              match i_underflow i !! Z.to_nat h with Some u => u <=? o | None => false end in
  let '(h, hooks) := if ends then next_hook_entry_index hooks else (h, hooks) in
  let '(err, a) := cb a e b hook o in
  if err <? 0 then Some (inl (err, a)) else Some (inr (u32 (o + next_offset e), h, hook, hooks, a)).

Fixpoint iterate_loop (fuel : nat) (i : ipt_info) (o h hook hooks : Z) (a : A) : option (Z * A) :=
  match fuel with
  | O => None
  | S fuel =>
      if o <? i_size i then
        r ← iterate_step i o h hook hooks a;
        match r with
        | inl r => Some r
        | inr (o, h, hook, hooks, a) => iterate_loop fuel i o h hook hooks a
        end
      else Some (0, a)
  end.

Definition iterate_entries (i : ipt_info) (a : A) : option (Z * A) :=
  let '(h, hooks) := next_hook_entry_index (i_valid_hooks i) in
  iterate_loop (S (length (i_entries i))) i 0 h h hooks a.

End iterate.

Definition add_entry (ok : bool) (t : connman_iptables) (e : ipt_entry) (b hook o : Z) : Z * connman_iptables :=
  if negb ok then (- ENOMEM, t) else iptables_add_entry ok t e None b (num_entries t).

(** The result of the iteration is not looked at. *)
Definition iptables_init (ok : bool) (f : family) (i : ipt_info) : option connman_iptables :=
  let t := mk_table f (i_valid_hooks i) (i_num_entries i) 0 0 (i_underflow i) (i_hook_entry i) [] in
  snd <$> iterate_entries (add_entry ok) i t.

(** [iterate_chains_cb]: the names of the chains, in order. *)
Definition iterate_chains_cb (i : ipt_info) (names : list (list Z)) (e : ipt_entry) (b hook o : Z) : Z * list (list Z) :=
  if o + next_offset e =? i_size i then (0, names)
  else if bytes_eqb (t_name (target e)) XT_ERROR_TARGET then (0, names ++ [upto_nul (t_data (target e))])
  else if 0 <=? b then (0, names ++ [default [] (hooknames !! Z.to_nat b)])
  else (0, names).

Definition iterate_chains (i : ipt_info) : option (list (list Z)) := snd <$> iterate_entries (iterate_chains_cb i) i [].

(** ** Writing a table *)

Record replace := mk_replace {
  r_valid_hooks : Z;
  r_num_entries : Z;
  r_size : Z;
  r_hook_entry : list Z;
  r_underflow : list Z;
  r_num_counters : Z;
  r_entries : list ipt_entry;
}.

Fixpoint total_size (l : list connman_iptables_entry) : Z :=
  match l with
  | [] => 0
  | e :: l => entry_size e + total_size l
  end.

(** The entries are copied one after the other into a buffer of the size of the table. *)
Definition iptables_blob (t : connman_iptables) : option replace :=
  if size t <? total_size (entries t) then None
  else Some (mk_replace (valid_hooks t) (num_entries t) (size t) (hook_entry t) (underflow t) (old_entries t)
               (map entry (entries t))).

(** The counters for the new table, from those of the old one. *)
Fixpoint new_counters (old : list (Z * Z)) (l : list connman_iptables_entry) : option (list (Z * Z)) :=
  match l with
  | [] => Some []
  | e :: l =>
      c ← (if 0 <=? counter_idx e then old !! Z.to_nat (counter_idx e) else Some (0, 0));
      cs ← new_counters old l;
      Some (c :: cs)
  end.

End Iptables.
