(* ===== verification/IptablesProps.v ===== *)
(** * Properties of netfilter tables

    A table is specified by its chains, with jumps by name.  The functions that edit the sequence of
    entries, with its offsets, verdicts and hooks, implement the obvious changes of the chains. *)

From S2P Require Import Prelude Inet Buffer Iptables.
From stdpp Require Import list.
Import Iptables.
Open Scope Z_scope.

Module IptablesProps.

(** ** Chains *)

(** Where an entry leads: a verdict or an extension as it is, the chain of a name, or the next entry. *)
Inductive link := Fixed | Jump (name : list Z) | Next.

(** The verdict of the entry is that of the link. *)
Record item := mk_item { i_raw : ipt_entry; i_idx : Z; i_link : link }.

(** A chain of the kernel has a hook, a chain of the user has a head with its name. *)
Record chain := mk_chain {
  c_hook : Z;
  c_name : list Z;
  c_head : list item;
  c_rules : list item;
  c_foot : item;
}.

Record atable := mk_atable { a_chains : list chain; a_final : item }.

Definition item_size (x : item) : Z := next_offset (i_raw x).

Fixpoint items_size (l : list item) : Z :=
  match l with
  | [] => 0
  | x :: l => item_size x + items_size l
  end.

Definition chain_items (c : chain) : list item := c_head c ++ c_rules c ++ [c_foot c].

(** The entries with the hooks they start. *)
Definition mark (h : Z) (l : list item) : list (item * Z) :=
  match l with
  | [] => []
  | x :: l => (x, h) :: map (fun x => (x, -1)) l
  end.

Definition flat_chain (c : chain) : list (item * Z) := mark (c_hook c) (chain_items c).
Definition flat (a : atable) : list (item * Z) := concat (map flat_chain (a_chains a)) ++ [(a_final a, -1)].

Fixpoint flat_size (l : list (item * Z)) : Z :=
  match l with
  | [] => 0
  | (x, _) :: l => item_size x + flat_size l
  end.

(** ** Layout *)

Definition is_head (name : list Z) (x : item) : bool :=
  bytes_eqb (t_name (target (i_raw x))) XT_ERROR_TARGET && bytes_eqb (upto_nul (t_data (target (i_raw x)))) name.

(** The offset of the entry behind the head of a chain. *)
Fixpoint start_of (name : list Z) (o : Z) (l : list (item * Z)) : Z :=
  match l with
  | [] => 0
  | (x, _) :: l => if is_head name x then o + item_size x else start_of name (o + item_size x) l
  end.

Definition put_verdict (v : Z) (e : ipt_entry) : ipt_entry :=
  mk_ipt_entry (ip e) (target_offset e) (next_offset e) (elems e) (set_verdict v (target e)).

Definition resolve (g : list (item * Z)) (o : Z) (x : item) : ipt_entry :=
  match i_link x with
  | Fixed => i_raw x
  | Jump name => put_verdict (start_of name 0 g) (i_raw x)
  | Next => put_verdict (o + item_size x) (i_raw x)
  end.

Fixpoint encode_from (g : list (item * Z)) (o : Z) (l : list (item * Z)) : list connman_iptables_entry :=
  match l with
  | [] => []
  | (x, b) :: l => mk_entry o b (i_idx x) (resolve g o x) :: encode_from g (o + item_size x) l
  end.

Definition encode (g : list (item * Z)) : list connman_iptables_entry := encode_from g 0 g.

(** ** Well-formed tables *)

Definition standard (e : ipt_entry) : Prop := t_name (target e) = XT_STANDARD_TARGET.

Record item_ok (g : list (item * Z)) (x : item) : Prop := {
  item_pos : 0 < item_size x;
  item_fixed : i_link x = Fixed -> standard (i_raw x) -> no_jump (t_verdict (target (i_raw x))) = true;
  item_linked : i_link x <> Fixed -> standard (i_raw x);
  item_jump name : i_link x = Jump name -> existsb (fun y => is_head name y.1) g = true;
}.

Definition flat_ok (g : list (item * Z)) : Prop :=
  Forall (fun y => item_ok g y.1) g /\ flat_size g < 2 ^ 31.

Lemma flat_size_app l1 l2 : flat_size (l1 ++ l2) = flat_size l1 + flat_size l2.
Proof. induction l1 as [|[x b] l1 IH]; cbn; [done|lia]. Qed.

Lemma encode_from_app g o l1 l2 : encode_from g o (l1 ++ l2) = encode_from g o l1 ++ encode_from g (o + flat_size l1) l2.
Proof.
  revert o. induction l1 as [|[x b] l1 IH]; intros o; cbn [encode_from app flat_size]; [f_equal; lia|].
  rewrite IH. do 3 f_equal. lia.
Qed.

Lemma length_encode g o l : length (encode_from g o l) = length l.
Proof. revert o. induction l as [|[x b] l IH]; intros o; cbn; [done|]. by rewrite IH. Qed.

Lemma resolve_size g o x : next_offset (resolve g o x) = item_size x.
Proof. unfold resolve. by destruct (i_link x). Qed.

Lemma flat_size_nonneg g l : Forall (fun y => item_ok g y.1) l -> 0 <= flat_size l.
Proof. induction 1 as [|[x b] l [Hx _ _ _] Hl IH]; cbn in *; lia. Qed.

(** A head is found in the first or in the second part. *)
Lemma start_of_app name o l1 l2 :
  start_of name o (l1 ++ l2) =
  if existsb (fun y => is_head name y.1) l1 then start_of name o l1 else start_of name (o + flat_size l1) l2.
Proof.
  revert o. induction l1 as [|[x b] l1 IH]; intros o; cbn [start_of app existsb flat_size fst]; [f_equal; lia|].
  destruct (is_head name x); [done|]. cbn [orb]. rewrite IH. destruct (existsb _ l1); [done|]. f_equal. lia.
Qed.

Lemma start_of_shift name o d l :
  existsb (fun y => is_head name y.1) l = true -> start_of name (o + d) l = start_of name o l + d.
Proof.
  revert o. induction l as [|[x b] l IH]; intros o; cbn [start_of existsb fst]; [done|].
  destruct (is_head name x); cbn [orb]; [lia|]. intros H. rewrite <- IH by done. f_equal. lia.
Qed.

Lemma start_of_range name g o l :
  Forall (fun y => item_ok g y.1) l -> existsb (fun y => is_head name y.1) l = true ->
  o < start_of name o l <= o + flat_size l.
Proof.
  intros Hl. revert o. induction Hl as [|[x b] l [Hx _ _ _] Hl IH]; intros o; cbn [start_of existsb fst flat_size] in *; [done|].
  pose proof (flat_size_nonneg g l Hl). destruct (is_head name x); cbn [orb]; [lia|]. intros H'. specialize (IH (o + item_size x) H'). lia.
Qed.

(** ** Moving the jumps

    A change moves every position [v] of the table to [mv v]. *)

Definition holds_verdict (v : Z) (e : connman_iptables_entry) : Prop :=
  t_name (entry_target e) = XT_STANDARD_TARGET /\ t_verdict (entry_target e) = v.

Section moved.
Variables (f : connman_iptables_entry -> connman_iptables_entry) (mv : Z -> Z) (g g' : list (item * Z)).
Hypothesis f_other : forall e, is_jump e = false -> f e = e.
Hypothesis f_jump : forall e v, holds_verdict v e -> 0 < v <= flat_size g -> f e = with_target (set_verdict (mv v) (entry_target e)) e.
Hypothesis start_moved : forall name, existsb (fun y => is_head name y.1) g = true -> start_of name 0 g' = mv (start_of name 0 g).
Hypothesis g_ok : flat_ok g.

Lemma moved_item o o' b x :
  item_ok g x -> 0 <= o -> o + item_size x <= flat_size g -> mv (o + item_size x) = o' + item_size x ->
  with_offset o' (f (mk_entry o b (i_idx x) (resolve g o x))) = mk_entry o' b (i_idx x) (resolve g' o' x).
Proof.
  intros [Hp Hf Hl Hj] Ho Hs Hm. set (e := mk_entry o b (i_idx x) (resolve g o x)).
  destruct (i_link x) as [|name|] eqn:El.
  - assert (He : e = mk_entry o b (i_idx x) (i_raw x)) by (unfold e, resolve; by rewrite El).
    rewrite f_other, He; [unfold resolve; by rewrite El|]. unfold is_jump, entry_target. rewrite He. cbn [entry].
    destruct (bytes_eqb (t_name (target (i_raw x))) XT_STANDARD_TARGET) eqn:Es; [|done].
    apply bool_decide_eq_true_1 in Es. by rewrite (Hf eq_refl Es).
  - assert (Hst := Hl ltac:(done)). specialize (Hj name eq_refl).
    pose proof (start_of_range name g 0 g (proj1 g_ok) Hj) as Hr. pose proof (proj2 g_ok).
    rewrite (f_jump e (start_of name 0 g)); [|split; unfold e, entry_target, resolve; by rewrite El|lia].
    rewrite <- start_moved by done. unfold e, resolve. by rewrite El.
  - assert (Hst := Hl ltac:(done)).
    rewrite (f_jump e (o + item_size x)); [|split; unfold e, entry_target, resolve; by rewrite El|lia].
    rewrite Hm. unfold e, resolve. by rewrite El.
Qed.

Lemma moved l o o' :
  Forall (fun y => item_ok g y.1) l -> 0 <= o -> 0 <= o' -> o + flat_size l <= flat_size g -> o' + flat_size l < 2 ^ 32 ->
  (forall v, o < v <= o + flat_size l -> mv v = v + (o' - o)) ->
  offsets_from o' (map f (encode_from g o l)) = encode_from g' o' l.
Proof.
  intros Hl. revert o o'. induction Hl as [|[x b] l Hx Hl IH]; intros o o' Ho Ho' Hs Hs' Hm; [done|].
  cbn [encode_from map offsets_from flat_size fst] in *. pose proof (flat_size_nonneg g l Hl). pose proof (item_pos _ _ Hx).
  assert (E : with_offset o' (f (mk_entry o b (i_idx x) (resolve g o x))) = mk_entry o' b (i_idx x) (resolve g' o' x)).
  { apply moved_item; [done|lia|lia|]. rewrite Hm by lia. lia. }
  rewrite E. f_equal.
  assert (Es : entry_size (f (mk_entry o b (i_idx x) (resolve g o x))) = item_size x).
  { change (entry_size (with_offset o' (f (mk_entry o b (i_idx x) (resolve g o x)))) = item_size x). rewrite E. apply resolve_size. }
  rewrite Es, u32_small by lia. apply IH; [lia..|]. intros v Hv. rewrite Hm by lia. lia.
Qed.
End moved.

Lemma move_jump_other o m r e : is_jump e = false -> move_jump o m r e = e.
Proof. unfold move_jump. by intros ->. Qed.

Lemma jump_of v e : holds_verdict v e -> 0 <= v -> is_jump e = true.
Proof.
  intros [Hn Hv] Hp. unfold is_jump, no_jump. rewrite Hn, Hv. unfold XT_RETURN, NF_REPEAT, NF_ACCEPT, NF_DROP, NF_QUEUE, NF_STOP.
  rewrite bytes_eqb_refl. cbn [andb].
  repeat (match goal with |- context [v =? ?k] => destruct (Z.eqb_spec v k); [lia|] end). done.
Qed.

Lemma with_same_target e : with_target (set_verdict (t_verdict (entry_target e)) (entry_target e)) e = e.
Proof. by destruct e as [o b i [? ? ? ? []]]. Qed.

Definition shift_up (o m v : Z) : Z := if o <? v then v + m else v.
Definition shift_down (o m v : Z) : Z := if o <=? v then v - m else v.

Lemma move_jump_insert o m e v :
  0 <= m -> v + m < 2 ^ 31 -> holds_verdict v e -> 0 < v < 2 ^ 31 ->
  move_jump o m false e = with_target (set_verdict (shift_up o m v) (entry_target e)) e.
Proof.
  intros Hm Hs Hv Hr. unfold move_jump, shift_up. rewrite (jump_of v e Hv), (proj2 Hv), u32_small by lia.
  destruct (o <? v); [by rewrite s32_small by lia|]. rewrite <- (proj2 Hv). by rewrite with_same_target.
Qed.

Lemma move_jump_remove o m e v :
  0 <= m -> m <= o -> holds_verdict v e -> 0 < v < 2 ^ 31 ->
  move_jump o m true e = with_target (set_verdict (shift_down o m v) (entry_target e)) e.
Proof.
  intros Hm Ho Hv Hr. unfold move_jump, shift_down. rewrite (jump_of v e Hv), (proj2 Hv), u32_small by lia.
  destruct (Z.leb_spec o v); [by rewrite s32_small by lia|]. rewrite <- (proj2 Hv). by rewrite with_same_target.
Qed.

(** ** Inserting an entry *)

(** The entry that is handed over for an item: a jump has the offset of its chain before the change, and a
    rule without target the verdict 0. *)
Definition given (g : list (item * Z)) (y : item) (e : ipt_entry) : Prop :=
  match i_link y with
  | Fixed => e = i_raw y
  | Jump name => e = put_verdict (start_of name 0 g) (i_raw y)
  | Next => target e = no_target /\ next_offset e = target_offset e + standard_target_size /\
      i_raw y = mk_ipt_entry (ip e) (target_offset e) (next_offset e) (elems e) (mk_target standard_target_size [] 0 [])
  end.

Lemma given_size g y e : given g y e -> next_offset e = item_size y.
Proof. unfold given, item_size. destruct (i_link y); [by intros ->|by intros ->|]. by intros (_ & _ & ->). Qed.

Definition no_head (x : item) : Prop := t_name (target (i_raw x)) <> XT_ERROR_TARGET.

Lemma no_head_is_head name x : no_head x -> is_head name x = false.
Proof. intros H. unfold is_head, bytes_eqb. by rewrite bool_decide_eq_false_2. Qed.

(** The entry is not the head of a chain that is there already. *)
Definition unnamed (g : list (item * Z)) (y : item) : Prop :=
  forall name, existsb (fun z => is_head name z.1) g = true -> is_head name y = false.

Lemma no_head_unnamed g y : no_head y -> unnamed g y.
Proof. intros H name _. by apply no_head_is_head. Qed.

Lemma existsb_insert name l1 l2 y b :
  is_head name y = false ->
  existsb (fun z : item * Z => is_head name z.1) (l1 ++ (y, b) :: l2) = existsb (fun z => is_head name z.1) (l1 ++ l2).
Proof. intros H. rewrite !existsb_app. cbn. by rewrite H. Qed.

Lemma start_insert name l1 l2 y b :
  Forall (fun z => item_ok (l1 ++ l2) z.1) (l1 ++ l2) -> unnamed (l1 ++ l2) y -> 0 <= item_size y ->
  existsb (fun z => is_head name z.1) (l1 ++ l2) = true ->
  start_of name 0 (l1 ++ (y, b) :: l2) = shift_up (flat_size l1) (item_size y) (start_of name 0 (l1 ++ l2)).
Proof.
  intros Hok Hh Hy He. specialize (Hh name He). apply Forall_app in Hok as [H1 H2]. rewrite existsb_app in He. rewrite !start_of_app.
  destruct (existsb _ l1) eqn:E1.
  - pose proof (start_of_range name _ 0 l1 H1 E1). unfold shift_up. destruct (Z.ltb_spec (flat_size l1) (start_of name 0 l1)); lia.
  - cbn [start_of]. rewrite Hh. cbn [orb] in He.
    rewrite start_of_shift by done. pose proof (start_of_range name _ (0 + flat_size l1) l2 H2 He).
    unfold shift_up. destruct (Z.ltb_spec (flat_size l1) (start_of name (0 + flat_size l1) l2)); lia.
Qed.

(** What becomes of the new entry itself. *)
Lemma inserted_entry l1 l2 y b e idx :
  let g := l1 ++ l2 in let o := flat_size l1 in
  flat_ok g -> item_ok g y -> unnamed g y -> given g y e -> i_idx y = idx -> flat_size g + item_size y < 2 ^ 31 ->
  with_offset o (fall_through o (move_jump o (next_offset e) false (mk_entry 0 b idx e))) =
  mk_entry o b idx (resolve (l1 ++ (y, b) :: l2) o y).
Proof.
  intros g o [Hok Hsz] Hy Hh Hg Hidx Hs. assert (Ho : 0 <= o).
  { unfold o. apply (flat_size_nonneg g). unfold g in Hok. by apply Forall_app in Hok as [? _]. }
  assert (Hog : o <= flat_size g).
  { unfold o, g. rewrite flat_size_app. apply Forall_app in Hok as [_ H2]. pose proof (flat_size_nonneg _ _ H2). lia. }
  pose proof (given_size g y e Hg) as Hsize. destruct Hy as [Hp Hf Hl Hj]. unfold given in Hg.
  destruct (i_link y) as [|name|] eqn:El.
  - subst e. assert (Hn : is_jump (mk_entry 0 b idx (i_raw y)) = false).
    { unfold is_jump, entry_target. cbn [entry]. destruct (bytes_eqb _ XT_STANDARD_TARGET) eqn:Es; [|done].
      apply bool_decide_eq_true_1 in Es. by rewrite (Hf eq_refl Es). }
    rewrite move_jump_other by done. unfold fall_through.
    assert (Hft : is_fallthrough (mk_entry 0 b idx (i_raw y)) = false).
    { unfold is_fallthrough. unfold is_jump in Hn. destruct (bytes_eqb _ XT_STANDARD_TARGET); [|done]. cbn [andb] in *.
      destruct (Z.eqb_spec (t_verdict (entry_target (mk_entry 0 b idx (i_raw y)))) 0) as [E|]; [|done]. by rewrite E in Hn. }
    rewrite Hft. unfold resolve. by rewrite El.
  - assert (Hst := Hl ltac:(done)). specialize (Hj name eq_refl).
    pose proof (start_of_range name g 0 g Hok Hj) as Hr.
    assert (Hv : holds_verdict (start_of name 0 g) (mk_entry 0 b idx e)) by (by subst e).
    rewrite (move_jump_insert o (next_offset e) _ (start_of name 0 g)); [|lia|lia|done|lia].
    set (v := shift_up o (next_offset e) (start_of name 0 g)).
    assert (Hv' : 0 < v) by (unfold v, shift_up; case_match; lia).
    unfold fall_through, is_fallthrough. subst e. cbn. rewrite (proj2 (Z.eqb_neq v 0)) by lia. rewrite andb_false_r.
    unfold with_offset, with_target. cbn. f_equal. unfold resolve. rewrite El. unfold put_verdict. f_equal. unfold set_verdict. cbn. f_equal.
    unfold v, o, g. rewrite start_insert by (done || lia). done.
  - destruct Hg as (Ht & Hn & Hraw). assert (Hst := Hl ltac:(done)).
    assert (Hv : holds_verdict 0 (mk_entry 0 b idx e)) by (unfold holds_verdict, entry_target; cbn; by rewrite Ht).
    assert (Hmv : move_jump o (next_offset e) false (mk_entry 0 b idx e) = mk_entry 0 b idx e).
    { unfold move_jump. rewrite (jump_of 0 _ Hv), (proj2 Hv) by done. change (u32 0) with 0. by rewrite (proj2 (Z.ltb_ge o 0)). }
    rewrite Hmv. unfold fall_through, is_fallthrough. rewrite (proj1 Hv), (proj2 Hv), bytes_eqb_refl. cbn [andb Z.eqb].
    unfold with_offset, with_target. cbn. f_equal. unfold resolve. rewrite El, Hraw. unfold put_verdict. cbn. f_equal.
    unfold entry_target. cbn. rewrite Ht. unfold set_verdict. cbn. f_equal. rewrite <- Z.add_assoc, <- Hn, Hsize. apply s32_small. lia.
Qed.

Lemma lookup_encode g l1 x b l2 :
  encode_from g 0 (l1 ++ (x, b) :: l2) !! length l1 = Some (mk_entry (flat_size l1) b (i_idx x) (resolve g (flat_size l1) x)).
Proof.
  rewrite encode_from_app, lookup_app_r by (by rewrite length_encode). rewrite length_encode, Nat.sub_diag. done.
Qed.

Lemma offsets_from_app o l1 l2 :
  offsets_from o (l1 ++ l2) = offsets_from o l1 ++ offsets_from (foldl (fun a e => u32 (a + entry_size e)) o l1) l2.
Proof. revert o. induction l1 as [|e l1 IH]; intros o; cbn; [done|]. by rewrite IH. Qed.

Lemma fold_sizes l g o d :
  Forall (fun y => item_ok g y.1) l -> 0 <= o -> o + flat_size l < 2 ^ 32 ->
  foldl (fun a e => u32 (a + entry_size e)) o (encode_from g d l) = o + flat_size l.
Proof.
  intros Hl. revert o d. induction Hl as [|[x b] l Hx Hl IH]; intros o d Ho Hs; cbn [encode_from foldl flat_size fst] in *; [lia|].
  pose proof (flat_size_nonneg g l Hl). pose proof (item_pos _ _ Hx).
  change (entry_size (mk_entry d b (i_idx x) (resolve g d x))) with (next_offset (resolve g d x)).
  rewrite resolve_size, u32_small by lia. rewrite IH by lia. lia.
Qed.

Lemma size_move o m r e : entry_size (move_jump o m r e) = entry_size e.
Proof. unfold move_jump. destruct (is_jump e); [|done]. destruct r; by case_match. Qed.

Lemma fold_sizes_map o m r a l :
  foldl (fun a e => u32 (a + entry_size e)) a (map (move_jump o m r) l) = foldl (fun a e => u32 (a + entry_size e)) a l.
Proof. revert a. induction l as [|e l IH]; intros a; cbn; [done|]. by rewrite size_move, IH. Qed.

Lemma item_ok_insert l1 l2 y b x : no_head y -> item_ok (l1 ++ l2) x <-> item_ok (l1 ++ (y, b) :: l2) x.
Proof.
  intros Hy. split; intros [H1 H2 H3 H4]; split; try done; intros name E; specialize (H4 name E).
  - by rewrite existsb_insert; [|apply no_head_is_head].
  - by rewrite existsb_insert in H4; [|apply no_head_is_head].
Qed.

(** The entries once the new one is in place, the jumps are moved and the offsets are counted. *)
Lemma insert_encode l1 x bx l2 y b e idx :
  let g := l1 ++ (x, bx) :: l2 in
  flat_ok g -> item_ok g y -> unnamed g y -> given g y e -> i_idx y = idx -> flat_size g + item_size y < 2 ^ 31 ->
  offsets_from 0 (alter (fall_through (flat_size l1)) (length l1)
    (map (move_jump (flat_size l1) (next_offset e) false)
       (insert_before (Some (length l1)) (mk_entry 0 b idx e) (encode g)))) =
  encode (l1 ++ (y, b) :: (x, bx) :: l2).
Proof.
  intros g Hok Hy Hh Hg Hidx Hs. set (rest := (x, bx) :: l2). set (g' := l1 ++ (y, b) :: rest).
  pose proof Hok as [Hall Hsz]. unfold g in Hall. apply Forall_app in Hall as [H1 H2]. fold rest g in H1, H2.
  assert (Hn1 := flat_size_nonneg _ _ H1). assert (Hn2 := flat_size_nonneg _ _ H2).
  assert (Hsum : flat_size g = flat_size l1 + flat_size rest) by (unfold g; by rewrite flat_size_app).
  pose proof (given_size g y e Hg) as Hsize. pose proof (item_pos _ _ Hy).
  set (f := move_jump (flat_size l1) (next_offset e) false).
  set (mv := shift_up (flat_size l1) (next_offset e)).
  assert (Hother : forall e0, is_jump e0 = false -> f e0 = e0) by (intros; by apply move_jump_other).
  assert (Hstart : forall name, existsb (fun z => is_head name z.1) g = true -> start_of name 0 g' = mv (start_of name 0 g)).
  { intros name Hn. unfold mv. rewrite Hsize. apply start_insert; [by apply Forall_app|done|lia|done]. }
  assert (Hjump : forall e0 v, holds_verdict v e0 -> 0 < v <= flat_size g -> f e0 = with_target (set_verdict (mv v) (entry_target e0)) e0).
  { intros e0 v Hv Hr. apply move_jump_insert; [lia|lia|done|lia]. }
  unfold encode, insert_before. replace (encode_from g 0 g) with (encode_from g 0 l1 ++ encode_from g (flat_size l1) rest)
    by (unfold g at 4; by rewrite encode_from_app).
  rewrite take_app_length', drop_app_length' by (by rewrite length_encode).
  rewrite map_app. cbn [map]. fold f. rewrite alter_app_r_alt by (by rewrite length_map, length_encode).
  rewrite length_map, length_encode, Nat.sub_diag.
  change (alter (fall_through (flat_size l1)) 0%nat (f (mk_entry 0 b idx e) :: map f (encode_from g (flat_size l1) rest)))
    with (fall_through (flat_size l1) (f (mk_entry 0 b idx e)) :: map f (encode_from g (flat_size l1) rest)).
  rewrite offsets_from_app. replace (foldl _ 0 (map f (encode_from g 0 l1))) with (flat_size l1)
    by (unfold f; rewrite fold_sizes_map, (fold_sizes l1 g) by (done || lia); lia).
  cbn [offsets_from]. fold g'. unfold g' at 2. rewrite encode_from_app. cbn [encode_from]. f_equal; [|f_equal].
  - apply (moved f mv g g'); [done..|lia|lia|lia|lia|]. intros v Hv. unfold mv, shift_up.
    destruct (Z.ltb_spec (flat_size l1) v); lia.
  - rewrite Hidx. apply (inserted_entry l1 rest y b e idx); done.
  - assert (Es : entry_size (fall_through (flat_size l1) (f (mk_entry 0 b idx e))) = item_size y).
    { rewrite <- Hsize. change (next_offset e) with (entry_size (mk_entry 0 b idx e)). unfold fall_through.
      destruct (is_fallthrough _); apply size_move. }
    rewrite Es, u32_small by lia. apply (moved f mv g g'); [done..|lia|lia|lia|lia|]. intros v Hv. unfold mv, shift_up.
    destruct (Z.ltb_spec (flat_size l1) v); lia.
Qed.

Lemma start_remove name l1 l2 y b :
  Forall (fun z => item_ok (l1 ++ l2) z.1) (l1 ++ l2) -> no_head y -> 0 < item_size y ->
  existsb (fun z => is_head name z.1) (l1 ++ l2) = true ->
  start_of name 0 (l1 ++ l2) = shift_down (flat_size l1 + item_size y) (item_size y) (start_of name 0 (l1 ++ (y, b) :: l2)).
Proof.
  intros Hok Hh Hy He. rewrite start_insert by (done || lia || by apply no_head_unnamed). unfold shift_up, shift_down.
  destruct (Z.ltb_spec (flat_size l1) (start_of name 0 (l1 ++ l2))).
  - destruct (Z.leb_spec (flat_size l1 + item_size y) (start_of name 0 (l1 ++ l2) + item_size y)); lia.
  - destruct (Z.leb_spec (flat_size l1 + item_size y) (start_of name 0 (l1 ++ l2))); lia.
Qed.

(** The entries once one is taken away. *)
Lemma remove_encode l1 y b x bx l2 :
  let g := l1 ++ (y, b) :: (x, bx) :: l2 in
  flat_ok g -> no_head y ->
  offsets_from 0 (remove_at (length l1) (map (move_jump (flat_size l1 + item_size y) (item_size y) true) (encode g))) =
  encode (l1 ++ (x, bx) :: l2).
Proof.
  intros g Hok Hh. set (rest := (x, bx) :: l2). set (g' := l1 ++ rest).
  pose proof Hok as [Hall Hsz]. unfold g in Hall. apply Forall_app in Hall as [H1 H2].
  apply Forall_cons_1 in H2 as [Hy H2]. fold rest g in H1, H2, Hy. cbn [fst] in Hy. pose proof (item_pos _ _ Hy).
  assert (Hn1 := flat_size_nonneg _ _ H1). assert (Hn2 := flat_size_nonneg _ _ H2).
  assert (Hsum : flat_size g = flat_size l1 + (item_size y + flat_size rest)) by (unfold g; by rewrite flat_size_app).
  set (f := move_jump (flat_size l1 + item_size y) (item_size y) true).
  set (mv := shift_down (flat_size l1 + item_size y) (item_size y)).
  assert (Hok' : Forall (fun z => item_ok g' z.1) (l1 ++ rest)).
  { apply Forall_app_2; (eapply Forall_impl; [eassumption|]); intros z Hz; unfold g'; by rewrite (item_ok_insert l1 rest y b). }
  assert (Hother : forall e0, is_jump e0 = false -> f e0 = e0) by (intros; by apply move_jump_other).
  assert (Hstart : forall name, existsb (fun z => is_head name z.1) g = true -> start_of name 0 g' = mv (start_of name 0 g)).
  { intros name Hn. unfold g in Hn. rewrite existsb_insert in Hn by (by apply no_head_is_head).
    apply start_remove; [done|done|lia|done]. }
  assert (Hjump : forall e0 v, holds_verdict v e0 -> 0 < v <= flat_size g -> f e0 = with_target (set_verdict (mv v) (entry_target e0)) e0).
  { intros e0 v Hv Hr. apply move_jump_remove; [lia|lia|done|lia]. }
  unfold encode. replace (encode_from g 0 g) with (encode_from g 0 l1 ++
      mk_entry (flat_size l1) b (i_idx y) (resolve g (flat_size l1) y) :: encode_from g (flat_size l1 + item_size y) rest)
    by (unfold g at 5; by rewrite encode_from_app).
  unfold remove_at. rewrite map_app. cbn [map].
  rewrite take_app_length' by (by rewrite length_map, length_encode).
  rewrite cons_middle, app_assoc, drop_app_length' by (rewrite length_app, length_map, length_encode; cbn; lia).
  rewrite offsets_from_app. replace (foldl _ 0 (map f (encode_from g 0 l1))) with (flat_size l1)
    by (unfold f; rewrite fold_sizes_map, (fold_sizes l1 g) by (done || lia); lia).
  fold g'. unfold g' at 2. rewrite encode_from_app. f_equal.
  - apply (moved f mv g g'); [done..|lia|lia|lia|lia|]. intros v Hv. unfold mv, shift_down.
    destruct (Z.leb_spec (flat_size l1 + item_size y) v); lia.
  - apply (moved f mv g g'); [done..|lia|lia|lia|lia|]. intros v Hv. unfold mv, shift_down.
    destruct (Z.leb_spec (flat_size l1 + item_size y) v); lia.
Qed.

(** ** Well-formed chains *)

Definition head_of (name : list Z) (x : item) : Prop := is_head name x = true /\ i_link x = Fixed.

Record chain_ok (c : chain) : Prop := {
  ok_kind : (0 <= c_hook c /\ c_head c = [] /\ hooknames !! Z.to_nat (c_hook c) = Some (c_name c)) \/
    (c_hook c = -1 /\ (exists x, c_head c = [x] /\ head_of (c_name c) x) /\ (c_name c ∉ hooknames));
  ok_plain : Forall no_head (c_rules c ++ [c_foot c]);
  ok_foot : i_link (c_foot c) = Fixed;
}.

Definition flats (cs : list chain) : list (item * Z) := concat (map flat_chain cs).

Record table_ok (a : atable) : Prop := {
  ok_flat : flat_ok (flat a);
  ok_chains : Forall chain_ok (a_chains a);
  ok_names : NoDup (XT_ERROR_TARGET :: map c_name (a_chains a));
  ok_final : head_of XT_ERROR_TARGET (a_final a);
  ok_order c1 c c2 : a_chains a = c1 ++ c :: c2 -> c_hook c < 0 -> Forall (fun d => c_hook d < 0) c2;
}.

(** The hooks start and end where the chains of the kernel do. *)
Definition hooks_ok (a : atable) (t : connman_iptables) : Prop :=
  forall c1 c c2, a_chains a = c1 ++ c :: c2 -> 0 <= c_hook c ->
    hook_entry t !! Z.to_nat (c_hook c) = Some (flat_size (flats c1)) /\
    underflow t !! Z.to_nat (c_hook c) = Some (flat_size (flats c1) + items_size (c_rules c)).

(** The table in memory is that of the chains. *)
Record represents (t : connman_iptables) (a : atable) : Prop := {
  rep_entries : entries t = encode (flat a);
  rep_num : num_entries t = Z.of_nat (length (flat a));
  rep_size : size t = flat_size (flat a);
  rep_hooks : hooks_ok a t;
}.

Lemma flats_app c1 c2 : flats (c1 ++ c2) = flats c1 ++ flats c2.
Proof. unfold flats. by rewrite map_app, concat_app. Qed.

Lemma flat_split a c1 c c2 :
  a_chains a = c1 ++ c :: c2 -> flat a = flats c1 ++ flat_chain c ++ flats c2 ++ [(a_final a, -1)].
Proof. intros E. unfold flat. rewrite E. fold (flats (c1 ++ c :: c2)). rewrite flats_app. cbn. by rewrite <- !app_assoc. Qed.

Lemma chain_items_nonempty c : exists x l, chain_items c = x :: l.
Proof. unfold chain_items. destruct (c_head c) as [|x l]; [|by eexists x, _]. destruct (c_rules c) as [|x l]; by eexists _, _. Qed.

Lemma flat_chain_cons c x l : chain_items c = x :: l -> flat_chain c = (x, c_hook c) :: map (fun x => (x, -1)) l.
Proof. intros E. unfold flat_chain. by rewrite E. Qed.

(** Which entries start a chain. *)
Definition starts (name : list Z) (y : item * Z) : bool :=
  ((0 <=? y.2) && bool_decide (hooknames !! Z.to_nat y.2 = Some name)) || is_head name y.1.

Definition chain_start (y : item * Z) : bool :=
  (0 <=? y.2) || bytes_eqb (t_name (target (i_raw y.1))) XT_ERROR_TARGET.

Lemma heads_encode g o x b name : heads name (mk_entry o b (i_idx x) (resolve g o x)) = starts name (x, b).
Proof. unfold heads, starts, is_error, is_head, entry_target, resolve. cbn [builtin entry fst snd]. by destruct (i_link x). Qed.

Lemma is_chain_encode g o x b : is_chain (mk_entry o b (i_idx x) (resolve g o x)) = chain_start (x, b).
Proof. unfold is_chain, chain_start, is_error, entry_target, resolve. cbn [builtin entry fst snd]. by destruct (i_link x). Qed.

Lemma find_from_encode {p q} g o l i :
  (forall o x b, p (mk_entry o b (i_idx x) (resolve g o x)) = q (x, b)) ->
  find_from p i (encode_from g o l) = find_from q i l.
Proof. intros H. revert o i. induction l as [|[x b] l IH]; intros o i; cbn; [done|]. rewrite H, IH. done. Qed.

Lemma find_from_app {A} (p : A -> bool) i l1 x l2 :
  Forall (fun y => p y = false) l1 -> p x = true -> find_from p i (l1 ++ x :: l2) = Some (i + length l1)%nat.
Proof.
  intros Hl Hx. revert i. induction Hl as [|y l1 Hy Hl IH]; intros i; cbn; [rewrite Hx; f_equal; lia|].
  rewrite Hy, IH. f_equal. lia.
Qed.

Lemma hook_range (h : Z) name : 0 <= h -> hooknames !! Z.to_nat h = Some name -> h < NF_INET_NUMHOOKS.
Proof. intros Hh E. apply lookup_lt_Some in E. cbn in E. unfold NF_INET_NUMHOOKS. lia. Qed.

Lemma starts_chain c name : chain_ok c ->
  Forall (fun y => starts name y = false) (flat_chain c) \/ (c_name c = name).
Proof.
  intros [Hk Hp _]. destruct (decide (c_name c = name)) as [|Hn]; [by right|left].
  assert (Hrest : forall l, Forall no_head l -> Forall (fun y => starts name y = false) (map (fun x => (x, -1)) l)).
  { intros l Hl. apply Forall_map. eapply Forall_impl; [exact Hl|]. intros x Hx. unfold starts. cbn. by apply no_head_is_head. }
  destruct Hk as [(Hh & Ehd & En)|(Hh & (x & Ehd & Hx & _) & Hni)].
  - destruct (chain_items_nonempty c) as (x & l & E). rewrite (flat_chain_cons _ _ _ E).
    unfold chain_items in E. rewrite Ehd in E. cbn [app] in E. rewrite E in Hp. apply Forall_cons_1 in Hp as [Hx Hl].
    constructor; [|by apply Hrest]. unfold starts. cbn [fst snd]. rewrite (no_head_is_head name x Hx), En, orb_false_r.
    rewrite bool_decide_eq_false_2 by congruence. by rewrite andb_false_r.
  - assert (E : chain_items c = x :: c_rules c ++ [c_foot c]) by (unfold chain_items; by rewrite Ehd).
    rewrite (flat_chain_cons _ _ _ E), Hh. constructor; [|by apply Hrest].
    unfold starts. cbn. unfold is_head in Hx |- *. apply andb_prop in Hx as [Hx1 Hx2]. rewrite Hx1. cbn [andb].
    apply bool_decide_eq_true_1 in Hx2. rewrite Hx2. by apply bool_decide_eq_false_2.
Qed.

Lemma starts_own c x l : chain_ok c -> chain_items c = x :: l -> starts (c_name c) (x, c_hook c) = true.
Proof.
  intros [Hk _ _] E. unfold starts. cbn [fst snd]. destruct Hk as [(Hh & _ & En)|(Hh & (y & Ehd & Hy & _) & _)].
  - rewrite En, bool_decide_eq_true_2 by done. by rewrite (proj2 (Z.leb_le 0 (c_hook c)) Hh).
  - unfold chain_items in E. rewrite Ehd in E. cbn in E. simplify_eq. by rewrite Hy, orb_true_r.
Qed.

Lemma chain_start_own c x l : chain_ok c -> chain_items c = x :: l -> chain_start (x, c_hook c) = true.
Proof.
  intros [Hk _ _] E. unfold chain_start. cbn [fst snd]. destruct Hk as [(Hh & _)|(Hh & (y & Ehd & Hy & _) & _)].
  - by rewrite (proj2 (Z.leb_le 0 (c_hook c)) Hh).
  - unfold chain_items in E. rewrite Ehd in E. cbn in E. simplify_eq.
    unfold is_head in Hy. apply andb_prop in Hy as [Hy _]. by rewrite Hy, orb_true_r.
Qed.

Lemma chain_rest_plain c x l : chain_ok c -> chain_items c = x :: l -> Forall no_head l.
Proof.
  intros [Hk Hp _] E. unfold chain_items in E. destruct Hk as [(_ & Ehd & _)|(_ & (y & Ehd & _) & _)]; rewrite Ehd in E; cbn in E.
  - rewrite E in Hp. by apply Forall_cons_1 in Hp as [_ Hp].
  - by simplify_eq.
Qed.

Lemma NoDup_name_split a c1 c c2 :
  table_ok a -> a_chains a = c1 ++ c :: c2 -> Forall (fun d => c_name d <> c_name c) c1 /\ Forall (fun d => c_name d <> c_name c) c2 /\
    c_name c <> XT_ERROR_TARGET.
Proof.
  intros [_ _ Hn _ _] E. rewrite E, map_app in Hn. cbn in Hn. apply list.NoDup_cons in Hn as [He Hn].
  apply NoDup_app in Hn as (_ & H1 & H2). apply list.NoDup_cons in H2 as [H2 _]. split; [|split].
  - apply list.Forall_forall. intros d Hd Ed. apply (H1 (c_name c)); [rewrite <- Ed; by apply list_elem_of_fmap_2|]. constructor.
  - apply list.Forall_forall. intros d Hd Ed. apply H2. rewrite <- Ed. by apply list_elem_of_fmap_2.
  - intros Ee. apply He. rewrite Ee. apply elem_of_app. right. constructor.
Qed.

(** The chain is found where it is. *)
Lemma find_head a t c1 c c2 :
  table_ok a -> represents t a -> a_chains a = c1 ++ c :: c2 ->
  find_chain_head t (c_name c) = Some (length (flats c1)).
Proof.
  intros Ha Ht E. destruct (NoDup_name_split _ _ _ _ Ha E) as (Hn1 & _). destruct (chain_items_nonempty c) as (x & l & Ei).
  assert (Hc := ok_chains _ Ha). rewrite E in Hc. apply Forall_app in Hc as [Hc1 Hc]. apply Forall_cons_1 in Hc as [Hc _].
  unfold find_chain_head, encode. rewrite (rep_entries _ _ Ht). unfold encode.
  rewrite (find_from_encode (q := starts (c_name c))) by (intros; apply heads_encode).
  rewrite (flat_split _ _ _ _ E), (flat_chain_cons _ _ _ Ei). cbn [app].
  rewrite find_from_app; [done| |by apply (starts_own c x l)].
  clear E Ei. induction Hc1 as [|d c1 Hd Hc1 IH]; [constructor|]. apply Forall_cons_1 in Hn1 as [Hn Hn1].
  cbn. apply Forall_app_2; [|by apply IH]. by destruct (starts_chain d (c_name c) Hd).
Qed.

Lemma length_flat_chain c : length (flat_chain c) = length (chain_items c).
Proof. destruct (chain_items_nonempty c) as (x & l & E). rewrite (flat_chain_cons _ _ _ E), E. cbn. by rewrite length_map. Qed.

Lemma find_tail a t c1 c c2 :
  table_ok a -> represents t a -> a_chains a = c1 ++ c :: c2 ->
  find_chain_tail t (c_name c) = Some (length (flats c1) + length (chain_items c))%nat.
Proof.
  intros Ha Ht E. unfold find_chain_tail. rewrite (find_head a t c1 c c2) by done. cbn [mbind option_bind].
  destruct (chain_items_nonempty c) as (x & l & Ei).
  assert (Hc := ok_chains _ Ha). rewrite E in Hc. apply Forall_app in Hc as [_ Hc]. apply Forall_cons_1 in Hc as [Hc Hc2].
  assert (Hnext : exists y rest, flats c2 ++ [(a_final a, -1)] = y :: rest /\ chain_start y = true).
  { destruct c2 as [|d c2]; cbn.
    - eexists _, _. split; [done|]. destruct (ok_final _ Ha) as [Hf _]. unfold chain_start. cbn.
      unfold is_head in Hf. by apply andb_prop in Hf as [-> _].
    - destruct (chain_items_nonempty d) as (y & m & Ed). apply Forall_cons_1 in Hc2 as [Hd _].
      rewrite (flat_chain_cons _ _ _ Ed). cbn. eexists _, _. split; [done|]. by apply (chain_start_own d y m). }
  destruct Hnext as (y & rest & Enext & Hy).
  assert (Hdrop : drop (S (length (flats c1))) (entries t) =
    encode_from (flat a) (flat_size (flats c1) + item_size x) (map (fun x => (x, -1)) l ++ y :: rest)).
  { rewrite (rep_entries _ _ Ht). unfold encode. rewrite (flat_split _ _ _ _ E) at 2. rewrite (flat_chain_cons _ _ _ Ei), Enext.
    rewrite encode_from_app. cbn [app encode_from]. rewrite cons_middle, app_assoc, drop_app_length'; [done|].
    rewrite length_app, length_encode. cbn. lia. }
  rewrite Hdrop, (find_from_encode (q := chain_start)) by (intros; apply is_chain_encode).
  rewrite find_from_app; [|..|exact Hy].
  - f_equal. unfold default. cbn [from_option id]. rewrite length_map, Ei. cbn [length]. unfold id. lia.
  - apply Forall_map. eapply Forall_impl; [exact (chain_rest_plain c x l Hc Ei)|]. intros z Hz. unfold chain_start. cbn.
    by apply bool_decide_eq_false_2.
Qed.

(** ** Marks and hooks *)

Lemma start_of_marks name o l l' : map fst l = map fst l' -> start_of name o l = start_of name o l'.
Proof.
  revert o l'. induction l as [|[x b] l IH]; intros o [|[x' b'] l'] E; cbn in E; simplify_eq; [done|].
  cbn. by rewrite (IH _ l').
Qed.

Lemma encode_marks g g' o l : map fst g = map fst g' -> encode_from g o l = encode_from g' o l.
Proof.
  intros E. revert o. induction l as [|[x b] l IH]; intros o; cbn; [done|]. rewrite IH. f_equal. f_equal.
  unfold resolve. destruct (i_link x); [done| |done]. by rewrite (start_of_marks _ _ g g').
Qed.

Lemma encode_alter_mark l1 x b b' l2 :
  alter (with_builtin b') (length l1) (encode (l1 ++ (x, b) :: l2)) = encode (l1 ++ (x, b') :: l2).
Proof.
  unfold encode. rewrite (encode_marks (l1 ++ (x, b') :: l2) (l1 ++ (x, b) :: l2)) by (by rewrite !map_app).
  rewrite !encode_from_app. rewrite alter_app_r_alt by (by rewrite length_encode). by rewrite length_encode, Nat.sub_diag.
Qed.

Lemma existsb_marks (p : item -> bool) (l l' : list (item * Z)) :
  map fst l = map fst l' -> existsb (fun z => p z.1) l = existsb (fun z => p z.1) l'.
Proof.
  revert l'. induction l as [|[x b] l IH]; intros [|[x' b'] l'] E; cbn in E; simplify_eq; [done|]. cbn. by rewrite (IH l').
Qed.

Lemma flat_size_marks l l' : map fst l = map fst l' -> flat_size l = flat_size l'.
Proof.
  revert l'. induction l as [|[x b] l IH]; intros [|[x' b'] l'] E; cbn in E; simplify_eq; [done|]. cbn. by rewrite (IH l').
Qed.

Lemma item_ok_marks g g' x : map fst g = map fst g' -> item_ok g x -> item_ok g' x.
Proof. intros E [H1 H2 H3 H4]. split; try done. intros name En. rewrite <- (existsb_marks _ g g') by done. by apply H4. Qed.

Lemma flat_ok_marks g g' : map fst g = map fst g' -> flat_ok g -> flat_ok g'.
Proof.
  intros E [H1 H2]. split; [|by rewrite <- (flat_size_marks g g')]. rewrite list.Forall_forall in H1 |- *.
  intros [x b] Hx. apply (item_ok_marks g g' x E). cbn.
  assert (Hin : x ∈ map fst g) by (rewrite E; apply list_elem_of_fmap; by exists (x, b)).
  apply list_elem_of_fmap in Hin as (z & -> & Hz). by apply H1.
Qed.

Definition marks (l : list connman_iptables_entry) : list Z := filter (fun h => 0 <= h) (map builtin l).

Definition shift_hooks (d : Z) (hs : list Z) (a : list Z) : list Z := foldl (fun a h => hook_add h d a) a hs.

Lemma move_hooks_eq l d t :
  move_hooks l d t = with_hooks (shift_hooks d (marks l) (underflow t)) (shift_hooks d (marks l) (hook_entry t)) t.
Proof.
  revert t. induction l as [|e l IH]; intros t; cbn [move_hooks]; [by destruct t|]. rewrite IH. unfold marks. cbn [map].
  destruct (Z.ltb_spec (builtin e) 0).
  - by rewrite filter_cons_False by lia.
  - by rewrite filter_cons_True by lia.
Qed.

Lemma shift_hooks_lookup d hs a k :
  NoDup hs -> Forall (fun h => 0 <= h) hs -> 0 <= k ->
  shift_hooks d hs a !! Z.to_nat k = (if bool_decide (k ∈ hs) then (fun x => u32 (x + d)) <$> a !! Z.to_nat k else a !! Z.to_nat k).
Proof.
  intros Hn Hp Hk. revert a. induction hs as [|h hs IH]; intros a; cbn [shift_hooks foldl].
  - by rewrite bool_decide_eq_false_2 by (by intros ?%elem_of_nil).
  - apply list.NoDup_cons in Hn as [Hh Hn]. apply Forall_cons_1 in Hp as [Hp0 Hp].
    fold (shift_hooks d hs (hook_add h d a)). rewrite IH by done. unfold hook_add.
    destruct (decide (k = h)) as [->|Hne].
    + rewrite bool_decide_eq_false_2, bool_decide_eq_true_2 by (done || constructor). by rewrite list_lookup_alter_eq.
    + rewrite list_lookup_alter_ne by lia.
      destruct (decide (k ∈ hs)) as [Hin|Hout].
      * rewrite !bool_decide_eq_true_2; [done|by constructor|done].
      * rewrite !bool_decide_eq_false_2; [done| |done]. intros [?|?]%elem_of_cons; done.
Qed.

(** The hooks of chains. *)
Definition hooks (cs : list chain) : list Z := filter (fun h => 0 <= h) (map c_hook cs).

Lemma marks_app l1 l2 : marks (l1 ++ l2) = marks l1 ++ marks l2.
Proof. unfold marks. by rewrite map_app, filter_app. Qed.

Lemma marks_plain g o l : marks (encode_from g o (map (fun x => (x, -1)) l)) = [].
Proof. revert o. induction l as [|x l IH]; intros o; cbn [map encode_from]; [done|].
  unfold marks in *. cbn [map]. rewrite filter_cons_False by (cbn; lia). apply IH. Qed.

Lemma marks_flats g o cs : marks (encode_from g o (flats cs)) = hooks cs.
Proof.
  revert o. induction cs as [|c cs IH]; intros o; [done|].
  change (flats (c :: cs)) with (flat_chain c ++ flats cs). rewrite encode_from_app, marks_app, IH.
  destruct (chain_items_nonempty c) as (x & l & E). rewrite (flat_chain_cons _ _ _ E). cbn [encode_from].
  change (mk_entry o (c_hook c) (i_idx x) (resolve g o x) :: encode_from g (o + item_size x) (map (fun x => (x, -1)) l))
    with ([mk_entry o (c_hook c) (i_idx x) (resolve g o x)] ++ encode_from g (o + item_size x) (map (fun x => (x, -1)) l)).
  rewrite marks_app, marks_plain, app_nil_r. unfold marks, hooks. cbn [map].
  destruct (decide (0 <= c_hook c)).
  - by rewrite !filter_cons_True.
  - by rewrite !filter_cons_False.
Qed.

Lemma hooks_app c1 c2 : hooks (c1 ++ c2) = hooks c1 ++ hooks c2.
Proof. unfold hooks. by rewrite map_app, filter_app. Qed.

Lemma hook_in cs h : h ∈ hooks cs <-> 0 <= h /\ exists c, c ∈ cs /\ c_hook c = h.
Proof.
  unfold hooks. rewrite list_elem_of_filter, list_elem_of_fmap. split; (intros [? (c & ? & ?)]; split; [done|]); by exists c.
Qed.

Lemma hooks_nodup a : table_ok a -> NoDup (hooks (a_chains a)).
Proof.
  intros [_ Hc Hn _ _]. apply list.NoDup_cons in Hn as [_ Hn]. induction (a_chains a) as [|c cs IH]; [constructor|].
  cbn in Hn. apply list.NoDup_cons in Hn as [Hni Hn]. apply Forall_cons_1 in Hc as [Hc Hcs]. specialize (IH Hcs Hn).
  unfold hooks in *. cbn [map]. destruct (decide (0 <= c_hook c)) as [Hh|Hh]; [|by rewrite filter_cons_False].
  rewrite filter_cons_True by done. constructor; [|done]. intros Hin. apply (hook_in cs) in Hin as [_ (d & Hd & Ed)].
  apply Hni. rewrite list.Forall_forall in Hcs. destruct (ok_kind _ Hc) as [(_ & _ & E)|(E & _)]; [|lia].
  destruct (ok_kind _ (Hcs d Hd)) as [(_ & _ & E')|(E' & _)]; [|lia].
  rewrite Ed, E in E'. simplify_eq. apply list_elem_of_fmap. by exists d.
Qed.

Lemma split_cases {A} (l1 l2 m1 m2 : list A) x y :
  l1 ++ x :: l2 = m1 ++ y :: m2 ->
  (exists k, l1 = m1 ++ y :: k /\ m2 = k ++ x :: l2) \/ (m1 = l1 /\ x = y /\ l2 = m2) \/
  (exists k, m1 = l1 ++ x :: k /\ l2 = k ++ y :: m2).
Proof.
  revert m1. induction l1 as [|a l1 IH]; intros [|b m1] E; cbn in E.
  - right. left. by simplify_eq.
  - right. right. simplify_eq. by exists m1.
  - left. simplify_eq. by exists l1.
  - injection E as -> E. destruct (IH _ E) as [(k & -> & ->)|[(-> & -> & ->)|(k & -> & ->)]].
    + left. by exists k.
    + right. by left.
    + right. right. by exists k.
Qed.

(** A chain with other rules. *)
Definition set_rules (r : list item) (c : chain) : chain := mk_chain (c_hook c) (c_name c) (c_head c) r (c_foot c).

Lemma items_size_app l1 l2 : items_size (l1 ++ l2) = items_size l1 + items_size l2.
Proof. induction l1 as [|x l1 IH]; cbn; lia. Qed.

Lemma flat_size_map h l : flat_size (map (fun x => (x, h)) l) = items_size l.
Proof. induction l as [|x l IH]; cbn; lia. Qed.

Lemma flat_size_mark h l : flat_size (mark h l) = items_size l.
Proof. destruct l as [|x l]; cbn; [done|]. by rewrite flat_size_map. Qed.

Lemma flat_size_chain c : flat_size (flat_chain c) = items_size (c_head c) + items_size (c_rules c) + item_size (c_foot c).
Proof. unfold flat_chain, chain_items. rewrite flat_size_mark, !items_size_app. cbn. lia. Qed.

Lemma Forall_mark (P : item -> Prop) h l : Forall (fun y => P y.1) (mark h l) <-> Forall P l.
Proof. destruct l as [|x l]; cbn; [by split; constructor|]. rewrite !Forall_cons, Forall_map. done. Qed.

Lemma items_pos l : Forall (fun x => 0 < item_size x) l -> 0 <= items_size l.
Proof. induction 1; cbn; lia. Qed.

Lemma flat_Forall (P : item -> Prop) a c1 c c2 :
  a_chains a = c1 ++ c :: c2 -> Forall (fun y => P y.1) (flat a) ->
  Forall (fun y => P y.1) (flats c1) /\ Forall P (chain_items c) /\ Forall (fun y => P y.1) (flats c2) /\ P (a_final a).
Proof.
  intros E H. rewrite (flat_split _ _ _ _ E) in H. apply Forall_app in H as [H1 H]. apply Forall_app in H as [H2 H].
  apply Forall_app in H as [H3 H4]. apply Forall_cons_1 in H4 as [H4 _]. apply Forall_mark in H2. done.
Qed.

(** The parts of a table lie in its range. *)
Lemma split_bounds a c1 c c2 :
  flat_ok (flat a) -> a_chains a = c1 ++ c :: c2 ->
  0 <= flat_size (flats c1) /\ 0 <= items_size (c_rules c) /\ flat_size (flats c1) + items_size (c_rules c) < 2 ^ 31.
Proof.
  intros [H Hs] E. rewrite (flat_split _ _ _ _ E) in Hs. rewrite !flat_size_app, flat_size_chain in Hs.
  destruct (flat_Forall (item_ok (flat a)) _ _ _ _ E H) as (H1 & Hi & H2 & H3).
  pose proof (flat_size_nonneg _ _ H1). pose proof (flat_size_nonneg _ _ H2). pose proof (item_pos _ _ H3).
  assert (Hp : Forall (fun x => 0 < item_size x) (chain_items c)) by (eapply Forall_impl; [exact Hi|]; by intros x []).
  unfold chain_items in Hp. apply Forall_app in Hp as [P1 P2]. apply Forall_app in P2 as [P2 P3].
  apply Forall_cons_1 in P3 as [P3 _]. apply items_pos in P1, P2. cbn in Hs. lia.
Qed.

(** The hooks when the rules of one chain grow or shrink. *)
Lemma hooks_change a a' t t' c1 c c2 r d :
  table_ok a -> hooks_ok a t -> a_chains a = c1 ++ c :: c2 -> a_chains a' = c1 ++ set_rules r c :: c2 ->
  items_size r = items_size (c_rules c) + d -> flat_ok (flat a') ->
  underflow t' = shift_hooks d (hooks c2) (if 0 <=? c_hook c then hook_add (c_hook c) d (underflow t) else underflow t) ->
  hook_entry t' = shift_hooks d (hooks c2) (hook_entry t) ->
  hooks_ok a' t'.
Proof.
  intros Ha Hh E E' Hr Hok Hu He. pose proof (hooks_nodup a Ha) as Hnd. rewrite E, hooks_app in Hnd.
  apply NoDup_app in Hnd as (_ & Hd1 & Hd2).
  assert (Hnc : NoDup (hooks c2) /\ (0 <= c_hook c -> (c_hook c ∉ hooks c2))).
  { unfold hooks in Hd2 |- *. cbn [map] in Hd2. destruct (decide (0 <= c_hook c)).
    - rewrite filter_cons_True in Hd2 by done. apply list.NoDup_cons in Hd2 as [? ?]. done.
    - rewrite filter_cons_False in Hd2 by done. done. }
  destruct Hnc as [Hn2 Hnc]. assert (Hpos : Forall (fun h => 0 <= h) (hooks c2)).
  { apply list.Forall_forall. intros h Hin. by apply hook_in in Hin as [? _]. }
  intros d1 x d2 Ex Hx. rewrite E' in Ex. rewrite Hu, He.
  rewrite !shift_hooks_lookup by done. apply split_cases in Ex as [(k & Ek & Ek2)|[(Ek & Ek2 & Ek3)|(k & Ek & Ek2)]].
  - destruct (Hh d1 x (k ++ c :: c2)) as [H1 H2]; [by rewrite E, Ek, <- app_assoc|done|].
    assert (Hin1 : c_hook x ∈ hooks c1) by (apply hook_in; split; [done|]; exists x; split; [rewrite Ek; apply elem_of_app; right; constructor|done]).
    assert (Hni : c_hook x ∉ hooks (c :: c2)) by (by apply Hd1).
    rewrite bool_decide_eq_false_2.
    2:{ intros Hin. apply Hni. apply hook_in in Hin as [? (y & Hy & Ey)]. apply hook_in. split; [done|]. exists y. split; [by constructor|done]. }
    split; [done|]. destruct (Z.leb_spec 0 (c_hook c)) as [Hc|Hc]; [|done].
    unfold hook_add. rewrite list_lookup_alter_ne; [done|]. intros Eh. apply Hni. apply hook_in. split; [done|]. exists c.
    split; [constructor|lia].
  - subst d1 x d2. cbn [c_hook set_rules] in *. destruct (Hh c1 c c2 E Hx) as [H1 H2].
    rewrite bool_decide_eq_false_2 by (by apply Hnc). rewrite (proj2 (Z.leb_le 0 (c_hook c)) Hx). split; [done|].
    unfold hook_add. rewrite list_lookup_alter_eq, H2. cbn. f_equal.
    pose proof (split_bounds a' c1 (set_rules r c) c2 Hok E') as B. cbn [c_rules set_rules] in B |- *. rewrite u32_small; lia.
  - subst d1. destruct (Hh (c1 ++ c :: k) x d2) as [H1 H2]; [by rewrite E, Ek2, <- app_assoc|done|].
    assert (Hin : c_hook x ∈ hooks c2) by (apply hook_in; split; [done|]; exists x; split; [rewrite Ek2; apply elem_of_app; right; constructor|done]).
    rewrite bool_decide_eq_true_2 by done.
    assert (Hu' : (if 0 <=? c_hook c then hook_add (c_hook c) d (underflow t) else underflow t) !! Z.to_nat (c_hook x) = underflow t !! Z.to_nat (c_hook x)).
    { destruct (Z.leb_spec 0 (c_hook c)) as [Hc|Hc]; [|done]. unfold hook_add. rewrite list_lookup_alter_ne; [done|].
      intros Eh. apply (Hnc Hc). replace (c_hook c) with (c_hook x) by lia. done. }
    rewrite Hu', H1, H2. cbn [fmap option_fmap option_map].
    pose proof (split_bounds a' (c1 ++ set_rules r c :: k) x d2 Hok) as B. rewrite E', Ek2, <- app_assoc in B. specialize (B eq_refl).
    assert (Ef : flat_size (flats (c1 ++ set_rules r c :: k)) = flat_size (flats (c1 ++ c :: k)) + d).
    { rewrite !flats_app, !flat_size_app. change (flats (set_rules r c :: k)) with (flat_chain (set_rules r c) ++ flats k).
      change (flats (c :: k)) with (flat_chain c ++ flats k). rewrite !flat_size_app, !flat_size_chain.
      cbn [c_rules c_head c_foot set_rules]. lia. }
    split; f_equal; rewrite u32_small; lia.
Qed.

(** ** Changing the rules of a chain *)

Definition first_mark (h : Z) (pre : list item) : Z := match pre with [] => h | _ => -1 end.

Definition plain (l : list item) : list (item * Z) := map (fun x => (x, -1)) l.

Lemma mark_app h pre x post : mark h (pre ++ x :: post) = mark h pre ++ (x, first_mark h pre) :: plain post.
Proof. destruct pre as [|y pre]; cbn; [done|]. unfold plain. by rewrite map_app. Qed.

(** The table in front of the rules from [r1] on, and behind the next entry. *)
Definition before (c1 : list chain) (c : chain) (r1 : list item) : list (item * Z) :=
  flats c1 ++ mark (c_hook c) (c_head c ++ r1).
Definition behind (post : list item) (c2 : list chain) (a : atable) : list (item * Z) :=
  plain post ++ flats c2 ++ [(a_final a, -1)].
Definition mark_at (c : chain) (r1 : list item) : Z := first_mark (c_hook c) (c_head c ++ r1).

Lemma flat_at a c1 c c2 r1 r2 x post :
  a_chains a = c1 ++ c :: c2 -> c_rules c = r1 ++ r2 -> r2 ++ [c_foot c] = x :: post ->
  flat a = before c1 c r1 ++ (x, mark_at c r1) :: behind post c2 a.
Proof.
  intros E Er Ex. rewrite (flat_split _ _ _ _ E). unfold flat_chain, chain_items. rewrite Er, <- app_assoc, Ex.
  rewrite (app_assoc (c_head c)), mark_app. unfold before, behind. rewrite <- !app_assoc. done.
Qed.

Definition set_chain (a : atable) (c1 : list chain) (c : chain) (c2 : list chain) (r : list item) : atable :=
  mk_atable (c1 ++ set_rules r c :: c2) (a_final a).

Lemma flat_with a c1 c c2 r1 r2 x y post :
  r2 ++ [c_foot c] = x :: post ->
  flat (set_chain a c1 c c2 (r1 ++ y :: r2)) = before c1 c r1 ++ (y, mark_at c r1) :: (x, -1) :: behind post c2 a.
Proof.
  intros Ex. rewrite (flat_at (set_chain a c1 c c2 (r1 ++ y :: r2)) c1 (set_rules (r1 ++ y :: r2) c) c2 r1 (y :: r2) y (x :: post)); [done..|].
  cbn. by rewrite Ex.
Qed.

(** The table stays well-formed, whatever the rules are, if they are. *)
Lemma table_ok_set a c1 c c2 r :
  table_ok a -> a_chains a = c1 ++ c :: c2 -> flat_ok (flat (set_chain a c1 c c2 r)) -> Forall no_head r ->
  table_ok (set_chain a c1 c c2 r).
Proof.
  intros [H1 H2 H3 H4 H5] E Hf Hr. split; [done| | |done|].
  - cbn. rewrite E in H2. apply Forall_app in H2 as [Ha Hb]. apply Forall_cons_1 in Hb as [Hc Hb].
    apply Forall_app_2; [done|]. constructor; [|done]. destruct Hc as [K1 K2 K3]. split; [done| |done].
    cbn. apply Forall_app in K2 as [_ K2]. by apply Forall_app_2.
  - cbn. rewrite E, map_app in H3. rewrite map_app. done.
  - cbn. intros d1 d d2 Ed Hd. apply split_cases in Ed as [(k & Ek & Ek2)|[(Ek & Ek2 & Ek3)|(k & Ek & Ek2)]].
    + assert (Hall := H5 d1 d (k ++ c :: c2)). rewrite E, Ek, <- app_assoc in Hall. specialize (Hall eq_refl Hd).
      rewrite Ek2. apply Forall_app in Hall as [Ha Hb]. apply Forall_cons_1 in Hb as [Hb Hc]. apply Forall_app_2; [done|by constructor].
    + subst. by apply (H5 c1 c d2 E).
    + subst d1. apply (H5 (c1 ++ c :: k) d d2); [|done]. by rewrite E, Ek2, <- app_assoc.
Qed.

Lemma hooks_none c2 : Forall (fun d => c_hook d < 0) c2 -> hooks c2 = [].
Proof. induction 1 as [|d c2 Hd Hc IH]; [done|]. unfold hooks. cbn [map]. rewrite filter_cons_False by lia. exact IH. Qed.

(** The hooks are moved by the size of the entry. *)
Definition moved_hooks (c : chain) (c2 : list chain) (d : Z) (t t' : connman_iptables) : Prop :=
  underflow t' = shift_hooks d (hooks c2) (if 0 <=? c_hook c then hook_add (c_hook c) d (underflow t) else underflow t) /\
  hook_entry t' = shift_hooks d (hooks c2) (hook_entry t).

Lemma drop_marks a c1 c c2 :
  a_chains a = c1 ++ c :: c2 -> marks (drop (S (length (flats c1))) (encode (flat a))) = hooks c2.
Proof.
  intros E. destruct (chain_items_nonempty c) as (x & l & Ei).
  unfold encode. set (g := flat a) at 1. rewrite (flat_split _ _ _ _ E), (flat_chain_cons _ _ _ Ei), encode_from_app.
  cbn [app encode_from]. rewrite cons_middle, app_assoc, drop_app_length' by (rewrite length_app, length_encode; cbn; lia).
  rewrite encode_from_app, marks_app, marks_plain, encode_from_app, marks_app. cbn [app].
  rewrite marks_flats. cbn. by rewrite app_nil_r.
Qed.

Lemma first_entry a t c1 c c2 x l :
  represents t a -> a_chains a = c1 ++ c :: c2 -> chain_items c = x :: l ->
  entries t !! length (flats c1) = Some (mk_entry (flat_size (flats c1)) (c_hook c) (i_idx x) (resolve (flat a) (flat_size (flats c1)) x)).
Proof.
  intros Ht E Ei. rewrite (rep_entries _ _ Ht). unfold encode. set (g := flat a) at 1 3.
  rewrite (flat_split _ _ _ _ E), (flat_chain_cons _ _ _ Ei). cbn [app]. apply lookup_encode.
Qed.

Lemma update_hooks_run a t c1 c c2 e :
  table_ok a -> represents t a -> a_chains a = c1 ++ c :: c2 ->
  let t1 := update_hooks t (length (flats c1)) e in
  moved_hooks c c2 (next_offset e) t t1 /\ entries t1 = entries t /\ num_entries t1 = num_entries t /\ size t1 = size t.
Proof.
  intros Ha Ht E t1. destruct (chain_items_nonempty c) as (x & l & Ei). unfold t1, update_hooks.
  rewrite (first_entry a t c1 c c2 x l) by done. cbn [builtin]. unfold moved_hooks.
  destruct (Z.ltb_spec (c_hook c) 0) as [Hh|Hh].
  - rewrite (hooks_none c2) by (by apply (ok_order _ Ha c1 c c2)). rewrite (proj2 (Z.leb_gt 0 (c_hook c)) Hh). done.
  - rewrite move_hooks_eq. cbn [entries with_hooks]. rewrite (rep_entries _ _ Ht), (drop_marks a c1 c c2) by done.
    rewrite (proj2 (Z.leb_le 0 (c_hook c)) Hh). done.
Qed.

(** The place of a new rule: the front of the chain or its end. *)
Definition place (ins : bool) (c : chain) (r1 r2 : list item) : Prop :=
  c_rules c = r1 ++ r2 /\ if ins then r1 = [] else r2 = [].

Lemma chain_at a c1 c c2 : table_ok a -> a_chains a = c1 ++ c :: c2 -> chain_ok c.
Proof. intros Ha E. pose proof (ok_chains _ Ha) as H. rewrite E in H. apply Forall_app in H as [_ H]. by apply Forall_cons_1 in H as [H _]. Qed.

Lemma length_mark h l : length (mark h l) = length l.
Proof. destruct l; cbn; [done|]. by rewrite length_map. Qed.

Lemma length_before c1 c r1 : length (before c1 c r1) = (length (flats c1) + length (c_head c) + length r1)%nat.
Proof. unfold before. rewrite length_app, length_mark, length_app. lia. Qed.

Lemma before_empty c1 c r1 : c_head c ++ r1 = [] -> before c1 c r1 = flats c1 /\ mark_at c r1 = c_hook c.
Proof. intros E. unfold before, mark_at. rewrite E. cbn. by rewrite app_nil_r. Qed.

Lemma mark_at_later c r1 : c_head c ++ r1 <> [] -> mark_at c r1 = -1.
Proof. unfold mark_at. by destruct (c_head c ++ r1). Qed.

Lemma prepare_run a t c1 c c2 r1 r2 x post ok ip xt_t rm ins e :
  table_ok a -> represents t a -> a_chains a = c1 ++ c :: c2 -> place ins c r1 r2 -> r2 ++ [c_foot c] = x :: post ->
  new_rule ok (type t) ip xt_t rm = Some e ->
  exists t1, prepare_rule_inclusion ok t ip (c_name c) xt_t rm ins = Some (e, mark_at c r1, t1) /\
    entries t1 = encode (before c1 c r1 ++ (x, -1) :: behind post c2 a) /\
    moved_hooks c c2 (next_offset e) t t1 /\ num_entries t1 = num_entries t /\ size t1 = size t.
Proof.
  intros Ha Ht E [Er Hins] Ex En. unfold prepare_rule_inclusion.
  rewrite (find_head a t c1 c c2), (find_tail a t c1 c c2), En by done. cbn [mbind option_bind].
  destruct (chain_items_nonempty c) as (z & l & Ei). rewrite (first_entry a t c1 c c2 z l) by done. cbn [mbind option_bind builtin].
  destruct (update_hooks_run a t c1 c c2 e Ha Ht E) as (Hm & He & Hn & Hs). set (t1 := update_hooks t (length (flats c1)) e) in *.
  rewrite (rep_entries _ _ Ht), (flat_at a c1 c c2 r1 r2 x post E Er Ex) in He.
  destruct (ok_kind _ (chain_at a c1 c c2 Ha E)) as [(Hh & Ehd & _)|(Hh & (h & Ehd & _) & _)].
  - rewrite (proj2 (Z.ltb_ge (c_hook c) 0) Hh).
    assert (Hone : (ins || (S (length (flats c1)) =? length (flats c1) + length (chain_items c))%nat) = bool_decide (c_head c ++ r1 = [])).
    { unfold chain_items. rewrite Ehd, Er. cbn [app]. destruct ins; subst; cbn [orb app].
      - by rewrite bool_decide_eq_true_2.
      - rewrite !length_app. cbn [length]. destruct r1 as [|y r1]; cbn [length]; [rewrite bool_decide_eq_true_2 by done|rewrite bool_decide_eq_false_2 by done];
          [apply Nat.eqb_eq|apply Nat.eqb_neq]; lia. }
    rewrite Hone. case_bool_decide as Hemp.
    + destruct (before_empty c1 c r1 Hemp) as [Hb Hk]. rewrite Hk. eexists. split; [done|].
      split; [|done]. cbn [entries with_entries]. rewrite He, Hk, Hb. apply encode_alter_mark.
    + rewrite (mark_at_later c r1 Hemp) in *. exists t1. split; [done|]. done.
  - rewrite Hh. cbn [Z.ltb Z.compare]. assert (Hne : c_head c ++ r1 <> []) by (by rewrite Ehd).
    rewrite (mark_at_later c r1 Hne) in *. exists t1. split; [done|]. done.
Qed.

(** One more entry, with the jumps moved and the offsets counted. *)
Lemma add_entry_run t1 l1 x bx l2 y b e :
  let g := l1 ++ (x, bx) :: l2 in
  entries t1 = encode g -> flat_ok g -> item_ok g y -> unnamed g y -> given g y e -> flat_size g + item_size y < 2 ^ 31 ->
  num_entries t1 = Z.of_nat (length g) -> size t1 = flat_size g -> Z.of_nat (length g) + 1 < 2 ^ 32 ->
  exists t', iptables_add_entry true t1 e (Some (length l1)) b (i_idx y) = (0, t') /\
    entries t' = encode (l1 ++ (y, b) :: (x, bx) :: l2) /\ num_entries t' = Z.of_nat (length g) + 1 /\
    size t' = flat_size g + item_size y /\ underflow t' = underflow t1 /\ hook_entry t' = hook_entry t1.
Proof.
  intros g He Hok Hy Hh Hg Hs Hn Hsz Hlen. unfold iptables_add_entry. cbn [negb].
  assert (Hbo : (i ← Some (length l1); offset <$> entries t1 !! i) = Some (flat_size l1)).
  { cbn. rewrite He. unfold encode, g. by rewrite lookup_encode. }
  cbv zeta. cbn [mbind option_bind] in Hbo |- *. rewrite Hbo. eexists. split; [reflexivity|].
  pose proof (given_size g y e Hg) as Hsize. pose proof (item_pos _ _ Hy). destruct Hok as [Hall Hlt].
  pose proof (flat_size_nonneg _ _ Hall).
  assert (Hnew : entries (with_size (u32 (num_entries t1 + 1)) (u32 (size t1 + next_offset e))
      (with_entries (insert_before (Some (length l1)) (mk_entry 0 b (i_idx y) e) (entries t1)) t1)) !! length l1 = Some (mk_entry 0 b (i_idx y) e)).
  { cbn [entries with_size with_entries insert_before]. rewrite He. unfold encode, g. rewrite encode_from_app.
    rewrite take_app_length' by (by rewrite length_encode). rewrite lookup_app_r by (by rewrite length_encode).
    by rewrite length_encode, Nat.sub_diag. }
  unfold update_targets_reference. rewrite Hnew. unfold update_offsets. cbn [entries with_entries with_size num_entries size underflow hook_entry].
  change (entry_size (mk_entry 0 b (i_idx y) e)) with (next_offset e). rewrite He. split; [|split; [|split]].
  - by apply (insert_encode l1 x bx l2 y b e (i_idx y)).
  - rewrite Hn, u32_small; lia.
  - rewrite Hsz, Hsize, u32_small; lia.
  - done.
Qed.

Lemma length_le_size g l : Forall (fun y => item_ok g y.1) l -> Z.of_nat (length l) <= flat_size l.
Proof. induction 1 as [|[x b] l [Hx _ _ _] Hl IH]; cbn [length flat_size] in *; [done|]. cbn in Hx. lia. Qed.

Lemma given_marks g g' y e : map fst g = map fst g' -> given g y e -> given g' y e.
Proof. intros E. unfold given. destruct (i_link y); [done| |done]. by rewrite (start_of_marks _ 0 g g'). Qed.

Lemma flat_ok_insert l1 l2 y b :
  flat_ok (l1 ++ l2) -> item_ok (l1 ++ l2) y -> no_head y -> flat_size (l1 ++ l2) + item_size y < 2 ^ 31 -> flat_ok (l1 ++ (y, b) :: l2).
Proof.
  intros [H1 H2] Hy Hh Hs. split.
  - apply Forall_app in H1 as [Ha Hb].
    apply Forall_app_2; [|constructor; [by apply item_ok_insert|]];
      (eapply Forall_impl; [eassumption|]); intros z Hz; by apply item_ok_insert.
  - rewrite flat_size_app in Hs |- *. cbn. lia.
Qed.

(** What a rule that may be added to a table is. *)
Record addable (a : atable) (y : item) : Prop := {
  add_ok : item_ok (flat a) y;
  add_plain : no_head y;
  add_fits : flat_size (flat a) + item_size y < 2 ^ 31;
}.

Lemma flat_ok_set a c1 c c2 r1 r2 y :
  table_ok a -> a_chains a = c1 ++ c :: c2 -> c_rules c = r1 ++ r2 -> addable a y -> flat_ok (flat (set_chain a c1 c c2 (r1 ++ y :: r2))).
Proof.
  intros Ha E Er [Hy Hp Hf]. destruct (r2 ++ [c_foot c]) as [|x post] eqn:Ex; [by destruct r2|].
  rewrite (flat_with a c1 c c2 r1 r2 x y post Ex). pose proof (flat_at a c1 c c2 r1 r2 x post E Er Ex) as Eflat.
  assert (Em : map fst (flat a) = map fst (before c1 c r1 ++ (x, -1) :: behind post c2 a)) by (rewrite Eflat, !map_app; done).
  apply flat_ok_insert; [|by apply (item_ok_marks (flat a))|done|by rewrite <- (flat_size_marks (flat a))].
  apply (flat_ok_marks (flat a)); [done|by apply ok_flat].
Qed.

Lemma rule_added a t t1 c1 c c2 r1 r2 x post y e :
  table_ok a -> represents t a -> a_chains a = c1 ++ c :: c2 -> c_rules c = r1 ++ r2 -> r2 ++ [c_foot c] = x :: post ->
  addable a y -> given (flat a) y e ->
  entries t1 = encode (before c1 c r1 ++ (x, -1) :: behind post c2 a) ->
  moved_hooks c c2 (next_offset e) t t1 -> num_entries t1 = num_entries t -> size t1 = size t ->
  exists t', iptables_add_entry true t1 e (Some (length (before c1 c r1))) (mark_at c r1) (i_idx y) = (0, t') /\
    represents t' (set_chain a c1 c c2 (r1 ++ y :: r2)) /\ table_ok (set_chain a c1 c c2 (r1 ++ y :: r2)).
Proof.
  intros Ha Ht E Er Ex Hadd Hg He [Hmu Hmh] Hn Hs. pose proof Hadd as [Hy Hp Hf].
  pose proof (flat_at a c1 c c2 r1 r2 x post E Er Ex) as Eflat. set (g := before c1 c r1 ++ (x, -1) :: behind post c2 a) in *.
  assert (Em : map fst (flat a) = map fst g) by (unfold g; rewrite Eflat, !map_app; done).
  assert (Hok := ok_flat _ Ha). assert (Hokg : flat_ok g) by by apply (flat_ok_marks (flat a)).
  assert (Hlen : length g = length (flat a)) by (by rewrite <- (length_map fst g), <- Em, length_map).
  assert (Hsz : flat_size g = flat_size (flat a)) by (symmetry; by apply flat_size_marks).
  pose proof (length_le_size _ _ (proj1 Hok)). pose proof (item_pos _ _ Hy).
  destruct (add_entry_run t1 (before c1 c r1) x (-1) (behind post c2 a) y (mark_at c r1) e) as (t' & Et & He' & Hn' & Hs' & Hu' & Hh');
    fold g; [done|done|by apply (item_ok_marks (flat a))|by apply no_head_unnamed|by apply (given_marks (flat a))|lia| | |lia|].
  { by rewrite Hn, (rep_num _ _ Ht), Hlen. }
  { by rewrite Hs, (rep_size _ _ Ht), Hsz. }
  fold g in Hn', Hs'. exists t'. split; [done|]. pose proof (flat_ok_set a c1 c c2 r1 r2 y Ha E Er Hadd) as Hok'. split.
  - split.
    + by rewrite He', (flat_with a c1 c c2 r1 r2 x y post Ex).
    + rewrite Hn', (flat_with a c1 c c2 r1 r2 x y post Ex). unfold g. rewrite !length_app. cbn [length]. lia.
    + rewrite Hs', (flat_with a c1 c c2 r1 r2 x y post Ex). unfold g. rewrite !flat_size_app. cbn [flat_size]. lia.
    + rewrite (given_size _ _ _ Hg) in Hmu, Hmh.
      apply (hooks_change a _ t t' c1 c c2 (r1 ++ y :: r2) (item_size y)); [done|by apply rep_hooks|done|done| |done|congruence|congruence].
      rewrite Er, !items_size_app. cbn. lia.
  - apply table_ok_set; [done|done|done|]. pose proof (ok_plain _ (chain_at a c1 c c2 Ha E)) as Hpl.
    rewrite Er in Hpl. apply Forall_app in Hpl as [Hpl _]. apply Forall_app in Hpl as [Ha1 Ha2]. apply Forall_app_2; [done|by constructor].
Qed.

(** Appending and inserting, for an item and the entry that is made of it. *)
Lemma append_run a t c1 c c2 ok ip xt_t rm y e :
  table_ok a -> represents t a -> a_chains a = c1 ++ c :: c2 -> ok 2%nat = true -> new_rule ok (type t) ip xt_t rm = Some e ->
  addable a y -> given (flat a) y e -> i_idx y = -1 ->
  exists t', iptables_append_rule ok t ip (c_name c) xt_t rm = Some (0, t') /\
    represents t' (set_chain a c1 c c2 (c_rules c ++ [y])) /\ table_ok (set_chain a c1 c c2 (c_rules c ++ [y])).
Proof.
  intros Ha Ht E Hk En Hadd Hg Hidx. unfold iptables_append_rule. rewrite (find_tail a t c1 c c2) by done.
  destruct (prepare_run a t c1 c c2 (c_rules c) [] (c_foot c) [] ok ip xt_t rm false e) as (t1 & Ep & He & Hm & Hn & Hs);
    [done..|by split; [rewrite app_nil_r|]|done|done|]. rewrite Ep.
  destruct (rule_added a t t1 c1 c c2 (c_rules c) [] (c_foot c) [] y e) as (t' & Et & Hr & Ho); [done|done|done|by rewrite app_nil_r|done..|].
  exists t'. split; [|done]. rewrite Hk, <- Hidx. rewrite length_before in Et. unfold chain_items. rewrite !length_app. cbn [length].
  replace (length (flats c1) + (length (c_head c) + (length (c_rules c) + 1)))%nat with (S (length (flats c1) + length (c_head c) + length (c_rules c))) by lia.
  by rewrite Et.
Qed.

Lemma insert_run a t c1 c c2 ok ip xt_t rm y e :
  table_ok a -> represents t a -> a_chains a = c1 ++ c :: c2 -> ok 2%nat = true -> new_rule ok (type t) ip xt_t rm = Some e ->
  addable a y -> given (flat a) y e -> i_idx y = -1 ->
  exists t', iptables_insert_rule ok t ip (c_name c) xt_t rm = Some (0, t') /\
    represents t' (set_chain a c1 c c2 (y :: c_rules c)) /\ table_ok (set_chain a c1 c c2 (y :: c_rules c)).
Proof.
  intros Ha Ht E Hk En Hadd Hg Hidx. unfold iptables_insert_rule. rewrite (find_head a t c1 c c2) by done.
  destruct (c_rules c ++ [c_foot c]) as [|x post] eqn:Ex; [by destruct (c_rules c)|].
  destruct (prepare_run a t c1 c c2 [] (c_rules c) x post ok ip xt_t rm true e) as (t1 & Ep & He & Hm & Hn & Hs); [done..|].
  rewrite Ep. destruct (rule_added a t t1 c1 c c2 [] (c_rules c) x post y e) as (t' & Et & Hr & Ho); [done..|].
  exists t'. split; [|done]. rewrite Hk. rewrite Hidx in Et.
  assert (Hpos : (if mark_at c [] =? -1 then S (length (flats c1)) else length (flats c1)) = length (before c1 c [])).
  { rewrite length_before. cbn. unfold mark_at. rewrite app_nil_r.
    destruct (ok_kind _ (chain_at a c1 c c2 Ha E)) as [(Hh & Ehd & _)|(Hh & (h & Ehd & _) & _)]; rewrite Ehd; cbn [first_mark length].
    - rewrite (proj2 (Z.eqb_neq (c_hook c) (-1))) by lia. lia.
    - cbn. lia. }
  cbv zeta. rewrite Hpos. rewrite (proj2 (Nat.ltb_lt _ _)); [by rewrite Et|].
  rewrite He. unfold encode. rewrite length_encode, length_app. cbn. lia.
Qed.

(** ** Removing a rule *)

Lemma flat_ok_remove l1 l2 y b : flat_ok (l1 ++ (y, b) :: l2) -> no_head y -> flat_ok (l1 ++ l2).
Proof.
  intros [H1 H2] Hh. apply Forall_app in H1 as [Ha Hb]. apply Forall_cons_1 in Hb as [Hy Hb]. pose proof (item_pos _ _ Hy).
  split.
  - apply Forall_app_2; (eapply Forall_impl; [eassumption|]); intros z Hz; by apply (item_ok_insert l1 l2 y b).
  - rewrite flat_size_app in H2 |- *. cbn in *. lia.
Qed.

Lemma offsets_alter_mark o b k l : offsets_from o (alter (with_builtin b) k l) = alter (with_builtin b) k (offsets_from o l).
Proof. revert o k. induction l as [|e l IH]; intros o [|k]; cbn; [done..|]. f_equal. apply IH. Qed.

Lemma length_offsets o l : length (offsets_from o l) = length l.
Proof. revert o. induction l as [|e l IH]; intros o; cbn; [done|]. by rewrite IH. Qed.

Lemma builtin_offsets o l : map builtin (offsets_from o l) = map builtin l.
Proof. revert o. induction l as [|e l IH]; intros o; cbn; [done|]. by rewrite IH. Qed.

Lemma marks_offsets k l : marks (drop k (offsets_from 0 l)) = marks (drop k l).
Proof. unfold marks. change (map builtin) with (fmap (M := list) builtin) in *. rewrite !fmap_drop.
  change (fmap (M := list) builtin) with (map builtin). by rewrite builtin_offsets. Qed.

Lemma remove_at_alter {A} (f : A -> A) k (l : list A) : remove_at k (alter f k l) = remove_at k l.
Proof. unfold remove_at. by rewrite take_alter_ge, drop_alter_lt by lia. Qed.

Lemma flat_without a c1 c c2 r1 r2 x post :
  r2 ++ [c_foot c] = x :: post -> flat (set_chain a c1 c c2 (r1 ++ r2)) = before c1 c r1 ++ (x, mark_at c r1) :: behind post c2 a.
Proof. intros Ex. by rewrite (flat_at (set_chain a c1 c c2 (r1 ++ r2)) c1 (set_rules (r1 ++ r2) c) c2 r1 r2 x post). Qed.

(** The steps of a deletion, from the position of the rule on. *)
Definition delete_at (t : connman_iptables) (chain_head i : nat) (b : Z) : option connman_iptables :=
  let t := if (0 <=? b) && (i =? chain_head)%nat
           then with_entries (alter (with_builtin b) (S chain_head) (entries t)) t else t in
  let t := match entries t !! S i with
           | Some next => update_targets_reference t (offset next) i true
           | None => t
           end in
  '(removed, t) ← remove_table_entry t i;
  t ← (if 0 <=? b then delete_update_hooks t b chain_head removed else Some t);
  Some (update_offsets t).

Lemma marked_entries a t c1 c c2 r1 y r2 x post :
  table_ok a -> represents t a -> a_chains a = c1 ++ c :: c2 -> c_rules c = r1 ++ y :: r2 -> r2 ++ [c_foot c] = x :: post ->
  entries (if (0 <=? c_hook c) && (length (before c1 c r1) =? length (flats c1))%nat
           then with_entries (alter (with_builtin (c_hook c)) (S (length (flats c1))) (entries t)) t else t) =
  encode (before c1 c r1 ++ (y, mark_at c r1) :: (x, mark_at c r1) :: behind post c2 a).
Proof.
  intros Ha Ht E Er Ex. assert (Ef : flat a = before c1 c r1 ++ (y, mark_at c r1) :: (x, -1) :: behind post c2 a).
  { rewrite (flat_at a c1 c c2 r1 (y :: r2) y (x :: post)); [done..|]. cbn. by rewrite Ex. }
  rewrite length_before. destruct (ok_kind _ (chain_at a c1 c c2 Ha E)) as [(Hh & Ehd & _)|(Hh & (h & Ehd & _) & _)].
  - rewrite (proj2 (Z.leb_le 0 (c_hook c)) Hh), Ehd. cbn [andb length]. destruct r1 as [|z r1].
    + rewrite (proj2 (Nat.eqb_eq _ _)) by (cbn; lia). cbn [entries with_entries]. rewrite (rep_entries _ _ Ht), Ef.
      destruct (before_empty c1 c []) as [Hb Hm]; [by rewrite Ehd|]. rewrite Hb, Hm.
      rewrite !(cons_middle (y, c_hook c)), !app_assoc.
      replace (S (length (flats c1))) with (length (flats c1 ++ [(y, c_hook c)])) by (rewrite length_app; cbn; lia).
      apply encode_alter_mark.
    + rewrite (proj2 (Nat.eqb_neq _ _)) by (cbn; lia). rewrite (rep_entries _ _ Ht), Ef.
      by rewrite mark_at_later by (by rewrite Ehd).
  - rewrite Hh. cbn [Z.leb Z.compare andb]. rewrite (rep_entries _ _ Ht), Ef. by rewrite mark_at_later by (by rewrite Ehd).
Qed.

Lemma delete_at_run a t c1 c c2 r1 y r2 :
  table_ok a -> represents t a -> a_chains a = c1 ++ c :: c2 -> c_rules c = r1 ++ y :: r2 ->
  exists t', delete_at t (length (flats c1)) (length (before c1 c r1)) (c_hook c) = Some t' /\
    represents t' (set_chain a c1 c c2 (r1 ++ r2)) /\ table_ok (set_chain a c1 c c2 (r1 ++ r2)).
Proof.
  intros Ha Ht E Er. destruct (r2 ++ [c_foot c]) as [|x post] eqn:Ex; [by destruct r2|].
  pose proof (ok_plain _ (chain_at a c1 c c2 Ha E)) as Hpl. rewrite Er, <- app_assoc in Hpl. cbn in Hpl.
  apply Forall_app in Hpl as [Hp1 Hp2]. apply Forall_cons_1 in Hp2 as [Hh Hp2]. rewrite Ex in Hp2.
  set (m := mark_at c r1). set (g := before c1 c r1 ++ (y, m) :: (x, m) :: behind post c2 a).
  pose proof (marked_entries a t c1 c c2 r1 y r2 x post Ha Ht E Er Ex) as He. fold m g in He.
  unfold delete_at.
  set (t0 := if (0 <=? c_hook c) && (length (before c1 c r1) =? length (flats c1))%nat
             then with_entries (alter (with_builtin (c_hook c)) (S (length (flats c1))) (entries t)) t else t) in *.
  assert (Ht0 : num_entries t0 = num_entries t /\ size t0 = size t /\ underflow t0 = underflow t /\ hook_entry t0 = hook_entry t)
    by (unfold t0; by destruct (_ && _)). destruct Ht0 as (Tn & Ts & Tu & Th).
  assert (Ef : flat a = before c1 c r1 ++ (y, m) :: (x, -1) :: behind post c2 a).
  { rewrite (flat_at a c1 c c2 r1 (y :: r2) y (x :: post)); [done..|]. cbn. by rewrite Ex. }
  assert (Em : map fst (flat a) = map fst g) by (unfold g; rewrite Ef, !map_app; done).
  assert (Hok : flat_ok g) by (apply (flat_ok_marks (flat a)); [done|by apply ok_flat]).
  assert (Ef' := flat_without a c1 c c2 r1 r2 x post Ex). fold m in Ef'.
  assert (Hok' : flat_ok (flat (set_chain a c1 c c2 (r1 ++ r2)))) by (rewrite Ef'; by apply (flat_ok_remove _ _ y m)).
  set (o := flat_size (before c1 c r1)). set (sz := item_size y).
  assert (Hnext : exists nx, entries t0 !! S (length (before c1 c r1)) = Some nx /\ offset nx = o + sz).
  { rewrite He. unfold encode, g. set (g0 := before c1 c r1 ++ _ :: _) at 1. rewrite (cons_middle (y, m)), app_assoc.
    replace (S (length (before c1 c r1))) with (length (before c1 c r1 ++ [(y, m)])) by (rewrite length_app; cbn; lia).
    rewrite lookup_encode. eexists. split; [done|]. cbn. rewrite flat_size_app. cbn. unfold o, sz. lia. }
  destruct Hnext as (nx & Enx & Onx). rewrite Enx, Onx.
  assert (Hy : exists ey, entries t0 !! length (before c1 c r1) = Some ey /\ entry_size ey = sz).
  { rewrite He. unfold encode, g. set (g0 := before c1 c r1 ++ _ :: _) at 1. rewrite lookup_encode. eexists. split; [done|]. apply resolve_size. }
  destruct Hy as (ey & Eey & Sey). unfold update_targets_reference. rewrite Eey, Sey.
  unfold remove_table_entry at 1. cbn [entries with_entries].
  rewrite list_lookup_alter_eq, list_lookup_fmap, Eey. cbn [fmap option_fmap option_map mbind option_bind].
  assert (Sz : entry_size (fall_through (o + sz) (move_jump (o + sz) sz true ey)) = sz).
  { transitivity (entry_size (move_jump (o + sz) sz true ey)); [|by rewrite size_move]. unfold fall_through. by destruct (is_fallthrough _). }
  rewrite Sz, remove_at_alter.
  set (L := remove_at (length (before c1 c r1)) (map (move_jump (o + sz) sz true) (entries t0))).
  assert (HL : offsets_from 0 L = encode (flat (set_chain a c1 c c2 (r1 ++ r2)))).
  { unfold L. rewrite He, Ef'. by apply remove_encode. }
  pose proof (length_le_size _ _ (proj1 Hok)) as Hll. pose proof (proj2 Hok) as Hlt.
  assert (Hlen : length (flat a) = length g) by (by rewrite <- (length_map fst (flat a)), Em, length_map).
  assert (Hsz : flat_size (flat a) = flat_size g) by (by apply flat_size_marks).
  assert (Hl1 : Z.of_nat (length g) = Z.of_nat (length (flat (set_chain a c1 c c2 (r1 ++ r2)))) + 1).
  { rewrite Ef'. unfold g. rewrite !length_app. cbn [length]. lia. }
  assert (Hs1 : flat_size g = flat_size (flat (set_chain a c1 c c2 (r1 ++ r2))) + sz).
  { rewrite Ef'. unfold g. rewrite !flat_size_app. cbn [flat_size]. unfold sz. lia. }
  pose proof (flat_size_nonneg _ _ (proj1 Hok')) as Hnn.
  assert (Hpy : 0 < sz).
  { destruct Hok as [Hall _]. unfold g in Hall at 2. apply Forall_app in Hall as [_ Hall]. apply Forall_cons_1 in Hall as [Hall _]. by destruct Hall. }
  assert (Hsizes : items_size (r1 ++ r2) = items_size (c_rules c) + - sz).
  { rewrite Er, !items_size_app. cbn. unfold sz. lia. }
  assert (Hto : table_ok (set_chain a c1 c c2 (r1 ++ r2))).
  { apply table_ok_set; [done..|]. rewrite <- Ex in Hp2. apply Forall_app in Hp2 as [Hp2 _]. by apply Forall_app_2. }
  set (k := length (flats c1)). cbn [with_size with_entries entries num_entries size underflow hook_entry].
  destruct (Z.leb_spec 0 (c_hook c)) as [Hhk|Hhk].
  - unfold delete_update_hooks. cbn [entries]. destruct (chain_items_nonempty (set_rules (r1 ++ r2) c)) as (z & l & Ei).
    assert (Efs : flat (set_chain a c1 c c2 (r1 ++ r2)) = flats c1 ++ (z, c_hook c) :: map (fun x => (x, -1)) l ++ flats c2 ++ [(a_final a, -1)]).
    { rewrite (flat_split (set_chain a c1 c c2 (r1 ++ r2)) c1 (set_rules (r1 ++ r2) c) c2 eq_refl), (flat_chain_cons _ _ _ Ei). done. }
    assert (Hk : is_Some (L !! k)).
    { apply lookup_lt_is_Some_2. rewrite <- (length_offsets 0 L).
      rewrite HL, Efs. unfold encode. rewrite length_encode, length_app. cbn. unfold k. lia. }
    destruct Hk as [ek Hk]. cbn [entries with_size with_entries]. fold L k. rewrite Hk. cbn [mbind option_bind]. eexists. split; [reflexivity|].
    rewrite move_hooks_eq. cbn [entries with_entries with_hooks underflow hook_entry].
    assert (Hmk : marks (drop (S k) (alter (with_builtin (c_hook c)) k L)) = hooks c2).
    { rewrite drop_alter_lt by lia. rewrite <- (marks_offsets (S k) L), HL.
      apply (drop_marks (set_chain a c1 c c2 (r1 ++ r2)) c1 (set_rules (r1 ++ r2) c) c2 eq_refl). }
    rewrite Hmk.
    split; [|done]. split; unfold update_offsets; cbn [entries with_entries with_hooks num_entries size with_size].
    + rewrite offsets_alter_mark, HL, Efs. apply encode_alter_mark.
    + rewrite Tn, (rep_num _ _ Ht), u32_small; lia.
    + rewrite Ts, (rep_size _ _ Ht), u32_small; lia.
    + apply (hooks_change a _ t _ c1 c c2 (r1 ++ r2) (- sz)); [done|by apply rep_hooks|done|done|done|done| |].
      * cbn. by rewrite (proj2 (Z.leb_le 0 (c_hook c)) Hhk), Tu.
      * cbn. by rewrite Th.
  - cbn [mbind option_bind]. eexists. split; [reflexivity|]. split; [|done]. split; unfold update_offsets; cbn [entries with_entries num_entries size with_size].
    + done.
    + rewrite Tn, (rep_num _ _ Ht), u32_small; lia.
    + rewrite Ts, (rep_size _ _ Ht), u32_small; lia.
    + pose proof (hooks_none c2 (ok_order _ Ha c1 c c2 E Hhk)) as Hno.
      apply (hooks_change a _ t _ c1 c c2 (r1 ++ r2) (- sz)); [done|by apply rep_hooks|done|done|done|done| |]; rewrite Hno; cbn.
      * by rewrite (proj2 (Z.leb_gt 0 (c_hook c)) Hhk).
      * done.
Qed.

(** ** Rules as they are asked for *)

Inductive goto :=
| To_verdict (v : Z)
| To_chain (name : list Z)
| To_extension (t : xt_entry_target)
| To_next.

Record rule := mk_rule { r_ip : list Z; r_matches : list xt_entry_match; r_to : goto }.

(** The target that is prepared for a rule, in a table. *)
Definition xt_of (g : list (item * Z)) (to : goto) : option xt_entry_target :=
  match to with
  | To_verdict v => Some (mk_target standard_target_size XT_STANDARD_TARGET v [])
  | To_chain name => Some (mk_target standard_target_size XT_STANDARD_TARGET (start_of name 0 g) [])
  | To_extension t => Some t
  | To_next => None
  end.

Definition to_target (to : goto) : xt_entry_target :=
  match to with
  | To_verdict v => mk_target standard_target_size XT_STANDARD_TARGET v []
  | To_extension t => t
  | _ => mk_target standard_target_size XT_STANDARD_TARGET 0 []
  end.

Definition to_link (to : goto) : link :=
  match to with To_chain name => Jump name | To_next => Next | _ => Fixed end.

Definition rule_size (f : family) (r : rule) : Z :=
  entry_struct_size f + target_size (to_target (r_to r)) + matches_size (r_matches r).

Definition rule_item (f : family) (r : rule) : item :=
  mk_item (mk_ipt_entry (r_ip r) (entry_struct_size f + matches_size (r_matches r)) (rule_size f r) (r_matches r) (to_target (r_to r)))
    (-1) (to_link (r_to r)).

Record rule_ok (f : family) (a : atable) (r : rule) : Prop := {
  ok_matches : 0 <= matches_size (r_matches r);
  ok_size : rule_size f r < 2 ^ 16;
  ok_fits : flat_size (flat a) + rule_size f r < 2 ^ 31;
  ok_to : match r_to r with
          | To_verdict v => no_jump v = true
          | To_chain name => exists c, c ∈ a_chains a /\ c_name c = name /\ c_hook c < 0
          | To_extension t => t_name t <> XT_STANDARD_TARGET /\ t_name t <> XT_ERROR_TARGET /\ 0 <= target_size t
          | To_next => True
          end;
}.

Lemma chain_has_head a c : table_ok a -> c ∈ a_chains a -> c_hook c < 0 -> existsb (fun y => is_head (c_name c) y.1) (flat a) = true.
Proof.
  intros Ha Hc Hh. apply list_elem_of_split in Hc as (c1 & c2 & E). pose proof (chain_at a c1 c c2 Ha E) as Hok.
  destruct (ok_kind _ Hok) as [(? & _)|(_ & (x & Ehd & Hx & _) & _)]; [lia|].
  rewrite (flat_split _ _ _ _ E). rewrite !existsb_app.
  assert (Ei : chain_items c = x :: c_rules c ++ [c_foot c]) by (unfold chain_items; by rewrite Ehd).
  rewrite (flat_chain_cons _ _ _ Ei). cbn. rewrite Hx. cbn. by rewrite orb_true_r.
Qed.

Lemma struct_size_pos f : 0 < entry_struct_size f.
Proof. by destruct f. Qed.

Lemma to_target_size to f a r : rule_ok f a r -> r_to r = to -> 0 <= target_size (to_target to).
Proof. intros [_ _ _ H] <-. destruct (r_to r); cbn; try done. by destruct H as (_ & _ & ?). Qed.

Lemma rule_addable f a r : table_ok a -> rule_ok f a r -> addable a (rule_item f r).
Proof.
  intros Ha Hr. pose proof (to_target_size _ _ _ _ Hr eq_refl). pose proof (struct_size_pos f). destruct Hr as [H1 H2 H3 H4].
  split; [split| |done].
  - unfold item_size. cbn. unfold rule_size. lia.
  - cbn. intros El Est. destruct (r_to r); cbn in *; try done. by destruct H4 as (? & _).
  - cbn. intros El. by destruct (r_to r).
  - cbn. intros name El. destruct (r_to r); cbn in El; simplify_eq. destruct H4 as (c & Hc & <- & Hh). by apply chain_has_head.
  - unfold no_head. cbn. destruct (r_to r); cbn; try done. by destruct H4 as (_ & ? & _).
Qed.

Lemma rule_given f a r ok :
  table_ok a -> rule_ok f a r -> ok 0%nat = true -> ok 1%nat = true ->
  exists e, new_rule ok f (r_ip r) (xt_of (flat a) (r_to r)) (r_matches r) = Some e /\ given (flat a) (rule_item f r) e.
Proof.
  intros Ha Hr O0 O1. pose proof (to_target_size _ _ _ _ Hr eq_refl). pose proof (struct_size_pos f). destruct Hr as [H1 H2 H3 H4].
  unfold new_rule. rewrite O0, O1. cbn [negb orb]. eexists. split; [reflexivity|].
  assert (Hts : match xt_of (flat a) (r_to r) with Some t => target_size t | None => standard_target_size end = target_size (to_target (r_to r)))
    by (by destruct (r_to r)). rewrite Hts. unfold rule_size in *.
  rewrite !u16_small by lia.
  unfold given, rule_item. cbn [i_link i_raw]. unfold rule_size.
  destruct (r_to r); cbn [to_link xt_of to_target default from_option] in *; unfold id; try done.
  cbn. split; [done|]. split; [unfold standard_target_size; lia|]. done.
Qed.

(** C16: Adding a rule to a chain of a table, at its end or in front, does exactly that to the chains: all
    other rules, the verdicts, the chains that jumps lead to and the policies stay as they are, the offsets
    and the hooks of the kernel's chains are those of the new table, and the table stays well-formed. *)
Theorem rules_added a t c1 c c2 ok r :
  table_ok a -> represents t a -> a_chains a = c1 ++ c :: c2 -> (forall n, ok n = true) -> rule_ok (type t) a r ->
  (exists t', iptables_append_rule ok t (r_ip r) (c_name c) (xt_of (flat a) (r_to r)) (r_matches r) = Some (0, t') /\
     let a' := set_chain a c1 c c2 (c_rules c ++ [rule_item (type t) r]) in represents t' a' /\ table_ok a') /\
  (exists t', iptables_insert_rule ok t (r_ip r) (c_name c) (xt_of (flat a) (r_to r)) (r_matches r) = Some (0, t') /\
     let a' := set_chain a c1 c c2 (rule_item (type t) r :: c_rules c) in represents t' a' /\ table_ok a').
Proof.
  intros Ha Ht E Ok Hr. destruct (rule_given (type t) a r ok Ha Hr (Ok _) (Ok _)) as (e & En & Hg).
  pose proof (rule_addable (type t) a r Ha Hr) as Hadd. split; cbv zeta.
  - by apply (append_run a t c1 c c2 ok (r_ip r) _ _ _ e).
  - by apply (insert_run a t c1 c c2 ok (r_ip r) _ _ _ e).
Qed.

(** ** The rule that is deleted *)

(** The entries that hold the rules of a chain. *)
Definition stored (a : atable) (c1 : list chain) (c : chain) : list ipt_entry :=
  map entry (take (length (c_rules c)) (drop (length (before c1 c [])) (encode (flat a)))).

Lemma search_found n i p l k :
  (forall j, (j < k)%nat -> exists e, l !! (i + j)%nat = Some e /\ p (entry e) = Some false) ->
  (exists e, l !! (i + k)%nat = Some e /\ p (entry e) = Some true) -> (k < n)%nat -> search_rule n i p l = Some (Some (i + k)%nat).
Proof.
  revert i k. induction n as [|n IH]; intros i k Hb Hk Hlt; [lia|]. cbn [search_rule]. destruct k as [|k].
  - destruct Hk as (e & He & Hp). rewrite Nat.add_0_r in He |- *. rewrite He. cbn. by rewrite Hp.
  - destruct (Hb 0%nat) as (e & He & Hp); [lia|]. rewrite Nat.add_0_r in He. rewrite He. cbn [mbind option_bind]. rewrite Hp. cbn [mbind option_bind].
    replace (i + S k)%nat with (S i + k)%nat by lia. apply IH; [| |lia].
    + intros j Hj. destruct (Hb (S j)) as (e' & He' & Hp'); [lia|]. exists e'. by replace (S i + j)%nat with (i + S j)%nat by lia.
    + by replace (S i + k)%nat with (i + S k)%nat by lia.
Qed.

Lemma search_none n i p l :
  (forall j, (j < n)%nat -> exists e, l !! (i + j)%nat = Some e /\ p (entry e) = Some false) -> search_rule n i p l = Some None.
Proof.
  revert i. induction n as [|n IH]; intros i Hb; [done|]. cbn [search_rule].
  destruct (Hb 0%nat) as (e & He & Hp); [lia|]. rewrite Nat.add_0_r in He. rewrite He. cbn [mbind option_bind]. rewrite Hp. cbn [mbind option_bind]. apply IH.
  intros j Hj. destruct (Hb (S j)) as (e' & He' & Hp'); [lia|]. exists e'. by replace (S i + j)%nat with (i + S j)%nat by lia.
Qed.

Lemma stored_lookup a t c1 c j e :
  represents t a -> stored a c1 c !! j = Some e ->
  (j < length (c_rules c))%nat /\ exists x, entries t !! (length (before c1 c []) + j)%nat = Some x /\ entry x = e.
Proof.
  intros Ht E. unfold stored in E. rewrite list_lookup_fmap in E. apply fmap_Some in E as (x & E & ->).
  apply lookup_take_Some in E as [E Hj]. split; [done|]. exists x. by rewrite (rep_entries _ _ Ht), <- lookup_drop.
Qed.

Lemma length_stored a c1 c c2 : a_chains a = c1 ++ c :: c2 -> length (stored a c1 c) = length (c_rules c).
Proof.
  intros E. unfold stored. rewrite length_map, length_take, length_drop. unfold encode. rewrite length_encode, (flat_split _ _ _ _ E).
  rewrite length_before, !length_app, length_flat_chain. unfold chain_items. rewrite !length_app. cbn. lia.
Qed.

Lemma find_existing_run a t c1 c c2 ok ip xt_t rm test :
  table_ok a -> represents t a -> a_chains a = c1 ++ c :: c2 -> new_rule ok (type t) ip xt_t rm = Some test ->
  is_Some xt_t \/ rm <> [] ->
  find_existing_rule ok t ip (c_name c) xt_t rm =
  search_rule (length (c_rules c)) (length (before c1 c [])) (same_rule test xt_t rm) (entries t).
Proof.
  intros Ha Ht E En Hany. unfold find_existing_rule. rewrite (find_head a t c1 c c2), (find_tail a t c1 c c2) by done.
  assert (Hgo : forall X, (match xt_t, rm with None, [] => Some None | _, _ => X end) = (X : option (option nat))).
  { intros X. destruct xt_t; [done|]. destruct rm; [|done]. by destruct Hany as [[? ?]|?]. }
  rewrite Hgo, En. cbn [mbind option_bind]. destruct (chain_items_nonempty c) as (x & l & Ei).
  rewrite (first_entry a t c1 c c2 x l) by done. cbn [mbind option_bind builtin].
  assert (Hfirst : (if 0 <=? c_hook c then length (flats c1) else S (length (flats c1))) = length (before c1 c [])).
  { rewrite length_before. destruct (ok_kind _ (chain_at a c1 c c2 Ha E)) as [(Hh & Ehd & _)|(Hh & (h & Ehd & _) & _)]; rewrite Ehd; cbn [length].
    - rewrite (proj2 (Z.leb_le 0 (c_hook c)) Hh). lia.
    - rewrite Hh. cbn. lia. }
  rewrite Hfirst. rewrite length_before. unfold chain_items. rewrite !length_app. cbn [length].
  rewrite (proj2 (Nat.eqb_neq _ _)) by lia. rewrite (proj2 (Nat.leb_gt _ _)) by lia.
  f_equal. lia.
Qed.

Lemma delete_found a t c1 c c2 ok ip xt_t rm i :
  table_ok a -> represents t a -> a_chains a = c1 ++ c :: c2 ->
  find_existing_rule ok t ip (c_name c) xt_t rm = Some (Some i) ->
  iptables_delete_rule ok t ip (c_name c) xt_t rm = (t' ← delete_at t (length (flats c1)) i (c_hook c); Some (0, t')).
Proof.
  intros Ha Ht E Ef. unfold iptables_delete_rule, delete_at. rewrite (find_head a t c1 c c2), (find_tail a t c1 c c2), Ef by done.
  destruct (chain_items_nonempty c) as (x & l & Ei). rewrite (first_entry a t c1 c c2 x l) by done. cbn [mbind option_bind builtin].
  destruct (remove_table_entry _ i) as [[removed t1]|]; cbn [mbind option_bind]; [|done].
  by destruct (if 0 <=? c_hook c then _ else _).
Qed.

Lemma before_take c1 c k : (k <= length (c_rules c))%nat -> length (before c1 c (take k (c_rules c))) = (length (before c1 c []) + k)%nat.
Proof. intros Hk. rewrite !length_before, length_take. cbn. lia. Qed.

(** The first of the rules that are taken for the one given is removed. *)
Lemma rule_deleted a t c1 c c2 ok ip xt_t rm test k e :
  table_ok a -> represents t a -> a_chains a = c1 ++ c :: c2 -> new_rule ok (type t) ip xt_t rm = Some test ->
  is_Some xt_t \/ rm <> [] -> stored a c1 c !! k = Some e -> same_rule test xt_t rm e = Some true ->
  Forall (fun e => same_rule test xt_t rm e = Some false) (take k (stored a c1 c)) ->
  exists t', iptables_delete_rule ok t ip (c_name c) xt_t rm = Some (0, t') /\
    let a' := set_chain a c1 c c2 (take k (c_rules c) ++ drop (S k) (c_rules c)) in represents t' a' /\ table_ok a'.
Proof.
  intros Ha Ht E En Hany He Hs Hb. destruct (stored_lookup a t c1 c k e Ht He) as (Hk & x & Ex & Ee).
  assert (Ef : find_existing_rule ok t ip (c_name c) xt_t rm = Some (Some (length (before c1 c []) + k)%nat)).
  { rewrite (find_existing_run a t c1 c c2 ok ip xt_t rm test) by done. apply search_found; [| |done].
    - intros j Hj. destruct (lookup_lt_is_Some_2 (stored a c1 c) j) as [ej Hej].
      { apply lookup_lt_Some in He. lia. }
      destruct (stored_lookup a t c1 c j ej Ht Hej) as (_ & xj & Exj & <-). exists xj. split; [done|].
      rewrite list.Forall_forall in Hb. apply Hb. apply list_elem_of_lookup. exists j. by rewrite lookup_take_lt.
    - exists x. split; [done|]. by rewrite Ee. }
  rewrite (delete_found a t c1 c c2 ok ip xt_t rm _ Ha Ht E Ef).
  destruct (lookup_lt_is_Some_2 (c_rules c) k Hk) as [y Hy].
  destruct (delete_at_run a t c1 c c2 (take k (c_rules c)) y (drop (S k) (c_rules c)) Ha Ht E) as (t' & Et & H1 & H2).
  { symmetry. by apply take_drop_middle. }
  rewrite before_take in Et by lia. rewrite Et. by exists t'.
Qed.

Lemma rule_not_found a t c1 c c2 ok ip xt_t rm test :
  table_ok a -> represents t a -> a_chains a = c1 ++ c :: c2 -> new_rule ok (type t) ip xt_t rm = Some test ->
  is_Some xt_t \/ rm <> [] -> Forall (fun e => same_rule test xt_t rm e = Some false) (stored a c1 c) ->
  iptables_delete_rule ok t ip (c_name c) xt_t rm = Some (- EINVAL, t).
Proof.
  intros Ha Ht E En Hany Hb.
  assert (Ef : find_existing_rule ok t ip (c_name c) xt_t rm = Some None).
  { rewrite (find_existing_run a t c1 c c2 ok ip xt_t rm test) by done. apply search_none.
    intros j Hj. destruct (lookup_lt_is_Some_2 (stored a c1 c) j) as [ej Hej].
    { by rewrite (length_stored a c1 c c2). }
    destruct (stored_lookup a t c1 c j ej Ht Hej) as (_ & xj & Exj & <-). exists xj. split; [done|].
    rewrite list.Forall_forall in Hb. apply Hb. apply list_elem_of_lookup. by exists j. }
  unfold iptables_delete_rule. rewrite (find_head a t c1 c c2), (find_tail a t c1 c c2), Ef by done. done.
Qed.

(** A rule that can be looked for: it has a target or a match, of the sizes their headers have. *)
Record findable (r : rule) : Prop := {
  find_some : r_to r <> To_next \/ r_matches r <> [];
  find_target t : r_to r = To_extension t -> standard_target_size <= target_size t;
  find_match m l : r_matches r = m :: l -> entry_match_size <= match_size m;
}.

Lemma same_target_self to f a r g v :
  rule_ok f a r -> findable r -> r_to r = to -> is_Some (xt_of g to) ->
  forall t, xt_of g to = Some t -> is_same_target (set_verdict v (to_target to)) t = Some true.
Proof.
  intros [_ _ _ Hto] [_ Hf _] E Hs t Ht. rewrite E in Hto. unfold is_same_target.
  destruct to; cbn in Ht; simplify_eq; cbn [to_target set_verdict t_name target_size t_data]; [done|done|].
  destruct Hto as (Hn & _ & _). pose proof (Hf _ E).
  assert (bytes_eqb (t_name t) [] = false) as -> by (by apply bool_decide_eq_false_2).
  assert (bytes_eqb (t_name t) XT_STANDARD_TARGET = false) as -> by (by apply bool_decide_eq_false_2).
  cbn [andb]. rewrite Z.eqb_refl, !bytes_eqb_refl. cbn [negb]. rewrite (proj2 (Z.ltb_ge _ _)) by lia. done.
Qed.

Lemma same_rule_self f a g r ok o test :
  table_ok a -> rule_ok f a r -> findable r ->
  new_rule ok f (r_ip r) (xt_of g (r_to r)) (r_matches r) = Some test ->
  same_rule test (xt_of g (r_to r)) (r_matches r) (resolve g o (rule_item f r)) = Some true.
Proof.
  intros Ha Hr Hfd En. pose proof (to_target_size _ _ _ _ Hr eq_refl). pose proof (struct_size_pos f). pose proof Hr as [H1 H2 H3 H4].
  unfold new_rule in En. destruct (_ || _); [done|]. injection En as <-.
  assert (Hts : match xt_of g (r_to r) with Some t => target_size t | None => standard_target_size end = target_size (to_target (r_to r)))
    by (by destruct (r_to r)). rewrite Hts. unfold rule_size in *.
  set (e := resolve g o (rule_item f r)).
  assert (He : ip e = r_ip r /\ target_offset e = entry_struct_size f + matches_size (r_matches r) /\
    next_offset e = entry_struct_size f + target_size (to_target (r_to r)) + matches_size (r_matches r) /\ elems e = r_matches r /\
    exists v, target e = set_verdict v (to_target (r_to r))).
  { unfold e, resolve, rule_item. cbn [i_link i_raw]. unfold item_size, rule_size. cbn.
    destruct (r_to r); cbn; (split; [done|]); (split; [done|]); (split; [done|]); (split; [done|]);
      first [by eexists | exists (t_verdict t); by destruct t]. }
  destruct He as (E1 & E2 & E3 & E4 & v & E5). unfold same_rule, is_same_iptables_entry. cbn [ip target_offset next_offset elems target].
  rewrite E1, E2, E3, bytes_eqb_refl, !u16_small, !Z.eqb_refl by lia. cbn [andb negb].
  assert (Htg : match xt_of g (r_to r) with Some _ => is_same_target (target e) (default no_target (xt_of g (r_to r))) | None => Some true end = Some true).
  { destruct (xt_of g (r_to r)) as [t|] eqn:Ext; [|done]. rewrite E5. cbn [default from_option]. unfold id.
    apply (same_target_self (r_to r) f a r g v Hr Hfd eq_refl); [by exists t|done]. }
  rewrite Htg. cbn [mbind option_bind negb]. rewrite E4. destruct (r_matches r) as [|m l] eqn:Em; [done|].
  pose proof (find_match _ Hfd m l Em). unfold is_same_match. rewrite !Z.eqb_refl, !bytes_eqb_refl. cbn [negb].
  by rewrite (proj2 (Z.ltb_ge _ _)) by lia.
Qed.

(** The entry of a rule in the middle of a chain. *)
Lemma stored_rule a c1 c c2 r1 y r2 :
  a_chains a = c1 ++ c :: c2 -> c_rules c = r1 ++ y :: r2 ->
  stored a c1 c !! length r1 = Some (resolve (flat a) (flat_size (before c1 c r1)) y).
Proof.
  intros E Er. unfold stored. rewrite list_lookup_fmap, lookup_take_lt by (rewrite Er, length_app; cbn; lia).
  rewrite lookup_drop. destruct (r2 ++ [c_foot c]) as [|x post] eqn:Ex; [by destruct r2|].
  replace (length (before c1 c []) + length r1)%nat with (length (before c1 c r1)) by (rewrite !length_before; cbn; lia).
  unfold encode. set (g := flat a) at 1 3. rewrite (flat_at a c1 c c2 r1 (y :: r2) y (x :: post)); [|done|done|by cbn; rewrite Ex].
  by rewrite lookup_encode.
Qed.

Lemma set_chain_back a c1 c c2 r : a_chains a = c1 ++ c :: c2 -> set_chain (set_chain a c1 c c2 r) c1 (set_rules r c) c2 (c_rules c) = a.
Proof. intros E. destruct a as [cs fin]. cbn in E. subst cs. unfold set_chain, set_rules. cbn. by destruct c. Qed.

Lemma rule_ok_set f a c1 c c2 r rs :
  a_chains a = c1 ++ c :: c2 -> rule_ok f a r -> flat_size (flat (set_chain a c1 c c2 rs)) + rule_size f r < 2 ^ 31 ->
  rule_ok f (set_chain a c1 c c2 rs) r.
Proof.
  intros E [H1 H2 H3 H4] Hs. split; [done..|]. destruct (r_to r); try done. destruct H4 as (d & Hd & Hn & Hh).
  cbn. rewrite E in Hd. apply elem_of_app in Hd as [Hd|[->|Hd]%elem_of_cons].
  - exists d. split; [apply elem_of_app; by left|done].
  - exists (set_rules rs c). split; [apply elem_of_app; right; constructor|done].
  - exists d. split; [apply elem_of_app; right; by constructor|done].
Qed.

Lemma type_add ok t e bf b idx : type (iptables_add_entry ok t e bf b idx).2 = type t.
Proof.
  unfold iptables_add_entry. destruct ok; [|done]. cbn [negb]. destruct bf as [i|]; [|done]. cbn [mbind option_bind].
  destruct (offset <$> entries t !! i); [|done]. cbn [snd]. unfold update_offsets, update_targets_reference.
  by destruct (entries _ !! i).
Qed.

Lemma type_append ok t ip n xt rm r t1 : iptables_append_rule ok t ip n xt rm = Some (r, t1) -> type t1 = type t.
Proof.
  unfold iptables_append_rule. destruct (find_chain_tail t n); [|intros; by simplify_eq].
  destruct (prepare_rule_inclusion ok t ip n xt rm false) as [[[e b] t0]|] eqn:Ep; [|intros; by simplify_eq].
  intros E. injection E as E. assert (Ht1 : t1 = (r, t1).2) by done. rewrite Ht1, <- E, type_add. clear E Ht1.
  unfold prepare_rule_inclusion in Ep. destruct (find_chain_head t n) as [h|]; [|done]. cbn [mbind option_bind] in Ep.
  destruct (find_chain_tail t n); [|done]. cbn [mbind option_bind] in Ep. destruct (new_rule _ _ _ _ _); [|done]. cbn [mbind option_bind] in Ep.
  destruct (entries t !! h) as [hd|] eqn:Eh; [|done]. cbn [mbind option_bind] in Ep.
  assert (Hu : forall x, type (update_hooks t h x) = type t).
  { intros x. unfold update_hooks. rewrite Eh. destruct (_ <? 0); [done|]. by rewrite move_hooks_eq. }
  destruct (builtin hd <? 0); [|destruct (_ || _)]; simplify_eq; cbn; apply Hu.
Qed.

(** C23: Deleting a rule that was appended restores the table, entry by entry, if no rule in front of it is
    taken for the same; the comparison ignores verdicts, the last bytes of targets and all matches but
    the first. *)
Theorem append_delete a t t1 c1 c c2 ok r test :
  table_ok a -> represents t a -> a_chains a = c1 ++ c :: c2 -> (forall n, ok n = true) -> rule_ok (type t) a r -> findable r ->
  iptables_append_rule ok t (r_ip r) (c_name c) (xt_of (flat a) (r_to r)) (r_matches r) = Some (0, t1) ->
  let a1 := set_chain a c1 c c2 (c_rules c ++ [rule_item (type t) r]) in
  let c' := set_rules (c_rules c ++ [rule_item (type t) r]) c in
  new_rule ok (type t) (r_ip r) (xt_of (flat a1) (r_to r)) (r_matches r) = Some test ->
  Forall (fun e => same_rule test (xt_of (flat a1) (r_to r)) (r_matches r) e = Some false) (take (length (c_rules c)) (stored a1 c1 c')) ->
  exists t2, iptables_delete_rule ok t1 (r_ip r) (c_name c) (xt_of (flat a1) (r_to r)) (r_matches r) = Some (0, t2) /\
    represents t2 a /\ entries t2 = entries t /\ size t2 = size t /\ num_entries t2 = num_entries t.
Proof.
  intros Ha Ht E Ok Hr Hfd Eap a1 c' En Hb. assert (Hty := type_append _ _ _ _ _ _ _ _ Eap).
  destruct (rule_given (type t) a r ok Ha Hr (Ok _) (Ok _)) as (e & En0 & Hg).
  destruct (append_run a t c1 c c2 ok (r_ip r) _ _ _ e Ha Ht E (Ok _) En0 (rule_addable _ _ _ Ha Hr) Hg eq_refl) as (t1' & Eap' & Ht1 & Ha1).
  rewrite Eap in Eap'. injection Eap' as <-. fold a1 in Ht1, Ha1.
  assert (E1 : a_chains a1 = c1 ++ c' :: c2) by done.
  assert (Hst := stored_rule a1 c1 c' c2 (c_rules c) (rule_item (type t) r) [] E1 eq_refl).
  destruct (rule_deleted a1 t1 c1 c' c2 ok (r_ip r) (xt_of (flat a1) (r_to r)) (r_matches r) test (length (c_rules c))
    (resolve (flat a1) (flat_size (before c1 c' (c_rules c))) (rule_item (type t) r)) Ha1 Ht1 E1) as (t2 & Ed & H2 & _);
    [by rewrite Hty| |exact Hst| |exact Hb|].
  { destruct (find_some _ Hfd) as [Hto|?]; [left|by right]. destruct (r_to r); cbn; [by eexists..|done]. }
  { by apply (same_rule_self (type t) a (flat a1) r ok). }
  exists t2. split; [exact Ed|]. cbv zeta in H2. cbn [c_rules c' set_rules] in H2.
  assert (Hcut : take (length (c_rules c)) (c_rules c ++ [rule_item (type t) r]) ++
    drop (S (length (c_rules c))) (c_rules c ++ [rule_item (type t) r]) = c_rules c).
  { rewrite take_app_length. rewrite drop_ge by (rewrite length_app; cbn; lia). apply app_nil_r. }
  rewrite Hcut in H2.
  assert (Hback : set_chain a1 c1 c' c2 (c_rules c) = a) by (by apply set_chain_back).
  assert (H3 : represents t2 a) by (by rewrite <- Hback).
  split; [done|]. by rewrite (rep_entries _ _ H3), (rep_size _ _ H3), (rep_num _ _ H3), (rep_entries _ _ Ht), (rep_size _ _ Ht), (rep_num _ _ Ht).
Qed.

(** ** An example: a filter table with a chain of the user *)

Definition demo_verdict (v idx : Z) : item := mk_item (mk_ipt_entry (zeros AF_INET) 112 152 [] (mk_target 40 [] v [])) idx Fixed.
Definition demo_name : list Z := [97].
Definition demo_head (name : list Z) (idx : Z) : item := mk_item (head_entry AF_INET name) idx Fixed.

Definition demo_input : chain := mk_chain 1 [73; 78; 80; 85; 84] [] [] (demo_verdict (-2) 0).
Definition demo_forward : chain := mk_chain 2 [70; 79; 82; 87; 65; 82; 68] [] [] (demo_verdict (-2) 1).
Definition demo_output : chain := mk_chain 3 [79; 85; 84; 80; 85; 84] [] [] (demo_verdict (-2) 2).
Definition demo_user : chain := mk_chain (-1) demo_name [demo_head demo_name 3] [] (demo_verdict XT_RETURN 4).

Definition demo_atable : atable :=
  mk_atable [demo_input; demo_forward; demo_output; demo_user] (demo_head XT_ERROR_TARGET 5).

Definition demo_table : connman_iptables :=
  mk_table AF_INET 14 6 6 (flat_size (flat demo_atable)) [0; 0; 152; 304; 0] [0; 0; 152; 304; 0] (encode (flat demo_atable)).

Definition demo_rule (to : goto) : rule := mk_rule (zeros AF_INET) [] to.

Lemma demo_item_ok g v idx : no_jump v = true -> item_ok g (demo_verdict v idx).
Proof. intros H. by split. Qed.

Lemma demo_head_ok g name idx : item_ok g (demo_head name idx).
Proof. by split. Qed.

Lemma demo_ok : table_ok demo_atable.
Proof.
  split.
  - split; [|by vm_compute]. cbn.
    repeat (apply Forall_cons_2; [first [by apply demo_item_ok | apply demo_head_ok]|]). constructor.
  - repeat (apply Forall_cons_2; [split; [first [by left|right]|by repeat constructor|done]|]); [|constructor].
    split; [done|]. split; [by exists (demo_head demo_name 3)|]. by apply (bool_decide_unpack _).
  - by apply (bool_decide_unpack _).
  - done.
  - intros c1 c c2 E Hc. cbn in E. destruct c1 as [|? [|? [|? [|? c1]]]]; cbn in E; simplify_eq; [done..|by constructor|].
    by destruct c1.
Qed.

Lemma demo_represents : represents demo_table demo_atable.
Proof.
  split; [done|done|done|]. intros c1 c c2 E Hc. cbn in E.
  destruct c1 as [|? [|? [|? [|? c1]]]]; cbn in E; simplify_eq; [by vm_compute..|by destruct c1].
Qed.

Lemma rules_added_witness :
  exists t', iptables_append_rule (fun _ => true) demo_table (zeros AF_INET) (c_name demo_input)
    (xt_of (flat demo_atable) (To_chain demo_name)) [] = Some (0, t') /\
    map (fun e => t_verdict (entry_target e)) (entries t') = [784; -2; -2; -2; 0; -5; 0] /\ hook_entry t' = [0; 0; 304; 456; 0].
Proof.
  destruct (rules_added demo_atable demo_table [] demo_input [demo_forward; demo_output; demo_user] (fun _ => true)
    (demo_rule (To_chain demo_name)) demo_ok demo_represents) as [(t' & E & _) _].
  - reflexivity.
  - reflexivity.
  - split; [by vm_compute|by vm_compute|by vm_compute|]. exists demo_user. split; [by repeat constructor|done].
  - exists t'. split; [exact E|]. vm_compute in E. by injection E as <-.
Defined.

Definition append_to (name : list Z) (to : goto) (a : atable) (t : connman_iptables) : connman_iptables :=
  match iptables_append_rule all_ok t (zeros AF_INET) name (xt_of (flat a) to) [] with
  | Some (_, t) => t
  | None => t
  end.

Lemma append_delete_witness :
  exists t2, iptables_delete_rule all_ok (append_to (c_name demo_input) (To_verdict (-1)) demo_atable demo_table)
    (zeros AF_INET) (c_name demo_input) (xt_of [] (To_verdict (-1))) [] = Some (0, t2) /\ entries t2 = entries demo_table.
Proof.
  destruct (append_delete demo_atable demo_table (append_to (c_name demo_input) (To_verdict (-1)) demo_atable demo_table)
    [] demo_input [demo_forward; demo_output; demo_user] all_ok (demo_rule (To_verdict (-1)))
    (mk_ipt_entry (zeros AF_INET) 112 152 [] (mk_target 40 [] (-1) [])) demo_ok demo_represents) as (t2 & E & _ & H & _).
  - reflexivity.
  - reflexivity.
  - split; by vm_compute.
  - split; [by left|done|done].
  - by vm_compute.
  - by vm_compute.
  - constructor.
  - exists t2. split; [exact E|exact H].
Defined.

(** ** What the code gets wrong *)

Definition verdicts (t : connman_iptables) : list Z := map (fun e => t_verdict (entry_target e)) (entries t).

(** Standard targets have the empty name, which is taken for the absence of a target before their verdicts
    are compared: of a rule that drops and one that accepts, deleting the second deletes the first. *)
Lemma accept_taken_for_drop :
  let input := c_name demo_input in
  let t := append_to input (To_verdict (-2)) demo_atable (append_to input (To_verdict (-1)) demo_atable demo_table) in
  verdicts t = [-1; -2; -2; -2; -2; 0; -5; 0] /\
  exists t', iptables_delete_rule all_ok t (zeros AF_INET) input (xt_of [] (To_verdict (-2))) [] = Some (0, t') /\
    verdicts t' = [-2; -2; -2; -2; 0; -5; 0].
Proof. split; [by vm_compute|]. eexists. split; [by vm_compute|]. by vm_compute. Qed.

Lemma standard_targets_same t1 t2 :
  t_name t1 = XT_STANDARD_TARGET -> t_name t2 = XT_STANDARD_TARGET -> is_same_target t1 t2 = Some true.
Proof. intros E1 E2. unfold is_same_target. by rewrite E1, E2. Qed.

(** The data of the target of an extension starts behind 32 bytes, and is compared as if it started behind
    40: the last eight bytes do not count, and with less than eight the number of bytes wraps around. *)
Lemma extension_data_ignored t d1 d2 :
  t_name t <> XT_STANDARD_TARGET -> length d1 = 8%nat -> length d2 = 8%nat ->
  standard_target_size <= target_size t -> Z.of_nat (length (t_data t)) = target_size t - standard_target_size ->
  is_same_target (mk_target (target_size t) (t_name t) 0 (t_data t ++ d1)) (mk_target (target_size t) (t_name t) 0 (t_data t ++ d2)) = Some true.
Proof.
  intros Hn H1 H2 Hs Hd. unfold is_same_target. cbn [t_name target_size t_data].
  assert (bytes_eqb (t_name t) [] = false) as -> by (by apply bool_decide_eq_false_2).
  assert (bytes_eqb (t_name t) XT_STANDARD_TARGET = false) as -> by (by apply bool_decide_eq_false_2).
  cbn [andb]. rewrite Z.eqb_refl, bytes_eqb_refl. cbn [negb]. rewrite (proj2 (Z.ltb_ge _ _)) by lia.
  rewrite !take_app_length' by lia. by rewrite bytes_eqb_refl.
Qed.

Lemma short_target_overruns t :
  t_name t <> XT_STANDARD_TARGET -> target_size t < standard_target_size -> is_same_target t t = None.
Proof.
  intros Hn Hs. unfold is_same_target.
  assert (bytes_eqb (t_name t) [] = false) as -> by (by apply bool_decide_eq_false_2).
  assert (bytes_eqb (t_name t) XT_STANDARD_TARGET = false) as -> by (by apply bool_decide_eq_false_2).
  cbn [andb]. rewrite Z.eqb_refl, bytes_eqb_refl. cbn [negb]. by rewrite (proj2 (Z.ltb_lt _ _)) by lia.
Qed.

(** Flushing a chain does not move the jumps: INPUT has a rule and jumps to [a], FORWARD has two rules that
    are flushed, and the jump goes on to lead to where [a] was. *)
Lemma flush_leaves_jumps :
  let input := c_name demo_input in
  let forward := c_name demo_forward in
  let t := append_to forward (To_verdict (-1)) demo_atable (append_to input (To_chain demo_name) demo_atable demo_table) in
  verdicts t = [936; -2; -1; -2; -2; 0; -5; 0] /\
  exists t', iptables_flush_chain t forward = Some (0, t') /\
    verdicts t' = [936; -2; -2; -2; 0; -5; 0] /\ map offset (entries t') = [0; 152; 304; 456; 608; 784; 936].
Proof. split; [by vm_compute|]. eexists. split; [by vm_compute|]. split; by vm_compute. Qed.

Definition demo_added : option (Z * connman_iptables) := iptables_add_chain all_ok demo_table [98].

(** Nor does deleting a chain: [b] is behind [a], INPUT jumps to [b], and [a] is deleted. *)
Lemma delete_chain_leaves_jumps :
  exists t1 e t2 t3, demo_added = Some (0, t1) /\ prepare_standard_target t1 [98] = Some e /\
    iptables_append_rule all_ok t1 (zeros AF_INET) (c_name demo_input) (Some e) [] = Some (0, t2) /\
    verdicts t2 = [1112; -2; -2; -2; 0; -5; 0; -5; 0] /\
    iptables_delete_chain t2 demo_name = Some (0, t3) /\
    verdicts t3 = [1112; -2; -2; -2; 0; -5; 0] /\ map offset (entries t3) = [0; 152; 304; 456; 608; 784; 936].
Proof. do 4 eexists. do 6 (split; [by vm_compute|]). by vm_compute. Qed.

(** The entry that ends a table has the name of an error, and is found as a chain of that name. *)
Lemma flush_error_crashes : iptables_flush_chain demo_table XT_ERROR_TARGET = None.
Proof. by vm_compute. Qed.

(** The name of a chain is copied whole into the 30 bytes of a function name. *)
Lemma long_name_overruns t name ok :
  find_chain_head t name = None -> ok 0%nat = true -> (32 <= length name)%nat -> iptables_add_chain ok t name = None.
Proof.
  intros Hf Ho Hl. unfold iptables_add_chain. rewrite Hf, Ho. cbn [negb].
  rewrite (proj2 (Z.ltb_lt _ _)); [done|]. unfold error_target_size, entry_target_size. lia.
Qed.

(** When there is no memory for the second entry of a chain, the first is freed and stays in the table. *)
Lemma add_chain_dangling t name ok :
  find_chain_head t name = None -> ok 0%nat = true -> ok 1%nat = true -> ok 2%nat = false -> iptables_add_chain ok t name = None.
Proof.
  intros Hf O0 O1 O2. unfold iptables_add_chain. rewrite Hf, O0, O1, O2. cbn [negb].
  destruct (_ <? _); [done|]. destruct (iptables_add_entry _ _ _ _ _ _) as [err t1] eqn:E.
  assert (err = 0) as -> by (unfold iptables_add_entry in E; cbn [negb] in E; repeat case_match; by simplify_eq). done.
Qed.

Lemma no_memory_crashes : find_existing_rule (fun _ => false) demo_table (zeros AF_INET) (c_name demo_input)
    (xt_of [] (To_verdict (-1))) [] = None.
Proof. by vm_compute. Qed.

End IptablesProps.
