(* ===== verification/IptablesChains.v ===== *)
(** * Properties of netfilter tables, continued

    Making and removing chains of the user, and reading back from the kernel what was written. *)

From S2P Require Import Prelude Inet Buffer Iptables IptablesProps.
From stdpp Require Import list sorting.
Import Iptables IptablesProps.
Open Scope Z_scope.

Module IptablesChains.

(** ** A new chain *)

Definition head_item (f : family) (name : list Z) : item := mk_item (head_entry f name) (-1) Fixed.
Definition return_item (f : family) : item := mk_item (return_entry f) (-1) Fixed.
Definition user_chain (f : family) (name : list Z) : chain := mk_chain (-1) name [head_item f name] [] (return_item f).

Definition add_chain (a : atable) (c : chain) : atable := mk_atable (a_chains a ++ [c]) (a_final a).

Definition chain_size (f : family) : Z := 2 * entry_struct_size f + error_target_size + standard_target_size.

(** A name a chain of the user may get. *)
Record fresh_name (a : atable) (name : list Z) : Prop := {
  fresh_new : name ∉ XT_ERROR_TARGET :: map c_name (a_chains a);
  fresh_user : name ∉ hooknames;
  fresh_bytes : Forall (fun b => 0 < b < 256) name;
  fresh_length : (length name < 32)%nat;
}.

Lemma starts_none a name : table_ok a -> name ∉ XT_ERROR_TARGET :: map c_name (a_chains a) -> Forall (fun y => starts name y = false) (flat a).
Proof.
  intros Ha Hn. apply not_elem_of_cons in Hn as [He Hn]. unfold flat. apply Forall_app_2.
  - pose proof (ok_chains _ Ha) as Hc. induction Hc as [|c cs Hc Hcs IH]; [constructor|]. cbn in *.
    apply not_elem_of_cons in Hn as [Hc' Hn]. apply Forall_app_2; [|by apply IH].
    by destruct (starts_chain c name Hc) as [?|?].
  - constructor; [|constructor]. unfold starts. cbn. destruct (ok_final _ Ha) as [Hf _]. unfold is_head in Hf |- *.
    apply andb_prop in Hf as [-> Hf]. apply bool_decide_eq_true_1 in Hf. rewrite Hf. cbn. by apply bool_decide_eq_false_2.
Qed.

Lemma find_from_none {A} (p : A -> bool) i l : Forall (fun y => p y = false) l -> find_from p i l = None.
Proof. intros H. revert i. induction H as [|x l Hx _ IH]; intros i; cbn; [done|]. by rewrite Hx, IH. Qed.

Lemma find_head_none a t name : table_ok a -> represents t a -> name ∉ XT_ERROR_TARGET :: map c_name (a_chains a) -> find_chain_head t name = None.
Proof.
  intros Ha Ht Hn. unfold find_chain_head. rewrite (rep_entries _ _ Ht). unfold encode.
  rewrite (find_from_encode (q := starts name)) by (intros; apply heads_encode). by apply find_from_none, starts_none.
Qed.

Lemma no_head_named a name : table_ok a -> name ∉ XT_ERROR_TARGET :: map c_name (a_chains a) ->
  existsb (fun y => is_head name y.1) (flat a) = false.
Proof.
  intros Ha Hn. pose proof (starts_none a name Ha Hn) as H. induction H as [|y l Hy _ IH]; [done|]. cbn. rewrite IH.
  unfold starts in Hy. apply orb_false_elim in Hy as [_ ->]. done.
Qed.

(** A head that is added does not take jumps away. *)
Lemma item_ok_grow l1 l2 y b x : item_ok (l1 ++ l2) x -> item_ok (l1 ++ (y, b) :: l2) x.
Proof.
  intros [H1 H2 H3 H4]. split; [done..|]. intros name E. specialize (H4 name E). rewrite existsb_app in H4 |- *. cbn.
  destruct (existsb _ l1); [done|]. cbn in *. rewrite H4. by rewrite orb_true_r.
Qed.

Lemma flat_ok_grow l1 l2 y b :
  flat_ok (l1 ++ l2) -> item_ok (l1 ++ l2) y -> flat_size (l1 ++ l2) + item_size y < 2 ^ 31 -> flat_ok (l1 ++ (y, b) :: l2).
Proof.
  intros [H1 H2] Hy Hs. split.
  - apply Forall_app in H1 as [Ha Hb].
    apply Forall_app_2; [|constructor; [by apply item_ok_grow|]];
      (eapply Forall_impl; [eassumption|]); intros z Hz; by apply item_ok_grow.
  - rewrite flat_size_app in Hs |- *. cbn. lia.
Qed.

Lemma head_item_ok g f name : item_ok g (head_item f name).
Proof. split; [by destruct f|done..]. Qed.

Lemma return_item_ok g f : item_ok g (return_item f).
Proof. split; [by destruct f|done..]. Qed.

Lemma is_head_item f name n : Forall (fun b => 0 < b < 256) name -> is_head n (head_item f name) = bool_decide (name = n).
Proof. intros H. unfold is_head. cbn. by rewrite upto_nul_id. Qed.

Lemma flat_add_chain a f name :
  flat (add_chain a (user_chain f name)) = flats (a_chains a) ++ (head_item f name, -1) :: (return_item f, -1) :: [(a_final a, -1)].
Proof. unfold flat, add_chain. cbn [a_chains a_final]. rewrite map_app, concat_app, <- app_assoc. done. Qed.

Lemma table_ok_add_chain a f name :
  table_ok a -> fresh_name a name -> flat_size (flat a) + chain_size f < 2 ^ 31 -> table_ok (add_chain a (user_chain f name)).
Proof.
  intros Ha [Hn Hu Hb Hl] Hs. split.
  - rewrite flat_add_chain. change (flat a) with (flats (a_chains a) ++ [(a_final a, -1)]) in Hs. unfold chain_size in Hs.
    assert (Hsh : item_size (head_item f name) = entry_struct_size f + error_target_size) by done.
    assert (Hsr : item_size (return_item f) = entry_struct_size f + standard_target_size) by done.
    pose proof (struct_size_pos f). unfold error_target_size, standard_target_size in *. rewrite flat_size_app in Hs.
    apply flat_ok_grow; [|apply head_item_ok|].
    + apply flat_ok_grow; [exact (ok_flat _ Ha)|apply return_item_ok|]. rewrite flat_size_app. lia.
    + rewrite flat_size_app. cbn [flat_size] in *. lia.
  - cbn. apply Forall_app_2; [by apply ok_chains|]. constructor; [|constructor]. split; cbn.
    + right. split; [done|]. split; [|done]. eexists. split; [done|]. split; [|done]. rewrite is_head_item by done. by apply bool_decide_eq_true_2.
    + by repeat constructor.
    + done.
  - cbn [a_chains add_chain]. rewrite map_app. cbn [map c_name user_chain]. rewrite app_comm_cons. apply NoDup_app. split; [by apply ok_names|].
    split; [|apply NoDup_singleton]. intros x Hx ->%list_elem_of_singleton. done.
  - exact (ok_final _ Ha).
  - cbn. intros c1 c c2 E Hc. destruct c2 as [|d c2' _] using rev_ind; [constructor|].
    rewrite app_comm_cons, app_assoc in E. apply app_inj_tail in E as [E <-]. apply Forall_app_2; [|by repeat constructor].
    by apply (ok_order _ Ha c1 c c2').
Qed.

Lemma hooks_ok_add_chain a t t' c : c_hook c < 0 -> hooks_ok a t -> underflow t' = underflow t -> hook_entry t' = hook_entry t -> hooks_ok (add_chain a c) t'.
Proof.
  intros Hc Hh Eu Ee c1 d c2 E Hd. rewrite Eu, Ee. cbn in E. destruct c2 as [|x c2' _] using rev_ind.
  - apply app_inj_tail in E as [E <-]. lia.
  - rewrite app_comm_cons, app_assoc in E. apply app_inj_tail in E as [E <-]. by apply (Hh c1 d c2').
Qed.

Lemma chain_added a t name ok :
  table_ok a -> represents t a -> (forall n, ok n = true) -> fresh_name a name -> flat_size (flat a) + chain_size (type t) < 2 ^ 31 ->
  exists t', iptables_add_chain ok t name = Some (0, t') /\
    represents t' (add_chain a (user_chain (type t) name)) /\ table_ok (add_chain a (user_chain (type t) name)).
Proof.
  intros Ha Ht Ok Hf Hs. pose proof Hf as [Hn Hu Hb Hl]. pose proof (table_ok_add_chain a (type t) name Ha Hf Hs) as Ha'.
  unfold iptables_add_chain. rewrite (find_head_none a t name Ha Ht Hn). set (l1 := flats (a_chains a)). set (fin := a_final a).
  assert (Efl : flat a = l1 ++ [(fin, -1)]) by done. assert (Hlen : length (entries t) = S (length l1)).
  { rewrite (rep_entries _ _ Ht). unfold encode. rewrite length_encode, Efl, length_app. cbn. lia. }
  rewrite Hlen, !Ok. cbn [negb]. rewrite (proj2 (Z.ltb_ge _ _)) by (unfold error_target_size, entry_target_size; lia).
  pose proof (ok_flat _ Ha) as Hok. pose proof (length_le_size _ _ (proj1 Hok)) as Hle. unfold chain_size in Hs.
  assert (Hsh : item_size (head_item (type t) name) = entry_struct_size (type t) + error_target_size) by done.
  assert (Hsr : item_size (return_item (type t)) = entry_struct_size (type t) + standard_target_size) by done.
  pose proof (struct_size_pos (type t)). unfold error_target_size, standard_target_size in *.
  destruct (add_entry_run t l1 fin (-1) [] (head_item (type t) name) (-1) (head_entry (type t) name)) as (t1 & E1 & He1 & Hn1 & Hs1 & Hu1 & Hh1);
    [by rewrite <- Efl, (rep_entries _ _ Ht)|done|apply head_item_ok| |done|rewrite <- Efl; lia|by rewrite <- Efl, (rep_num _ _ Ht)|
     by rewrite <- Efl, (rep_size _ _ Ht)|rewrite <- Efl; lia|].
  { intros n Hex. rewrite is_head_item by done. apply bool_decide_eq_false_2. intros <-. rewrite <- Efl in Hex. by rewrite no_head_named in Hex. }
  change (i_idx (head_item (type t) name)) with (-1) in E1. rewrite E1. cbn [Z.ltb Z.compare].
  rewrite <- Efl in Hn1, Hs1.
  set (g2 := (l1 ++ [(head_item (type t) name, -1)]) ++ [(fin, -1)]).
  assert (Eg2 : g2 = l1 ++ (head_item (type t) name, -1) :: [(fin, -1)]) by (unfold g2; by rewrite <- app_assoc).
  assert (Hl2 : Z.of_nat (length g2) = Z.of_nat (length (flat a)) + 1) by (rewrite Eg2, Efl, !length_app; cbn; lia).
  assert (Hs2 : flat_size g2 = flat_size (flat a) + item_size (head_item (type t) name)) by (rewrite Eg2, Efl, !flat_size_app; cbn [flat_size]; lia).
  destruct (add_entry_run t1 (l1 ++ [(head_item (type t) name, -1)]) fin (-1) [] (return_item (type t)) (-1) (return_entry (type t)))
    as (t2 & E2 & He2 & Hn2 & Hs2' & Hu2 & Hh2); fold g2.
  { by rewrite Eg2. }
  { rewrite Eg2. apply flat_ok_grow; [by rewrite <- Efl|apply head_item_ok|rewrite <- Efl; lia]. }
  { apply return_item_ok. }
  { by apply no_head_unnamed. }
  { done. }
  { rewrite Hs2. lia. }
  { lia. }
  { lia. }
  { lia. }
  change (i_idx (return_item (type t))) with (-1) in E2. rewrite length_app in E2. cbn [length] in E2. rewrite Nat.add_1_r in E2.
  cbn [fmap option_fmap option_map]. rewrite E2. cbn [Z.ltb Z.compare]. exists t2. split; [done|]. split; [|done].
  fold g2 in Hn2, Hs2'. split.
  - rewrite He2, flat_add_chain, <- app_assoc. done.
  - rewrite Hn2, flat_add_chain. fold l1. rewrite Hl2, Efl, !length_app. cbn [length]. lia.
  - rewrite Hs2', flat_add_chain. fold l1 fin. rewrite Hs2, Efl, !flat_size_app. cbn [flat_size]. lia.
  - apply (hooks_ok_add_chain a t); [done|by apply rep_hooks|congruence|congruence].
Qed.

(** ** Removing the last chain *)

(** Every jump leads to a chain of the table. *)
Definition closed (cs : list chain) : Prop :=
  Forall (fun y => forall n, i_link y.1 = Jump n -> existsb (fun z => is_head n z.1) (flats cs) = true) (flats cs).

Lemma offsets_encode g o l rest :
  Forall (fun y => item_ok g y.1) l -> 0 <= o -> o + flat_size l < 2 ^ 32 ->
  offsets_from o (encode_from g o l ++ rest) = encode_from g o l ++ offsets_from (o + flat_size l) rest.
Proof.
  intros Hl. revert o. induction Hl as [|[x b] l Hx Hl IH]; intros o Ho Hs; cbn [encode_from app offsets_from flat_size fst] in *.
  - by rewrite Z.add_0_r.
  - pose proof (flat_size_nonneg g l Hl). pose proof (item_pos _ _ Hx).
    change (entry_size (mk_entry o b (i_idx x) (resolve g o x))) with (next_offset (resolve g o x)).
    rewrite resolve_size, u32_small, IH by lia. unfold with_offset. cbn. by rewrite Z.add_assoc.
Qed.

Lemma encode_closed l g g' o m :
  Forall (fun y : item * Z => forall n, i_link y.1 = Jump n -> existsb (fun z => is_head n z.1) l = true) m ->
  encode_from (l ++ g) o m = encode_from (l ++ g') o m.
Proof.
  intros H. revert o. induction H as [|[x b] m Hx Hm IH]; intros o; cbn; [done|]. rewrite IH. f_equal. f_equal.
  unfold resolve. cbn in Hx. destruct (i_link x) as [|n|]; [done| |done]. by rewrite !start_of_app, (Hx n).
Qed.

Lemma flat_ok_closed cs g fin :
  flat_ok (flats cs ++ g ++ [(fin, -1)]) -> Forall (fun y => 0 < item_size y.1) g -> i_link fin = Fixed -> closed cs ->
  flat_ok (flats cs ++ [(fin, -1)]).
Proof.
  intros [H1 H2] Hg Hf Hc. apply Forall_app in H1 as [H1 H3]. apply Forall_app in H3 as [_ H3]. apply Forall_cons_1 in H3 as [[F1 F2 F3 F4] _].
  split.
  - apply Forall_app_2.
    + rewrite list.Forall_forall in H1 |- *. intros y Hy. destruct (H1 y Hy) as [K1 K2 K3 K4]. split; [done..|].
      intros n En. unfold closed in Hc. rewrite list.Forall_forall in Hc. rewrite existsb_app, (Hc y Hy n En). done.
    + constructor; [|constructor]. split; [done..|]. cbn in Hf |- *. by rewrite Hf.
  - assert (0 <= flat_size g).
    { clear -Hg. induction Hg as [|[x b] g Hx _ IH]; [done|]. cbn in *. lia. }
    rewrite !flat_size_app in H2. rewrite flat_size_app. lia.
Qed.

Lemma table_ok_last cs c fin : table_ok (mk_atable (cs ++ [c]) fin) -> closed cs -> table_ok (mk_atable cs fin).
Proof.
  intros [H1 H2 H3 H4 H5] Hc. cbn [a_chains a_final] in *. split; cbn [a_chains a_final].
  - assert (E : flat (mk_atable (cs ++ [c]) fin) = flats cs ++ flat_chain c ++ [(fin, -1)]).
    { unfold flat. cbn. rewrite map_app, concat_app, <- app_assoc. cbn. by rewrite app_nil_r. }
    rewrite E in H1. apply (flat_ok_closed cs (flat_chain c)); [done| |by destruct H4|done].
    destruct H1 as [H1 _]. apply Forall_app in H1 as [_ H1]. apply Forall_app in H1 as [H1 _].
    eapply Forall_impl; [exact H1|]. intros y Hy. by destruct Hy.
  - by apply Forall_app in H2 as [? _].
  - rewrite map_app, app_comm_cons in H3. by apply NoDup_app in H3 as [? _].
  - done.
  - intros c1 d c2 E Hd. specialize (H5 c1 d (c2 ++ [c])). rewrite E, <- app_assoc in H5. specialize (H5 eq_refl Hd).
    by apply Forall_app in H5 as [? _].
Qed.

Lemma remove_run t i e : entries t !! i = Some e ->
  remove_table_entry t i =
  Some (entry_size e, with_size (u32 (num_entries t - 1)) (u32 (size t - entry_size e)) (with_entries (remove_at i (entries t)) t)).
Proof. intros E. unfold remove_table_entry. by rewrite E. Qed.

Lemma chain_deleted cs c fin t :
  let a := mk_atable (cs ++ [c]) fin in
  table_ok a -> represents t a -> closed cs -> c_hook c < 0 -> c_rules c = [] ->
  exists t', iptables_delete_chain t (c_name c) = Some (0, t') /\ represents t' (mk_atable cs fin).
Proof.
  intros a Ha Ht Hc Hh Hr. assert (E : a_chains a = cs ++ c :: []) by done. pose proof (table_ok_last cs c fin Ha Hc) as Ha'.
  destruct (ok_kind _ (chain_at a cs c [] Ha E)) as [(? & _)|(Hh1 & (h & Ehd & _) & _)]; [lia|].
  assert (Ei : chain_items c = [h; c_foot c]) by (unfold chain_items; by rewrite Ehd, Hr).
  unfold iptables_delete_chain. rewrite (find_head a t cs c []), (find_tail a t cs c []) by done. rewrite Ei. cbn [length].
  rewrite (first_entry a t cs c [] h [c_foot c]) by done. cbn [mbind option_bind builtin]. rewrite Hh1. cbn [Z.leb Z.compare].
  rewrite (proj2 (Nat.eqb_neq _ _)) by lia. rewrite (proj2 (Nat.eqb_eq _ _)) by lia. cbn [negb].
  set (l1 := flats cs). set (n := length l1).
  assert (Ef : flat a = l1 ++ (h, -1) :: (c_foot c, -1) :: [(fin, -1)]).
  { unfold flat, a. cbn. rewrite map_app, concat_app, <- app_assoc. cbn. unfold flat_chain. by rewrite Ei, Hh1. }
  pose proof (ok_flat _ Ha) as [Hok Hlt]. pose proof (length_le_size _ _ Hok) as Hle.
  pose proof (rep_num _ _ Ht) as Hn. pose proof (rep_size _ _ Ht) as Hs. rewrite Ef in Hok, Hlt, Hle, Hn, Hs.
  assert (Hp1 : Forall (fun y => item_ok (flat a) y.1) l1) by (rewrite Ef; by apply Forall_app in Hok as [? _]).
  assert (Hph : 0 < item_size h /\ 0 < item_size (c_foot c) /\ 0 < item_size fin).
  { apply Forall_app in Hok as [_ Hok]. apply Forall_cons_1 in Hok as [[? _ _ _] Hok]. apply Forall_cons_1 in Hok as [[? _ _ _] Hok].
    by apply Forall_cons_1 in Hok as [[? _ _ _] _]. }
  destruct Hph as (Hp2 & Hp3 & Hp4). pose proof (flat_size_nonneg _ _ Hp1) as Hn1.
  rewrite flat_size_app in Hlt, Hs, Hle. rewrite length_app in Hn, Hle. cbn [flat_size length] in *.
  set (o := flat_size l1) in *.
  assert (Ee : entries t = encode_from (flat a) 0 l1 ++ mk_entry o (-1) (i_idx h) (resolve (flat a) o h) ::
    mk_entry (o + item_size h) (-1) (i_idx (c_foot c)) (resolve (flat a) (o + item_size h) (c_foot c)) ::
    [mk_entry (o + item_size h + item_size (c_foot c)) (-1) (i_idx fin) (resolve (flat a) (o + item_size h + item_size (c_foot c)) fin)]).
  { rewrite (rep_entries _ _ Ht). unfold encode. rewrite Ef at 2. by rewrite encode_from_app. }
  assert (Hlen : length (encode_from (flat a) 0 l1) = n) by apply length_encode.
  rewrite (remove_run t n (mk_entry o (-1) (i_idx h) (resolve (flat a) o h))) by (by rewrite Ee, list_lookup_middle).
  cbn [mbind option_bind]. rewrite Ee. unfold remove_at at 1. rewrite take_app_length' by done. rewrite cons_middle, app_assoc, drop_app_length' by (rewrite length_app, Hlen; cbn [length]; lia).
  rewrite (remove_run _ n (mk_entry (o + item_size h) (-1) (i_idx (c_foot c)) (resolve (flat a) (o + item_size h) (c_foot c))))
    by (cbn [entries with_size with_entries]; by rewrite list_lookup_middle).
  cbn [mbind option_bind entries with_size with_entries num_entries size]. unfold remove_at. rewrite take_app_length' by done. rewrite cons_middle, app_assoc, drop_app_length' by (rewrite length_app, Hlen; cbn [length]; lia).
  eexists. split; [reflexivity|].
  assert (Sh : entry_size (mk_entry o (-1) (i_idx h) (resolve (flat a) o h)) = item_size h) by apply resolve_size.
  assert (Sf : entry_size (mk_entry (o + item_size h) (-1) (i_idx (c_foot c)) (resolve (flat a) (o + item_size h) (c_foot c))) = item_size (c_foot c)) by apply resolve_size.
  split; unfold update_offsets; cbn [entries with_entries with_size num_entries size].
  - rewrite offsets_encode by (done || lia). rewrite Z.add_0_l. unfold encode. change (flat (mk_atable cs fin)) with (l1 ++ [(fin, -1)]).
    rewrite encode_from_app. f_equal.
    + rewrite Ef. by apply encode_closed.
    + cbn. unfold resolve. destruct (ok_final _ Ha') as [_ Hfx]. cbn in Hfx. rewrite Hfx. done.
  - rewrite Hn. change (flat (mk_atable cs fin)) with (l1 ++ [(fin, -1)]). rewrite length_app. cbn [length].
    rewrite (u32_small (Z.of_nat (length l1 + 3) - 1)) by lia. rewrite u32_small; lia.
  - rewrite Hs, Sh, Sf. change (flat (mk_atable cs fin)) with (l1 ++ [(fin, -1)]). rewrite flat_size_app. cbn [flat_size]. fold o.
    rewrite (u32_small (_ - item_size h)) by lia. rewrite u32_small; lia.
  - intros c1 d c2 Ed Hd. apply (rep_hooks _ _ Ht c1 d (c2 ++ [c])); [|done]. unfold a. cbn in Ed |- *. by rewrite Ed, <- app_assoc.
Qed.

(** ** What no operation changes *)

Definition statics (t : connman_iptables) : family * Z * Z := (type t, valid_hooks t, old_entries t).

Lemma statics_move l d t : statics (move_hooks l d t) = statics t.
Proof. by rewrite move_hooks_eq. Qed.

Lemma statics_add ok t e bf b idx : statics (iptables_add_entry ok t e bf b idx).2 = statics t.
Proof.
  unfold iptables_add_entry. destruct ok; [|done]. cbn [negb]. destruct bf as [i|]; [|done]. cbn [mbind option_bind].
  destruct (offset <$> entries t !! i); [|done]. cbn [snd]. unfold update_targets_reference. by destruct (entries _ !! i).
Qed.

Lemma statics_update_hooks t h e : statics (update_hooks t h e) = statics t.
Proof. unfold update_hooks. destruct (entries t !! h); [|done]. destruct (_ <? 0); [done|]. by rewrite statics_move. Qed.

Lemma statics_prepare ok t ip n xt rm ins e b t' :
  prepare_rule_inclusion ok t ip n xt rm ins = Some (e, b, t') -> statics t' = statics t.
Proof.
  unfold prepare_rule_inclusion. destruct (find_chain_head t n) as [h|]; [|done]. cbn [mbind option_bind].
  destruct (find_chain_tail t n); [|done]. cbn [mbind option_bind]. destruct (new_rule _ _ _ _ _); [|done]. cbn [mbind option_bind].
  destruct (entries t !! h) as [hd|]; [|done]. cbn [mbind option_bind].
  destruct (builtin hd <? 0); [|destruct (_ || _)]; intros ?; simplify_eq; apply (statics_update_hooks t h e).
Qed.

Lemma statics_append ok t ip n xt rm r t' : iptables_append_rule ok t ip n xt rm = Some (r, t') -> statics t' = statics t.
Proof.
  unfold iptables_append_rule. destruct (find_chain_tail t n) as [i|]; [|intros; by simplify_eq].
  destruct (prepare_rule_inclusion ok t ip n xt rm false) as [[[e b] t0]|] eqn:Ep; [|intros; by simplify_eq].
  intros E. injection E as E. apply statics_prepare in Ep. rewrite <- Ep.
  change t' with ((r, t').2). rewrite <- E. apply statics_add.
Qed.

Lemma statics_insert ok t ip n xt rm r t' : iptables_insert_rule ok t ip n xt rm = Some (r, t') -> statics t' = statics t.
Proof.
  unfold iptables_insert_rule. destruct (find_chain_head t n) as [i|]; [|intros; by simplify_eq].
  destruct (prepare_rule_inclusion ok t ip n xt rm true) as [[[e b] t0]|] eqn:Ep; [|intros; by simplify_eq].
  intros E. injection E as E. apply statics_prepare in Ep. rewrite <- Ep.
  change t' with ((r, t').2). rewrite <- E. apply statics_add.
Qed.

Lemma statics_remove t i r t' : remove_table_entry t i = Some (r, t') -> statics t' = statics t.
Proof. unfold remove_table_entry. destruct (entries t !! i); [|done]. cbn. intros. by simplify_eq. Qed.

Lemma statics_delete_at t h i b t' : delete_at t h i b = Some t' -> statics t' = statics t.
Proof.
  unfold delete_at. set (t0 := if _ && _ then _ else t). assert (H0 : statics t0 = statics t) by (unfold t0; by destruct (_ && _)).
  clearbody t0. set (t1 := match entries t0 !! S i with Some _ => _ | None => t0 end).
  assert (H1 : statics t1 = statics t0).
  { unfold t1. destruct (entries t0 !! S i); [|done]. unfold update_targets_reference. by destruct (entries t0 !! i). }
  clearbody t1. destruct (remove_table_entry t1 i) as [[r t2]|] eqn:E; [|done]. cbn [mbind option_bind]. apply statics_remove in E.
  rewrite <- H0, <- H1, <- E. destruct (0 <=? b); [|by intros [= <-]].
  unfold delete_update_hooks. destruct (entries t2 !! h); [|done]. cbn [mbind option_bind]. intros [= <-].
  change (statics (move_hooks (drop (S h) (alter (with_builtin b) h (entries t2))) (- r)
    (with_hooks (hook_add b (- r) (underflow t2)) (hook_entry t2) (with_entries (alter (with_builtin b) h (entries t2)) t2))) = statics t2).
  by rewrite statics_move.
Qed.

Lemma statics_delete a t c1 c c2 ok ip xt rm r t' :
  table_ok a -> represents t a -> a_chains a = c1 ++ c :: c2 ->
  iptables_delete_rule ok t ip (c_name c) xt rm = Some (r, t') -> statics t' = statics t.
Proof.
  intros Ha Ht E Ed. destruct (find_existing_rule ok t ip (c_name c) xt rm) as [[i|]|] eqn:Ef.
  - rewrite (delete_found a t c1 c c2 ok ip xt rm i Ha Ht E Ef) in Ed.
    destruct (delete_at t _ i _) as [t0|] eqn:E0; [|done]. cbn in Ed. simplify_eq. by apply statics_delete_at in E0.
  - unfold iptables_delete_rule in Ed. rewrite (find_head a t c1 c c2), (find_tail a t c1 c c2), Ef in Ed by done. cbn in Ed. by simplify_eq.
  - unfold iptables_delete_rule in Ed. by rewrite (find_head a t c1 c c2), (find_tail a t c1 c c2), Ef in Ed.
Qed.

Lemma statics_add_chain ok t n r t' : iptables_add_chain ok t n = Some (r, t') -> statics t' = statics t.
Proof.
  unfold iptables_add_chain. destruct (find_chain_head t n); [intros; by simplify_eq|]. destruct (negb (ok 0%nat)); [intros; by simplify_eq|].
  destruct (_ <? _); [done|]. destruct (iptables_add_entry (ok 1%nat) _ _ _ _ _) as [e1 t1] eqn:E1.
  destruct (e1 <? 0); [intros; by simplify_eq|]. destruct (negb (ok 2%nat)); [done|].
  destruct (iptables_add_entry (ok 3%nat) _ _ _ _ _) as [e2 t2] eqn:E2. destruct (e2 <? 0); [done|]. intros. simplify_eq.
  change t' with ((e2, t').2). rewrite <- E2, statics_add. change t1 with ((e1, t1).2). by rewrite <- E1, statics_add.
Qed.

Lemma statics_delete_chain t n r t' : iptables_delete_chain t n = Some (r, t') -> statics t' = statics t.
Proof.
  unfold iptables_delete_chain. destruct (find_chain_head t n) as [h|]; [|intros; by simplify_eq]. destruct (find_chain_tail t n); [|intros; by simplify_eq].
  destruct (entries t !! h) as [e|]; [|done]. cbn [mbind option_bind]. destruct (0 <=? _); [intros; by simplify_eq|].
  destruct (_ =? _)%nat; [done|]. destruct (negb _); [intros; by simplify_eq|].
  destruct (remove_table_entry t h) as [[r1 t1]|] eqn:E1; [|done]. cbn [mbind option_bind].
  destruct (remove_table_entry t1 h) as [[r2 t2]|] eqn:E2; [|done]. cbn [mbind option_bind]. intros [= <- <-].
  apply statics_remove in E1, E2. change (statics (update_offsets t2)) with (statics t2). congruence.
Qed.

(** ** Reading a table *)

(** The hooks of a table as a set of bits. *)
Fixpoint mask (hs : list Z) : Z :=
  match hs with
  | [] => 0
  | h :: hs => Z.lor (Z.shiftl 1 h) (mask hs)
  end.

(** What the kernel says of a table is the table of the chains. *)
Record shows (i : ipt_info) (a : atable) : Prop := {
  sh_entries : i_entries i = map entry (encode (flat a));
  sh_num : i_num_entries i = Z.of_nat (length (flat a));
  sh_size : i_size i = flat_size (flat a);
  sh_valid : i_valid_hooks i = mask (hooks (a_chains a));
  sh_sorted : StronglySorted Z.lt (hooks (a_chains a));
  sh_hooks c1 c c2 : a_chains a = c1 ++ c :: c2 -> 0 <= c_hook c ->
    i_hook_entry i !! Z.to_nat (c_hook c) = Some (flat_size (flats c1)) /\
    i_underflow i !! Z.to_nat (c_hook c) = Some (flat_size (flats c1) + items_size (c_rules c));
}.

Lemma mask_testbit hs k : 0 <= k -> Forall (fun h => 0 <= h) hs -> Z.testbit (mask hs) k = bool_decide (k ∈ hs).
Proof.
  intros Hk. induction 1 as [|h hs Hh Hs IH]; cbn [mask]; [by rewrite Z.bits_0|].
  rewrite Z.lor_spec, IH, Z.shiftl_spec by lia. destruct (decide (k = h)) as [->|Hn].
  - rewrite Z.sub_diag. cbn. symmetry. apply bool_decide_eq_true_2. constructor.
  - assert (Z.testbit 1 (k - h) = false) as ->.
    { destruct (Z.lt_trichotomy k h) as [?|[?|?]]; [by apply Z.testbit_neg_r; lia|done|]. apply Z.bits_above_log2; cbn; lia. }
    cbn. apply bool_decide_ext. rewrite elem_of_cons. tauto.
Qed.

Lemma mask_nonneg hs : Forall (fun h => 0 <= h) hs -> 0 <= mask hs.
Proof.
  induction 1 as [|h hs Hh Hs IH]; cbn [mask]; [done|]. apply Z.lor_nonneg. split; [|done].
  rewrite Z.shiftl_mul_pow2 by lia. lia.
Qed.

Lemma lowest_bit_found n o h m : (forall k, o <= k < h -> Z.testbit m k = false) -> Z.testbit m h = true ->
  o <= h -> h < o + Z.of_nat n -> lowest_bit n o m = h.
Proof.
  revert o. induction n as [|n IH]; intros o Hl Hh Ho Hn; [lia|]. cbn [lowest_bit]. destruct (decide (o = h)) as [->|Hne]; [by rewrite Hh|].
  rewrite Hl by lia. apply IH; [|done|lia|lia]. intros k Hk. apply Hl. lia.
Qed.

Lemma next_hook h hs : Forall (fun k => 0 <= k < NF_INET_NUMHOOKS) (h :: hs) -> StronglySorted Z.lt (h :: hs) ->
  next_hook_entry_index (mask (h :: hs)) = (h, mask hs).
Proof.
  intros Hr Hs. assert (Hp : Forall (fun k => 0 <= k) (h :: hs)) by (eapply Forall_impl; [exact Hr|]; intros; cbn in *; lia).
  apply Forall_cons_1 in Hr as [Hh Hr]. pose proof (Forall_cons_1 _ _ _ Hp) as [_ Hp']. unfold NF_INET_NUMHOOKS in Hh.
  inversion Hs as [|? ? Hss Hlt]; subst. rewrite list.Forall_forall in Hlt.
  assert (Hni : h ∉ hs) by (intros Hin; specialize (Hlt h Hin); lia).
  assert (Hb : Z.testbit (mask (h :: hs)) h = true) by (rewrite mask_testbit by (done || lia); apply bool_decide_eq_true_2; constructor).
  unfold next_hook_entry_index. destruct (Z.eqb_spec (mask (h :: hs)) 0) as [E|_]; [by rewrite E, Z.bits_0 in Hb|].
  rewrite (lowest_bit_found 32 0 h); [|..|exact Hb|lia|lia].
  - f_equal. apply Z.bits_inj'. intros k Hk. rewrite Z.lxor_spec, !mask_testbit, Z.shiftl_spec by (done || lia).
    destruct (decide (k = h)) as [->|Hn].
    + rewrite Z.sub_diag. cbn. rewrite bool_decide_eq_true_2 by constructor. by rewrite bool_decide_eq_false_2.
    + assert (Z.testbit 1 (k - h) = false) as ->.
      { destruct (Z.lt_trichotomy k h) as [?|[?|?]]; [by apply Z.testbit_neg_r; lia|done|]. apply Z.bits_above_log2; cbn; lia. }
      rewrite xorb_false_r. apply bool_decide_ext. rewrite elem_of_cons. tauto.
  - intros k Hk. rewrite mask_testbit by (done || lia). apply bool_decide_eq_false_2. intros [->|Hin]%elem_of_cons; [lia|].
    specialize (Hlt k Hin). lia.
Qed.

Lemma next_hook_none : next_hook_entry_index (mask []) = (NF_INET_NUMHOOKS, 0).
Proof. done. Qed.

Lemma entry_at_encode g d l1 x b l2 :
  Forall (fun y => item_ok g y.1) l1 ->
  entry_at (flat_size l1) (map entry (encode_from g d (l1 ++ (x, b) :: l2))) = Some (resolve g (d + flat_size l1) x).
Proof.
  intros H. revert d. induction H as [|[z c] l1 Hz H IH]; intros d.
  - cbn. by rewrite Z.add_0_r.
  - pose proof (flat_size_nonneg _ _ H) as Hn. pose proof (item_pos _ _ Hz) as Hp. cbn [fst] in Hp.
    cbn [app encode_from map flat_size entry_at entry].
    rewrite (proj2 (Z.eqb_neq _ _)) by lia. rewrite resolve_size, (proj2 (Z.ltb_ge _ _)) by lia.
    replace (item_size z + flat_size l1 - item_size z) with (flat_size l1) by lia. rewrite IH. f_equal. f_equal. lia.
Qed.

Section iterate.
Context {A : Type} (cb : A -> ipt_entry -> Z -> Z -> Z -> Z * A) (next : A -> ipt_entry -> Z -> Z -> A).
Hypothesis cb_next : forall a e b hook o, cb a e b hook o = (0, next a e b o).

(** The entries are handed to the callback in order, with the hooks they start. *)
Definition visit (a : A) (l : list connman_iptables_entry) : A := foldl (fun a e => next a (entry e) (builtin e) (offset e)) a l.

Context (i : ipt_info) (t : atable).
Hypothesis t_ok : table_ok t.
Hypothesis i_shows : shows i t.

Lemma loop_step n l1 x b l2 h hook m a :
  flat t = l1 ++ (x, b) :: l2 ->
  let o := flat_size l1 in
  b = (if (h <? NF_INET_NUMHOOKS) && bool_decide (i_hook_entry i !! Z.to_nat h = Some o) then h else -1) ->
  let hm := if (h <? NF_INET_NUMHOOKS) && match i_underflow i !! Z.to_nat h with Some u => u <=? o | None => false end
            then next_hook_entry_index m else (h, m) in
  exists hook', iterate_loop cb (S n) i o h hook m a =
    iterate_loop cb n i (o + item_size x) hm.1 hook' hm.2 (next a (resolve (flat t) o x) b o).
Proof.
  intros E o Hb hm. pose proof (ok_flat _ t_ok) as [Hok Hlt]. assert (Hall : Forall (fun y => item_ok (flat t) y.1) (l1 ++ (x, b) :: l2)) by (by rewrite <- E).
  apply Forall_app in Hall as [H1 H2].
  apply Forall_cons_1 in H2 as [Hx H2]. pose proof (flat_size_nonneg _ _ H1). pose proof (flat_size_nonneg _ _ H2). pose proof (item_pos _ _ Hx) as Hp.
  cbn [fst] in Hp. rewrite E, flat_size_app in Hlt. cbn [flat_size] in Hlt. cbn [iterate_loop].
  rewrite (sh_size _ _ i_shows), E, flat_size_app. cbn [flat_size]. fold o.
  rewrite (proj2 (Z.ltb_lt _ _)) by (unfold o; lia).
  assert (Eat : entry_at o (i_entries i) = Some (resolve (flat t) o x)).
  { rewrite (sh_entries _ _ i_shows). unfold encode, o. rewrite E at 2. by rewrite entry_at_encode. }
  unfold iterate_step. rewrite Eat. cbn [mbind option_bind]. rewrite <- Hb.
  fold hm. destruct hm as [h' m']. rewrite cb_next, resolve_size, u32_small by (unfold o; lia).
  rewrite E. by eexists.
Qed.

Lemma loop_rest l2 : forall l1 hook m a,
  flat t = l1 ++ l2 -> Forall (fun y => y.2 = -1) l2 ->
  iterate_loop cb (S (length l2)) i (flat_size l1) NF_INET_NUMHOOKS hook m a = Some (0, visit a (encode_from (flat t) (flat_size l1) l2)).
Proof.
  induction l2 as [|[x b] l2 IH]; intros l1 hook m a E Hm.
  - cbn [length iterate_loop]. rewrite app_nil_r in E. rewrite (sh_size _ _ i_shows), E. by rewrite Z.ltb_irrefl.
  - apply Forall_cons_1 in Hm as [Hb Hm]. cbn in Hb. subst b.
    change (length ((x, -1) :: l2)) with (S (length l2)).
    destruct (loop_step (S (length l2)) l1 x (-1) l2 NF_INET_NUMHOOKS hook m a E) as (hook' & ->); [done|].
    specialize (IH (l1 ++ [(x, -1)]) hook' m (next a (resolve (flat t) (flat_size l1) x) (-1) (flat_size l1))).
    rewrite flat_size_app in IH. cbn [flat_size] in IH. rewrite Z.add_0_r in IH. change (NF_INET_NUMHOOKS <? NF_INET_NUMHOOKS) with false. cbn [andb fst snd]. rewrite IH; [done| |done].
    by rewrite <- app_assoc.
Qed.

Lemma before_size c1 c r1 : flat_size (before c1 c r1) = flat_size (flats c1) + items_size (c_head c) + items_size r1.
Proof. unfold before. rewrite flat_size_app, flat_size_mark, items_size_app. lia. Qed.

(** The rest of a chain of the kernel. *)
Lemma loop_chain c1 c c2 r2 : forall n r1 hook m a,
  a_chains t = c1 ++ c :: c2 -> c_rules c = r1 ++ r2 -> 0 <= c_hook c ->
  let o := flat_size (flats c1) + items_size r1 in
  let '(h', m') := next_hook_entry_index m in
  exists hook', iterate_loop cb (S (length r2) + n) i o (c_hook c) hook m a =
    iterate_loop cb n i (o + items_size r2 + item_size (c_foot c)) h' hook' m'
      (visit a (encode_from (flat t) o ((fun l => match l with [] => [] | x :: l => (x, mark_at c r1) :: plain l end) (r2 ++ [c_foot c])))).
Proof.
  induction r2 as [|x r2 IH]; intros n r1 hook m a E Er Hh o; pose proof (chain_at t c1 c c2 t_ok E) as Hc;
    (destruct (ok_kind _ Hc) as [(_ & Ehd & Hname)|(? & _)]; [|lia]); pose proof (hook_range _ _ Hh Hname) as Hr;
    destruct (sh_hooks _ _ i_shows c1 c c2 E Hh) as [He Hu]; pose proof (split_bounds t c1 c c2 (ok_flat _ t_ok) E) as Hsb;
    pose proof (before_size c1 c r1) as Hbs; rewrite Ehd in Hbs; cbn [items_size] in Hbs.
  all: assert (Hpos : Forall (fun x => 0 < item_size x) (c_rules c ++ [c_foot c])).
  all: try (assert (Hall : Forall (fun y => item_ok (flat t) y.1) (flats c1 ++ flat_chain c ++ flats c2 ++ [(a_final t, -1)]))
    by (rewrite <- (flat_split _ _ _ _ E); exact (proj1 (ok_flat _ t_ok))); apply Forall_app in Hall as [_ Hall];
    apply Forall_app in Hall as [Hall _]; unfold flat_chain, chain_items in Hall; rewrite Ehd in Hall; cbn [app] in Hall;
    apply (Forall_mark (fun x => item_ok (flat t) x)) in Hall; eapply Forall_impl; [exact Hall|]; intros z Hz; by destruct Hz).
  all: assert (Hstart : (if (c_hook c <? NF_INET_NUMHOOKS) && bool_decide (i_hook_entry i !! Z.to_nat (c_hook c) = Some o) then c_hook c else -1) = mark_at c r1).
  1,3: rewrite (proj2 (Z.ltb_lt _ _)), He by lia; cbn [andb]; unfold mark_at; rewrite Ehd; cbn [app first_mark]; rewrite Er, <- app_assoc in Hpos;
    apply Forall_app in Hpos as [Hp1 _]; destruct r1 as [|z r1]; cbn [first_mark];
    [rewrite bool_decide_eq_true_2; [done|]; unfold o; cbn; f_equal; lia|
     rewrite bool_decide_eq_false_2; [done|]; apply Forall_cons_1 in Hp1 as [Hz Hp1]; apply items_pos in Hp1; unfold o; cbn; intros [= ?]; lia].
  - cbn [app length]. rewrite app_nil_r in Er.
    pose proof (flat_at t c1 c c2 (c_rules c) [] (c_foot c) [] E ltac:(by rewrite app_nil_r) eq_refl) as Ef.
    rewrite Er in Ef. destruct (loop_step n (before c1 c r1) (c_foot c) (mark_at c r1) (behind [] c2 t) (c_hook c) hook m a Ef) as (hook' & Es).
    { rewrite Hbs. replace (flat_size (flats c1) + 0 + items_size r1) with o by (unfold o; lia). by rewrite Hstart. }
    revert Es. rewrite Hbs. replace (flat_size (flats c1) + 0 + items_size r1) with o by (unfold o; lia).
    rewrite (proj2 (Z.ltb_lt (c_hook c) _)), Hu, Er by lia. rewrite (proj2 (Z.leb_le _ _)) by (unfold o; lia). cbn [andb].
    destruct (next_hook_entry_index m) as [h' m']. cbn [fst snd]. intros Es. exists hook'. cbn [items_size Nat.add]. rewrite Es.
    rewrite Z.add_0_r. done.
  - cbn [app length].
    pose proof (flat_at t c1 c c2 r1 (x :: r2) x (r2 ++ [c_foot c]) E Er eq_refl) as Ef.
    destruct (loop_step (S (length r2) + n) (before c1 c r1) x (mark_at c r1) (behind (r2 ++ [c_foot c]) c2 t) (c_hook c) hook m a Ef) as (hook1 & Es).
    { rewrite Hbs. replace (flat_size (flats c1) + 0 + items_size r1) with o by (unfold o; lia). by rewrite Hstart. }
    revert Es. rewrite Hbs. replace (flat_size (flats c1) + 0 + items_size r1) with o by (unfold o; lia).
    rewrite (proj2 (Z.ltb_lt (c_hook c) _)), Hu by lia. rewrite Er, <- app_assoc in Hpos. apply Forall_app in Hpos as [_ Hpos]. cbn [app] in Hpos.
    apply Forall_cons_1 in Hpos as [Hx Hpos]. apply Forall_app in Hpos as [Hp2 _]. apply items_pos in Hp2.
    rewrite Er, items_size_app. cbn [items_size]. rewrite (proj2 (Z.leb_gt _ _)) by (unfold o; lia). cbn [andb fst snd]. intros Es.
    specialize (IH n (r1 ++ [x]) hook1 m (next a (resolve (flat t) o x) (mark_at c r1) o) E).
    rewrite <- app_assoc in IH. specialize (IH Er Hh). cbv zeta in IH. rewrite items_size_app in IH. cbn [items_size] in IH.
    destruct (next_hook_entry_index m) as [h' m']. destruct IH as (hook' & IH). exists hook'.
    change (S (S (length r2)) + n)%nat with (S (S (length r2) + n)). rewrite Es.
    replace (flat_size (flats c1) + (items_size r1 + (item_size x + 0))) with (o + item_size x) in IH by (unfold o; lia). rewrite IH.
    replace (o + item_size x + items_size r2 + item_size (c_foot c)) with (o + (item_size x + items_size r2) + item_size (c_foot c)) by lia. f_equal.
    cbn [visit encode_from foldl entry builtin offset]. unfold visit. f_equal.
    destruct (r2 ++ [c_foot c]) as [|y l]; [done|]. cbn [plain map]. by rewrite (mark_at_later c (r1 ++ [x])) by (rewrite Ehd; by destruct r1).
Qed.

Lemma hooks_in_range : Forall (fun h => 0 <= h < NF_INET_NUMHOOKS) (hooks (a_chains t)).
Proof.
  apply list.Forall_forall. intros h Hin. apply hook_in in Hin as [Hh (c & Hc & <-)]. split; [done|].
  pose proof (ok_chains _ t_ok) as Hall. rewrite list.Forall_forall in Hall.
  destruct (ok_kind _ (Hall c Hc)) as [(_ & _ & Hn)|(? & _)]; [by apply (hook_range _ (c_name c))|lia].
Qed.

Lemma user_marks cs : Forall chain_ok cs -> Forall (fun d => c_hook d < 0) cs -> Forall (fun y => y.2 = -1) (flats cs).
Proof.
  intros Hc Hn. induction Hc as [|c cs Hc Hcs IH]; [constructor|]. apply Forall_cons_1 in Hn as [Hh Hn]. cbn. apply Forall_app_2; [|by apply IH].
  destruct (ok_kind _ Hc) as [(? & _)|(Hh1 & _)]; [lia|]. destruct (chain_items_nonempty c) as (x & l & Ei).
  rewrite (flat_chain_cons _ _ _ Ei), Hh1. constructor; [done|]. apply Forall_map. by apply Forall_true.
Qed.

Lemma loop_chains c2 : forall c1 hook a,
  a_chains t = c1 ++ c2 ->
  let '(h, m) := next_hook_entry_index (mask (hooks c2)) in
  iterate_loop cb (S (length (flats c2 ++ [(a_final t, -1)]))) i (flat_size (flats c1)) h hook m a =
  Some (0, visit a (encode_from (flat t) (flat_size (flats c1)) (flats c2 ++ [(a_final t, -1)]))).
Proof.
  induction c2 as [|c c2 IH]; intros c1 hook a E.
  - apply loop_rest; [|by repeat constructor]. unfold flat. rewrite E, app_nil_r. done.
  - pose proof (ok_chains _ t_ok) as Hall. rewrite E in Hall. apply Forall_app in Hall as [_ Hall]. destruct (decide (c_hook c < 0)) as [Hh|Hh].
    + assert (Hneg : Forall (fun d => c_hook d < 0) (c :: c2)) by (constructor; [done|by apply (ok_order _ t_ok c1 c c2)]).
      rewrite (hooks_none _ Hneg), next_hook_none. apply loop_rest; [|apply Forall_app_2; [by apply user_marks|by repeat constructor]].
      unfold flat. by rewrite E, map_app, concat_app, <- app_assoc.
    + assert (Hh' : 0 <= c_hook c) by lia. assert (Ehk : hooks (c :: c2) = c_hook c :: hooks c2) by (unfold hooks; cbn [map]; by rewrite filter_cons_True by lia).
      pose proof hooks_in_range as Hr. pose proof (sh_sorted _ _ i_shows) as Hs. rewrite E, hooks_app, Ehk in Hr, Hs.
      apply Forall_app in Hr as [_ Hr]. assert (Hs' : StronglySorted Z.lt (c_hook c :: hooks c2)).
      { clear -Hs. induction (hooks c1) as [|h l IHl]; [done|]. inversion Hs; subst. by apply IHl. }
      rewrite Ehk, next_hook by done.
      destruct (ok_kind _ (chain_at t c1 c c2 t_ok E)) as [(_ & Ehd & _)|(? & _)]; [|lia].
      pose proof (loop_chain c1 c c2 (c_rules c) (S (length (flats c2 ++ [(a_final t, -1)]))) [] hook (mask (hooks c2)) a E eq_refl Hh') as Hl.
      specialize (IH (c1 ++ [c])). rewrite <- app_assoc in IH. cbv zeta in Hl.
      destruct (next_hook_entry_index (mask (hooks c2))) as [h' m']. destruct Hl as (hook' & Hl). cbn [items_size] in Hl. rewrite Z.add_0_r in Hl.
      assert (Efc : (match c_rules c ++ [c_foot c] with [] => [] | x :: l => (x, mark_at c []) :: plain l end) = flat_chain c).
      { unfold flat_chain, chain_items, mark_at. by rewrite Ehd. }
      rewrite Efc in Hl. assert (Hlen : length (flat_chain c) = S (length (c_rules c))).
      { rewrite length_flat_chain. unfold chain_items. rewrite Ehd, !length_app. cbn. lia. }
      change (flats (c :: c2)) with (flat_chain c ++ flats c2). rewrite <- app_assoc, length_app, Hlen.
      set (rest := flats c2 ++ [(a_final t, -1)]) in *.
      replace (S (S (length (c_rules c)) + length rest)) with (S (length (c_rules c)) + S (length rest))%nat by lia.
      rewrite Hl. assert (Hsz : flat_size (flats (c1 ++ [c])) = flat_size (flats c1) + items_size (c_rules c) + item_size (c_foot c)).
      { rewrite flats_app, flat_size_app. cbn [flats map concat]. rewrite app_nil_r, flat_size_chain, Ehd. cbn [items_size]. lia. }
      rewrite <- Hsz, IH by done. rewrite encode_from_app. unfold visit. rewrite foldl_app. f_equal. f_equal. f_equal. f_equal.
      rewrite Hsz, flat_size_chain, Ehd. cbn [items_size]. lia.
Qed.

Lemma iterate_shown a : iterate_entries cb i a = Some (0, visit a (encode (flat t))).
Proof.
  unfold iterate_entries. rewrite (sh_valid _ _ i_shows). pose proof (loop_chains (a_chains t) []) as Hl.
  destruct (next_hook_entry_index (mask (hooks (a_chains t)))) as [h m]. specialize (Hl h a eq_refl). cbn [flats map concat flat_size] in Hl.
  assert (Hlen : length (i_entries i) = length (flat t)).
  { rewrite (sh_entries _ _ i_shows), length_map. apply length_encode. }
  rewrite Hlen. exact Hl.
Qed.

End iterate.

(** ** Tables up to the numbers of their counters *)

Definition with_idx (n : Z) (x : item) : item := mk_item (i_raw x) n (i_link x).
Definition erase_item : item -> item := with_idx (-1).
Definition erase_chain (c : chain) : chain :=
  mk_chain (c_hook c) (c_name c) (map erase_item (c_head c)) (map erase_item (c_rules c)) (erase_item (c_foot c)).
Definition erase (a : atable) : atable := mk_atable (map erase_chain (a_chains a)) (erase_item (a_final a)).
Definition erase_pair (y : item * Z) : item * Z := (erase_item y.1, y.2).

#[global] Instance atable_equiv : Equiv atable := fun a b => erase a = erase b.

#[global] Instance atable_equivalence : Equivalence (≡@{atable}).
Proof. split; [done|by intros ? ?|]. intros a b c Hab Hbc. unfold equiv, atable_equiv in *. congruence. Qed.

Lemma erase_item_idem x : erase_item (erase_item x) = erase_item x.
Proof. done. Qed.

Lemma map_erase_idem l : map erase_item (map erase_item l) = map erase_item l.
Proof. rewrite map_map. by apply map_ext. Qed.

Lemma erase_chain_idem c : erase_chain (erase_chain c) = erase_chain c.
Proof. unfold erase_chain. cbn. by rewrite !map_erase_idem. Qed.

Lemma erase_idem a : erase (erase a) = erase a.
Proof. unfold erase. cbn. f_equal. rewrite map_map. apply map_ext. intros c. apply erase_chain_idem. Qed.

Lemma erase_equiv a : erase a ≡ a.
Proof. apply erase_idem. Qed.

Lemma mark_erase h l : mark h (map erase_item l) = map erase_pair (mark h l).
Proof. destruct l as [|x l]; [done|]. cbn. f_equal. by rewrite !map_map. Qed.

Lemma flat_chain_erase c : flat_chain (erase_chain c) = map erase_pair (flat_chain c).
Proof. unfold flat_chain, chain_items. cbn. by rewrite <- mark_erase, !map_app. Qed.

Lemma flats_erase cs : flats (map erase_chain cs) = map erase_pair (flats cs).
Proof.
  induction cs as [|c cs IH]; [done|]. change (flats (c :: cs)) with (flat_chain c ++ flats cs). rewrite map_app, <- IH, <- flat_chain_erase. done.
Qed.

Lemma flat_erase a : flat (erase a) = map erase_pair (flat a).
Proof. unfold flat. cbn. fold (flats (map erase_chain (a_chains a))). rewrite flats_erase, map_app. done. Qed.

Lemma flat_size_erase l : flat_size (map erase_pair l) = flat_size l.
Proof. induction l as [|[x b] l IH]; [done|]. cbn. by rewrite IH. Qed.

Lemma items_size_erase l : items_size (map erase_item l) = items_size l.
Proof. induction l as [|x l IH]; [done|]. cbn. by rewrite IH. Qed.

Lemma is_head_erase name x : is_head name (erase_item x) = is_head name x.
Proof. done. Qed.

Lemma existsb_erase name l : existsb (fun y => is_head name y.1) (map erase_pair l) = existsb (fun y => is_head name y.1) l.
Proof. induction l as [|y l IH]; [done|]. cbn. by rewrite IH. Qed.

Lemma start_of_erase name o l : start_of name o (map erase_pair l) = start_of name o l.
Proof. revert o. induction l as [|[x b] l IH]; intros o; [done|]. cbn. by rewrite IH. Qed.

Lemma resolve_erase g o x : resolve (map erase_pair g) o (erase_item x) = resolve g o x.
Proof. unfold resolve. cbn. destruct (i_link x); [done| |done]. by rewrite start_of_erase. Qed.

Lemma entry_encode_erase g o l : map entry (encode_from (map erase_pair g) o (map erase_pair l)) = map entry (encode_from g o l).
Proof. revert o. induction l as [|[x b] l IH]; intros o; [done|]. cbn. rewrite resolve_erase. f_equal. apply IH. Qed.

Lemma item_ok_erase g x : item_ok (map erase_pair g) (erase_item x) <-> item_ok g x.
Proof.
  split; intros [H1 H2 H3 H4]; split; try done; intros name E.
  - rewrite <- existsb_erase. by apply H4.
  - rewrite existsb_erase. by apply H4.
Qed.

Lemma Forall_erase (P : item -> Prop) (Q : item -> Prop) l :
  (forall x, P (erase_item x) <-> Q x) -> Forall P (map erase_item l) <-> Forall Q l.
Proof. intros H. rewrite Forall_map. apply Forall_iff. intros x. apply H. Qed.

Lemma flat_ok_erase g : flat_ok (map erase_pair g) <-> flat_ok g.
Proof.
  unfold flat_ok. rewrite flat_size_erase, Forall_map. f_equiv. apply Forall_iff. intros y. apply item_ok_erase.
Qed.

Lemma chain_ok_erase c : chain_ok (erase_chain c) <-> chain_ok c.
Proof.
  assert (Hp : Forall no_head (map erase_item (c_rules c ++ [c_foot c])) <-> Forall no_head (c_rules c ++ [c_foot c])) by (by apply Forall_erase).
  rewrite map_app in Hp. split; intros [H1 H2 H3]; split; cbn in *; try done; try (by apply Hp).
  - destruct H1 as [(? & Eh & ?)|(? & (x & Eh & Hx) & ?)]; [left|right].
    + split; [done|]. split; [|done]. by destruct (c_head c).
    + split; [done|]. split; [|done]. destruct (c_head c) as [|y [|z l]]; cbn in Eh; simplify_eq. by exists y.
  - destruct H1 as [(? & Eh & ?)|(? & (x & Eh & Hx) & ?)]; [left|right]; rewrite Eh; [done|].
    split; [done|]. split; [|done]. by exists (erase_item x).
Qed.

Lemma map_split {A B} (f : A -> B) l k1 y k2 : map f l = k1 ++ y :: k2 -> exists l1 x l2, l = l1 ++ x :: l2 /\ map f l1 = k1 /\ f x = y /\ map f l2 = k2.
Proof.
  intros E. apply map_eq_app in E as (l1 & l3 & -> & E1 & E3). apply map_eq_cons in E3 as (x & l2 & -> & Ex & E2). by exists l1, x, l2.
Qed.

Lemma names_erase cs : map c_name (map erase_chain cs) = map c_name cs.
Proof. rewrite map_map. by apply map_ext. Qed.

Lemma hooks_erase cs : hooks (map erase_chain cs) = hooks cs.
Proof. unfold hooks. rewrite map_map. f_equal. Qed.

Lemma table_ok_erase a : table_ok (erase a) <-> table_ok a.
Proof.
  split; intros [H1 H2 H3 H4 H5]; split; cbn [erase a_chains a_final] in *.
  - rewrite flat_erase in H1. by apply flat_ok_erase.
  - rewrite Forall_map in H2. eapply Forall_impl; [exact H2|]. intros c. apply chain_ok_erase.
  - by rewrite names_erase in H3.
  - done.
  - intros c1 c c2 E Hc. specialize (H5 (map erase_chain c1) (erase_chain c) (map erase_chain c2)). rewrite E, map_app in H5.
    specialize (H5 eq_refl Hc). by rewrite Forall_map in H5.
  - rewrite flat_erase. by apply flat_ok_erase.
  - apply Forall_map. eapply Forall_impl; [exact H2|]. intros c. apply chain_ok_erase.
  - by rewrite names_erase.
  - done.
  - intros c1 c c2 E Hc. apply map_split in E as (d1 & d & d2 & E & <- & <- & <-). apply Forall_map. by apply (H5 d1 d d2).
Qed.

#[global] Instance table_ok_proper : Proper ((≡) ==> iff) table_ok.
Proof. intros a b E. rewrite <- (table_ok_erase a), <- (table_ok_erase b). unfold equiv, atable_equiv in E. by rewrite E. Qed.

Lemma shows_erase i a : shows i (erase a) <-> shows i a.
Proof.
  assert (Hen : map entry (encode (flat (erase a))) = map entry (encode (flat a))) by (rewrite flat_erase; apply entry_encode_erase).
  assert (Hlen : length (flat (erase a)) = length (flat a)) by (rewrite flat_erase; apply length_map).
  assert (Hsz : flat_size (flat (erase a)) = flat_size (flat a)) by (rewrite flat_erase; apply flat_size_erase).
  split; intros [H1 H2 H3 H4 H5 H6]; split; rewrite ?Hen, ?Hlen, ?Hsz in *; try done; cbn [erase a_chains] in *; rewrite ?hooks_erase in *; try done.
  - intros c1 c c2 E Hc. specialize (H6 (map erase_chain c1) (erase_chain c) (map erase_chain c2)). rewrite E, map_app in H6.
    specialize (H6 eq_refl Hc). rewrite flats_erase, flat_size_erase in H6. cbn in H6. by rewrite items_size_erase in H6.
  - intros c1 c c2 E Hc. apply map_split in E as (d1 & d & d2 & E & <- & <- & <-).
    rewrite flats_erase, flat_size_erase. cbn. rewrite items_size_erase. by apply (H6 d1 d d2).
Qed.

#[global] Instance shows_proper i : Proper ((≡) ==> iff) (shows i).
Proof. intros a b E. rewrite <- (shows_erase i a), <- (shows_erase i b). unfold equiv, atable_equiv in E. by rewrite E. Qed.

Lemma closed_erase cs : closed (map erase_chain cs) <-> closed cs.
Proof.
  unfold closed. rewrite flats_erase, Forall_map. apply Forall_iff. intros y. cbn.
  split; intros H n E; specialize (H n E); by rewrite existsb_erase in *.
Qed.

Lemma equiv_iff a b : a ≡ b <-> map erase_chain (a_chains a) = map erase_chain (a_chains b) /\ erase_item (a_final a) = erase_item (a_final b).
Proof. unfold equiv, atable_equiv, erase. split; [by intros E; split; [apply (f_equal a_chains E)|apply (f_equal a_final E)]|by intros [-> ->]]. Qed.

Lemma equiv_names a b : a ≡ b -> map c_name (a_chains a) = map c_name (a_chains b).
Proof. intros [E _]%equiv_iff. by rewrite <- (names_erase (a_chains a)), E, names_erase. Qed.

Lemma equiv_hooks a b : a ≡ b -> hooks (a_chains a) = hooks (a_chains b).
Proof. intros [E _]%equiv_iff. by rewrite <- (hooks_erase (a_chains a)), E, hooks_erase. Qed.

Lemma add_chain_equiv a b c : a ≡ b -> add_chain a c ≡ add_chain b c.
Proof. intros [E1 E2]%equiv_iff. apply equiv_iff. cbn. by rewrite !map_app, E1. Qed.

(** Equivalent tables have the same chains. *)
Lemma equiv_split a b c1 c c2 : a ≡ b -> a_chains b = c1 ++ c :: c2 ->
  exists d1 d d2, a_chains a = d1 ++ d :: d2 /\ map erase_chain d1 = map erase_chain c1 /\ erase_chain d = erase_chain c /\
    map erase_chain d2 = map erase_chain c2.
Proof.
  intros [E _]%equiv_iff Ec. rewrite Ec, map_app in E. cbn in E.
  apply map_split in E as (d1 & d & d2 & E & E1 & Ed & E2). by exists d1, d, d2.
Qed.

Lemma flat_size_equiv a b : a ≡ b -> flat_size (flat a) = flat_size (flat b).
Proof. intros E. rewrite <- (flat_size_erase (flat a)), <- (flat_size_erase (flat b)), <- !flat_erase. unfold equiv, atable_equiv in E. by rewrite E. Qed.

Lemma start_of_equiv a b name o : a ≡ b -> start_of name o (flat a) = start_of name o (flat b).
Proof. intros E. rewrite <- (start_of_erase name o (flat a)), <- (start_of_erase name o (flat b)), <- !flat_erase. unfold equiv, atable_equiv in E. by rewrite E. Qed.

(** ** The numbers a table gets when it is read *)

Fixpoint number_items (n : Z) (l : list item) : list item :=
  match l with
  | [] => []
  | x :: l => with_idx n x :: number_items (n + 1) l
  end.

Fixpoint number_flat (n : Z) (l : list (item * Z)) : list (item * Z) :=
  match l with
  | [] => []
  | (x, b) :: l => (with_idx n x, b) :: number_flat (n + 1) l
  end.

Definition len {A} (l : list A) : Z := Z.of_nat (length l).

Definition number_chain (n : Z) (c : chain) : chain :=
  mk_chain (c_hook c) (c_name c) (number_items n (c_head c)) (number_items (n + len (c_head c)) (c_rules c))
    (with_idx (n + len (c_head c) + len (c_rules c)) (c_foot c)).

Fixpoint number_chains (n : Z) (cs : list chain) : list chain :=
  match cs with
  | [] => []
  | c :: cs => number_chain n c :: number_chains (n + len (chain_items c)) cs
  end.

Definition number (a : atable) : atable := mk_atable (number_chains 0 (a_chains a)) (with_idx (len (flats (a_chains a))) (a_final a)).

Lemma number_items_app n l1 l2 : number_items n (l1 ++ l2) = number_items n l1 ++ number_items (n + len l1) l2.
Proof.
  revert n. induction l1 as [|x l1 IH]; intros n; cbn; [by rewrite Z.add_0_r|]. rewrite IH. unfold len. cbn. do 3 f_equal. lia.
Qed.

Lemma number_flat_app n l1 l2 : number_flat n (l1 ++ l2) = number_flat n l1 ++ number_flat (n + len l1) l2.
Proof.
  revert n. induction l1 as [|[x b] l1 IH]; intros n; cbn; [by rewrite Z.add_0_r|]. rewrite IH. unfold len. cbn. do 3 f_equal. lia.
Qed.

Lemma number_plain n l : number_flat n (plain l) = plain (number_items n l).
Proof. revert n. induction l as [|x l IH]; intros n; cbn; [done|]. f_equal. apply IH. Qed.

Lemma number_mark n h l : number_flat n (mark h l) = mark h (number_items n l).
Proof. destruct l as [|x l]; [done|]. cbn. f_equal. apply number_plain. Qed.

Lemma chain_items_number n c : chain_items (number_chain n c) = number_items n (chain_items c).
Proof. unfold chain_items. cbn. by rewrite !number_items_app. Qed.

Lemma flats_number n cs : flats (number_chains n cs) = number_flat n (flats cs).
Proof.
  revert n. induction cs as [|c cs IH]; intros n; [done|]. cbn [number_chains]. change (flats (c :: cs)) with (flat_chain c ++ flats cs).
  rewrite number_flat_app. change (flats (number_chain n c :: ?l)) with (flat_chain (number_chain n c) ++ flats l). rewrite IH. f_equal.
  - unfold flat_chain. by rewrite chain_items_number, number_mark.
  - f_equal. unfold len. by rewrite length_flat_chain.
Qed.

Lemma flat_number a : flat (number a) = number_flat 0 (flat a).
Proof. unfold flat, number. cbn [a_chains a_final]. fold (flats (a_chains a)). fold (flats (number_chains 0 (a_chains a))).
  by rewrite flats_number, number_flat_app. Qed.

Lemma number_equiv a : number a ≡ a.
Proof.
  assert (Hi : forall l n, map erase_item (number_items n l) = map erase_item l) by (intros l; induction l as [|x l IH]; intros n; cbn; [done|]; by rewrite IH).
  unfold equiv, atable_equiv, erase, number. cbn. f_equal.
  generalize 0. induction (a_chains a) as [|c cs IH]; intros n; cbn; [done|]. f_equal; [|apply IH]. unfold erase_chain. cbn. by rewrite !Hi.
Qed.

Lemma number_bound n l : 0 <= n -> Forall (fun y => i_idx y.1 < n + len l) (number_flat n l).
Proof.
  intros Hn. revert n Hn. induction l as [|[x b] l IH]; intros n Hn; cbn; constructor; unfold len in *; cbn.
  - lia.
  - eapply Forall_impl; [apply (IH (n + 1)); lia|]. intros y Hy. cbn in Hy. lia.
Qed.

Lemma start_of_number name o n l : start_of name o (number_flat n l) = start_of name o l.
Proof. revert o n. induction l as [|[x b] l IH]; intros o n; [done|]. cbn. by rewrite IH. Qed.

Lemma encode_number g n o l : encode_from (number_flat n g) o l = encode_from g o l.
Proof.
  revert o. induction l as [|[x b] l IH]; intros o; [done|]. cbn. rewrite IH. do 2 f_equal. unfold resolve.
  destruct (i_link x); [done| |done]. by rewrite start_of_number.
Qed.

(** The callback of [iptables_init]. *)
Definition add_last (t : connman_iptables) (e : ipt_entry) (b o : Z) : connman_iptables := (add_entry true t e b 0 o).2.

Lemma add_entry_last t e b hook o : add_entry true t e b hook o = (0, add_last t e b o).
Proof. done. Qed.

Lemma add_last_run t e b o :
  num_entries t + 1 < 2 ^ 32 -> 0 <= num_entries t -> 0 <= size t -> 0 <= next_offset e -> size t + next_offset e < 2 ^ 32 ->
  let t' := add_last t e b o in
  entries t' = entries t ++ [mk_entry (size t) b (num_entries t) e] /\ num_entries t' = num_entries t + 1 /\
  size t' = size t + next_offset e /\ underflow t' = underflow t /\ hook_entry t' = hook_entry t /\ statics t' = statics t.
Proof.
  intros Hn Hn0 Hs He Hse t'. unfold t', add_last, add_entry, iptables_add_entry. cbn [negb mbind option_bind snd entries with_entries with_size num_entries size underflow hook_entry insert_before].
  rewrite (u32_small (size t + next_offset e)), (u32_small (num_entries t + 1)) by lia. split; [|done]. rewrite length_app. cbn [length].
  rewrite alter_app_r_alt by lia. replace (length (entries t) + 1 - 1 - length (entries t))%nat with 0%nat by lia.
  cbn. unfold with_offset. cbn. do 3 f_equal. rewrite u32_small; lia.
Qed.

Lemma visit_init g l : forall t,
  Forall (fun y => item_ok g y.1) l -> 0 <= num_entries t -> 0 <= size t -> num_entries t + len l < 2 ^ 32 -> size t + flat_size l < 2 ^ 32 ->
  let t' := visit add_last t (encode_from g (size t) l) in
  entries t' = entries t ++ encode_from g (size t) (number_flat (num_entries t) l) /\ num_entries t' = num_entries t + len l /\
  size t' = size t + flat_size l /\ underflow t' = underflow t /\ hook_entry t' = hook_entry t /\ statics t' = statics t.
Proof.
  induction l as [|[x b] l IH]; intros t Hl Hn Hs Hnl Hsl t'.
  - unfold t', len. cbn. rewrite app_nil_r. repeat split; first [done|lia].
  - apply Forall_cons_1 in Hl as [Hx Hl]. pose proof (item_pos _ _ Hx) as Hp. pose proof (flat_size_nonneg _ _ Hl). cbn [fst flat_size] in *.
    unfold len in *. cbn [length] in Hnl.
    destruct (add_last_run t (resolve g (size t) x) b (size t)) as (E1 & E2 & E3 & E4 & E5 & E6); [lia|lia|lia|rewrite resolve_size; lia|rewrite resolve_size; lia|].
    rewrite resolve_size in E3. set (t1 := add_last t (resolve g (size t) x) b (size t)) in *.
    destruct (IH t1 Hl) as (F1 & F2 & F3 & F4 & F5 & F6); [lia|lia|lia|lia|]. rewrite E3 in F1, F2, F3, F4, F5, F6.
    assert (Ev : t' = visit add_last t1 (encode_from g (size t + item_size x) l)) by done. rewrite Ev.
    rewrite F1, F2, F3, F4, F5, F6, E1, E2, E4, E5, E6. cbn [number_flat encode_from length]. rewrite <- app_assoc.
    repeat split; first [done|lia].
Qed.

(** A table that is read is the one that the kernel shows. *)
Lemma init_run f i a : table_ok a -> shows i a ->
  exists t, iptables_init true f i = Some t /\ represents t (number a) /\ statics t = (f, i_valid_hooks i, i_num_entries i) /\
    Forall (fun y => i_idx y.1 < old_entries t) (flat (number a)).
Proof.
  intros Ha Hi. unfold iptables_init. set (t0 := mk_table f _ _ 0 0 _ _ []).
  rewrite (iterate_shown (add_entry true) add_last add_entry_last i a Ha Hi t0). cbn [fmap option_fmap option_map snd].
  pose proof (ok_flat _ Ha) as [Hok Hlt]. pose proof (length_le_size _ _ Hok) as Hle.
  destruct (visit_init (flat a) (flat a) t0) as (E1 & E2 & E3 & E4 & E5 & E6); [done|done|done|cbn; unfold len; lia|cbn; lia|].
  change (size t0) with 0 in *. change (num_entries t0) with 0 in *. change (entries t0) with (@nil connman_iptables_entry) in E1. rewrite Z.add_0_l in E2, E3.
  exists (visit add_last t0 (encode (flat a))). split; [done|]. unfold encode at 1 2 3. split; [|split].
  - assert (Hlen : forall n l, length (number_flat n l) = length l) by (intros n l; revert n; induction l as [|[x b] l IH]; intros n; cbn; [done|]; by rewrite IH).
    split.
    + rewrite E1. unfold encode. rewrite flat_number, encode_number. done.
    + rewrite E2, flat_number, Hlen. done.
    + rewrite E3. symmetry. apply flat_size_equiv, number_equiv.
    + intros c1 c c2 E Hc. rewrite E4, E5. pose proof Hi as Hi'. rewrite <- number_equiv in Hi'. by apply (sh_hooks _ _ Hi' c1 c c2).
  - done.
  - replace (old_entries _) with (i_num_entries i) by (by injection E6 as _ _ ->).
    rewrite (sh_num _ _ Hi), flat_number. by apply (number_bound 0).
Qed.

(** ** Rules in equivalent tables *)

Lemma erase_chain_inv d c : erase_chain d = erase_chain c ->
  c_hook d = c_hook c /\ c_name d = c_name c /\ map erase_item (c_head d) = map erase_item (c_head c) /\
  map erase_item (c_rules d) = map erase_item (c_rules c) /\ erase_item (c_foot d) = erase_item (c_foot c).
Proof.
  intros E. split; [apply (f_equal c_hook E)|]. split; [apply (f_equal c_name E)|]. split; [apply (f_equal c_head E)|].
  split; [apply (f_equal c_rules E)|apply (f_equal c_foot E)].
Qed.

Lemma set_chain_equiv a b c1 c c2 d1 d d2 r r' :
  erase_item (a_final b) = erase_item (a_final a) -> map erase_chain d1 = map erase_chain c1 -> erase_chain d = erase_chain c ->
  map erase_chain d2 = map erase_chain c2 -> map erase_item r' = map erase_item r ->
  set_chain b d1 d d2 r' ≡ set_chain a c1 c c2 r.
Proof.
  intros Ef E1 Ed E2 Er. apply equiv_iff. cbn. rewrite !map_app. cbn. split; [|done]. rewrite E1, E2. do 2 f_equal.
  apply erase_chain_inv in Ed as (Hh & Hn & Hd & _ & Hft). unfold erase_chain. cbn [set_rules c_hook c_name c_head c_rules c_foot].
  by rewrite Hh, Hn, Hd, Er, Hft.
Qed.

Lemma rule_ok_equiv f a b r : a ≡ b -> rule_ok f b r -> rule_ok f a r.
Proof.
  intros E [H1 H2 H3 H4]. split; [done|done|by rewrite (flat_size_equiv a b)|]. destruct (r_to r); [done| |done..].
  destruct H4 as (c & Hc & Hn & Hh). apply list_elem_of_split in Hc as (c1 & c2 & Ec).
  destruct (equiv_split a b c1 c c2 E Ec) as (d1 & d & d2 & Ed & _ & Edc & _). exists d.
  split; [rewrite Ed; apply elem_of_app; right; constructor|]. by apply erase_chain_inv in Edc as (-> & -> & _).
Qed.

Lemma xt_of_equiv a b to : a ≡ b -> xt_of (flat a) to = xt_of (flat b) to.
Proof. intros E. destruct to; cbn; [done| |done..]. by rewrite (start_of_equiv a b). Qed.

(** The offset a jump to a chain has. *)
Lemma start_of_chain a c1 c c2 h : table_ok a -> a_chains a = c1 ++ c :: c2 -> c_hook c < 0 -> c_head c = [h] ->
  start_of (c_name c) 0 (flat a) = flat_size (flats c1) + item_size h.
Proof.
  intros Ha E Hh Eh. destruct (NoDup_name_split _ _ _ _ Ha E) as (Hn & _). assert (Hc := ok_chains _ Ha). rewrite E in Hc. apply Forall_app in Hc as [Hc1 Hc].
  apply Forall_cons_1 in Hc as [Hc _]. rewrite (flat_split _ _ _ _ E), start_of_app.
  assert (Hno : existsb (fun y => is_head (c_name c) y.1) (flats c1) = false).
  { clear E. induction Hc1 as [|d c1 Hd Hc1 IH]; [done|]. apply Forall_cons_1 in Hn as [Hnd Hn].
    change (flats (d :: c1)) with (flat_chain d ++ flats c1). rewrite existsb_app, IH, orb_false_r by done.
    destruct (starts_chain d (c_name c) Hd) as [Hs|?]; [|done].
    clear -Hs. induction Hs as [|y l Hy _ IH]; [done|]. cbn. rewrite IH. unfold starts in Hy. by apply orb_false_elim in Hy as [_ ->]. }
  rewrite Hno. destruct (ok_kind _ Hc) as [(? & _)|(_ & (x & Ex & Hx & _) & _)]; [lia|]. rewrite Eh in Ex. simplify_eq.
  assert (Ei : chain_items c = x :: c_rules c ++ [c_foot c]) by (unfold chain_items; by rewrite Eh).
  rewrite (flat_chain_cons _ _ _ Ei). cbn [app start_of]. by rewrite Hx.
Qed.

(** The rules in front of a place, as they are stored. *)
Lemma stored_before (P : ipt_entry -> Prop) a c1 c c2 r1 r2 :
  a_chains a = c1 ++ c :: c2 -> c_rules c = r1 ++ r2 -> (forall x o, x ∈ r1 -> P (resolve (flat a) o x)) ->
  Forall P (take (length r1) (stored a c1 c)).
Proof.
  intros E Er HP. apply list.Forall_forall. intros e (j & Ej)%list_elem_of_lookup.
  pose proof (lookup_lt_Some _ _ _ Ej) as Hj. rewrite length_take in Hj. rewrite lookup_take_lt in Ej by lia.
  destruct (lookup_lt_is_Some_2 r1 j) as [x Hx]; [lia|]. pose proof (take_drop_middle r1 j x Hx) as Em.
  assert (Er' : c_rules c = take j r1 ++ x :: (drop (S j) r1 ++ r2)) by (rewrite Er, <- Em at 1; by rewrite <- app_assoc).
  pose proof (stored_rule a c1 c c2 _ x _ E Er') as Hst. rewrite length_take_le in Hst by lia. rewrite Hst in Ej. simplify_eq.
  apply HP. by apply list_elem_of_lookup_2 in Hx.
Qed.

End IptablesChains.
