(* ===== verification/Netfilter.v ===== *)
(** * The interface of the packet filter (src/iptables.c, its second half)

    Tables are read from the kernel when they are first needed, edited in memory, and handed back as a whole
    when they are committed.  The kernel and libxtables are interfaces: [Kernel] is what the socket
    options of the kernel do, [Xtables] what the text of a rule means.

    Results are those of C; [None] is a function that leaves its memory.  Memory does not run out here, and
    libxtables starts up. *)

From S2P Require Import Prelude Inet Buffer Iptables.
From stdpp Require Import list gmap.
Import Iptables.
Open Scope Z_scope.

Module Netfilter.

(** The options [IPT_SO_GET_INFO], [IPT_SO_GET_ENTRIES], [IPT_SO_SET_REPLACE] and
    [IPT_SO_SET_ADD_COUNTERS] of a raw socket.  Replacing a table yields the counters of the old one. *)
Class Kernel (K : Type) := {
  get_info : K -> family -> list Z -> option ipt_info;
  set_replace : K -> family -> list Z -> replace -> Z * list (Z * Z) * K;
  set_add_counters : K -> family -> list Z -> list (Z * Z) -> Z * K;
}.

(** What the text of a rule says: addresses, interfaces and the protocol, the matches, the name of a target and
    the target that libxtables makes of it if it knows the name. *)
Record spec := mk_spec {
  s_ip : list Z;
  s_matches : list xt_entry_match;
  s_jump : option (list Z);
  s_extension : option xt_entry_target;
}.

Class Xtables := {
  (** The rule, or an error. *)
  parse_text : family -> list Z -> Z + spec;
}.

Section netfilter.
Context {K : Type} `{Kernel K} `{Xtables}.

(** [table_hash] and [table_hash_ipv6]: the tables in memory, with what the kernel said of them. *)
Record nf := mk_nf {
  kernel : K;
  table_hash : gmap (family * list Z) (ipt_info * connman_iptables);
}.

Definition with_kernel (k : K) (s : nf) : nf := mk_nf k (table_hash s).
Definition hash_table_replace (f : family) (n : list Z) (x : ipt_info * connman_iptables) (s : nf) : nf :=
  mk_nf (kernel s) (<[(f, n) := x]> (table_hash s)).
Definition hash_table_remove (f : family) (n : list Z) (s : nf) : nf := mk_nf (kernel s) (delete (f, n) (table_hash s)).

Definition set_table (f : family) (n : list Z) (t : connman_iptables) (s : nf) : nf :=
  mk_nf (kernel s) (alter (fun x => (x.1, t)) (f, n) (table_hash s)).

Definition get_table (f : family) (n : list Z) (s : nf) : option (option (ipt_info * connman_iptables) * nf) :=
  match table_hash s !! (f, n) with
  | Some x => Some (Some x, s)
  | None =>
      match get_info (kernel s) f n with
      | None => Some (None, s)
      | Some i =>
          t ← iptables_init true f i;
          Some (Some (i, t), hash_table_replace f n (i, t) s)
      end
  end.

(** An operation on a table. *)
Definition on_table (f : family) (n : list Z) (op : connman_iptables -> option (Z * connman_iptables)) (s : nf) : option (Z * nf) :=
  '(x, s) ← get_table f n s;
  match x with
  | None => Some (- EINVAL, s)
  | Some (_, t) => '(err, t) ← op t; Some (err, set_table f n t s)
  end.

Definition connman_iptables_new_chain (f : family) (n chain : list Z) : nf -> option (Z * nf) :=
  on_table f n (fun t => iptables_add_chain all_ok t chain).

Definition connman_iptables_delete_chain (f : family) (n chain : list Z) : nf -> option (Z * nf) :=
  on_table f n (fun t => iptables_delete_chain t chain).

Definition connman_iptables_flush_chain (f : family) (n chain : list Z) : nf -> option (Z * nf) :=
  on_table f n (fun t => iptables_flush_chain t chain).

Definition connman_iptables_find_chain (f : family) (n chain : list Z) : nf -> option (Z * nf) :=
  on_table f n (fun t => Some (match find_chain_head t chain with None => - ENOENT | Some _ => 0 end, t)).

Definition connman_iptables_change_policy (f : family) (n chain policy : list Z) : nf -> option (Z * nf) :=
  on_table f n (fun t => iptables_change_policy t chain policy).

(** The target of a rule, in a table. *)
Definition prepare_target (t : connman_iptables) (sp : spec) : Z + option xt_entry_target :=
  match s_jump sp with
  | None => inr None
  | Some name =>
      match prepare_standard_target t name, s_extension sp with
      | Some x, _ => inr (Some x)
      | None, Some x => inr (Some x)
      | None, None => inl (- EINVAL)
      end
  end.

(** An operation with a rule: the table is read before the rule is, and stays in memory when that fails. *)
Definition with_rule (f : family) (n rule_spec : list Z)
    (op : connman_iptables -> list Z -> option xt_entry_target -> list xt_entry_match -> option (Z * connman_iptables)) : nf -> option (Z * nf) :=
  on_table f n (fun t =>
    match parse_text f rule_spec with
    | inl err => Some (err, t)
    | inr sp =>
        match prepare_target t sp with
        | inl err => Some (err, t)
        | inr xt_t => op t (s_ip sp) xt_t (s_matches sp)
        end
    end).

Definition connman_iptables_append (f : family) (n chain rule_spec : list Z) : nf -> option (Z * nf) :=
  with_rule f n rule_spec (fun t ip xt_t xt_rm => iptables_append_rule all_ok t ip chain xt_t xt_rm).

Definition connman_iptables_insert (f : family) (n chain rule_spec : list Z) : nf -> option (Z * nf) :=
  with_rule f n rule_spec (fun t ip xt_t xt_rm => iptables_insert_rule all_ok t ip chain xt_t xt_rm).

Definition connman_iptables_delete (f : family) (n chain rule_spec : list Z) : nf -> option (Z * nf) :=
  with_rule f n rule_spec (fun t ip xt_t xt_rm => iptables_delete_rule all_ok t ip chain xt_t xt_rm).

(** The table is forgotten once the kernel has it, whatever becomes of the counters. *)
Definition connman_iptables_commit (f : family) (n : list Z) (s : nf) : option (Z * nf) :=
  match table_hash s !! (f, n) with
  | None => Some (- EINVAL, s)
  | Some (_, t) =>
      r ← iptables_blob t;
      let '(err, old, k) := set_replace (kernel s) f n r in
      let s := with_kernel k s in
      if err <? 0 then Some (err, s)
      else
        cs ← new_counters old (entries t);
        let '(err, k) := set_add_counters (kernel s) f n cs in
        Some (if err <? 0 then err else 0, hash_table_remove f n (with_kernel k s))
  end.

(** The names of the chains, those of the kernel's table as it was read. *)
Definition connman_iptables_iterate_chains (f : family) (n : list Z) (s : nf) : option (Z * list (list Z) * nf) :=
  '(x, s) ← get_table f n s;
  match x with
  | None => Some (- EINVAL, [], s)
  | Some (i, _) => names ← iterate_chains i; Some (0, names, s)
  end.

End netfilter.

Arguments nf : clear implicits.

End Netfilter.
