(* ===== verification/NetfilterProps.v ===== *)
(** * What the packet filter promises

    Specifications of the operations on a table, in terms of its chains, whether the table is in memory already
    or has to be read from the kernel, and of handing it back. *)

From S2P Require Import Prelude Inet Buffer Iptables IptablesProps IptablesChains Netfilter.
From stdpp Require Import list gmap sorting.
Import Iptables IptablesProps IptablesChains Netfilter.
Open Scope Z_scope.

Module NetfilterProps.

Definition info_of (r : replace) : ipt_info :=
  mk_info (r_valid_hooks r) (r_num_entries r) (r_size r) (r_hook_entry r) (r_underflow r) (r_entries r).

(** What the code relies on of the kernel: it shows the table it was given if it accepts it, and counters change
    nothing else.  Which tables it accepts is up to the kernel. *)
Class KernelLaws (K : Type) `{!Kernel K} := {
  accepted : ipt_info -> Prop;
  replace_accepts k f n i r : get_info k f n = Some i -> accepted (info_of r) -> (set_replace k f n r).1.1 = 0;
  replace_get k f n r : 0 <= (set_replace k f n r).1.1 -> get_info (set_replace k f n r).2 f n = Some (info_of r);
  replace_counters k f n r : 0 <= r_num_counters r -> 0 <= (set_replace k f n r).1.1 -> Z.of_nat (length (set_replace k f n r).1.2) = r_num_counters r;
  replace_other k f n r f' n' : (f', n') <> (f, n) -> get_info (set_replace k f n r).2 f' n' = get_info k f' n';
  add_counters_ok k f n i cs : get_info k f n = Some i -> Z.of_nat (length cs) = i_num_entries i -> (set_add_counters k f n cs).1 = 0;
  add_counters_get k f n cs f' n' : get_info (set_add_counters k f n cs).2 f' n' = get_info k f' n';
}.

(** The table in memory is that of the chains, and its counters are those of the kernel. *)
Record in_memory (f : family) (t : connman_iptables) (a : atable) : Prop := {
  mem_rep : represents t a;
  mem_type : type t = f;
  mem_valid : valid_hooks t = mask (hooks (a_chains a));
  mem_sorted : StronglySorted Z.lt (hooks (a_chains a));
  mem_old : 0 <= old_entries t;
  mem_idx : Forall (fun y => i_idx y.1 < old_entries t) (flat a);
}.

Section netfilter.
Context {K : Type} `{!Kernel K} `{!KernelLaws K} `{!Xtables}.
Implicit Types s : nf K.

Definition loaded s (f : family) (n : list Z) : Prop := is_Some (table_hash s !! (f, n)).

(** The current table: the one in memory, or else that of the kernel. *)
Definition holds s (f : family) (n : list Z) (a : atable) : Prop :=
  table_ok a /\ exists b, b ≡ a /\
    match table_hash s !! (f, n) with
    | Some (_, t) => in_memory f t b /\ is_Some (get_info (kernel s) f n)
    | None => exists i, get_info (kernel s) f n = Some i /\ shows i b
    end.

(** The kernel shows the table, and it is not in memory. *)
Definition settled s (f : family) (n : list Z) (a : atable) : Prop :=
  table_ok a /\ table_hash s !! (f, n) = None /\ exists i, get_info (kernel s) f n = Some i /\ shows i a.

Lemma settled_holds s f n a : settled s f n a -> holds s f n a.
Proof. intros (Ha & E & i & Ei & Hi). split; [done|]. exists a. split; [done|]. rewrite E. by exists i. Qed.

(** All other tables are as they were. *)
Definition others s s' (f : family) (n : list Z) : Prop :=
  forall f' n', (f', n') <> (f, n) -> get_info (kernel s') f' n' = get_info (kernel s) f' n' /\ table_hash s' !! (f', n') = table_hash s !! (f', n').

Lemma others_refl s f n : others s s f n.
Proof. by intros f' n'. Qed.

Lemma others_trans s1 s2 s3 f n : others s1 s2 f n -> others s2 s3 f n -> others s1 s3 f n.
Proof. intros H1 H2 f' n' Hn. destruct (H2 f' n' Hn) as [-> ->]. by apply H1. Qed.

Lemma get_table_run s f n a : holds s f n a ->
  exists i t b s', get_table f n s = Some (Some (i, t), s') /\ b ≡ a /\ table_ok b /\ in_memory f t b /\
    table_hash s' !! (f, n) = Some (i, t) /\ kernel s' = kernel s /\ is_Some (get_info (kernel s) f n) /\ others s s' f n.
Proof.
  intros (Ha & b & Eb & Hb). unfold get_table. destruct (table_hash s !! (f, n)) as [[i t]|] eqn:E.
  - destruct Hb as [Hb Hk]. exists i, t, b, s. split; [done|]. split; [done|]. split; [by rewrite Eb|]. split; [done|]. split; [done|]. split; [done|]. by split.
  - destruct Hb as (i & Ei & Hi). assert (Hb : table_ok b) by (by rewrite Eb).
    destruct (init_run f i b Hb Hi) as (t & Et & Hr & Hs & Hx). rewrite Ei, Et. cbn [mbind option_bind].
    exists i, t, (number b), (hash_table_replace f n (i, t) s). split; [done|]. split; [by rewrite number_equiv|].
    split; [by rewrite number_equiv|]. split; [|split; [|split; [done|split; [by exists i|]]]].
    + injection Hs as H1 H2 H3. rewrite <- (number_equiv b) in Hi. split; [done|done| |by apply (sh_sorted _ _ Hi)| |done].
      * rewrite H2. apply (sh_valid _ _ Hi).
      * rewrite H3, (sh_num _ _ Hi). lia.
    + cbn. apply lookup_insert_eq.
    + intros f' n' Hn. cbn. by rewrite lookup_insert_ne.
Qed.

(** What an operation on a table does, from what it does to one in memory. *)
Lemma on_table_run s f n a op err a' :
  holds s f n a -> table_ok a' ->
  (forall t b, b ≡ a -> table_ok b -> in_memory f t b -> exists t' b', op t = Some (err, t') /\ b' ≡ a' /\ in_memory f t' b') ->
  exists s', on_table f n op s = Some (err, s') /\ holds s' f n a' /\ loaded s' f n /\ others s s' f n.
Proof.
  intros Hs Ha' Hop. destruct (get_table_run s f n a Hs) as (i & t & b & s1 & E & Eb & Hb & Hm & Eh & Ek & Hk & Ho).
  destruct (Hop t b Eb Hb Hm) as (t' & b' & Et & Eb' & Hm'). unfold on_table. rewrite E. cbn [mbind option_bind]. rewrite Et. cbn [mbind option_bind].
  exists (set_table f n t' s1). split; [done|].
  assert (Eh' : table_hash (set_table f n t' s1) !! (f, n) = Some (i, t')) by (cbn; by rewrite lookup_alter_eq, Eh).
  split; [|split].
  - split; [done|]. exists b'. split; [done|]. rewrite Eh'. split; [done|]. cbn. by rewrite Ek.
  - by exists (i, t').
  - intros f' n' Hn. destruct (Ho f' n' Hn) as [H1 H2]. cbn. rewrite Ek in *. split; [done|]. by rewrite lookup_alter_ne.
Qed.

Lemma new_chain_run s f n a name :
  holds s f n a -> fresh_name a name -> flat_size (flat a) + chain_size f < 2 ^ 31 ->
  exists s', connman_iptables_new_chain f n name s = Some (0, s') /\ holds s' f n (add_chain a (user_chain f name)) /\
    loaded s' f n /\ others s s' f n.
Proof.
  intros Hs Hf Hz. apply (on_table_run s f n a); [done|by apply table_ok_add_chain; [apply Hs|..]|].
  intros t b Eb Hb [M1 M2 M3 M4 M5 M6].
  assert (Hf' : fresh_name b name) by (destruct Hf; split; [by rewrite (equiv_names b a)|done..]).
  destruct (chain_added b t name all_ok Hb M1 (fun _ => eq_refl) Hf') as (t' & Et & Hr & Ho).
  { rewrite M2, (flat_size_equiv b a) by done. done. }
  exists t', (add_chain b (user_chain f name)). split; [done|]. rewrite M2 in Hr. split.
  - by apply add_chain_equiv.
  - pose proof (statics_add_chain _ _ _ _ _ Et) as Hst. injection Hst as S1 S2 S3.
    assert (Hh : hooks (a_chains (add_chain b (user_chain f name))) = hooks (a_chains b)) by (cbn [add_chain a_chains]; rewrite hooks_app; apply app_nil_r).
    split; [done|congruence|by rewrite S2, Hh|by rewrite Hh|lia|]. rewrite S3, flat_add_chain.
    change (flat b) with (flats (a_chains b) ++ [(a_final b, -1)]) in M6. apply Forall_app in M6 as [M6 M7].
    apply Forall_app_2; [done|]. constructor; [cbn; lia|]. constructor; [cbn; lia|done].
Qed.

(** ** Rules *)

(** What the text of a rule says is the rule, in a table. *)
Record means (sp : spec) (a : atable) (r : rule) : Prop := {
  means_ip : s_ip sp = r_ip r;
  means_matches : s_matches sp = r_matches r;
  means_to : match r_to r with
             | To_verdict v => exists name, s_jump sp = Some name /\ is_builtin_target name = true /\ v = target_to_verdict name
             | To_chain name => s_jump sp = Some name /\ is_builtin_target name = false
             | To_extension x => s_extension sp = Some x /\
                 exists name, s_jump sp = Some name /\ is_builtin_target name = false /\ (name ∉ XT_ERROR_TARGET :: map c_name (a_chains a))
             | To_next => s_jump sp = None
             end;
}.

Lemma means_equiv sp a b r : a ≡ b -> means sp b r -> means sp a r.
Proof. intros E [H1 H2 H3]. split; [done..|]. destruct (r_to r); try done. by rewrite (equiv_names a b). Qed.

Lemma prepare_target_run f t a sp r :
  table_ok a -> represents t a -> means sp a r -> rule_ok f a r -> prepare_target t sp = inr (xt_of (flat a) (r_to r)).
Proof.
  intros Ha Ht [_ _ Hm] [_ _ _ Hr]. unfold prepare_target, prepare_standard_target. destruct (r_to r) as [v|name|x|].
  - destruct Hm as (name & -> & -> & ->). done.
  - destruct Hm as [-> ->]. destruct Hr as (c & Hc & <- & Hh). apply list_elem_of_split in Hc as (c1 & c2 & E).
    rewrite (find_head a t c1 c c2) by done. cbn [mbind option_bind].
    destruct (ok_kind _ (chain_at a c1 c c2 Ha E)) as [(? & _)|(_ & (h & Eh & _) & _)]; [lia|].
    destruct (c_rules c ++ [c_foot c]) as [|x post] eqn:Ex; [by destruct (c_rules c)|].
    pose proof (flat_at a c1 c c2 [] (c_rules c) x post E eq_refl Ex) as Ef.
    assert (El : entries t !! S (length (flats c1)) = Some (mk_entry (flat_size (before c1 c [])) (mark_at c []) (i_idx x) (resolve (flat a) (flat_size (before c1 c [])) x))).
    { rewrite (rep_entries _ _ Ht). unfold encode. rewrite Ef at 2. replace (S (length (flats c1))) with (length (before c1 c [])) by (rewrite length_before, Eh; cbn; lia).
      apply lookup_encode. }
    rewrite El. cbn [mbind option_bind offset]. pose proof (start_of_chain a c1 c c2 h Ha E Hh Eh) as Est.
    assert (Hin : c ∈ a_chains a) by (rewrite E; apply elem_of_app; right; constructor).
    pose proof (start_of_range (c_name c) (flat a) 0 (flat a) (proj1 (ok_flat _ Ha)) (chain_has_head a c Ha Hin Hh)) as Hrg.
    pose proof (proj2 (ok_flat _ Ha)). rewrite before_size, Eh. cbn [items_size xt_of]. rewrite Est in Hrg |- *.
    rewrite s32_small by lia. do 3 f_equal. lia.
  - destruct Hm as (Hx & name & -> & -> & Hn). rewrite (find_head_none a t name Ha Ht Hn). cbn. by rewrite Hx.
  - by rewrite Hm.
Qed.

Lemma in_memory_set f t t' a c1 c c2 r :
  in_memory f t a -> a_chains a = c1 ++ c :: c2 -> represents t' (set_chain a c1 c c2 r) -> statics t' = statics t ->
  Forall (fun x => i_idx x < old_entries t) r -> in_memory f t' (set_chain a c1 c c2 r).
Proof.
  intros [M1 M2 M3 M4 M5 M6] E Hr Hs Hx. injection Hs as S1 S2 S3.
  assert (Hh : hooks (a_chains (set_chain a c1 c c2 r)) = hooks (a_chains a)) by (cbn [set_chain a_chains]; rewrite E, !hooks_app; done).
  split; [done|congruence|by rewrite S2, Hh|by rewrite Hh|lia|]. rewrite S3.
  destruct (flat_Forall (fun x => i_idx x < old_entries t) a c1 c c2 E M6) as (F1 & F2 & F3 & F4).
  rewrite (flat_split (set_chain a c1 c c2 r) c1 (set_rules r c) c2 eq_refl). apply Forall_app_2; [done|].
  apply Forall_app_2; [|by apply Forall_app_2; [|repeat constructor]].
  apply (Forall_mark (fun x => i_idx x < old_entries t)). unfold chain_items in *. apply Forall_app in F2 as [G1 G2]. apply Forall_app in G2 as [_ G2].
  cbn. apply Forall_app_2; [done|]. by apply Forall_app_2.
Qed.

Section rule.
Context (s : nf K) (f : family) (n text : list Z) (a : atable) (c1 : list chain) (c : chain) (c2 : list chain) (r : rule) (sp : spec).
Hypothesis Hs : holds s f n a.
Hypothesis Ea : a_chains a = c1 ++ c :: c2.
Hypothesis Hr : rule_ok f a r.
Hypothesis Hsp : parse_text f text = inr sp.
Hypothesis Hm : means sp a r.

(** Adding the rule at the end of the chain or in front. *)
Lemma added_run (front : bool) :
  exists s', (if front then connman_iptables_insert else connman_iptables_append) f n (c_name c) text s = Some (0, s') /\
    holds s' f n (set_chain a c1 c c2 (if front then rule_item f r :: c_rules c else c_rules c ++ [rule_item f r])) /\
    loaded s' f n /\ others s s' f n.
Proof.
  set (a' := set_chain a c1 c c2 _). pose proof (proj1 Hs) as Ha. pose proof (rule_addable f a r Ha Hr) as Hadd.
  assert (Hok : table_ok a').
  { assert (Hrs : Forall no_head (if front then rule_item f r :: c_rules c else c_rules c ++ [rule_item f r])).
    { pose proof (ok_plain _ (chain_at a c1 c c2 Ha Ea)) as Hp. apply Forall_app in Hp as [Hp _]. destruct Hadd as [_ Hn _].
      destruct front; [by constructor|by apply Forall_app_2; [|repeat constructor]]. }
    apply table_ok_set; [done|done| |done]. destruct front; [by apply (flat_ok_set a c1 c c2 [] (c_rules c))|].
    apply (flat_ok_set a c1 c c2 (c_rules c) []); [done|done|by rewrite app_nil_r|done]. }
  destruct (on_table_run s f n a (fun t =>
    match parse_text f text with
    | inl err => Some (err, t)
    | inr sp => match prepare_target t sp with
                | inl err => Some (err, t)
                | inr xt_t => (if front then iptables_insert_rule else iptables_append_rule) all_ok t (s_ip sp) (c_name c) xt_t (s_matches sp)
                end
    end) 0 a' Hs Hok) as (s' & E' & H'); [|exists s'; split; [by destruct front|done]].
  intros t b Eb Hb Hmem. destruct (equiv_split b a c1 c c2 Eb Ea) as (d1 & d & d2 & Ed & Ed1 & Edc & Ed2).
  pose proof (rule_ok_equiv f b a r Eb Hr) as Hrb. pose proof (mem_rep _ _ _ Hmem) as Hrep. pose proof (mem_type _ _ _ Hmem) as Hty.
  rewrite Hsp, (prepare_target_run f t b sp r) by (done || by apply (means_equiv sp b a)).
  destruct Hm as [-> -> _]. destruct (rule_given f b r all_ok Hb Hrb eq_refl eq_refl) as (e & En & Hg).
  pose proof (rule_addable f b r Hb Hrb) as Haddb. rewrite <- Hty in En.
  destruct (erase_chain_inv d c Edc) as (_ & Hname & _ & Hrules & _). rewrite <- Hname.
  assert (Hidx : Forall (fun x => i_idx x < old_entries t) (c_rules d) /\ i_idx (rule_item f r) < old_entries t).
  { pose proof (mem_old _ _ _ Hmem). split; [|cbn; lia].
    destruct (flat_Forall (fun x => i_idx x < old_entries t) b d1 d d2 Ed (mem_idx _ _ _ Hmem)) as (_ & F & _).
    unfold chain_items in F. apply Forall_app in F as [_ F]. by apply Forall_app in F as [F _]. }
  destruct Hidx as [Hi1 Hi2].
  destruct (equiv_iff b a) as [Hfin _]. destruct (Hfin Eb) as [_ Hf]. unfold a'. destruct front.
  - destruct (insert_run b t d1 d d2 all_ok (r_ip r) _ _ _ e Hb Hrep Ed eq_refl En Haddb Hg eq_refl) as (t' & Et & Hr' & _).
    exists t', (set_chain b d1 d d2 (rule_item f r :: c_rules d)). split; [exact Et|]. split.
    + apply set_chain_equiv; [done..|]. cbn. by rewrite Hrules.
    + apply (in_memory_set f t); [done|done|done|by apply statics_insert in Et|by constructor].
  - destruct (append_run b t d1 d d2 all_ok (r_ip r) _ _ _ e Hb Hrep Ed eq_refl En Haddb Hg eq_refl) as (t' & Et & Hr' & _).
    exists t', (set_chain b d1 d d2 (c_rules d ++ [rule_item f r])). split; [exact Et|]. split.
    + apply set_chain_equiv; [done..|]. rewrite !map_app. by rewrite Hrules.
    + apply (in_memory_set f t); [done|done|done|by apply statics_append in Et|]. apply Forall_app_2; [done|by repeat constructor].
Qed.

(** Deleting it, when the rules in front of it are for other packets. *)
Lemma deleted_run r1 y r2 :
  findable r -> c_rules c = r1 ++ y :: r2 -> erase_item y = rule_item f r -> Forall (fun x => ip (i_raw x) <> r_ip r) r1 ->
  exists s', connman_iptables_delete f n (c_name c) text s = Some (0, s') /\ holds s' f n (set_chain a c1 c c2 (r1 ++ r2)) /\
    loaded s' f n /\ others s s' f n.
Proof.
  intros Hfd Er Ey Hip. pose proof (proj1 Hs) as Ha.
  assert (Hok : table_ok (set_chain a c1 c c2 (r1 ++ r2))).
  { pose proof (ok_plain _ (chain_at a c1 c c2 Ha Ea)) as Hp. apply Forall_app in Hp as [Hp _]. rewrite Er in Hp. apply Forall_app in Hp as [P1 P2].
    apply Forall_cons_1 in P2 as [P2 P3]. apply table_ok_set; [done|done| |by apply Forall_app_2].
    destruct (r2 ++ [c_foot c]) as [|x post] eqn:Ex; [by destruct r2|]. rewrite (flat_without a c1 c c2 r1 r2 x post Ex).
    apply (flat_ok_remove _ _ y (mark_at c r1)); [|done].
    assert (Ef : flat a = before c1 c r1 ++ (y, mark_at c r1) :: (x, -1) :: behind post c2 a).
    { rewrite (flat_at a c1 c c2 r1 (y :: r2) y (x :: post)); [done..|]. cbn. by rewrite Ex. }
    apply (flat_ok_marks (flat a)); [by rewrite Ef, !map_app|by apply ok_flat]. }
  apply (on_table_run s f n a); [done|done|]. intros t b Eb Hb Hmem.
  destruct (equiv_split b a c1 c c2 Eb Ea) as (d1 & d & d2 & Ed & Ed1 & Edc & Ed2).
  pose proof (rule_ok_equiv f b a r Eb Hr) as Hrb. pose proof (mem_rep _ _ _ Hmem) as Hrep. pose proof (mem_type _ _ _ Hmem) as Hty.
  rewrite Hsp, (prepare_target_run f t b sp r) by (done || by apply (means_equiv sp b a)). destruct Hm as [-> -> _].
  destruct (rule_given f b r all_ok Hb Hrb eq_refl eq_refl) as (test & En & _).
  destruct (erase_chain_inv d c Edc) as (_ & Hname & _ & Hrules & _). rewrite <- Hname.
  rewrite Er, map_app in Hrules. cbn [map] in Hrules. apply map_split in Hrules as (q1 & z & q2 & Eq & Eq1 & Ez & Eq2).
  assert (Hst : stored b d1 d !! length q1 = Some (resolve (flat b) (flat_size (before d1 d q1)) (rule_item f r))).
  { rewrite (stored_rule b d1 d d2 q1 z q2 Ed Eq). f_equal. rewrite <- Ey, <- Ez. done. }
  assert (Hself := same_rule_self f b (flat b) r all_ok (flat_size (before d1 d q1)) test Hb Hrb Hfd En).
  assert (Htest : ip test = r_ip r) by (unfold new_rule in En; cbn in En; by simplify_eq).
  assert (Hbefore : Forall (fun e => same_rule test (xt_of (flat b) (r_to r)) (r_matches r) e = Some false) (take (length q1) (stored b d1 d))).
  { apply (stored_before _ b d1 d d2 q1 (z :: q2)); [done|done|]. intros x o Hx. unfold same_rule, is_same_iptables_entry.
    assert (Hne : ip (resolve (flat b) o x) <> r_ip r).
    { assert (Hx' : erase_item x ∈ map erase_item r1) by (rewrite <- Eq1; by apply list_elem_of_fmap_2).
      apply list_elem_of_fmap in Hx' as (x' & Exx & Hx'). rewrite list.Forall_forall in Hip. specialize (Hip x' Hx').
      assert (ip (resolve (flat b) o x) = ip (i_raw (erase_item x))) as -> by (unfold resolve; by destruct (i_link x)). by rewrite Exx. }
    unfold bytes_eqb. rewrite Htest, bool_decide_eq_false_2 by congruence. done. }
  destruct (rule_deleted b t d1 d d2 all_ok (r_ip r) (xt_of (flat b) (r_to r)) (r_matches r) test (length q1)
    (resolve (flat b) (flat_size (before d1 d q1)) (rule_item f r)) Hb Hrep Ed) as (t' & Et & Hr' & _);
    [by rewrite Hty| |exact Hst|exact Hself|exact Hbefore|].
  { destruct (find_some _ Hfd) as [Hto|?]; [left|by right]. destruct (r_to r); cbn; [by eexists..|done]. }
  assert (Hcut : take (length q1) (c_rules d) ++ drop (S (length q1)) (c_rules d) = q1 ++ q2).
  { rewrite Eq, take_app_length. f_equal. rewrite cons_middle, app_assoc, drop_app_length' by (rewrite length_app; cbn; lia). done. }
  cbv zeta in Hr'. rewrite Hcut in Hr'. exists t', (set_chain b d1 d d2 (q1 ++ q2)). split; [exact Et|].
  apply equiv_iff in Eb as Hfin. destruct Hfin as [_ Hf]. split.
  - apply set_chain_equiv; [done..|]. by rewrite !map_app, Eq1, Eq2.
  - apply (in_memory_set f t); [done|done|done|by apply (statics_delete b t d1 d d2) in Et|].
    destruct (flat_Forall (fun x => i_idx x < old_entries t) b d1 d d2 Ed (mem_idx _ _ _ Hmem)) as (_ & F & _).
    unfold chain_items in F. apply Forall_app in F as [_ F]. apply Forall_app in F as [F _]. rewrite Eq in F.
    apply Forall_app in F as [F1 F2]. apply Forall_cons_1 in F2 as [_ F2]. by apply Forall_app_2.
Qed.

End rule.

Lemma delete_chain_run s f n cs c fin :
  let a := mk_atable (cs ++ [c]) fin in
  holds s f n a -> closed cs -> c_hook c < 0 -> c_rules c = [] ->
  exists s', connman_iptables_delete_chain f n (c_name c) s = Some (0, s') /\ holds s' f n (mk_atable cs fin) /\
    loaded s' f n /\ others s s' f n.
Proof.
  intros a Hs Hc Hh Hr. apply (on_table_run s f n a); [done|by apply (table_ok_last cs c fin); [apply Hs|]|].
  intros t b Eb Hb Hmem. destruct (equiv_split b a cs c [] Eb eq_refl) as (d1 & d & d2 & Ed & Ed1 & Edc & Ed2).
  destruct d2; [|done]. destruct b as [bs bf]. cbn in Ed. subst bs.
  destruct (erase_chain_inv d c Edc) as (Hdh & Hname & _ & Hrules & _). rewrite <- Hname.
  assert (Hc' : closed d1) by (apply closed_erase; rewrite Ed1; by apply closed_erase).
  destruct (chain_deleted d1 d bf t Hb (mem_rep _ _ _ Hmem) Hc') as (t' & Et & Hr'); [lia|rewrite Hr in Hrules; by destruct (c_rules d)|].
  exists t', (mk_atable d1 bf). split; [exact Et|]. apply equiv_iff in Eb as [_ Hf]. split; [by apply equiv_iff|].
  pose proof (statics_delete_chain _ _ _ _ Et) as Hst. injection Hst as S1 S2 S3. destruct Hmem as [M1 M2 M3 M4 M5 M6].
  assert (Hhk : hooks (d1 ++ [d]) = hooks d1).
  { rewrite hooks_app, (hooks_none [d]); [apply app_nil_r|]. repeat constructor. lia. }
  cbn [a_chains] in *. rewrite Hhk in M3, M4. split; cbn [a_chains]; [done|congruence|congruence|done|lia|].
  rewrite S3. destruct (flat_Forall (fun x => i_idx x < old_entries t) (mk_atable (d1 ++ [d]) bf) d1 d [] eq_refl M6) as (F1 & _ & _ & F4).
  unfold flat. cbn [a_chains a_final]. apply Forall_app_2; [done|by repeat constructor].
Qed.

(** ** Handing a table back *)

Lemma total_encode g o l : total_size (encode_from g o l) = flat_size l.
Proof.
  revert o. induction l as [|[x b] l IH]; intros o; [done|]. cbn. rewrite IH. f_equal. apply (resolve_size g o x).
Qed.

Lemma new_counters_run old g o l :
  Forall (fun y => i_idx y.1 < Z.of_nat (length old)) l ->
  exists cs, new_counters old (encode_from g o l) = Some cs /\ length cs = length l.
Proof.
  intros Hl. revert o. induction Hl as [|[x b] l Hx Hl IH]; intros o; [by exists []|]. cbn [encode_from new_counters counter_idx].
  destruct (IH (o + item_size x)) as (cs & -> & Hlen). cbn in Hx. destruct (Z.leb_spec 0 (i_idx x)) as [Hp|Hp].
  - destruct (lookup_lt_is_Some_2 old (Z.to_nat (i_idx x))) as [v ->]; [lia|]. exists (v :: cs). split; [done|]. cbn. by rewrite Hlen.
  - exists ((0, 0) :: cs). split; [done|]. cbn. by rewrite Hlen.
Qed.

Lemma commit_run s f n a :
  holds s f n a -> loaded s f n -> (forall i, shows i a -> accepted i) ->
  exists s', connman_iptables_commit f n s = Some (0, s') /\ settled s' f n a /\ others s s' f n.
Proof.
  intros (Ha & b & Eb & Hb) [[i0 t] Eh] Hacc. rewrite Eh in Hb. destruct Hb as [Hm [i1 Hk]]. pose proof (mem_rep _ _ _ Hm) as [R1 R2 R3 R4].
  unfold connman_iptables_commit. rewrite Eh. unfold iptables_blob. rewrite R1, R3.
  assert (Htot : total_size (encode (flat b)) = flat_size (flat b)) by apply total_encode. rewrite Htot, Z.ltb_irrefl. cbn [mbind option_bind]. set (r := mk_replace _ _ _ _ _ _ _).
  assert (Hsh : shows (info_of r) a).
  { rewrite <- Eb. split; cbn.
    - done.
    - done.
    - done.
    - by rewrite (mem_valid _ _ _ Hm).
    - by apply (mem_sorted _ _ _ Hm).
    - intros c1 c c2 E Hc. by apply (R4 c1 c c2). }
  pose proof (replace_accepts (kernel s) f n i1 r Hk (Hacc _ Hsh)) as Herr.
  pose proof (replace_get (kernel s) f n r) as Hget. pose proof (replace_counters (kernel s) f n r) as Hcnt.
  pose proof (replace_other (kernel s) f n r) as Hoth. destruct (set_replace (kernel s) f n r) as [[err old] k]. cbn [fst snd] in *. subst err.
  specialize (Hget ltac:(lia)). specialize (Hcnt (mem_old _ _ _ Hm) ltac:(lia)). cbn [Z.ltb Z.compare].
  destruct (new_counters_run old (flat b) 0 (flat b)) as (cs & Ecs & Hlen); [rewrite Hcnt; apply (mem_idx _ _ _ Hm)|].
  unfold encode. rewrite Ecs. cbn [mbind option_bind with_kernel kernel].
  pose proof (add_counters_ok k f n _ cs Hget) as Hadd. rewrite (sh_num _ _ Hsh) in Hadd.
  assert (Hl : length (flat b) = length (flat a)).
  { rewrite <- (length_map erase_pair (flat b)), <- flat_erase, Eb, flat_erase. apply length_map. }
  specialize (Hadd ltac:(lia)). pose proof (add_counters_get k f n cs) as Hag. destruct (set_add_counters k f n cs) as [err k']. cbn [fst snd] in *. subst err.
  eexists. split; [reflexivity|]. cbn [hash_table_remove with_kernel kernel table_hash]. split.
  - split; [done|]. cbn. split; [apply lookup_delete_eq|]. exists (info_of r). by rewrite Hag.
  - intros f' n' Hn. cbn. rewrite Hag, Hoth, lookup_delete_ne by done. done.
Qed.

End netfilter.

End NetfilterProps.
