(* ===== verification/Firewall.v ===== *)
(** * The firewall and network address translation (src/firewall-iptables.c, src/nat.c)

    A context is a list of rules that are enabled and disabled together.  A rule for a chain of the kernel goes to a
    chain of ConnMan's own, to which the kernel's chain jumps; the chains are counted, made for the first rule
    and removed with the last one.  Contexts belong to their users, the address translation of a
    tethered interface and sessions.

    The tables are those of [Netfilter]. *)

From S2P Require Import Prelude Inet Buffer Effects Glib CText Iptables Netfilter.
From Stdlib Require Import Ascii String.
From stdpp Require Import list gmap strings.
Import Iptables Netfilter.
Open Scope Z_scope.

Module Firewall.

(** The bytes of a literal. *)
Definition txt (s : string) : list Z := map (fun c => Z.of_nat (nat_of_ascii c)) (list_ascii_of_string s).

(** [%d] *)
Definition print_int (v : Z) : list Z := if v <? 0 then txt "-" ++ print_number 10 (- v) else print_number 10 v.

Definition CHAIN_PREFIX : list Z := txt "connman-".

Definition builtin_chains : list (list Z) :=
  [txt "PREROUTING"; txt "INPUT"; txt "FORWARD"; txt "OUTPUT"; txt "POSTROUTING"].

Record connman_managed_table := mk_managed {
  mt_name : list Z;
  chains : list Z;
}.

Record fw_rule := mk_fw_rule {
  enabled : bool;
  fr_table : list Z;
  fr_chain : list Z;
  rule_spec : list Z;
}.

Definition set_enabled (b : bool) (r : fw_rule) : fw_rule := mk_fw_rule b (fr_table r) (fr_chain r) (rule_spec r).

(** [struct firewall_context] *)
Abbreviation firewall_context := (list fw_rule).

Definition chain_to_index (chain_name : list Z) : Z :=
  match find_from (bytes_eqb chain_name) 0 builtin_chains with
  | Some i => Z.of_nat i
  | None => -1
  end.

Definition managed_chain_to_index (chain_name : list Z) : Z :=
  if prefix_of CHAIN_PREFIX chain_name then chain_to_index (drop (length CHAIN_PREFIX) chain_name) else -1.

(** The name of a chain of the kernel. *)
Definition builtin_chain (id : Z) : list Z := default [] (builtin_chains !! Z.to_nat id).
Definition managed_chain (id : Z) : list Z := CHAIN_PREFIX ++ builtin_chain id.

(** How often a chain of the table is used. *)
Definition chain_count (id : Z) (m : connman_managed_table) : Z := nth (Z.to_nat id) (chains m) 0.
Definition set_count (id v : Z) (m : connman_managed_table) : connman_managed_table :=
  mk_managed (mt_name m) (<[Z.to_nat id := v]> (chains m)).

Definition find_managed (n : list Z) (l : list connman_managed_table) : option connman_managed_table :=
  i ← find_from (fun m => bytes_eqb (mt_name m) n) 0 l; l !! i.

(** The first table of the name. *)
Fixpoint update_managed (n : list Z) (g : connman_managed_table -> connman_managed_table) (l : list connman_managed_table) : list connman_managed_table :=
  match l with
  | [] => []
  | m :: l => if bytes_eqb (mt_name m) n then g m :: l else m :: update_managed n g l
  end.

Section firewall.
Context {K : Type} `{!Kernel K} `{!Xtables}.

Record fw := mk_fw {
  fw_nf : nf K;
  managed_tables : list connman_managed_table;
  connmark_ctx : option firewall_context;
  connmark_ref : Z;
}.

Definition with_nf (s : nf K) (w : fw) : fw := mk_fw s (managed_tables w) (connmark_ctx w) (connmark_ref w).
Definition with_managed (l : list connman_managed_table) (w : fw) : fw := mk_fw (fw_nf w) l (connmark_ctx w) (connmark_ref w).
Definition with_connmark (c : option firewall_context) (w : fw) : fw := mk_fw (fw_nf w) (managed_tables w) c (connmark_ref w).
Definition with_ref (r : Z) (w : fw) : fw := mk_fw (fw_nf w) (managed_tables w) (connmark_ctx w) r.

Abbreviation M := (pprog fw Empty_set).

Definition call (op : nf K -> option (Z * nf K)) : M Z := fun w =>
  match op (fw_nf w) with
  | None => None
  | Some (err, s) => Some (err, with_nf s w, [])
  end.

Definition jump_to (chain : list Z) : list Z := txt "-j " ++ chain.

Definition insert_managed_chain (table_name : list Z) (id : Z) : M Z :=
  err ← call (connman_iptables_new_chain AF_INET table_name (managed_chain id));
  if err <? 0 then mret err
  else
    err ← call (connman_iptables_insert AF_INET table_name (builtin_chain id) (jump_to (managed_chain id)));
    if err <? 0
    then call (connman_iptables_delete_chain AF_INET table_name (managed_chain id));; mret err
    else mret err.

Definition delete_managed_chain (table_name : list Z) (id : Z) : M Z :=
  err ← call (connman_iptables_delete AF_INET table_name (builtin_chain id) (jump_to (managed_chain id)));
  if err <? 0 then mret err
  else call (connman_iptables_delete_chain AF_INET table_name (managed_chain id)).

(** The table is put in front of the list when it is not there. *)
Definition find_or_add_managed (table_name : list Z) : M connman_managed_table :=
  l ← pget managed_tables;
  match find_managed table_name l with
  | Some m => mret m
  | None =>
      let m := mk_managed table_name (replicate (Z.to_nat NF_INET_NUMHOOKS) 0) in
      pmodify (with_managed (m :: l));; mret m
  end.

Definition insert_managed_rule (table_name chain_name rule : list Z) : M Z :=
  let id := chain_to_index chain_name in
  if id <? 0 then call (connman_iptables_append AF_INET table_name chain_name rule)
  else
    m ← find_or_add_managed table_name;
    err ← (if chain_count id m =? 0 then insert_managed_chain table_name id else mret 0);
    if err <? 0 then mret err
    else
      pmodify (fun w => with_managed (update_managed table_name (set_count id (u32 (chain_count id m + 1))) (managed_tables w)) w);;
      call (connman_iptables_append AF_INET table_name (CHAIN_PREFIX ++ chain_name) rule).

Definition delete_managed_rule (table_name chain_name rule : list Z) : M Z :=
  let id := chain_to_index chain_name in
  if id <? 0 then call (connman_iptables_delete AF_INET table_name chain_name rule)
  else
    err ← call (connman_iptables_delete AF_INET table_name (CHAIN_PREFIX ++ chain_name) rule);
    l ← pget managed_tables;
    match find_managed table_name l with
    | None => mret (- ENOENT)
    | Some m =>
        let n := u32 (chain_count id m - 1) in
        pmodify (with_managed (update_managed table_name (set_count id n) l));;
        if 0 <? n then mret err else delete_managed_chain table_name id
    end.

Definition enable_rule (r : fw_rule) : M (Z * fw_rule) :=
  if enabled r then mret (- EALREADY, r)
  else
    err ← insert_managed_rule (fr_table r) (fr_chain r) (rule_spec r);
    if err <? 0 then mret (err, r)
    else
      err ← call (connman_iptables_commit AF_INET (fr_table r));
      if err <? 0 then mret (err, r) else mret (0, set_enabled true r).

Definition disable_rule (r : fw_rule) : M (Z * fw_rule) :=
  if negb (enabled r) then mret (- EALREADY, r)
  else
    err ← delete_managed_rule (fr_table r) (fr_chain r) (rule_spec r);
    if err <? 0 then mret (err, r)
    else
      err ← call (connman_iptables_commit AF_INET (fr_table r));
      if err <? 0 then mret (err, r) else mret (0, set_enabled false r).

Definition firewall_add_rule (ctx : firewall_context) (table chain rule : list Z) : firewall_context :=
  ctx ++ [mk_fw_rule false table chain rule].

Fixpoint enable_from (err : Z) (l : firewall_context) : M (Z * firewall_context) :=
  match l with
  | [] => mret (err, [])
  | r :: l =>
      '(err, r) ← enable_rule r;
      if err <? 0 then mret (err, r :: l)
      else '(err, l) ← enable_from err l; mret (err, r :: l)
  end.

Definition firewall_enable_rules (ctx : firewall_context) : M (Z * firewall_context) := enable_from (- ENOENT) ctx.

Fixpoint disable_from (err : Z) (l : firewall_context) : M (Z * firewall_context) :=
  match l with
  | [] => mret (err, [])
  | r :: l =>
      '(e, r) ← disable_rule r;
      let err := if (e =? 0) && (err =? - ENOENT) then 0 else if e <? 0 then e else err in
      '(err, l) ← disable_from err l;
      mret (err, r :: l)
  end.

(** The last rule first. *)
Definition firewall_disable_rules (ctx : firewall_context) : M (Z * firewall_context) :=
  '(err, l) ← disable_from (- ENOENT) (rev ctx);
  mret (err, rev l).

Definition nat_rule (address : list Z) (prefixlen : Z) (interface : list Z) : list Z :=
  txt "-s " ++ address ++ txt "/" ++ print_int prefixlen ++ txt " -o " ++ interface ++ txt " -j MASQUERADE".

Definition connman_firewall_enable_nat (ctx : firewall_context) (address : list Z) (prefixlen : Z) (interface : list Z) : M (Z * firewall_context) :=
  '(err, ctx) ← firewall_enable_rules (firewall_add_rule ctx (txt "nat") (txt "POSTROUTING") (nat_rule address prefixlen interface));
  mret (err, if err =? 0 then ctx else []).

Definition connman_firewall_disable_nat (ctx : firewall_context) : M (Z * firewall_context) :=
  '(err, ctx) ← firewall_disable_rules ctx;
  if err <? 0 then mret (err, ctx) else mret (0, []).

Definition connman_firewall_enable_snat (ctx : firewall_context) (ifname addr : list Z) : M (Z * firewall_context) :=
  '(err, ctx) ← firewall_enable_rules (firewall_add_rule ctx (txt "nat") (txt "POSTROUTING")
                  (txt "-o " ++ ifname ++ txt " -j SNAT --to-source " ++ addr));
  mret (err, if err =? 0 then ctx else []).

Definition connman_firewall_disable_snat (ctx : firewall_context) : M (Z * firewall_context) :=
  '(err, ctx) ← firewall_disable_rules ctx;
  if err <? 0 then mret (err, ctx) else mret (0, []).

(** ** Marks *)

Definition firewall_enable_connmark : M Z :=
  ref ← pget connmark_ref;
  if 0 <? ref then pmodify (with_ref (u32 (ref + 1)));; mret 0
  else
    let ctx := firewall_add_rule [] (txt "mangle") (txt "INPUT") (txt "-j CONNMARK --restore-mark") in
    let ctx := firewall_add_rule ctx (txt "mangle") (txt "POSTROUTING") (txt "-j CONNMARK --save-mark") in
    '(err, ctx) ← firewall_enable_rules ctx;
    if negb (err =? 0) then pmodify (with_connmark None);; mret err
    else pmodify (with_connmark (Some ctx));; pmodify (with_ref (u32 (ref + 1)));; mret 0.

(** The context is used without a check. *)
Definition firewall_disable_connmark : M unit :=
  ref ← pget connmark_ref;
  let ref := u32 (ref - 1) in
  pmodify (with_ref ref);;
  if 0 <? ref then pskip
  else
    c ← pget connmark_ctx;
    ctx ← plift c;
    firewall_disable_rules ctx;;
    pmodify (with_connmark None).

Inductive connman_session_id_type := ID_TYPE_UNKNOWN | ID_TYPE_UID | ID_TYPE_GID | ID_TYPE_LSM.

Definition mark_of (mark : Z) : list Z := txt " -j MARK --set-mark " ++ print_int (s32 mark).

Definition connman_firewall_enable_marking (ctx : firewall_context) (id_type : connman_session_id_type) (id : list Z)
    (src_ip : option (list Z)) (mark : Z) : M (Z * firewall_context) :=
  err ← firewall_enable_connmark;
  if negb (err =? 0) then mret (err, ctx)
  else
    let ctx1 :=
      match id_type with
      | ID_TYPE_UID => Some (firewall_add_rule ctx (txt "mangle") (txt "OUTPUT") (txt "-m owner --uid-owner " ++ id ++ mark_of mark))
      | ID_TYPE_GID => Some (firewall_add_rule ctx (txt "mangle") (txt "OUTPUT") (txt "-m owner --gid-owner " ++ id ++ mark_of mark))
      | ID_TYPE_UNKNOWN => Some ctx
      | ID_TYPE_LSM => None
      end in
    match ctx1 with
    | None => mret (- EINVAL, ctx)
    | Some ctx =>
        firewall_enable_rules
          match src_ip with
          | Some src_ip => firewall_add_rule ctx (txt "mangle") (txt "OUTPUT") (txt "-s " ++ src_ip ++ mark_of mark)
          | None => ctx
          end
    end.

Definition connman_firewall_disable_marking (ctx : firewall_context) : M (Z * firewall_context) :=
  firewall_disable_connmark;;
  firewall_disable_rules ctx.

(** ** Start *)

Definition iterate_chains_cb (ids : list Z) (chain_name : list Z) : list Z :=
  let id := managed_chain_to_index chain_name in
  if id <? 0 then ids else id :: ids.

Definition call_names (op : nf K -> option (Z * list (list Z) * nf K)) : M (list (list Z)) := fun w =>
  match op (fw_nf w) with
  | None => None
  | Some (_, names, s) => Some (names, with_nf s w, [])
  end.

Fixpoint flush_chains (table_name : list Z) (ids : list Z) : M unit :=
  match ids with
  | [] => pskip
  | id :: ids =>
      call (connman_iptables_delete AF_INET table_name (builtin_chain id) (jump_to (managed_chain id)));;
      call (connman_iptables_flush_chain AF_INET table_name (managed_chain id));;
      call (connman_iptables_delete_chain AF_INET table_name (managed_chain id));;
      flush_chains table_name ids
  end.

Definition flush_table (table_name : list Z) : M unit :=
  names ← call_names (connman_iptables_iterate_chains AF_INET table_name);
  flush_chains table_name (foldl iterate_chains_cb [] names);;
  call (connman_iptables_commit AF_INET table_name);;
  pskip.

(** [names_file]: /proc/net/ip_tables_names is there. *)
Definition flush_all_tables (names_file : bool) : M unit :=
  if negb names_file then pskip
  else flush_table (txt "filter");; flush_table (txt "mangle");; flush_table (txt "nat").

Definition connman_firewall_init (names_file : bool) : M Z :=
  pmodify (fun w => with_nf (mk_nf (kernel (fw_nf w)) ∅) w);;
  flush_all_tables names_file;;
  mret 0.

End firewall.

Arguments fw : clear implicits.

(** ** Address translation *)

Record connman_nat := mk_nat {
  address : list Z;
  prefixlen : Z;
  n_fw : firewall_context;
  interface : option (list Z);
}.

Definition set_n_fw (c : firewall_context) (n : connman_nat) : connman_nat := mk_nat (address n) (prefixlen n) c (interface n).

Section nat.
Context {K : Type} `{!Kernel K} `{!Xtables} `{!GLib}.

(** [ip_forward] is the file of the kernel, if it can be opened, and [value] what was in it, 0 if
    it was not read. *)
Record nat_state := mk_nat_state {
  n_firewall : fw K;
  nat_hash : gmap (list Z) connman_nat;
  default_interface : option (list Z);
  ip_forward : option Z;
  value : Z;
}.

Definition with_firewall (w : fw K) (s : nat_state) : nat_state := mk_nat_state w (nat_hash s) (default_interface s) (ip_forward s) (value s).
Definition with_hash (h : gmap (list Z) connman_nat) (s : nat_state) : nat_state :=
  mk_nat_state (n_firewall s) h (default_interface s) (ip_forward s) (value s).
Definition with_default (i : option (list Z)) (s : nat_state) : nat_state :=
  mk_nat_state (n_firewall s) (nat_hash s) i (ip_forward s) (value s).

Abbreviation N := (pprog nat_state Empty_set).

Definition in_firewall {A} (m : pprog (fw K) Empty_set A) : N A := fun s =>
  match m (n_firewall s) with
  | None => None
  | Some (a, w, o) => Some (a, with_firewall w s, o)
  end.

Definition enable_ip_forward (enable : bool) : N Z := fun s =>
  match ip_forward s with
  | None => Some (- ENOENT, s, [])
  | Some file =>
      let v := if value s =? 0 then file else value s in
      let '(new, v) := if enable then (49, v) else (if v =? 0 then 48 else v, 0) in
      Some (0, mk_nat_state (n_firewall s) (nat_hash s) (default_interface s) (Some new) v, [])
  end.

(** The entry of the hash table is changed in place. *)
Definition store_nat (name : list Z) (n : connman_nat) : N unit := pmodify (fun s => with_hash (<[name := n]> (nat_hash s)) s).

Definition enable_nat (name : list Z) (n : connman_nat) : N Z :=
  interface ← pget default_interface;
  let n := mk_nat (address n) (prefixlen n) (n_fw n) interface in
  match interface with
  | None => store_nat name n;; mret 0
  | Some i =>
      '(err, ctx) ← in_firewall (connman_firewall_enable_nat (n_fw n) (address n) (prefixlen n) i);
      store_nat name (set_n_fw ctx n);; mret err
  end.

Definition disable_nat (name : list Z) (n : connman_nat) : N unit :=
  match interface n with
  | None => pskip
  | Some _ =>
      '(_, ctx) ← in_firewall (connman_firewall_disable_nat (n_fw n));
      store_nat name (set_n_fw ctx n)
  end.

(** An entry of the same name is replaced, and its rules are forgotten. *)
Definition connman_nat_enable (name addr : list Z) (plen : Z) : N Z :=
  h ← pget nat_hash;
  err ← (if bool_decide (h = ∅) then enable_ip_forward true else mret 0);
  if err <? 0 then mret err
  else
    let n := mk_nat addr plen [] None in
    store_nat name n;; enable_nat name n.

Definition connman_nat_disable (name : list Z) : N unit :=
  h ← pget nat_hash;
  match h !! name with
  | None => pskip
  | Some n =>
      disable_nat name n;;
      pmodify (fun s => with_hash (delete name (nat_hash s)) s);;
      h ← pget nat_hash;
      if bool_decide (h = ∅) then enable_ip_forward false;; pskip else pskip
  end.

Fixpoint update_nats (names : list (list Z)) : N unit :=
  match names with
  | [] => pskip
  | name :: names =>
      h ← pget nat_hash;
      n ← plift (h !! name);
      disable_nat name n;;
      h ← pget nat_hash;
      n ← plift (h !! name);
      enable_nat name n;;
      update_nats names
  end.

(** [interface] is that of the new default service. *)
Definition update_default_interface (interface : option (list Z)) : N unit :=
  pmodify (with_default interface);;
  h ← pget nat_hash;
  update_nats (map fst (g_hash_table_foreach h)).

(** A hash table must not be changed while it is visited, which disabling an entry does. *)
Definition connman_nat_cleanup : N unit :=
  h ← pget nat_hash;
  if bool_decide (h = ∅) then pskip else plift None.

End nat.

Arguments nat_state : clear implicits.

End Firewall.
