(* ===== verification/FirewallProps.v ===== *)
(** * Properties of the firewall

    From the calls of a user of the firewall to the table of the kernel: a rule that is enabled is in the kernel's
    table, behind a jump from the chain of the hook, and disabling it gives the table back as it was. *)

From S2P Require Import Prelude Inet Buffer Effects Glib CText Iptables IptablesProps IptablesChains Netfilter NetfilterProps Firewall.
From Stdlib Require Import Ascii String.
From stdpp Require Import list gmap strings sorting.
Import Iptables IptablesProps IptablesChains Netfilter NetfilterProps Firewall.
Open Scope Z_scope.

Module FirewallProps.

(** ** Names *)

Lemma builtin_chains_hooknames : builtin_chains = hooknames.
Proof. done. Qed.

Lemma hook_cases (P : Z -> Prop) h : 0 <= h < NF_INET_NUMHOOKS -> P 0 -> P 1 -> P 2 -> P 3 -> P 4 -> P h.
Proof.
  unfold NF_INET_NUMHOOKS. intros Hh P0 P1 P2 P3 P4.
  assert (h = 0 \/ h = 1 \/ h = 2 \/ h = 3 \/ h = 4) as [->|[->|[->|[->| ->]]]] by lia; done.
Qed.

Lemma chain_to_index_builtin h : 0 <= h < NF_INET_NUMHOOKS -> chain_to_index (builtin_chain h) = h.
Proof. intros Hh. by apply (hook_cases (fun h => chain_to_index (builtin_chain h) = h)). Qed.

Lemma managed_index h : 0 <= h < NF_INET_NUMHOOKS -> managed_chain_to_index (managed_chain h) = h.
Proof. intros Hh. by apply (hook_cases (fun h => managed_chain_to_index (managed_chain h) = h)). Qed.

Lemma managed_not_builtin h : 0 <= h < NF_INET_NUMHOOKS -> is_builtin_target (managed_chain h) = false.
Proof. intros Hh. by apply (hook_cases (fun h => is_builtin_target (managed_chain h) = false)). Qed.

Lemma managed_fresh a h : 0 <= h < NF_INET_NUMHOOKS -> (managed_chain h ∉ map c_name (a_chains a)) -> fresh_name a (managed_chain h).
Proof.
  intros Hh Hn.
  assert (Hx : managed_chain h <> XT_ERROR_TARGET /\ (managed_chain h ∉ hooknames) /\ Forall (fun b => 0 < b < 256) (managed_chain h) /\ (length (managed_chain h) < 32)%nat).
  { clear Hn. revert h Hh. intros h Hh. pattern h. apply hook_cases; [done|..]; by apply (bool_decide_unpack _). }
  destruct Hx as (H1 & H2 & H3 & H4). split; [|done..]. by apply not_elem_of_cons.
Qed.

Lemma hook_chain a c1 c c2 : table_ok a -> a_chains a = c1 ++ c :: c2 -> 0 <= c_hook c ->
  c_hook c < NF_INET_NUMHOOKS /\ c_name c = builtin_chain (c_hook c).
Proof.
  intros Ha E Hh. destruct (ok_kind _ (chain_at a c1 c c2 Ha E)) as [(_ & _ & Hn)|(? & _)]; [|lia].
  split; [by apply (hook_range _ _ Hh Hn)|]. unfold builtin_chain. by rewrite builtin_chains_hooknames, Hn.
Qed.

(** ** The tables a rule leads to *)

Definition jump_rule (name : list Z) : rule := mk_rule (zeros AF_INET) [] (To_chain name).
Definition jump_item (name : list Z) : item := rule_item AF_INET (jump_rule name).

(** The chain of ConnMan's own, with its rules. *)
Definition own_chain (h : Z) (rs : list item) : chain := set_rules rs (user_chain AF_INET (managed_chain h)).

(** The hook jumps to a new chain behind all others. *)
Definition enabled_table (a : atable) (c1 : list chain) (c : chain) (c2 : list chain) (rs : list item) : atable :=
  mk_atable (c1 ++ set_rules (jump_item (managed_chain (c_hook c)) :: c_rules c) c :: c2 ++ [own_chain (c_hook c) rs]) (a_final a).

Definition jump_size : Z := 152.

(** A rule of an extension for a chain of the kernel that has no chain of ConnMan's own yet, and what libxtables
    makes of its text and of that of the jump. *)
Record new_hook_rule `{!Xtables} (a : atable) (c1 : list chain) (c : chain) (c2 : list chain) (text : list Z) (r : rule) : Prop := {
  nr_table : table_ok a;
  nr_closed : closed (a_chains a);
  nr_chain : a_chains a = c1 ++ c :: c2;
  nr_hook : 0 <= c_hook c;
  nr_new : managed_chain (c_hook c) ∉ map c_name (a_chains a);
  nr_matches : 0 <= matches_size (r_matches r);
  nr_size : rule_size AF_INET r < 2 ^ 16;
  nr_room : flat_size (flat a) + chain_size AF_INET + 2 * (jump_size + rule_size AF_INET r) < 2 ^ 31;
  nr_find : findable r;
  nr_text : exists sp name x, parse_text AF_INET text = inr sp /\ s_ip sp = r_ip r /\ s_matches sp = r_matches r /\
    r_to r = To_extension x /\ s_extension sp = Some x /\ s_jump sp = Some name /\ is_builtin_target name = false /\
    (name ∉ XT_ERROR_TARGET :: managed_chain (c_hook c) :: map c_name (a_chains a)) /\
    t_name x <> XT_STANDARD_TARGET /\ t_name x <> XT_ERROR_TARGET;
  nr_jump : exists sp, parse_text AF_INET (jump_to (managed_chain (c_hook c))) = inr sp /\ s_ip sp = zeros AF_INET /\ s_matches sp = [] /\
    s_jump sp = Some (managed_chain (c_hook c));
}.

Section managed.
Context {K : Type} {HK : Kernel K} {HL : KernelLaws K} {HX : Xtables}.
Context (n : list Z) (a : atable) (c1 : list chain) (c : chain) (c2 : list chain) (text : list Z) (r : rule).
Hypothesis Hr : new_hook_rule a c1 c c2 text r.

Abbreviation h := (c_hook c).
Abbreviation own := (managed_chain h).

Lemma hook_range' : 0 <= h < NF_INET_NUMHOOKS.
Proof. destruct (hook_chain a c1 c c2 (nr_table _ _ _ _ _ _ Hr) (nr_chain _ _ _ _ _ _ Hr) (nr_hook _ _ _ _ _ _ Hr)) as [? _]. pose proof (nr_hook _ _ _ _ _ _ Hr). lia. Qed.

Lemma hook_name : c_name c = builtin_chain h.
Proof. by apply (hook_chain a c1 c c2 (nr_table _ _ _ _ _ _ Hr) (nr_chain _ _ _ _ _ _ Hr) (nr_hook _ _ _ _ _ _ Hr)). Qed.

Lemma rule_size_pos : 0 < rule_size AF_INET r.
Proof.
  destruct Hr as [_ _ _ _ _ Hm _ _ Hf (sp & name & x & _ & _ & _ & Hto & _) _]. unfold rule_size. pose proof (find_target _ Hf x Hto) as Hx.
  rewrite Hto. cbn in *. unfold standard_target_size in Hx. lia.
Qed.

Lemma jump_rule_ok a' : a_chains a' = a_chains a ++ [own_chain h []] -> flat_size (flat a') + jump_size < 2 ^ 31 -> rule_ok AF_INET a' (jump_rule own).
Proof.
  intros E Hs. split; [done|done|done|]. cbn. exists (own_chain h []). split; [rewrite E; apply elem_of_app; right; constructor|done].
Qed.

Lemma jump_means a' sp : s_ip sp = zeros AF_INET -> s_matches sp = [] -> s_jump sp = Some own -> means sp a' (jump_rule own).
Proof. intros H1 H2 H3. split; [done|done|]. cbn. split; [done|]. apply managed_not_builtin, hook_range'. Qed.

Lemma size_add_chain : flat_size (flat (add_chain a (user_chain AF_INET own))) = flat_size (flat a) + chain_size AF_INET.
Proof. rewrite flat_add_chain. unfold flat. fold (flats (a_chains a)). rewrite !flat_size_app. cbn [flat_size].
  change (item_size (head_item AF_INET own)) with 176. change (item_size (return_item AF_INET)) with 152. change (chain_size AF_INET) with 328. lia. Qed.

Lemma chains_added : a_chains (add_chain a (user_chain AF_INET own)) = c1 ++ c :: c2 ++ [own_chain h []].
Proof. cbn. by rewrite (nr_chain _ _ _ _ _ _ Hr), <- app_assoc. Qed.

(** The chain and the jump to it are made. *)
Lemma insert_managed_chain_run (w : fw K) :
  holds (fw_nf w) AF_INET n a ->
  exists s', insert_managed_chain n h w = Some (0, with_nf s' w, []) /\ holds s' AF_INET n (enabled_table a c1 c c2 []) /\
    others (fw_nf w) s' AF_INET n.
Proof.
  intros Hh. destruct Hr as [_ _ _ _ Hnew _ _ Hroom _ _ (sp & Hp & P1 & P2 & P3)].
  pose proof rule_size_pos.
  destruct (new_chain_run (fw_nf w) AF_INET n a own Hh (managed_fresh a h hook_range' Hnew)) as (s1 & E1 & H1 & _ & O1); [unfold jump_size in *; lia|].
  assert (Hjok : rule_ok AF_INET (add_chain a (user_chain AF_INET own)) (jump_rule own)).
  { apply jump_rule_ok; [done|]. rewrite size_add_chain. unfold jump_size in *; lia. }
  destruct (added_run s1 AF_INET n (jump_to own) _ c1 c (c2 ++ [own_chain h []]) (jump_rule own) sp H1 chains_added Hjok Hp (jump_means _ _ P1 P2 P3) true)
    as (s2 & E2 & H2 & _ & O2).
  exists s2. split; [|split; [exact H2|by apply (others_trans _ s1)]].
  unfold insert_managed_chain. apply (bind_next _ _ _ 0 (with_nf s1 w)); [unfold call; by rewrite E1|]. cbn [Z.ltb Z.compare].
  rewrite hook_name in E2. apply (bind_next _ _ _ 0 (with_nf s2 w)); [unfold call; cbn [fw_nf with_nf]; by rewrite E2|]. done.
Qed.
Lemma enabled_chains rs : a_chains (enabled_table a c1 c c2 rs) = (c1 ++ set_rules (jump_item own :: c_rules c) c :: c2) ++ own_chain h rs :: [].
Proof. cbn. by rewrite <- app_assoc. Qed.

Lemma size_enabled rs : flat_size (flat (enabled_table a c1 c c2 rs)) = flat_size (flat a) + chain_size AF_INET + jump_size + items_size rs.
Proof.
  rewrite (flat_split _ _ _ _ (nr_chain _ _ _ _ _ _ Hr)).
  rewrite (flat_split (enabled_table a c1 c c2 rs) c1 (set_rules (jump_item own :: c_rules c) c) (c2 ++ [own_chain h rs]) eq_refl).
  rewrite flats_app, !flat_size_app, !flat_size_chain. cbn [flats map concat]. rewrite app_nil_r, flat_size_chain.
  cbn [c_head c_rules c_foot set_rules own_chain user_chain items_size flat_size a_final enabled_table].
  change (item_size (head_item AF_INET own)) with 176. change (item_size (return_item AF_INET)) with 152. change (chain_size AF_INET) with 328.
  change (item_size (jump_item own)) with 152. unfold jump_size. lia.
Qed.

Lemma rule_in_own rs : items_size rs <= rule_size AF_INET r -> rule_ok AF_INET (enabled_table a c1 c c2 rs) r.
Proof.
  intros Hrs. pose proof rule_size_pos. unfold jump_size in *.
  destruct Hr as [_ _ _ _ _ Hm Hs Hroom Hf (sp & name & x & _ & _ & _ & Hto & _ & _ & _ & _ & X1 & X2) _].
  split; [done|done|rewrite size_enabled; unfold jump_size in *; lia|]. rewrite Hto. split; [done|]. split; [done|].
  pose proof (find_target _ Hf x Hto) as Hx. unfold standard_target_size in Hx. lia.
Qed.

Lemma rule_means rs : exists sp, parse_text AF_INET text = inr sp /\ means sp (enabled_table a c1 c c2 rs) r.
Proof.
  destruct Hr as [_ _ Ea _ _ _ _ _ _ (sp & name & x & Hp & M1 & M2 & Hto & Hx & Hj & Hb & Hn & _) _]. exists sp. split; [done|].
  split; [done|done|]. rewrite Hto. split; [done|]. exists name. split; [done|]. split; [done|].
  assert (Hnames : map c_name (a_chains (enabled_table a c1 c c2 rs)) = map c_name (a_chains a) ++ [own]).
  { rewrite enabled_chains, Ea, !map_app. done. }
  rewrite Hnames. apply not_elem_of_cons in Hn as [N1 Hn]. apply not_elem_of_cons in Hn as [N2 N3]. apply not_elem_of_cons. split; [done|].
  apply not_elem_of_app. split; [done|]. by rewrite list_elem_of_singleton.
Qed.

(** How often the chain of a hook is used. *)
Definition count_of (l : list connman_managed_table) : Z := match find_managed n l with Some m => chain_count h m | None => 0 end.

Definition managed_ok (l : list connman_managed_table) : Prop := Forall (fun m => length (chains m) = 5%nat) l.

Lemma find_from_shift {A} (p : A -> bool) i l : find_from p (S i) l = S <$> find_from p i l.
Proof. revert i. induction l as [|x l IH]; intros i; cbn; [done|]. destruct (p x); [done|]. apply IH. Qed.

Lemma find_managed_cons m l : find_managed n (m :: l) = if bytes_eqb (mt_name m) n then Some m else find_managed n l.
Proof.
  unfold find_managed. cbn. destruct (bytes_eqb (mt_name m) n); [done|]. rewrite find_from_shift. by destruct (find_from _ 0 l).
Qed.

Lemma find_update v l m : find_managed n l = Some m -> find_managed n (update_managed n (set_count h v) l) = Some (set_count h v m).
Proof.
  induction l as [|m' l IH]; [done|]. rewrite find_managed_cons. cbn [update_managed]. destruct (bytes_eqb (mt_name m') n) eqn:E; intros Hm.
  - simplify_eq. rewrite find_managed_cons. cbn. by rewrite E.
  - rewrite find_managed_cons, E. by apply IH.
Qed.

Lemma managed_ok_update v l : managed_ok l -> managed_ok (update_managed n (set_count h v) l).
Proof.
  intros H. induction H as [|m l Hm Hl IH]; [constructor|]. cbn. destruct (bytes_eqb _ _); [|by constructor].
  constructor; [|done]. cbn. by rewrite length_insert.
Qed.

Lemma managed_found l m : managed_ok l -> find_managed n l = Some m -> length (chains m) = 5%nat.
Proof.
  unfold find_managed. intros H E. destruct (find_from _ 0 l) as [i|]; [|done]. cbn in E. apply list_elem_of_lookup_2 in E.
  unfold managed_ok in H. rewrite list.Forall_forall in H. by apply H.
Qed.

Lemma count_set v m : length (chains m) = 5%nat -> chain_count h (set_count h v m) = v.
Proof.
  intros Hl. pose proof hook_range' as Hh. unfold NF_INET_NUMHOOKS in Hh. unfold chain_count, set_count. cbn.
  rewrite nth_lookup, list_lookup_insert_eq by lia. done.
Qed.

Lemma find_or_add_run (w : fw K) : managed_ok (managed_tables w) ->
  exists m l, find_or_add_managed n w = Some (m, with_managed l w, []) /\ find_managed n l = Some m /\ managed_ok l /\
    chain_count h m = count_of (managed_tables w).
Proof.
  intros Hl. unfold find_or_add_managed, count_of, mbind, pprog_bind, pget. destruct (find_managed n (managed_tables w)) as [m|] eqn:E.
  - exists m, (managed_tables w). by destruct w.
  - eexists _, (_ :: managed_tables w). split; [reflexivity|]. split; [|split].
    + rewrite find_managed_cons. cbn. by rewrite bytes_eqb_refl.
    + by constructor.
    + unfold chain_count. cbn. by destruct (Z.to_nat h) as [|[|[|[|[|[|]]]]]].
Qed.

(** What a state of the firewall keeps beside the tables. *)
Definition same_marks (w w' : fw K) : Prop := connmark_ctx w' = connmark_ctx w /\ connmark_ref w' = connmark_ref w.

Lemma insert_managed_rule_run (w : fw K) :
  holds (fw_nf w) AF_INET n a -> managed_ok (managed_tables w) -> count_of (managed_tables w) = 0 ->
  exists w', insert_managed_rule n (c_name c) text w = Some (0, w', []) /\
    holds (fw_nf w') AF_INET n (enabled_table a c1 c c2 [rule_item AF_INET r]) /\ loaded (fw_nf w') AF_INET n /\
    managed_ok (managed_tables w') /\ count_of (managed_tables w') = 1 /\ others (fw_nf w) (fw_nf w') AF_INET n /\ same_marks w w'.
Proof.
  intros Hh Hl H0. destruct (find_or_add_run w Hl) as (m & l & Em & Ef & Hl' & Hc). rewrite H0 in Hc.
  destruct (insert_managed_chain_run (with_managed l w) Hh) as (s1 & E1 & H1 & O1).
  destruct (rule_means []) as (sp & Hp & Hm).
  destruct (added_run s1 AF_INET n text _ _ (own_chain h []) [] r sp H1 (enabled_chains []) (rule_in_own [] ltac:(pose proof rule_size_pos; cbn; lia)) Hp Hm false) as (s2 & E2 & H2 & L2 & O2).
  set (l' := update_managed n (set_count h (u32 (chain_count h m + 1))) l).
  exists (mk_fw s2 l' (connmark_ctx w) (connmark_ref w)). cbn [fw_nf managed_tables]. split.
  - unfold insert_managed_rule. rewrite hook_name, chain_to_index_builtin by apply hook_range'.
    pose proof (nr_hook _ _ _ _ _ _ Hr). rewrite (proj2 (Z.ltb_ge h 0)) by done.
    apply (bind_next _ _ _ m (with_managed l w)); [done|]. rewrite Hc. cbn [Z.eqb].
    apply (bind_next _ _ _ 0 (with_nf s1 (with_managed l w))); [done|]. cbn [Z.ltb Z.compare].
    apply (bind_next _ _ _ tt (mk_fw s1 l' (connmark_ctx w) (connmark_ref w))); [unfold l'; by rewrite Hc|].
    unfold call. cbn [fw_nf]. change (CHAIN_PREFIX ++ builtin_chain h) with own. change own with (c_name (own_chain h [])). by rewrite E2.
  - split; [|split; [done|split; [by apply managed_ok_update|split; [|split; [by apply (others_trans _ s1)|done]]]]].
    + assert (Eq : enabled_table a c1 c c2 [rule_item AF_INET r] =
        set_chain (enabled_table a c1 c c2 []) (c1 ++ set_rules (jump_item own :: c_rules c) c :: c2) (own_chain h []) [] (c_rules (own_chain h []) ++ [rule_item AF_INET r])).
      { unfold enabled_table, set_chain. cbn. by rewrite <- app_assoc. }
      by rewrite Eq.
    + unfold count_of, l'. rewrite (find_update _ l m Ef), count_set by (by apply (managed_found l)). rewrite Hc. done.
Qed.

(** Taking the rule away takes the chain and the jump away. *)
Lemma delete_managed_rule_run (w : fw K) :
  holds (fw_nf w) AF_INET n (enabled_table a c1 c c2 [rule_item AF_INET r]) -> managed_ok (managed_tables w) -> count_of (managed_tables w) = 1 ->
  exists w', delete_managed_rule n (c_name c) text w = Some (0, w', []) /\ holds (fw_nf w') AF_INET n a /\ loaded (fw_nf w') AF_INET n /\
    managed_ok (managed_tables w') /\ count_of (managed_tables w') = 0 /\ others (fw_nf w) (fw_nf w') AF_INET n /\ same_marks w w'.
Proof.
  intros Hh Hl H1. destruct (rule_means [rule_item AF_INET r]) as (sp & Hp & Hm).
  assert (Hrok : rule_ok AF_INET (enabled_table a c1 c c2 [rule_item AF_INET r]) r) by (apply rule_in_own; cbn; unfold item_size; cbn; lia).
  destruct (deleted_run (fw_nf w) AF_INET n text _ _ (own_chain h [rule_item AF_INET r]) [] r sp Hh (enabled_chains _) Hrok Hp Hm [] (rule_item AF_INET r) []
    (nr_find _ _ _ _ _ _ Hr) eq_refl eq_refl ltac:(constructor)) as (s1 & E1 & K1 & _ & O1).
  assert (Eq1 : set_chain (enabled_table a c1 c c2 [rule_item AF_INET r]) (c1 ++ set_rules (jump_item own :: c_rules c) c :: c2)
    (own_chain h [rule_item AF_INET r]) [] ([] ++ []) = enabled_table a c1 c c2 []) by (unfold enabled_table, set_chain; cbn; by rewrite <- app_assoc).
  rewrite Eq1 in K1. pose proof rule_size_pos as Hpos. pose proof (size_enabled []) as Hsz. destruct Hr as [Ha Hcl Ea Hhk _ _ _ Hroom _ _ (spj & Hpj & P1 & P2 & P3)].
  set (c' := set_rules (jump_item own :: c_rules c) c).
  assert (Hjok : rule_ok AF_INET (enabled_table a c1 c c2 []) (jump_rule own)).
  { split; [done|done| |].
    - rewrite Hsz. unfold jump_size in *. change (rule_size AF_INET (jump_rule own)) with 152. cbn [items_size]. lia.
    - cbn. exists (own_chain h []). split; [apply elem_of_app; right; right; apply elem_of_app; right; constructor|done]. }
  destruct (deleted_run s1 AF_INET n (jump_to own) (enabled_table a c1 c c2 []) c1 c' (c2 ++ [own_chain h []]) (jump_rule own) spj K1 eq_refl Hjok Hpj
    (jump_means _ _ P1 P2 P3) [] (jump_item own) (c_rules c)) as (s2 & E2 & K2 & _ & O2); [by split; [left| |]|done|done|constructor|].
  assert (Eq2 : set_chain (enabled_table a c1 c c2 []) c1 c' (c2 ++ [own_chain h []]) ([] ++ c_rules c) = mk_atable (a_chains a ++ [own_chain h []]) (a_final a)).
  { unfold enabled_table, set_chain, c'. cbn. rewrite Ea, <- app_assoc. cbn. by destruct c. }
  rewrite Eq2 in K2. destruct (delete_chain_run s2 AF_INET n (a_chains a) (own_chain h []) (a_final a) K2 Hcl) as (s3 & E3 & K3 & L3 & O3); [done|done|].
  replace (mk_atable (a_chains a) (a_final a)) with a in K3 by (by destruct a).
  unfold count_of in H1. destruct (find_managed n (managed_tables w)) as [m|] eqn:Ef; [|done].
  set (l' := update_managed n (set_count h (u32 (chain_count h m - 1))) (managed_tables w)).
  exists (mk_fw s3 l' (connmark_ctx w) (connmark_ref w)). cbn [fw_nf managed_tables]. split.
  - unfold delete_managed_rule. rewrite hook_name, chain_to_index_builtin by apply hook_range'. rewrite (proj2 (Z.ltb_ge h 0)) by done.
    apply (bind_next _ _ _ 0 (with_nf s1 w)).
    { unfold call. change (CHAIN_PREFIX ++ builtin_chain h) with (c_name (own_chain h [rule_item AF_INET r])). by rewrite E1. }
    apply (bind_next _ _ _ (managed_tables w) (with_nf s1 w)); [done|]. rewrite Ef.
    apply (bind_next _ _ _ tt (mk_fw s1 l' (connmark_ctx w) (connmark_ref w))); [done|]. rewrite H1. change (0 <? u32 (1 - 1)) with false. cbv iota.
    unfold delete_managed_chain. apply (bind_next _ _ _ 0 (mk_fw s2 l' (connmark_ctx w) (connmark_ref w))).
    { unfold call. cbn [fw_nf]. change (c_name c') with (c_name c) in E2. rewrite hook_name in E2. by rewrite E2. }
    cbn [Z.ltb Z.compare]. unfold call. cbn [fw_nf]. change own with (c_name (own_chain h [])). by rewrite E3.
  - split; [done|]. split; [done|]. split; [by apply managed_ok_update|]. split; [|split; [|done]].
    + unfold count_of, l'. rewrite (find_update _ _ m Ef), count_set by (by apply (managed_found (managed_tables w))). by rewrite H1.
    + apply (others_trans _ s1); [done|]. by apply (others_trans _ s2).
Qed.
(** ** Enabling and disabling a rule *)

Abbreviation the_rule b := (mk_fw_rule b n (c_name c) text).

Lemma enable_rule_run (w : fw K) :
  holds (fw_nf w) AF_INET n a -> managed_ok (managed_tables w) -> count_of (managed_tables w) = 0 ->
  (forall i, shows i (enabled_table a c1 c c2 [rule_item AF_INET r]) -> accepted i) ->
  exists w', enable_rule (the_rule false) w = Some (0, the_rule true, w', []) /\
    settled (fw_nf w') AF_INET n (enabled_table a c1 c c2 [rule_item AF_INET r]) /\
    managed_ok (managed_tables w') /\ count_of (managed_tables w') = 1 /\ others (fw_nf w) (fw_nf w') AF_INET n /\ same_marks w w'.
Proof.
  intros Hh Hl H0 Hacc. destruct (insert_managed_rule_run w Hh Hl H0) as (w1 & E1 & K1 & L1 & M1 & C1 & O1 & S1).
  destruct (commit_run (fw_nf w1) AF_INET n _ K1 L1 Hacc) as (s2 & E2 & K2 & O2). exists (with_nf s2 w1). split.
  - unfold enable_rule. cbn [enabled fr_table fr_chain rule_spec]. apply (bind_next _ _ _ 0 w1); [done|]. cbn [Z.ltb Z.compare].
    apply (bind_next _ _ _ 0 (with_nf s2 w1)); [unfold call; by rewrite E2|done].
  - split; [done|]. split; [done|]. split; [done|]. split; [by apply (others_trans _ (fw_nf w1))|done].
Qed.

Lemma disable_rule_run (w : fw K) :
  holds (fw_nf w) AF_INET n (enabled_table a c1 c c2 [rule_item AF_INET r]) -> managed_ok (managed_tables w) -> count_of (managed_tables w) = 1 ->
  (forall i, shows i a -> accepted i) ->
  exists w', disable_rule (the_rule true) w = Some (0, the_rule false, w', []) /\ settled (fw_nf w') AF_INET n a /\
    managed_ok (managed_tables w') /\ count_of (managed_tables w') = 0 /\ others (fw_nf w) (fw_nf w') AF_INET n /\ same_marks w w'.
Proof.
  intros Hh Hl H1 Hacc. destruct (delete_managed_rule_run w Hh Hl H1) as (w1 & E1 & K1 & L1 & M1 & C1 & O1 & S1).
  destruct (commit_run (fw_nf w1) AF_INET n _ K1 L1 Hacc) as (s2 & E2 & K2 & O2). exists (with_nf s2 w1). split.
  - unfold disable_rule. cbn [enabled fr_table fr_chain rule_spec negb]. apply (bind_next _ _ _ 0 w1); [done|]. cbn [Z.ltb Z.compare].
    apply (bind_next _ _ _ 0 (with_nf s2 w1)); [unfold call; by rewrite E2|done].
  - split; [done|]. split; [done|]. split; [done|]. split; [by apply (others_trans _ (fw_nf w1))|done].
Qed.

End managed.

Lemma settled_same {K} {HK : Kernel K} (s s' : nf K) f n a : settled s f n a -> settled s' f n a ->
  i_entries <$> get_info (kernel s') f n = i_entries <$> get_info (kernel s) f n.
Proof.
  intros (_ & _ & i & E & Hi) (_ & _ & i' & E' & Hi'). rewrite E, E'. cbn. by rewrite (sh_entries _ _ Hi), (sh_entries _ _ Hi').
Qed.

Definition nat_table : list Z := txt "nat".

(** C9: Address translation reaches the kernel and goes away again: if the kernel accepts the tables, enabling it
    leaves the kernel with its table, a new chain that holds the rule behind all others, and a jump to it in front of
    the rules of POSTROUTING; disabling it then leaves the entries the kernel had at first, no other table
    is touched, and the chain is counted as unused. *)
Theorem nat_roundtrip {K : Type} {HK : Kernel K} {HL : KernelLaws K} {HX : Xtables} (w : fw K) a c1 c c2 r address prefixlen interface :
  settled (fw_nf w) AF_INET nat_table a ->
  new_hook_rule a c1 c c2 (nat_rule address prefixlen interface) r -> c_hook c = 4 ->
  managed_ok (managed_tables w) -> count_of nat_table c (managed_tables w) = 0 ->
  (forall i, shows i a \/ shows i (enabled_table a c1 c c2 [rule_item AF_INET r]) -> accepted i) ->
  let ctx := [mk_fw_rule true nat_table (txt "POSTROUTING") (nat_rule address prefixlen interface)] in
  exists w1 w2, connman_firewall_enable_nat [] address prefixlen interface w = Some ((0, ctx), w1, []) /\
    settled (fw_nf w1) AF_INET nat_table (enabled_table a c1 c c2 [rule_item AF_INET r]) /\
    connman_firewall_disable_nat ctx w1 = Some ((0, []), w2, []) /\
    settled (fw_nf w2) AF_INET nat_table a /\
    i_entries <$> get_info (kernel (fw_nf w2)) AF_INET nat_table = i_entries <$> get_info (kernel (fw_nf w)) AF_INET nat_table /\
    others (fw_nf w) (fw_nf w2) AF_INET nat_table /\ count_of nat_table c (managed_tables w2) = 0.
Proof.
  intros Hw Hr Hc Hl H0 Hacc ctx. pose proof (hook_name a c1 c c2 _ r Hr) as Hn. rewrite Hc in Hn. change (builtin_chain 4) with (txt "POSTROUTING") in Hn.
  destruct (enable_rule_run nat_table a c1 c c2 _ r Hr w) as (w1 & E1 & K1 & M1 & C1 & O1 & _); [by apply settled_holds|done|done|auto|].
  destruct (disable_rule_run nat_table a c1 c c2 _ r Hr w1) as (w2 & E2 & K2 & M2 & C2 & O2 & _); [by apply settled_holds|done|done|auto|].
  rewrite Hn in E1, E2. exists w1, w2. split; [|split; [done|split; [|split; [done|split; [by apply (settled_same _ _ _ _ a)|split; [by apply (others_trans _ (fw_nf w1))|done]]]]]].
  - unfold connman_firewall_enable_nat, firewall_add_rule, firewall_enable_rules. cbn [app enable_from].
    apply (bind_next _ _ _ (0, ctx) w1); [|done]. apply (bind_next _ _ _ (0, mk_fw_rule true nat_table (txt "POSTROUTING") (nat_rule address prefixlen interface)) w1); [exact E1|done].
  - unfold connman_firewall_disable_nat, firewall_disable_rules, ctx. cbn [rev app disable_from].
    eapply (bind_next _ _ _ (0, _) w2); [|done].
    eapply (bind_next _ _ _ (0, [_]) w2); [|done].
    eapply (bind_next _ _ _ (0, _) w2); [exact E2|done].
Qed.

(** ** An example: a kernel that keeps what it is given *)

(** The answers to come to requests for a new table, none meaning that all are accepted, and the tables. *)
Record demo_kernel := mk_demo { answers : list Z; shown : gmap (family * list Z) ipt_info }.

#[local] Instance demo_kernel_ops : Kernel demo_kernel := {
  get_info k f n := shown k !! (f, n);
  set_replace k f n r :=
    match answers k with
    | err :: l => if err <? 0 then (err, [], mk_demo l (shown k))
                  else (0, replicate (Z.to_nat (r_num_counters r)) (0, 0), mk_demo l (<[(f, n) := info_of r]> (shown k)))
    | [] => (0, replicate (Z.to_nat (r_num_counters r)) (0, 0), mk_demo [] (<[(f, n) := info_of r]> (shown k)))
    end;
  set_add_counters k f n cs := (0, k);
}.

(** A kernel that accepts everything. *)
Record willing_kernel := mk_willing { held : gmap (family * list Z) ipt_info }.

#[local] Instance willing_ops : Kernel willing_kernel := {
  get_info k f n := held k !! (f, n);
  set_replace k f n r := (0, replicate (Z.to_nat (r_num_counters r)) (0, 0), mk_willing (<[(f, n) := info_of r]> (held k)));
  set_add_counters k f n cs := (0, k);
}.

Definition masquerade : xt_entry_target := mk_target 56 (txt "MASQUERADE") 0 (replicate 24 0).
Definition mark_target : xt_entry_target := mk_target 48 (txt "MARK") 0 (replicate 16 0).

(** The rules of an address have its bytes in front. *)
#[local] Instance demo_xtables : Xtables := {
  parse_text f text :=
    if bytes_eqb text (txt "-j CONNMARK --restore-mark") || bytes_eqb text (txt "-j CONNMARK --save-mark")
    then inr (mk_spec (zeros AF_INET) [] (Some (txt "CONNMARK")) (Some mark_target))
    else if prefix_of (txt "-j ") text then inr (mk_spec (zeros AF_INET) [] (Some (drop 3 text)) None)
    else if prefix_of (txt "-s 10.") text then inr (mk_spec (10 :: drop 1 (zeros AF_INET)) [] (Some (txt "MASQUERADE")) (Some masquerade))
    else if prefix_of (txt "-m ") text then inr (mk_spec (zeros AF_INET) [] (Some (txt "MARK")) (Some mark_target))
    else inl (- EINVAL);
}.

Definition hook_chain_of (h : Z) : chain := mk_chain h (builtin_chain h) [] [] (demo_verdict (-2) (-1)).
Definition table_of (hs : list Z) : atable := mk_atable (map hook_chain_of hs) (demo_head XT_ERROR_TARGET (-1)).

Definition offsets_of (hs : list Z) : list Z :=
  map (fun h => match find_from (Z.eqb h) 0 hs with Some i => 152 * Z.of_nat i | None => 0 end) [0; 1; 2; 3; 4].

Definition demo_info (hs : list Z) : ipt_info :=
  mk_info (mask hs) (Z.of_nat (length hs) + 1) (flat_size (flat (table_of hs))) (offsets_of hs) (offsets_of hs) (map entry (encode (flat (table_of hs)))).

Definition nat_hooks : list Z := [0; 1; 3; 4].

Definition demo_tables : gmap (family * list Z) ipt_info :=
  {[ (AF_INET, nat_table) := demo_info nat_hooks; (AF_INET, txt "mangle") := demo_info [0; 1; 2; 3; 4] ]}.

Definition fresh_fw {K} (k : K) : fw K := mk_fw (mk_nf k ∅) [] None 0.

#[local] Instance willing_laws : KernelLaws willing_kernel.
Proof.
  refine {| accepted i := True |}; try done.
  - intros k f n r _. cbn. apply lookup_insert_eq.
  - intros k f n r Hn _. cbn. rewrite length_replicate. lia.
  - intros k f n r f' n' Hne. cbn. by rewrite lookup_insert_ne.
Defined.

Definition nat_table_of : atable := table_of nat_hooks.

Lemma nat_table_ok : table_ok nat_table_of.
Proof.
  split.
  - split; [|by vm_compute]. cbn. repeat (apply Forall_cons_2; [first [by apply demo_item_ok | apply demo_head_ok]|]). constructor.
  - repeat (apply Forall_cons_2; [split; [by left|by repeat constructor|done]|]). constructor.
  - by apply (bool_decide_unpack _).
  - done.
  - intros d1 d d2 E Hd. cbn in E. destruct d1 as [|? [|? [|? [|? d1]]]]; cbn in E; simplify_eq; [done..|]. by destruct d1.
Qed.

Lemma nat_table_shown : shows (demo_info nat_hooks) nat_table_of.
Proof.
  split; [done|done|done|done| |].
  - by repeat (constructor; [|by repeat constructor]); constructor.
  - intros d1 d d2 E Hd. cbn in E. destruct d1 as [|? [|? [|? [|? d1]]]]; cbn in E; simplify_eq; [by vm_compute..|]. by destruct d1.
Qed.

Definition nat_address : list Z := txt "10.0.0.0".
Definition nat_text : list Z := nat_rule nat_address 24 (txt "eth0").
Definition masquerade_rule : rule := mk_rule (10 :: drop 1 (zeros AF_INET)) [] (To_extension masquerade).

Lemma nat_rule_new : new_hook_rule nat_table_of (map hook_chain_of [0; 1; 3]) (hook_chain_of 4) [] nat_text masquerade_rule.
Proof.
  split; [apply nat_table_ok|by repeat constructor|done|done|by apply (bool_decide_unpack _)|done|by vm_compute|by vm_compute| | |].
  - split; [by left| |done]. intros t [= <-]. by vm_compute.
  - eexists _, _, masquerade. do 6 (split; [by vm_compute|]). split; [by vm_compute|]. split; [by apply (bool_decide_unpack _)|done].
  - eexists. by vm_compute.
Qed.

Lemma nat_roundtrip_witness :
  let w := fresh_fw (mk_willing demo_tables) in
  exists w1 w2 ctx, connman_firewall_enable_nat [] nat_address 24 (txt "eth0") w = Some ((0, ctx), w1, []) /\
    connman_firewall_disable_nat ctx w1 = Some ((0, []), w2, []) /\
    i_entries <$> get_info (kernel (fw_nf w2)) AF_INET nat_table = Some (i_entries (demo_info nat_hooks)).
Proof.
  intros w. destruct (nat_roundtrip w nat_table_of (map hook_chain_of [0; 1; 3]) (hook_chain_of 4) [] masquerade_rule nat_address 24 (txt "eth0"))
    as (w1 & w2 & E1 & _ & E2 & _ & E3 & _).
  - split; [apply nat_table_ok|]. split; [done|]. exists (demo_info nat_hooks). split; [by vm_compute|apply nat_table_shown].
  - apply nat_rule_new.
  - reflexivity.
  - constructor.
  - reflexivity.
  - done.
  - eexists w1, w2, _. split; [exact E1|]. split; [exact E2|]. rewrite E3. by vm_compute.
Defined.

(** ** What the code gets wrong *)

Definition demo_fw (l : list Z) : fw demo_kernel := fresh_fw (mk_demo l demo_tables).

Definition table_in (n : list Z) (w : fw demo_kernel) : option ipt_info := get_info (kernel (fw_nf w)) AF_INET n.

(** The targets of the jumps of a table, and its size. *)
Definition jumps_of (i : ipt_info) : list Z * Z :=
  (filter (fun v => 0 < v) (map (fun e => t_verdict (target e)) (i_entries i)), i_size i).

(** Marks of a session use chains of INPUT, POSTROUTING and OUTPUT, made in this order.  When they are disabled, the
    chain of POSTROUTING goes first and the jump from OUTPUT is not moved with the chain it leads to: the kernel is
    handed a table with a jump out of it. *)
Lemma marks_leave_bad_jump :
  exists ctx w1 w2, connman_firewall_enable_marking [] ID_TYPE_UID (txt "500") None 1 (demo_fw []) = Some ((0, ctx), w1, []) /\
    jumps_of <$> table_in (txt "mangle") w1 = Some ([1392; 2368; 1880], 2856) /\
    firewall_disable_connmark w1 = Some (tt, w2, []) /\
    jumps_of <$> table_in (txt "mangle") w2 = Some ([1744], 1576).
Proof. do 3 eexists. do 3 (split; [by vm_compute|]). by vm_compute. Qed.

(** The rule is refused after the chain was counted: the count stays, and with it the chain and the jump. *)
Lemma refused_rule_counts :
  exists w1, connman_firewall_enable_nat [] (txt "fe80::1") 24 (txt "eth0") (demo_fw []) = Some ((- EINVAL, []), w1, []) /\
    managed_tables w1 = [mk_managed nat_table [0; 0; 0; 0; 1]].
Proof. eexists. split; by vm_compute. Qed.

Definition rules_in (w : fw demo_kernel) : option Z := (fun i => Z.of_nat (length (i_entries i))) <$> table_in nat_table w.

(** The kernel refuses the table: the rule is not enabled but stays in memory, and is handed over with the
    next table.  Nobody owns it then: when the second rule is disabled, the first is still there. *)
Lemma refused_table_lingers :
  exists w1 ctx w2 w3, connman_firewall_enable_nat [] nat_address 24 (txt "eth0") (demo_fw [- EINVAL]) = Some ((- EINVAL, []), w1, []) /\
    rules_in w1 = Some 5 /\
    connman_firewall_enable_nat [] (txt "10.1.0.0") 24 (txt "eth0") w1 = Some ((0, ctx), w2, []) /\ rules_in w2 = Some 10 /\
    connman_firewall_disable_nat ctx w2 = Some ((0, []), w3, []) /\ rules_in w3 = Some 9.
Proof. do 4 eexists. do 5 (split; [by vm_compute|]). by vm_compute. Qed.

(** A rule that could not be disabled is enabled still; adding the next one to the same context fails, and the
    context forgets them both. *)
Lemma failed_disable_forgotten :
  exists ctx w1 w2 w3, connman_firewall_enable_nat [] nat_address 24 (txt "eth0") (demo_fw [0; - EINVAL]) = Some ((0, ctx), w1, []) /\
    connman_firewall_disable_nat ctx w1 = Some ((- EINVAL, ctx), w2, []) /\
    connman_firewall_enable_nat ctx nat_address 24 (txt "wlan0") w2 = Some ((- EALREADY, []), w3, []) /\ rules_in w3 = Some 9.
Proof. do 4 eexists. do 3 (split; [by vm_compute|]). by vm_compute. Qed.

(** Disabling a rule once more after a failure counts it down once more, here below zero, after which
    no rule makes the chain again. *)
Lemma count_below_zero :
  exists ctx w1 w2 w3, connman_firewall_enable_nat [] nat_address 24 (txt "eth0") (demo_fw [0; - EINVAL]) = Some ((0, ctx), w1, []) /\
    connman_firewall_disable_nat ctx w1 = Some ((- EINVAL, ctx), w2, []) /\
    connman_firewall_disable_nat ctx w2 = Some ((- EINVAL, ctx), w3, []) /\
    managed_tables w3 = [mk_managed nat_table [0; 0; 0; 0; 4294967295]].
Proof. do 4 eexists. do 3 (split; [by vm_compute|]). by vm_compute. Qed.

(** Sessions of a security module are refused after the marks of connections were counted. *)
Lemma refused_session_counts {K : Type} {HK : Kernel K} {HX : Xtables} (w : fw K) id src_ip mark :
  0 < connmark_ref w < 2 ^ 32 - 1 ->
  exists w1, connman_firewall_enable_marking [] ID_TYPE_LSM id src_ip mark w = Some ((- EINVAL, []), w1, []) /\ connmark_ref w1 = connmark_ref w + 1.
Proof.
  intros Hr. exists (with_ref (u32 (connmark_ref w + 1)) w). split; [|cbn; rewrite u32_small; lia].
  unfold connman_firewall_enable_marking. apply (bind_next _ _ _ 0 (with_ref (u32 (connmark_ref w + 1)) w)); [|done].
  unfold firewall_enable_connmark. apply (bind_next _ _ _ (connmark_ref w) w); [done|]. by rewrite (proj2 (Z.ltb_lt 0 (connmark_ref w))) by lia.
Qed.

(** Shutting down with an interface that is still translated changes the hash table while it is visited. *)
Lemma cleanup_changes_visited {K : Type} (s : nat_state K) : nat_hash s <> ∅ -> connman_nat_cleanup s = None.
Proof. intros Hn. unfold connman_nat_cleanup, mbind, pprog_bind, pget. by rewrite bool_decide_eq_false_2. Qed.

End FirewallProps.
