(* ===== verification/ResolvSort.v ===== *)
(** * The order of the addresses of a host (gweb/gresolv.c)

    The resolver of gweb sorts the addresses it has found by the rules of RFC 3484: the source address the kernel
    would use is looked up for each of them, scopes, labels and precedences are taken from
    tables, and the results are sorted.

    Addresses are lists of bytes, the first one sent first.  [route] is what the kernel answers to [connect] and
    [getsockname]. *)

From S2P Require Import Prelude Inet Buffer Glib.
From stdpp Require Import list sorting.
Open Scope Z_scope.

Module ResolvSort.

Inductive sa_family := AF_UNSPEC | AF_INET | AF_INET6.

#[global] Instance sa_family_eq_dec : EqDecision sa_family.
Proof. solve_decision. Defined.

(** The union of the socket addresses: the addresses of the two families do not overlap. *)
Record sockaddr := mk_sa {
  family : sa_family;
  sin_addr : list Z;
  sin6_addr : list Z;
}.

Definition sa_zero : sockaddr := mk_sa AF_UNSPEC [0; 0; 0; 0] (replicate 16 0).
Definition sa_in (a : list Z) : sockaddr := mk_sa AF_INET a (replicate 16 0).
Definition sa_in6 (a : list Z) : sockaddr := mk_sa AF_INET6 [0; 0; 0; 0] a.

Record sort_result := mk_result {
  precedence : Z;
  src_scope : Z;
  dst_scope : Z;
  src_label : Z;
  dst_label : Z;
  reachable : bool;
  src : sockaddr;
  dst : sockaddr;
}.

(** ** Tables *)

Record gai_table := mk_gai { gai_addr : list Z; gai_mask : Z; gai_value : Z }.

Definition gai_labels : list gai_table :=
  [ mk_gai (replicate 15 0 ++ [0x01]) 128 0;
    mk_gai ([0x20; 0x02] ++ replicate 14 0) 16 2;
    mk_gai (replicate 16 0) 96 3;
    mk_gai (replicate 10 0 ++ [0xff; 0xff] ++ replicate 4 0) 96 4;
    mk_gai ([0xfe; 0xc0] ++ replicate 14 0) 10 5;
    mk_gai ([0xfc] ++ replicate 15 0) 7 6;
    mk_gai ([0x20; 0x01] ++ replicate 14 0) 32 7;
    mk_gai (replicate 16 0) 0 1 ].

Definition gai_precedences : list gai_table :=
  [ mk_gai (replicate 15 0 ++ [0x01]) 128 50;
    mk_gai ([0x20; 0x02] ++ replicate 14 0) 16 30;
    mk_gai (replicate 16 0) 96 20;
    mk_gai (replicate 10 0 ++ [0xff; 0xff] ++ replicate 4 0) 96 10;
    mk_gai (replicate 16 0) 0 40 ].

Definition v4mapped (a : list Z) : list Z := replicate 10 0 ++ [0xff; 0xff] ++ a.

(** The byte a pointer leads to. *)
Definition deref (l : list Z) : Z := nth 0 l 0.

Definition mask_compare (one two : list Z) (mask : Z) : bool :=
  let n := Z.to_nat (mask / 8) in
  let same := if 8 <? mask then bytes_eqb (take n one) (take n two) else true in
  let one := if 8 <? mask then drop n one else one in
  let two := if 8 <? mask then drop n two else two in
  let mask := if 8 <? mask then mask mod 8 else mask in
  if negb same then false
  else negb (negb (mask =? 0) && negb (Z.shiftr (Z.lxor (deref one) (deref two)) (8 - mask) =? 0)).

Fixpoint search_gai (addr : list Z) (tbl : list gai_table) : option Z :=
  match tbl with
  | [] => None
  | t :: tbl => if mask_compare addr (gai_addr t) (gai_mask t) then Some (gai_value t) else search_gai addr tbl
  end.

(** [None] is a search behind the end of the table. *)
Definition match_gai_table (sa : sockaddr) (tbl : list gai_table) : option Z :=
  search_gai (if bool_decide (family sa = AF_INET) then v4mapped (sin_addr sa) else sin6_addr sa) tbl.

(** ** Scopes *)

(** The value of bytes in the order of the network. *)
Definition be (l : list Z) : Z := foldl (fun a b => a * 256 + b) 0 l.

Definition DQUAD (a b c d : Z) : Z := Z.lor (Z.lor (Z.lor (Z.shiftl a 24) (Z.shiftl b 16)) (Z.shiftl c 8)) d.

(** As a truth value, this is true of the addresses that do not match. *)
Definition V4MATCH (addr a b c d m : Z) : Z := Z.shiftr (Z.lxor addr (DQUAD a b c d)) (32 - m).

Definition RFC3484_SCOPE_LINK : Z := 2.
Definition RFC3484_SCOPE_SITE : Z := 5.
Definition RFC3484_SCOPE_GLOBAL : Z := 14.

Definition truth (v : Z) : bool := negb (v =? 0).

Definition IN6_IS_ADDR_MULTICAST (a : list Z) : bool := nth 0 a 0 =? 0xff.
Definition IN6_IS_ADDR_LINKLOCAL (a : list Z) : bool := (nth 0 a 0 =? 0xfe) && (Z.land (nth 1 a 0) 0xc0 =? 0x80).
Definition IN6_IS_ADDR_SITELOCAL (a : list Z) : bool := (nth 0 a 0 =? 0xfe) && (Z.land (nth 1 a 0) 0xc0 =? 0xc0).
Definition IN6_IS_ADDR_LOOPBACK (a : list Z) : bool := bytes_eqb a (replicate 15 0 ++ [1]).

Definition addr_scope (sa : sockaddr) : Z :=
  if bool_decide (family sa = AF_INET) then
    let addr := be (sin_addr sa) in
    if truth (V4MATCH addr 169 254 0 0 16) || truth (V4MATCH addr 127 0 0 0 8) then RFC3484_SCOPE_LINK
    else if truth (V4MATCH addr 10 0 0 0 8) || truth (V4MATCH addr 172 16 0 0 12) || truth (V4MATCH addr 192 168 0 0 16)
    then RFC3484_SCOPE_SITE
    else RFC3484_SCOPE_GLOBAL
  else if IN6_IS_ADDR_MULTICAST (sin6_addr sa) then Z.land (nth 1 (sin6_addr sa) 0) 0xf
  else if IN6_IS_ADDR_LINKLOCAL (sin6_addr sa) || IN6_IS_ADDR_LOOPBACK (sin6_addr sa) then RFC3484_SCOPE_LINK
  else if IN6_IS_ADDR_SITELOCAL (sin6_addr sa) then RFC3484_SCOPE_SITE
  else RFC3484_SCOPE_GLOBAL.

(** ** Comparison *)

(** [g_bit_storage] of a value that is not 0. *)
Definition g_bit_storage (v : Z) : Z := Z.log2 v + 1.

(** The words of an address of 16 bytes. *)
Definition words (a : list Z) : list Z := map (fun i => be (slice (4 * i) 4 a)) [0; 1; 2; 3]%nat.

Definition differences (a b : list Z) : list Z := zip_with Z.lxor (words a) (words b).

(** Rule 9, on the words in which the source and the destination differ; 0 goes on to rule 10. *)
Fixpoint longest_prefix (one two : list Z) : Z :=
  match one, two with
  | cmp_one :: one, cmp_two :: two =>
      if (cmp_two =? 0) && (cmp_one =? 0) then longest_prefix one two
      else if negb (cmp_one =? 0) && (cmp_two =? 0) then 1
      else if negb (cmp_two =? 0) && (cmp_one =? 0) then -1
      else
        let cmp_one := g_bit_storage cmp_one in
        let cmp_two := g_bit_storage cmp_two in
        if cmp_one =? cmp_two then 0 else s32 (cmp_one - cmp_two)
  | _, _ => 0
  end.

(** Rules 1 to 9; 0 is no preference. *)
Definition preference (one two : sort_result) : Z :=
  if reachable one && negb (reachable two) then -1
  else if reachable two && negb (reachable one) then 1
  else if (dst_scope one =? src_scope one) && negb (dst_scope two =? src_scope two) then -1
  else if (dst_scope two =? src_scope two) && negb (dst_scope one =? src_scope one) then 1
  else if (dst_label one =? src_label one) && negb (dst_label two =? src_label two) then -1
  else if (dst_label two =? src_label two) && negb (dst_label one =? src_label one) then 1
  else if precedence two <? precedence one then -1
  else if precedence one <? precedence two then 1
  else if negb (dst_scope one =? dst_scope two) then dst_scope one - dst_scope two
  else if bool_decide (family (dst one) = AF_INET) then 0
  else longest_prefix (differences (sin6_addr (src one)) (sin6_addr (dst one))) (differences (sin6_addr (src two)) (sin6_addr (dst two))).

(** [before]: the first element lies in front of the second one. *)
Definition rfc3484_compare (before : bool) (one two : sort_result) : Z :=
  let c := preference one two in
  if negb (c =? 0) then c else if before then -1 else 1.

(** [p] ranks the elements of [l]: it is the sign of a total preorder, and says the same from both sides. *)
Record ranks {A} (p : A -> A -> Z) (l : list A) : Prop := {
  ranks_sgn a b : a ∈ l -> b ∈ l -> Z.sgn (p b a) = - Z.sgn (p a b);
  ranks_trans a b c : a ∈ l -> b ∈ l -> c ∈ l -> p a b <= 0 -> p b c <= 0 -> p a c <= 0;
}.

(** [qsort], as it is implemented by sorting algorithms that go by the answers for pairs of elements only: the
    comparison may answer as it likes where two elements are ranked equal, here by the places they lie at. *)
Class QSort := {
  qsort {A} : (bool -> A -> A -> Z) -> list A -> list A;
  qsort_perm {A} (cmp : bool -> A -> A -> Z) l : qsort cmp l ≡ₚ l;
  qsort_sorted {A} (cmp : bool -> A -> A -> Z) (p : A -> A -> Z) l :
    ranks p l -> (forall b x y, p x y <> 0 -> cmp b x y = p x y) -> cmp_sorted p (qsort cmp l);
}.

Section sort.
Context `{!QSort} (route : sockaddr -> option sockaddr).

(** One round of the loop. *)
Definition prepare_result (d : sockaddr) : option sort_result :=
  let s := default sa_zero (route d) in
  prec ← match_gai_table d gai_precedences;
  dl ← match_gai_table d gai_labels;
  sl ← match_gai_table s gai_labels;
  Some (mk_result prec (addr_scope s) (addr_scope d) sl dl (bool_decide (is_Some (route d))) s d).

Definition rfc3484_sort_results (dsts : list sockaddr) : option (list sort_result) :=
  results ← mapM prepare_result dsts;
  Some (qsort rfc3484_compare results).

End sort.

(** ** An implementation of [qsort] *)

Lemma ranks_incl {A} (p : A -> A -> Z) l l' : ranks p l -> l' ⊆ l -> ranks p l'.
Proof.
  intros [Hs Ht] Hi. split; [intros a b Ha Hb; apply Hs|intros a b c Ha Hb Hc; apply Ht]; by apply Hi.
Qed.

Section reference.
Context {A : Type} (cmp p : A -> A -> Z) (Hcmp : forall x y, p x y <> 0 -> cmp x y = p x y).

Lemma insert_ranked x l : ranks p (x :: l) -> cmp_sorted p l -> cmp_sorted p (insert_sorted cmp x l).
Proof using Hcmp.
  induction l as [|y l IH]; simpl; intros Hr Hs; [repeat constructor|].
  inversion Hs as [|? ? Hl Hy]; subst. rewrite list.Forall_forall in Hy.
  destruct (Z.leb_spec (cmp x y) 0).
  - assert (p x y <= 0) by (destruct (decide (p x y = 0)); [lia|by rewrite <- Hcmp]).
    constructor; [done|]. constructor; [done|]. apply list.Forall_forall. intros z Hz.
    apply (ranks_trans _ _ Hr x y z); [mem|mem|mem|done|by apply Hy].
  - assert (p y x <= 0).
    { pose proof (ranks_sgn _ _ Hr x y ltac:(mem) ltac:(mem)).
      destruct (decide (p x y = 0)); [|rewrite Hcmp in * by done]; lia. }
    constructor; [apply IH; [|done]; apply (ranks_incl _ _ _ Hr); intros ?; mem|].
    apply list.Forall_forall. intros z. rewrite insert_sorted_perm, elem_of_cons.
    intros [->|Hz]; [done|by apply Hy].
Qed.

Lemma insertion_sort_ranked l : ranks p l -> cmp_sorted p (insertion_sort cmp l).
Proof using Hcmp.
  induction l as [|x l IH]; intros Hr; simpl; [constructor|].
  apply insert_ranked.
  - apply (ranks_incl _ _ _ Hr). intros y. by rewrite !elem_of_cons, insertion_sort_perm.
  - apply IH, (ranks_incl _ _ _ Hr). intros y. rewrite elem_of_cons. by right.
Qed.

End reference.

#[local] Instance qsort_reference : QSort := {
  qsort A cmp l := insertion_sort (cmp true) l;
  qsort_perm A cmp l := insertion_sort_perm (cmp true) l;
  qsort_sorted A cmp p l Hr Hc := insertion_sort_ranked (cmp true) p (Hc true) l Hr;
}.

(** ** Bytes as numbers *)

Lemma be_foldl a l : foldl (fun a b => a * 256 + b) a l = a * 256 ^ Z.of_nat (length l) + be l.
Proof.
  unfold be. revert a. induction l as [|b l IH]; intros a; cbn [foldl length]; [cbn; lia|].
  rewrite (IH (a * 256 + b)), (IH (0 * 256 + b)), Nat2Z.inj_succ, Z.pow_succ_r by lia. lia.
Qed.

Lemma be_cons b l : be (b :: l) = b * 256 ^ Z.of_nat (length l) + be l.
Proof. unfold be at 1. cbn [foldl]. by rewrite be_foldl. Qed.

Lemma be_app a b : be (a ++ b) = be a * 256 ^ Z.of_nat (length b) + be b.
Proof. unfold be at 1. by rewrite foldl_app, be_foldl. Qed.

Lemma be_bound l : Forall is_byte l -> 0 <= be l < 256 ^ Z.of_nat (length l).
Proof.
  induction 1 as [|b l Hb _ IH]; [cbn; lia|].
  rewrite be_cons. cbn [length]. rewrite Nat2Z.inj_succ, Z.pow_succ_r by lia. unfold is_byte in Hb. nia.
Qed.

Lemma join_eq k x y r s : 0 <= r < k -> 0 <= s < k -> x * k + r = y * k + s <-> x = y /\ r = s.
Proof.
  intros Hr Hs. split; [|intros [-> ->]; done]. intros He.
  destruct (Z.lt_total x y) as [|[|]]; nia.
Qed.

Lemma be_inj a : forall b, length a = length b -> Forall is_byte a -> Forall is_byte b -> be a = be b -> a = b.
Proof.
  induction a as [|x a IH]; intros [|y b] Hl Ha Hb; try done.
  apply Forall_cons_1 in Ha as [Hx Ha]. apply Forall_cons_1 in Hb as [Hy Hb]. injection Hl as Hl.
  rewrite !be_cons, Hl. pose proof (be_bound a Ha) as Ba. pose proof (be_bound b Hb) as Bb. rewrite Hl in Ba.
  intros [-> He]%join_eq; [|lia..]. f_equal. by apply IH.
Qed.

(** ** Masks *)

(** The first [mask] bits of an address. *)
Definition prefix (mask : Z) (a : list Z) : Z := Z.shiftr (be a) (8 * Z.of_nat (length a) - mask).

Lemma pow_bytes n : 256 ^ Z.of_nat n = 2 ^ (8 * Z.of_nat n).
Proof. by rewrite (Z.pow_mul_r 2 8) by lia. Qed.

(** A prefix that ends within the byte behind [a]. *)
Lemma prefix_split a x c r : Forall is_byte a -> is_byte x -> Forall is_byte c -> 0 <= r <= 8 ->
  prefix (8 * Z.of_nat (length a) + r) (a ++ x :: c) = be a * 2 ^ r + Z.shiftr x (8 - r).
Proof.
  intros Ha Hx Hc Hr. unfold prefix. rewrite length_app. cbn [length].
  set (k := Z.of_nat (length c)).
  replace (8 * Z.of_nat (length a + S (length c)) - (8 * Z.of_nat (length a) + r)) with (8 * k + (8 - r)) by lia.
  rewrite <- Z.shiftr_shiftr by lia. rewrite be_app, be_cons. cbn [length].
  rewrite Nat2Z.inj_succ, Z.pow_succ_r by lia. fold k.
  pose proof (be_bound c Hc) as Hb. fold k in Hb. unfold k in *. rewrite pow_bytes in *. fold k in Hb |- *.
  replace (be a * (256 * 2 ^ (8 * k)) + (x * 2 ^ (8 * k) + be c)) with ((be a * 256 + x) * 2 ^ (8 * k) + be c) by lia.
  rewrite !Z.shiftr_div_pow2 by lia. rewrite Z.div_add_l, (Z.div_small (be c)) by lia.
  replace 256 with (2 ^ r * 2 ^ (8 - r)) by (rewrite <- Z.pow_add_r by lia; by replace (r + (8 - r)) with 8 by lia).
  rewrite Z.add_0_r, Z.mul_assoc, Z.div_add_l; lia.
Qed.

Lemma prefix_split_eq a b x y c d r : length a = length b -> Forall is_byte a -> Forall is_byte b -> is_byte x ->
  is_byte y -> Forall is_byte c -> Forall is_byte d -> 0 <= r <= 8 ->
  prefix (8 * Z.of_nat (length a) + r) (a ++ x :: c) = prefix (8 * Z.of_nat (length a) + r) (b ++ y :: d) <->
  a = b /\ Z.shiftr (Z.lxor x y) (8 - r) = 0.
Proof.
  intros Hl Ha Hb Hx Hy Hc Hd Hr. rewrite prefix_split by done. rewrite Hl, prefix_split by done.
  assert (Hs : forall z, is_byte z -> 0 <= Z.shiftr z (8 - r) < 2 ^ r).
  { intros z [Hz1 Hz2]. rewrite Z.shiftr_div_pow2 by lia. split; [apply Z.div_pos; lia|].
    apply Z.div_lt_upper_bound; [lia|]. rewrite <- Z.pow_add_r by lia. replace (8 - r + r) with 8 by lia. lia. }
  rewrite join_eq by auto. rewrite Z.shiftr_lxor, Z.lxor_eq_0_iff.
  split; (intros [H1 H2]; split; [|done]); [by apply be_inj|by rewrite H1].
Qed.

Lemma split_at (n : nat) (l : list Z) : (n < length l)%nat -> exists x, l = take n l ++ x :: drop (S n) l /\ deref (drop n l) = x.
Proof.
  intros Hn. destruct (lookup_lt_is_Some_2 l n Hn) as [x Hx]. exists x.
  rewrite (drop_S l x n Hx). split; [|done]. by rewrite <- (drop_S l x n Hx), take_drop.
Qed.

Lemma mask_part n r one two : length one = 16%nat -> length two = 16%nat -> Forall is_byte one -> Forall is_byte two ->
  (n < 16)%nat -> 0 <= r <= 8 ->
  prefix (8 * Z.of_nat n + r) one = prefix (8 * Z.of_nat n + r) two <->
  take n one = take n two /\ Z.shiftr (Z.lxor (deref (drop n one)) (deref (drop n two))) (8 - r) = 0.
Proof.
  intros L1 L2 B1 B2 Hn Hr.
  destruct (split_at n one ltac:(lia)) as (x & E1 & ->). destruct (split_at n two ltac:(lia)) as (y & E2 & ->).
  assert (Ln : length (take n one) = n) by (rewrite length_take; lia).
  rewrite E1, Forall_app, Forall_cons in B1. rewrite E2, Forall_app, Forall_cons in B2. destruct_and!.
  rewrite E1 at 1. rewrite E2 at 1. replace (Z.of_nat n) with (Z.of_nat (length (take n one))) by lia.
  rewrite prefix_split_eq by (done || (rewrite !length_take; lia)). done.
Qed.

Lemma tail_compare x y r : is_byte x -> is_byte y -> 0 <= r <= 8 ->
  negb (negb (r =? 0) && negb (Z.shiftr (Z.lxor x y) (8 - r) =? 0)) = (Z.shiftr (Z.lxor x y) (8 - r) =? 0).
Proof.
  intros Hx Hy Hr. destruct (Z.eqb_spec r 0) as [->|]; cbn [negb andb]; [|by rewrite negb_involutive].
  symmetry. apply Z.eqb_eq. rewrite Z.shiftr_lxor, !Z.shiftr_div_pow2 by lia. unfold is_byte in *.
  by rewrite !Z.div_small by lia.
Qed.

Lemma deref_byte n l : Forall is_byte l -> (n < length l)%nat -> is_byte (deref (drop n l)).
Proof.
  intros Hb Hn. destruct (split_at n l Hn) as (x & E & ->). rewrite E, Forall_app, Forall_cons in Hb. tauto.
Qed.

(** For all addresses of 16 bytes and masks of up to 128 bits, [mask_compare] says whether the first [mask] bits
    of the two addresses, read as one number, are the same. *)
Lemma mask_compare_prefix one two mask : length one = 16%nat -> length two = 16%nat -> Forall is_byte one ->
  Forall is_byte two -> 0 <= mask <= 128 ->
  mask_compare one two mask = true <-> prefix mask one = prefix mask two.
Proof.
  intros L1 L2 B1 B2 Hm. unfold mask_compare. destruct (Z.ltb_spec 8 mask) as [H8|H8]; cbn [negb].
  2: { rewrite tail_compare by (lia || apply (deref_byte 0); (done || lia)).
       pose proof (mask_part 0 mask one two L1 L2 B1 B2 ltac:(lia) ltac:(lia)) as Hp.
       rewrite Z.eqb_eq. rewrite Z.mul_0_r, Z.add_0_l, !take_0, !drop_0 in Hp. tauto. }
  destruct (decide (mask = 128)) as [->|Hne].
  - change (Z.to_nat (128 / 8)) with 16%nat. rewrite !take_ge by lia. change (128 mod 8 =? 0) with true. cbn [negb andb].
    unfold prefix. rewrite L1, L2. change (8 * Z.of_nat 16 - 128) with 0. rewrite !Z.shiftr_0_r. unfold bytes_eqb.
    case_bool_decide as He; cbn [negb]; [by rewrite He|].
    split; [done|]. intros Hb. destruct He. apply be_inj; [lia|done..].
  - pose proof (Z.mod_pos_bound mask 8 ltac:(lia)) as Hr. pose proof (Z.div_mod mask 8 ltac:(lia)) as Hd.
    assert (Hn : (Z.to_nat (mask / 8) < 16)%nat) by lia.
    rewrite tail_compare by (lia || apply deref_byte; (done || lia)).
    pose proof (mask_part (Z.to_nat (mask / 8)) (mask mod 8) one two L1 L2 B1 B2 Hn ltac:(lia)) as Hp.
    rewrite Z2Nat.id in Hp by lia. rewrite <- Hd in Hp. rewrite Hp. unfold bytes_eqb.
    case_bool_decide; cbn [negb]; [rewrite Z.eqb_eq; tauto|split; [done|by intros []]].
Qed.

Lemma mask_compare_prefix_example :
  mask_compare (0x20 :: 0x02 :: replicate 14 7) (0x20 :: 0x02 :: replicate 14 0) 22 = false /\
  (mask_compare (0x20 :: 0x02 :: replicate 14 7) (0x20 :: 0x02 :: replicate 14 0) 16 = true <->
   prefix 16 (0x20 :: 0x02 :: replicate 14 7) = prefix 16 (0x20 :: 0x02 :: replicate 14 0)).
Proof.
  split; [|apply (mask_compare_prefix (0x20 :: 0x02 :: replicate 14 7) (0x20 :: 0x02 :: replicate 14 0) 16)]; try done.
  all: by apply all_bytes_ok.
Qed.

(** ** Ranks *)

Fixpoint lex (a b : list Z) : Z :=
  match a, b with
  | x :: a, y :: b => if x <? y then -1 else if y <? x then 1 else lex a b
  | _, _ => 0
  end.

Lemma lex_sgn a : forall b, Z.sgn (lex b a) = - Z.sgn (lex a b).
Proof.
  induction a as [|x a IH]; intros [|y b]; cbn [lex]; try done.
  destruct (Z.ltb_spec x y), (Z.ltb_spec y x); try done; lia || apply IH.
Qed.

Lemma lex_trans a : forall b c, length a = length b -> length b = length c -> lex a b <= 0 -> lex b c <= 0 -> lex a c <= 0.
Proof.
  induction a as [|x a IH]; intros [|y b] [|z c] H1 H2; cbn [lex]; try done.
  injection H1 as H1. injection H2 as H2.
  destruct (Z.ltb_spec x y), (Z.ltb_spec y x), (Z.ltb_spec y z), (Z.ltb_spec z y), (Z.ltb_spec x z), (Z.ltb_spec z x);
    try lia. by apply IH.
Qed.

Lemma lex_sgn_eq (f : Z) x y a b : Z.sgn f = lex a b ->
  Z.sgn (if x <? y then -1 else if y <? x then 1 else f) = lex (x :: a) (y :: b).
Proof. intros Hf. cbn [lex]. by repeat case_match. Qed.

(** The number of bits behind the common prefix of two addresses. *)
Definition nbits (v : Z) : Z := if v =? 0 then 0 else Z.log2 v + 1.
Definition host_bits (a b : list Z) : Z := nbits (Z.lxor (be a) (be b)).

(** What RFC 3484 asks for, the smaller the better: a usable destination, whose scope and label are those of its source,
    of a high precedence and a small scope, with a long prefix in common with its source. *)
Definition rank (r : sort_result) : list Z :=
  [ Z.b2z (negb (reachable r));
    Z.b2z (negb (dst_scope r =? src_scope r));
    Z.b2z (negb (dst_label r =? src_label r));
    - precedence r;
    dst_scope r;
    if bool_decide (family (dst r) = AF_INET) then 0 else host_bits (sin6_addr (src r)) (sin6_addr (dst r)) ].

(** The two sides of a rule on a truth value are a comparison. *)
Lemma rule_b2z (p q : bool) (f : Z) :
  (if p && negb q then -1 else if q && negb p then 1 else f) =
  (if Z.b2z (negb p) <? Z.b2z (negb q) then -1 else if Z.b2z (negb q) <? Z.b2z (negb p) then 1 else f).
Proof. by destruct p, q. Qed.

Lemma shift_join k x r : 0 <= k -> 0 <= r < 2 ^ k -> forall n, 0 <= n ->
  Z.testbit (x * 2 ^ k + r) n = if n <? k then Z.testbit r n else Z.testbit x (n - k).
Proof.
  intros Hk Hr n Hn. destruct (Z.ltb_spec n k).
  - rewrite <- (Z.mod_pow2_bits_low _ k) by lia. rewrite Z.add_comm, Z.mod_add, Z.mod_small by lia. done.
  - replace n with (n - k + k) at 1 by lia. rewrite <- Z.div_pow2_bits by lia.
    by rewrite Z.div_add_l, Z.div_small, Z.add_0_r by lia.
Qed.

Lemma lxor_bound k r s : 0 <= k -> 0 <= r < 2 ^ k -> 0 <= s < 2 ^ k -> 0 <= Z.lxor r s < 2 ^ k.
Proof.
  intros Hk Hr Hs. assert (0 <= Z.lxor r s) by (apply Z.lxor_nonneg; lia).
  assert (Hd : Z.lxor r s / 2 ^ k = 0).
  { rewrite <- Z.shiftr_div_pow2, Z.shiftr_lxor, !Z.shiftr_div_pow2 by done. by rewrite !Z.div_small by done. }
  apply Z.div_small_iff in Hd; lia.
Qed.

Lemma lxor_join k x y r s : 0 <= k -> 0 <= r < 2 ^ k -> 0 <= s < 2 ^ k ->
  Z.lxor (x * 2 ^ k + r) (y * 2 ^ k + s) = Z.lxor x y * 2 ^ k + Z.lxor r s.
Proof.
  intros Hk Hr Hs. pose proof (lxor_bound k r s Hk Hr Hs) as Hx.
  apply Z.bits_inj'. intros n Hn. rewrite Z.lxor_spec, !shift_join by done.
  case_match; by rewrite Z.lxor_spec.
Qed.

Lemma nbits_bound k v : 0 <= k -> 0 <= v < 2 ^ k -> 0 <= nbits v <= k.
Proof.
  intros Hk Hv. unfold nbits. destruct (Z.eqb_spec v 0); [lia|].
  pose proof (Z.log2_nonneg v). assert (Z.log2 v < k) by (apply Z.log2_lt_pow2; lia). lia.
Qed.

Lemma nbits_join k x v : 0 <= k -> 0 <= x -> 0 <= v < 2 ^ k ->
  nbits (x * 2 ^ k + v) = if x =? 0 then nbits v else nbits x + k.
Proof.
  intros Hk Hx Hv. destruct (Z.eqb_spec x 0) as [->|Hn]; [by f_equal|]. unfold nbits.
  assert (0 < 2 ^ k) by lia.
  rewrite (proj2 (Z.eqb_neq x 0)), (proj2 (Z.eqb_neq (x * 2 ^ k + v) 0)) by nia.
  destruct (Z.log2_spec x ltac:(lia)) as [H1 H2]. pose proof (Z.log2_nonneg x).
  rewrite (Z.log2_unique (x * 2 ^ k + v) (Z.log2 x + k)); [lia..|].
  rewrite Z.pow_succ_r, !Z.pow_add_r by lia. rewrite Z.pow_succ_r in H2 by lia. nia.
Qed.

(** Words in the order of the network as one number. *)
Fixpoint join (ws : list Z) : Z :=
  match ws with
  | [] => 0
  | w :: ws => w * 2 ^ (32 * Z.of_nat (length ws)) + join ws
  end.

Definition is_word (w : Z) : Prop := 0 <= w < 2 ^ 32.

Lemma join_bound ws : Forall is_word ws -> 0 <= join ws < 2 ^ (32 * Z.of_nat (length ws)).
Proof.
  induction 1 as [|w ws Hw _ IH]; [cbn; lia|]. cbn [join length]. unfold is_word in Hw.
  replace (32 * Z.of_nat (S (length ws))) with (32 + 32 * Z.of_nat (length ws)) by lia. rewrite Z.pow_add_r by lia. nia.
Qed.

Lemma join_lxor a : forall b, length a = length b -> Forall is_word a -> Forall is_word b ->
  Z.lxor (join a) (join b) = join (zip_with Z.lxor a b).
Proof.
  induction a as [|x a IH]; intros [|y b] Hl Ha Hb; try done.
  apply Forall_cons_1 in Ha as [Hx Ha]. apply Forall_cons_1 in Hb as [Hy Hb]. injection Hl as Hl.
  cbn [join zip_with]. rewrite length_zip_with, Hl, Nat.min_id, <- IH by done.
  pose proof (join_bound a Ha) as Ba. rewrite Hl in Ba. apply lxor_join; [lia|done|by apply join_bound].
Qed.

(** Rule 9 is a comparison of the bits behind the common prefix. *)
Lemma longest_prefix_bits a : forall b, length a = length b -> Forall is_word a -> Forall is_word b ->
  Z.sgn (longest_prefix a b) = lex [nbits (join a)] [nbits (join b)].
Proof.
  induction a as [|x a IH]; intros [|y b] Hl Ha Hb; try done.
  apply Forall_cons_1 in Ha as [Hx Ha]. apply Forall_cons_1 in Hb as [Hy Hb]. injection Hl as Hl.
  pose proof (join_bound a Ha) as Ba. pose proof (join_bound b Hb) as Bb. rewrite Hl in Ba. unfold is_word in *.
  cbn [join longest_prefix]. rewrite Hl. set (k := 32 * Z.of_nat (length b)) in *. assert (Hk : 0 <= k) by lia.
  rewrite (nbits_join k x), (nbits_join k y) by tauto.
  pose proof (nbits_bound k _ Hk Ba) as Na. pose proof (nbits_bound k _ Hk Bb) as Nb.
  assert (Hs : forall v, v <> 0 -> 0 <= v < 2 ^ 32 -> nbits v = g_bit_storage v /\ 0 < g_bit_storage v <= 32).
  { intros v Hv Bv. pose proof (nbits_bound 32 v ltac:(lia) Bv). unfold nbits, g_bit_storage in *.
    rewrite (proj2 (Z.eqb_neq v 0)) in * by done. pose proof (Z.log2_nonneg v). lia. }
  destruct (Z.eqb_spec x 0) as [|Nx], (Z.eqb_spec y 0) as [|Ny]; cbn [negb andb]; [by apply IH|..];
    try destruct (Hs x Nx Hx) as [-> ?]; try destruct (Hs y Ny Hy) as [-> ?]; cbn [lex].
  - by rewrite (proj2 (Z.ltb_lt _ _)) by lia.
  - by rewrite (proj2 (Z.ltb_ge _ _)), (proj2 (Z.ltb_lt _ _)) by lia.
  - destruct (Z.eqb_spec (g_bit_storage x) (g_bit_storage y)) as [->|]; [by rewrite Z.ltb_irrefl|].
    rewrite s32_small by lia.
    destruct (Z.ltb_spec (g_bit_storage x + k) (g_bit_storage y + k)); [lia|].
    by rewrite (proj2 (Z.ltb_lt _ _)) by lia; lia.
Qed.


Lemma list_16 (a : list Z) : length a = 16%nat ->
  exists b0 b1 b2 b3 b4 b5 b6 b7 b8 b9 b10 b11 b12 b13 b14 b15,
  a = [b0; b1; b2; b3; b4; b5; b6; b7; b8; b9; b10; b11; b12; b13; b14; b15].
Proof. intros Hl. do 16 (destruct a as [|? a]; [done|]). destruct a; [|done]. by repeat eexists. Qed.

Lemma words_join a : length a = 16%nat -> be a = join (words a).
Proof.
  intros (b0 & b1 & b2 & b3 & b4 & b5 & b6 & b7 & b8 & b9 & b10 & b11 & b12 & b13 & b14 & b15 & ->)%list_16.
  cbv [be words join map slice Nat.mul Nat.add drop take foldl length]. lia.
Qed.

Lemma words_word a : length a = 16%nat -> Forall is_byte a -> Forall is_word (words a).
Proof.
  intros Hl Hb. unfold words. rewrite Forall_map.
  assert (Hw : forall o, (o + 4 <= 16)%nat -> is_word (be (slice o 4 a))).
  { intros o Ho. assert (length (slice o 4 a) = 4%nat) as L by (unfold slice; rewrite length_take, length_drop; lia).
    pose proof (be_bound (slice o 4 a) ltac:(by apply Forall_take, Forall_drop)) as B. by rewrite L in B. }
  repeat constructor; apply Hw; lia.
Qed.

(** A socket address with bytes in it. *)
Definition sa_ok (sa : sockaddr) : Prop :=
  length (sin_addr sa) = 4%nat /\ Forall is_byte (sin_addr sa) /\ length (sin6_addr sa) = 16%nat /\ Forall is_byte (sin6_addr sa).

Lemma differences_bits s d : sa_ok s -> sa_ok d ->
  let ws := differences (sin6_addr s) (sin6_addr d) in
  length ws = 4%nat /\ Forall is_word ws /\ nbits (join ws) = host_bits (sin6_addr s) (sin6_addr d).
Proof.
  intros (_ & _ & Ls & Bs) (_ & _ & Ld & Bd). cbv zeta. unfold differences, host_bits.
  pose proof (words_word _ Ls Bs) as Ws. pose proof (words_word _ Ld Bd) as Wd.
  split; [done|]. split; [|by rewrite <- join_lxor, <- !words_join].
  set (a := words (sin6_addr s)) in *. clearbody a. revert Wd. generalize (words (sin6_addr d)).
  induction Ws as [|x a Hx _ IH]; intros [|y b] Wd; try constructor.
  - apply lxor_bound; [lia|done|]. by inversion Wd.
  - apply IH. by inversion Wd.
Qed.

(** ** Scopes of IPv4 addresses *)

(** The tests of the scopes of IPv4 addresses are the wrong way round: an address is taken to be on the link if it is not
    in 169.254/16, or not in 127/8. *)
Lemma inet_scope_link sa : family sa = AF_INET -> addr_scope sa = RFC3484_SCOPE_LINK.
Proof.
  intros Hf. unfold addr_scope. rewrite bool_decide_true by done. unfold truth.
  set (addr := be (sin_addr sa)). clearbody addr.
  destruct (Z.eqb_spec (V4MATCH addr 169 254 0 0 16) 0) as [H1|]; [|done].
  destruct (Z.eqb_spec (V4MATCH addr 127 0 0 0 8) 0) as [H2|]; [|done].
  exfalso. unfold V4MATCH in *.
  rewrite Z.shiftr_lxor, Z.lxor_eq_0_iff in H1. rewrite Z.shiftr_lxor, Z.lxor_eq_0_iff in H2.
  change (32 - 8) with (16 + 8) in H2. rewrite <- (Z.shiftr_shiftr addr 16 8) in H2 by lia. change (32 - 16) with 16 in H1. rewrite H1 in H2. by vm_compute in H2.
Qed.

(** An address of the internet is given the scope of the link. *)
Lemma public_scope_link : addr_scope (sa_in [8; 8; 8; 8]) = RFC3484_SCOPE_LINK /\
  addr_scope (sa_in [169; 254; 1; 1]) = RFC3484_SCOPE_LINK /\ addr_scope (sa_in [192; 168; 1; 1]) = RFC3484_SCOPE_LINK.
Proof. done. Qed.

Lemma inet_precedence sa : sa_ok sa -> family sa = AF_INET -> match_gai_table sa gai_precedences = Some 10.
Proof.
  intros (L4 & _) Hf. unfold match_gai_table. rewrite bool_decide_true by done.
  destruct (sin_addr sa) as [|a [|b [|c [|d [|]]]]]; try done. Qed.

Lemma mapped_precedence sa : sa_ok sa -> family sa <> AF_INET -> match_gai_table sa gai_precedences = Some 10 ->
  addr_scope sa = RFC3484_SCOPE_GLOBAL.
Proof.
  intros (_ & _ & L6 & _) Hf. unfold match_gai_table, addr_scope. rewrite !bool_decide_false by done.
  cbn [search_gai gai_precedences gai_addr gai_mask gai_value].
  destruct (mask_compare _ _ 128); [done|]. destruct (mask_compare _ _ 16); [done|].
  destruct (mask_compare _ _ 96); [done|]. destruct (mask_compare _ _ 96) eqn:Hm; [|by destruct (mask_compare _ _ 0)].
  intros _. unfold mask_compare in Hm. change (8 <? 96) with true in Hm. change (Z.to_nat (96 / 8)) with 12%nat in Hm.
  cbv iota in Hm. unfold bytes_eqb in Hm. case_bool_decide as He; [|done]. clear Hm.
  destruct (list_16 _ L6) as (b0 & b1 & b2 & b3 & b4 & b5 & b6 & b7 & b8 & b9 & b10 & b11 & b12 & b13 & b14 & b15 & E).
  rewrite E in He |- *. injection He as -> -> -> -> -> -> -> -> -> -> -> ->.
  by vm_compute.
Qed.

(** ** The order *)

(** Every address has a row in the tables: their last rows take everything. *)
Lemma match_gai_table_total sa tbl t : last tbl = Some t -> gai_mask t = 0 -> is_Some (match_gai_table sa tbl).
Proof.
  unfold match_gai_table. generalize (if bool_decide (family sa = AF_INET) then v4mapped (sin_addr sa) else sin6_addr sa).
  intros a Hl Hm. induction tbl as [|u tbl IH]; [done|]. cbn [search_gai]. destruct (mask_compare a _ _) eqn:E; [done|].
  destruct tbl; [|by apply IH]. injection Hl as ->. rewrite Hm in E. done.
Qed.

Lemma prepare_total route d : exists r, prepare_result route d = Some r /\ dst r = d /\ src r = default sa_zero (route d) /\
  match_gai_table d gai_precedences = Some (precedence r) /\ dst_scope r = addr_scope d.
Proof.
  unfold prepare_result.
  destruct (match_gai_table_total d gai_precedences _ eq_refl eq_refl) as [p Hp].
  destruct (match_gai_table_total d gai_labels _ eq_refl eq_refl) as [dl Hdl].
  destruct (match_gai_table_total (default sa_zero (route d)) gai_labels _ eq_refl eq_refl) as [sl Hsl].
  rewrite Hp, Hdl, Hsl. eexists. repeat split.
Qed.

(** What the loop of [rfc3484_sort_results] makes of an address. *)
Definition prepared (r : sort_result) : Prop :=
  sa_ok (src r) /\ sa_ok (dst r) /\ match_gai_table (dst r) gai_precedences = Some (precedence r) /\ dst_scope r = addr_scope (dst r).

Lemma families_apart x y : prepared x -> prepared y -> precedence x = precedence y -> dst_scope x = dst_scope y ->
  family (dst x) = AF_INET -> family (dst y) = AF_INET.
Proof.
  intros (_ & Ox & Px & Sx) (_ & Oy & Py & Sy) Hp Hs Hf. destruct (decide (family (dst y) = AF_INET)) as [|Hn]; [done|].
  rewrite (inet_precedence _ Ox Hf) in Px. rewrite <- Hp in Py. rewrite <- Px in Py.
  rewrite Sx, Sy, (inet_scope_link _ Hf), (mapped_precedence _ Oy Hn Py) in Hs. done.
Qed.

(** The rules compare the ranks. *)
Lemma preference_rank x y : prepared x -> prepared y -> Z.sgn (preference x y) = lex (rank x) (rank y).
Proof.
  intros Hx Hy. unfold preference, rank. rewrite !rule_b2z. do 3 apply lex_sgn_eq.
  destruct (Z.ltb_spec (precedence y) (precedence x)) as [H1|H1].
  { cbn [lex]. by rewrite (proj2 (Z.ltb_lt _ _)) by lia. }
  destruct (Z.ltb_spec (precedence x) (precedence y)) as [H2|H2].
  { cbn [lex]. by rewrite (proj2 (Z.ltb_ge _ _)), (proj2 (Z.ltb_lt _ _)) by lia. }
  assert (Hp : precedence x = precedence y) by lia.
  destruct (Z.eqb_spec (dst_scope x) (dst_scope y)) as [Hs|Hs]; cbn [negb]; cycle 1.
  { cbn [lex]. rewrite Hp, Z.ltb_irrefl. repeat case_match; lia. }
  cbn [lex]. rewrite Hp, Hs, !Z.ltb_irrefl.
  pose proof (families_apart x y Hx Hy Hp Hs). pose proof (families_apart y x Hy Hx (eq_sym Hp) (eq_sym Hs)).
  do 2 case_bool_decide; try tauto.
  destruct Hx as (Xs & Xd & _), Hy as (Ys & Yd & _).
  destruct (differences_bits _ _ Xs Xd) as (L1 & W1 & <-), (differences_bits _ _ Ys Yd) as (L2 & W2 & <-).
  rewrite longest_prefix_bits by (done || by rewrite L1, L2). done.
Qed.

Lemma preference_ranks l : Forall prepared l -> ranks preference l.
Proof.
  intros Hl. rewrite list.Forall_forall in Hl.
  assert (Hle : forall x y, x ∈ l -> y ∈ l -> preference x y <= 0 <-> lex (rank x) (rank y) <= 0).
  { intros x y Hx Hy. rewrite <- preference_rank by auto. lia. }
  split.
  - intros a b Ha Hb. rewrite !preference_rank by auto.
    assert (Hlex : forall u v, lex u v = Z.sgn (lex u v)).
    { induction u as [|? u IH]; intros [|? v]; cbn [lex]; try done. by repeat case_match. }
    rewrite (Hlex (rank b)), lex_sgn, <- Hlex. done.
  - intros a b c Ha Hb Hc. rewrite !Hle by done. by apply lex_trans.
Qed.

(** ** The order, of addresses *)

(** An address is in a network. *)
Definition in_net (mask : Z) (net a : list Z) : bool := prefix mask a =? prefix mask net.

Definition as_v6 (sa : sockaddr) : list Z :=
  if bool_decide (family sa = AF_INET) then v4mapped (sin_addr sa) else sin6_addr sa.

(** The value of the first network of a table that an address is in. *)
Definition value_in (tbl : list gai_table) (sa : sockaddr) : option Z :=
  gai_value <$> List.find (fun t => in_net (gai_mask t) (gai_addr t) (as_v6 sa)) tbl.

(** The scope the code goes by: that of the link for all of IPv4 ([inet_scope_link]), and for IPv6 the one of a multicast address, the link
    for fe80::/10 and the loopback address, the site for fec0::/10. *)
Definition scope_of (sa : sockaddr) : Z :=
  let a := sin6_addr sa in
  if bool_decide (family sa = AF_INET) then RFC3484_SCOPE_LINK
  else if in_net 8 (0xff :: replicate 15 0) a then nth 1 a 0 mod 16
  else if in_net 10 (0xfe :: 0x80 :: replicate 14 0) a || bool_decide (a = replicate 15 0 ++ [1]) then RFC3484_SCOPE_LINK
  else if in_net 10 (0xfe :: 0xc0 :: replicate 14 0) a then RFC3484_SCOPE_SITE
  else RFC3484_SCOPE_GLOBAL.

(** The rank of a destination by the kernel's routes alone: there is a route, the scope and the label of the source are its own, the
    precedence, the scope, the bits behind the prefix shared with the source. *)
Definition dst_rank (route : sockaddr -> option sockaddr) (d : sockaddr) : list Z :=
  let s := default sa_zero (route d) in
  [ match route d with Some _ => 0 | None => 1 end;
    if scope_of d =? scope_of s then 0 else 1;
    if bool_decide (value_in gai_labels d = value_in gai_labels s) then 0 else 1;
    - default 0 (value_in gai_precedences d);
    scope_of d;
    if bool_decide (family d = AF_INET) then 0 else host_bits (sin6_addr s) (sin6_addr d) ].

Definition row_ok (t : gai_table) : Prop := length (gai_addr t) = 16%nat /\ Forall is_byte (gai_addr t) /\ 0 <= gai_mask t <= 128.

Lemma as_v6_ok sa : sa_ok sa -> length (as_v6 sa) = 16%nat /\ Forall is_byte (as_v6 sa).
Proof.
  intros (L4 & B4 & L6 & B6). unfold as_v6. case_bool_decide; [|done]. unfold v4mapped. split; [rewrite !length_app, L4; done|].
  apply Forall_app. split; [by apply all_bytes_ok|]. apply Forall_app. split; [by apply all_bytes_ok|done].
Qed.

Lemma in_net_compare mask net a : length a = 16%nat -> Forall is_byte a -> length net = 16%nat -> Forall is_byte net -> 0 <= mask <= 128 ->
  mask_compare a net mask = in_net mask net a.
Proof.
  intros La Ba Ln Bn Hm. apply eq_true_iff_eq. rewrite mask_compare_prefix by done. unfold in_net. by rewrite Z.eqb_eq.
Qed.

Lemma match_value tbl sa : Forall row_ok tbl -> sa_ok sa -> match_gai_table sa tbl = value_in tbl sa.
Proof.
  intros Ht Hs. destruct (as_v6_ok sa Hs) as [La Ba]. unfold match_gai_table, value_in. fold (as_v6 sa).
  induction Ht as [|t tbl (Ln & Bn & Hm) _ IH]; [done|]. cbn [search_gai List.find]. rewrite in_net_compare by done.
  destruct (in_net _ _ _); [done|exact IH].
Qed.

Lemma tables_ok : Forall row_ok gai_labels /\ Forall row_ok gai_precedences.
Proof. split; repeat (apply Forall_cons_2; [split; [done|split; [by apply all_bytes_ok|cbn; lia]]|]); constructor. Qed.

(** A test of all bytes. *)
Lemma byte_cases (f : Z -> bool) : forallb (fun n => f (Z.of_nat n)) (seq 0 256) = true -> forall b, is_byte b -> f b = true.
Proof.
  intros Hf b Hb. unfold is_byte in Hb. rewrite forallb_forall in Hf. specialize (Hf (Z.to_nat b)).
  rewrite Z2Nat.id in Hf by lia. apply Hf, in_seq. lia.
Qed.

Lemma scope_value sa : sa_ok sa -> addr_scope sa = scope_of sa.
Proof.
  intros Hs. destruct (decide (family sa = AF_INET)) as [Hf|Hf].
  { rewrite (inet_scope_link sa Hf). unfold scope_of. by rewrite bool_decide_true. }
  destruct Hs as (_ & _ & L6 & B6). unfold addr_scope, scope_of. rewrite !bool_decide_false by done.
  set (a := sin6_addr sa) in *. clearbody a. rewrite <- !in_net_compare by (done || by apply all_bytes_ok).
  destruct a as [|b0 [|b1 a]]; try done. apply Forall_cons_1 in B6 as [H0 B6]. apply Forall_cons_1 in B6 as [H1 B6].
  unfold mask_compare, IN6_IS_ADDR_MULTICAST, IN6_IS_ADDR_LINKLOCAL, IN6_IS_ADDR_SITELOCAL, IN6_IS_ADDR_LOOPBACK, bytes_eqb, deref.
  change (8 <? 10) with true. change (8 <? 8) with false. change (Z.to_nat (10 / 8)) with 1%nat. change (10 mod 8) with 2.
  cbv iota. cbn [nth take drop replicate negb andb]. change (8 =? 0) with false. change (2 =? 0) with false. change (8 - 8) with 0. change (8 - 2) with 6.
  cbn [negb andb]. rewrite Z.shiftr_0_r.
  assert (E0 : negb (negb (Z.lxor b0 0xff =? 0)) = (b0 =? 0xff)).
  { rewrite negb_involutive. apply eq_true_iff_eq. rewrite !Z.eqb_eq. apply Z.lxor_eq_0_iff. }
  assert (E1 : (Z.shiftr (Z.lxor b1 0x80) 6 =? 0) = (Z.land b1 0xc0 =? 0x80)).
  { apply eqb_prop. by apply (byte_cases (fun b => eqb (Z.shiftr (Z.lxor b 0x80) 6 =? 0) (Z.land b 0xc0 =? 0x80))); [vm_compute|]. }
  assert (E2 : (Z.shiftr (Z.lxor b1 0xc0) 6 =? 0) = (Z.land b1 0xc0 =? 0xc0)).
  { apply eqb_prop. by apply (byte_cases (fun b => eqb (Z.shiftr (Z.lxor b 0xc0) 6 =? 0) (Z.land b 0xc0 =? 0xc0))); [vm_compute|]. }
  assert (E3 : Z.land b1 0xf = b1 mod 16) by (change 0xf with (Z.ones 4); by rewrite Z.land_ones by lia).
  assert (E4 : bool_decide ([b0] = [0xfe]) = (b0 =? 0xfe)) by (destruct (Z.eqb_spec b0 0xfe); case_bool_decide; congruence).
  rewrite E0, E1, E2, E3, E4, !negb_involutive. destruct (b0 =? 0xff); [done|]. by destruct (b0 =? 0xfe).
Qed.

Lemma prepare_rank route d r : sa_ok d -> (forall s, route d = Some s -> sa_ok s) -> prepare_result route d = Some r ->
  dst r = d /\ rank r = dst_rank route d.
Proof.
  intros Hd Hr E. unfold prepare_result in E. destruct tables_ok as [TL TP].
  assert (Hs : sa_ok (default sa_zero (route d))).
  { destruct (route d) eqn:Er; [by apply Hr|]. cbn. split; [done|]. split; [by apply all_bytes_ok|]. split; [done|by apply all_bytes_ok]. }
  cbv zeta in E. rewrite !match_value in E by done. apply bind_Some in E as (p & Ep & E). apply bind_Some in E as (dl & Edl & E).
  apply bind_Some in E as (sl & Esl & E). injection E as <-. split; [done|].
  unfold rank, dst_rank. cbn [reachable dst_scope src_scope dst_label src_label precedence dst src]. rewrite !scope_value by done. rewrite Ep, Edl, Esl. cbn [default].
  assert (E1 : Z.b2z (negb (bool_decide (is_Some (route d)))) = match route d with Some _ => 0 | None => 1 end).
  { destruct (route d); [by rewrite bool_decide_true by done|]. rewrite bool_decide_false; [done|]. by intros []. }
  assert (E2 : Z.b2z (negb (scope_of d =? scope_of (default sa_zero (route d)))) = if scope_of d =? scope_of (default sa_zero (route d)) then 0 else 1)
    by by destruct (_ =? _).
  assert (E3 : Z.b2z (negb (dl =? sl)) = if bool_decide (Some dl = Some sl) then 0 else 1)
    by (destruct (Z.eqb_spec dl sl); destruct (bool_decide_reflect (Some dl = Some sl)); done || congruence).
  by rewrite E1, E2, E3.
Qed.

Lemma prepare_all route dsts : Forall sa_ok dsts -> (forall d s, d ∈ dsts -> route d = Some s -> sa_ok s) ->
  exists l, mapM (prepare_result route) dsts = Some l /\ map dst l = dsts /\ Forall prepared l /\ Forall (fun r => rank r = dst_rank route (dst r)) l.
Proof.
  intros Hd Hr. induction Hd as [|d dsts Hd _ IH]; [by exists []|].
  destruct IH as (l & El & Em & Hl & Hk). { intros ? ? ?. apply Hr. by right. }
  destruct (prepare_total route d) as (r & Er & Ed & Es & Hp & Hs). exists (r :: l).
  destruct (prepare_rank route d r Hd (fun s => Hr d s ltac:(by left)) Er) as [_ Ek].
  cbn [mapM]. rewrite Er. cbn [mbind option_bind]. rewrite El. split; [done|]. split; [by cbn; rewrite Ed, Em|].
  split; [|constructor; [by rewrite Ed|done]].
  constructor; [|done]. unfold prepared. rewrite Ed, Es. split; [|done].
  destruct (route d) eqn:E; [apply (Hr d); [by left|done]|]. cbn.
  split; [done|]. split; [by apply all_bytes_ok|]. split; [done|by apply all_bytes_ok].
Qed.

(** The results are ranked. *)
Lemma sort_ranked `{!QSort} route dsts : Forall sa_ok dsts -> (forall d s, d ∈ dsts -> route d = Some s -> sa_ok s) ->
  exists l, rfc3484_sort_results route dsts = Some l /\ map dst l ≡ₚ dsts /\
  StronglySorted (fun x y => lex (dst_rank route x) (dst_rank route y) <= 0) (map dst l).
Proof.
  intros Hd Hr. destruct (prepare_all route dsts Hd Hr) as (l & El & Em & Hl & Hk).
  exists (qsort rfc3484_compare l). unfold rfc3484_sort_results. rewrite El. split; [done|].
  split; [by rewrite qsort_perm, Em|].
  assert (Hq : Forall prepared (qsort rfc3484_compare l)) by by rewrite qsort_perm.
  assert (Hqk : Forall (fun r => rank r = dst_rank route (dst r)) (qsort rfc3484_compare l)) by by rewrite qsort_perm.
  assert (Hs : cmp_sorted preference (qsort rfc3484_compare l)).
  { apply qsort_sorted; [by apply preference_ranks|]. intros b x y Hn. unfold rfc3484_compare.
    by rewrite (proj2 (Z.eqb_neq _ _)). }
  induction Hs as [|x l' Hs IH Hx]; [constructor|]. apply Forall_cons_1 in Hq as [Px Hq]. apply Forall_cons_1 in Hqk as [Kx Hqk].
  cbn [map]. constructor; [by apply IH|]. rewrite Forall_map.
  apply list.Forall_forall. intros y Hy. rewrite list.Forall_forall in Hx, Hq, Hqk. rewrite <- Kx, <- (Hqk y Hy), <- preference_rank by auto.
  specialize (Hx y Hy). lia.
Qed.

(** C20: [rfc3484_sort_results] always returns, whatever the kernel says of the routes, with exactly the addresses it was given, and no
    address comes before one of a smaller rank.  The rank is computed from the address and the source the kernel has for it alone: whether there
    is a route, whether the scopes and then the labels of the two agree, the precedence, the scope, and the number of bits behind the
    prefix shared with the source.  Scopes are those of RFC 3484 for IPv6, and that of the link for every address of IPv4. *)
Theorem sort_results_ranked `{!QSort} route dsts : Forall sa_ok dsts -> (forall d s, d ∈ dsts -> route d = Some s -> sa_ok s) ->
  exists l, rfc3484_sort_results route dsts = Some l /\ map dst l ≡ₚ dsts /\
  StronglySorted (fun x y => lex (dst_rank route x) (dst_rank route y) <= 0) (map dst l).
Proof. apply sort_ranked. Qed.

(** ** Examples *)

Definition sa_okb (sa : sockaddr) : bool :=
  (length (sin_addr sa) =? 4)%nat && all_bytes (sin_addr sa) && (length (sin6_addr sa) =? 16)%nat && all_bytes (sin6_addr sa).

Lemma sa_okb_ok sa : sa_okb sa = true -> sa_ok sa.
Proof.
  unfold sa_okb, sa_ok. rewrite !andb_true_iff, !Nat.eqb_eq. intros [[[? ?%all_bytes_ok] ?] ?%all_bytes_ok]. done.
Qed.

Definition v4_host : sockaddr := sa_in [8; 8; 8; 8].
Definition v6_host : sockaddr := sa_in6 (0x20 :: 0x01 :: 0x48 :: 0x60 :: replicate 12 1).
Definition v6_near : sockaddr := sa_in6 (0x2a :: 0x00 :: 0x79 :: 0xe0 :: replicate 12 2).
Definition tunnel : sockaddr := sa_in6 (0x20 :: 0x02 :: replicate 14 3).

#[local] Instance sockaddr_eq_dec : EqDecision sockaddr.
Proof. solve_decision. Defined.

(** The host has an address of its own in the network of [v6_near], and one of IPv4. *)
Definition demo_route (d : sockaddr) : option sockaddr :=
  if bool_decide (family d = AF_INET) then Some (sa_in [192; 168; 1; 2])
  else if bool_decide (d = tunnel) then None
  else Some (sa_in6 (0x2a :: 0x00 :: 0x79 :: 0xe0 :: replicate 12 9)).

(** The address next to the source comes first, then the other one of IPv6, then that of IPv4; what cannot be reached
    comes last. *)
Lemma demo_order : (map dst <$> rfc3484_sort_results demo_route [tunnel; v4_host; v6_host; v6_near]) =
  Some [v6_near; v6_host; v4_host; tunnel].
Proof. vm_compute. reflexivity. Qed.

Lemma sort_results_ranked_witness : exists l,
  rfc3484_sort_results demo_route [tunnel; v4_host; v6_host; v6_near] = Some l /\
  map dst l ≡ₚ [tunnel; v4_host; v6_host; v6_near] /\
  StronglySorted (fun x y => lex (dst_rank demo_route x) (dst_rank demo_route y) <= 0) (map dst l).
Proof.
  apply (sort_results_ranked demo_route [tunnel; v4_host; v6_host; v6_near]).
  - repeat (apply Forall_cons_2; [by apply sa_okb_ok|]). constructor.
  - intros d s _. unfold demo_route. repeat case_bool_decide; intros E; inversion E; by apply sa_okb_ok.
Defined.

End ResolvSort.
