(* ===== verification/Gresolv.v ===== *)
(** * The stub resolver (gweb/gresolv.c)

    A lookup sends a query for each family of addresses to every name server, waits for the replies or for
    a timeout of each query, sorts the addresses ([ResolvSort]) and calls back with them.

    Lookups, queries and name servers are objects with an address.  [timers] are the sources of the main loop
    that were added for queries.  What libresolv and the kernel answer during a call is in [env], and whether there is memory for the
    results of a lookup; other memory can be allocated. *)

From S2P Require Import Prelude Inet Buffer Effects Glib ResolvSort.
From stdpp Require Import list gmap sorting.
Open Scope Z_scope.

Module Gresolv.
Import ResolvSort.

Inductive GResolvResultStatus :=
| SUCCESS | ERROR | NO_RESPONSE | FORMAT_ERROR | SERVER_FAILURE | NAME_ERROR | NOT_IMPLEMENTED | REFUSED | NO_ANSWER.

#[global] Instance status_eq_dec : EqDecision GResolvResultStatus.
Proof. solve_decision. Defined.

Inductive ns_type := ns_t_a | ns_t_aaaa.

(** ** State *)

Record resolv_lookup := mk_lookup {
  lk_id : Z;
  results : list sockaddr;       (** the destinations of the results *)
  ipv4_query : option Z;
  ipv6_query : option Z;
  ipv4_status : GResolvResultStatus;
  ipv6_status : GResolvResultStatus;
  result_data : Z;               (** what the callback is called with *)
}.

Record resolv_query := mk_query {
  nr_ns : Z;
  timeout : bool;                (** the identifier of the source is not 0 *)
  msgid : Z;
  q_lookup : Z;
}.

Record resolv_nameserver := mk_ns {
  ns_ptr : Z;
  address : list Z;
  port : Z;
  flags : Z;
  udp_channel : option Z;        (** the socket *)
  udp_watch : bool;
}.

(** An entry of the configuration of libresolv. *)
Record res_entry := mk_entry {
  nsaddr_family : sa_family;
  nsaddr : list Z;
  ext_nsaddr : option (list Z);
}.

Record GResolv := mk_resolv {
  ref_count : Z;
  result_family : sa_family;
  next_lookup_id : Z;
  lookup_queue : list Z;
  query_queue : list Z;
  index : Z;
  nameserver_list : list resolv_nameserver;
  res : list res_entry;
  lookups : gmap Z resolv_lookup;
  queries : gmap Z resolv_query;
  timers : list Z;
  fresh : Z;                     (** addresses from here on are free *)
}.

(** A message of libresolv: the records of the answer, [None] those that cannot be parsed. *)
Record ns_rr := mk_rr { rr_class : Z; rr_type : Z; rr_rdata : list Z }.
Record ns_msg := mk_msg { ns_msg_id : Z; ns_rcode : Z; ns_answers : list (option ns_rr) }.

(** [res_mkquery] fails for names that cannot be written; the buffer then keeps what was on the stack. *)
Record env := mk_env {
  res_mkquery : list Z -> ns_type -> option (list Z);
  stack : list Z;
  ns_initparse : list Z -> option ns_msg;
  connect_udp : list Z -> Z -> option Z;
  inet_ntop : sa_family -> list Z -> option (list Z);
  route : sockaddr -> option sockaddr;
  results_alloc : bool;
}.

Inductive output :=
| To_server (sk : Z) (bytes : list Z)
| Result (data : Z) (status : GResolvResultStatus) (addresses : list (list Z)).

Definition set_ref_count (n : Z) (s : GResolv) : GResolv :=
  mk_resolv n (result_family s) (next_lookup_id s) (lookup_queue s) (query_queue s) (index s) (nameserver_list s) (res s) (lookups s) (queries s) (timers s) (fresh s).
Definition set_result_family (f : sa_family) (s : GResolv) : GResolv :=
  mk_resolv (ref_count s) f (next_lookup_id s) (lookup_queue s) (query_queue s) (index s) (nameserver_list s) (res s) (lookups s) (queries s) (timers s) (fresh s).
Definition set_next_lookup_id (n : Z) (s : GResolv) : GResolv :=
  mk_resolv (ref_count s) (result_family s) n (lookup_queue s) (query_queue s) (index s) (nameserver_list s) (res s) (lookups s) (queries s) (timers s) (fresh s).
Definition set_lookup_queue (l : list Z) (s : GResolv) : GResolv :=
  mk_resolv (ref_count s) (result_family s) (next_lookup_id s) l (query_queue s) (index s) (nameserver_list s) (res s) (lookups s) (queries s) (timers s) (fresh s).
Definition set_query_queue (l : list Z) (s : GResolv) : GResolv :=
  mk_resolv (ref_count s) (result_family s) (next_lookup_id s) (lookup_queue s) l (index s) (nameserver_list s) (res s) (lookups s) (queries s) (timers s) (fresh s).
Definition set_nameservers (l : list resolv_nameserver) (s : GResolv) : GResolv :=
  mk_resolv (ref_count s) (result_family s) (next_lookup_id s) (lookup_queue s) (query_queue s) (index s) l (res s) (lookups s) (queries s) (timers s) (fresh s).
Definition set_lookups (h : gmap Z resolv_lookup) (s : GResolv) : GResolv :=
  mk_resolv (ref_count s) (result_family s) (next_lookup_id s) (lookup_queue s) (query_queue s) (index s) (nameserver_list s) (res s) h (queries s) (timers s) (fresh s).
Definition set_queries (h : gmap Z resolv_query) (s : GResolv) : GResolv :=
  mk_resolv (ref_count s) (result_family s) (next_lookup_id s) (lookup_queue s) (query_queue s) (index s) (nameserver_list s) (res s) (lookups s) h (timers s) (fresh s).
Definition set_timers (l : list Z) (s : GResolv) : GResolv :=
  mk_resolv (ref_count s) (result_family s) (next_lookup_id s) (lookup_queue s) (query_queue s) (index s) (nameserver_list s) (res s) (lookups s) (queries s) l (fresh s).
Definition set_fresh (n : Z) (s : GResolv) : GResolv :=
  mk_resolv (ref_count s) (result_family s) (next_lookup_id s) (lookup_queue s) (query_queue s) (index s) (nameserver_list s) (res s) (lookups s) (queries s) (timers s) n.

Definition with_results (r : list sockaddr) (l : resolv_lookup) : resolv_lookup :=
  mk_lookup (lk_id l) r (ipv4_query l) (ipv6_query l) (ipv4_status l) (ipv6_status l) (result_data l).
Definition with_queries (q4 q6 : option Z) (l : resolv_lookup) : resolv_lookup :=
  mk_lookup (lk_id l) (results l) q4 q6 (ipv4_status l) (ipv6_status l) (result_data l).
Definition with_statuses (s4 s6 : GResolvResultStatus) (l : resolv_lookup) : resolv_lookup :=
  mk_lookup (lk_id l) (results l) (ipv4_query l) (ipv6_query l) s4 s6 (result_data l).

Definition with_nr_ns (n : Z) (q : resolv_query) : resolv_query := mk_query n (timeout q) (msgid q) (q_lookup q).
Definition with_timeout (t : bool) (q : resolv_query) : resolv_query := mk_query (nr_ns q) t (msgid q) (q_lookup q).

Definition M (A : Type) : Type := pprog GResolv output A.

(** The objects behind pointers; a pointer to memory that was freed fails. *)
Definition load_lookup (p : Z) : M resolv_lookup := fun s => l ← lookups s !! p; Some (l, s, []).
Definition load_query (p : Z) : M resolv_query := fun s => q ← queries s !! p; Some (q, s, []).
Definition store_lookup (p : Z) (l : resolv_lookup) : M unit := load_lookup p;; pmodify (fun s => set_lookups (<[p := l]> (lookups s)) s).
Definition store_query (p : Z) (q : resolv_query) : M unit := load_query p;; pmodify (fun s => set_queries (<[p := q]> (queries s)) s).

Definition emit_all (o : list output) : M unit := fun s => Some (tt, s, o).

Definition alloc : M Z := p ← pget fresh; pmodify (set_fresh (p + 1));; mret p.

Definition queue_remove_query (q : Z) : M unit := pmodify (fun s => set_query_queue (g_list_remove q (query_queue s)) s).
Definition queue_remove_lookup (l : Z) : M unit := pmodify (fun s => set_lookup_queue (g_list_remove l (lookup_queue s)) s).

(** ** Destruction *)

Definition destroy_query (q : Z) : M unit :=
  x ← load_query q;
  (if timeout x then pmodify (fun s => set_timers (g_list_remove q (timers s)) s) else pskip);;
  pmodify (fun s => set_queries (delete q (queries s)) s).

Definition drop_query (q : option Z) : M unit :=
  match q with
  | Some q => queue_remove_query q;; destroy_query q
  | None => pskip
  end.

Definition destroy_lookup (p : Z) : M unit :=
  l ← load_lookup p;
  drop_query (ipv4_query l);;
  drop_query (ipv6_query l);;
  pmodify (fun s => set_lookups (delete p (lookups s)) s).

Section resolv.
Context `{!QSort} (e : env).

(** ** Results *)

(** The text of an address; [None] is left out. *)
Definition result_text (d : sockaddr) : option (list Z) :=
  match family d with
  | AF_INET => inet_ntop e AF_INET (sin_addr d)
  | AF_INET6 => inet_ntop e AF_INET6 (sin6_addr d)
  | AF_UNSPEC => None
  end.

Definition result_status (f : sa_family) (l : resolv_lookup) : GResolvResultStatus :=
  match f with
  | AF_INET => ipv4_status l
  | AF_INET6 => ipv6_status l
  | AF_UNSPEC => if bool_decide (ipv6_status l = SUCCESS) then ipv6_status l else ipv4_status l
  end.

Definition sort_and_return_results (p : Z) : M unit :=
  l ← load_lookup p;
  if negb (results_alloc e) then pskip
  else
  sorted ← plift (rfc3484_sort_results (route e) (results l));
  let texts := omap (fun r => result_text (dst r)) sorted in
  f ← pget result_family;
  let status := result_status f l in
  queue_remove_lookup p;;
  destroy_lookup p;;
  pemit (Result (result_data l) status texts).

Definition finish_lookup (p : Z) : M unit :=
  l ← load_lookup p;
  match ipv4_query l, ipv6_query l with
  | None, None => sort_and_return_results p
  | _, _ => pskip
  end.

(** The timer of a query; the main loop removes the source. *)
Definition query_timeout (q : Z) : M unit :=
  pmodify (fun s => set_timers (g_list_remove q (timers s)) s);;
  x ← load_query q;
  let p := q_lookup x in
  store_query q (with_timeout false x);;
  l ← load_lookup p;
  (if bool_decide (ipv4_query l = Some q) then
     store_lookup p (with_queries None (ipv6_query l) (with_statuses NO_RESPONSE (ipv6_status l) l))
   else if bool_decide (ipv6_query l = Some q) then
     store_lookup p (with_queries (ipv4_query l) None (with_statuses (ipv4_status l) NO_RESPONSE l))
   else pskip);;
  queue_remove_query q;;
  destroy_query q;;
  finish_lookup p.

(** ** Replies *)

(** The outer [None]: an element of the queue has been freed. *)
Fixpoint find_query (h : gmap Z resolv_query) (id : Z) (l : list Z) : option (option Z) :=
  match l with
  | [] => Some None
  | q :: l => x ← h !! q; if msgid x =? id then Some (Some q) else find_query h id l
  end.

Definition status_of_rcode (rcode : Z) (count : nat) : GResolvResultStatus :=
  if rcode =? 0 then if (0 <? count)%nat then SUCCESS else NO_ANSWER
  else if rcode =? 1 then FORMAT_ERROR
  else if rcode =? 2 then SERVER_FAILURE
  else if rcode =? 3 then NAME_ERROR
  else if rcode =? 4 then NOT_IMPLEMENTED
  else if rcode =? 5 then REFUSED
  else ERROR.

Definition ns_c_in : Z := 1.

(** The address a record holds. *)
Definition answer_of (r : option ns_rr) : option sockaddr :=
  match r with
  | None => None
  | Some rr =>
      if negb (rr_class rr =? ns_c_in) then None
      else if (rr_type rr =? 1) && (length (rr_rdata rr) =? 4)%nat then Some (sa_in (rr_rdata rr))
      else if (rr_type rr =? 28) && (length (rr_rdata rr) =? 16)%nat then Some (sa_in6 (rr_rdata rr))
      else None
  end.

Definition add_results (answers : list (option ns_rr)) (l : resolv_lookup) : resolv_lookup :=
  with_results (results l ++ omap answer_of answers) l.

Definition note_status (q : Z) (status : GResolvResultStatus) (l : resolv_lookup) : resolv_lookup :=
  if bool_decide (ipv6_query l = Some q) then with_statuses (ipv4_status l) status l
  else if bool_decide (ipv4_query l = Some q) then with_statuses status (ipv6_status l) l
  else l.

Definition clear_query (q : Z) (l : resolv_lookup) : resolv_lookup :=
  if bool_decide (ipv6_query l = Some q) then with_queries (ipv4_query l) None l else with_queries None (ipv6_query l) l.

Definition parse_response (buf : list Z) : M unit :=
  match ns_initparse e buf with
  | None => pskip
  | Some msg =>
      s ← pget id;
      found ← plift (find_query (queries s) (ns_msg_id msg) (query_queue s));
      match found with
      | None => pskip
      | Some q =>
          let status := status_of_rcode (ns_rcode msg) (length (ns_answers msg)) in
          x ← load_query q;
          let x := with_nr_ns (nr_ns x - 1) x in
          store_query q x;;
          let p := q_lookup x in
          l ← load_lookup p;
          let l := add_results (ns_answers msg) (note_status q status l) in
          store_lookup p l;;
          if negb (bool_decide (status = SUCCESS)) && (0 <? nr_ns x) then pskip
          else
            store_lookup p (clear_query q l);;
            queue_remove_query q;;
            destroy_query q;;
            finish_lookup p
      end
  end.

Definition load_nameserver (ns : Z) : M resolv_nameserver :=
  l ← pget nameserver_list; plift (List.find (fun n => ns_ptr n =? ns) l).

(** [error]: the condition has one of the bits for errors; [buf] is what was received. *)
Definition received_udp_data (ns : Z) (error : bool) (buf : list Z) : M unit :=
  load_nameserver ns;;
  if error then
    pmodify (fun s => set_nameservers (map (fun n => if ns_ptr n =? ns then mk_ns (ns_ptr n) (address n) (port n) (flags n) (udp_channel n) false else n) (nameserver_list s)) s)
  else if (length buf <? 12)%nat then pskip
  else parse_response buf.

(** ** Name servers *)

Definition g_resolv_add_nameserver (addr : list Z) (prt flgs : Z) : M bool :=
  match connect_udp e addr prt with
  | None => mret false
  | Some sk =>
      p ← alloc;
      pmodify (fun s => set_nameservers (nameserver_list s ++ [mk_ns p addr prt flgs (Some sk) true]) s);;
      mret true
  end.

Definition g_resolv_flush_nameservers : M unit := pmodify (set_nameservers []).

Definition ENOENT : Z := 2.
Definition EIO : Z := 5.

(** [bytes] is [None] if the length is negative: nothing is sent. *)
Definition send_query (bytes : option (list Z)) : M Z :=
  l ← pget nameserver_list;
  match l with
  | [] => mret (- ENOENT)
  | _ =>
      emit_all (omap (fun n => sk ← udp_channel n; b ← bytes; Some (To_server sk b)) l);;
      mret (Z.of_nat (length l))
  end.

(** ** Lookups *)

Definition add_query (p : Z) (hostname : list Z) (type : ns_type) : M Z :=
  let sent := res_mkquery e hostname type in
  let buf := default (stack e) sent in
  n ← send_query sent;
  if n <=? 0 then mret (- EIO)
  else
    q ← alloc;
    pmodify (fun s => set_queries (<[q := mk_query n true (Z.lor (Z.shiftl (nth 0 buf 0) 8) (nth 1 buf 0)) p]> (queries s)) s);;
    pmodify (fun s => set_query_queue (query_queue s ++ [q]) s);;
    pmodify (fun s => set_timers (q :: timers s) s);;
    l ← load_lookup p;
    store_lookup p (match type with
                    | ns_t_aaaa => with_queries (ipv4_query l) (Some q) l
                    | ns_t_a => with_queries (Some q) (ipv6_query l) l
                    end);;
    mret 0.

Definition res_nameserver (r : res_entry) : M unit :=
  let '(family, addr) :=
    match nsaddr_family r, ext_nsaddr r with
    | AF_INET, _ => (AF_INET, nsaddr r)
    | _, Some a => (AF_INET6, a)
    | f, None => (f, nsaddr r)
    end in
  match family with
  | AF_UNSPEC => pskip
  | _ =>
      match inet_ntop e family addr with
      | Some text => g_resolv_add_nameserver text 53 0;; pskip
      | None => pskip
      end
  end.

Fixpoint res_nameservers (l : list res_entry) : M unit :=
  match l with
  | [] => pskip
  | r :: l => res_nameserver r;; res_nameservers l
  end.

(** 127.0.0.1 *)
Definition localhost : list Z := [49; 50; 55; 46; 48; 46; 48; 46; 49].

Definition default_nameservers : M unit :=
  l ← pget nameserver_list;
  match l with
  | [] =>
      r ← pget res;
      res_nameservers r;;
      l ← pget nameserver_list;
      match l with
      | [] => g_resolv_add_nameserver localhost 53 0;; pskip
      | _ => pskip
      end
  | _ => pskip
  end.

Definition free_lookup (p : Z) : M unit := load_lookup p;; pmodify (fun s => set_lookups (delete p (lookups s)) s).

Definition g_resolv_lookup_hostname (hostname : list Z) (data : Z) : M Z :=
  default_nameservers;;
  p ← alloc;
  id ← pget next_lookup_id;
  pmodify (set_next_lookup_id (u32 (id + 1)));;
  pmodify (fun s => set_lookups (<[p := mk_lookup id [] None None SUCCESS SUCCESS data]> (lookups s)) s);;
  f ← pget result_family;
  r4 ← (if bool_decide (f <> AF_INET6) then add_query p hostname ns_t_a else mret 0);
  if negb (r4 =? 0) then free_lookup p;; mret (u32 (- EIO))
  else
    r6 ← (if bool_decide (f <> AF_INET) then add_query p hostname ns_t_aaaa else mret 0);
    if negb (r6 =? 0) then
      (if bool_decide (f <> AF_INET6) then l ← load_lookup p; drop_query (ipv4_query l) else pskip);;
      free_lookup p;;
      mret (u32 (- EIO))
    else
      pmodify (fun s => set_lookup_queue (lookup_queue s ++ [p]) s);;
      mret id.

Fixpoint find_lookup (h : gmap Z resolv_lookup) (id : Z) (l : list Z) : option (option Z) :=
  match l with
  | [] => Some None
  | p :: l => x ← h !! p; if lk_id x =? id then Some (Some p) else find_lookup h id l
  end.

Definition g_resolv_cancel_lookup (lid : Z) : M bool :=
  s ← pget id;
  found ← plift (find_lookup (lookups s) lid (lookup_queue s));
  match found with
  | None => mret false
  | Some p =>
      queue_remove_lookup p;;
      destroy_lookup p;;
      mret true
  end.

Definition g_resolv_set_address_family (f : sa_family) : M bool := pmodify (set_result_family f);; mret true.

(** ** The resolver *)

Definition g_resolv_new (idx : Z) (conf : list res_entry) : option GResolv :=
  if idx <? 0 then None else Some (mk_resolv 1 AF_UNSPEC 1 [] [] idx [] conf ∅ ∅ [] 1).

Definition g_resolv_ref : M unit := pmodify (fun s => set_ref_count (s32 (ref_count s + 1)) s).

(** The loops take the heads of the queues until they are empty; destroying a lookup takes queries out of the
    other queue only. *)
Fixpoint destroy_lookups (l : list Z) : M unit :=
  match l with
  | [] => pskip
  | p :: l => pmodify (set_lookup_queue l);; destroy_lookup p;; destroy_lookups l
  end.

Fixpoint destroy_queries (l : list Z) : M unit :=
  match l with
  | [] => pskip
  | q :: l => pmodify (set_query_queue l);; destroy_query q;; destroy_queries l
  end.

Definition g_resolv_unref : M unit :=
  n ← pget ref_count;
  pmodify (set_ref_count (s32 (n - 1)));;
  if negb (n =? 1) then pskip
  else
    l ← pget lookup_queue;
    destroy_lookups l;;
    q ← pget query_queue;
    destroy_queries q;;
    g_resolv_flush_nameservers.

End resolv.

End Gresolv.
