(* ===== verification/GresolvProps.v ===== *)
(** * Lookups are answered (gweb/gresolv.c)

    The pointers between lookups, queries, queues and timers stay consistent whatever arrives and in whatever
    order; every lookup that was accepted is answered exactly once unless it is cancelled, at the latest when the
    timers of its queries have fired. *)

From S2P Require Import Prelude Inet Buffer Effects Glib ResolvSort Gresolv.
From stdpp Require Import list gmap sorting.
Open Scope Z_scope.

Module GresolvProps.
Import ResolvSort Gresolv.

(** ** The invariant *)

Definition owns (l : resolv_lookup) (q : Z) : Prop := ipv4_query l = Some q \/ ipv6_query l = Some q.

Section roomy.

(** There has been memory for the results of every lookup; without it a lookup may stay behind without queries. *)
Context (roomy : bool).

(** [b] is a lookup a handler is working on: it may lie outside of the queue and be without queries. *)
Record inv (b : option Z) (s : GResolv) : Prop := {
  inv_lq : NoDup (lookup_queue s);
  inv_qq : NoDup (query_queue s);
  inv_tm : NoDup (timers s);
  inv_lookup p : p ∈ lookup_queue s -> is_Some (lookups s !! p);
  inv_queued p : is_Some (lookups s !! p) -> p ∈ lookup_queue s \/ b = Some p;
  inv_query q : q ∈ query_queue s <-> is_Some (queries s !! q);
  inv_timer q : q ∈ timers s <-> is_Some (queries s !! q);
  inv_armed q x : queries s !! q = Some x -> timeout x = true /\ exists l, lookups s !! q_lookup x = Some l /\ owns l q;
  inv_owns p l q : lookups s !! p = Some l -> owns l q -> exists x, queries s !! q = Some x /\ q_lookup x = p;
  inv_busy p l : lookups s !! p = Some l -> b = Some p \/ (exists q, owns l q) \/ roomy = false;
  inv_apart p l q : lookups s !! p = Some l -> ipv4_query l = Some q -> ipv6_query l <> Some q;
  inv_fresh_l p : is_Some (lookups s !! p) -> p < fresh s;
  inv_fresh_q q : is_Some (queries s !! q) -> q < fresh s;
}.

(** The lookups that wait for an answer, by what their callbacks are called with. *)
Definition pending (s : GResolv) : list Z := omap (fun p => result_data <$> lookups s !! p) (lookup_queue s).

Definition answered (o : list output) : list Z :=
  omap (fun x => match x with Result d _ _ => Some d | To_server _ _ => None end) o.

(** ** Pieces of handlers *)

(** The query [q] is gone, and its lookup [p] has become [l]. *)
Definition released (q p : Z) (l : resolv_lookup) (s : GResolv) : GResolv :=
  set_timers (g_list_remove q (timers s)) (set_queries (delete q (queries s))
    (set_query_queue (g_list_remove q (query_queue s)) (set_lookups (<[p := l]> (lookups s)) s))).

(** The lookup without the query [q]. *)
Definition without (q : Z) (l l' : resolv_lookup) : Prop :=
  result_data l' = result_data l /\
  (ipv4_query l = Some q /\ ipv4_query l' = None /\ ipv6_query l' = ipv6_query l \/
   ipv6_query l = Some q /\ ipv6_query l' = None /\ ipv4_query l' = ipv4_query l).

Lemma without_owns q l l' : without q l l' -> (ipv4_query l = Some q -> ipv6_query l <> Some q) ->
  forall q', owns l' q' <-> owns l q' /\ q' <> q.
Proof.
  intros [_ [(E1 & E2 & E3)|(E1 & E2 & E3)]] Ha q'; unfold owns; rewrite E2, E3, E1 in *; split.
  - intros [|H]; [done|]. split; [by right|]. intros ->. by destruct (Ha eq_refl).
  - intros [[[= ->]|] ?]; [done|by right].
  - intros [H|]; [|done]. split; [by left|]. intros ->. by destruct (Ha H).
  - intros [[|[= ->]] ?]; [by left|done].
Qed.

Lemma released_inv b q p x l l' s : inv b s -> queries s !! q = Some x -> q_lookup x = p -> lookups s !! p = Some l ->
  b = None \/ b = Some p -> without q l l' -> inv (Some p) (released q p l' s).
Proof.
  intros Hi Hx Hp Hl Hb Hw. pose proof (without_owns q l l' Hw (inv_apart _ _ Hi p l q Hl)) as Ho.
  assert (Hbp : forall p', b = Some p' -> p' = p) by (destruct Hb; congruence).
  split; cbn [released set_timers set_queries set_query_queue set_lookups lookup_queue query_queue timers lookups queries fresh].
  - apply (inv_lq _ _ Hi).
  - apply NoDup_g_list_remove, (inv_qq _ _ Hi).
  - apply NoDup_g_list_remove, (inv_tm _ _ Hi).
  - intros p' Hq. destruct (decide (p' = p)) as [->|]; [by rewrite lookup_insert_eq|].
    rewrite lookup_insert_ne by done. by apply (inv_lookup _ _ Hi).
  - intros p'. destruct (decide (p' = p)) as [->|]; [by right|]. rewrite lookup_insert_ne by done.
    intros [?|E]%(inv_queued _ _ Hi); [by left|]. by apply Hbp in E.
  - intros q'. rewrite elem_of_g_list_remove by apply (inv_qq _ _ Hi). rewrite lookup_delete_is_Some.
    rewrite (inv_query _ _ Hi). split; intros [? ?]; auto.
  - intros q'. rewrite elem_of_g_list_remove by apply (inv_tm _ _ Hi). rewrite lookup_delete_is_Some.
    rewrite (inv_timer _ _ Hi). split; intros [? ?]; auto.
  - intros q' x' [Hne Hx']%lookup_delete_Some. destruct (inv_armed _ _ Hi q' x' Hx') as (Ht & m & Hm & Hom).
    split; [done|]. destruct (decide (q_lookup x' = p)) as [E|].
    + rewrite E, lookup_insert_eq. exists l'. split; [done|]. apply Ho. split; [|done]. rewrite E in Hm. by simplify_eq.
    + exists m. by rewrite lookup_insert_ne by done.
  - intros p' m q' Hm Hom. destruct (decide (p' = p)) as [->|].
    + rewrite lookup_insert_eq in Hm. simplify_eq. apply Ho in Hom as [Hom Hne].
      rewrite lookup_delete_ne by done. by apply (inv_owns _ _ Hi _ l).
    + rewrite lookup_insert_ne in Hm by done. destruct (inv_owns _ _ Hi p' m q' Hm Hom) as (y & Hy & Ey).
      exists y. rewrite lookup_delete_ne; [done|]. intros ->. congruence.
  - intros p' m. destruct (decide (p' = p)) as [->|]; [by left|]. rewrite lookup_insert_ne by done. intros Hm.
    destruct (inv_busy _ _ Hi p' m Hm) as [E|]; [by apply Hbp in E|by right].
  - intros p' m q' Hm. destruct (decide (p' = p)) as [->|].
    + rewrite lookup_insert_eq in Hm. simplify_eq. destruct Hw as [_ [(E1 & E2 & E3)|(E1 & E2 & E3)]]; congruence.
    + rewrite lookup_insert_ne in Hm by done. by apply (inv_apart _ _ Hi p').
  - intros p'. destruct (decide (p' = p)) as [->|]; [|rewrite lookup_insert_ne by done; apply (inv_fresh_l _ _ Hi)].
    intros _. apply (inv_fresh_l _ _ Hi). by rewrite Hl.
  - intros q' [_ Hq]%lookup_delete_is_Some. by apply (inv_fresh_q _ _ Hi).
Qed.

(** Clearing the pointer of [p] to a query and destroying the query. *)
Definition release (q p : Z) (l : resolv_lookup) : M unit := store_lookup p l;; queue_remove_query q;; destroy_query q.

Lemma load_lookup_run p l s : lookups s !! p = Some l -> load_lookup p s = Some (l, s, []).
Proof. intros E. unfold load_lookup. by rewrite E. Qed.

Lemma load_query_run q x s : queries s !! q = Some x -> load_query q s = Some (x, s, []).
Proof. intros E. unfold load_query. by rewrite E. Qed.

Lemma store_lookup_run p l l' s : lookups s !! p = Some l ->
  store_lookup p l' s = Some (tt, set_lookups (<[p := l']> (lookups s)) s, []).
Proof. intros E. unfold store_lookup. by apply (bind_next _ _ _ _ _ _ (load_lookup_run p l s E)). Qed.

Lemma store_query_run q x x' s : queries s !! q = Some x ->
  store_query q x' s = Some (tt, set_queries (<[q := x']> (queries s)) s, []).
Proof. intros E. unfold store_query. by apply (bind_next _ _ _ _ _ _ (load_query_run q x s E)). Qed.

(** The query and its timer are gone. *)
Definition killed (q : Z) (s : GResolv) : GResolv :=
  set_queries (delete q (queries s)) (set_timers (g_list_remove q (timers s)) s).

Lemma destroy_query_run q x s : queries s !! q = Some x -> timeout x = true -> destroy_query q s = Some (tt, killed q s, []).
Proof.
  intros E Ht. unfold destroy_query. apply (bind_next _ _ _ _ _ _ (load_query_run q x s E)). by rewrite Ht.
Qed.

(** ** The end of a lookup *)

Lemma sort_total `{!QSort} route dsts : exists l, rfc3484_sort_results route dsts = Some l.
Proof.
  unfold rfc3484_sort_results. assert (exists l, mapM (prepare_result route) dsts = Some l) as [l ->]; [|by eexists].
  induction dsts as [|d dsts [l IH]]; [by exists []|]. destruct (prepare_total route d) as (r & Er & _).
  exists (r :: l). cbn [mapM]. rewrite Er. cbn [mbind option_bind]. by rewrite IH.
Qed.

Definition removed (p : Z) (s : GResolv) : GResolv :=
  set_lookups (delete p (lookups s)) (set_lookup_queue (g_list_remove p (lookup_queue s)) s).

Lemma removed_inv p l s : inv (Some p) s -> lookups s !! p = Some l -> (forall q, ~ owns l q) -> inv None (removed p s).
Proof.
  intros Hi Hl Hn. split; cbn [removed set_lookup_queue set_lookups lookup_queue query_queue timers lookups queries fresh].
  - apply NoDup_g_list_remove, (inv_lq _ _ Hi).
  - apply (inv_qq _ _ Hi).
  - apply (inv_tm _ _ Hi).
  - intros p'. rewrite elem_of_g_list_remove by apply (inv_lq _ _ Hi). intros [Hp Hne].
    rewrite lookup_delete_ne by done. by apply (inv_lookup _ _ Hi).
  - intros p' [Hne Hp]%lookup_delete_is_Some. left. rewrite elem_of_g_list_remove by apply (inv_lq _ _ Hi).
    split; [|done]. apply (inv_queued _ _ Hi) in Hp as [|]; [done|congruence].
  - apply (inv_query _ _ Hi).
  - apply (inv_timer _ _ Hi).
  - intros q x Hx. destruct (inv_armed _ _ Hi q x Hx) as (Ht & m & Hm & Ho). split; [done|]. exists m. split; [|done].
    rewrite lookup_delete_ne; [done|]. intros E. assert (m = l) as -> by congruence. by destruct (Hn q).
  - intros p' m q [_ Hm]%lookup_delete_Some. by apply (inv_owns _ _ Hi).
  - intros p' m [Hne Hm]%lookup_delete_Some. right. destruct (inv_busy _ _ Hi p' m Hm) as [|]; [congruence|done].
  - intros p' m q [_ Hm]%lookup_delete_Some. by apply (inv_apart _ _ Hi p').
  - intros p' [_ Hp]%lookup_delete_is_Some. by apply (inv_fresh_l _ _ Hi).
  - apply (inv_fresh_q _ _ Hi).
Qed.

(** The queue of lookups after one of them has been taken out. *)
Lemma pending_split (h : gmap Z resolv_lookup) p l (q : list Z) : NoDup q -> p ∈ q -> h !! p = Some l ->
  omap (fun p => result_data <$> h !! p) q ≡ₚ
  result_data l :: omap (fun p' => result_data <$> delete p h !! p') (g_list_remove p q).
Proof.
  intros Hd Hp Hl. induction Hd as [|p' q Hn Hd IH]; [by apply not_elem_of_nil in Hp|].
  cbn [g_list_remove]. destruct (decide (p = p')) as [<-|Hne].
  - cbn [omap list_omap]. rewrite Hl. cbn. f_equiv. clear -Hn. induction q as [|y q IH]; [done|].
    apply not_elem_of_cons in Hn as [Hy Hn]. cbn [omap list_omap]. rewrite lookup_delete_ne by done.
    destruct (h !! y); cbn; [f_equiv|]; by apply IH.
  - apply elem_of_cons in Hp as [|Hp]; [done|]. specialize (IH Hp). cbn [omap list_omap].
    rewrite (lookup_delete_ne h p p') by done. destruct (h !! p') as [m|]; cbn; [|done].
    change (list_omap Z Z) with (@omap list _ Z Z). rewrite IH. constructor.
Qed.

Lemma removed_pending p l s b : inv b s -> lookups s !! p = Some l -> p ∈ lookup_queue s ->
  pending s ≡ₚ result_data l :: pending (removed p s).
Proof. intros Hi Hl Hp. by apply pending_split; [apply (inv_lq _ _ Hi)|..]. Qed.

Lemma settle p l q s : inv (Some p) s -> p ∈ lookup_queue s -> lookups s !! p = Some l -> owns l q -> inv None s.
Proof.
  intros Hi Hp Hl Ho. destruct Hi as [? ? ? ? Hq ? ? ? ? Hb ? ? ?]. split; try done.
  - intros p' Hs. left. destruct (Hq p' Hs) as [|[= <-]]; done.
  - intros p' m Hm. right. destruct (Hb p' m Hm) as [[= <-]|]; [|done]. simplify_eq. left. by exists q.
Qed.

(** ** Lookups that are dropped *)

Lemma inv_weaken p s : inv None s -> inv (Some p) s.
Proof.
  intros [? ? ? ? Hq ? ? ? ? Hb ? ? ?]. split; try done.
  - intros p' Hp. destruct (Hq p' Hp); [by left|done].
  - intros p' m Hm. destruct (Hb p' m Hm); [done|by right].
Qed.

(** The lookup [p] has become [l], and [q] is gone if it is there. *)
Definition cleared (q : option Z) (p : Z) (l : resolv_lookup) (s : GResolv) : GResolv :=
  match q with
  | Some q => released q p l s
  | None => set_lookups (<[p := l]> (lookups s)) s
  end.

Lemma cleared_inv q p l l' s : inv (Some p) s -> lookups s !! p = Some l ->
  (forall q', q = Some q' -> without q' l l') -> (q = None -> l' = l) -> inv (Some p) (cleared q p l' s).
Proof.
  intros Hi Hl Hw Hn. destruct q as [q|]; cbn [cleared].
  - specialize (Hw q eq_refl). assert (Ho : owns l q) by (destruct Hw as [_ [(? & _)|(? & _)]]; [by left|by right]).
    destruct (inv_owns _ _ Hi p l q Hl Ho) as (x & Hx & Ex). apply (released_inv (Some p) q p x l l' s); auto.
  - rewrite (Hn eq_refl), insert_id by done. by destruct s.
Qed.

(** The state after a lookup has been dropped. *)
Definition dropped (p : Z) (l : resolv_lookup) (s : GResolv) : GResolv :=
  removed p (cleared (ipv6_query l) p (with_queries None None l) (cleared (ipv4_query l) p (with_queries None (ipv6_query l) l) s)).

Lemma dropped_inv p l s : inv None s -> lookups s !! p = Some l -> inv None (dropped p l s).
Proof.
  intros Hi Hl. assert (Ha : forall q, ipv4_query l = Some q -> ipv6_query l <> Some q) by (intros q; by apply (inv_apart _ _ Hi p)).
  unfold dropped. set (s1 := cleared (ipv4_query l) _ _ _). set (l1 := with_queries None (ipv6_query l) l).
  assert (Hl1 : lookups s1 !! p = Some l1).
  { unfold s1, cleared. destruct (ipv4_query l); cbn; by rewrite lookup_insert_eq. }
  assert (Hi1 : inv (Some p) s1).
  { apply (cleared_inv _ p l); [by apply inv_weaken|done|..].
    - intros q E. split; [done|left]. done.
    - intros E. destruct l; cbn in *. by rewrite E. }
  apply (removed_inv p (with_queries None None l)).
  - apply (cleared_inv _ p l1); [done..| |].
    + intros q E. split; [done|right]. done.
    + intros E. unfold l1. by rewrite E.
  - unfold cleared. destruct (ipv6_query l); cbn; by rewrite lookup_insert_eq.
  - intros q [|]; done.
Qed.

Lemma dropped_pending p l s : inv None s -> lookups s !! p = Some l -> p ∈ lookup_queue s ->
  pending s ≡ₚ result_data l :: pending (dropped p l s).
Proof.
  intros Hi Hl Hp. rewrite (removed_pending p l s None Hi Hl Hp).
  enough (pending (removed p s) = pending (dropped p l s)) as -> by done.
  unfold pending, dropped, removed. cbn [set_lookups set_lookup_queue lookups lookup_queue].
  unfold cleared. by destruct (ipv6_query l), (ipv4_query l); cbn; rewrite ?delete_insert_eq.
Qed.

Lemma drop_query_run q s : (forall q', q = Some q' -> exists x, queries s !! q' = Some x /\ timeout x = true) ->
  drop_query q s = Some (tt, match q with Some q => killed q (set_query_queue (g_list_remove q (query_queue s)) s) | None => s end, []).
Proof.
  intros Hq. destruct q as [q|]; [|done]. destruct (Hq q eq_refl) as (x & Hx & Ht). cbn [drop_query].
  eapply bind_next; [done|]. by eapply destroy_query_run.
Qed.

(** Taking a lookup out of the queue and destroying it. *)
Lemma drop_run p l s : inv None s -> lookups s !! p = Some l ->
  destroy_lookup p (set_lookup_queue (g_list_remove p (lookup_queue s)) s) = Some (tt, dropped p l s, []).
Proof.
  intros Hi Hl. assert (Ho : forall q, owns l q -> exists x, queries s !! q = Some x /\ timeout x = true).
  { intros q Hq. destruct (inv_owns _ _ Hi p l q Hl Hq) as (x & Hx & _). exists x. split; [done|]. by destruct (inv_armed _ _ Hi q x Hx). }
  unfold destroy_lookup. eapply bind_next; [by apply load_lookup_run|].
  eapply bind_next.
  { apply drop_query_run. intros q E. apply Ho. by left. }
  eapply bind_next.
  { apply drop_query_run. intros q E. destruct (Ho q (or_intror E)) as (x & Hx & Ht). exists x. split; [|done].
    destruct (ipv4_query l) as [q4|] eqn:E4; [|done]. cbn. rewrite lookup_delete_ne; [done|].
    intros <-. by destruct (inv_apart _ _ Hi p l q4 Hl E4). }
  unfold pmodify, dropped, cleared, removed, released, killed. by destruct (ipv4_query l), (ipv6_query l); cbn; rewrite ?delete_insert_eq.
Qed.

(** A lookup stays behind without queries. *)
Lemma stuck_inv p s : roomy = false -> inv (Some p) s -> p ∈ lookup_queue s -> inv None s.
Proof.
  intros Hr Hi Hp. destruct Hi. split; try done.
  - intros p' Hs. destruct (inv_queued0 p' Hs) as [|[= <-]]; by left.
  - intros p' m Hm. by right; right.
Qed.

Section handlers.
Context `{!QSort} (e : env) (Hroom : roomy = true -> results_alloc e = true).

Lemma finish_run p l s : inv (Some p) s -> lookups s !! p = Some l -> p ∈ lookup_queue s ->
  returns (finish_lookup e p) s (fun _ s' o => inv None s' /\ pending s ≡ₚ pending s' ++ answered o /\ timers s' = timers s /\ ref_count s' = ref_count s).
Proof.
  intros Hi Hl Hp. unfold finish_lookup. apply (returns_step _ _ _ _ _ _ (load_lookup_run p l s Hl)).
  destruct (ipv4_query l) as [q|] eqn:E4; [|destruct (ipv6_query l) as [q|] eqn:E6].
  1,2: apply returns_skip; split; [by apply (settle p l q); try (left; done); try (right; done)|by rewrite app_nil_r].
  unfold sort_and_return_results. apply (returns_step _ _ _ _ _ _ (load_lookup_run p l s Hl)).
  destruct (results_alloc e) eqn:Ea; cbn [negb].
  2: { apply returns_skip. split; [|by rewrite app_nil_r]. apply (stuck_inv p); [by destruct roomy; [discriminate Hroom|]|done..]. }
  destruct (sort_total (route e) (results l)) as [sorted Es].
  apply (returns_step _ _ _ sorted s); [by unfold plift; rewrite Es|].
  apply (returns_step _ _ _ (result_family s) s); [done|]. eapply returns_step; [done|].
  apply (returns_step _ _ _ tt (removed p s)).
  { unfold destroy_lookup. eapply bind_next; [by apply load_lookup_run|]. by rewrite E4, E6. }
  eexists _, _, _. split; [done|]. cbn [answered omap list_omap]. split; [|split; [|done]].
  - apply (removed_inv p l); [done..|]. intros q [Hq|Hq]; congruence.
  - rewrite (removed_pending p l s _ Hi Hl Hp). apply Permutation_cons_append.
Qed.

Lemma released_pending q p l l' s : lookups s !! p = Some l -> result_data l' = result_data l ->
  pending (released q p l' s) = pending s.
Proof.
  intros Hl Hd. unfold pending. cbn [released set_timers set_queries set_query_queue set_lookups lookup_queue lookups].
  apply list_omap_ext, Forall_Forall2_diag, list.Forall_forall. intros p' _. destruct (decide (p' = p)) as [->|].
  - by rewrite lookup_insert_eq, Hl; cbn; rewrite Hd.
  - by rewrite lookup_insert_ne.
Qed.

(** From a lookup that has lost a query to the end of the handler. *)
Lemma released_run q p x l l' s : inv None s -> queries s !! q = Some x -> q_lookup x = p -> lookups s !! p = Some l ->
  without q l l' ->
  returns (finish_lookup e p) (released q p l' s)
    (fun _ s' o => inv None s' /\ pending s ≡ₚ pending s' ++ answered o /\ timers s' = g_list_remove q (timers s) /\ ref_count s' = ref_count s).
Proof.
  intros Hi Hx Hp Hl Hw. rewrite <- (released_pending q p l l' s Hl (proj1 Hw)).
  change (g_list_remove q (timers s)) with (timers (released q p l' s)). change (ref_count s) with (ref_count (released q p l' s)).
  apply (finish_run p l').
  - by apply (released_inv None q p x l l' s); [..|left|].
  - cbn [released set_timers set_queries set_query_queue set_lookups lookups]. by rewrite lookup_insert_eq.
  - change (p ∈ lookup_queue s). destruct (inv_queued _ _ Hi p) as [|]; [by rewrite Hl|done|done].
Qed.

Lemma query_timeout_run q s : inv None s -> q ∈ timers s ->
  returns (query_timeout e q) s
    (fun _ s' o => inv None s' /\ pending s ≡ₚ pending s' ++ answered o /\ timers s' = g_list_remove q (timers s) /\ ref_count s' = ref_count s).
Proof.
  intros Hi [x Hx]%(inv_timer _ _ Hi). destruct (inv_armed _ _ Hi q x Hx) as (Ht & l & Hl & Ho).
  unfold query_timeout. eapply returns_step; [done|]. eapply returns_step; [by apply load_query_run|].
  eapply returns_step; [by eapply store_query_run|]. eapply returns_step; [by apply load_lookup_run|].
  set (l' := if bool_decide (ipv4_query l = Some q)
             then with_queries None (ipv6_query l) (with_statuses NO_RESPONSE (ipv6_status l) l)
             else with_queries (ipv4_query l) None (with_statuses (ipv4_status l) NO_RESPONSE l)).
  assert (Hw : without q l l').
  { split; [by unfold l'; case_bool_decide|]. unfold l'. case_bool_decide as E; [left|right]; [done|].
    destruct Ho; done. }
  eapply returns_step.
  { transitivity (store_lookup (q_lookup x) l' (set_queries (<[q:=with_timeout false x]> (queries s))
      (set_timers (g_list_remove q (timers s)) s))); [|by eapply store_lookup_run].
    unfold l'. case_bool_decide; [done|]. destruct Ho; [done|]. by rewrite bool_decide_true. }
  eapply returns_step; [done|].
  apply (returns_step _ _ _ tt (released q (q_lookup x) l' s)); [|by apply (released_run q (q_lookup x) x l)].
  unfold destroy_query. eapply bind_next; [by apply load_query_run; cbn; rewrite lookup_insert_eq|].
  cbn [timeout with_timeout]. unfold mbind, pprog_bind, pskip, mret, pprog_ret, pmodify, released. cbn.
  by rewrite delete_insert_eq.
Qed.

Lemma release_run q x l l' s : inv None s -> queries s !! q = Some x -> lookups s !! q_lookup x = Some l -> without q l l' ->
  returns (store_lookup (q_lookup x) l';; queue_remove_query q;; destroy_query q;; finish_lookup e (q_lookup x)) s
    (fun _ s' o => inv None s' /\ pending s ≡ₚ pending s' ++ answered o /\ timers s' = g_list_remove q (timers s) /\ ref_count s' = ref_count s).
Proof.
  intros Hi Hx Hl Hw. destruct (inv_armed _ _ Hi q x Hx) as (Ht & _).
  eapply returns_step; [by eapply store_lookup_run|]. eapply returns_step; [done|].
  apply (returns_step _ _ _ tt (released q (q_lookup x) l' s)); [by apply (destroy_query_run q x)|].
  by apply (released_run q (q_lookup x) x l).
Qed.

(** A reply changes the numbers of a query and the results of its lookup. *)
Lemma updated_inv q p x x' l l' s : inv None s -> queries s !! q = Some x -> lookups s !! p = Some l ->
  timeout x' = timeout x -> q_lookup x' = q_lookup x -> ipv4_query l' = ipv4_query l -> ipv6_query l' = ipv6_query l ->
  inv None (set_lookups (<[p := l']> (lookups s)) (set_queries (<[q := x']> (queries s)) s)).
Proof.
  intros Hi Hx Hl E1 E2 E4 E6. assert (Ho : forall q', owns l' q' <-> owns l q') by (intros; unfold owns; by rewrite E4, E6).
  assert (HL : forall p' m', <[p := l']> (lookups s) !! p' = Some m' ->
    exists m, lookups s !! p' = Some m /\ forall q', (owns m' q' <-> owns m q') /\ (ipv4_query m' = Some q' <-> ipv4_query m = Some q') /\ (ipv6_query m' = Some q' <-> ipv6_query m = Some q')).
  { intros p' m'. destruct (decide (p' = p)) as [->|].
    - rewrite lookup_insert_eq. intros [= <-]. exists l. split; [done|]. intros q'. by rewrite Ho, E4, E6.
    - rewrite lookup_insert_ne by done. intros Hm. by exists m'. }
  assert (HS : forall p', is_Some (<[p := l']> (lookups s) !! p') <-> is_Some (lookups s !! p')).
  { intros p'. rewrite lookup_insert_is_Some'. split; [intros [<-|]; [by rewrite Hl|done]|by right]. }
  assert (QS : forall q', is_Some (<[q := x']> (queries s) !! q') <-> is_Some (queries s !! q')).
  { intros q'. rewrite lookup_insert_is_Some'. split; [intros [<-|]; [by rewrite Hx|done]|by right]. }
  split; cbn [set_queries set_lookups lookup_queue query_queue timers lookups queries fresh].
  - apply (inv_lq _ _ Hi).
  - apply (inv_qq _ _ Hi).
  - apply (inv_tm _ _ Hi).
  - intros p' Hp. by apply HS, (inv_lookup _ _ Hi).
  - intros p' Hp%HS. by apply (inv_queued _ _ Hi).
  - intros q'. rewrite QS. apply (inv_query _ _ Hi).
  - intros q'. rewrite QS. apply (inv_timer _ _ Hi).
  - intros q' y' Hy. assert (exists y, queries s !! q' = Some y /\ timeout y' = timeout y /\ q_lookup y' = q_lookup y) as (y & Hy' & Et & El).
    { destruct (decide (q' = q)) as [->|]; [rewrite lookup_insert_eq in Hy; simplify_eq; by exists x|].
      rewrite lookup_insert_ne in Hy by done. by exists y'. }
    destruct (inv_armed _ _ Hi q' y Hy') as (Ht & m & Hm & Hom). rewrite Et, El. split; [done|].
    destruct (decide (q_lookup y = p)) as [E|]; [|exists m; by rewrite lookup_insert_ne].
    rewrite E, lookup_insert_eq. exists l'. split; [done|]. apply Ho. rewrite E in Hm. by simplify_eq.
  - intros p' m' q' (m & Hm & Hq)%HL Hom. apply Hq in Hom. destruct (inv_owns _ _ Hi p' m q' Hm Hom) as (y & Hy & Ey).
    destruct (decide (q' = q)) as [->|]; [rewrite lookup_insert_eq; exists x'; split; congruence|].
    rewrite lookup_insert_ne by done. by exists y.
  - intros p' m' (m & Hm & Hq)%HL. destruct (inv_busy _ _ Hi p' m Hm) as [|[[q' Hq']|]]; [done| |by right; right]. right. left. exists q'. by apply Hq.
  - intros p' m' q' (m & Hm & Hq)%HL H4 H6. apply Hq in H4, H6. by apply (inv_apart _ _ Hi p' m q').
  - intros p' Hp%HS. by apply (inv_fresh_l _ _ Hi).
  - intros q' Hq%QS. by apply (inv_fresh_q _ _ Hi).
Qed.

Lemma find_query_total h id l : Forall (fun q => is_Some (h !! q)) l ->
  exists r, find_query h id l = Some r /\ forall q, r = Some q -> q ∈ l.
Proof.
  induction 1 as [|q l [x Hx] _ IH]; [by exists None|]. cbn [find_query]. rewrite Hx. cbn [mbind option_bind].
  destruct (msgid x =? id); [exists (Some q); split; [done|]; intros q' [= ->]; by left|].
  destruct IH as (r & Er & Hr). exists r. split; [done|]. intros q' E. right. by apply Hr.
Qed.

Lemma response_run buf s : inv None s ->
  returns (parse_response e buf) s (fun _ s' o => inv None s' /\ pending s ≡ₚ pending s' ++ answered o).
Proof.
  intros Hi. unfold parse_response. destruct (ns_initparse e buf) as [msg|]; [|apply returns_skip; by rewrite app_nil_r].
  eapply returns_step; [done|].
  destruct (find_query_total (queries s) (ns_msg_id msg) (query_queue s)) as (r & Er & Hr).
  { apply list.Forall_forall. intros q. apply (inv_query _ _ Hi). }
  apply (returns_step _ _ _ r s); [by unfold plift; cbn; rewrite Er|].
  destruct r as [q|]; [|apply returns_skip; by rewrite app_nil_r].
  specialize (Hr q eq_refl). apply (inv_query _ _ Hi) in Hr as [x Hx]. destruct (inv_armed _ _ Hi q x Hx) as (Ht & l & Hl & Ho).
  set (status := status_of_rcode _ _).
  eapply returns_step; [by apply load_query_run|]. eapply returns_step; [by eapply store_query_run|].
  eapply returns_step; [by apply load_lookup_run|].
  set (l' := add_results _ _). set (x' := with_nr_ns _ _).
  assert (E' : ipv4_query l' = ipv4_query l /\ ipv6_query l' = ipv6_query l /\ result_data l' = result_data l).
  { unfold l', note_status. by repeat case_bool_decide. }
  destruct E' as (E4 & E6 & Ed).
  eapply returns_step; [by eapply store_lookup_run|].
  pose proof (updated_inv q (q_lookup x) x x' l l' s Hi Hx Hl eq_refl eq_refl E4 E6) as Hi'.
  set (s' := set_lookups _ _) in Hi'.
  assert (Hp : pending s' = pending s).
  { rewrite <- (released_pending q (q_lookup x) l l' s Hl Ed). done. }
  rewrite <- Hp. destruct (negb _ && _); [apply returns_skip; by rewrite app_nil_r|].
  eapply returns_conseq; [eapply (release_run q x' l')|].
  - done.
  - cbn. by rewrite lookup_insert_eq.
  - cbn. by rewrite lookup_insert_eq.
  - unfold clear_query. rewrite E6. case_bool_decide as E; split; try done; [right; by rewrite E6|left]. rewrite E4, E6.
    destruct Ho; [done|done].
  - intros _ s2 o (H1 & H2 & _). done.
Qed.

(** *** Cancelling *)

(** The lookup a number stands for. *)
Definition cancelled (lid : Z) (s : GResolv) : list Z :=
  match find_lookup (lookups s) lid (lookup_queue s) with
  | Some (Some p) => match lookups s !! p with Some l => [result_data l] | None => [] end
  | _ => []
  end.

Lemma find_lookup_total h id l : Forall (fun p => is_Some (h !! p)) l ->
  exists r, find_lookup h id l = Some r /\ forall p, r = Some p -> p ∈ l.
Proof.
  induction 1 as [|p l [x Hx] _ IH]; [by exists None|]. cbn [find_lookup]. rewrite Hx. cbn [mbind option_bind].
  destruct (lk_id x =? id); [exists (Some p); split; [done|]; intros p' [= ->]; by left|].
  destruct IH as (r & Er & Hr). exists r. split; [done|]. intros p' E. right. by apply Hr.
Qed.

Lemma cancel_run lid s : inv None s ->
  returns (g_resolv_cancel_lookup lid) s (fun r s' o => inv None s' /\ o = [] /\ pending s ≡ₚ pending s' ++ cancelled lid s).
Proof.
  intros Hi. unfold g_resolv_cancel_lookup, cancelled. eapply returns_step; [done|].
  destruct (find_lookup_total (lookups s) lid (lookup_queue s)) as (r & Er & Hr).
  { apply list.Forall_forall. intros p. apply (inv_lookup _ _ Hi). }
  apply (returns_step _ _ _ r s); [by unfold plift; cbn; rewrite Er|]. rewrite Er.
  destruct r as [p|]; [|apply returns_ret; by rewrite app_nil_r].
  specialize (Hr p eq_refl). destruct (inv_lookup _ _ Hi p Hr) as [l Hl]. rewrite Hl.
  eapply returns_step; [done|]. eapply returns_step; [by apply drop_run|]. apply returns_ret.
  split; [by apply dropped_inv|]. split; [done|]. rewrite (dropped_pending p l s Hi Hl Hr). apply Permutation_cons_append.
Qed.

(** *** The end of the resolver *)

Lemma set_ref_inv n b s : inv b s -> inv b (set_ref_count n s).
Proof. by intros [? ? ? ? ? ? ? ? ? ? ? ? ?]; split. Qed.

Lemma set_nameservers_inv l b s : inv b s -> inv b (set_nameservers l s).
Proof. by intros [? ? ? ? ? ? ? ? ? ? ? ? ?]; split. Qed.

Lemma destroy_lookups_run l : forall s, inv None s -> lookup_queue s = l ->
  returns (destroy_lookups l) s (fun _ s' o => inv None s' /\ o = [] /\ lookup_queue s' = [] /\ ref_count s' = ref_count s).
Proof.
  induction l as [|p l IH]; intros s Hi E; cbn [destroy_lookups]; [by apply returns_skip|].
  destruct (inv_lookup _ _ Hi p) as [m Hm]; [rewrite E; by left|].
  assert (El : g_list_remove p (lookup_queue s) = l) by (rewrite E; cbn; by rewrite decide_True).
  eapply returns_step; [done|]. eapply returns_step; [rewrite <- El; by apply drop_run|].
  assert (Er : ref_count (dropped p m s) = ref_count s).
  { unfold dropped, cleared. by destruct (ipv6_query m), (ipv4_query m). }
  rewrite <- Er. apply IH; [by apply dropped_inv|]. rewrite <- El.
  unfold dropped, cleared. by destruct (ipv6_query m), (ipv4_query m).
Qed.

(** Without lookups there are no queries. *)
Lemma no_queries s : inv None s -> lookup_queue s = [] -> query_queue s = [] /\ timers s = [].
Proof.
  intros Hi E. assert (Hn : forall q, queries s !! q = None).
  { intros q. destruct (queries s !! q) as [x|] eqn:Hx; [|done]. destruct (inv_armed _ _ Hi q x Hx) as (_ & l & Hl & _).
    destruct (inv_queued _ _ Hi (q_lookup x)) as [Hq|]; [by rewrite Hl| |done]. rewrite E in Hq. by apply not_elem_of_nil in Hq. }
  split.
  - destruct (query_queue s) as [|q l] eqn:Eq; [done|]. assert (is_Some (queries s !! q)) as [x Hx].
    { apply (inv_query _ _ Hi). rewrite Eq. by left. } by rewrite Hn in Hx.
  - destruct (timers s) as [|q l] eqn:Eq; [done|]. assert (is_Some (queries s !! q)) as [x Hx].
    { apply (inv_timer _ _ Hi). rewrite Eq. by left. } by rewrite Hn in Hx.
Qed.

Lemma unref_run s : inv None s ->
  returns g_resolv_unref s (fun _ s' o => inv None s' /\ o = [] /\
    pending s ≡ₚ pending s' ++ (if ref_count s =? 1 then pending s else []) /\
    (ref_count s = 1 -> lookup_queue s' = [] /\ query_queue s' = [] /\ timers s' = [] /\ nameserver_list s' = [])).
Proof.
  intros Hi. unfold g_resolv_unref. eapply returns_step; [done|]. eapply returns_step; [done|].
  destruct (Z.eqb_spec (ref_count s) 1) as [E|E]; cbn [negb].
  2: { apply returns_skip. split; [by apply set_ref_inv|]. split; [done|]. split; [|done]. by rewrite app_nil_r. }
  eapply returns_step; [done|]. eapply returns_bind; [apply destroy_lookups_run; [by apply set_ref_inv|done]|].
  intros [] s1 o1 (Hi1 & -> & E1 & _). destruct (no_queries s1 Hi1 E1) as [Eq Et].
  eapply returns_step; [done|]. rewrite Eq. eapply returns_step; [done|].
  eexists _, _, _. split; [done|]. split; [by apply set_nameservers_inv|]. split; [done|]. split; [|done].
  unfold pending. cbn [set_nameservers lookup_queue]. by rewrite E1.
Qed.

(** *** New lookups *)

(** Nothing has changed but the name servers and the free addresses. *)
Definition core (s : GResolv) := (lookup_queue s, query_queue s, timers s, lookups s, queries s).

Record grown (s s' : GResolv) : Prop := {
  grown_core : core s' = core s;
  grown_fresh : fresh s <= fresh s';
  grown_ref : ref_count s' = ref_count s;
  grown_family : result_family s' = result_family s;
  grown_id : next_lookup_id s' = next_lookup_id s;
}.

Lemma grown_refl s : grown s s.
Proof. by split. Qed.

Lemma grown_trans s s1 s2 : grown s s1 -> grown s1 s2 -> grown s s2.
Proof. intros [? ? ? ? ?] [? ? ? ? ?]. split; [congruence|lia|congruence..]. Qed.

Lemma core_inv s s' b : core s' = core s -> fresh s <= fresh s' -> inv b s -> inv b s'.
Proof.
  unfold core. intros [= E1 E2 E3 E4 E5] Hf Hi.
  destruct Hi as [? ? ? ? ? ? ? ? ? ? ? Hp Hq]. split; rewrite ?E1, ?E2, ?E3, ?E4, ?E5; try done.
  - intros p Hs. specialize (Hp p Hs). lia.
  - intros q Hs. specialize (Hq q Hs). lia.
Qed.

Lemma core_pending s s' : core s' = core s -> pending s' = pending s.
Proof. unfold core, pending. by intros [= -> _ _ -> _]. Qed.

Lemma add_nameserver_run addr prt flgs s : returns (g_resolv_add_nameserver e addr prt flgs) s (fun r s' o => grown s s' /\ o = [] /\
  (r = true -> nameserver_list s' <> [])).
Proof.
  unfold g_resolv_add_nameserver. destruct (connect_udp e addr prt); [|by apply returns_ret; split; [apply grown_refl|]].
  eexists _, _, _. split; [done|]. split; [|split; [done|]]. { split; try done. cbn. lia. }
  intros _. cbn. by destruct (nameserver_list s).
Qed.

Lemma res_nameservers_run l : forall s, returns (res_nameservers e l) s (fun _ s' o => grown s s' /\ o = []).
Proof.
  induction l as [|r l IH]; intros s; cbn [res_nameservers]; [apply returns_skip; split; [apply grown_refl|done]|].
  eapply (returns_bind _ _ _ (fun _ s' o => grown s s' /\ o = [])).
  - unfold res_nameserver. destruct (match nsaddr_family r, ext_nsaddr r with AF_INET, _ => _ | _, Some a => _ | _, _ => _ end) as [f addr].
    assert (Hs : returns (O := output) pskip s (fun _ s' o => grown s s' /\ o = [])) by (apply returns_skip; split; [apply grown_refl|done]).
    destruct f; [done|..]; (destruct (inet_ntop e _ addr); [|done]);
      (eapply returns_bind; [apply add_nameserver_run|]; intros r' s1 o1 (Hg & -> & _); by apply returns_skip).
  - intros [] s1 o1 [Hg ->]. eapply returns_conseq; [apply IH|]. intros [] s2 o2 [Hg2 ->]. split; [by apply (grown_trans _ s1)|done].
Qed.

Lemma default_nameservers_run s : returns (default_nameservers e) s (fun _ s' o => grown s s' /\ o = []).
Proof.
  assert (Hs : returns (O := output) pskip s (fun _ s' o => grown s s' /\ o = [])) by (apply returns_skip; split; [apply grown_refl|done]).
  unfold default_nameservers. eapply returns_step; [done|]. destruct (nameserver_list s); [|done].
  eapply returns_step; [done|]. eapply returns_bind; [apply res_nameservers_run|]. intros [] s1 o1 [Hg ->].
  eapply returns_step; [done|]. destruct (nameserver_list s1); [|by apply returns_skip].
  eapply returns_bind; [apply add_nameserver_run|]. intros r s2 o2 (Hg2 & -> & _). apply returns_skip.
  split; [by apply (grown_trans _ s1)|done].
Qed.

(** The state after a query of the lookup [p], now [l], has been sent. *)
Definition queried (p : Z) (l : resolv_lookup) (x : resolv_query) (s : GResolv) : GResolv :=
  set_lookups (<[p := l]> (lookups s)) (set_timers (fresh s :: timers s) (set_query_queue (query_queue s ++ [fresh s])
    (set_queries (<[fresh s := x]> (queries s)) (set_fresh (fresh s + 1) s)))).

Lemma queried_inv p l l' x s : inv (Some p) s -> lookups s !! p = Some l -> timeout x = true -> q_lookup x = p ->
  (forall q, owns l' q <-> owns l q \/ q = fresh s) -> (forall q, ipv4_query l' = Some q -> ipv6_query l' <> Some q) ->
  inv (Some p) (queried p l' x s).
Proof.
  intros Hi Hl Ht Hx Ho Ha. set (n := fresh s) in *.
  assert (Hn : queries s !! n = None).
  { destruct (queries s !! n) eqn:E; [|done]. pose proof (inv_fresh_q _ _ Hi n ltac:(by rewrite E)). lia. }
  assert (Hnq : forall q, is_Some (queries s !! q) -> q <> n) by (intros q Hq ->; rewrite Hn in Hq; by destruct Hq).
  assert (Hq : forall q, is_Some (<[n := x]> (queries s) !! q) <-> n = q \/ is_Some (queries s !! q)) by (intros; apply lookup_insert_is_Some').
  split; cbn [queried set_lookups set_timers set_query_queue set_queries set_fresh lookup_queue query_queue timers lookups queries fresh];
    fold n.
  - apply (inv_lq _ _ Hi).
  - apply NoDup_app. split; [apply (inv_qq _ _ Hi)|]. split; [|apply NoDup_singleton].
    intros q Hq' ->%list_elem_of_singleton. apply (inv_query _ _ Hi) in Hq'. by apply Hnq in Hq'.
  - apply list.NoDup_cons. split; [|apply (inv_tm _ _ Hi)]. intros Hq'%(inv_timer _ _ Hi). by apply Hnq in Hq'.
  - intros p' Hp. apply lookup_insert_is_Some'. right. by apply (inv_lookup _ _ Hi).
  - intros p' [<-|Hp]%lookup_insert_is_Some'; [by right|]. by apply (inv_queued _ _ Hi).
  - intros q. rewrite Hq, elem_of_app, list_elem_of_singleton, (inv_query _ _ Hi). split; (intros [|]; auto).
  - intros q. rewrite Hq, elem_of_cons, (inv_timer _ _ Hi). split; (intros [|]; auto).
  - intros q y Hy. destruct (decide (q = n)) as [->|].
    + rewrite lookup_insert_eq in Hy. simplify_eq. split; [done|]. exists l'. rewrite lookup_insert_eq. split; [done|]. apply Ho. by right.
    + rewrite lookup_insert_ne in Hy by done. destruct (inv_armed _ _ Hi q y Hy) as (Hty & m & Hm & Hom). split; [done|].
      destruct (decide (q_lookup y = p)) as [E|]; [|exists m; by rewrite lookup_insert_ne].
      rewrite E, lookup_insert_eq. exists l'. split; [done|]. apply Ho. left. rewrite E in Hm. by simplify_eq.
  - intros p' m q Hm Hom. destruct (decide (p' = p)) as [->|].
    + rewrite lookup_insert_eq in Hm. simplify_eq. apply Ho in Hom as [Hom| ->]; [|exists x; by rewrite lookup_insert_eq].
      destruct (inv_owns _ _ Hi _ l q Hl Hom) as (y & Hy & Ey). exists y. rewrite lookup_insert_ne; [done|].
      apply not_eq_sym, Hnq. by rewrite Hy.
    + rewrite lookup_insert_ne in Hm by done. destruct (inv_owns _ _ Hi _ m q Hm Hom) as (y & Hy & Ey). exists y.
      rewrite lookup_insert_ne; [done|]. apply not_eq_sym, Hnq. by rewrite Hy.
  - intros p' m Hm. destruct (decide (p' = p)) as [->|]; [by left|]. rewrite lookup_insert_ne in Hm by done. by apply (inv_busy _ _ Hi).
  - intros p' m q Hm. destruct (decide (p' = p)) as [->|]; [rewrite lookup_insert_eq in Hm; simplify_eq; apply Ha|].
    rewrite lookup_insert_ne in Hm by done. by apply (inv_apart _ _ Hi p').
  - intros p' [<-|Hp]%lookup_insert_is_Some'; [|by apply (inv_fresh_l _ _ Hi) in Hp; lia].
    pose proof (inv_fresh_l _ _ Hi p ltac:(by rewrite Hl)). lia.
  - intros q [<-|Hq']%Hq; [lia|]. apply (inv_fresh_q _ _ Hi) in Hq'. lia.
Qed.

(** What is sent, and the query it makes. *)
Definition message_id (hostname : list Z) (type : ns_type) : Z :=
  let buf := default (stack e) (res_mkquery e hostname type) in Z.lor (Z.shiftl (nth 0 buf 0) 8) (nth 1 buf 0).

Definition query_of (hostname : list Z) (type : ns_type) (p : Z) (servers : list resolv_nameserver) : resolv_query :=
  mk_query (Z.of_nat (length servers)) true (message_id hostname type) p.

Definition sent_to (bytes : option (list Z)) (servers : list resolv_nameserver) : list output :=
  omap (fun n => sk ← udp_channel n; b ← bytes; Some (To_server sk b)) servers.

Definition asking (type : ns_type) (q : Z) (l : resolv_lookup) : resolv_lookup :=
  match type with
  | ns_t_aaaa => with_queries (ipv4_query l) (Some q) l
  | ns_t_a => with_queries (Some q) (ipv6_query l) l
  end.

Lemma sent_answers bytes l : answered (sent_to bytes l) = [].
Proof. induction l as [|n l IH]; [done|]. unfold sent_to. cbn. destruct (udp_channel n), bytes; cbn; apply IH. Qed.

Lemma add_query_none p hostname type s : nameserver_list s = [] -> add_query e p hostname type s = Some (- EIO, s, []).
Proof.
  intros E. unfold add_query. apply (bind_next _ _ _ (- ENOENT) s); [|done].
  unfold send_query. eapply bind_next; [done|]. by rewrite E.
Qed.

Lemma add_query_run p hostname type l s : lookups s !! p = Some l -> nameserver_list s <> [] ->
  add_query e p hostname type s = Some (0, queried p (asking type (fresh s) l) (query_of hostname type p (nameserver_list s)) s,
    sent_to (res_mkquery e hostname type) (nameserver_list s)).
Proof.
  intros Hl Hn. unfold add_query. rewrite <- (app_nil_r (sent_to _ _)).
  apply (bind_run _ _ _ (Z.of_nat (length (nameserver_list s))) s).
  - unfold send_query. eapply bind_next; [done|]. destruct (nameserver_list s) as [|n ns]; [done|].
    rewrite <- (app_nil_r (sent_to _ _)). by eapply bind_run.
  - rewrite (proj2 (Z.leb_gt _ _)) by (destruct (nameserver_list s); [done|cbn; lia]).
    eapply bind_next; [done|]. do 3 (eapply bind_next; [done|]). eapply bind_next; [by apply load_lookup_run|].
    eapply bind_next; [by eapply store_lookup_run|]. by destruct type.
Qed.

(** A lookup that has just been made. *)
Definition created (data : Z) (s : GResolv) : GResolv :=
  set_lookups (<[fresh s := mk_lookup (next_lookup_id s) [] None None SUCCESS SUCCESS data]> (lookups s))
    (set_next_lookup_id (u32 (next_lookup_id s + 1)) (set_fresh (fresh s + 1) s)).

Lemma created_inv data s : inv None s -> inv (Some (fresh s)) (created data s).
Proof.
  intros Hi. set (n := fresh s).
  assert (Hn : lookups s !! n = None).
  { destruct (lookups s !! n) eqn:E; [|done]. pose proof (inv_fresh_l _ _ Hi n ltac:(by rewrite E)). lia. }
  split; cbn [created set_lookups set_next_lookup_id set_fresh lookup_queue query_queue timers lookups queries fresh]; fold n.
  - apply (inv_lq _ _ Hi).
  - apply (inv_qq _ _ Hi).
  - apply (inv_tm _ _ Hi).
  - intros p Hp. apply lookup_insert_is_Some'. right. by apply (inv_lookup _ _ Hi).
  - intros p [<-|Hp]%lookup_insert_is_Some'; [by right|]. by destruct (inv_queued _ _ Hi p Hp); [left|].
  - apply (inv_query _ _ Hi).
  - apply (inv_timer _ _ Hi).
  - intros q x Hx. destruct (inv_armed _ _ Hi q x Hx) as (Ht & l & Hl & Ho). split; [done|]. exists l.
    rewrite lookup_insert_ne by congruence. done.
  - intros p l q [[<- <-]|[Hne Hl]]%lookup_insert_Some; [by intros [|]|]. by apply (inv_owns _ _ Hi).
  - intros p l [[<- <-]|[Hne Hl]]%lookup_insert_Some; [by left|]. by destruct (inv_busy _ _ Hi p l Hl); [|right].
  - intros p l q [[<- <-]|[Hne Hl]]%lookup_insert_Some; [done|]. by apply (inv_apart _ _ Hi p).
  - intros p [<-|Hp]%lookup_insert_is_Some'; [lia|]. apply (inv_fresh_l _ _ Hi) in Hp. lia.
  - intros q Hq. apply (inv_fresh_q _ _ Hi) in Hq. lia.
Qed.

Lemma push_inv p l q s : inv (Some p) s -> p ∉ lookup_queue s -> lookups s !! p = Some l -> owns l q ->
  inv None (set_lookup_queue (lookup_queue s ++ [p]) s).
Proof.
  intros Hi Hp Hl Ho. apply (settle p l q); [|cbn; apply elem_of_app; right; by apply list_elem_of_singleton|done..].
  destruct Hi as [H1 H2 H3 H4 H5 ? ? ? ? ? ? ? ?]. split; try done; cbn [set_lookup_queue lookup_queue lookups].
  - apply NoDup_app. split; [done|]. split; [|apply NoDup_singleton]. intros p' Hp' ->%list_elem_of_singleton. done.
  - intros p' [Hp'| ->%list_elem_of_singleton]%elem_of_app; [by apply H4|by rewrite Hl].
  - intros p' [|]%H5; [|by right]. left. apply elem_of_app. by left.
Qed.

Definition started (data : Z) (s' : GResolv) : list Z := match nameserver_list s' with [] => [] | _ => [data] end.

Lemma asking_inv p l type hostname s : inv (Some p) s -> lookups s !! p = Some l ->
  match type with ns_t_a => ipv4_query l | ns_t_aaaa => ipv6_query l end = None ->
  inv (Some p) (queried p (asking type (fresh s) l) (query_of hostname type p (nameserver_list s)) s).
Proof.
  intros Hi Hl Hn.
  assert (Hf : forall q, owns l q -> q <> fresh s).
  { intros q Hq ->. destruct (inv_owns _ _ Hi p l _ Hl Hq) as (x & Hx & _).
    pose proof (inv_fresh_q _ _ Hi (fresh s) ltac:(by rewrite Hx)). lia. }
  apply (queried_inv p l); [done..| |].
  - intros q. unfold owns. destruct type; cbn; rewrite Hn; split; intros Hq; destruct_or?; simplify_eq; auto.
  - intros q. destruct type; cbn; intros H4 H6; [injection H4 as <-; by apply (Hf (fresh s)); [right|]|].
    injection H6 as <-. by apply (Hf (fresh s)); [left|].
Qed.

(** The queue and the data of the lookups do not depend on what is done to a lookup that is not in the queue. *)
Lemma pending_ext s s' : lookup_queue s' = lookup_queue s ->
  (forall p, p ∈ lookup_queue s -> result_data <$> lookups s' !! p = result_data <$> lookups s !! p) -> pending s' = pending s.
Proof.
  intros E Hp. unfold pending. rewrite E. by apply list_omap_ext, Forall_Forall2_diag, list.Forall_forall.
Qed.

Lemma pending_push p l s : lookups s !! p = Some l -> pending (set_lookup_queue (lookup_queue s ++ [p]) s) = pending s ++ [result_data l].
Proof. intros Hl. unfold pending. cbn [set_lookup_queue lookup_queue lookups]. rewrite omap_app. cbn. by rewrite Hl. Qed.

(** A lookup that was made and freed again. *)
Lemma free_run data s : inv None s ->
  returns (free_lookup (fresh s);; mret (u32 (- EIO))) (created data s) (fun r s' o => inv None s' /\ o = [] /\ pending s' = pending s /\
    r = u32 (- EIO) /\ nameserver_list s' = nameserver_list s).
Proof.
  intros Hi. eapply returns_step.
  { unfold free_lookup. eapply bind_next; [apply load_lookup_run; cbn; by rewrite lookup_insert_eq|done]. }
  apply returns_ret.
  match goal with |- inv None ?s' /\ _ => assert (E : core s' = core s) end.
  { unfold core. cbn. rewrite delete_insert_id; [done|]. destruct (lookups s !! fresh s) eqn:E; [|done].
    pose proof (inv_fresh_l _ _ Hi (fresh s) ltac:(by rewrite E)). lia. }
  split; [apply (core_inv s _ None E); [cbn; lia|done]|]. split; [done|]. split; [by apply core_pending|done].
Qed.

(** A query that is sent if it is asked for. *)
Lemma ask_run (b : bool) p l type hostname s : inv (Some p) s -> lookups s !! p = Some l -> nameserver_list s <> [] ->
  match type with ns_t_a => ipv4_query l | ns_t_aaaa => ipv6_query l end = None ->
  returns (if b then add_query e p hostname type else mret 0) s (fun r s' o =>
    r = 0 /\ inv (Some p) s' /\ lookups s' = <[p := if b then asking type (fresh s) l else l]> (lookups s) /\
    lookup_queue s' = lookup_queue s /\ nameserver_list s' = nameserver_list s /\ answered o = []).
Proof.
  intros Hi Hl Hn Hf. destruct b.
  - eexists _, _, _. split; [by apply add_query_run|]. split; [done|]. split; [by apply asking_inv|]. do 3 (split; [done|]).
    apply sent_answers.
  - apply returns_ret. rewrite insert_id by done. done.
Qed.

Lemma lookup_run hostname data s : inv None s ->
  returns (g_resolv_lookup_hostname e hostname data) s (fun r s' o => inv None s' /\ answered o = [] /\
    pending s' = pending s ++ started data s' /\
    r = match nameserver_list s' with [] => u32 (- EIO) | _ => next_lookup_id s end).
Proof.
  intros Hi0. unfold g_resolv_lookup_hostname.
  eapply returns_bind; [apply default_nameservers_run|]. intros [] s1 o1 [[Hc Hf _ _ En] ->]. cbn [app].
  pose proof (core_inv s s1 None Hc Hf Hi0) as Hi. rewrite <- (core_pending s s1 Hc), <- En. clear s Hi0 Hc Hf En.
  pose proof (created_inv data s1 Hi) as Hi2.
  assert (Hq : fresh s1 ∉ lookup_queue s1) by (intros Hq%(inv_lookup _ _ Hi)%(inv_fresh_l _ _ Hi); lia).
  eapply returns_step; [done|]. eapply returns_step; [done|]. eapply returns_step; [done|].
  apply (returns_step _ _ _ tt (created data s1)); [done|]. eapply returns_step; [done|].
  change (result_family (created data s1)) with (result_family s1).
  change (next_lookup_id (set_fresh (fresh s1 + 1) s1)) with (next_lookup_id s1).
  set (l := mk_lookup (next_lookup_id s1) [] None None SUCCESS SUCCESS data). set (p := fresh s1) in *.
  assert (Hl : lookups (created data s1) !! p = Some l) by (cbn; by rewrite lookup_insert_eq).
  destruct (decide (nameserver_list s1 = [])) as [Hn|Hn].
  - assert (Hfree : returns (free_lookup p;; mret (u32 (- EIO))) (created data s1) (fun r s' o => inv None s' /\ answered o = [] /\
      pending s' = pending s1 ++ started data s' /\ r = match nameserver_list s' with [] => u32 (- EIO) | _ => next_lookup_id s1 end)).
    { eapply returns_conseq; [by apply free_run|]. intros r s' o (? & -> & -> & -> & En). unfold started. rewrite En, Hn, app_nil_r. done. }
    case_bool_decide as Hfam.
    + eapply returns_step; [by apply add_query_none|]. exact Hfree.
    + eapply returns_step; [done|]. cbn [negb Z.eqb]. rewrite (bool_decide_true (result_family s1 <> AF_INET)) by (intros E; congruence).
      eapply returns_step; [by apply add_query_none|]. cbn [negb Z.eqb EIO Z.opp].
      eapply returns_step; [done|]. exact Hfree.
  - eapply returns_bind; [by apply (ask_run _ p l ns_t_a hostname (created data s1))|].
    intros r4 s2 o2 (-> & Hi3 & El2 & Eq2 & En2 & Eo2). cbn [negb Z.eqb].
    set (l2 := if bool_decide _ then _ else l) in El2. assert (H6 : ipv6_query l2 = None) by (unfold l2; by case_bool_decide).
    eapply returns_bind; [apply (ask_run _ p l2 ns_t_aaaa hostname s2); [done|by rewrite El2, lookup_insert_eq|by rewrite En2|done]|].
    intros r6 s3 o3 (-> & Hi4 & El3 & Eq3 & En3 & Eo3). cbn [negb Z.eqb].
    set (l3 := if bool_decide _ then _ else l2) in El3.
    assert (Hl3 : lookups s3 !! p = Some l3) by by rewrite El3, lookup_insert_eq.
    eapply returns_step; [done|]. apply returns_ret.
    assert (Ho : exists q, owns l3 q).
    { unfold l3, l2, owns. destruct (result_family s1); cbn; eauto. }
    destruct Ho as [q Ho].
    split; [by apply (push_inv p l3 q); [|rewrite Eq3, Eq2|..]|].
    split. { rewrite app_nil_r. unfold answered in *. by rewrite omap_app, Eo2, Eo3. }
    assert (En : nameserver_list (set_lookup_queue (lookup_queue s3 ++ [p]) s3) = nameserver_list s1) by (cbn; by rewrite En3, En2).
    unfold started. rewrite En. destruct (nameserver_list s1) eqn:E1; [done|]. split; [|done].
    rewrite (pending_push p l3 s3 Hl3). f_equal.
    + apply pending_ext; [by rewrite Eq3, Eq2|]. intros p' Hp'. assert (p' <> p) by (intros ->; done).
      rewrite El3, El2, !lookup_insert_ne by done. cbn. by rewrite lookup_insert_ne.
    + f_equal. unfold l3, l2. by repeat case_bool_decide.
Qed.

End handlers.

(** ** Runs *)

(** What the callers of the library and the main loop do. *)
Inductive event :=
| E_lookup (hostname : list Z) (data : Z)
| E_cancel (lid : Z)
| E_data (ns : Z) (error : bool) (buf : list Z)
| E_timeout (q : Z)
| E_add_nameserver (addr : list Z) (prt flgs : Z)
| E_flush
| E_family (f : sa_family)
| E_ref
| E_unref.

Section returns.
Context `{!QSort}.

Definition handle (e : env) (ev : event) : M unit :=
  match ev with
  | E_lookup h d => g_resolv_lookup_hostname e h d;; pskip
  | E_cancel lid => g_resolv_cancel_lookup lid;; pskip
  | E_data ns error buf =>
      l ← pget nameserver_list;
      if existsb (fun n => (ns_ptr n =? ns) && udp_watch n) l then received_udp_data e ns error buf else pskip
  | E_timeout q => t ← pget timers; if bool_decide (q ∈ t) then query_timeout e q else pskip
  | E_add_nameserver a p f => g_resolv_add_nameserver e a p f;; pskip
  | E_flush => g_resolv_flush_nameservers
  | E_family f => g_resolv_set_address_family f;; pskip
  | E_ref => g_resolv_ref
  | E_unref => g_resolv_unref
  end.

Definition started_by (ev : event) (s' : GResolv) : list Z :=
  match ev with E_lookup _ d => started d s' | _ => [] end.

Definition dropped_by (ev : event) (s : GResolv) : list Z :=
  match ev with
  | E_cancel lid => cancelled lid s
  | E_unref => if ref_count s =? 1 then pending s else []
  | _ => []
  end.

(** The lookups that were started, answered and dropped. *)
Record ledger := mk_ledger { l_started : list Z; l_answered : list Z; l_dropped : list Z }.

(** Nothing is done with a resolver that has been freed. *)
Fixpoint run (tr : list (env * event)) (s : GResolv) : option (GResolv * ledger) :=
  match tr with
  | [] => Some (s, mk_ledger [] [] [])
  | (e, ev) :: tr =>
      if ref_count s <=? 0 then run tr s
      else
        match handle e ev s with
        | None => None
        | Some (_, s', o) =>
            '(s2, g) ← run tr s';
            Some (s2, mk_ledger (started_by ev s' ++ l_started g) (answered o ++ l_answered g) (dropped_by ev s ++ l_dropped g))
        end
  end.

Lemma set_family_inv f b s : inv b s -> inv b (set_result_family f s).
Proof. by intros [? ? ? ? ? ? ? ? ? ? ? ? ?]; split. Qed.

(** A watch belongs to a name server that has not been freed. *)
Lemma load_nameserver_run ns s : existsb (fun n => (ns_ptr n =? ns) && udp_watch n) (nameserver_list s) = true ->
  exists n, load_nameserver ns s = Some (n, s, []).
Proof.
  intros (n & Hn & Hp)%existsb_exists. apply andb_true_iff in Hp as [Hp _].
  destruct (List.find (fun n => ns_ptr n =? ns) (nameserver_list s)) as [m|] eqn:E.
  - exists m. unfold load_nameserver. eapply bind_next; [done|]. unfold plift. by rewrite E.
  - pose proof (List.find_none _ _ E n Hn). congruence.
Qed.

Lemma handle_run e ev s : (roomy = true -> results_alloc e = true) -> inv None s -> returns (handle e ev) s (fun _ s' o => inv None s' /\
  pending s ++ started_by ev s' ≡ₚ pending s' ++ answered o ++ dropped_by ev s).
Proof.
  intros Hroom Hi. destruct ev as [h d|lid|ns error buf|q|a p f| |f| |]; cbn [handle started_by dropped_by].
  - eapply returns_bind; [by apply lookup_run|]. intros r s' o (Hi' & Eo & Ep & _). apply returns_skip.
    split; [done|]. by rewrite Ep, !app_nil_r, Eo, app_nil_r.
  - eapply returns_bind; [by apply cancel_run|]. intros r s' o (Hi' & -> & Ep). apply returns_skip.
    split; [done|]. cbn. by rewrite app_nil_r, Ep.
  - rewrite !app_nil_r. eapply returns_step; [done|].
    destruct (existsb _ _) eqn:En; [|apply returns_skip; cbn [answered omap list_omap app]; by rewrite app_nil_r].
    destruct (load_nameserver_run ns s En) as [n Hn].
    unfold received_udp_data. eapply returns_step; [exact Hn|]. destruct error; [|destruct (length buf <? 12)%nat].
    + eexists _, _, _. split; [done|]. split; [by apply set_nameservers_inv|]. cbn [answered omap list_omap app]. by rewrite app_nil_r.
    + apply returns_skip. cbn [answered omap list_omap app]. by rewrite app_nil_r.
    + eapply returns_conseq; [by apply response_run|]. intros _ s' o [? Ep]. split; [done|]. by rewrite Ep, app_nil_r.
  - eapply returns_step; [done|]. rewrite !app_nil_r. case_bool_decide.
    + eapply returns_conseq; [by apply query_timeout_run|]. intros _ s' o (? & Ep & _). split; [done|]. by rewrite Ep, app_nil_r.
    + apply returns_skip. cbn [answered omap list_omap app]. by rewrite app_nil_r.
  - eapply returns_bind; [apply add_nameserver_run|]. intros r s' o ([Hc Hf _ _ _] & -> & _). apply returns_skip.
    split; [by apply (core_inv s)|]. by rewrite (core_pending s s' Hc).
  - eexists _, _, _. split; [done|]. split; [by apply set_nameservers_inv|done].
  - eexists _, _, _. split; [done|]. split; [by apply set_family_inv|done].
  - eexists _, _, _. split; [done|]. split; [by apply set_ref_inv|done].
  - eapply returns_conseq; [by apply unref_run|]. intros _ s' o (? & -> & Ep & _). split; [done|]. rewrite app_nil_r. exact Ep.
Qed.

(** Two balances one after the other. *)
Lemma perm_chain (p p1 p2 s1 s2 a1 a2 d1 d2 : list Z) :
  p ++ s1 ≡ₚ p1 ++ a1 ++ d1 -> p1 ++ s2 ≡ₚ p2 ++ a2 ++ d2 -> p ++ s1 ++ s2 ≡ₚ p2 ++ (a1 ++ a2) ++ d1 ++ d2.
Proof.
  rewrite !(Permutation_count_occ Z.eq_dec). intros H1 H2 x. specialize (H1 x). specialize (H2 x).
  rewrite !count_occ_app in *. lia.
Qed.

Lemma run_total tr : (roomy = true -> forallb (fun x => results_alloc x.1) tr = true) -> forall s, inv None s -> exists s' g, run tr s = Some (s', g) /\ inv None s' /\
  pending s ++ l_started g ≡ₚ pending s' ++ l_answered g ++ l_dropped g.
Proof.
  induction tr as [|[e ev] tr IH]; intros Hroom s Hi; cbn [run]; [by eexists _, _|].
  assert (Hroom' : roomy = true -> results_alloc e = true /\ forallb (fun x => results_alloc x.1) tr = true).
  { intros Hr. specialize (Hroom Hr). cbn [forallb fst] in Hroom. by apply andb_true_iff in Hroom. }
  specialize (IH (fun Hr => proj2 (Hroom' Hr))). destruct (ref_count s <=? 0); [by apply IH|].
  destruct (handle_run e ev s (fun Hr => proj1 (Hroom' Hr)) Hi) as ([] & s1 & o & -> & Hi1 & Hp).
  destruct (IH s1 Hi1) as (s2 & g & -> & Hi2 & Hg). eexists s2, _. split; [done|]. split; [done|].
  by apply perm_chain with (pending s1).
Qed.

Lemma new_inv idx conf : inv None (mk_resolv 1 AF_UNSPEC 1 [] [] idx [] conf ∅ ∅ [] 1).
Proof.
  split; cbn [lookup_queue query_queue timers lookups queries fresh]; try (by constructor).
  all: intros p; rewrite ?lookup_empty.
  all: try (by intros ? ?%lookup_empty_Some || by intros ? ? ?%lookup_empty_Some).
  all: try (by intros []).
  - by intros ?%not_elem_of_nil.
  - by split; [intros ?%not_elem_of_nil|intros []].
  - by split; [intros ?%not_elem_of_nil|intros []].
Qed.

End returns.

End roomy.

Section accounts.
Context `{!QSort}.

(** There was memory for the results whenever a handler asked for it. *)
Definition roomy_run (tr : list (env * event)) : bool := forallb (fun x => results_alloc x.1) tr.

(** C11: whatever is asked of a new resolver, whatever arrives from its servers and in whatever order its timers fire, no
    handler reads memory that was freed and every lookup that was started is either still waiting, or was answered, or was
    cancelled (or ended with the resolver), exactly once. *)
Theorem lookups_accounted idx conf s tr : g_resolv_new idx conf = Some s ->
  exists s' g, run tr s = Some (s', g) /\ inv (roomy_run tr) None s' /\ l_started g ≡ₚ pending s' ++ l_answered g ++ l_dropped g.
Proof.
  intros E. unfold g_resolv_new in E. destruct (idx <? 0); [done|]. injection E as <-.
  destruct (run_total (roomy_run tr) tr (fun H => H) _ (new_inv _ idx conf)) as (s' & g & E & Hi & Hp). by exists s', g.
Qed.

(** ** Timeouts *)

Definition timeouts (ts : list (env * Z)) : list (env * event) := map (fun t => (t.1, E_timeout t.2)) ts.

Lemma g_list_remove_perm (x : Z) l l' : x :: l ≡ₚ l' -> l ≡ₚ g_list_remove x l'.
Proof.
  intros Hp. apply (Permutation_cons_inv (a := x)). rewrite Hp.
  assert (Hx : x ∈ l') by (rewrite <- Hp; by left). clear Hp. induction l' as [|y l' IH]; [by apply not_elem_of_nil in Hx|].
  cbn [g_list_remove]. destruct (decide (x = y)) as [->|]; [done|].
  apply elem_of_cons in Hx as [|Hx]; [done|]. rewrite (IH Hx) at 1. constructor.
Qed.

(** Without timers no lookup waits. *)
Lemma no_timers s : inv true None s -> timers s = [] -> lookup_queue s = [].
Proof.
  intros Hi Et. destruct (lookup_queue s) as [|p l] eqn:E; [done|].
  destruct (inv_lookup _ _ _ Hi p) as [m Hm]; [rewrite E; by left|].
  destruct (inv_busy _ _ _ Hi p m Hm) as [|[[q Hq]|]]; [done| |done]. destruct (inv_owns _ _ _ Hi p m q Hm Hq) as (x & Hx & _).
  assert (Hq' : q ∈ timers s) by (apply (inv_timer _ _ _ Hi); by rewrite Hx). rewrite Et in Hq'. by apply not_elem_of_nil in Hq'.
Qed.

Lemma timeouts_run ts : roomy_run (timeouts ts) = true -> forall s, inv true None s -> 0 < ref_count s -> map snd ts ≡ₚ timers s ->
  exists s' an, run (timeouts ts) s = Some (s', mk_ledger [] an []) /\ lookup_queue s' = [] /\ an ≡ₚ pending s.
Proof.
  induction ts as [|[e q] ts IH]; intros Hroom s Hi Hr Hp; cbn [timeouts map run fst snd].
  - exists s, []. assert (Et : timers s = []) by (apply Permutation_nil; done).
    split; [done|]. rewrite (no_timers s Hi Et). split; [done|]. unfold pending. by rewrite (no_timers s Hi Et).
  - rewrite (proj2 (Z.leb_gt _ _)) by lia. cbn [map snd] in Hp.
    assert (Hq : q ∈ timers s) by (rewrite <- Hp; by left).
    apply andb_true_iff in Hroom as [He Hroom]. specialize (IH Hroom).
    destruct (query_timeout_run true e (fun _ => He) q s Hi Hq) as ([] & s1 & o & E1 & Hi1 & Hp1 & Et & Er).
    assert (Eh : handle e (E_timeout q) s = Some (tt, s1, o)).
    { cbn [handle]. eapply bind_next; [done|]. by rewrite bool_decide_true. }
    rewrite Eh. destruct (IH s1 Hi1) as (s2 & an & E2 & El & Ha); [by rewrite Er|rewrite Et; by apply g_list_remove_perm|].
    fold (timeouts ts). rewrite E2. cbn [mbind option_bind started_by dropped_by app l_started l_answered l_dropped].
    eexists s2, _. split; [done|]. split; [done|]. by rewrite Ha, Hp1, Permutation_app_comm.
Qed.

(** C12: from every state a resolver can get to while there is memory for the results of its lookups, once the timers of
    the queries have fired, in whatever order and with nothing arriving from the servers, every lookup that waited has been
    answered and none is left: no lookup waits for longer than its timeouts.  Where there is no memory for the results a
    lookup is never answered ([lookup_lost_without_memory]). *)
Theorem lookups_time_out idx conf s tr s1 g ts : g_resolv_new idx conf = Some s -> run tr s = Some (s1, g) ->
  roomy_run (tr ++ timeouts ts) = true -> 0 < ref_count s1 -> map snd ts ≡ₚ timers s1 ->
  exists s' an, run (timeouts ts) s1 = Some (s', mk_ledger [] an []) /\ lookup_queue s' = [] /\ an ≡ₚ pending s1.
Proof.
  intros E Er Hroom Hr Ht. unfold roomy_run in Hroom. rewrite forallb_app in Hroom. apply andb_true_iff in Hroom as [Htr Hts].
  unfold g_resolv_new in E. destruct (idx <? 0); [done|]. injection E as <-.
  destruct (run_total true tr (fun _ => Htr) _ (new_inv true idx conf)) as (s2 & g2 & E2 & Hi & _).
  rewrite E2 in Er. injection Er as -> ->. by apply timeouts_run.
Qed.

End accounts.

(** ** What is answered *)

Section answers.
Context `{!QSort} (e : env).

Lemma omap_texts l : omap (fun r => result_text e (dst r)) l = omap (result_text e) (map dst l).
Proof. induction l as [|r l IH]; [done|]. cbn. by destruct (result_text e (dst r)); cbn; rewrite <- ?IH. Qed.

(** A lookup whose queries are all gone: the output is the sorted list. *)
Lemma finish_answers p l s sorted : results_alloc e = true -> lookups s !! p = Some l -> ipv4_query l = None -> ipv6_query l = None ->
  rfc3484_sort_results (route e) (results l) = Some sorted ->
  finish_lookup e p s = Some (tt, removed p s,
    [Result (result_data l) (result_status (result_family s) l) (omap (result_text e) (map dst sorted))]).
Proof.
  intros Ha Hl E4 E6 Es. unfold finish_lookup. eapply bind_next; [by apply load_lookup_run|]. rewrite E4, E6.
  unfold sort_and_return_results. eapply bind_next; [by apply load_lookup_run|]. rewrite Ha. cbn [negb].
  eapply bind_next; [unfold plift; by rewrite Es|]. eapply bind_next; [done|]. eapply bind_next; [done|].
  rewrite omap_texts. apply (bind_next _ _ _ tt (removed p s)); [|done].
  unfold destroy_lookup. eapply bind_next; [by apply load_lookup_run|]. by rewrite E4, E6.
Qed.

(** The lookup after such a reply. *)
Lemma last_reply_lookup q a l : owns l q -> ipv4_query l = None \/ ipv6_query l = None ->
  let l' := clear_query q (add_results a (note_status q SUCCESS l)) in
  ipv4_query l' = None /\ ipv6_query l' = None /\ results l' = results l ++ omap answer_of a /\ result_data l' = result_data l /\
  result_status AF_UNSPEC l' = SUCCESS.
Proof.
  intros Ho Hone l'. unfold l', clear_query, note_status.
  destruct (decide (ipv6_query l = Some q)) as [E6|N6].
  - rewrite (bool_decide_true (ipv6_query l = Some q)) by done. rewrite bool_decide_true by done.
    destruct Hone as [E4|]; [|congruence]. done.
  - destruct Ho as [E4|]; [|done]. destruct Hone as [|En]; [congruence|].
    rewrite (bool_decide_false (ipv6_query l = Some q)), (bool_decide_true (ipv4_query l = Some q)) by done.
    rewrite bool_decide_false by done. do 4 (split; [done|]).
    cbn [result_status with_queries add_results with_results with_statuses ipv4_status ipv6_status]. by case_bool_decide.
Qed.

(** C19: if there is memory for the results, a successful reply to the last query of a lookup of a resolver for both
    families of addresses is answered at once, with success and the addresses of all the replies: those gathered before and
    those of this reply, in the order of [dst_rank], which is computed from each address and the source address the kernel
    has for it: those with a source address first, then those of the same scope as their source, of the same label, of
    higher precedence, of smaller scope and with the longer common prefix. *)
Theorem last_reply_answers s buf msg q x l roomy : inv roomy None s -> result_family s = AF_UNSPEC -> results_alloc e = true ->
  ns_initparse e buf = Some msg ->
  find_query (queries s) (ns_msg_id msg) (query_queue s) = Some (Some q) -> queries s !! q = Some x ->
  lookups s !! q_lookup x = Some l -> ipv4_query l = None \/ ipv6_query l = None ->
  ns_rcode msg = 0 -> ns_answers msg <> [] ->
  let dsts := results l ++ omap answer_of (ns_answers msg) in
  Forall sa_ok dsts -> (forall d a, d ∈ dsts -> route e d = Some a -> sa_ok a) ->
  exists s' sorted, parse_response e buf s = Some (tt, s', [Result (result_data l) SUCCESS (omap (result_text e) sorted)]) /\
    sorted ≡ₚ dsts /\ StronglySorted (fun a b => lex (dst_rank (route e) a) (dst_rank (route e) b) <= 0) sorted /\
    lookups s' !! q_lookup x = None /\ queries s' !! q = None.
Proof.
  intros Hi Hf Ha Em Eq Hx Hl Hone Hrc Hans dsts Hok Hroute.
  destruct (inv_armed _ _ _ Hi q x Hx) as (Ht & l0 & Hl0 & Ho). rewrite Hl in Hl0. injection Hl0 as <-.
  destruct (sort_ranked (route e) dsts Hok Hroute) as (sorted & Es & Hperm & Hsorted).
  assert (Hst : status_of_rcode (ns_rcode msg) (length (ns_answers msg)) = SUCCESS).
  { unfold status_of_rcode. rewrite Hrc. cbn. by destruct (ns_answers msg). }
  set (l3 := clear_query q (add_results (ns_answers msg) (note_status q SUCCESS l))).
  destruct (last_reply_lookup q (ns_answers msg) l Ho Hone) as (E4 & E6 & Er & Ed & E5). fold l3 in E4, E6, Er, Ed, E5.
  exists (removed (q_lookup x) (released q (q_lookup x) l3 s)), (map dst sorted).
  split; [|split; [done|]; split; [done|]; split; cbn; by rewrite lookup_delete_eq].
  unfold parse_response. rewrite Em. eapply bind_next; [done|]. eapply bind_next; [unfold plift; cbn; by rewrite Eq|].
  rewrite Hst. eapply bind_next; [by apply load_query_run|]. eapply bind_next; [by eapply store_query_run|].
  eapply bind_next; [by apply load_lookup_run|]. eapply bind_next; [by eapply store_lookup_run|].
  change (negb (bool_decide (SUCCESS = SUCCESS))) with false. cbn [andb with_nr_ns q_lookup].
  eapply bind_next; [eapply store_lookup_run; cbn; by rewrite lookup_insert_eq|]. eapply bind_next; [done|]. fold l3.
  apply (bind_next _ _ _ tt (released q (q_lookup x) l3 s)).
  { erewrite destroy_query_run; [|cbn; by rewrite lookup_insert_eq|done]. unfold killed, released. cbn.
    by rewrite delete_insert_eq, insert_insert_eq. }
  rewrite (finish_answers (q_lookup x) l3 _ sorted); [|done|cbn; by rewrite lookup_insert_eq|done|done|by rewrite Er].
  change (result_family (released q (q_lookup x) l3 s)) with (result_family s). by rewrite Hf, Ed, E5.
Qed.

End answers.

(** ** Examples *)

Section examples.
#[local] Existing Instance qsort_reference.

(** Messages of a toy format: two bytes for the number, ten more, and the data of one record; names without a first byte
    cannot be written. *)
Definition demo_env : env := {|
  res_mkquery h t := match h with [] => None | _ => Some [0; match t with ns_t_a => 1 | ns_t_aaaa => 2 end] end;
  stack := [9; 9];
  ns_initparse b := Some (mk_msg (Z.lor (Z.shiftl (nth 0 b 0) 8) (nth 1 b 0)) 0
    [Some (mk_rr 1 (if (length b =? 16)%nat then 1 else 28) (drop 12 b))]);
  connect_udp _ _ := Some 7;
  inet_ntop _ a := Some a;
  route := demo_route;
  results_alloc := true;
|}.

Definition demo_new : GResolv := mk_resolv 1 AF_UNSPEC 1 [] [] 0 [] [] ∅ ∅ [] 1.
Definition v4_reply : list Z := [0; 1] ++ replicate 10 0 ++ sin_addr v4_host.
Definition v6_reply : list Z := [0; 2] ++ replicate 10 0 ++ sin6_addr v6_near.

(** A lookup, its two replies, a lookup that is cancelled and one that is left. *)
Definition demo_trace : list (env * event) :=
  map (pair demo_env) [E_lookup [97] 100; E_lookup [98] 101; E_data 1 false v4_reply; E_data 1 false v6_reply; E_cancel 2; E_lookup [99] 102].

Lemma lookups_accounted_witness : exists s' g, run demo_trace demo_new = Some (s', g) /\ inv true None s' /\
  l_started g ≡ₚ pending s' ++ l_answered g ++ l_dropped g.
Proof. apply (lookups_accounted 0 [] demo_new demo_trace). reflexivity. Defined.

Lemma demo_ledger : (fun r => (pending r.1, r.2)) <$> run demo_trace demo_new = Some ([102], mk_ledger [100; 101; 102] [100] [101]).
Proof. vm_compute. reflexivity. Qed.

Definition demo_state : GResolv := match run demo_trace demo_new with Some (s, _) => s | None => demo_new end.
Definition demo_ledger_of : ledger := match run demo_trace demo_new with Some (_, g) => g | None => mk_ledger [] [] [] end.

Lemma lookups_time_out_witness : exists s' an,
  run (timeouts (map (pair demo_env) (timers demo_state))) demo_state = Some (s', mk_ledger [] an []) /\
  lookup_queue s' = [] /\ an ≡ₚ pending demo_state.
Proof.
  apply (lookups_time_out 0 [] demo_new demo_trace demo_state demo_ledger_of).
  - reflexivity.
  - vm_compute. reflexivity.
  - vm_compute. reflexivity.
  - vm_compute. reflexivity.
  - by rewrite map_map, map_id.
Defined.

(** The state in which one reply is missing. *)
Definition demo_wait : GResolv :=
  match run (map (pair demo_env) [E_lookup [97] 100; E_data 1 false v4_reply]) demo_new with Some (s, _) => s | None => demo_new end.

Lemma demo_wait_inv : inv true None demo_wait.
Proof.
  unfold demo_wait. destruct (run_total true (map (pair demo_env) [E_lookup [97] 100; E_data 1 false v4_reply]) (fun _ => eq_refl) demo_new (new_inv true 0 []))
    as (s & g & E & Hi & _). by rewrite E.
Qed.

Lemma demo_sa_ok : Forall sa_ok [v4_host; v6_near].
Proof. repeat (apply Forall_cons_2; [by apply sa_okb_ok|]). constructor. Qed.

Lemma last_reply_answers_witness : exists s' sorted, parse_response demo_env v6_reply demo_wait =
    Some (tt, s', [Result 100 SUCCESS (omap (result_text demo_env) sorted)]) /\
  sorted ≡ₚ [v4_host; v6_near] /\ StronglySorted (fun a b => lex (dst_rank demo_route a) (dst_rank demo_route b) <= 0) sorted /\
  lookups s' !! 2 = None /\ queries s' !! 4 = None.
Proof.
  apply (last_reply_answers demo_env demo_wait v6_reply (mk_msg 2 0 [Some (mk_rr 1 28 (sin6_addr v6_near))]) 4
    (mk_query 1 true 2 2) (mk_lookup 1 [v4_host] None (Some 4) SUCCESS SUCCESS 100) true); try reflexivity.
  - apply demo_wait_inv.
  - by left.
  - done.
  - apply demo_sa_ok.
  - intros d a _. cbn [route demo_env]. unfold demo_route. repeat case_bool_decide; intros E; inversion E; by apply sa_okb_ok.
Defined.

(** Without memory for the results the last reply leaves the lookup in the queue, with nothing that would ever answer it. *)
Definition full_env : env := mk_env (res_mkquery demo_env) (stack demo_env) (ns_initparse demo_env) (connect_udp demo_env)
  (inet_ntop demo_env) (route demo_env) false.

Lemma lookup_lost_without_memory :
  (fun r => (pending r.1.2, query_queue r.1.2, timers r.1.2, r.2)) <$> parse_response full_env v6_reply demo_wait = Some ([100], [], [], []).
Proof. vm_compute. reflexivity. Qed.

(** A name that cannot be written is not refused: nothing is sent, and the lookup waits for its timeouts. *)
Lemma unwritable_name_waits : exists s', g_resolv_lookup_hostname demo_env [] 100 demo_new = Some (1, s', []) /\ pending s' = [100].
Proof. eexists. split; vm_compute; reflexivity. Qed.

End examples.

End GresolvProps.
