(* ===== verification/Resolver.v ===== *)
(** * The name servers of the services (src/resolver.c)

    Servers and search domains come from the services and, with a lifetime, from router advertisements.  They are handed to
    the DNS proxy or written to resolv.conf; fallback servers are used while no service has one.

    Entries are objects with an address, and the sources of the main loop refer to them.  [outputs] are the calls of
    the DNS proxy, of the services and of the network, and the file that is written.  The calls a service makes back
    while it takes a server are events of their own: they come last in the handler that makes them.  Memory can be
    allocated. *)

From S2P Require Import Prelude Inet Effects Glib Double.
From stdpp Require Import list gmap.
Open Scope Z_scope.

Module Resolver.

Definition ENOENT : Z := 2.
Definition EEXIST : Z := 17.
Definition ENOTSUP : Z := 95.

(** A string or NULL; [g_strcmp0] is 0 if they are the same. *)
Abbreviation cstring := (option (list Z)).
Definition strcmp0 (a b : cstring) : bool := bool_decide (a = b).

Inductive callback := resolver_refresh_cb | resolver_expire_cb.

#[global] Instance callback_eq_dec : EqDecision callback.
Proof. solve_decision. Defined.

Record entry_data := mk_entry {
  e_ptr : Z;
  e_index : Z;
  e_domain : cstring;
  e_server : cstring;
  e_family : Z;
  e_flags : Z;
  e_lifetime : Z;
  e_timeout : Z;            (** the source, or 0 *)
}.

Record resolvfile_entry := mk_file {
  f_index : Z;
  f_domain : cstring;
  f_server : cstring;
}.

(** A source that was added for an entry, with its interval. *)
Record source := mk_source { s_cb : callback; s_entry : Z; s_interval : Z }.

Record resolver := mk_resolver {
  entry_list : list entry_data;
  dnsproxy_enabled : bool;
  resolvfile_list : list resolvfile_entry;
  sources : gmap Z source;
  next_source : Z;
  next_entry : Z;
}.

Inductive output :=
| Dnsproxy_append (index : Z) (domain server : cstring)
| Dnsproxy_remove (index : Z) (domain server : cstring)
| Service_append (index : Z) (server : cstring)
| Service_remove (index : Z) (server : cstring)
| Send_rs (index : Z)                      (** a router solicitation *)
| Write_resolvfile (content : list Z)      (** what the file is to hold *)
| Source_unknown (id : Z).                 (** a warning of GLib: no such source *)

(** The world: the interfaces that have a service, the family of the text of an address, and what comes of opening and
    writing the file that is configured, if there is one. *)
Record env := mk_env {
  has_service : Z -> bool;
  check_ipaddress : list Z -> Z;
  export_result : Z;
}.

Definition M (A : Type) : Type := pprog resolver output A.

Definition set_entries (l : list entry_data) (s : resolver) : resolver :=
  mk_resolver l (dnsproxy_enabled s) (resolvfile_list s) (sources s) (next_source s) (next_entry s).
Definition set_enabled (b : bool) (s : resolver) : resolver :=
  mk_resolver (entry_list s) b (resolvfile_list s) (sources s) (next_source s) (next_entry s).
Definition set_resolvfile (l : list resolvfile_entry) (s : resolver) : resolver :=
  mk_resolver (entry_list s) (dnsproxy_enabled s) l (sources s) (next_source s) (next_entry s).
Definition set_sources (m : gmap Z source) (s : resolver) : resolver :=
  mk_resolver (entry_list s) (dnsproxy_enabled s) (resolvfile_list s) m (next_source s) (next_entry s).
Definition set_next_source (n : Z) (s : resolver) : resolver :=
  mk_resolver (entry_list s) (dnsproxy_enabled s) (resolvfile_list s) (sources s) n (next_entry s).
Definition set_next_entry (n : Z) (s : resolver) : resolver :=
  mk_resolver (entry_list s) (dnsproxy_enabled s) (resolvfile_list s) (sources s) (next_source s) n.

Definition with_timeout (t : Z) (e : entry_data) : entry_data :=
  mk_entry (e_ptr e) (e_index e) (e_domain e) (e_server e) (e_family e) (e_flags e) (e_lifetime e) t.

(** ** Lifetimes *)

(** 0.8 *)
Definition RESOLVER_LIFETIME_REFRESH_THRESHOLD : double := dconst 8 10.

Definition refresh_interval (lifetime : Z) : Z := u32 (trunc (dmul (double_of lifetime) RESOLVER_LIFETIME_REFRESH_THRESHOLD)).

Definition expire_interval (lifetime : Z) : Z :=
  u32 (trunc (dadd (dmul (double_of lifetime) (dsub (double_of 1) RESOLVER_LIFETIME_REFRESH_THRESHOLD)) (double_of 1))).

(** ** Sources *)

Definition g_timeout_add_seconds (interval : Z) (cb : callback) (entry : Z) : M Z :=
  id ← pget next_source;
  pmodify (set_next_source (id + 1));;
  pmodify (fun s => set_sources (<[id := mk_source cb entry interval]> (sources s)) s);;
  mret id.

Definition g_source_remove (id : Z) : M unit :=
  m ← pget sources;
  match m !! id with
  | Some _ => pmodify (fun s => set_sources (delete id (sources s)) s)
  | None => pemit (Source_unknown id)
  end.

(** ** Entries *)

Fixpoint find_ptr (p : Z) (l : list entry_data) : option entry_data :=
  match l with
  | [] => None
  | e :: l => if e_ptr e =? p then Some e else find_ptr p l
  end.

(** The entry behind a pointer; a pointer to memory that was freed fails. *)
Definition load (p : Z) : M entry_data := fun s => e ← find_ptr p (entry_list s); Some (e, s, []).

Definition set_timeout (p t : Z) : M unit :=
  load p;; pmodify (fun s => set_entries (map (fun e => if e_ptr e =? p then with_timeout t e else e) (entry_list s)) s).

Definition unlink (p : Z) : M unit :=
  pmodify (fun s => set_entries (List.filter (fun e => negb (e_ptr e =? p)) (entry_list s)) s).

(** ** resolv.conf *)

Definition MAXDNSRCH : nat := 6.
Definition MAXNS : nat := 3.

Definition already_exported (export_list : list (list Z)) (str : list Z) : bool :=
  existsb (fun str0 => strcmp0 (Some str0) (Some str)) export_list.

(** The strings that are exported: the list that was passed through, and the count. *)
Fixpoint exported (max : nat) (field : resolvfile_entry -> cstring) (l : list resolvfile_entry) (export_list : list (list Z)) (count : nat) :
    list (list Z) :=
  match l with
  | [] => export_list
  | e :: l =>
      if (count <? max)%nat then
        match field e with
        | None => exported max field l export_list count
        | Some str =>
            if already_exported export_list str then exported max field l export_list count
            else exported max field l (export_list ++ [str]) (S count)
        end
      else export_list
  end.

(** "# Generated by Connection Manager\n", "search ", "nameserver " *)
Definition header : list Z :=
  [35; 32; 71; 101; 110; 101; 114; 97; 116; 101; 100; 32; 98; 121; 32; 67; 111; 110; 110; 101; 99; 116; 105; 111; 110; 32; 77; 97; 110; 97; 103; 101; 114; 10].
Definition search : list Z := [115; 101; 97; 114; 99; 104; 32].
Definition nameserver : list Z := [110; 97; 109; 101; 115; 101; 114; 118; 101; 114; 32].

Definition resolvfile_content (l : list resolvfile_entry) : list Z :=
  let domains := exported MAXDNSRCH f_domain l [] 0 in
  let servers := exported MAXNS f_server l [] 0 in
  header
  ++ (match domains with [] => [] | _ => search ++ concat (map (fun d => d ++ [32]) domains) ++ [10] end)
  ++ concat (map (fun d => nameserver ++ d ++ [10]) servers).

Section resolver.
Context (env : env).

Definition resolvfile_export : M Z :=
  l ← pget resolvfile_list;
  pemit (Write_resolvfile (resolvfile_content l));;
  mret (export_result env).

Definition __connman_resolvfile_append (index : Z) (domain server : cstring) : M Z :=
  if index <? 0 then mret (- ENOENT)
  else
    pmodify (fun s => set_resolvfile (resolvfile_list s ++ [mk_file index domain server]) s);;
    resolvfile_export.

Definition resolvfile_matches (index : Z) (domain server : cstring) (e : resolvfile_entry) : bool :=
  if (0 <=? index) && negb (f_index e =? index) then false
  else if bool_decide (domain <> None) && negb (strcmp0 (f_domain e) domain) then false
  else if negb (strcmp0 (f_server e) server) then false
  else true.

Definition __connman_resolvfile_remove (index : Z) (domain server : cstring) : M Z :=
  pmodify (fun s => set_resolvfile (List.filter (fun e => negb (resolvfile_matches index domain server e)) (resolvfile_list s)) s);;
  resolvfile_export.

(** ** The back end *)

Definition backend_append (index : Z) (domain server : cstring) : M unit :=
  b ← pget dnsproxy_enabled;
  if b : bool then pemit (Dnsproxy_append index domain server)
  else __connman_resolvfile_append index domain server;; pskip.

Definition backend_remove (index : Z) (domain server : cstring) : M unit :=
  b ← pget dnsproxy_enabled;
  if b : bool then pemit (Dnsproxy_remove index domain server)
  else __connman_resolvfile_remove index domain server;; pskip.

(** The loops over the fallback servers. *)
Fixpoint append_fallback (l : list entry_data) : M unit :=
  match l with
  | [] => pskip
  | e :: l =>
      (if negb (e_index e =? -1) || bool_decide (e_server e = None) then pskip
       else backend_append (e_index e) (e_domain e) (e_server e));;
      append_fallback l
  end.

Definition __connman_resolver_append_fallback_nameservers : M unit :=
  l ← pget entry_list;
  if existsb (fun e => (0 <=? e_index e) && bool_decide (e_server e <> None)) l then pskip
  else append_fallback l.

Fixpoint remove_fallback (l : list entry_data) : M unit :=
  match l with
  | [] => pskip
  | e :: l =>
      (if (0 <=? e_index e) || bool_decide (e_server e = None) then pskip
       else backend_remove (e_index e) (e_domain e) (e_server e));;
      remove_fallback l
  end.

Definition remove_fallback_nameservers : M unit := l ← pget entry_list; remove_fallback l.

(** The entries of a list are removed, one after the other. *)
Fixpoint remove_each (l : list Z) : M unit :=
  match l with
  | [] => pskip
  | p :: l =>
      e ← load p;
      unlink p;;
      backend_remove (e_index e) (e_domain e) (e_server e);;
      (if e_timeout e =? 0 then pskip else g_source_remove (e_timeout e));;
      remove_each l
  end.

Definition remove_entries (l : list Z) : M unit :=
  remove_each l;;
  __connman_resolver_append_fallback_nameservers.

(** ** Timers *)

Definition expire (p : Z) : M unit :=
  e ← load p;
  (if 0 <=? e_index e then
     if has_service env (e_index e) then pemit (Service_remove (e_index e) (e_server e)) else pskip
   else pskip);;
  remove_entries [p].

Definition refresh (p : Z) : M unit :=
  e ← load p;
  t ← g_timeout_add_seconds (expire_interval (e_lifetime e)) resolver_expire_cb p;
  set_timeout p t;;
  (if (0 <=? e_index e) && has_service env (e_index e) then pemit (Send_rs (e_index e)) else pskip).

(** The main loop calls the callback of a source that has not been removed, and removes the source. *)
Definition dispatch (id : Z) : M unit :=
  m ← pget sources;
  match m !! id with
  | None => pskip
  | Some src =>
      (match s_cb src with
       | resolver_refresh_cb => refresh (s_entry src)
       | resolver_expire_cb => expire (s_entry src)
       end);;
      pmodify (fun s => set_sources (delete id (sources s)) s)
  end.

(** ** Appending *)

Definition append_resolver (index : Z) (domain server : cstring) (lifetime flags : Z) : M Z :=
  if bool_decide (server = None) && bool_decide (domain = None) then mret (- EINVAL)
  else
    p ← pget next_entry;
    pmodify (set_next_entry (p + 1));;
    let family := match server with Some s => check_ipaddress env s | None => 0 end in
    t ← (if lifetime =? 0 then mret 0 else g_timeout_add_seconds (refresh_interval lifetime) resolver_refresh_cb p);
    (if (0 <=? index) && bool_decide (server <> None) then remove_fallback_nameservers else pskip);;
    pmodify (fun s => set_entries (entry_list s ++ [mk_entry p index domain server family flags lifetime t]) s);;
    backend_append index domain server;;
    (if bool_decide (server <> None) && (0 <=? index) && negb (lifetime =? 0) && has_service env index
     then pemit (Service_append index server) else pskip);;
    mret 0.

Definition same_entry (index : Z) (domain server : cstring) (e : entry_data) : bool :=
  (e_index e =? index) && strcmp0 (e_domain e) domain && strcmp0 (e_server e) server.

Definition connman_resolver_append (index : Z) (domain server : cstring) : M Z :=
  if bool_decide (server = None) && bool_decide (domain = None) then mret (- EINVAL)
  else
    l ← pget entry_list;
    match List.find (fun e => negb (0 <? e_timeout e) && same_entry index domain server e) l with
    | Some e =>
        b ← pget dnsproxy_enabled;
        (if b : bool then pemit (Dnsproxy_append (e_index e) domain server) else pskip);;
        mret (- EEXIST)
    | None => append_resolver index domain server 0 0
    end.

Definition connman_resolver_append_lifetime (index : Z) (domain server : cstring) (lifetime : Z) : M Z :=
  if bool_decide (server = None) && bool_decide (domain = None) then mret (- EINVAL)
  else
    l ← pget entry_list;
    match List.find (fun e => negb (e_timeout e =? 0) && same_entry index domain server e) l with
    | Some e =>
        g_source_remove (e_timeout e);;
        if lifetime =? 0 then expire (e_ptr e);; mret 0
        else
          t ← g_timeout_add_seconds (refresh_interval lifetime) resolver_refresh_cb (e_ptr e);
          set_timeout (e_ptr e) t;;
          mret 0
    | None => append_resolver index domain server lifetime 0
    end.

(** ** Removing *)

Definition connman_resolver_remove (index : Z) (domain server : cstring) : M Z :=
  l ← pget entry_list;
  match List.find (same_entry index domain server) l with
  | None => mret (- ENOENT)
  | Some e => remove_entries [e_ptr e];; mret 0
  end.

Definition connman_resolver_remove_all (index : Z) : M Z :=
  if index <? 0 then mret (- EINVAL)
  else
    l ← pget entry_list;
    match rev (map e_ptr (List.filter (fun e => e_index e =? index) l)) with
    | [] => mret (- ENOENT)
    | ps => remove_entries ps;; mret 0
    end.

(** ** Servers whose source address has changed *)

Definition AF_INET6 : Z := 10.

Fixpoint redo_each (index : Z) (l : list entry_data) : M unit :=
  match l with
  | [] => pskip
  | e :: l =>
      (if (e_timeout e =? 0) || negb (e_index e =? index) then pskip
       else if negb (e_family e =? AF_INET6) then pskip
       else
         pemit (Dnsproxy_remove (e_index e) (e_domain e) (e_server e));;
         pemit (Dnsproxy_append (e_index e) (e_domain e) (e_server e)));;
      redo_each index l
  end.

Fixpoint redo_domains (index : Z) (l : list entry_data) : M unit :=
  match l with
  | [] => pskip
  | e :: l =>
      (if negb (e_index e =? index) then pskip
       else if bool_decide (e_server e <> None) then pskip
       else pemit (Dnsproxy_append (e_index e) (e_domain e) None));;
      redo_domains index l
  end.

Definition __connman_resolver_redo_servers (index : Z) : M Z :=
  b ← pget dnsproxy_enabled;
  if negb b then mret 0
  else if index <? 0 then mret (- EINVAL)
  else
    l ← pget entry_list;
    redo_each index l;;
    l ← pget entry_list;
    redo_domains index l;;
    mret 0.

(** ** Start *)

Fixpoint append_pnp (i : Z) (ns : list (list Z)) : M unit :=
  match ns with
  | [] => pskip
  | n :: ns => append_resolver i None (Some n) 86400 0;; append_pnp (i + 1) ns
  end.

Definition RESOLVER_FLAG_PUBLIC : Z := 1.

Fixpoint append_public (ns : list (list Z)) : M unit :=
  match ns with
  | [] => pskip
  | n :: ns => append_resolver (-1) None (Some n) 0 RESOLVER_FLAG_PUBLIC;; append_public ns
  end.

(** [proxy_ok]: the DNS proxy could be started. *)
Definition __connman_resolver_init (dnsproxy proxy_ok : bool) (pnp fallback : list (list Z)) : M Z :=
  append_pnp 0 pnp;;
  if negb dnsproxy then mret 0
  else if negb proxy_ok then mret 0
  else
    pmodify (set_enabled true);;
    append_public fallback;;
    mret 0.

End resolver.

Definition start : resolver := mk_resolver [] false [] ∅ 1 1.

End Resolver.
