(* ===== verification/ResolverProps.v ===== *)
(** * Entries, timers and the back end (src/resolver.c)

    Every timer belongs to an entry that exists and every entry with a lifetime has a timer; the DNS proxy has the servers
    of the entries, or the fallback servers while no service has one. *)

From S2P Require Import Prelude Inet Effects Glib Resolver.
From stdpp Require Import list gmap.
Open Scope Z_scope.

Module ResolverProps.
Import Resolver.

(** ** The invariant *)

(** [xs]: a source that is being dispatched may have lost its entry; [xe]: the source of an entry that is being changed
    may be gone. *)
Record inv (xs xe : option Z) (s : resolver) : Prop := {
  inv_ptrs : NoDup (map e_ptr (entry_list s));
  inv_fresh e : e ∈ entry_list s -> e_ptr e < next_entry s;
  inv_source e : e ∈ entry_list s -> e_timeout e <> 0 -> xe = Some (e_ptr e) /\ sources s !! e_timeout e = None \/
    exists src, sources s !! e_timeout e = Some src /\ s_entry src = e_ptr e;
  inv_entry id src : sources s !! id = Some src -> xs = Some id \/
    exists e, e ∈ entry_list s /\ e_ptr e = s_entry src /\ e_timeout e = id;
  inv_ids id : is_Some (sources s !! id) -> 0 < id < next_source s;
  inv_next : 0 < next_source s;
  inv_lifetime e : e ∈ entry_list s -> e_lifetime e <> 0 -> e_timeout e <> 0;
}.

(** What the back ends do not touch. *)
Definition core (s : resolver) := (entry_list s, dnsproxy_enabled s, sources s, next_source s, next_entry s).

Lemma kept_inv xs xe s s' : core s' = core s -> inv xs xe s -> inv xs xe s'.
Proof.
  destruct s, s'. unfold core. cbn. intros [= -> -> -> -> ->] [H1 H2 H3 H4 H5 H6 H7]. by split.
Qed.

Lemma ptr_inj l e e' : NoDup (map e_ptr l) -> e ∈ l -> e' ∈ l -> e_ptr e = e_ptr e' -> e = e'.
Proof.
  intros Hd He He' E. induction l as [|x l IH]; [by apply not_elem_of_nil in He|].
  cbn in Hd. apply list.NoDup_cons in Hd as [Hx Hd].
  apply elem_of_cons in He as [->|He]; apply elem_of_cons in He' as [->|He']; [done|..|by apply IH]; exfalso; apply Hx.
  - rewrite E. by apply list_elem_of_fmap_2.
  - rewrite <- E. by apply list_elem_of_fmap_2.
Qed.

Lemma find_ptr_in p l e : find_ptr p l = Some e -> e ∈ l /\ e_ptr e = p.
Proof.
  induction l as [|x l IH]; [done|]. cbn. destruct (Z.eqb_spec (e_ptr x) p); [intros [= <-]; by split; [left|]|].
  intros [? ?]%IH. by split; [right|].
Qed.

Lemma find_ptr_elem l e : NoDup (map e_ptr l) -> e ∈ l -> find_ptr (e_ptr e) l = Some e.
Proof.
  intros Hd He. destruct (find_ptr (e_ptr e) l) as [x|] eqn:E.
  - apply find_ptr_in in E as [Hx Ep]. by rewrite (ptr_inj l x e Hd Hx He Ep).
  - exfalso. induction l as [|y l IH]; [by apply not_elem_of_nil in He|]. cbn in E, Hd. apply list.NoDup_cons in Hd as [_ Hd].
    destruct (Z.eqb_spec (e_ptr y) (e_ptr e)); [done|]. apply elem_of_cons in He as [->|He]; [done|by apply IH].
Qed.

Lemma elem_of_bfilter (f : entry_data -> bool) l e : e ∈ List.filter f l <-> e ∈ l /\ f e = true.
Proof. rewrite !list_elem_of_In. apply filter_In. Qed.

Lemma NoDup_bfilter (f : entry_data -> bool) l : NoDup (map e_ptr l) -> NoDup (map e_ptr (List.filter f l)).
Proof.
  induction l as [|e l IH]; [done|]. cbn. intros [Hn Hd]%list.NoDup_cons. destruct (f e); [|by apply IH].
  cbn. apply list.NoDup_cons. split; [|by apply IH]. intros (x & Ex & Hx)%list_elem_of_fmap. apply elem_of_bfilter in Hx as [Hx _].
  apply Hn. rewrite Ex. by apply list_elem_of_fmap_2.
Qed.

(** *** Removing an entry and its source *)

Definition without (p : Z) (l : list entry_data) : list entry_data := List.filter (fun e => negb (e_ptr e =? p)) l.

Lemma elem_of_without p l e : e ∈ without p l <-> e ∈ l /\ e_ptr e <> p.
Proof. unfold without. rewrite elem_of_bfilter, negb_true_iff, Z.eqb_neq. done. Qed.

Lemma unlinked_inv e xs xe s : inv xs xe s -> e ∈ entry_list s -> xe = None \/ xe = Some (e_ptr e) ->
  inv xs None (set_sources (delete (e_timeout e) (sources s)) (set_entries (without (e_ptr e) (entry_list s)) s)).
Proof.
  intros Hi He Hx. pose proof (inv_ptrs _ _ _ Hi) as Hd. split; cbn [set_sources set_entries entry_list sources next_source next_entry].
  - by apply NoDup_bfilter.
  - intros e' [He' _]%elem_of_without. by apply (inv_fresh _ _ _ Hi).
  - intros e' [He' Hne]%elem_of_without Ht. right.
    destruct (inv_source _ _ _ Hi e' He' Ht) as [[E _]|(src & Hs & Es)]; [destruct Hx; congruence|].
    exists src. split; [|done]. rewrite lookup_delete_ne; [done|]. intros Et.
    destruct (inv_source _ _ _ Hi e He) as [[_ E]|(src' & Hs' & Es')]; congruence.
  - intros id src [Hne Hs]%lookup_delete_Some. destruct (inv_entry _ _ _ Hi id src Hs) as [|(e' & He' & Ep & Et)]; [by left|]. right.
    exists e'. split; [|done]. apply elem_of_without. split; [done|]. intros E. rewrite (ptr_inj _ e' e Hd He' He E) in Et. congruence.
  - intros id [_ Hs]%lookup_delete_is_Some. by apply (inv_ids _ _ _ Hi).
  - apply (inv_next _ _ _ Hi).
  - intros e' [He' _]%elem_of_without. by apply (inv_lifetime _ _ _ Hi).
Qed.

(** The mode does not matter. *)
Lemma core_inv_mode xs xe s : inv xs xe s -> forall b, inv xs xe (set_enabled b s).
Proof. intros [H1 H2 H3 H4 H5 H6 H7] b. by split. Qed.

(** ** Outputs in the mode with a proxy *)

(** Those of a loop that makes one call for the entries with [f]. *)
Definition calls (f : entry_data -> bool) (g : entry_data -> list output) (l : list entry_data) : list output :=
  concat (map g (List.filter f l)).

Definition is_fallback (e : entry_data) : bool := (e_index e =? -1) && bool_decide (e_server e <> None).
Definition is_negative (e : entry_data) : bool := (e_index e <? 0) && bool_decide (e_server e <> None).
Definition call_append (e : entry_data) : list output := [Dnsproxy_append (e_index e) (e_domain e) (e_server e)].
Definition call_remove (e : entry_data) : list output := [Dnsproxy_remove (e_index e) (e_domain e) (e_server e)].
Definition is_real (e : entry_data) : bool := (0 <=? e_index e) && bool_decide (e_server e <> None).

Definition fallback_calls (l : list entry_data) : list output := if existsb is_real l then [] else calls is_fallback call_append l.

(** [m] leaves the core alone; with a proxy its outputs are [o]. *)
Definition quiet {A} (m : M A) (s : resolver) (o : list output) : Prop :=
  returns m s (fun _ s' o' => core s' = core s /\ (dnsproxy_enabled s = true -> o' = o)).

(** ** What the proxy has *)

Abbreviation view := (gset (Z * list Z)).

(** A server for an interface is kept until it is removed; domains do not matter here. *)
Definition apply_output (v : view) (o : output) : view :=
  match o with
  | Dnsproxy_append i _ (Some n) => {[(i, n)]} ∪ v
  | Dnsproxy_remove i _ (Some n) => v ∖ {[(i, n)]}
  | _ => v
  end.

Definition replay (o : list output) (v : view) : view := foldl apply_output v o.

Lemma replay_app o1 o2 v : replay (o1 ++ o2) v = replay o2 (replay o1 v).
Proof. apply foldl_app. Qed.

Definition pair_of (e : entry_data) : option (Z * list Z) := (fun n => (e_index e, n)) <$> e_server e.
Definition servers_of (l : list entry_data) : list (Z * list Z) := omap pair_of l.

Lemma elem_of_servers x l : x ∈ servers_of l <-> exists e, e ∈ l /\ pair_of e = Some x.
Proof. apply list_elem_of_omap. Qed.

Lemma elem_of_servers_filter x f l : x ∈ (list_to_set (servers_of (List.filter f l)) : view) <->
  exists e, e ∈ l /\ f e = true /\ pair_of e = Some x.
Proof.
  rewrite elem_of_list_to_set, elem_of_servers. split.
  - intros (e & [He Hf]%elem_of_bfilter & Hx). by exists e.
  - intros (e & He & Hf & Hx). exists e. rewrite elem_of_bfilter. done.
Qed.

Lemma elem_of_servers_one x e : x ∈ (list_to_set (servers_of [e]) : view) <-> pair_of e = Some x.
Proof.
  rewrite elem_of_list_to_set, elem_of_servers. split; [|intros Hx; exists e; by rewrite list_elem_of_singleton].
  by intros (e' & ->%list_elem_of_singleton & Hx).
Qed.

Lemma filter_filter (f g : entry_data -> bool) l : List.filter f (List.filter g l) = List.filter (fun e => g e && f e) l.
Proof. induction l as [|e l IH]; [done|]. cbn. destruct (g e); cbn; [|done]. destruct (f e); by rewrite IH. Qed.

Definition among (ps : list Z) (e : entry_data) : bool := bool_decide (e_ptr e ∈ ps).

Lemma filter_among_cons p ps l :
  List.filter (fun e => negb (among ps e)) (without p l) = List.filter (fun e => negb (among (p :: ps) e)) l.
Proof.
  unfold without. rewrite filter_filter. apply filter_ext. intros e. unfold among.
  destruct (Z.eqb_spec (e_ptr e) p) as [->|]; cbn [negb andb]; [rewrite bool_decide_true by (by left); done|].
  f_equal. apply bool_decide_ext. rewrite elem_of_cons. tauto.
Qed.

Lemma apply_remove v e : apply_output v (Dnsproxy_remove (e_index e) (e_domain e) (e_server e)) = v ∖ list_to_set (servers_of [e]).
Proof. apply set_eq. intros x. unfold servers_of, pair_of. cbn. destruct (e_server e); cbn; set_solver. Qed.

Lemma apply_append v e : apply_output v (Dnsproxy_append (e_index e) (e_domain e) (e_server e)) = list_to_set (servers_of [e]) ∪ v.
Proof. apply set_eq. intros x. unfold servers_of, pair_of. cbn. destruct (e_server e); cbn; set_solver. Qed.

Lemma servers_removed_cons (e : entry_data) (ps : list Z) (l : list entry_data) (v : view) : NoDup (map e_ptr l) -> e ∈ l ->
  v ∖ list_to_set (servers_of [e]) ∖ list_to_set (servers_of (List.filter (among ps) (without (e_ptr e) l))) =
  v ∖ list_to_set (servers_of (List.filter (among (e_ptr e :: ps)) l)).
Proof.
  intros Hd He. apply set_eq. intros x. rewrite !elem_of_difference, !elem_of_servers_filter, elem_of_servers_one. split.
  - intros [[Hv Hn] Hn2]. split; [done|]. intros (e' & He' & Ha & Ex). destruct (decide (e_ptr e' = e_ptr e)) as [E|E].
    + by rewrite (ptr_inj _ e' e Hd He' He E) in Ex.
    + apply Hn2. exists e'. split; [by apply elem_of_without|]. split; [|done]. unfold among in *. rewrite bool_decide_eq_true in *.
      apply elem_of_cons in Ha as [|]; done.
  - intros [Hv Hn]. split; [split; [done|]|].
    + intros Ex. apply Hn. exists e. split; [done|]. split; [|done]. unfold among. apply bool_decide_eq_true. by left.
    + intros (e' & [He' _]%elem_of_without & Ha & Ex). apply Hn. exists e'. split; [done|]. split; [|done].
      unfold among in *. rewrite bool_decide_eq_true in *. by right.
Qed.

Lemma replay_appends (f : entry_data -> bool) (l : list entry_data) (v : view) : replay (calls f call_append l) v = list_to_set (servers_of (List.filter f l)) ∪ v.
Proof.
  unfold calls. revert v. induction (List.filter f l) as [|e l' IH]; intros v; cbn [map concat]; [cbn; by rewrite union_empty_l_L|].
  rewrite replay_app, IH. change (replay (call_append e) v) with (apply_output v (Dnsproxy_append (e_index e) (e_domain e) (e_server e))).
  rewrite apply_append. apply set_eq. intros x. rewrite !elem_of_union, elem_of_servers_one, !elem_of_list_to_set, !elem_of_servers.
  split.
  - intros [(e' & He' & Ex)|[Ex|]]; [left; exists e'; by split; [right|]|left; exists e; by split; [left|]|by right].
  - intros [(e' & [->|He']%elem_of_cons & Ex)|]; [right; by left|left; by exists e'|right; by right].
Qed.

Lemma replay_removes (f : entry_data -> bool) (l : list entry_data) (v : view) : replay (calls f call_remove l) v = v ∖ list_to_set (servers_of (List.filter f l)).
Proof.
  unfold calls. revert v. induction (List.filter f l) as [|e l' IH]; intros v; cbn [map concat]; [cbn; by rewrite difference_empty_L|].
  rewrite replay_app, IH. change (replay (call_remove e) v) with (apply_output v (Dnsproxy_remove (e_index e) (e_domain e) (e_server e))).
  rewrite apply_remove. apply set_eq. intros x. rewrite !elem_of_difference, elem_of_servers_one, !elem_of_list_to_set, !elem_of_servers.
  split.
  - intros [[Hv Hn] Hn2]. split; [done|]. intros (e' & [->|He']%elem_of_cons & Ex); [done|]. apply Hn2. by exists e'.
  - intros [Hv Hn]. split; [split; [done|]|].
    + intros Ex. apply Hn. exists e. by split; [left|].
    + intros (e' & He' & Ex). apply Hn. exists e'. by split; [right|].
Qed.

(** ** What the proxy should have *)

Definition expected (l : list entry_data) : view :=
  list_to_set (servers_of (List.filter (if existsb is_real l then is_real else is_fallback) l)).

(** No server was entered twice for an interface. *)
Record distinct (l : list entry_data) : Prop := {
  distinct_servers e e' x : e ∈ l -> e' ∈ l -> pair_of e = Some x -> pair_of e' = Some x -> e = e';
  distinct_index e : e ∈ l -> -1 <= e_index e;
}.

Lemma pair_of_server e x : pair_of e = Some x -> x.1 = e_index e /\ e_server e <> None.
Proof. unfold pair_of. destruct (e_server e); [|done]. by intros [= <-]. Qed.

Lemma is_real_spec e : is_real e = true <-> 0 <= e_index e /\ e_server e <> None.
Proof. unfold is_real. rewrite andb_true_iff, Z.leb_le, bool_decide_eq_true. done. Qed.

Lemma is_fallback_spec e : is_fallback e = true <-> e_index e = -1 /\ e_server e <> None.
Proof. unfold is_fallback. rewrite andb_true_iff, Z.eqb_eq, bool_decide_eq_true. done. Qed.

Lemma real_exists l : existsb is_real l = true <-> exists e, e ∈ l /\ is_real e = true.
Proof.
  rewrite existsb_exists. split; intros (e & He & Hr); exists e; (split; [|done]); by apply list_elem_of_In.
Qed.

(** A server the proxy should have. *)
Lemma elem_of_expected x l : x ∈ expected l <->
  exists e, e ∈ l /\ pair_of e = Some x /\ (0 <= e_index e \/ e_index e = -1 /\ existsb is_real l = false).
Proof.
  unfold expected. rewrite elem_of_servers_filter. destruct (existsb is_real l) eqn:E.
  - split; intros (e & He & H1 & H2).
    + exists e. apply is_real_spec in H1 as [? _]. auto.
    + destruct (pair_of_server e x H1) as [_ Hs]. exists e. destruct H2 as [|[_ ?]]; [|done]. by rewrite is_real_spec.
  - split; intros (e & He & H1 & H2).
    + exists e. apply is_fallback_spec in H1 as [? _]. auto.
    + destruct (pair_of_server e x H1) as [_ Hs]. exists e. rewrite is_fallback_spec. destruct H2 as [Hi|[Hi _]]; [|done].
      exfalso. assert (existsb is_real l = true); [|congruence]. apply real_exists. exists e. by rewrite is_real_spec.
Qed.

Definition rest (ps : list Z) (l : list entry_data) : list entry_data := List.filter (fun e => negb (among ps e)) l.

Lemma elem_of_rest e ps l : e ∈ rest ps l <-> e ∈ l /\ e_ptr e ∉ ps.
Proof. unfold rest, among. rewrite elem_of_bfilter, negb_true_iff, bool_decide_eq_false. done. Qed.

Lemma no_real_rest ps l : existsb is_real l = false -> existsb is_real (rest ps l) = false.
Proof.
  intros Hn. apply not_true_iff_false. intros (e & [He _]%elem_of_rest & Hr)%real_exists.
  apply not_true_iff_false in Hn. apply Hn, real_exists. by exists e.
Qed.

Lemma replay_fallback l v : replay (fallback_calls l) v =
  (if existsb is_real l then v else list_to_set (servers_of (List.filter is_fallback l)) ∪ v).
Proof. unfold fallback_calls. destruct (existsb is_real l); [done|apply replay_appends]. Qed.

(** Removing entries, and turning to the fallback servers if none of a service is left. *)
Lemma expected_remove ps l : distinct l ->
  replay (fallback_calls (rest ps l)) (expected l ∖ list_to_set (servers_of (List.filter (among ps) l))) = expected (rest ps l).
Proof.
  intros Hd. rewrite replay_fallback. apply set_eq. intros x.
  assert (Hr : x ∈ expected l ∖ list_to_set (servers_of (List.filter (among ps) l)) -> x ∈ expected (rest ps l)).
  { rewrite elem_of_difference, !elem_of_expected, elem_of_servers_filter. intros [(e & He & Ex & Hi) Hn].
    exists e. rewrite elem_of_rest. split; [|split; [done|]].
    - split; [done|]. intros Hp. apply Hn. exists e. unfold among. by rewrite bool_decide_true.
    - destruct Hi as [|[? Hn2]]; [by left|right]. split; [done|]. by apply no_real_rest. }
  assert (Hl : forall e, e ∈ rest ps l -> pair_of e = Some x -> 0 <= e_index e ->
    x ∈ expected l ∖ list_to_set (servers_of (List.filter (among ps) l))).
  { intros e [He Hp]%elem_of_rest Ex Hi. rewrite elem_of_difference, elem_of_expected, elem_of_servers_filter. split; [exists e; auto|].
    intros (e' & He' & Ha & Ex'). rewrite (distinct_servers _ Hd e' e x) in Ha by done. unfold among in Ha. by rewrite bool_decide_eq_true in Ha. }
  destruct (existsb is_real (rest ps l)) eqn:E.
  - split; [done|]. intros (e & He & Ex & Hi)%elem_of_expected. destruct Hi as [|[_ ?]]; [|congruence]. by apply (Hl e).
  - rewrite elem_of_union. split.
    + intros [(e & He & Hf & Ex)%elem_of_servers_filter|]; [|by apply Hr]. apply elem_of_expected. exists e.
      apply is_fallback_spec in Hf as [? _]. auto.
    + intros (e & He & Ex & Hi)%elem_of_expected. destruct Hi as [|[Hi _]]; [right; by apply (Hl e)|left].
      apply elem_of_servers_filter. exists e. rewrite is_fallback_spec. destruct (pair_of_server e x Ex). auto.
Qed.

Lemma distinct_rest ps l : distinct l -> distinct (rest ps l).
Proof.
  intros [H1 H2]. split.
  - intros e e' x [He _]%elem_of_rest [He' _]%elem_of_rest. by apply H1.
  - intros e [He _]%elem_of_rest. by apply H2.
Qed.

(** A new entry: the fallback servers give way to one of a service. *)
Definition append_calls (l : list entry_data) (e : entry_data) : list output :=
  (if is_real e then calls is_negative call_remove l else []) ++ call_append e.

Lemma expected_append l e : 0 <= e_index e \/ e_index e = -1 /\ existsb is_real l = false ->
  replay (append_calls l e) (expected l) = expected (l ++ [e]).
Proof.
  intros Hi. unfold append_calls. rewrite replay_app.
  change (replay (call_append e) ?v) with (apply_output v (Dnsproxy_append (e_index e) (e_domain e) (e_server e))). rewrite apply_append.
  assert (Er : existsb is_real (l ++ [e]) = existsb is_real l || is_real e) by (rewrite existsb_app; cbn; by rewrite orb_false_r).
  apply set_eq. intros x. rewrite elem_of_union, elem_of_servers_one, elem_of_expected, Er. destruct (is_real e) eqn:Ee.
  - rewrite replay_removes, elem_of_difference, elem_of_expected, elem_of_servers_filter, orb_true_r.
    apply is_real_spec in Ee as [Hidx _]. split.
    + intros [Ex|[(e' & He' & Ex & Hi') Hn]]; [exists e; rewrite elem_of_app, list_elem_of_singleton; auto|].
      exists e'. rewrite elem_of_app. split; [by left|]. split; [done|]. left. destruct Hi' as [|[Hm _]]; [done|].
      destruct Hn. exists e'. destruct (pair_of_server e' x Ex). unfold is_negative. rewrite Hm, bool_decide_true; done.
    + intros (e' & [He'| ->%list_elem_of_singleton]%elem_of_app & Ex & Hi'); [|by left]. right. destruct Hi' as [Hp|[_ ?]]; [|done].
      split; [exists e'; auto|]. intros (e2 & _ & Hng & Ex2). destruct (pair_of_server e' x Ex) as [E1 _], (pair_of_server e2 x Ex2) as [E2 _].
      unfold is_negative in Hng. apply andb_true_iff in Hng as [Hng%Z.ltb_lt _]. lia.
  - change (replay [] (expected l)) with (expected l). rewrite orb_false_r, elem_of_expected. split.
    + intros [Ex|(e' & He' & Ex & Hi')]; [exists e|exists e']; rewrite elem_of_app, ?list_elem_of_singleton; auto.
    + intros (e' & [He'| ->%list_elem_of_singleton]%elem_of_app & Ex & Hi'); [right; eauto|by left].
Qed.

Section handlers.
Context (env : env).

Lemma backend_append_quiet index domain server s : quiet (backend_append env index domain server) s [Dnsproxy_append index domain server].
Proof.
  unfold quiet, backend_append. eapply returns_step; [done|]. destruct (dnsproxy_enabled s) eqn:E; [by eexists _, _, _|].
  unfold __connman_resolvfile_append. destruct (index <? 0); by eexists _, _, _.
Qed.

Lemma backend_remove_quiet index domain server s : quiet (backend_remove env index domain server) s [Dnsproxy_remove index domain server].
Proof.
  unfold quiet, backend_remove. eapply returns_step; [done|]. destruct (dnsproxy_enabled s) eqn:E; by eexists _, _, _.
Qed.

Lemma quiet_skip s : quiet (A := unit) pskip s [].
Proof. by apply returns_skip. Qed.

Lemma backend_quiet_bind {A B} (m : M A) (k : A -> M B) s o1 o2 : quiet m s o1 -> (forall a s', core s' = core s -> quiet (k a) s' o2) ->
  quiet (m ≫= k) s (o1 ++ o2).
Proof.
  intros Hm Hk. eapply returns_bind; [apply Hm|]. intros a s1 o (E1 & Ho). eapply returns_conseq; [by apply Hk|].
  intros b s2 o' (E2 & Ho'). split; [congruence|]. intros He. rewrite Ho by done. rewrite Ho'; [done|].
  unfold core in E1. congruence.
Qed.

Lemma append_fallback_quiet l : forall s, quiet (append_fallback env l) s (calls is_fallback call_append l).
Proof.
  induction l as [|e l IH]; intros s; cbn [append_fallback]; [apply quiet_skip|].
  replace (calls is_fallback call_append (e :: l)) with ((if is_fallback e then call_append e else []) ++ calls is_fallback call_append l)
    by (unfold calls; cbn; by destruct (is_fallback e)).
  apply backend_quiet_bind; [|by intros]. unfold is_fallback. destruct (Z.eqb_spec (e_index e) (-1)) as [E|]; cbn [negb orb andb]; [|apply quiet_skip].
  case_bool_decide; [rewrite bool_decide_false by auto; apply quiet_skip|]. rewrite bool_decide_true by done. apply backend_append_quiet.
Qed.

Lemma remove_fallback_quiet l : forall s, quiet (remove_fallback env l) s (calls is_negative call_remove l).
Proof.
  induction l as [|e l IH]; intros s; cbn [remove_fallback]; [apply quiet_skip|].
  replace (calls is_negative call_remove (e :: l)) with ((if is_negative e then call_remove e else []) ++ calls is_negative call_remove l)
    by (unfold calls; cbn; by destruct (is_negative e)).
  apply backend_quiet_bind; [|by intros]. unfold is_negative. destruct (Z.leb_spec 0 (e_index e)); cbn [orb].
  { rewrite (proj2 (Z.ltb_ge _ _)) by done. apply quiet_skip. }
  rewrite (proj2 (Z.ltb_lt _ _)) by done. cbn [andb].
  case_bool_decide; [rewrite bool_decide_false by auto; apply quiet_skip|]. rewrite bool_decide_true by done. apply backend_remove_quiet.
Qed.

Lemma fallback_quiet s : quiet (__connman_resolver_append_fallback_nameservers env) s (fallback_calls (entry_list s)).
Proof.
  unfold quiet, __connman_resolver_append_fallback_nameservers, fallback_calls. eapply returns_step; [done|].
  change (fun e => (0 <=? e_index e) && bool_decide (e_server e <> None)) with is_real.
  destruct (existsb is_real (entry_list s)); [by apply returns_skip|apply append_fallback_quiet].
Qed.

Lemma entry_load_run p e s : find_ptr p (entry_list s) = Some e -> load p s = Some (e, s, []).
Proof. intros E. unfold load. by rewrite E. Qed.

(** The entry is gone, and its source; what is left of the handler can only be a warning. *)
Lemma source_remove_run t s : returns (if t =? 0 then pskip else g_source_remove t) s (fun _ s' o =>
  (is_Some (sources s !! t) -> 0 < t) -> s' = set_sources (delete t (sources s)) s /\ forall v, replay o v = v).
Proof.
  assert (Hn : sources s !! t = None -> set_sources (delete t (sources s)) s = s).
  { intros E. rewrite delete_id by done. by destruct s. }
  destruct (Z.eqb_spec t 0) as [->|].
  - apply returns_skip. intros Ht. split; [|done]. rewrite Hn; [done|]. destruct (sources s !! 0) eqn:E; [|done]. specialize (Ht (mk_is_Some _ _ eq_refl)). lia.
  - unfold g_source_remove. eapply returns_step; [done|]. destruct (sources s !! t) eqn:E; eexists _, _, _; (split; [done|]); intros _.
    + done.
    + split; [by rewrite Hn|done].
Qed.

Lemma remove_each_run ps : forall xe s xs, inv xs xe s -> NoDup ps -> (forall p, p ∈ ps -> exists e, e ∈ entry_list s /\ e_ptr e = p) ->
  (forall p, xe = Some p -> ps = [p]) ->
  returns (remove_each env ps) s (fun _ s' o => inv xs (match ps with [] => xe | _ => None end) s' /\
    entry_list s' = List.filter (fun e => negb (among ps e)) (entry_list s) /\ dnsproxy_enabled s' = dnsproxy_enabled s /\
    (dnsproxy_enabled s = true -> forall v, replay o v = v ∖ list_to_set (servers_of (List.filter (among ps) (entry_list s))))).
Proof.
  induction ps as [|p ps IH]; intros xe s xs Hi Hd Hin Hx; cbn [remove_each].
  { apply returns_skip. split; [done|]. rewrite (filter_ext _ (fun _ => true)) by done. split; [by rewrite List.filter_true|].
    split; [done|]. intros _ v. rewrite (filter_ext _ (fun _ => false)) by done. rewrite List.filter_false. cbn. set_solver. }
  destruct (Hin p ltac:(by left)) as (e & He & <-). apply list.NoDup_cons in Hd as [Hp Hd].
  eapply returns_step; [apply entry_load_run, find_ptr_elem; [apply (inv_ptrs _ _ _ Hi)|done]|].
  eapply returns_step; [done|]. fold (without (e_ptr e) (entry_list s)).
  eapply returns_bind; [apply backend_remove_quiet|]. intros [] s1 o1 [E1 Ho1].
  eapply returns_bind; [apply source_remove_run|]. intros [] s2 o2 H2.
  assert (Ec : core s1 = core (set_entries (without (e_ptr e) (entry_list s)) s)) by done. unfold core in Ec. cbn in Ec.
  injection Ec as El Ee Es En Ep.
  assert (Hpos : is_Some (sources s1 !! e_timeout e) -> 0 < e_timeout e).
  { rewrite Es. intros Hs%(inv_ids _ _ _ Hi). lia. }
  destruct (H2 Hpos) as [-> Ho2]. clear H2.
  assert (Hi2 : inv xs None (set_sources (delete (e_timeout e) (sources s1)) s1)).
  { apply (kept_inv _ _ (set_sources (delete (e_timeout e) (sources s)) (set_entries (without (e_ptr e) (entry_list s)) s))).
    - unfold core. cbn. by rewrite El, Ee, Es, En, Ep.
    - apply (unlinked_inv e xs xe); [done..|]. destruct xe as [p|]; [right|by left]. by injection (Hx p eq_refl) as ->. }
  eapply returns_conseq; [apply (IH None _ xs Hi2 Hd)|].
  - intros p Hp'. destruct (Hin p ltac:(by right)) as (e' & He' & <-). exists e'. split; [|done]. cbn. rewrite El.
    apply elem_of_without. split; [done|]. intros E. by rewrite E in Hp'.
  - done.
  - intros [] s3 o3 (Hi3 & El3 & Ee3 & Ho3). cbn in El3, Ee3, Ho3. rewrite El in El3, Ho3. rewrite Ee in Ee3, Ho3.
    split; [by destruct ps|]. split; [rewrite El3; apply filter_among_cons|]. split; [done|]. intros Hen v.
    rewrite !replay_app, Ho3, Ho2, (Ho1 Hen) by done. cbn [replay foldl]. rewrite apply_remove.
    apply servers_removed_cons; [apply (inv_ptrs _ _ _ Hi)|done].
Qed.

(** *** Removing entries *)

Lemma remove_entries_run ps xe s xs : inv xs xe s -> NoDup ps -> ps <> [] -> (forall p, p ∈ ps -> exists e, e ∈ entry_list s /\ e_ptr e = p) ->
  (forall p, xe = Some p -> ps = [p]) ->
  returns (remove_entries env ps) s (fun _ s' o => inv xs None s' /\ entry_list s' = rest ps (entry_list s) /\
    dnsproxy_enabled s' = dnsproxy_enabled s /\
    (dnsproxy_enabled s = true -> distinct (entry_list s) -> replay o (expected (entry_list s)) = expected (entry_list s'))).
Proof.
  intros Hi Hd Hne Hin Hx. unfold remove_entries. eapply returns_bind; [by apply (remove_each_run ps xe s xs)|].
  intros [] s1 o1 (Hi1 & El & Ee & Ho1). eapply returns_conseq; [apply fallback_quiet|]. intros [] s2 o2 [Ec Ho2].
  unfold core in Ec. injection Ec as El2 Ee2 Es2 En2 Ep2.
  split; [apply (kept_inv _ _ s1); [unfold core; congruence|by destruct ps]|]. split; [by rewrite El2, El|]. split; [congruence|].
  intros Hen Hds. rewrite replay_app, (Ho1 Hen), Ho2 by congruence. rewrite El2, El. by apply expected_remove.
Qed.

Lemma expire_run p e xe s xs : inv xs xe s -> e ∈ entry_list s -> e_ptr e = p -> (forall p', xe = Some p' -> p' = p) ->
  returns (expire env p) s (fun _ s' o => inv xs None s' /\ entry_list s' = rest [p] (entry_list s) /\
    dnsproxy_enabled s' = dnsproxy_enabled s /\
    (dnsproxy_enabled s = true -> distinct (entry_list s) -> replay o (expected (entry_list s)) = expected (entry_list s'))).
Proof.
  intros Hi He Ep Hx. unfold expire. eapply returns_step.
  { apply entry_load_run. rewrite <- Ep. apply find_ptr_elem; [apply (inv_ptrs _ _ _ Hi)|done]. }
  eapply (returns_bind _ _ _ (fun _ s' o => s' = s /\ forall v, replay o v = v)).
  { destruct (0 <=? e_index e); [|by apply returns_skip]. destruct (has_service env (e_index e)); [|by apply returns_skip]. by eexists _, _, _. }
  intros [] s1 o1 [-> Ho1]. eapply returns_conseq.
  { apply (remove_entries_run [p] xe s xs); [done|apply NoDup_singleton|done| |].
    - intros p' ->%list_elem_of_singleton. by exists e.
    - intros p' E. by rewrite (Hx p' E). }
  intros [] s2 o2 (Hi2 & El & Ee & Ho2). split; [done|]. split; [done|]. split; [done|]. intros Hen Hd. by rewrite replay_app, Ho1, Ho2.
Qed.

(** *** Timers of entries *)

(** An entry with a new source. *)
Definition retimed (p t : Z) (l : list entry_data) : list entry_data := map (fun e => if e_ptr e =? p then with_timeout t e else e) l.

Lemma elem_of_retimed p t l e : e ∈ retimed p t l <-> exists e0, e0 ∈ l /\ e = if e_ptr e0 =? p then with_timeout t e0 else e0.
Proof. unfold retimed. rewrite list_elem_of_fmap. split; intros (e0 & ? & ?); by exists e0. Qed.

Lemma retimed_ptrs p t l : map e_ptr (retimed p t l) = map e_ptr l.
Proof. unfold retimed. rewrite map_map. apply map_ext. intros e. by destruct (e_ptr e =? p). Qed.

(** The source of an entry is replaced; the one it had is that of the exception or gone. *)
Lemma retimed_inv p e cb iv s xs xe : inv xs xe s -> e ∈ entry_list s -> e_ptr e = p -> xe = None \/ xe = Some p ->
  (is_Some (sources s !! e_timeout e) -> xs = Some (e_timeout e)) ->
  inv xs None (set_entries (retimed p (next_source s) (entry_list s))
    (set_sources (<[next_source s := mk_source cb p iv]> (sources s)) (set_next_source (next_source s + 1) s))).
Proof.
  intros Hi He Ep Hx Hs. set (t := next_source s). pose proof (inv_next _ _ _ Hi) as Ht. fold t in Ht.
  assert (Htn : sources s !! t = None).
  { destruct (sources s !! t) eqn:E; [|done]. pose proof (inv_ids _ _ _ Hi t (mk_is_Some _ _ E)). lia. }
  split; cbn [set_entries set_sources set_next_source entry_list sources next_source next_entry].
  - rewrite retimed_ptrs. apply (inv_ptrs _ _ _ Hi).
  - intros e' (e0 & He0 & ->)%elem_of_retimed. pose proof (inv_fresh _ _ _ Hi e0 He0). by destruct (e_ptr e0 =? p).
  - intros e' (e0 & He0 & ->)%elem_of_retimed. destruct (Z.eqb_spec (e_ptr e0) p) as [E|E]; cbn [with_timeout e_timeout e_ptr]; intros Hn; right.
    + exists (mk_source cb p iv). by rewrite lookup_insert_eq.
    + destruct (inv_source _ _ _ Hi e0 He0 Hn) as [[E2 _]|(src & H1 & H2)]; [destruct Hx; congruence|].
      exists src. rewrite lookup_insert_ne by congruence. done.
  - intros id src [[<- <-]|[Hne Hsrc]]%lookup_insert_Some.
    + right. exists (with_timeout t e). split; [|done]. apply elem_of_retimed. exists e. by rewrite Ep, Z.eqb_refl.
    + destruct (inv_entry _ _ _ Hi id src Hsrc) as [|(e0 & He0 & E1 & E2)]; [by left|].
      destruct (decide (e_ptr e0 = p)) as [E|E].
      * rewrite (ptr_inj _ e0 e (inv_ptrs _ _ _ Hi) He0 He) in E2 by congruence. left. rewrite <- E2. apply Hs. rewrite E2. by eexists.
      * right. exists e0. split; [|done]. apply elem_of_retimed. exists e0. by rewrite (proj2 (Z.eqb_neq _ _)).
  - intros id [<-|Hid]%lookup_insert_is_Some'; [lia|]. apply (inv_ids _ _ _ Hi) in Hid. lia.
  - lia.
  - intros e' (e0 & He0 & ->)%elem_of_retimed. destruct (e_ptr e0 =? p); cbn; [lia|]. by apply (inv_lifetime _ _ _ Hi).
Qed.

Lemma servers_retimed p t l : servers_of (retimed p t l) = servers_of l.
Proof.
  unfold servers_of, retimed. induction l as [|e l IH]; [done|]. cbn. rewrite IH. by destruct (e_ptr e =? p).
Qed.

Lemma expected_retimed p t l : expected (retimed p t l) = expected l.
Proof.
  assert (Hf : forall f, (forall e, f (with_timeout t e) = f e) -> List.filter f (retimed p t l) = retimed p t (List.filter f l)).
  { intros f Hf. unfold retimed. induction l as [|e l IH]; [done|]. cbn. destruct (e_ptr e =? p) eqn:E.
    - rewrite Hf. destruct (f e); cbn; rewrite IH; [by rewrite E|done].
    - destruct (f e); cbn; rewrite IH; [by rewrite E|done]. }
  unfold expected. assert (existsb is_real (retimed p t l) = existsb is_real l) as ->.
  { clear Hf. unfold retimed. induction l as [|e l IH]; [done|]. cbn. rewrite IH. by destruct (e_ptr e =? p). }
  destruct (existsb is_real l); rewrite Hf by done; by rewrite servers_retimed.
Qed.

Lemma distinct_retimed p t l : distinct l -> NoDup (map e_ptr l) -> distinct (retimed p t l).
Proof.
  intros [H1 H2] _. split.
  - intros e e' x (e0 & He0 & ->)%elem_of_retimed (e1 & He1 & ->)%elem_of_retimed Ex Ex'.
    assert (e0 = e1) as ->; [|done]. apply (H1 e0 e1 x); [done..|by destruct (e_ptr e0 =? p)|by destruct (e_ptr e1 =? p)].
  - intros e (e0 & He0 & ->)%elem_of_retimed. specialize (H2 e0 He0). by destruct (e_ptr e0 =? p).
Qed.

(** A step from a state to a consistent one, after which the proxy has what it should. *)
Record good (s s' : resolver) (o : list output) : Prop := {
  good_inv : inv None None s';
  good_mode : dnsproxy_enabled s' = dnsproxy_enabled s;
  good_view : dnsproxy_enabled s = true -> distinct (entry_list s) ->
    distinct (entry_list s') /\ replay o (expected (entry_list s)) = expected (entry_list s');
}.

Lemma good_refl s o : inv None None s -> (forall v, replay o v = v) -> good s s o.
Proof. intros Hi Ho. by split. Qed.

Lemma source_entry s id src e : inv None None s -> sources s !! id = Some src -> e ∈ entry_list s -> e_timeout e = id -> e_ptr e = s_entry src.
Proof.
  intros Hi Hs He Et. pose proof (inv_ids _ _ _ Hi id (mk_is_Some _ _ Hs)).
  destruct (inv_source _ _ _ Hi e He ltac:(lia)) as [[? _]|(src' & Hs' & <-)]; [done|]. congruence.
Qed.

Lemma dispatched_inv id s : inv None None s -> inv (Some id) None s.
Proof. intros [? ? ? H4 ? ? ?]. split; try done. intros i src Hs. destruct (H4 i src Hs); [done|by right]. Qed.

Lemma settled_inv id s : inv (Some id) None s -> (forall e, e ∈ entry_list s -> e_timeout e <> id) ->
  inv None None (set_sources (delete id (sources s)) s).
Proof.
  intros [? ? H3 H4 H5 ? ?] Hn. split; cbn [set_sources entry_list sources next_source next_entry]; try done.
  - intros e He Ht. destruct (H3 e He Ht) as [[? _]|(src & Hs & E)]; [done|]. right. exists src. split; [|done].
    rewrite lookup_delete_ne; [done|]. intros Ei. by apply (Hn e He).
  - intros i src [Hne Hs]%lookup_delete_Some. destruct (H4 i src Hs) as [[= ->]|]; [done|by right].
  - intros i [_ Hs]%lookup_delete_is_Some. by apply H5.
Qed.

Lemma add_source_run iv cb p s : g_timeout_add_seconds iv cb p s = Some (next_source s,
  set_sources (<[next_source s := mk_source cb p iv]> (sources s)) (set_next_source (next_source s + 1) s), []).
Proof. done. Qed.

Lemma set_timeout_run p t e s : find_ptr p (entry_list s) = Some e ->
  set_timeout p t s = Some (tt, set_entries (retimed p t (entry_list s)) s, []).
Proof. intros E. unfold set_timeout. by apply (bind_next _ _ _ _ _ _ (entry_load_run p e s E)). Qed.

Lemma timer_run id s : inv None None s -> returns (dispatch env id) s (fun _ s' o => good s s' o).
Proof.
  intros Hi. unfold dispatch. eapply returns_step; [done|]. destruct (sources s !! id) as [src|] eqn:Hs; [|by apply returns_skip, good_refl].
  destruct (inv_entry _ _ _ Hi id src Hs) as [|(e & He & Ep & Et)]; [done|].
  pose proof (find_ptr_elem _ e (inv_ptrs _ _ _ Hi) He) as Hf. rewrite Ep in Hf.
  destruct (s_cb src).
  - eapply (returns_bind _ _ _ (fun _ s' o => s' = set_entries (retimed (s_entry src) (next_source s) (entry_list s))
      (set_sources (<[next_source s := mk_source resolver_expire_cb (s_entry src) (expire_interval (e_lifetime e))]> (sources s))
        (set_next_source (next_source s + 1) s)) /\ forall v, replay o v = v)).
    { unfold refresh. eapply returns_step; [by apply entry_load_run|]. eapply returns_step; [apply add_source_run|].
      eapply returns_step; [by eapply set_timeout_run|]. destruct (_ && _); [by eexists _, _, _|by apply returns_skip]. }
    intros [] s1 o1 [-> Ho]. eexists _, _, _. split; [done|]. rewrite app_nil_r. split; [|done|].
    + apply (settled_inv id); [apply (retimed_inv _ e _ _ s (Some id) None); [by apply dispatched_inv|done|done|by left|by rewrite Et]|].
      cbn. intros e' (e0 & He0 & ->)%elem_of_retimed. destruct (Z.eqb_spec (e_ptr e0) (s_entry src)) as [|Hn]; cbn.
      * pose proof (inv_ids _ _ _ Hi id (mk_is_Some _ _ Hs)). lia.
      * intros Et0. by apply Hn, (source_entry s id src e0).
    + intros _ Hd. cbn [set_sources set_entries set_next_source entry_list]. rewrite Ho, expected_retimed. split; [|done]. by apply distinct_retimed; [|apply (inv_ptrs _ _ _ Hi)].
  - eapply returns_bind; [by apply (expire_run (s_entry src) e None s None)|]. intros [] s1 o1 (Hi1 & El & Ee & Ho).
    assert (Hs1 : sources s1 !! id = None).
    { destruct (sources s1 !! id) as [src1|] eqn:E1; [|done]. destruct (inv_entry _ _ _ Hi1 id src1 E1) as [|(e1 & He1 & _ & Et1)]; [done|].
      rewrite El in He1. apply elem_of_rest in He1 as [He1 Hn]. destruct Hn. apply list_elem_of_singleton. by apply (source_entry s id src e1). }
    eexists _, _, _. split; [done|]. rewrite app_nil_r, delete_id by done. split; [by destruct s1|done|].
    intros Hen Hd. cbn [set_sources entry_list]. rewrite (Ho Hen Hd), El. split; [by apply distinct_rest|done].
Qed.

(** *** Appending entries *)

(** A new entry, with or without a source of its own. *)
Lemma appended_inv e s s' : inv None None s -> entry_list s' = entry_list s ++ [e] -> e_ptr e = next_entry s -> next_entry s' = next_entry s + 1 ->
  (e_lifetime e = 0 /\ e_timeout e = 0 /\ sources s' = sources s /\ next_source s' = next_source s \/
   e_timeout e = next_source s /\ next_source s' = next_source s + 1 /\
   exists cb iv, sources s' = <[next_source s := mk_source cb (e_ptr e) iv]> (sources s)) -> inv None None s'.
Proof.
  intros Hi El Ep En Hsrc. pose proof (inv_next _ _ _ Hi) as Hn.
  assert (Htn : sources s !! next_source s = None).
  { destruct (sources s !! next_source s) eqn:E; [|done]. pose proof (inv_ids _ _ _ Hi _ (mk_is_Some _ _ E)). lia. }
  assert (Hkeep : forall id src, sources s !! id = Some src -> sources s' !! id = Some src).
  { intros id src Hid. destruct Hsrc as [(_ & _ & -> & _)|(_ & _ & cb & iv & ->)]; [done|]. rewrite lookup_insert_ne by congruence. done. }
  assert (Hin : forall e', e' ∈ entry_list s' <-> e' ∈ entry_list s \/ e' = e) by (intros; by rewrite El, elem_of_app, list_elem_of_singleton).
  split.
  - rewrite El, map_app. apply NoDup_app. split; [apply (inv_ptrs _ _ _ Hi)|]. split; [|apply NoDup_singleton].
    intros p (e' & -> & He')%list_elem_of_fmap E%list_elem_of_singleton. apply (inv_fresh _ _ _ Hi) in He'. lia.
  - intros e' [He'%(inv_fresh _ _ _ Hi)| ->]%Hin; lia.
  - intros e' [He'| ->]%Hin Ht; right.
    + destruct (inv_source _ _ _ Hi e' He' Ht) as [[? _]|(src & Hs & E)]; [done|]. exists src. auto.
    + destruct Hsrc as [(_ & ? & _)|(-> & _ & cb & iv & ->)]; [done|]. exists (mk_source cb (e_ptr e) iv). by rewrite lookup_insert_eq.
  - intros id src Hid. right. assert (sources s !! id = Some src \/ id = e_timeout e /\ s_entry src = e_ptr e) as [Ho|[-> E]].
    { destruct Hsrc as [(_ & _ & Es & _)|(-> & _ & cb & iv & Es)]; rewrite Es in Hid; [by left|].
      apply lookup_insert_Some in Hid as [[<- <-]|[_ Hid]]; [by right|by left]. }
    + destruct (inv_entry _ _ _ Hi id src Ho) as [|(e' & He' & E)]; [done|]. exists e'. rewrite Hin. auto.
    + exists e. rewrite Hin. auto.
  - intros id Hid. destruct Hsrc as [(_ & _ & Es & ->)|(_ & -> & cb & iv & Es)]; rewrite Es in Hid; [by apply (inv_ids _ _ _ Hi)|].
    apply lookup_insert_is_Some' in Hid as [<-|Hid%(inv_ids _ _ _ Hi)]; lia.
  - destruct Hsrc as [(_ & _ & _ & ->)|(_ & -> & _)]; lia.
  - intros e' [He'| ->]%Hin; [by apply (inv_lifetime _ _ _ Hi)|]. destruct Hsrc as [(? & _)|(-> & _)]; [done|lia].
Qed.

Lemma append_resolver_run i d n lt fl s : inv None None s ->
  returns (append_resolver env i d n lt fl) s (fun _ s' o => inv None None s' /\ dnsproxy_enabled s' = dnsproxy_enabled s /\
    (entry_list s' = entry_list s /\ (forall v, replay o v = v) \/
     exists e, entry_list s' = entry_list s ++ [e] /\ e_index e = i /\ e_server e = n /\
       (dnsproxy_enabled s = true -> forall v, replay o v = replay (append_calls (entry_list s) e) v))).
Proof.
  intros Hi. unfold append_resolver. destruct (_ && _); [apply returns_ret; auto|].
  eapply returns_step; [done|]. eapply returns_step; [done|].
  set (p := next_entry s). set (fam := match n with Some _ => _ | None => _ end).
  set (t := if lt =? 0 then 0 else next_source s).
  set (e := mk_entry p i d n fam fl lt t).
  set (s1 := if lt =? 0 then set_next_entry (p + 1) s
    else set_sources (<[next_source s := mk_source resolver_refresh_cb p (refresh_interval lt)]> (sources s))
      (set_next_source (next_source s + 1) (set_next_entry (p + 1) s))).
  eapply (returns_step _ _ _ t s1); [unfold t, s1; by destruct (lt =? 0)|].
  assert (E1 : entry_list s1 = entry_list s /\ dnsproxy_enabled s1 = dnsproxy_enabled s) by (unfold s1; by destruct (lt =? 0)).
  destruct E1 as [El1 Ee1].
  assert (Hr : is_real e = (0 <=? i) && bool_decide (n <> None)) by done. rewrite <- Hr.
  eapply (returns_bind _ _ _ (fun _ s' o => core s' = core s1 /\ (dnsproxy_enabled s1 = true ->
    o = if is_real e then calls is_negative call_remove (entry_list s1) else []))).
  { destruct (is_real e); [|by apply returns_skip]. unfold remove_fallback_nameservers. eapply returns_step; [done|].
    apply remove_fallback_quiet. }
  intros [] s2 o2 [Ec2 Ho2]. unfold core in Ec2. injection Ec2 as El2 Ee2 Es2 En2 Ep2.
  eapply returns_step; [done|]. fold e.
  eapply returns_bind; [apply backend_append_quiet|]. intros [] s3 o3 [Ec3 Ho3].
  eapply (returns_bind _ _ _ (fun _ s' o => s' = s3 /\ forall v, replay o v = v)).
  { destruct (_ && _ && _ && _); [by eexists _, _, _|by apply returns_skip]. }
  intros [] s4 o4 [-> Ho4]. apply returns_ret. unfold core in Ec3. cbn in Ec3. injection Ec3 as El3 Ee3 Es3 En3 Ep3.
  split; [|split; [congruence|right]].
  - apply (appended_inv e s); [done|by rewrite El3, El2, El1|done|rewrite Ep3, Ep2; unfold s1; by destruct (lt =? 0)|].
    rewrite Es3, En3, Es2, En2. unfold s1, e, t. cbn [e_lifetime e_timeout e_ptr]. destruct (Z.eqb_spec lt 0); [by left|right].
    split; [done|]. split; [done|]. eauto.
  - exists e. split; [by rewrite El3, El2, El1|]. split; [done|]. split; [done|]. intros Hen v.
    rewrite app_nil_r, !replay_app, Ho4, Ho3 by (cbn; congruence). rewrite Ho2 by congruence. rewrite El1. unfold append_calls.
    by rewrite replay_app.
Qed.

Definition fresh_server (i : Z) (n : cstring) (l : list entry_data) : bool :=
  match n with Some x => bool_decide ((i, x) ∉ servers_of l) | None => true end.

Lemma distinct_append l e : distinct l -> fresh_server (e_index e) (e_server e) l = true -> -1 <= e_index e -> distinct (l ++ [e]).
Proof.
  intros [H1 H2] Hf Hi.
  assert (Hn : forall e' x, e' ∈ l -> pair_of e' = Some x -> pair_of e <> Some x).
  { intros e' x He' Ex' Ex. unfold fresh_server, pair_of in *. destruct (e_server e) as [y|]; [|done]. apply bool_decide_eq_true in Hf.
    apply Hf, elem_of_servers. exists e'. split; [done|]. cbn in Ex. by rewrite <- Ex in Ex'. }
  split.
  - intros a b x [Ha| ->%list_elem_of_singleton]%elem_of_app [Hb| ->%list_elem_of_singleton]%elem_of_app Ea Eb; [by apply (H1 a b x)|..|done].
    + by destruct (Hn a x Ha Ea).
    + by destruct (Hn b x Hb Eb).
  - intros a [Ha| ->%list_elem_of_singleton]%elem_of_app; [by apply H2|done].
Qed.

(** The proxy is told of a server it has. *)
Lemma known_server l e d : e ∈ l -> 0 <= e_index e -> apply_output (expected l) (Dnsproxy_append (e_index e) d (e_server e)) = expected l.
Proof.
  intros He Hi. cbn. destruct (e_server e) as [n|] eqn:E; [|done]. assert ((e_index e, n) ∈ expected l); [|set_solver].
  apply elem_of_expected. exists e. unfold pair_of. rewrite E. auto.
Qed.

Lemma redone_server l e d : e ∈ l -> 0 <= e_index e ->
  apply_output (apply_output (expected l) (Dnsproxy_remove (e_index e) d (e_server e))) (Dnsproxy_append (e_index e) d (e_server e)) = expected l.
Proof.
  intros He Hi. rewrite <- (known_server l e d He Hi) at 2. cbn. destruct (e_server e) as [n|]; [|done].
  apply set_eq. intros x. destruct (decide (x = (e_index e, n))); set_solver.
Qed.

(** *** The operations *)

Definition isSome {A} (x : option A) : bool := match x with Some _ => true | None => false end.

(** A consistent state, and a good step if [c]. *)
Definition good_if (c : Prop) (s s' : resolver) (o : list output) : Prop :=
  inv None None s' /\ dnsproxy_enabled s' = dnsproxy_enabled s /\ (c -> good s s' o).

Lemma good_if_good c s s' o : good s s' o -> good_if c s s' o.
Proof. intros Hg. split; [apply Hg|]. split; [apply Hg|done]. Qed.

Lemma new_entry_run i d n lt fl s : inv None None s ->
  returns (append_resolver env i d n lt fl) s (fun _ => good_if (0 <= i /\ fresh_server i n (entry_list s) = true) s).
Proof.
  intros Hi. eapply returns_conseq; [by apply append_resolver_run|]. intros r s' o (Hi' & Em & Hc). split; [done|]. split; [done|].
  intros [Hidx Hf]. destruct Hc as [[El Ho]|(e & El & <- & <- & Ho)]; (split; [done..|]); intros Hen Hd; [by rewrite Ho, El|].
  rewrite El, (Ho Hen), expected_append by auto. split; [|done]. apply distinct_append; [done..|lia].
Qed.

Lemma same_entry_spec i d n e : same_entry i d n e = true -> e_index e = i /\ e_server e = n.
Proof.
  unfold same_entry, strcmp0. rewrite !andb_true_iff, Z.eqb_eq, !bool_decide_eq_true. tauto.
Qed.

Definition static_match (i : Z) (d n : cstring) (l : list entry_data) : option entry_data :=
  List.find (fun e => negb (0 <? e_timeout e) && same_entry i d n e) l.
Definition timed_match (i : Z) (d n : cstring) (l : list entry_data) : option entry_data :=
  List.find (fun e => negb (e_timeout e =? 0) && same_entry i d n e) l.

Lemma find_entry f i d n l e : List.find (fun e => f e && same_entry i d n e) l = Some e ->
  e ∈ l /\ f e = true /\ e_index e = i /\ e_server e = n.
Proof. intros [He [Hf Hs%same_entry_spec]%andb_true_iff]%find_some. by apply list_elem_of_In in He. Qed.

Lemma server_append_run i d n s : inv None None s ->
  returns (connman_resolver_append env i d n) s
    (fun _ => good_if (0 <= i /\ isSome (static_match i d n (entry_list s)) || fresh_server i n (entry_list s) = true) s).
Proof.
  intros Hi. unfold connman_resolver_append. destruct (_ && _); [by apply returns_ret, good_if_good, good_refl|].
  eapply returns_step; [done|]. fold (static_match i d n (entry_list s)). destruct (static_match i d n (entry_list s)) as [e|] eqn:E.
  - apply find_entry in E as (He & _ & E1 & E2).
    eapply returns_step; [done|]. eapply (returns_bind _ _ _ (fun _ s' o => s' = s /\ (dnsproxy_enabled s = true -> o = [Dnsproxy_append i d n]))).
    { destruct (dnsproxy_enabled s); [rewrite E1; by eexists _, _, _|by apply returns_skip]. }
    intros [] s1 o1 [-> Ho]. apply returns_ret. split; [done|]. split; [done|]. intros [Hidx _]. split; [done..|]. intros Hen Hd.
    rewrite app_nil_r, (Ho Hen). split; [done|]. rewrite <- E1, <- E2. apply known_server; [done|lia].
  - by apply new_entry_run.
Qed.

Lemma unsourced_inv e src s : inv None None s -> e ∈ entry_list s -> sources s !! e_timeout e = Some src ->
  inv None (Some (e_ptr e)) (set_sources (delete (e_timeout e) (sources s)) s).
Proof.
  intros Hi He Hs. assert (Hp : e_ptr e = s_entry src) by by apply (source_entry s (e_timeout e) src e).
  destruct Hi as [H1 ? H3 H4 H5 ? ?]. split; cbn [set_sources entry_list sources next_source next_entry]; try done.
  - intros e' He' Ht. destruct (decide (e_timeout e' = e_timeout e)) as [E|E].
    + left. destruct (H3 e' He' Ht) as [[? _]|(src' & Hs' & Ep')]; [done|]. rewrite E in Hs' |- *. rewrite lookup_delete_eq.
      split; [congruence|done].
    + right. destruct (H3 e' He' Ht) as [[? _]|(src' & Hs' & Ep')]; [done|]. exists src'. by rewrite lookup_delete_ne.
  - intros id src' [Hne Hs']%lookup_delete_Some. by apply H4.
  - intros id [_ Hid]%lookup_delete_is_Some. by apply H5.
Qed.

Lemma lifetime_run i d n lt s : inv None None s ->
  returns (connman_resolver_append_lifetime env i d n lt) s
    (fun _ => good_if (0 <= i /\ isSome (timed_match i d n (entry_list s)) || fresh_server i n (entry_list s) = true) s).
Proof.
  intros Hi. unfold connman_resolver_append_lifetime. destruct (_ && _); [by apply returns_ret, good_if_good, good_refl|].
  eapply returns_step; [done|]. fold (timed_match i d n (entry_list s)). destruct (timed_match i d n (entry_list s)) as [e|] eqn:E.
  2: by apply new_entry_run.
  apply find_entry in E as (He & Ht%negb_true_iff%Z.eqb_neq & E1 & E2).
  destruct (inv_source _ _ _ Hi e He Ht) as [[? _]|(src & Hs & Ep)]; [done|].
  eapply returns_step; [unfold g_source_remove; eapply bind_next; [done|]; by rewrite Hs|].
  pose proof (unsourced_inv e src s Hi He Hs) as Hi1. set (s1 := set_sources _ s) in *. change (entry_list s) with (entry_list s1) in He.
  destruct (lt =? 0).
  - eapply returns_bind; [apply (expire_run (e_ptr e) e (Some (e_ptr e)) s1 None); [done..|congruence]|].
    intros [] s2 o2 (Hi2 & El & Em & Ho). apply returns_ret, good_if_good. split; [done..|]. intros Hen Hd. rewrite app_nil_r, El.
    split; [by apply distinct_rest|]. rewrite <- El. by apply Ho.
  - eapply returns_step; [apply add_source_run|].
    eapply returns_step; [eapply set_timeout_run, find_ptr_elem; [apply (inv_ptrs _ _ _ Hi1)|done]|].
    apply returns_ret, good_if_good. split; [|done|].
    + apply (retimed_inv (e_ptr e) e _ _ s1 None (Some (e_ptr e))); [done..|by right|]. cbn. rewrite lookup_delete_eq. by intros [].
    + intros Hen Hd. cbn [set_entries set_sources set_next_source entry_list]. rewrite expected_retimed. split; [|done].
      by apply distinct_retimed; [|apply (inv_ptrs _ _ _ Hi)].
Qed.

Lemma removal_run ps s : inv None None s -> NoDup ps -> ps <> [] -> (forall p, p ∈ ps -> exists e, e ∈ entry_list s /\ e_ptr e = p) ->
  returns (remove_entries env ps;; mret 0) s (fun _ s' o => good s s' o).
Proof.
  intros Hi Hd Hn Hin. eapply returns_bind; [by apply (remove_entries_run ps None s None)|].
  intros [] s' o (Hi' & El & Em & Ho). apply returns_ret. split; [done..|]. intros Hen Hds. rewrite app_nil_r. split; [|by apply Ho].
  rewrite El. by apply distinct_rest.
Qed.

Lemma server_remove_run i d n s : inv None None s -> returns (connman_resolver_remove env i d n) s (fun _ s' o => good s s' o).
Proof.
  intros Hi. unfold connman_resolver_remove. eapply returns_step; [done|].
  destruct (List.find _ _) as [e|] eqn:E; [|by apply returns_ret, good_refl].
  apply find_some in E as [He _]. apply list_elem_of_In in He. apply removal_run; [done|apply NoDup_singleton|done|].
  intros p ->%list_elem_of_singleton. by exists e.
Qed.

Lemma remove_all_run i s : inv None None s -> returns (connman_resolver_remove_all env i) s (fun _ s' o => good s s' o).
Proof.
  intros Hi. unfold connman_resolver_remove_all. destruct (i <? 0); [by apply returns_ret, good_refl|].
  eapply returns_step; [done|]. destruct (rev _) as [|p ps] eqn:E; [by apply returns_ret, good_refl|]. rewrite <- E.
  apply removal_run; [done| |by rewrite E|].
  - apply NoDup_ListNoDup, NoDup_rev, NoDup_ListNoDup, NoDup_bfilter, (inv_ptrs _ _ _ Hi).
  - intros p' Hp'. apply list_elem_of_In, in_rev, list_elem_of_In, list_elem_of_fmap in Hp' as (e & -> & He).
    apply elem_of_bfilter in He as [He _]. by exists e.
Qed.

(** Telling the proxy again of servers of [l] changes nothing. *)
Lemma redo_each_run i l s l0 : 0 <= i -> (forall e, e ∈ l0 -> e ∈ l) ->
  returns (redo_each i l0) s (fun _ s' o => s' = s /\ replay o (expected l) = expected l).
Proof.
  intros Hi. induction l0 as [|e l0 IH]; intros Hin; cbn [redo_each]; [by apply returns_skip|].
  eapply (returns_bind _ _ _ (fun _ s' o => s' = s /\ replay o (expected l) = expected l)).
  - destruct (Z.eqb_spec (e_timeout e) 0); [by apply returns_skip|]. cbn [orb].
    destruct (Z.eqb_spec (e_index e) i) as [E|]; cbn [negb]; [|by apply returns_skip].
    destruct (negb _); [by apply returns_skip|]. eexists _, _, _. split; [done|]. split; [done|].
    apply (redone_server l e (e_domain e)); [apply Hin; by left|lia].
  - intros [] s1 o1 [-> Ho]. eapply returns_conseq; [apply IH; intros; apply Hin; by right|]. intros [] s2 o2 [-> Ho2].
    split; [done|]. by rewrite replay_app, Ho.
Qed.

Lemma redo_domains_run i l s : returns (redo_domains i l) s (fun _ s' o => s' = s /\ forall v, replay o v = v).
Proof.
  induction l as [|e l IH]; cbn [redo_domains]; [by apply returns_skip|].
  eapply (returns_bind _ _ _ (fun _ s' o => s' = s /\ forall v, replay o v = v)).
  - destruct (negb _); [by apply returns_skip|]. case_bool_decide; [by apply returns_skip|by eexists _, _, _].
  - intros [] s1 o1 [-> Ho]. eapply returns_conseq; [apply IH|]. intros [] s2 o2 [-> Ho2]. split; [done|]. intros v. by rewrite replay_app, Ho, Ho2.
Qed.

Lemma redo_run i s : inv None None s -> returns (__connman_resolver_redo_servers i) s (fun _ s' o => good s s' o).
Proof.
  intros Hi. unfold __connman_resolver_redo_servers. eapply returns_step; [done|]. destruct (negb _); [by apply returns_ret, good_refl|].
  destruct (Z.ltb_spec i 0); [by apply returns_ret, good_refl|]. eapply returns_step; [done|].
  eapply returns_bind; [by apply (redo_each_run i (entry_list s) s (entry_list s))|]. intros [] s1 o1 [-> Ho1].
  eapply returns_step; [done|]. eapply returns_bind; [apply redo_domains_run|]. intros [] s2 o2 [-> Ho2]. apply returns_ret.
  split; [done..|]. intros _ Hd. split; [done|]. by rewrite app_nil_r, replay_app, Ho1, Ho2.
Qed.

End handlers.

(** ** Runs *)

Inductive event :=
| R_append (index : Z) (domain server : cstring)
| R_append_lifetime (index : Z) (domain server : cstring) (lifetime : Z)
| R_remove (index : Z) (domain server : cstring)
| R_remove_all (index : Z)
| R_redo (index : Z)
| R_timer (id : Z).

Definition handle (e : env) (ev : event) : M unit :=
  match ev with
  | R_append i d n => connman_resolver_append e i d n;; pskip
  | R_append_lifetime i d n lt => connman_resolver_append_lifetime e i d n lt;; pskip
  | R_remove i d n => connman_resolver_remove e i d n;; pskip
  | R_remove_all i => connman_resolver_remove_all e i;; pskip
  | R_redo i => __connman_resolver_redo_servers i;; pskip
  | R_timer id => dispatch e id
  end.

(** A server is added for an interface, and not both with a lifetime and without. *)
Definition clean (ev : event) (s : resolver) : bool :=
  match ev with
  | R_append i d n => (0 <=? i) && (isSome (static_match i d n (entry_list s)) || fresh_server i n (entry_list s))
  | R_append_lifetime i d n _ => (0 <=? i) && (isSome (timed_match i d n (entry_list s)) || fresh_server i n (entry_list s))
  | _ => true
  end.

Fixpoint run (tr : list (env * event)) (s : resolver) : option (resolver * list output) :=
  match tr with
  | [] => Some (s, [])
  | (e, ev) :: tr =>
      match handle e ev s with
      | None => None
      | Some (_, s', o) => '(s2, o2) ← run tr s'; Some (s2, o ++ o2)
      end
  end.

Fixpoint clean_run (tr : list (env * event)) (s : resolver) : bool :=
  match tr with
  | [] => true
  | (e, ev) :: tr => clean ev s && match handle e ev s with Some (_, s', _) => clean_run tr s' | None => true end
  end.

Lemma and_skip {A} (m : M A) s Q : returns m s (fun _ s' o => Q s' o) -> returns (m;; pskip) s (fun _ s' o => Q s' o).
Proof. intros Hm. eapply returns_bind; [apply Hm|]. intros a s' o HQ. apply returns_skip. by rewrite app_nil_r. Qed.

Lemma handle_good e ev s : inv None None s -> returns (handle e ev) s (fun _ => good_if (clean ev s = true) s).
Proof.
  intros Hi. destruct ev as [i d n|i d n lt|i d n|i|i|id]; cbn [handle clean].
  - apply and_skip. eapply returns_conseq; [by apply server_append_run|]. intros r s' o (H1 & H2 & H3). split; [done|]. split; [done|].
    intros [Hidx%Z.leb_le Hf]%andb_true_iff. by apply H3.
  - apply and_skip. eapply returns_conseq; [by apply lifetime_run|]. intros r s' o (H1 & H2 & H3). split; [done|]. split; [done|].
    intros [Hidx%Z.leb_le Hf]%andb_true_iff. by apply H3.
  - apply and_skip. eapply returns_conseq; [by apply server_remove_run|]. intros. by apply good_if_good.
  - apply and_skip. eapply returns_conseq; [by apply remove_all_run|]. intros. by apply good_if_good.
  - apply and_skip. eapply returns_conseq; [by apply redo_run|]. intros. by apply good_if_good.
  - eapply returns_conseq; [by apply timer_run|]. intros. by apply good_if_good.
Qed.

Lemma run_good tr : forall s, inv None None s -> exists s' o, run tr s = Some (s', o) /\ good_if (clean_run tr s = true) s s' o.
Proof.
  induction tr as [|[e ev] tr IH]; intros s Hi; cbn [run clean_run].
  { exists s, []. split; [done|]. by apply good_if_good, good_refl. }
  destruct (handle_good e ev s Hi) as ([] & s1 & o1 & E1 & Hi1 & Em1 & Hg1). rewrite E1.
  destruct (IH s1 Hi1) as (s2 & o2 & -> & Hi2 & Em2 & Hg2). exists s2, (o1 ++ o2). split; [done|]. split; [done|].
  split; [congruence|]. intros [Hc1 Hc2]%andb_true_iff. split; [done|congruence|]. intros Hen Hd.
  destruct (good_view _ _ _ (Hg1 Hc1) Hen Hd) as [Hd1 Ev1]. destruct (good_view _ _ _ (Hg2 Hc2)) as [Hd2 Ev2]; [congruence|done|].
  split; [done|]. by rewrite replay_app, Ev1, Ev2.
Qed.

(** ** Start *)

Lemma start_inv : inv None None start.
Proof.
  split; cbn; try done; try (by constructor).
  all: try (intros e He; by apply not_elem_of_nil in He).
  - intros id [? Hid]. by rewrite lookup_empty in Hid.
Qed.

Lemma append_pnp_run env ns : forall i s, inv None None s ->
  returns (append_pnp env i ns) s (fun _ s' o => inv None None s' /\ dnsproxy_enabled s' = dnsproxy_enabled s).
Proof.
  induction ns as [|n ns IH]; intros i s Hi; cbn [append_pnp]; [by apply returns_skip|].
  eapply returns_bind; [by apply append_resolver_run|]. intros r s1 o1 (Hi1 & Em & _).
  eapply returns_conseq; [by apply IH|]. intros [] s2 o2 [? ?]. split; [done|congruence].
Qed.

(** The fallback servers, entered before any service has one. *)
Lemma append_public_run env ns : forall s, inv None None s -> dnsproxy_enabled s = true -> distinct (entry_list s) ->
  existsb is_real (entry_list s) = false -> NoDup ns -> (forall n, n ∈ ns -> (-1, n) ∉ servers_of (entry_list s)) ->
  returns (append_public env ns) s (fun _ s' o => inv None None s' /\ dnsproxy_enabled s' = true /\ distinct (entry_list s') /\
    replay o (expected (entry_list s)) = expected (entry_list s')).
Proof.
  induction ns as [|n ns IH]; intros s Hi Hen Hd Hr Hn Hf; cbn [append_public]; [by apply returns_skip|].
  apply list.NoDup_cons in Hn as [Hnn Hn]. eapply returns_bind; [by apply append_resolver_run|]. intros r s1 o1 (Hi1 & Em & Hc).
  assert (H1 : distinct (entry_list s1) /\ replay o1 (expected (entry_list s)) = expected (entry_list s1) /\
    existsb is_real (entry_list s1) = false /\ forall n', n' ∈ ns -> (-1, n') ∉ servers_of (entry_list s1)).
  { destruct Hc as [[El Ho]|(e & El & Ei & Es & Ho)].
    { rewrite El, Ho. repeat (split; [done|]). intros n' Hn'. apply Hf. by right. }
    rewrite El. split; [|split; [|split]].
    - apply distinct_append; [done| |lia]. rewrite Ei, Es. apply bool_decide_eq_true, Hf. by left.
    - rewrite (Ho Hen). apply expected_append. auto.
    - rewrite existsb_app, Hr. cbn. unfold is_real. by rewrite Ei.
    - intros n' Hn' Hx. apply elem_of_servers in Hx as (e' & [He'| ->%list_elem_of_singleton]%elem_of_app & Ex).
      + apply (Hf n'); [by right|]. apply elem_of_servers. by exists e'.
      + unfold pair_of in Ex. rewrite Es in Ex. injection Ex as _ ->. done. }
  destruct H1 as (Hd1 & Ev1 & Hr1 & Hf1). eapply returns_conseq; [apply IH; [done|congruence|done..]|].
  intros [] s2 o2 (? & ? & ? & Ev2). repeat (split; [done|]). by rewrite replay_app, Ev1.
Qed.

Lemma resolver_start_run env dnsproxy proxy_ok pnp fallback : returns (__connman_resolver_init env dnsproxy proxy_ok pnp fallback) start
  (fun _ s' o => inv None None s').
Proof.
  unfold __connman_resolver_init. eapply returns_bind; [apply append_pnp_run, start_inv|]. intros [] s1 o1 [Hi1 _].
  destruct (negb dnsproxy); [by apply returns_ret|]. destruct (negb proxy_ok); [by apply returns_ret|].
  eapply returns_step; [done|].
  assert (Hp : forall ns s, inv None None s -> returns (append_public env ns) s (fun _ s' o => inv None None s')).
  { induction ns as [|n ns IH]; intros s Hi; cbn [append_public]; [by apply returns_skip|].
    eapply returns_bind; [by apply append_resolver_run|]. intros r s2 o2 (Hi2 & _). by apply IH. }
  eapply returns_bind; [by apply Hp, core_inv_mode|]. intros [] s2 o2 Hi2. by apply returns_ret.
Qed.

(** C24: whatever the services, the routers and the timers do, no handler uses an entry that was freed; every source of the
    main loop belongs to an entry that exists and knows it, and every entry with a lifetime has a source that will refresh or
    remove it. *)
Theorem entries_timed env dnsproxy proxy_ok pnp fallback tr :
  exists r s0 o0 s' o, __connman_resolver_init env dnsproxy proxy_ok pnp fallback start = Some (r, s0, o0) /\ run tr s0 = Some (s', o) /\
  (forall id src, sources s' !! id = Some src -> exists e, e ∈ entry_list s' /\ e_ptr e = s_entry src /\ e_timeout e = id) /\
  (forall e, e ∈ entry_list s' -> e_lifetime e <> 0 -> exists src, sources s' !! e_timeout e = Some src /\ s_entry src = e_ptr e).
Proof.
  destruct (resolver_start_run env dnsproxy proxy_ok pnp fallback) as (r & s0 & o0 & E0 & Hi0).
  destruct (run_good tr s0 Hi0) as (s' & o & E & Hi & _). exists r, s0, o0, s', o. split; [done|]. split; [done|]. split.
  - intros id src Hs. destruct (inv_entry _ _ _ Hi id src Hs) as [|]; done.
  - intros e He Hl. destruct (inv_source _ _ _ Hi e He) as [[? _]|]; [by apply (inv_lifetime _ _ _ Hi)|done|done].
Qed.

(** C13: with the DNS proxy, and as long as no server is entered twice for an interface (with a lifetime and without, or under
    two domains), the calls that were made leave the proxy with exactly the servers of the entries of the services, or with the
    fallback servers if no service has one.  The fallback servers differ from each other, and the kernel was started without servers:
    those are entered before the proxy is used and can leave it without any ([pnp_servers_lost]). *)
Theorem proxy_has_servers env fallback tr r s0 o0 : NoDup fallback ->
  __connman_resolver_init env true true [] fallback start = Some (r, s0, o0) -> clean_run tr s0 = true ->
  exists s' o, run tr s0 = Some (s', o) /\ replay (o0 ++ o) ∅ = expected (entry_list s').
Proof.
  intros Hn E0 Hc.
  destruct (append_public_run env fallback (set_enabled true start)) as ([] & s1 & o1 & E1 & Hi1 & Hen1 & Hd1 & Ev1).
  { by apply core_inv_mode, start_inv. } { done. } { split; [intros e e' x He|intros e He]; by apply not_elem_of_nil in He. }
  { done. } { done. } { intros n _. by apply not_elem_of_nil. }
  assert (E : (r, s0, o0) = (0, s1, o1)).
  { enough (Some (r, s0, o0) = Some (0, s1, o1)) by congruence. rewrite <- E0. unfold __connman_resolver_init. cbn [append_pnp negb].
    eapply bind_next; [done|]. eapply bind_next; [done|]. rewrite <- (app_nil_r o1). by eapply bind_run. }
  injection E as -> -> ->. destruct (run_good tr s1 Hi1) as (s' & o & E & Hi & Em & Hg). exists s', o. split; [done|].
  destruct (good_view _ _ _ (Hg Hc) Hen1 Hd1) as [_ Ev]. rewrite replay_app. change ∅ with (expected (entry_list (set_enabled true start))).
  by rewrite Ev1.
Qed.

(** ** resolv.conf *)

(** The first occurrences of strings that are not in [seen]. *)
Fixpoint firsts (seen l : list (list Z)) : list (list Z) :=
  match l with
  | [] => []
  | x :: l => if bool_decide (x ∈ seen) then firsts seen l else x :: firsts (seen ++ [x]) l
  end.

Lemma already_exported_spec l x : already_exported l x = bool_decide (x ∈ l).
Proof.
  unfold already_exported, strcmp0. apply eq_bool_prop_intro. rewrite bool_decide_spec. split.
  - intros (y & Hy & E%bool_decide_eq_true)%Is_true_true%existsb_exists. injection E as ->. by apply list_elem_of_In.
  - intros Hx%list_elem_of_In. apply Is_true_true, existsb_exists. exists x. by rewrite bool_decide_true.
Qed.

(** The file names the first servers and domains that differ, in the order of the entries and up to the limit. *)
Lemma exported_firsts max field l : forall ex, exported max field l ex (length ex) = ex ++ take (max - length ex) (firsts ex (omap field l)).
Proof.
  induction l as [|e l IH]; intros ex; cbn [exported]; [cbn; by rewrite take_nil, app_nil_r|].
  destruct (Nat.ltb_spec (length ex) max); [|replace (max - length ex)%nat with 0%nat by lia; by rewrite take_0, app_nil_r].
  cbn [omap list_omap]. destruct (field e) as [x|]; [|apply IH]. cbn [firsts]. rewrite already_exported_spec.
  case_bool_decide; [apply IH|]. replace (S (length ex)) with (length (ex ++ [x])) by (rewrite length_app; cbn; lia).
  rewrite IH, length_app, <- app_assoc. cbn [length app]. replace (max - length ex)%nat with (S (max - (length ex + 1)))%nat by lia. done.
Qed.

(** ** Examples *)

Definition demo_env : env := {| has_service _ := true; check_ipaddress _ := AF_INET6; export_result := 0 |}.
Definition server1 : list Z := [49].
Definition server2 : list Z := [50].
Definition public : list Z := [56].

Definition demo_start : resolver :=
  match __connman_resolver_init demo_env true true [] [public] start with Some (_, s, _) => s | None => start end.

Definition demo_events (l : list event) : list (env * event) := map (pair demo_env) l.

(** A server of a service, one with a lifetime that expires, and the first one again. *)
Definition demo_trace : list (env * event) :=
  demo_events [R_append 2 None (Some server1); R_append_lifetime 2 None (Some server2) 10; R_redo 2; R_timer 1; R_timer 2; R_remove 2 None (Some server1)].

Lemma proxy_has_servers_witness : exists s' o, run demo_trace demo_start = Some (s', o) /\
  replay ([Dnsproxy_append (-1) None (Some public)] ++ o) ∅ = expected (entry_list s').
Proof.
  apply (proxy_has_servers demo_env [public] demo_trace 0 demo_start).
  - apply NoDup_singleton.
  - reflexivity.
  - vm_compute. reflexivity.
Defined.

(** In the end the fallback server is back. *)
Lemma demo_view : (fun r => elements (replay r.2 ∅)) <$> run demo_trace demo_start = Some [(-1, public)].
Proof. vm_compute. reflexivity. Qed.

(** ** Where the code goes wrong *)

(** A server with a lifetime of 10 seconds that is announced again with one of 1000 is removed 2 seconds after its refresh: the new
    lifetime is not noted. *)
Lemma old_lifetime_used : (fun r => s_interval <$> sources r.1 !! 3) <$>
  run (demo_events [R_append_lifetime 2 None (Some server1) 10; R_append_lifetime 2 None (Some server1) 1000; R_timer 2]) demo_start =
  Some (Some 2).
Proof. vm_compute. reflexivity. Qed.

(** The lifetime 0 of a server that is not known makes it known for ever. *)
Lemma lifetime_zero_stays : (fun r => (map (fun e => (e_server e, e_timeout e)) (entry_list r.1), r.2)) <$>
  run (demo_events [R_append_lifetime 2 None (Some server1) 0]) demo_start =
  Some ([(Some public, 0); (Some server1, 0)], [Dnsproxy_remove (-1) None (Some public); Dnsproxy_append 2 None (Some server1)]).
Proof. vm_compute. reflexivity. Qed.

(** The lifetime 0 of a server that is known removes its source twice. *)
Lemma source_removed_twice : (fun r => existsb (fun o => match o with Source_unknown _ => true | _ => false end) r.2) <$>
  run (demo_events [R_append_lifetime 2 None (Some server1) 10; R_append_lifetime 2 None (Some server1) 0]) demo_start = Some true.
Proof. vm_compute. reflexivity. Qed.

(** A server that is known with a lifetime and without: when its lifetime is over the proxy loses it, although the other entry is
    still there. *)
Lemma shared_server_lost : (fun r => (servers_of (entry_list r.1), elements (replay r.2 ∅))) <$>
  run (demo_events [R_append 2 None (Some server1); R_append_lifetime 2 None (Some server1) 10; R_timer 1; R_timer 2]) demo_start =
  Some ([(-1, public); (2, server1)], []).
Proof. vm_compute. reflexivity. Qed.

(** The servers the kernel was started with are entered under their place in the list, not under the interface they are for. *)
Lemma pnp_index : (fun r => servers_of (entry_list r.1.2)) <$> __connman_resolver_init demo_env false true [server1; server2] [] start =
  Some [(0, server1); (1, server2)].
Proof. vm_compute. reflexivity. Qed.

(** They are entered before the proxy is used and never given to it; after a service has come and gone they keep the fallback servers
    away as well, and the proxy has no server at all. *)
Lemma pnp_servers_lost :
  ('(_, s, o) ← __connman_resolver_init demo_env true true [server1] [public] start;
   '(s', o') ← run (demo_events [R_append 2 None (Some server2); R_remove 2 None (Some server2)]) s;
   Some (servers_of (entry_list s'), elements (replay (o ++ o') ∅))) = Some ([(0, server1); (-1, public)], []).
Proof. vm_compute. reflexivity. Qed.

(** The oldest entries come first in the file, and the newest are the ones left out. *)
Lemma oldest_first : exported MAXNS f_server (map (mk_file 2 None) (map Some [[49]; [50]; [51]; [52]])) [] 0 = [[49]; [50]; [51]].
Proof. vm_compute. reflexivity. Qed.

End ResolverProps.
