(* ===== verification/Ntp.v ===== *)
(** * The NTP client (src/ntp.c)

    A request is sent to a server, again and again with a growing timeout, until it answers or the retries are used up;
    the clock is adjusted by the answer, and the server polled again later.

    There is one [ntp_data] at a time; the sources of the main loop refer to it by its address.  A handler that calls
    the callback does so as its last action: it returns what the callback is called with, and [None] if it is
    not called. *)

From S2P Require Import Prelude Inet Buffer Effects Double.
From stdpp Require Import list gmap.
Open Scope Z_scope.

Module Ntp.

(** ** Messages *)

Definition OFFSET_1900_1970 : Z := 2208988800.
Definition NSEC_PER_SEC : Z := 1000000000.
Definition NTP_SEND_TIMEOUT : Z := 2.
Definition NTP_SEND_RETRIES : Z := 3.

Definition NTP_FLAG_LI_ADDSECOND : Z := 1.
Definition NTP_FLAG_LI_DELSECOND : Z := 2.
Definition NTP_FLAG_LI_NOTINSYNC : Z := 3.
Definition NTP_FLAG_VN_VER3 : Z := 3.
Definition NTP_FLAG_VN_VER4 : Z := 4.
Definition NTP_FLAG_MD_CLIENT : Z := 3.
Definition NTP_FLAG_MD_SERVER : Z := 4.

Definition NTP_FLAGS_ENCODE (li vn md : Z) : Z :=
  u8 (Z.lor (Z.lor (Z.shiftl (Z.land li 3) 6) (Z.shiftl (Z.land vn 7) 3)) (Z.shiftl (Z.land md 7) 0)).
Definition NTP_FLAGS_LI_DECODE (flags : Z) : Z := u8 (Z.land (Z.shiftr flags 6) 3).
Definition NTP_FLAGS_VN_DECODE (flags : Z) : Z := u8 (Z.land (Z.shiftr flags 3) 7).
Definition NTP_FLAGS_MD_DECODE (flags : Z) : Z := u8 (Z.land (Z.shiftr flags 0) 7).

(** The offsets in [struct ntp_msg], of 48 bytes. *)
Definition msg_flags (m : list Z) : Z := nth 0 m 0.
Definition msg_stratum (m : list Z) : Z := nth 1 m 0.
Definition msg_poll (m : list Z) : Z := let b := nth 2 m 0 in if b <? 128 then b else b - 256.
Definition msg_word (off : nat) (m : list Z) : Z := be_word32 (slice off 4 m).
Definition msg_size : Z := 48.

Record timeval := mk_tv { tv_sec : Z; tv_usec : Z }.
Record timespec := mk_ts { ts_sec : Z; ts_nsec : Z }.

(** The request; the time of transmission comes last. *)
Definition request (now : timeval) : list Z :=
  [NTP_FLAGS_ENCODE NTP_FLAG_LI_NOTINSYNC NTP_FLAG_VN_VER4 NTP_FLAG_MD_CLIENT; 0; 10; 0] ++ replicate 36 0
  ++ be_bytes32 (u32 (tv_sec now + OFFSET_1900_1970)) ++ be_bytes32 (u32 (tv_usec now * 1000)).

(** [LOGTOD], converted to an unsigned integer: the result is not defined outside of its range. *)
Definition transmit_delay (poll : Z) : option Z :=
  if poll <? 0 then if - poll <? 63 then Some 0 else None
  else if poll <? 32 then Some (Z.shiftl 1 poll) else None.

(** ** The adjustment of the clock *)

Inductive adjust :=
| Slew (offset constant status : Z)
| Jump (sec nsec status : Z).

Definition STA_PLL : Z := 0x1.
Definition STA_INS : Z := 0x10.
Definition STA_DEL : Z := 0x20.

Definition STEPTIME_MIN_OFFSET : double := dconst 4 10.

Definition seconds_of (tv : timeval) : double := dadd (double_of (tv_sec tv)) (dmul (dconst 1 1000000) (double_of (tv_usec tv))).
Definition timestamp (off : nat) (m : list Z) : double :=
  dadd (double_of (msg_word off m)) (ddiv (double_of (msg_word (off + 4) m)) (double_of 4294967295)).

Definition clock_offset (mtx mrx : timespec) (tv : timeval) (m : list Z) : double :=
  let m_delta := dadd (double_of (ts_sec mrx - ts_sec mtx)) (dmul (dconst 1 1000000000) (double_of (ts_nsec mrx - ts_nsec mtx))) in
  let org := dadd (dsub (seconds_of tv) m_delta) (double_of OFFSET_1900_1970) in
  let rec := timestamp 32 m in
  let xmt := timestamp 40 m in
  let dst := dadd (seconds_of tv) (double_of OFFSET_1900_1970) in
  ddiv (dadd (dsub rec org) (dsub xmt dst)) (double_of 2).

Definition leap_status (flags : Z) : Z :=
  if negb (Z.land (NTP_FLAGS_LI_DECODE flags) NTP_FLAG_LI_ADDSECOND =? 0) then STA_INS
  else if negb (Z.land (NTP_FLAGS_LI_DECODE flags) NTP_FLAG_LI_DELSECOND =? 0) then STA_DEL
  else 0.

Definition adjustment (offset : double) (poll flags : Z) : adjust :=
  if dlt offset STEPTIME_MIN_OFFSET && dlt (dsub (double_of 0) STEPTIME_MIN_OFFSET) offset then
    Slew (trunc (dmul offset (double_of NSEC_PER_SEC))) (poll - 4) (Z.lor STA_PLL (leap_status flags))
  else
    let sec := trunc offset in
    let nsec := trunc (dmul (dsub offset (double_of sec)) (double_of NSEC_PER_SEC)) in
    if nsec <? 0 then Jump (sec - 1) (nsec + NSEC_PER_SEC) (leap_status flags) else Jump sec nsec (leap_status flags).

(** ** State *)

Inductive family := AF_INET | AF_INET6.

#[global] Instance family_eq_dec : EqDecision family.
Proof. solve_decision. Defined.

Record ntp_data := mk_nd {
  nd_ptr : Z;
  timeserver : list Z;
  timeserver_addr : option (family * list Z);
  mtx_time : timespec;
  transmit_fd : Z;
  timeout_id : Z;
  retries : Z;
  channel_watch : Z;
  poll_id : Z;
  timeout : Z;
}.

Inductive callback := send_timeout_cb | next_poll_cb | received_data_cb.

Record source := mk_source { s_cb : callback; s_nd : Z; s_interval : Z }.

Record state := mk_state {
  ntp : option ntp_data;
  sources : gmap Z source;
  next_source : Z;
  next_nd : Z;
}.

Inductive output :=
| Send (server : family * list Z) (msg : list Z)
| Adjtimex (a : adjust)
| Source_unknown (id : Z).

(** What a call meets: the clocks, whether messages can be sent and the clock adjusted, the address of a text, and the
    socket for a family: [None] if one of the steps to set it up fails. *)
Record env := mk_env {
  now : timeval;
  monotonic : timespec;
  sendto_ok : bool;
  adjtimex_ok : bool;
  getaddrinfo : list Z -> option (family * list Z);
  open_socket : family -> option Z;
}.

Definition M (A : Type) : Type := pprog state output A.

Definition set_ntp (nd : option ntp_data) (s : state) : state := mk_state nd (sources s) (next_source s) (next_nd s).
Definition set_sources (m : gmap Z source) (s : state) : state := mk_state (ntp s) m (next_source s) (next_nd s).
Definition set_next_source (n : Z) (s : state) : state := mk_state (ntp s) (sources s) n (next_nd s).
Definition set_next_nd (n : Z) (s : state) : state := mk_state (ntp s) (sources s) (next_source s) n.

Definition with_addr (a : option (family * list Z)) (d : ntp_data) : ntp_data :=
  mk_nd (nd_ptr d) (timeserver d) a (mtx_time d) (transmit_fd d) (timeout_id d) (retries d) (channel_watch d) (poll_id d) (timeout d).
Definition with_mtx (t : timespec) (d : ntp_data) : ntp_data :=
  mk_nd (nd_ptr d) (timeserver d) (timeserver_addr d) t (transmit_fd d) (timeout_id d) (retries d) (channel_watch d) (poll_id d) (timeout d).
Definition with_timer (id t : Z) (d : ntp_data) : ntp_data :=
  mk_nd (nd_ptr d) (timeserver d) (timeserver_addr d) (mtx_time d) (transmit_fd d) id (retries d) (channel_watch d) (poll_id d) t.
Definition with_retries (n : Z) (d : ntp_data) : ntp_data :=
  mk_nd (nd_ptr d) (timeserver d) (timeserver_addr d) (mtx_time d) (transmit_fd d) (timeout_id d) n (channel_watch d) (poll_id d) (timeout d).
Definition with_channel (fd w : Z) (d : ntp_data) : ntp_data :=
  mk_nd (nd_ptr d) (timeserver d) (timeserver_addr d) (mtx_time d) fd (timeout_id d) (retries d) w (poll_id d) (timeout d).
Definition with_poll (id : Z) (d : ntp_data) : ntp_data :=
  mk_nd (nd_ptr d) (timeserver d) (timeserver_addr d) (mtx_time d) (transmit_fd d) (timeout_id d) (retries d) (channel_watch d) id (timeout d).

(** The object behind a pointer; a pointer to memory that was freed fails. *)
Definition load (p : Z) : M ntp_data := fun s =>
  d ← ntp s; if nd_ptr d =? p then Some (d, s, []) else None.
Definition update (p : Z) (f : ntp_data -> ntp_data) : M unit := d ← load p; pmodify (set_ntp (Some (f d))).

Definition source_add (cb : callback) (p interval : Z) : M Z :=
  id ← pget next_source;
  pmodify (set_next_source (id + 1));;
  pmodify (fun s => set_sources (<[id := mk_source cb p interval]> (sources s)) s);;
  mret id.

Definition g_source_remove (id : Z) : M unit :=
  m ← pget sources;
  match m !! id with
  | Some _ => pmodify (fun s => set_sources (delete id (sources s)) s)
  | None => pemit (Source_unknown id)
  end.

Definition remove_if (id : Z) : M unit := if id =? 0 then pskip else g_source_remove id.

(** ** Sending *)

Definition free_ntp_data (p : Z) : M unit :=
  d ← load p;
  remove_if (poll_id d);;
  remove_if (timeout_id d);;
  remove_if (channel_watch d);;
  pmodify (set_ntp None).

Section ntp.
Context (e : env).

(** An address that was never set has no family. *)
Definition send_packet (p t : Z) : M (option bool) :=
  d ← load p;
  match timeserver_addr d with
  | None => mret (Some false)
  | Some server =>
      update p (with_mtx (monotonic e));;
      if negb (sendto_ok e) then mret (Some false)
      else
        pemit (Send server (request (now e)));;
        id ← source_add send_timeout_cb p t;
        update p (with_timer id t);;
        mret None
  end.

Definition send_timeout (p : Z) : M (option bool) :=
  d ← load p;
  update p (with_retries (u32 (retries d + 1)));;
  if retries d =? NTP_SEND_RETRIES then mret (Some false)
  else send_packet p (u32 (Z.shiftl (timeout d) 1)).

Definition next_poll (p : Z) : M (option bool) :=
  update p (with_poll 0);;
  d ← load p;
  if transmit_fd d =? 0 then mret None
  else send_packet p NTP_SEND_TIMEOUT.

Definition reset_timeout (p : Z) : M unit :=
  d ← load p;
  (if 0 <? timeout_id d then g_source_remove (timeout_id d);; update p (with_timer 0 (timeout d)) else pskip);;
  update p (with_retries 0).

(** ** Answers *)

Definition supported_version (flags : Z) : bool :=
  (NTP_FLAGS_VN_DECODE flags =? NTP_FLAG_VN_VER4) || (NTP_FLAGS_VN_DECODE flags =? NTP_FLAG_VN_VER3).

Definition decode_msg (p : Z) (m : list Z) (len : Z) (tv : option timeval) (mrx : timespec) : M (option bool) :=
  if len <? msg_size then mret None
  else
    match tv with
    | None => mret None
    | Some tv =>
        if msg_stratum m =? 0 then mret (Some false)
        else
          delay ← plift (transmit_delay (msg_poll m));
          if NTP_FLAGS_LI_DECODE (msg_flags m) =? NTP_FLAG_LI_NOTINSYNC then mret (Some false)
          else if negb (supported_version (msg_flags m)) then mret (Some false)
          else if negb (NTP_FLAGS_MD_DECODE (msg_flags m) =? NTP_FLAG_MD_SERVER) then mret (Some false)
          else
            d ← load p;
            let offset := clock_offset (mtx_time d) mrx tv m in
            reset_timeout p;;
            d ← load p;
            (if 0 <? poll_id d then g_source_remove (poll_id d) else pskip);;
            id ← source_add next_poll_cb p delay;
            update p (with_poll id);;
            pemit (Adjtimex (adjustment offset (msg_poll m) (msg_flags m)));;
            if adjtimex_ok e then mret (Some true) else mret (Some false)
    end.

(** [error]: the condition has one of the bits for errors, and the source is removed.  [buf] is the buffer of 128 bytes
    after the datagram was written to it, [received] its length or an error. *)
Definition received_data (p : Z) (error : bool) (buf : list Z) (received : Z) (sender : option (family * list Z)) (tv : option timeval) : M (option bool) :=
  if error then update p (fun d => with_channel (transmit_fd d) 0 d);; mret None
  else if received <? 0 then mret None
  else
    match sender with
    | None => mret None
    | Some (_, src) =>
        d ← load p;
        match timeserver_addr d with
        | Some (_, addr) => if bool_decide (addr = src) then decode_msg p buf 128 tv (monotonic e) else mret None
        | None => mret None
        end
    end.

(** ** Start and stop *)

Definition start_ntp (p : Z) : M (option bool) :=
  d ← load p;
  match getaddrinfo e (timeserver d) with
  | None => mret None
  | Some (f, addr) =>
      update p (with_addr (Some (f, addr)));;
      if 0 <? channel_watch d then send_packet p NTP_SEND_TIMEOUT
      else
        match open_socket e f with
        | None => mret (Some false)
        | Some fd =>
            w ← source_add received_data_cb p 0;
            update p (with_channel fd w);;
            send_packet p NTP_SEND_TIMEOUT
        end
  end.

Definition __connman_ntp_start (server : list Z) : M (option bool) :=
  n ← pget ntp;
  (match n with
   | Some d => free_ntp_data (nd_ptr d)
   | None => pskip
   end);;
  p ← pget next_nd;
  pmodify (set_next_nd (p + 1));;
  pmodify (set_ntp (Some (mk_nd p server None (mk_ts 0 0) 0 0 0 0 0 0)));;
  start_ntp p.

Definition __connman_ntp_stop : M unit :=
  n ← pget ntp;
  match n with
  | Some d => free_ntp_data (nd_ptr d)
  | None => pskip
  end.

End ntp.

End Ntp.
