(* ===== verification/NtpProps.v ===== *)
(** * Timers of the NTP client (src/ntp.c)

    Every source of the main loop belongs to the server that is asked, and a server that is asked has a timer. *)

From S2P Require Import Prelude Inet Buffer Effects Double Ntp.
From stdpp Require Import list gmap.
Open Scope Z_scope.

Module NtpProps.
Import Ntp.

(** The field a source is noted in. *)
Definition field_of (cb : callback) (d : ntp_data) : Z :=
  match cb with
  | send_timeout_cb => timeout_id d
  | next_poll_cb => poll_id d
  | received_data_cb => channel_watch d
  end.

(** [xs] is a source that is being dispatched: it may be noted nowhere. *)
Record ninv (xs : option Z) (n : state) : Prop := {
  n_none id : ntp n = None -> is_Some (sources n !! id) -> xs = Some id;
  n_owner d id src : ntp n = Some d -> sources n !! id = Some src ->
    xs = Some id \/ s_nd src = nd_ptr d /\ field_of (s_cb src) d = id;
  n_field d cb : ntp n = Some d -> field_of cb d <> 0 -> exists src, sources n !! field_of cb d = Some src /\ s_cb src = cb /\ s_nd src = nd_ptr d;
  n_ids id : is_Some (sources n !! id) -> 0 < id < next_source n;
  n_next : 0 < next_source n;
}.

(** A server that can be asked, and that is asked again by one of two timers. *)
Definition askable (d : ntp_data) : Prop := transmit_fd d <> 0 /\ timeserver_addr d <> None.
Definition timed (d : ntp_data) : Prop := askable d /\ (timeout_id d = 0 <-> poll_id d <> 0).

Lemma load_nd p d n : ntp n = Some d -> nd_ptr d = p -> load p n = Some (d, n, []).
Proof. intros E <-. unfold load. rewrite E. cbn. by rewrite Z.eqb_refl. Qed.

Lemma update_nd p f d n : ntp n = Some d -> nd_ptr d = p -> update p f n = Some (tt, set_ntp (Some (f d)) n, []).
Proof. intros E Hp. unfold update. by apply (bind_next _ _ _ _ _ _ (load_nd p d n E Hp)). Qed.

(** A change that leaves the sources of the server alone. *)
Lemma same_fields_inv xs n d d' : ninv xs n -> ntp n = Some d -> nd_ptr d' = nd_ptr d -> (forall cb, field_of cb d' = field_of cb d) ->
  ninv xs (set_ntp (Some d') n).
Proof.
  intros Hi Hd Ep Ef. split; cbn [set_ntp ntp sources next_source].
  - done.
  - intros d0 id src [= <-] Hs. rewrite Ep, Ef. by apply (n_owner _ _ Hi).
  - intros d0 cb [= <-]. rewrite Ep, Ef. by apply (n_field _ _ Hi).
  - apply (n_ids _ _ Hi).
  - apply (n_next _ _ Hi).
Qed.

Definition added (cb : callback) (p iv : Z) (n : state) : state :=
  set_sources (<[next_source n := mk_source cb p iv]> (sources n)) (set_next_source (next_source n + 1) n).

Lemma source_add_nd cb p iv n : source_add cb p iv n = Some (next_source n, added cb p iv n, []).
Proof. done. Qed.

Lemma fresh_source xs n : ninv xs n -> sources n !! next_source n = None.
Proof. intros Hi. destruct (sources n !! next_source n) eqn:E; [|done]. pose proof (n_ids _ _ Hi _ (mk_is_Some _ _ E)). lia. Qed.

(** A new source that is noted in its field; the field was empty, or held the source that is being dispatched. *)
Lemma added_inv xs n d d' cb iv : ninv xs n -> ntp n = Some d -> nd_ptr d' = nd_ptr d -> field_of cb d' = next_source n ->
  (forall cb', cb' <> cb -> field_of cb' d' = field_of cb' d) -> field_of cb d = 0 \/ xs = Some (field_of cb d) ->
  ninv xs (set_ntp (Some d') (added cb (nd_ptr d) iv n)).
Proof.
  intros Hi Hd Ep En Ef Hold. pose proof (fresh_source xs n Hi) as Hf. pose proof (n_next _ _ Hi).
  assert (Hcb : forall c : callback, c = cb \/ c <> cb) by (intros [] ; destruct cb; auto; right; done).
  split; cbn [set_ntp added set_sources set_next_source ntp sources next_source].
  - done.
  - intros d0 id src [= <-] [[<- <-]|[Hne Hs]]%lookup_insert_Some; cbn; [by right|].
    destruct (n_owner _ _ Hi d id src Hd Hs) as [|[E1 E2]]; [by left|]. destruct (Hcb (s_cb src)) as [E|E].
    + rewrite E in E2. destruct Hold as [H0|H0]; [|left; congruence]. pose proof (n_ids _ _ Hi id (mk_is_Some _ _ Hs)). lia.
    + right. rewrite Ef by done. split; [congruence|done].
  - intros d0 cb' [= <-] Hne. destruct (Hcb cb') as [->|E].
    + exists (mk_source cb (nd_ptr d) iv). rewrite En, lookup_insert_eq. by rewrite Ep.
    + rewrite Ef in Hne |- * by done. destruct (n_field _ _ Hi d cb' Hd Hne) as (src & Hs & ? & ?).
      exists src. rewrite lookup_insert_ne by congruence. by rewrite Ep.
  - intros id [<-|Hs]%lookup_insert_is_Some'; [lia|]. apply (n_ids _ _ Hi) in Hs. lia.
  - lia.
Qed.

(** Clearing a field and removing its source. *)
Lemma field_cleared_inv xs n d d' cb : ninv xs n -> ntp n = Some d -> nd_ptr d' = nd_ptr d -> field_of cb d' = 0 ->
  (forall cb', cb' <> cb -> field_of cb' d' = field_of cb' d) -> ninv xs (set_ntp (Some d') (set_sources (delete (field_of cb d) (sources n)) n)).
Proof.
  intros Hi Hd Ep En Ef. assert (Hcb : forall c : callback, c = cb \/ c <> cb) by (intros [] ; destruct cb; auto; right; done).
  split; cbn [set_ntp set_sources ntp sources next_source].
  - done.
  - intros d0 id src [= <-] [Hne Hs]%lookup_delete_Some. destruct (n_owner _ _ Hi d id src Hd Hs) as [|[E1 E2]]; [by left|right].
    destruct (Hcb (s_cb src)) as [E|E]; [congruence|]. rewrite Ef by done. split; [congruence|done].
  - intros d0 cb' [= <-] Hne. destruct (Hcb cb') as [->|E]; [done|]. rewrite Ef in Hne |- * by done.
    destruct (n_field _ _ Hi d cb' Hd Hne) as (src & Hs & Ec & ?). exists src. rewrite Ep. split; [|done]. rewrite lookup_delete_ne; [done|].
    intros E2. destruct (decide (field_of cb d = 0)) as [E0|E0]; [congruence|]. destruct (n_field _ _ Hi d cb Hd E0) as (src' & Hs' & Ec' & _).
    congruence.
  - intros id [_ Hs]%lookup_delete_is_Some. by apply (n_ids _ _ Hi).
  - apply (n_next _ _ Hi).
Qed.

(** The source that is being dispatched is forgotten. *)
Lemma field_dispatched_inv n d d' cb : ninv (Some (field_of cb d)) n -> ntp n = Some d -> nd_ptr d' = nd_ptr d -> field_of cb d' = 0 ->
  (forall cb', cb' <> cb -> field_of cb' d' = field_of cb' d) -> ninv (Some (field_of cb d)) (set_ntp (Some d') n).
Proof.
  intros Hi Hd Ep En Ef. assert (Hcb : forall c : callback, c = cb \/ c <> cb) by (intros [] ; destruct cb; auto; right; done).
  split; cbn [set_ntp ntp sources next_source].
  - done.
  - intros d0 id src [= <-] Hs. destruct (n_owner _ _ Hi d id src Hd Hs) as [|[E1 E2]]; [by left|].
    destruct (Hcb (s_cb src)) as [E|E]; [left; congruence|right]. rewrite Ef by done. split; [congruence|done].
  - intros d0 cb' [= <-] Hne. destruct (Hcb cb') as [->|E]; [done|]. rewrite Ef in Hne |- * by done.
    destruct (n_field _ _ Hi d cb' Hd Hne) as (src & ? & ? & ?). exists src. by rewrite Ep.
  - apply (n_ids _ _ Hi).
  - apply (n_next _ _ Hi).
Qed.

Lemma dispatch_inv id n : ninv None n -> ninv (Some id) n.
Proof.
  intros Hi. split; [| |apply (n_field _ _ Hi)|apply (n_ids _ _ Hi)|apply (n_next _ _ Hi)].
  - intros id' Hn Hs. discriminate (n_none _ _ Hi id' Hn Hs).
  - intros d id' src Hd Hs. right. by destruct (n_owner _ _ Hi d id' src Hd Hs).
Qed.

(** The dispatch is over. *)
Lemma drop_inv id n : ninv (Some id) n -> (forall d cb, ntp n = Some d -> field_of cb d <> id) ->
  ninv None (set_sources (delete id (sources n)) n).
Proof.
  intros Hi Hne. split; cbn [set_sources ntp sources next_source].
  - intros id' Hn [Hd Hs]%lookup_delete_is_Some. destruct Hd. pose proof (n_none _ _ Hi id' Hn Hs). congruence.
  - intros d id' src Hd [Hn Hs]%lookup_delete_Some. destruct (n_owner _ _ Hi d id' src Hd Hs); [congruence|by right].
  - intros d cb Hd Hz. destruct (n_field _ _ Hi d cb Hd Hz) as (src & Hs). exists src. by rewrite lookup_delete_ne by (symmetry; by apply Hne).
  - intros id' [_ Hs]%lookup_delete_is_Some. by apply (n_ids _ _ Hi).
  - apply (n_next _ _ Hi).
Qed.

(** ** Stopping *)

(** The server is gone; only the source that is being dispatched may be left. *)
Definition stopped (d : ntp_data) (n : state) : state :=
  set_ntp None (set_sources (delete (channel_watch d) (delete (timeout_id d) (delete (poll_id d) (sources n)))) n).

Lemma stopped_inv xs n d : ninv xs n -> ntp n = Some d -> ninv xs (stopped d n).
Proof.
  intros Hi Hd. split; cbn [stopped set_ntp set_sources ntp sources next_source]; try done.
  - intros id _. rewrite !lookup_delete_is_Some. intros (H1 & H2 & H3 & [src Hs]).
    destruct (n_owner _ _ Hi d id src Hd Hs) as [|[_ E]]; [done|]. destruct (s_cb src); cbn in E; done.
  - intros id. rewrite !lookup_delete_is_Some. intros (_ & _ & _ & Hs). by apply (n_ids _ _ Hi).
  - apply (n_next _ _ Hi).
Qed.

Lemma g_remove_nd xs n0 n d cb : ninv xs n0 -> ntp n0 = Some d -> sources n !! field_of cb d = sources n0 !! field_of cb d ->
  remove_if (field_of cb d) n = Some (tt, set_sources (delete (field_of cb d) (sources n)) n, []).
Proof.
  intros Hi Hd Es. unfold remove_if. destruct (Z.eqb_spec (field_of cb d) 0) as [E|E].
  - rewrite E in Es |- *. rewrite delete_id; [by destruct n|]. rewrite Es. destruct (sources n0 !! 0) eqn:E0; [|done].
    pose proof (n_ids _ _ Hi 0 (mk_is_Some _ _ E0)). lia.
  - destruct (n_field _ _ Hi d cb Hd E) as (src & Hs & _). unfold g_source_remove. eapply bind_next; [done|]. by rewrite Es, Hs.
Qed.

(** Different fields hold different sources. *)
Lemma fields_apart xs n d cb cb' : ninv xs n -> ntp n = Some d -> cb <> cb' -> field_of cb d <> 0 -> field_of cb d <> field_of cb' d.
Proof.
  intros Hi Hd Hne Hz E. destruct (n_field _ _ Hi d cb Hd Hz) as (src & Hs & E1 & _).
  destruct (n_field _ _ Hi d cb' Hd ltac:(congruence)) as (src' & Hs' & E2 & _). congruence.
Qed.

Lemma delete_other xs n d cb cb' (m : gmap Z source) : ninv xs n -> ntp n = Some d -> cb <> cb' ->
  m !! field_of cb d = sources n !! field_of cb d -> delete (field_of cb' d) m !! field_of cb d = sources n !! field_of cb d.
Proof.
  intros Hi Hd Hne E. destruct (decide (field_of cb' d = field_of cb d)) as [E2|E2]; [|by rewrite lookup_delete_ne].
  destruct (decide (field_of cb d = 0)) as [E0|E0]; [|by destruct (fields_apart _ _ _ cb cb' Hi Hd Hne E0)].
  rewrite E2, lookup_delete_eq, E0. destruct (sources n !! 0) eqn:Es; [|done]. pose proof (n_ids _ _ Hi 0 (mk_is_Some _ _ Es)). lia.
Qed.

Lemma free_nd xs n d : ninv xs n -> ntp n = Some d -> free_ntp_data (nd_ptr d) n = Some (tt, stopped d n, []).
Proof.
  intros Hi Hd. unfold free_ntp_data. eapply bind_next; [by apply load_nd|].
  eapply bind_next; [apply (g_remove_nd xs n n d next_poll_cb); done|].
  eapply bind_next.
  { apply (g_remove_nd xs n _ d send_timeout_cb Hi Hd). by apply (delete_other xs n d send_timeout_cb next_poll_cb). }
  eapply bind_next.
  { apply (g_remove_nd xs n _ d received_data_cb Hi Hd). apply (delete_other xs n d received_data_cb send_timeout_cb); [done..|].
    by apply (delete_other xs n d received_data_cb next_poll_cb). }
  done.
Qed.

Definition stop_state (n : state) : state := match ntp n with Some d => stopped d n | None => n end.

Lemma stop_nd xs n : ninv xs n -> __connman_ntp_stop n = Some (tt, stop_state n, []).
Proof.
  intros Hi. unfold __connman_ntp_stop, stop_state. eapply bind_next; [done|]. destruct (ntp n) as [d|] eqn:E; [by apply (free_nd xs)|done].
Qed.

Lemma stop_inv xs n : ninv xs n -> ninv xs (stop_state n) /\ ntp (stop_state n) = None /\ next_source (stop_state n) = next_source n.
Proof.
  intros Hi. unfold stop_state. destruct (ntp n) as [d|] eqn:E; [|done]. split; [by apply stopped_inv|done].
Qed.

(** ** Handlers *)

(** The state of [d] after a handler: [r] is what the callback is called with. *)
Record step (xs : option Z) (n : state) (d : ntp_data) (r : option bool) (n' : state) (d' : ntp_data) : Prop := {
  st_inv : ninv xs n';
  st_ntp : ntp n' = Some d';
  st_ptr : nd_ptr d' = nd_ptr d;
  st_next : next_source n <= next_source n';
  st_askable : askable d -> askable d';
  st_watch : channel_watch d' = channel_watch d \/ channel_watch d' = 0;
  st_poll : poll_id d' = poll_id d \/ poll_id d' = 0 \/ next_source n <= poll_id d';
  st_timeout : timeout_id d' = timeout_id d \/ timeout_id d' = 0 \/ next_source n <= timeout_id d';
}.

Section handlers.
Context (e : env).

Lemma step_refl xs n d r : ninv xs n -> ntp n = Some d -> step xs n d r n d.
Proof. intros Hi Hd. by split; auto; lia. Qed.

(** A field that is not the source's changes. *)
Lemma step_same xs n d r d' : ninv xs n -> ntp n = Some d -> nd_ptr d' = nd_ptr d -> (forall cb, field_of cb d' = field_of cb d) ->
  (askable d -> askable d') -> step xs n d r (set_ntp (Some d') n) d'.
Proof.
  intros Hi Hd Ep Ef Ha. split; auto; cbn; try lia.
  - by apply (same_fields_inv xs n d).
  - left. apply (Ef received_data_cb).
  - left. apply (Ef next_poll_cb).
  - left. apply (Ef send_timeout_cb).
Qed.

Lemma send_packet_run xs n d t : ninv xs n -> ntp n = Some d -> timeout_id d = 0 \/ xs = Some (timeout_id d) ->
  returns (send_packet e (nd_ptr d) t) n (fun r n' _ => exists d', step xs n d r n' d' /\
    (r = None -> next_source n <= timeout_id d') /\ r <> Some true /\ poll_id d' = poll_id d /\
    (timeserver_addr d <> None -> sendto_ok e = true -> r = None)).
Proof.
  intros Hi Hd Ht. unfold send_packet. eapply returns_step; [by apply load_nd|].
  destruct (timeserver_addr d) as [srv|] eqn:Ea; [|apply returns_ret; exists d; split; [by apply step_refl|done]].
  eapply returns_step; [by apply (update_nd _ _ d)|]. set (d1 := with_mtx (monotonic e) d).
  assert (Hi1 : ninv xs (set_ntp (Some d1) n)) by (apply (same_fields_inv xs n d); [done..|by intros []]).
  destruct (sendto_ok e); cbn [negb].
  2: { apply returns_ret. exists d1. split; [|done]. apply step_same; [done..|by intros []|done]. }
  apply returns_emit. eapply returns_step; [apply source_add_nd|].
  eapply returns_step; [by apply (update_nd _ _ d1)|]. apply returns_ret.
  exists (with_timer (next_source n) t d1). split; [|done]. split; auto; cbn; try lia.
  change (nd_ptr d) with (nd_ptr d1). apply (added_inv xs (set_ntp (Some d1) n) d1); try done. by intros [].
Qed.

Lemma send_timeout_run n d : ninv (Some (timeout_id d)) n -> ntp n = Some d ->
  returns (send_timeout e (nd_ptr d)) n (fun r n' _ => exists d', step (Some (timeout_id d)) n d r n' d' /\
    (r = None -> next_source n <= timeout_id d') /\ r <> Some true /\ poll_id d' = poll_id d).
Proof.
  intros Hi Hd. unfold send_timeout. eapply returns_step; [by apply load_nd|]. eapply returns_step; [by apply (update_nd _ _ d)|].
  set (d1 := with_retries _ d). set (n1 := set_ntp (Some d1) n).
  assert (H1 : step (Some (timeout_id d)) n d None n1 d1) by (apply step_same; [done..|by intros []|done]).
  destruct (retries d =? NTP_SEND_RETRIES).
  - apply returns_ret. exists d1. split; [|done]. by destruct H1; split.
  - change (nd_ptr d) with (nd_ptr d1). eapply returns_conseq.
    { apply (send_packet_run (Some (timeout_id d)) n1 d1); [apply H1|done|by right]. }
    intros r n' _ (d' & [] & Ht & Hr & Hp & _). exists d'. split; [|done]. by split.
Qed.

Lemma next_poll_run n d : ninv (Some (poll_id d)) n -> ntp n = Some d -> timeout_id d = 0 -> askable d ->
  returns (next_poll e (nd_ptr d)) n (fun r n' _ => exists d', step (Some (poll_id d)) n d r n' d' /\
    (r = None -> next_source n <= timeout_id d') /\ r <> Some true /\ poll_id d' = 0).
Proof.
  intros Hi Hd Ht [Hfd Ha]. unfold next_poll. eapply returns_step; [by apply (update_nd _ _ d)|].
  set (d1 := with_poll 0 d). set (n1 := set_ntp (Some d1) n).
  assert (Hi1 : ninv (Some (poll_id d)) n1) by (apply (field_dispatched_inv n d d1 next_poll_cb); [done..|by intros []]).
  eapply returns_step; [by apply (load_nd _ d1)|]. cbn [d1 with_poll transmit_fd]. rewrite (proj2 (Z.eqb_neq _ _)) by done.
  change (nd_ptr d) with (nd_ptr d1). eapply returns_conseq.
  { apply (send_packet_run (Some (poll_id d)) n1 d1); [done|done|by left]. }
  intros r n' _ (d' & [] & H1 & Hr & Hp & _). exists d'. split; [|done]. split; try done. by right; left.
Qed.

Lemma remove_nd xs n d cb : ninv xs n -> ntp n = Some d -> field_of cb d <> 0 ->
  g_source_remove (field_of cb d) n = Some (tt, set_sources (delete (field_of cb d) (sources n)) n, []).
Proof.
  intros Hi Hd E. destruct (n_field _ _ Hi d cb Hd E) as (src & Hs & _). unfold g_source_remove. eapply bind_next; [done|]. by rewrite Hs.
Qed.

Lemma field_pos xs n d cb : ninv xs n -> ntp n = Some d -> 0 <= field_of cb d < next_source n.
Proof.
  intros Hi Hd. destruct (decide (field_of cb d = 0)) as [->|E]; [pose proof (n_next _ _ Hi); lia|].
  destruct (n_field _ _ Hi d cb Hd E) as (src & Hs & _). pose proof (n_ids _ _ Hi _ (mk_is_Some _ _ Hs)). lia.
Qed.

(** No timer is left for the request. *)
Lemma reset_timeout_run n d : ninv None n -> ntp n = Some d -> exists n' d', reset_timeout (nd_ptr d) n = Some (tt, n', []) /\
  ninv None n' /\ ntp n' = Some d' /\ nd_ptr d' = nd_ptr d /\ next_source n' = next_source n /\ timeout_id d' = 0 /\
  poll_id d' = poll_id d /\ channel_watch d' = channel_watch d /\ transmit_fd d' = transmit_fd d /\ timeserver_addr d' = timeserver_addr d.
Proof.
  intros Hi Hd. pose proof (field_pos _ _ d send_timeout_cb Hi Hd) as Hpos. cbn in Hpos. unfold reset_timeout.
  set (d1 := with_timer 0 (timeout d) d). set (d2 := with_retries 0 d1).
  set (n1 := if 0 <? timeout_id d then set_ntp (Some d1) (set_sources (delete (timeout_id d) (sources n)) n) else n).
  set (d0 := if 0 <? timeout_id d then d1 else d). set (d3 := with_retries 0 d0).
  assert (H1 : ninv None n1 /\ ntp n1 = Some d0 /\ timeout_id d0 = 0 /\ nd_ptr d0 = nd_ptr d).
  { unfold n1, d0. destruct (Z.ltb_spec 0 (timeout_id d)); [|split; [done|]; split; [done|]; split; [lia|done]].
    split; [|done]. apply (field_cleared_inv None n d d1 send_timeout_cb); try done. by intros []. }
  destruct H1 as (Hi1 & Hd1 & Ht1 & Hp1). exists (set_ntp (Some d3) n1), d3. split.
  { eapply bind_next; [by apply load_nd|]. apply (bind_next _ _ _ tt n1).
    - unfold n1. destruct (Z.ltb_spec 0 (timeout_id d)); [|done]. eapply bind_next; [apply (remove_nd None n d send_timeout_cb); [done..|cbn; lia]|].
      by apply (update_nd _ (with_timer 0 (timeout d)) d).
    - by apply (update_nd _ (with_retries 0) d0). }
  split; [apply (same_fields_inv None n1 d0); [done..|by intros []]|]. split; [done|]. split; [done|].
  split; [unfold n1; by destruct (0 <? timeout_id d)|]. split; [done|].
  unfold d3, d0. by destruct (0 <? timeout_id d).
Qed.

Lemma decode_run n d m len tv mrx : ninv None n -> ntp n = Some d -> transmit_delay (msg_poll m) <> None ->
  returns (decode_msg e (nd_ptr d) m len tv mrx) n (fun r n' _ => exists d', step None n d r n' d' /\
    (r = None -> n' = n /\ d' = d) /\ (r = Some true -> poll_id d' <> 0 /\ timeout_id d' = 0)).
Proof.
  intros Hi Hd Hdel. unfold decode_msg.
  assert (Hsame : forall r, r <> Some true -> returns (O := output) (mret r) n (fun r n' _ => exists d', step None n d r n' d' /\
    (r = None -> n' = n /\ d' = d) /\ (r = Some true -> poll_id d' <> 0 /\ timeout_id d' = 0))).
  { intros r Hr. apply returns_ret. exists d. split; [by apply step_refl|done]. }
  destruct (len <? msg_size); [by apply Hsame|]. destruct tv as [tv|]; [|by apply Hsame]. destruct (msg_stratum m =? 0); [by apply Hsame|].
  destruct (transmit_delay (msg_poll m)) as [delay|]; [|done]. eapply returns_step; [done|].
  destruct (_ =? NTP_FLAG_LI_NOTINSYNC); [by apply Hsame|]. destruct (negb (supported_version _)); [by apply Hsame|].
  destruct (negb (_ =? NTP_FLAG_MD_SERVER)); [by apply Hsame|]. eapply returns_step; [by apply load_nd|].
  destruct (reset_timeout_run n d Hi Hd) as (n1 & d1 & E1 & Hi1 & Hd1 & Ep & En & Et & Epo & Ew & Efd & Ea).
  eapply returns_step; [exact E1|]. eapply returns_step; [by apply (load_nd _ d1)|].
  pose proof (field_pos _ _ d1 next_poll_cb Hi1 Hd1) as Hpos. cbn in Hpos. pose proof (n_next _ _ Hi1).
  set (d2 := with_poll 0 d1). set (n2 := if 0 <? poll_id d1 then set_sources (delete (poll_id d1) (sources n1)) n1 else n1).
  set (d3 := with_poll (next_source n1) d1).
  assert (Hi3 : ninv None (set_ntp (Some d3) (added next_poll_cb (nd_ptr d) delay n2))).
  { assert (Hi2 : ninv None (set_ntp (Some d2) n2)).
    { unfold n2. destruct (Z.ltb_spec 0 (poll_id d1)); [apply (field_cleared_inv None n1 d1 d2 next_poll_cb); try done; by intros []|].
      apply (same_fields_inv None n1 d1); [done..|]. intros []; try done. cbn. lia. }
    rewrite <- Ep. change (nd_ptr d1) with (nd_ptr d2).
    replace (added next_poll_cb (nd_ptr d2) delay n2) with (set_ntp (ntp n2) (added next_poll_cb (nd_ptr d2) delay (set_ntp (Some d2) n2))) by by destruct n2.
    apply (added_inv None (set_ntp (Some d2) n2) d2 d3 next_poll_cb delay Hi2); try done; [|by intros []|by left].
    unfold n2. by destruct (0 <? poll_id d1). }
  eapply (returns_step _ _ _ tt n2).
  { unfold n2. destruct (Z.ltb_spec 0 (poll_id d1)); [|done]. apply (remove_nd None n1 d1 next_poll_cb); [done..|cbn; lia]. }
  assert (En2 : next_source n2 = next_source n1 /\ ntp n2 = Some d1) by (unfold n2; by destruct (0 <? poll_id d1)). destruct En2 as [En2 Hd2].
  eapply returns_step; [apply source_add_nd|]. rewrite En2. eapply returns_step; [by apply (update_nd _ (with_poll (next_source n1)) d1)|]. fold d3. apply returns_emit.
  assert (Hst : forall r, step None n d r (set_ntp (Some d3) (added next_poll_cb (nd_ptr d) delay n2)) d3).
  { intros r. split; auto; cbn; try lia. unfold askable. cbn. by rewrite Efd, Ea. }
  destruct (adjtimex_ok e); apply returns_ret; exists d3; (split; [apply Hst|]); (split; [done|]); cbn; intros; [lia|done].
Qed.

(** A datagram. *)
Lemma received_run n d buf received sender tv : ninv None n -> ntp n = Some d -> transmit_delay (msg_poll buf) <> None ->
  returns (received_data e (nd_ptr d) false buf received sender tv) n (fun r n' _ => exists d', step None n d r n' d' /\
    (r = None -> n' = n /\ d' = d) /\ (r = Some true -> poll_id d' <> 0 /\ timeout_id d' = 0)).
Proof.
  intros Hi Hd Hdel. unfold received_data.
  assert (Hsame : returns (O := output) (mret None) n (fun r n' _ => exists d', step None n d r n' d' /\
    (r = None -> n' = n /\ d' = d) /\ (r = Some true -> poll_id d' <> 0 /\ timeout_id d' = 0))).
  { apply returns_ret. exists d. split; [by apply step_refl|done]. }
  destruct (received <? 0); [done|]. destruct sender as [[? src]|]; [|done]. eapply returns_step; [by apply load_nd|].
  destruct (timeserver_addr d) as [[? a]|]; [|done]. case_bool_decide; [|done]. by apply decode_run.
Qed.

(** An error on the socket. *)
Lemma received_error n d buf received sender tv : ninv None n -> ntp n = Some d ->
  let d' := with_channel (transmit_fd d) 0 d in
  received_data e (nd_ptr d) true buf received sender tv n = Some (None, set_ntp (Some d') n, []) /\
  ninv (Some (channel_watch d)) (set_ntp (Some d') n).
Proof.
  intros Hi Hd d'. split.
  - unfold received_data. eapply bind_next; [by apply (update_nd _ _ d)|done].
  - apply (field_dispatched_inv n d d' received_data_cb); [by apply dispatch_inv|done..|by intros []].
Qed.

(** Sockets can be set up and messages be sent. *)
Definition works : Prop := sendto_ok e = true /\ forall f, open_socket e f <> None.

(** A server is started, after the last one was stopped. *)
Lemma ntp_start_run xs n x : ninv xs n -> ntp n = None -> getaddrinfo e x <> None -> (forall f, open_socket e f <> Some 0) ->
  returns (__connman_ntp_start e x) n (fun r n' _ => exists d', ninv xs n' /\ ntp n' = Some d' /\ next_source n <= next_source n' /\
    (forall cb, field_of cb d' = 0 \/ next_source n <= field_of cb d') /\ r <> Some true /\ (r = None -> timed d') /\ (works -> r = None)).
Proof.
  intros Hi Hn Hg Hfd. unfold __connman_ntp_start. eapply returns_step; [done|]. rewrite Hn. eapply returns_step; [done|].
  eapply returns_step; [done|]. eapply returns_step; [done|]. eapply returns_step; [done|]. cbn [set_ntp set_next_nd next_nd].
  set (d0 := mk_nd (next_nd n) x None (mk_ts 0 0) 0 0 0 0 0 0). set (n0 := set_ntp (Some d0) (set_next_nd (next_nd n + 1) n)).
  assert (Hi0 : forall a, ninv xs (set_ntp (Some (with_addr a d0)) n0)).
  { intros a. split; cbn [n0 set_ntp set_next_nd ntp sources next_source]; try done; [| |apply (n_ids _ _ Hi)|apply (n_next _ _ Hi)].
    - intros d id src _ Hs. left. apply (n_none _ _ Hi id Hn). by exists src.
    - intros d cb [= <-] Hz. by destruct cb. }
  unfold start_ntp. eapply returns_step; [by apply (load_nd _ d0)|]. cbn [d0 timeserver]. fold d0.
  destruct (getaddrinfo e x) as [[f a]|] eqn:Ea; [|done]. specialize (Hi0 (Some (f, a))).
  eapply returns_step; [by apply (update_nd _ (with_addr (Some (f, a))) d0)|]. set (d1 := with_addr (Some (f, a)) d0) in *.
  cbn [d0 channel_watch]. change (0 <? 0) with false. cbv iota.
  destruct (open_socket e f) as [fd|] eqn:Eo.
  2: { apply returns_ret. exists d1. split; [done|]. split; [done|]. split; [cbn; lia|]. split; [intros []; by left|].
       split; [done|]. split; [done|]. intros [_ Hw]. by destruct (Hw f). }
  eapply returns_step; [apply source_add_nd|]. eapply returns_step; [by apply (update_nd _ (with_channel fd (next_source n)) d1)|].
  set (d2 := with_channel fd (next_source n) d1). set (n2 := set_ntp (Some d2) _).
  assert (Hi2 : ninv xs n2).
  { change (ninv xs (set_ntp (Some d2) (added received_data_cb (nd_ptr d1) 0 (set_ntp (Some d1) n0)))).
    apply (added_inv xs _ d1); try done; [by intros []|by left]. }
  change (next_nd n) with (nd_ptr d2). eapply returns_conseq; [apply (send_packet_run xs n2 d2); [done|done|by left]|].
  intros r n' _ (d' & Hst & Ht & Hr & Hp & Hw). pose proof (n_next _ _ Hi). pose proof (st_next _ _ _ _ _ _ Hst) as Hnx. cbn in Hnx.
  exists d'. split; [apply Hst|]. split; [apply Hst|]. split; [lia|]. split; [|split; [done|split]].
  - intros []; cbn.
    + destruct (st_timeout _ _ _ _ _ _ Hst) as [-> | [-> | Hge]]; [by left..|right; cbn in Hge; lia].
    + left. by rewrite Hp.
    + destruct (st_watch _ _ _ _ _ _ Hst) as [-> | ->]; [right; cbn; lia|by left].
  - intros E. split; [apply (st_askable _ _ _ _ _ _ Hst); split; [|done]; cbn; intros ->; by destruct (Hfd f)|].
    rewrite Hp. specialize (Ht E). cbn in Ht |- *. lia.
  - intros [Hs _]. by apply Hw.
Qed.

End handlers.

(** ** What is taken from an answer *)

(** The length of a datagram is not looked at: after an empty one the clock is set to what the buffer held before. *)
Example short_answer_used :
  let e := mk_env (mk_tv 100 0) (mk_ts 1 0) true true (fun _ => Some (AF_INET, [192; 0; 2; 1])) (fun _ => Some 5) in
  let buf := [0x24; 1; 10; 0] ++ replicate 28 0 ++ be_bytes32 (OFFSET_1900_1970 + 200) ++ replicate 4 0 ++ be_bytes32 (OFFSET_1900_1970 + 200) ++ replicate 84 0 in
  match (__connman_ntp_start e [49];; received_data e 1 false buf 0 (Some (AF_INET, [192; 0; 2; 1])) (Some (mk_tv 100 0))) (mk_state None ∅ 1 1) with
  | Some (r, _, o) => r = Some true /\ last o = Some (Adjtimex (Jump 100 0 0))
  | None => False
  end.
Proof. by vm_compute. Qed.

(** The interval of the polls is the server's, down to none at all; from 2{^32} seconds on the conversion is undefined. *)
Example poll_not_bounded : transmit_delay (-1) = Some 0 /\ transmit_delay 32 = None.
Proof. done. Qed.

(** ** A server that does not answer *)

(** The timer of the request fires: its interval, and what the callback is called with. *)
Definition expire (e : env) : M (Z * option bool) :=
  n ← pget ntp;
  d ← plift n;
  m ← pget sources;
  src ← plift (m !! timeout_id d);
  r ← send_timeout e (s_nd src);
  pmodify (fun n => set_sources (delete (timeout_id d) (sources n)) n);;
  mret (s_interval src, r).

Definition expires (es : list env) : M (list (Z * option bool)) :=
  foldr (fun e m => x ← expire e; l ← m; mret (x :: l)) (mret []) es.

(** A request was sent [k] times. *)
Record unanswered (a : family * list Z) (k t : Z) (n : state) (d : ntp_data) : Prop := {
  u_ntp : ntp n = Some d;
  u_addr : timeserver_addr d = Some a;
  u_retries : retries d = k - 1;
  u_timeout : timeout d = t;
  u_source : sources n !! timeout_id d = Some (mk_source send_timeout_cb (nd_ptr d) t);
  u_fresh : timeout_id d < next_source n;
}.

Lemma send_packet_sent e n d a t k : sendto_ok e = true -> ntp n = Some d -> timeserver_addr d = Some a -> retries d = k - 1 ->
  exists n' d', send_packet e (nd_ptr d) t n = Some (None, n', [Send a (request (now e))]) /\ unanswered a k t n' d' /\
    sources n' = <[next_source n := mk_source send_timeout_cb (nd_ptr d) t]> (sources n) /\ timeout_id d' = next_source n.
Proof.
  intros Hs Hd Ha Hk. set (d1 := with_mtx (monotonic e) d). set (d' := with_timer (next_source n) t d1).
  exists (set_ntp (Some d') (added send_timeout_cb (nd_ptr d) t (set_ntp (Some d1) n))), d'. split; [|split; [|done]].
  - unfold send_packet. eapply bind_next; [by apply load_nd|]. rewrite Ha. eapply bind_next; [by apply (update_nd _ _ d)|]. rewrite Hs. cbn [negb].
    eapply (bind_run _ _ _ tt _ [Send a (request (now e))] None _ []); [done|]. eapply bind_next; [apply source_add_nd|].
    eapply bind_next; [by apply (update_nd _ (with_timer (next_source n) t) d1)|done].
  - split; try done; [apply lookup_insert_eq|cbn; lia].
Qed.

Lemma expire_sent e n d a k t : sendto_ok e = true -> unanswered a k t n d -> 0 < k <= NTP_SEND_RETRIES -> 0 <= t < 2 ^ 31 ->
  exists n' d', expire e n = Some ((t, None), n', [Send a (request (now e))]) /\ unanswered a (k + 1) (2 * t) n' d'.
Proof.
  intros Hs [Hd Ha Hk Ht Hsrc Hf] Hr Hb. unfold NTP_SEND_RETRIES in Hr. set (d1 := with_retries (u32 (retries d + 1)) d).
  destruct (send_packet_sent e (set_ntp (Some d1) n) d1 a (2 * t) (k + 1)) as (n' & d' & E & [] & Es & Ei); [done..| |].
  { cbn. rewrite Hk. unfold u32. rewrite Z.mod_small; lia. }
  exists (set_sources (delete (timeout_id d) (sources n')) n'), d'. split.
  - unfold expire. eapply bind_next; [done|]. rewrite Hd. eapply bind_next; [done|]. eapply bind_next; [done|]. rewrite Hsrc. eapply bind_next; [done|].
    cbn [s_nd s_interval]. apply (bind_run _ _ _ None n' [Send a (request (now e))] _ _ []); [|done].
    unfold send_timeout. eapply bind_next; [by apply load_nd|]. eapply bind_next; [by apply (update_nd _ _ d)|].
    rewrite (proj2 (Z.eqb_neq _ _)) by (unfold NTP_SEND_RETRIES; lia).
    replace (u32 (Z.shiftl (timeout d) 1)) with (2 * t); [exact E|]. rewrite Ht, Z.shiftl_mul_pow2 by lia. unfold u32. rewrite Z.mod_small; lia.
  - split; try done. cbn. rewrite lookup_delete_ne; [done|]. cbn in Ei. lia.
Qed.

Lemma expire_last e n d a t : unanswered a (NTP_SEND_RETRIES + 1) t n d -> exists n', expire e n = Some ((t, Some false), n', []).
Proof.
  intros [Hd Ha Hk Ht Hsrc Hf]. eexists. unfold expire. eapply bind_next; [done|]. rewrite Hd. eapply bind_next; [done|]. eapply bind_next; [done|].
  rewrite Hsrc. eapply bind_next; [done|]. cbn [s_nd s_interval]. eapply bind_next; [|eapply bind_next; done].
  unfold send_timeout. eapply bind_next; [by apply load_nd|]. eapply bind_next; [by apply (update_nd _ _ d)|]. by rewrite Hk.
Qed.

Lemma start_sent e x a n : ntp n = None -> getaddrinfo e x = Some a -> open_socket e a.1 <> None -> sendto_ok e = true ->
  exists n' d', __connman_ntp_start e x n = Some (None, n', [Send a (request (now e))]) /\ unanswered a 1 NTP_SEND_TIMEOUT n' d'.
Proof.
  intros Hn Ha Ho Hs. destruct a as [f a]. destruct (open_socket e f) as [fd|] eqn:Eo; [|done].
  set (d0 := mk_nd (next_nd n) x None (mk_ts 0 0) 0 0 0 0 0 0). set (d1 := with_addr (Some (f, a)) d0). set (d2 := with_channel fd (next_source n) d1).
  set (n1 := set_ntp (Some d1) (set_ntp (Some d0) (set_next_nd (next_nd n + 1) n))).
  destruct (send_packet_sent e (set_ntp (Some d2) (added received_data_cb (nd_ptr d1) 0 n1)) d2 (f, a) NTP_SEND_TIMEOUT 1) as (n' & d' & E & Hu & _); [done..|].
  exists n', d'. split; [|done]. unfold __connman_ntp_start. eapply bind_next; [done|]. rewrite Hn. do 4 (eapply bind_next; [done|]).
  unfold start_ntp. eapply bind_next; [by apply (load_nd _ d0)|]. cbn [d0 timeserver]. rewrite Ha.
  eapply bind_next; [by apply (update_nd _ (with_addr (Some (f, a))) d0)|]. cbn [d0 channel_watch]. change (0 <? 0) with false. cbv iota. rewrite Eo.
  eapply bind_next; [apply source_add_nd|]. eapply bind_next; [by apply (update_nd _ (with_channel fd (next_source n)) d1)|]. exact E.
Qed.

Lemma expires_cons e es n x n1 o1 l n2 o2 : expire e n = Some (x, n1, o1) -> expires es n1 = Some (l, n2, o2) ->
  expires (e :: es) n = Some (x :: l, n2, o1 ++ o2).
Proof. intros E1 E2. unfold expires. cbn [foldr]. eapply bind_run; [exact E1|]. rewrite <- (app_nil_r o2). by eapply bind_run. Qed.

(** C34: A server that does not answer is sent four requests, and is given up 30 seconds after the first one: the timers are those of 2, 4,
    8 and 16 seconds, and only the last of them calls the callback, with a failure. *)
Theorem silent_server_given_up e0 e1 e2 e3 e4 x a n : ntp n = None -> getaddrinfo e0 x = Some a -> open_socket e0 a.1 <> None ->
  Forall (fun e => sendto_ok e = true) [e0; e1; e2; e3] ->
  exists n', (r ← __connman_ntp_start e0 x; l ← expires [e1; e2; e3; e4]; mret (r, l)) n =
    Some ((None, [(2, None); (4, None); (8, None); (16, Some false)]), n', map (fun e => Send a (request (now e))) [e0; e1; e2; e3]).
Proof.
  intros Hn Ha Ho Hs. decompose_Forall_hyps.
  destruct (start_sent e0 x a n) as (n0 & d0 & E0 & U0); [done..|].
  destruct (expire_sent e1 n0 d0 a 1 2) as (n1 & d1 & E1 & U1); [done..|].
  destruct (expire_sent e2 n1 d1 a 2 4) as (n2 & d2 & E2 & U2); [done..|].
  destruct (expire_sent e3 n2 d2 a 3 8) as (n3 & d3 & E3 & U3); [done..|].
  destruct (expire_last e4 n3 d3 a 16 U3) as (n4 & E4). exists n4.
  assert (El : expires [e1; e2; e3; e4] n0 = Some ([(2, None); (4, None); (8, None); (16, Some false)], n4, map (fun e => Send a (request (now e))) [e1; e2; e3])).
  { apply (expires_cons _ _ _ _ n1 [_] _ _ [_; _] E1), (expires_cons _ _ _ _ n2 [_] _ _ [_] E2), (expires_cons _ _ _ _ n3 [_] _ _ [] E3).
    by apply (expires_cons _ _ _ _ n4 [] _ _ [] E4). }
  refine (bind_run (__connman_ntp_start e0 x) _ n None n0 [_] _ n4 (map (fun e => Send a (request (now e))) [e1; e2; e3]) E0 _).
  exact (bind_run (expires [e1; e2; e3; e4]) (fun l => mret (None, l)) n0 _ n4 _ _ n4 [] El eq_refl).
Qed.

Lemma silent_server_given_up_witness :
  let e := mk_env (mk_tv 0 0) (mk_ts 0 0) true true (fun _ => Some (AF_INET, [192; 0; 2; 1])) (fun _ => Some 5) in
  exists n', (r ← __connman_ntp_start e [49]; l ← expires [e; e; e; e]; mret (r, l)) (mk_state None ∅ 1 1) =
    Some ((None, [(2, None); (4, None); (8, None); (16, Some false)]), n', replicate 4 (Send (AF_INET, [192; 0; 2; 1]) (request (mk_tv 0 0)))).
Proof.
  intros e. apply (silent_server_given_up e e e e e [49] (AF_INET, [192; 0; 2; 1]) (mk_state None ∅ 1 1)); try done. by repeat constructor.
Defined.

End NtpProps.
