(* ===== verification/Timeserver.v ===== *)
(** * Time servers (src/timeserver.c)

    The time servers of a service, of the configuration and the fallback servers are tried one after the other: names are
    resolved first ([Gresolv]), addresses are handed to the NTP client ([Ntp]).  When none of them works the list is tried again
    after a while.

    [lookup_pending] is what the resolver is working on: the number of the lookup whose callback has not been called.
    The calls of the NTP client are made in place, its callback is the last action of its handlers. *)

From S2P Require Import Prelude Inet Buffer Effects Double Ntp.
From stdpp Require Import list gmap.
Open Scope Z_scope.

Module Timeserver.

Definition TS_RECHECK_INTERVAL : Z := 7200.

Abbreviation text := (list Z).

Inductive ts_callback := ts_recheck_cb | timeserver_sync_restart_cb.

#[global] Instance ts_callback_eq_dec : EqDecision ts_callback.
Proof. solve_decision. Defined.

Record state := mk_state {
  ntp : Ntp.state;
  ts_service : option Z;
  timeservers_list : list text;
  ts_list : list text;
  ts_current : option text;
  ts_recheck_id : Z;
  ts_backoff_id : Z;
  ts_is_synced : bool;
  resolv : bool;                       (** there is a resolver *)
  resolv_id : Z;
  lookup_pending : option Z;
  sources : gmap Z ts_callback;
  next_source : Z;
}.

Inductive output :=
| Ntp_output (o : Ntp.output)
| Ntp_start (server : text)
| Lookup (hostname : text)
| Synced (b : bool)
| Time_changed
| Servers_changed (service : Z) (l : list text)
| Source_unknown (id : Z).

Inductive sync_reason := START | ADDRESS_UPDATE | STATE_UPDATE | TS_CHANGE.

(** What a call meets: the NTP client's, what the resolver makes of a name ([inr] the number of the
    lookup, [inl] the error as an integer), and what the services and the configuration say. *)
Record env := mk_env {
  ntp_env : Ntp.env;
  lookup_hostname : text -> Z + Z;
  manual : bool;                       (** time updates are manual *)
  timeservers_config : option Z -> list text;
  timeservers : option Z -> list text;
  gateway : option Z -> option text;   (** if gateways are time servers *)
  global_timeservers : list text;
  fallback_timeservers : list text;
  service_index : Z -> Z;
  default_service : option Z;
}.

Definition M (A : Type) : Type := pprog state output A.

Definition set_ntp (n : Ntp.state) (s : state) : state :=
  mk_state n (ts_service s) (timeservers_list s) (ts_list s) (ts_current s) (ts_recheck_id s) (ts_backoff_id s) (ts_is_synced s) (resolv s) (resolv_id s) (lookup_pending s) (sources s) (next_source s).
Definition set_service (x : option Z) (s : state) : state :=
  mk_state (ntp s) x (timeservers_list s) (ts_list s) (ts_current s) (ts_recheck_id s) (ts_backoff_id s) (ts_is_synced s) (resolv s) (resolv_id s) (lookup_pending s) (sources s) (next_source s).
Definition set_timeservers (l : list text) (s : state) : state :=
  mk_state (ntp s) (ts_service s) l (ts_list s) (ts_current s) (ts_recheck_id s) (ts_backoff_id s) (ts_is_synced s) (resolv s) (resolv_id s) (lookup_pending s) (sources s) (next_source s).
Definition set_ts_list (l : list text) (s : state) : state :=
  mk_state (ntp s) (ts_service s) (timeservers_list s) l (ts_current s) (ts_recheck_id s) (ts_backoff_id s) (ts_is_synced s) (resolv s) (resolv_id s) (lookup_pending s) (sources s) (next_source s).
Definition set_current (x : option text) (s : state) : state :=
  mk_state (ntp s) (ts_service s) (timeservers_list s) (ts_list s) x (ts_recheck_id s) (ts_backoff_id s) (ts_is_synced s) (resolv s) (resolv_id s) (lookup_pending s) (sources s) (next_source s).
Definition set_recheck (n : Z) (s : state) : state :=
  mk_state (ntp s) (ts_service s) (timeservers_list s) (ts_list s) (ts_current s) n (ts_backoff_id s) (ts_is_synced s) (resolv s) (resolv_id s) (lookup_pending s) (sources s) (next_source s).
Definition set_backoff (n : Z) (s : state) : state :=
  mk_state (ntp s) (ts_service s) (timeservers_list s) (ts_list s) (ts_current s) (ts_recheck_id s) n (ts_is_synced s) (resolv s) (resolv_id s) (lookup_pending s) (sources s) (next_source s).
Definition set_is_synced (b : bool) (s : state) : state :=
  mk_state (ntp s) (ts_service s) (timeservers_list s) (ts_list s) (ts_current s) (ts_recheck_id s) (ts_backoff_id s) b (resolv s) (resolv_id s) (lookup_pending s) (sources s) (next_source s).
Definition set_resolv (b : bool) (s : state) : state :=
  mk_state (ntp s) (ts_service s) (timeservers_list s) (ts_list s) (ts_current s) (ts_recheck_id s) (ts_backoff_id s) (ts_is_synced s) b (resolv_id s) (lookup_pending s) (sources s) (next_source s).
Definition set_resolv_id (n : Z) (s : state) : state :=
  mk_state (ntp s) (ts_service s) (timeservers_list s) (ts_list s) (ts_current s) (ts_recheck_id s) (ts_backoff_id s) (ts_is_synced s) (resolv s) n (lookup_pending s) (sources s) (next_source s).
Definition set_pending (x : option Z) (s : state) : state :=
  mk_state (ntp s) (ts_service s) (timeservers_list s) (ts_list s) (ts_current s) (ts_recheck_id s) (ts_backoff_id s) (ts_is_synced s) (resolv s) (resolv_id s) x (sources s) (next_source s).
Definition set_sources (m : gmap Z ts_callback) (s : state) : state :=
  mk_state (ntp s) (ts_service s) (timeservers_list s) (ts_list s) (ts_current s) (ts_recheck_id s) (ts_backoff_id s) (ts_is_synced s) (resolv s) (resolv_id s) (lookup_pending s) m (next_source s).
Definition set_next_source (n : Z) (s : state) : state :=
  mk_state (ntp s) (ts_service s) (timeservers_list s) (ts_list s) (ts_current s) (ts_recheck_id s) (ts_backoff_id s) (ts_is_synced s) (resolv s) (resolv_id s) (lookup_pending s) (sources s) n.

(** A call of the NTP client. *)
Definition on_ntp {A} (m : Ntp.M A) : M A := fun s =>
  match m (ntp s) with
  | None => None
  | Some (a, n, o) => Some (a, set_ntp n s, map Ntp_output o)
  end.

Definition source_add (cb : ts_callback) : M Z :=
  id ← pget next_source;
  pmodify (set_next_source (id + 1));;
  pmodify (fun s => set_sources (<[id := cb]> (sources s)) s);;
  mret id.

Definition g_source_remove (id : Z) : M unit :=
  m ← pget sources;
  match m !! id with
  | Some _ => pmodify (fun s => set_sources (delete id (sources s)) s)
  | None => pemit (Source_unknown id)
  end.

Definition set_synced (status : bool) : M unit :=
  b ← pget ts_is_synced;
  if eqb b status then pskip else pmodify (set_is_synced status);; pemit (Synced status).

(** ** Lists of servers *)

Definition add_list (server_list : list text) (timeserver : text) : list text :=
  if existsb (fun existing => bool_decide (existing = timeserver)) server_list then server_list else timeserver :: server_list.

Section timeserver.
Context (e : env).

Definition get_all (service : option Z) : list text :=
  if manual e then []
  else
    let l := fold_left add_list (timeservers_config e service) [] in
    let l := fold_left add_list (timeservers e service) l in
    let l := match gateway e service with Some gw => add_list l gw | None => l end in
    let l := fold_left add_list (global_timeservers e) l in
    let l := fold_left add_list (fallback_timeservers e) l in
    rev l.

(** A lookup is cancelled through the resolver; without one this is a read through a null pointer. *)
Definition ts_set_nameservers : M unit :=
  id ← pget resolv_id;
  (if 0 <? id then
     r ← pget resolv;
     if r : bool then
       p ← pget lookup_pending;
       if bool_decide (p = Some id) then pmodify (set_pending None) else pskip
     else plift None
   else pskip).

(** ** The next server *)

(** [connman_inet_check_ipaddress] is positive. *)
Definition check_ipaddress (x : text) : bool :=
  match Ntp.getaddrinfo (ntp_env e) x with
  | Some _ => true
  | None => false
  end.

Definition start_server (x : text) : M (option bool) := pemit (Ntp_start x);; on_ntp (Ntp.__connman_ntp_start (ntp_env e) x).

Definition resolve_server (x : text) : M unit :=
  pemit (Lookup x);;
  match lookup_hostname e x with
  | inr id => pmodify (set_resolv_id id);; pmodify (set_pending (Some id))
  | inl err => pmodify (set_resolv_id err)
  end.

(** [l] is the working list.  A server that cannot be asked has its callback called at once, which goes on with the rest. *)
Fixpoint sync_loop (l : list text) : M unit :=
  pmodify (set_current None);;
  on_ntp Ntp.__connman_ntp_stop;;
  ts_set_nameservers;;
  match l with
  | [] => id ← source_add timeserver_sync_restart_cb; pmodify (set_backoff id)
  | x :: l =>
      pmodify (set_current (Some x));;
      pmodify (set_ts_list l);;
      if check_ipaddress x then
        r ← start_server x;
        match r with
        | Some false => set_synced false;; sync_loop l
        | Some true => set_synced true;; pemit Time_changed
        | None => pskip
        end
      else resolve_server x
  end.

Definition sync_next : M unit := l ← pget ts_list; sync_loop l.

Definition ntp_callback (success : bool) : M unit :=
  set_synced success;;
  if negb success then sync_next else pemit Time_changed.

(** A handler of the NTP client, and the callback it ends with. *)
Definition with_callback (m : Ntp.M (option bool)) : M unit :=
  r ← on_ntp m;
  match r with
  | Some b => ntp_callback b
  | None => pskip
  end.

(** [success] and the addresses of the results. *)
Definition resolv_result (success : bool) (results : list text) : M unit :=
  (if success then pmodify (fun s => set_ts_list (fold_left add_list (rev results) (ts_list s)) s) else pskip);;
  sync_next.

Definition timeserver_sync_start : M unit :=
  pmodify (fun s => set_ts_list (rev (rev (timeservers_list s) ++ ts_list s)) s);;
  sync_next.

Definition timeserver_sync_restart : M unit :=
  timeserver_sync_start;;
  pmodify (set_backoff 0).

(** ** Reset *)

Definition ts_recheck_disable : M unit :=
  r ← pget ts_recheck_id;
  if r =? 0 then pskip
  else
    g_source_remove r;;
    pmodify (set_recheck 0);;
    b ← pget ts_backoff_id;
    (if b =? 0 then pskip else g_source_remove b;; pmodify (set_backoff 0));;
    pmodify (set_current None).

Definition ts_recheck_enable : M unit :=
  r ← pget ts_recheck_id;
  if 0 <? r then pskip
  else id ← source_add ts_recheck_cb; pmodify (set_recheck id).

Definition ts_reset (service : Z) : M unit :=
  r ← pget resolv;
  if negb r then pskip
  else
    set_synced false;;
    on_ntp Ntp.__connman_ntp_stop;;
    ts_recheck_disable;;
    ts_set_nameservers;;
    pmodify (set_ts_list []);;
    let l := get_all (Some service) in
    pmodify (set_timeservers l);;
    pemit (Servers_changed service l);;
    match l with
    | [] => pskip
    | _ =>
        ts_recheck_enable;;
        pmodify (set_service (Some service));;
        timeserver_sync_start
    end.

Definition __connman_timeserver_sync (service : option Z) (reason : sync_reason) : M unit :=
  match service with
  | None => pskip
  | Some x =>
      t ← pget ts_service;
      match reason with
      | START | STATE_UPDATE => if bool_decide (t = Some x) then pskip else ts_reset x
      | ADDRESS_UPDATE | TS_CHANGE => if bool_decide (t = Some x) then ts_reset x else pskip
      end
  end.

Definition __connman_timeserver_conf_update (service : option Z) : M unit :=
  match service with
  | None => pskip
  | Some x =>
      t ← pget ts_service;
      if bool_decide (t <> None) && negb (bool_decide (t = Some x)) then pskip else ts_reset x
  end.

(** [false] removes the source. *)
Definition ts_recheck : M bool :=
  match get_all (default_service e) with
  | [] => mret true
  | preferred :: _ =>
      c ← pget ts_current;
      if bool_decide (c = Some preferred) then mret true
      else __connman_timeserver_sync (default_service e) TS_CHANGE;; mret false
  end.

(** ** Start and stop *)

Definition ts_setup_resolv (service : Z) : M bool :=
  if service_index e service <? 0 then mret false
  else
    pmodify (set_pending None);;
    pmodify (set_resolv true);;
    mret true.

Definition timeserver_start (service : Z) : M unit :=
  ok ← ts_setup_resolv service;
  if negb ok then pskip
  else
    ts_set_nameservers;;
    __connman_timeserver_sync (Some service) START.

Definition timeserver_stop : M unit :=
  pmodify (set_service None);;
  pmodify (set_pending None);;
  pmodify (set_resolv false);;
  pmodify (set_timeservers []);;
  pmodify (set_ts_list []);;
  on_ntp Ntp.__connman_ntp_stop;;
  ts_recheck_disable.

Definition default_changed (service : option Z) : M unit :=
  match service with
  | Some x => timeserver_start x
  | None => timeserver_stop
  end.

Definition __connman_timeserver_system_set : M unit :=
  match default_service e with
  | Some x => ts_reset x
  | None => pskip
  end.

(** ** The main loop *)

(** A source is removed when its callback is over, unless it asks to be kept. *)
Definition timer (id : Z) : M unit :=
  m ← pget sources;
  match m !! id with
  | None => pskip
  | Some ts_recheck_cb =>
      keep ← ts_recheck;
      if keep : bool then pskip else pmodify (fun s => set_sources (delete id (sources s)) s)
  | Some timeserver_sync_restart_cb =>
      timeserver_sync_restart;;
      pmodify (fun s => set_sources (delete id (sources s)) s)
  end.

Definition drop_ntp_source (id : Z) : M unit := on_ntp (pmodify (fun n => Ntp.set_sources (delete id (Ntp.sources n)) n)).

(** A timer of the NTP client, or a datagram or an error on its socket. *)
Definition ntp_timer (id : Z) : M unit :=
  n ← pget ntp;
  match Ntp.sources n !! id with
  | Some src =>
      match Ntp.s_cb src with
      | Ntp.send_timeout_cb => with_callback (Ntp.send_timeout (ntp_env e) (Ntp.s_nd src));; drop_ntp_source id
      | Ntp.next_poll_cb => with_callback (Ntp.next_poll (ntp_env e) (Ntp.s_nd src));; drop_ntp_source id
      | Ntp.received_data_cb => pskip
      end
  | None => pskip
  end.

Definition ntp_data (id : Z) (error : bool) (buf : list Z) (received : Z) (sender : option (Ntp.family * list Z)) (tv : option Ntp.timeval) : M unit :=
  n ← pget ntp;
  match Ntp.sources n !! id with
  | Some src =>
      match Ntp.s_cb src with
      | Ntp.received_data_cb =>
          with_callback (Ntp.received_data (ntp_env e) (Ntp.s_nd src) error buf received sender tv);;
          if error then drop_ntp_source id else pskip
      | _ => pskip
      end
  | None => pskip
  end.

(** The answer of the resolver to the lookup it is working on. *)
Definition resolved (success : bool) (results : list text) : M unit :=
  p ← pget lookup_pending;
  match p with
  | None => pskip
  | Some _ => pmodify (set_pending None);; resolv_result success results
  end.

End timeserver.

Definition start : state :=
  mk_state (Ntp.mk_state None ∅ 1 1) None [] [] None 0 0 false false 0 None ∅ 1.

End Timeserver.
