(* ===== verification/TimeserverProps.v ===== *)
(** * Time synchronization goes on (src/timeserver.c)

    While there are time servers one of three things happens: a server is asked, and a timer will ask it again; the
    name of a server is looked up; or the list is tried again after a while. *)

From S2P Require Import Prelude Inet Buffer Effects Double Ntp NtpProps Timeserver.
From stdpp Require Import list gmap.
Open Scope Z_scope.

Module TimeserverProps.
Import Timeserver.

(** ** The list of servers *)

(** The first occurrence of every text. *)
Fixpoint firsts (seen l : list text) : list text :=
  match l with
  | [] => []
  | x :: l => if bool_decide (x ∈ seen) then firsts seen l else x :: firsts (x :: seen) l
  end.

Lemma add_list_alt l x : add_list l x = if bool_decide (x ∈ l) then l else x :: l.
Proof.
  unfold add_list. destruct (existsb _ l) eqn:E.
  - apply existsb_exists in E as (y & Hy & <-%bool_decide_eq_true). rewrite bool_decide_eq_true_2; [done|]. by apply list_elem_of_In.
  - rewrite bool_decide_eq_false_2; [done|]. intros Hx%list_elem_of_In. assert (existsb (fun existing => bool_decide (existing = x)) l = true) by
      (apply existsb_exists; exists x; split; [done|by apply bool_decide_eq_true_2]). congruence.
Qed.

Lemma fold_add_list l acc : fold_left add_list l acc = rev (firsts acc l) ++ acc.
Proof.
  revert acc. induction l as [|x l IH]; intros acc; [done|]. cbn [fold_left firsts]. rewrite IH, add_list_alt. case_bool_decide; [done|].
  cbn [rev]. by rewrite <- app_assoc.
Qed.

(** The sources of servers in the order of their priority. *)
Definition all_servers (e : env) (service : option Z) : list text :=
  timeservers_config e service ++ timeservers e service ++ option_list (gateway e service) ++ global_timeservers e ++ fallback_timeservers e.

Lemma firsts_NoDup seen l : NoDup (firsts seen l) /\ forall x, x ∈ firsts seen l <-> x ∈ l /\ x ∉ seen.
Proof.
  revert seen. induction l as [|x l IH]; intros seen.
  { split; [constructor|]. intros x. cbn. set_solver. }
  cbn. case_bool_decide as Hx.
  - destruct (IH seen) as [H1 H2]. split; [done|]. intros y. rewrite H2, elem_of_cons. split; [tauto|]. intros [[->|] ?]; done.
  - destruct (IH (x :: seen)) as [H1 H2]. split; [constructor; [rewrite H2, elem_of_cons; tauto|done]|].
    intros y. rewrite !elem_of_cons, H2, not_elem_of_cons. destruct (decide (y = x)) as [->|]; [by split; auto|tauto].
Qed.

(** C35: The list of time servers has every server of the service's configuration, of DHCP, the gateway, the global and the
    fallback servers once, in the order in which they are first named; it is empty if time updates are manual.  The fallback servers
    are in the list whether or not there are others, and whether or not gateways are used, unlike the manual of the configuration
    file says. *)
Theorem timeservers_in_order e service : get_all e service = (if manual e then [] else firsts [] (all_servers e service)) /\
  NoDup (get_all e service) /\ (manual e = false -> forall x, x ∈ get_all e service <-> x ∈ all_servers e service).
Proof.
  assert (E : get_all e service = if manual e then [] else firsts [] (all_servers e service)).
  { unfold get_all, all_servers. destruct (manual e); [done|].
    replace (match gateway e service with Some gw => _ | None => _ end)
      with (fold_left add_list (option_list (gateway e service)) (fold_left add_list (timeservers e service) (fold_left add_list (timeservers_config e service) [])))
      by by destruct (gateway e service).
    by rewrite <- !fold_left_app, fold_add_list, app_nil_r, rev_involutive. }
  split; [done|]. rewrite E. destruct (manual e); [split; [constructor|done]|]. destruct (firsts_NoDup [] (all_servers e service)) as [H1 H2].
  split; [done|]. intros _ x. rewrite H2. set_solver.
Qed.

(** ** What is going on *)

(** The sources of the main loop: the timer for another try is noted, and it is the only one. *)
Record sources_ok (s : state) : Prop := {
  so_restart id : sources s !! id = Some timeserver_sync_restart_cb -> ts_backoff_id s = id;
  so_backoff : ts_backoff_id s <> 0 -> sources s !! ts_backoff_id s = Some timeserver_sync_restart_cb;
  so_ids id : is_Some (sources s !! id) -> 0 < id < next_source s;
  so_next : 0 < next_source s;
}.

(** A lookup the resolver works on is the one that is noted. *)
Definition lookup_ok (s : state) : Prop := forall p, lookup_pending s = Some p -> resolv_id s = p /\ 0 < p.

Definition asking (s : state) : Prop := exists d, Ntp.ntp (ntp s) = Some d /\ NtpProps.timed d /\ lookup_pending s = None /\ ts_backoff_id s = 0.
Definition resolving (s : state) : Prop := Ntp.ntp (ntp s) = None /\ lookup_pending s <> None /\ ts_backoff_id s = 0.
Definition waiting (s : state) : Prop := Ntp.ntp (ntp s) = None /\ lookup_pending s = None /\ ts_backoff_id s <> 0.
Definition idle (s : state) : Prop := Ntp.ntp (ntp s) = None /\ lookup_pending s = None /\ ts_backoff_id s = 0.

Definition busy (s : state) : Prop := asking s \/ resolving s \/ waiting s.

(** [xs]: a source of the NTP client that is being dispatched. *)
Record tbase (xs : option Z) (s : state) : Prop := {
  tb_ntp : NtpProps.ninv xs (ntp s);
  tb_sources : sources_ok s;
  tb_lookup : lookup_ok s;
  tb_servers : timeservers_list s <> [] -> resolv s = true /\ 0 < ts_recheck_id s;
  tb_quiet : timeservers_list s = [] -> ts_backoff_id s = 0;
}.

Record tinv (xs : option Z) (s : state) : Prop := {
  ti_base : tbase xs s;
  ti_busy : timeservers_list s <> [] -> busy s;
  ti_idle : timeservers_list s = [] -> idle s;
}.

(** What the code relies on: sockets have a number that is not 0, and the resolver accepts names. *)
Record env_ok (e : env) : Prop := {
  eo_socket f : Ntp.open_socket (ntp_env e) f <> Some 0;
  eo_lookup x : exists id, lookup_hostname e x = inr id /\ 0 < id;
}.

Lemma on_ntp_run {A} (m : Ntp.M A) s (R : A -> Ntp.state -> Prop) (Q : A -> state -> list output -> Prop) :
  returns m (ntp s) (fun a n _ => R a n) -> (forall a n o, R a n -> Q a (set_ntp n s) o) -> returns (on_ntp m) s Q.
Proof. intros (a & n & o & E & HR) HQ. exists a, (set_ntp n s), (map Ntp_output o). unfold on_ntp. rewrite E. auto. Qed.

Lemma on_ntp_bind {A B} (m : Ntp.M A) (k : A -> M B) s (R : A -> Ntp.state -> list Ntp.output -> Prop) (Q : B -> state -> Prop) : returns m (ntp s) R ->
  (forall a n o, R a n o -> returns (k a) (set_ntp n s) (fun b s' _ => Q b s')) -> returns (on_ntp m ≫= k) s (fun b s' _ => Q b s').
Proof.
  intros (a & n & o & E & HR) Hk. destruct (Hk a n o HR) as (b & s' & o' & E' & HQ). exists b, s', (map Ntp_output o ++ o').
  split; [|done]. apply (bind_run _ _ _ a (set_ntp n s)); [|done]. unfold on_ntp. by rewrite E.
Qed.

Lemma stop_ts xs s : NtpProps.ninv xs (ntp s) -> on_ntp Ntp.__connman_ntp_stop s = Some (tt, set_ntp (NtpProps.stop_state (ntp s)) s, []).
Proof. intros Hi. unfold on_ntp. by rewrite (NtpProps.stop_nd xs). Qed.

Lemma nameservers_run s : resolv s = true -> lookup_ok s -> ts_set_nameservers s = Some (tt, set_pending None s, []).
Proof.
  intros Hr Hl. unfold ts_set_nameservers. eapply bind_next; [done|]. unfold lookup_ok in Hl.
  destruct (Z.ltb_spec 0 (resolv_id s)) as [Hp|Hp].
  - eapply bind_next; [done|]. rewrite Hr. eapply bind_next; [done|]. case_bool_decide as E; [done|].
    destruct (lookup_pending s) as [p|] eqn:El; [|by destruct s; cbn in *; subst]. destruct (Hl p eq_refl). congruence.
  - destruct (lookup_pending s) as [p|] eqn:El; [destruct (Hl p eq_refl); lia|]. by destruct s; cbn in *; subst.
Qed.

Lemma synced_run b s : exists b' o, set_synced b s = Some (tt, set_is_synced b' s, o).
Proof.
  unfold set_synced. destruct (eqb (ts_is_synced s) b) eqn:E.
  - exists (ts_is_synced s), []. eapply bind_next; [done|]. rewrite E. by destruct s.
  - exists b, [Synced b]. eapply bind_next; [done|]. by rewrite E.
Qed.

(** ** The next server *)

(** What [sync_loop] leaves: [xs] is the source of the NTP client that is being dispatched. *)
Record synced (e : env) (xs : option Z) (l : list text) (s s' : state) : Prop := {
  sy_ntp : NtpProps.ninv xs (ntp s');
  sy_fresh d cb : Ntp.ntp (ntp s') = Some d -> NtpProps.field_of cb d = 0 \/ Ntp.next_source (ntp s) <= NtpProps.field_of cb d;
  sy_same : ts_service s' = ts_service s /\ timeservers_list s' = timeservers_list s /\ ts_recheck_id s' = ts_recheck_id s /\ resolv s' = resolv s;
  sy_lookup : lookup_ok s';
  sy_goes_on : (((exists d, Ntp.ntp (ntp s') = Some d /\ NtpProps.timed d /\ lookup_pending s' = None) \/
                 (Ntp.ntp (ntp s') = None /\ lookup_pending s' <> None)) /\
                ts_backoff_id s' = ts_backoff_id s /\ sources s' = sources s /\ next_source s' = next_source s) \/
               (Ntp.ntp (ntp s') = None /\ lookup_pending s' = None /\ ts_backoff_id s' = next_source s /\ next_source s' = next_source s + 1 /\
                sources s' = <[next_source s := timeserver_sync_restart_cb]> (sources s) /\
                (l = [] \/ ~ NtpProps.works (ntp_env e)));
}.

Section sync.
Context (e : env) (He : env_ok e).

Lemma start_server_run xs s x : NtpProps.ninv xs (ntp s) -> Ntp.ntp (ntp s) = None -> Ntp.getaddrinfo (ntp_env e) x <> None ->
  returns (start_server e x) s (fun r s' _ => exists n d, s' = set_ntp n s /\ NtpProps.ninv xs n /\ Ntp.ntp n = Some d /\
    Ntp.next_source (ntp s) <= Ntp.next_source n /\ (forall cb, NtpProps.field_of cb d = 0 \/ Ntp.next_source (ntp s) <= NtpProps.field_of cb d) /\
    r <> Some true /\ (r = None -> NtpProps.timed d) /\ (NtpProps.works (ntp_env e) -> r = None)).
Proof.
  intros Hi Hn Ha. unfold start_server. apply returns_emit.
  eapply on_ntp_run; [by apply (NtpProps.ntp_start_run (ntp_env e) xs (ntp s) x Hi Hn Ha), (eo_socket _ He)|].
  intros r n _ (d & H). exists n, d. split; [done|exact H].
Qed.

Lemma sync_loop_run xs l s : NtpProps.ninv xs (ntp s) -> resolv s = true -> lookup_ok s ->
  returns (sync_loop e l) s (fun _ s' _ => synced e xs l s s').
Proof.
  revert s. induction l as [|x l IH]; intros s Hi Hr Hl; cbn [sync_loop].
  all: eapply returns_step; [done|]; eapply returns_step; [by apply (stop_ts xs)|]; eapply returns_step; [by apply nameservers_run|].
  all: destruct (NtpProps.stop_inv xs (ntp s) Hi) as (Hi' & Hn & Hnx); cbn [set_current ntp].
  { eapply returns_step; [done|]. eexists _, _, _. split; [done|]. split; cbn [set_backoff set_sources set_next_source set_pending set_ntp set_current ntp ts_service
      timeservers_list ts_recheck_id resolv lookup_pending ts_backoff_id sources next_source]; try done.
    - intros d cb E. congruence.
    - right. do 5 (split; [done|]). by left. }
  eapply returns_step; [done|]. eapply returns_step; [done|]. unfold check_ipaddress.
  set (s1 := set_ts_list l _). assert (Hi1 : NtpProps.ninv xs (ntp s1) /\ Ntp.ntp (ntp s1) = None) by done. destruct Hi1 as [Hi1 Hn1].
  destruct (Ntp.getaddrinfo (ntp_env e) x) as [ga|] eqn:Ea.
  - eapply returns_bind; [apply (start_server_run xs s1 x Hi1 Hn1); congruence|].
    intros r s2 _ (n & d & -> & Hi2 & Hd & Hle & Hf & Hr2 & Ht & Hw). destruct r as [[]|]; [done| |].
    + destruct (synced_run false (set_ntp n s1)) as (b & o & Es). eapply returns_run; [exact Es|].
      eapply returns_conseq; [by apply IH|]. intros _ s' _ []. split; try done.
      * intros d0 cb E0. destruct (sy_fresh0 d0 cb E0) as [|Hge]; [by left|right]. cbn in Hge, Hle. lia.
      * destruct sy_goes_on0 as [|(? & ? & ? & ? & ? & _)]; [by left|right]. do 5 (split; [done|]). right. intros W. discriminate (Hw W).
    + apply returns_skip. split; try done.
      * intros d0 cb E0. rewrite <- Hnx. cbn in E0. rewrite Hd in E0. injection E0 as <-. apply Hf.
      * left. split; [|done]. left. exists d. by auto.
  - unfold resolve_server. apply returns_emit. destruct (eo_lookup _ He x) as (id & -> & Hid).
    eexists _, _, _. split; [done|]. split; try done.
    + intros d0 cb E0. cbn in E0. congruence.
    + by intros p [= <-].
    + left. split; [|done]. by right.
Qed.

Lemma synced_tinv xs l s s' : tbase xs s -> ts_backoff_id s = 0 -> timeservers_list s <> [] -> synced e xs l s s' -> tinv xs s'.
Proof.
  intros Hb H0 Hne [Hi _ (Es & Et & Ec & Er) Hl Hg]. pose proof (tb_sources _ _ Hb) as Hs. pose proof (so_next _ Hs) as Hpos.
  assert (Hso : sources_ok s').
  { destruct Hg as [(_ & Eb & E1 & E2)|(_ & _ & Eb & E2 & E1 & _)].
    - split; rewrite ?Eb, ?E1, ?E2; [apply (so_restart _ Hs)|apply (so_backoff _ Hs)|apply (so_ids _ Hs)|done].
    - split; rewrite ?Eb, ?E1, ?E2.
      + intros id [[-> _]|[_ Hid]]%lookup_insert_Some; [done|]. pose proof (so_restart _ Hs id Hid). subst id.
        pose proof (so_ids _ Hs _ (mk_is_Some _ _ Hid)). lia.
      + intros _. apply lookup_insert_eq.
      + intros id [<-|Hid]%lookup_insert_is_Some'; [lia|]. apply (so_ids _ Hs) in Hid. lia.
      + lia. }
  split; [split; [done|done|done|by rewrite Et, Ec, Er; apply (tb_servers _ _ Hb)|congruence]| |congruence].
  intros _. destruct Hg as [([(d & Hd & Ht & Hp)|[Hd Hp]] & Eb & _)|(Hd & Hp & Eb & _)].
  - left. exists d. by rewrite Eb.
  - right. left. unfold resolving; by rewrite Eb.
  - right. right. split; [done|]. split; [done|lia].
Qed.

Lemma tbase_ntp xs xs' n s : tbase xs s -> NtpProps.ninv xs' n -> tbase xs' (set_ntp n s).
Proof. intros [_ [] ? ? ?] Hn. split; auto. by split. Qed.

Lemma tbase_synced xs b s : tbase xs s -> tbase xs (set_is_synced b s).
Proof. intros [? [] ? ? ?]. split; auto. by split. Qed.

Definition fresh_from (k : Z) (s : state) : Prop :=
  forall d cb, Ntp.ntp (ntp s) = Some d -> NtpProps.field_of cb d = 0 \/ k <= NtpProps.field_of cb d.

(** A server did not work. *)
Lemma failed_run xs s : tbase xs s -> ts_backoff_id s = 0 -> timeservers_list s <> [] ->
  returns (ntp_callback e false) s (fun _ s' _ => tinv xs s' /\ fresh_from (Ntp.next_source (ntp s)) s').
Proof.
  intros Hb H0 Hne. unfold ntp_callback. destruct (synced_run false s) as (b & o & Es). eapply returns_run; [exact Es|].
  unfold sync_next. cbn [negb]. eapply returns_step; [done|].
  eapply returns_conseq; [apply (sync_loop_run xs); [apply (tb_ntp _ _ Hb)|apply (tb_servers _ _ Hb Hne)|apply (tb_lookup _ _ Hb)]|].
  intros u s' o' Hsy. split; [|exact (sy_fresh _ _ _ _ _ Hsy)]. eapply (synced_tinv xs _ (set_is_synced b s)); [by apply tbase_synced|done..|exact Hsy].
Qed.

Lemma tinv_synced xs b s : tinv xs s -> tinv xs (set_is_synced b s).
Proof. intros [Hb H1 H2]. split; [by apply tbase_synced|exact H1|exact H2]. Qed.

(** The source is noted nowhere and may go. *)
Definition over (id : Z) (s : state) : Prop :=
  tinv (Some id) s /\ forall d cb, Ntp.ntp (ntp s) = Some d -> NtpProps.field_of cb d <> id.

Lemma ntp_drop_run id s : over id s ->
  returns (drop_ntp_source id) s (fun _ s' _ => tinv None s').
Proof.
  intros [[Hb Hbusy Hidle] Hf]. eexists _, _, _. split; [done|]. split; [|exact Hbusy|exact Hidle].
  apply (tbase_ntp (Some id)); [done|]. apply NtpProps.drop_inv; [apply (tb_ntp _ _ Hb)|done].
Qed.

(** The server a source belongs to. *)
Lemma source_server s id src : tinv None s -> Ntp.sources (ntp s) !! id = Some src ->
  exists d, Ntp.ntp (ntp s) = Some d /\ NtpProps.timed d /\ Ntp.s_nd src = Ntp.nd_ptr d /\ NtpProps.field_of (Ntp.s_cb src) d = id /\
    timeservers_list s <> [] /\ lookup_pending s = None /\ ts_backoff_id s = 0 /\ 0 < id < Ntp.next_source (ntp s).
Proof.
  intros Ht Hs. pose proof (ti_base _ _ Ht) as Hb. pose proof (tb_ntp _ _ Hb) as Hi. pose proof (NtpProps.n_ids _ _ Hi id (mk_is_Some _ _ Hs)) as Hid.
  destruct (Ntp.ntp (ntp s)) as [d|] eqn:Ed; [|by pose proof (NtpProps.n_none _ _ Hi id Ed (mk_is_Some _ _ Hs))].
  destruct (NtpProps.n_owner _ _ Hi d id src Ed Hs) as [|[E1 E2]]; [done|]. exists d.
  assert (Hne : timeservers_list s <> []) by (intros E; destruct (ti_idle _ _ Ht E); congruence).
  destruct (ti_busy _ _ Ht Hne) as [(d' & Ed' & Htd & Hp & H0)|[[Hn _]|[Hn _]]]; [|congruence..].
  assert (d' = d) as -> by congruence. done.
Qed.

(** The state with another state of the server. *)
Lemma tinv_ntp xs xs' n d s : tinv xs s -> timeservers_list s <> [] -> lookup_pending s = None -> ts_backoff_id s = 0 -> NtpProps.ninv xs' n ->
  Ntp.ntp n = Some d -> NtpProps.timed d -> tinv xs' (set_ntp n s).
Proof.
  intros [Hb _ _] Hne Hp H0 Hi Hd Ht. split; [by apply (tbase_ntp xs)| |done]. intros _. left. by exists d.
Qed.

(** ** The handlers of the NTP client *)

(** A timer that sends a request: the request was sent and its timer started, or the server is given up. *)
Lemma sending_run id s (m : Ntp.M (option bool)) d : tinv None s -> Ntp.ntp (ntp s) = Some d -> NtpProps.timed d -> timeservers_list s <> [] ->
  lookup_pending s = None -> ts_backoff_id s = 0 -> 0 < id < Ntp.next_source (ntp s) ->
  returns m (ntp s) (fun r n' _ => exists d', NtpProps.step (Some id) (ntp s) d r n' d' /\ r <> Some true /\
    (r = None -> NtpProps.timed d' /\ forall cb, NtpProps.field_of cb d' <> id)) ->
  returns (with_callback e m ;; drop_ntp_source id) s (fun _ s' _ => tinv None s').
Proof.
  intros Ht Hd Htd Hne Hp H0 Hid Hm. pose proof (ti_base _ _ Ht) as Hb.
  eapply (returns_bind _ _ _ (fun _ s' _ => over id s')); [|by intros ? s' ?; apply ntp_drop_run].
  unfold with_callback. eapply (on_ntp_bind _ _ _ _ (fun _ s' => over id s')); [exact Hm|].
  cbn beta. intros r n' ? (d' & Hst & Hr & Hnone). pose proof (NtpProps.st_next _ _ _ _ _ _ Hst) as Hnx. destruct r as [[]|]; [done| |].
  - eapply returns_conseq; [apply (failed_run (Some id)); [by apply (tbase_ntp None), Hst|done|done]|].
    intros ? s2 ? [H1 H2]. split; [done|]. intros d2 cb Hd2. pose proof (NtpProps.n_next _ _ (tb_ntp _ _ Hb)).
    pose proof (H2 d2 cb Hd2) as H3. cbn [set_ntp ntp] in H3. lia.
  - apply returns_skip. destruct (Hnone eq_refl) as [Htd' Hf]. split; [by apply (tinv_ntp None _ _ d'); try apply Hst|].
    intros d2 cb Hd2. pose proof (NtpProps.st_ntp _ _ _ _ _ _ Hst). cbn in Hd2. assert (d2 = d') as -> by congruence. apply Hf.
Qed.

Lemma ntp_timer_run id s : tinv None s -> returns (ntp_timer e id) s (fun _ s' _ => tinv None s').
Proof.
  intros Ht. unfold ntp_timer. eapply returns_step; [done|]. destruct (Ntp.sources (ntp s) !! id) as [src|] eqn:Es; [|by apply returns_skip].
  destruct (source_server s id src Ht Es) as (d & Hd & Htd & -> & Ef & Hne & Hp & H0 & Hid).
  pose proof (tb_ntp _ _ (ti_base _ _ Ht)) as Hi. pose proof (NtpProps.dispatch_inv id _ Hi) as Hi'.
  destruct (Ntp.s_cb src) eqn:Ec; cbn in Ef; subst id; [| |by apply returns_skip]; apply (sending_run _ s _ d); try done.
  - eapply returns_conseq; [by apply NtpProps.send_timeout_run|]. intros r n' _ (d' & Hst & Hge & Hr & Epo). exists d'.
    split; [done|]. split; [done|]. intros E. specialize (Hge E). destruct Htd as [Ha Hx].
    split; [split; [by apply (NtpProps.st_askable _ _ _ _ _ _ Hst)|rewrite Epo; lia]|]. intros []; cbn; [lia|lia|].
    destruct (NtpProps.st_watch _ _ _ _ _ _ Hst) as [-> | ->]; [|lia].
    pose proof (NtpProps.fields_apart _ _ d Ntp.send_timeout_cb Ntp.received_data_cb Hi Hd) as Hf. cbn in Hf. intros E'. apply Hf; [done|lia|done].
  - destruct Htd as [Ha Hx]. eapply returns_conseq; [by apply NtpProps.next_poll_run; [done|done|lia|]|].
    intros r n' _ (d' & Hst & Hge & Hr & Epo). exists d'. split; [done|]. split; [done|]. intros E. specialize (Hge E).
    split; [split; [by apply (NtpProps.st_askable _ _ _ _ _ _ Hst)|lia]|]. intros []; cbn; [lia|lia|].
    destruct (NtpProps.st_watch _ _ _ _ _ _ Hst) as [-> | ->]; [|lia].
    pose proof (NtpProps.fields_apart _ _ d Ntp.next_poll_cb Ntp.received_data_cb Hi Hd) as Hf. cbn in Hf. intros E'. apply Hf; [done|lia|done].
Qed.

Lemma ntp_data_run id error buf received sender tv s : tinv None s -> Ntp.transmit_delay (Ntp.msg_poll buf) <> None ->
  returns (ntp_data e id error buf received sender tv) s (fun _ s' _ => tinv None s').
Proof.
  intros Ht Hdel. unfold ntp_data. eapply returns_step; [done|]. destruct (Ntp.sources (ntp s) !! id) as [src|] eqn:Es; [|by apply returns_skip].
  destruct (source_server s id src Ht Es) as (d & Hd & Htd & -> & Ef & Hne & Hp & H0 & Hid).
  pose proof (tb_ntp _ _ (ti_base _ _ Ht)) as Hi. destruct (Ntp.s_cb src); [by apply returns_skip..|]. cbn in Ef. subst id. destruct error.
  - destruct (NtpProps.received_error (ntp_env e) (ntp s) d buf received sender tv Hi Hd) as [E Hi'].
    apply (returns_bind _ _ _ (fun _ s' _ => over (Ntp.channel_watch d) s')); [|by intros ? s' ?; apply ntp_drop_run].
    unfold with_callback. eapply (on_ntp_bind _ _ _ (fun r n' _ => r = None /\ n' = _)); [by eexists _, _, _; split; [exact E|]|].
    intros r n' _ [-> ->]. apply returns_skip. split.
    + by eapply (tinv_ntp None).
    + intros d2 cb [= <-]. destruct cb; cbn; [| |lia]; intros E2.
      * by apply (NtpProps.fields_apart _ _ d Ntp.received_data_cb Ntp.send_timeout_cb Hi Hd); [|cbn; lia|].
      * by apply (NtpProps.fields_apart _ _ d Ntp.received_data_cb Ntp.next_poll_cb Hi Hd); [|cbn; lia|].
  - apply (returns_bind _ _ _ (fun _ s' _ => tinv None s')); [|by intros ? s' ? ?; apply returns_skip].
    unfold with_callback. eapply (on_ntp_bind _ _ _ _ (fun _ s' => tinv None s')); [by apply NtpProps.received_run|].
    cbn beta. intros r n' _ (d' & Hst & Hnone & Htrue). destruct r as [[]|].
    + destruct (Htrue eq_refl) as [H1 H2]. unfold ntp_callback. destruct (synced_run true (set_ntp n' s)) as (b & o & Esy).
      eapply returns_run; [exact Esy|]. eexists _, _, _. split; [done|].
      apply tinv_synced, (tinv_ntp None _ _ d'); try done; [apply Hst..|]. split; [apply (NtpProps.st_askable _ _ _ _ _ _ Hst), Htd|tauto].
    + eapply returns_conseq; [apply (failed_run None); [by apply (tbase_ntp None); try apply Hst; apply Ht|done|done]|]. by intros ? s2 ? [? _].
    + destruct (Hnone eq_refl) as [-> ->]. apply returns_skip. by apply (tinv_ntp None _ _ d).
Qed.

(** The answer to a lookup. *)
Lemma resolved_run success results s : tinv None s -> returns (resolved e success results) s (fun _ s' _ => tinv None s').
Proof.
  intros Ht. pose proof (ti_base _ _ Ht) as Hb. unfold resolved. eapply returns_step; [done|]. destruct (lookup_pending s) as [p|] eqn:Ep; [|by apply returns_skip].
  assert (Hne : timeservers_list s <> []) by (intros E; destruct (ti_idle _ _ Ht E) as (_ & ? & _); congruence).
  assert (H0 : ts_backoff_id s = 0).
  { destruct (ti_busy _ _ Ht Hne) as [(? & ? & ? & ? & ?)|[(? & ? & ?)|(? & ? & ?)]]; congruence. }
  eapply returns_step; [done|]. unfold resolv_result.
  set (s1 := if success then set_ts_list (fold_left add_list (rev results) (ts_list s)) (set_pending None s) else set_pending None s).
  eapply (returns_step _ _ _ tt s1); [by destruct success|].
  assert (Hb1 : tbase None s1 /\ ts_backoff_id s1 = 0 /\ timeservers_list s1 <> []).
  { destruct Hb as [? [] ? ? ?]. unfold s1. destruct success; (split; [|done]); (split; [done|by split|by intros ? [=]|done|done]). }
  destruct Hb1 as (Hb1 & H01 & Hne1). eapply returns_step; [done|].
  eapply returns_conseq; [apply (sync_loop_run None); [apply (tb_ntp _ _ Hb1)|apply (tb_servers _ _ Hb1 Hne1)|apply (tb_lookup _ _ Hb1)]|].
  intros ? s' ? Hsy. by apply (synced_tinv None (ts_list s1) s1).
Qed.

(** ** A new list *)

Lemma ts_remove_run id s : exists o, g_source_remove id s = Some (tt, set_sources (delete id (sources s)) s, o).
Proof.
  unfold g_source_remove. destruct (sources s !! id) eqn:E.
  - exists []. eapply bind_next; [done|]. by rewrite E.
  - exists [Source_unknown id]. eapply bind_next; [done|]. rewrite E. rewrite delete_id by done. by destruct s.
Qed.

(** Both timers are gone. *)
Definition calm (m : gmap Z ts_callback) (c : option text) (s : state) : state := set_current c (set_backoff 0 (set_recheck 0 (set_sources m s))).

Lemma recheck_disable_run s : sources_ok s -> (ts_recheck_id s = 0 -> ts_backoff_id s = 0) ->
  returns ts_recheck_disable s (fun _ s' _ => exists m c, s' = calm m c s /\ sources_ok s').
Proof.
  intros Hs Hz. unfold ts_recheck_disable. eapply returns_step; [done|]. destruct (Z.eqb_spec (ts_recheck_id s) 0) as [E|E].
  { apply returns_skip. specialize (Hz E). exists (sources s), (ts_current s). destruct s; cbn in *; by subst. }
  destruct (ts_remove_run (ts_recheck_id s) s) as (o1 & E1). eapply returns_run; [exact E1|]. eapply returns_step; [done|]. eapply returns_step; [done|].
  cbn [set_recheck set_sources ts_backoff_id]. set (s1 := set_recheck 0 _).
  set (m := delete (ts_backoff_id s) (sources s1)).
  assert (Hm : sources_ok (calm m None s)).
  { split; cbn [calm set_current set_backoff set_recheck set_sources sources ts_backoff_id next_source]; [|done| |apply (so_next _ Hs)].
    - intros id [Hne Hid]%lookup_delete_Some. cbn in Hid. apply lookup_delete_Some in Hid as [_ Hid]. destruct Hne. by apply (so_restart _ Hs).
    - intros id [_ Hid]%lookup_delete_is_Some. cbn in Hid. apply lookup_delete_is_Some in Hid as [_ Hid]. by apply (so_ids _ Hs). }
  destruct (Z.eqb_spec (ts_backoff_id s) 0) as [E0|E0].
  - eapply returns_step; [done|]. eexists _, _, _. split; [done|]. exists m, None.
    assert (Eq : set_current None s1 = calm m None s); [|by rewrite Eq]. unfold m.
    rewrite E0, delete_id; [unfold s1; destruct s; cbn in *; by subst|]. apply eq_None_not_Some. cbn. intros [_ Hid]%lookup_delete_is_Some.
    apply (so_ids _ Hs) in Hid. lia.
  - destruct (ts_remove_run (ts_backoff_id s) s1) as (o2 & E2). eapply returns_run; [eapply bind_run; [exact E2|done]|].
    eexists _, _, _. split; [done|]. by exists m, None.
Qed.

Lemma sync_start_run s : tbase None s -> ts_backoff_id s = 0 -> timeservers_list s <> [] ->
  returns (timeserver_sync_start e) s (fun _ s' _ => tinv None s' /\ (ts_backoff_id s' = 0 \/ next_source s <= ts_backoff_id s')).
Proof.
  intros Hb H0 Hne. unfold timeserver_sync_start. eapply returns_step; [done|]. eapply returns_step; [done|]. set (s1 := set_ts_list _ s).
  assert (Hb1 : tbase None s1) by (destruct Hb as [? [] ? ? ?]; split; auto; by split).
  eapply returns_conseq; [apply (sync_loop_run None); [apply (tb_ntp _ _ Hb1)|apply (tb_servers _ _ Hb1 Hne)|apply (tb_lookup _ _ Hb1)]|].
  intros ? s' ? Hsy. split; [by apply (synced_tinv None (ts_list s1) s1)|].
  destruct (sy_goes_on _ _ _ _ _ Hsy) as [(_ & Eb & _)|(_ & _ & Eb & _)]; rewrite Eb; cbn; [by left|right; lia].
Qed.

Lemma enable_run s : sources_ok s -> ts_recheck_id s = 0 -> exists s', ts_recheck_enable s = Some (tt, s', []) /\ sources_ok s' /\
  (ts_backoff_id s' = ts_backoff_id s /\ resolv s' = resolv s /\ ntp s' = ntp s /\ lookup_pending s' = lookup_pending s /\
   resolv_id s' = resolv_id s /\ timeservers_list s' = timeservers_list s /\ ts_service s' = ts_service s) /\
  0 < ts_recheck_id s' /\ next_source s <= next_source s'.
Proof.
  intros Hs E. pose proof (so_next _ Hs).
  exists (set_recheck (next_source s) (set_sources (<[next_source s := ts_recheck_cb]> (sources s)) (set_next_source (next_source s + 1) s))).
  split; [|split; [|split; [done|]]].
  - unfold ts_recheck_enable. eapply bind_next; [done|]. by rewrite E.
  - split; cbn.
    + intros id [[_ ?]|[_ Hid]]%lookup_insert_Some; [done|]. by apply (so_restart _ Hs).
    + intros Hne. pose proof (so_backoff _ Hs Hne) as Hid. pose proof (so_ids _ Hs _ (mk_is_Some _ _ Hid)). rewrite lookup_insert_ne by lia. done.
    + intros id [<-|Hid]%lookup_insert_is_Some'; [lia|]. apply (so_ids _ Hs) in Hid. lia.
    + lia.
  - cbn. lia.
Qed.

Lemma ts_reset_run x s : tbase None s -> resolv s = true ->
  returns (ts_reset e x) s (fun _ s' _ => tinv None s' /\ (ts_backoff_id s' = 0 \/ next_source s <= ts_backoff_id s')).
Proof.
  intros Hb Hr. unfold ts_reset. eapply returns_step; [done|]. rewrite Hr. cbn [negb].
  destruct (synced_run false s) as (b & o & Es). eapply returns_run; [exact Es|].
  eapply returns_step; [by apply (stop_ts None), Hb|]. set (s1 := set_ntp _ _).
  destruct (NtpProps.stop_inv None (ntp s) (tb_ntp _ _ Hb)) as (Hi1 & Hn1 & _).
  eapply returns_bind; [apply recheck_disable_run|].
  { destruct (tb_sources _ _ Hb). by split. }
  { cbn. intros E. destruct (timeservers_list s) eqn:El; [by apply (tb_quiet _ _ Hb)|]. destruct (tb_servers _ _ Hb); [congruence|lia]. }
  cbn beta. intros ? s2 ? (m & c & -> & Hs2). eapply returns_step; [apply nameservers_run; [done|]|].
  { exact (tb_lookup _ _ Hb). }
  eapply returns_step; [done|]. eapply returns_step; [done|]. apply returns_emit. set (l := get_all e (Some x)). set (s3 := set_timeservers l _).
  assert (Hs3 : sources_ok s3) by (destruct Hs2; by split). destruct l as [|y l'] eqn:El.
  - apply returns_skip. split; [|by left]. split; [|done|done]. split; try done.
  - destruct (enable_run s3 Hs3 eq_refl) as (s4 & E4 & Hs4 & (Eb & Er & En & Ep & Ei & El4 & Ev) & Hrec & Hnx).
    eapply returns_step; [exact E4|]. eapply returns_step; [done|].
    eapply returns_conseq; [apply sync_start_run|].
    + destruct Hs4. split; cbn [set_service ntp timeservers_list resolv ts_recheck_id]; [by rewrite En|by split| |by rewrite Er|by rewrite El4].
      intros p. cbn [set_service lookup_pending]. by rewrite Ep.
    + cbn. by rewrite Eb.
    + cbn. by rewrite El4.
    + intros ? s' ? [H1 H2]. split; [done|]. cbn in H2, Hnx. lia.
Qed.

Lemma timer_dropped_inv id s : tinv None s -> ts_backoff_id s <> id -> tinv None (set_sources (delete id (sources s)) s).
Proof.
  intros [[Hi Hs Hl Hsv Hq] H1 H2] Hne. split; [|exact H1|exact H2]. split; try done. split; cbn; [| | |apply (so_next _ Hs)].
  - intros i [_ Hid]%lookup_delete_Some. by apply (so_restart _ Hs).
  - intros Hz. rewrite lookup_delete_ne by done. by apply (so_backoff _ Hs).
  - intros i [_ Hid]%lookup_delete_is_Some. by apply (so_ids _ Hs).
Qed.

(** The list is tried again, and there is a server that can be asked. *)
Lemma restart_run id s : tinv None s -> NtpProps.works (ntp_env e) -> sources s !! id = Some timeserver_sync_restart_cb ->
  returns (timeserver_sync_restart e) s (fun _ s' _ => tinv None (set_sources (delete id (sources s')) s')).
Proof.
  intros Ht Hw Hid. pose proof (ti_base _ _ Ht) as Hb. pose proof (tb_sources _ _ Hb) as Hs. pose proof (so_restart _ Hs id Hid) as Eid.
  pose proof (so_ids _ Hs id (mk_is_Some _ _ Hid)) as Hpos.
  assert (Hne : timeservers_list s <> []) by (intros E; pose proof (tb_quiet _ _ Hb E); lia).
  unfold timeserver_sync_restart, timeserver_sync_start. eapply returns_bind.
  { eapply returns_step; [done|]. eapply returns_step; [done|]. apply (sync_loop_run None); [apply (tb_ntp _ _ Hb)|apply (tb_servers _ _ Hb Hne)|apply (tb_lookup _ _ Hb)]. }
  cbn beta. intros ? s' ? [Hi _ (Es & Et & Ec & Er) Hl Hg]. eexists _, _, _. split; [done|].
  destruct Hg as [(Hbusy & Eb & E1 & E2)|(_ & _ & _ & _ & _ & [El|Hnw])]; [| |done].
  2: { exfalso. cbn in El. rewrite rev_app_distr, rev_involutive in El. by apply app_eq_nil in El as [_ El]. }
  cbn in Et, Ec, Er, Eb, E1, E2. split; cbn; [| |congruence].
  - split; cbn; [done| |done|by rewrite Et, Ec, Er; apply (tb_servers _ _ Hb)|done]. split; cbn; rewrite ?E1, ?E2; [|by intros []| |apply (so_next _ Hs)].
    + intros i [Hi' Hs']%lookup_delete_Some. pose proof (so_restart _ Hs i Hs'). congruence.
    + intros i [_ Hi']%lookup_delete_is_Some. by apply (so_ids _ Hs).
  - intros _. destruct Hbusy as [(d & Hd & Htd & Hp)|[Hd Hp]]; [left; by exists d|right; by left].
Qed.

Lemma sync_run service reason s : tinv None s ->
  returns (__connman_timeserver_sync e service reason) s (fun _ s' _ => tinv None s' /\
    (ts_backoff_id s' = ts_backoff_id s \/ ts_backoff_id s' = 0 \/ next_source s <= ts_backoff_id s')).
Proof.
  intros Ht. unfold __connman_timeserver_sync. destruct service as [x|]; [|apply returns_skip; by auto].
  eapply returns_step; [done|].
  assert (Hr : returns (ts_reset e x) s (fun _ s' _ => tinv None s' /\
    (ts_backoff_id s' = ts_backoff_id s \/ ts_backoff_id s' = 0 \/ next_source s <= ts_backoff_id s'))).
  { destruct (resolv s) eqn:E.
    - eapply returns_conseq; [by apply ts_reset_run; [apply Ht|]|]. cbn beta. intros ? s' ? [H1 H2]. split; [done|lia].
    - unfold ts_reset. eapply returns_step; [done|]. rewrite E. apply returns_skip. by auto. }
  destruct reason; case_bool_decide; try exact Hr; apply returns_skip; by auto.
Qed.

Lemma recheck_run s : tinv None s -> returns (ts_recheck e) s (fun _ s' _ => tinv None s' /\
  (ts_backoff_id s' = ts_backoff_id s \/ ts_backoff_id s' = 0 \/ next_source s <= ts_backoff_id s')).
Proof.
  intros Ht. unfold ts_recheck. destruct (get_all e (default_service e)) as [|y l]; [apply returns_ret; by auto|].
  eapply returns_step; [done|]. case_bool_decide; [apply returns_ret; by auto|].
  eapply returns_bind; [by apply sync_run|]. cbn beta. intros ? s' ? ?. by apply returns_ret.
Qed.

Lemma ts_timer_run id s : tinv None s -> (sources s !! id = Some timeserver_sync_restart_cb -> NtpProps.works (ntp_env e)) ->
  returns (timer e id) s (fun _ s' _ => tinv None s').
Proof.
  intros Ht Hw. pose proof (tb_sources _ _ (ti_base _ _ Ht)) as Hs. unfold timer. eapply returns_step; [done|].
  destruct (sources s !! id) as [[]|] eqn:Es; [| |by apply returns_skip].
  - pose proof (so_ids _ Hs id (mk_is_Some _ _ Es)) as Hid.
    assert (Hne : ts_backoff_id s <> id) by (intros E; pose proof (so_backoff _ Hs); rewrite E in *; specialize (H ltac:(lia)); congruence).
    eapply returns_bind; [by apply recheck_run|]. cbn beta. intros [] s' ? [H1 H2]; [by apply returns_skip|].
    eexists _, _, _. split; [done|]. apply timer_dropped_inv; [done|lia].
  - eapply returns_bind; [by apply (restart_run id); [|apply Hw|]|]. cbn beta. intros ? s' ? H. by eexists _, _, _.
Qed.

(** ** Start and stop *)

Lemma tbase_resolver s : tbase None s -> tbase None (set_resolv true (set_pending None s)).
Proof.
  intros [Hi [] Hl Hsv Hq]. split; [done|by split|by intros ? [=]| |done]. intros Hne. by destruct (Hsv Hne).
Qed.

Lemma default_run service s : tinv None s -> (forall x, service = Some x -> ts_service s <> Some x) ->
  returns (default_changed e service) s (fun _ s' _ => tinv None s').
Proof.
  intros Ht Hx. pose proof (ti_base _ _ Ht) as Hb. unfold default_changed. destruct service as [x|].
  - unfold timeserver_start. unfold ts_setup_resolv. destruct (service_index e x <? 0); [eapply returns_step; [done|]; by apply returns_skip|].
    eapply returns_step; [done|]. cbn [negb]. pose proof (tbase_resolver s Hb) as Hb1. set (s1 := set_resolv true _) in *.
    eapply returns_step; [apply nameservers_run; [done|apply (tb_lookup _ _ Hb1)]|].
    unfold __connman_timeserver_sync. eapply returns_step; [done|]. rewrite bool_decide_eq_false_2 by (cbn; by apply Hx).
    eapply returns_conseq; [by apply ts_reset_run|]. by intros ? s' ? [? _].
  - unfold timeserver_stop. do 5 (eapply returns_step; [done|]). cbn [set_ts_list]. set (s1 := set_ts_list _ _).
    eapply returns_step; [apply (stop_ts None); apply (tb_ntp _ _ Hb)|].
    destruct (NtpProps.stop_inv None (ntp s) (tb_ntp _ _ Hb)) as (Hi1 & Hn1 & _).
    eapply returns_conseq; [apply recheck_disable_run|].
    + destruct (tb_sources _ _ Hb). by split.
    + cbn. intros E. destruct (timeservers_list s) eqn:El; [by apply (tb_quiet _ _ Hb)|]. destruct (tb_servers _ _ Hb); [congruence|lia].
    + cbn beta. intros ? s2 ? (m & c & -> & Hs2). split; [|done|done]. by split.
Qed.

Lemma maybe_reset x s : tinv None s -> returns (ts_reset e x) s (fun _ s' _ => tinv None s').
Proof.
  intros Ht. destruct (resolv s) eqn:E.
  - eapply returns_conseq; [by apply ts_reset_run; [apply Ht|]|]. by intros ? s' ? [? _].
  - unfold ts_reset. eapply returns_step; [done|]. rewrite E. by apply returns_skip.
Qed.

End sync.

(** ** Everything that happens *)

Inductive event :=
| Ntp_timer (id : Z)
| Ntp_input (id : Z) (error : bool) (buf : list Z) (received : Z) (sender : option (Ntp.family * list Z)) (tv : option Ntp.timeval)
| Timer (id : Z)
| Resolved (success : bool) (results : list text)
| Default_changed (service : option Z)
| Sync (service : option Z) (reason : sync_reason)
| Conf_update (service : option Z)
| System_set.

Definition handle (e : env) (ev : event) : M unit :=
  match ev with
  | Ntp_timer id => ntp_timer e id
  | Ntp_input id error buf received sender tv => ntp_data e id error buf received sender tv
  | Timer id => timer e id
  | Resolved success results => resolved e success results
  | Default_changed service => default_changed e service
  | Sync service reason => __connman_timeserver_sync e service reason
  | Conf_update service => __connman_timeserver_conf_update e service
  | System_set => __connman_timeserver_system_set e
  end.

(** The interval a server asks for can be computed, requests can be sent when the list is tried again, and the default service
    changes to another one than the servers are from. *)
Definition event_ok (e : env) (s : state) (ev : event) : Prop := env_ok e /\
  match ev with
  | Ntp_input _ _ buf _ _ _ => Ntp.transmit_delay (Ntp.msg_poll buf) <> None
  | Timer id => sources s !! id = Some timeserver_sync_restart_cb -> NtpProps.works (ntp_env e)
  | Default_changed service => forall x, service = Some x -> ts_service s <> Some x
  | _ => True
  end.

Inductive reachable : state -> Prop :=
| r_start : reachable start
| r_step e ev s s' o : reachable s -> event_ok e s ev -> handle e ev s = Some (tt, s', o) -> reachable s'.

Lemma ts_handle_run e ev s : tinv None s -> event_ok e s ev -> returns (handle e ev) s (fun _ s' _ => tinv None s').
Proof.
  intros Ht [He Hok]. destruct ev; cbn [handle].
  - by apply ntp_timer_run.
  - by apply ntp_data_run.
  - by apply ts_timer_run.
  - by apply resolved_run.
  - by apply default_run.
  - eapply returns_conseq; [by apply sync_run|]. by intros ? s' ? [? _].
  - unfold __connman_timeserver_conf_update. destruct service as [x|]; [|by apply returns_skip]. eapply returns_step; [done|].
    destruct (_ && _); [by apply returns_skip|by apply maybe_reset].
  - unfold __connman_timeserver_system_set. destruct (default_service e); [by apply maybe_reset|by apply returns_skip].
Qed.

Lemma start_tinv : tinv None start.
Proof.
  split; [|done|done]. split; [| |done|done|done].
  - split; cbn [ntp start Ntp.ntp Ntp.sources Ntp.next_source]; try done; intros id; rewrite lookup_empty; [intros _|]; by intros [? ?].
  - split; cbn [sources start ts_backoff_id next_source]; [by intros id; rewrite lookup_empty|done| |lia].
    intros id. rewrite lookup_empty. by intros [? ?].
Qed.

Lemma reachable_tinv s : reachable s -> tinv None s.
Proof.
  induction 1 as [|e ev s s' o _ Ht Hok E]; [apply start_tinv|]. destruct (ts_handle_run e ev s Ht Hok) as ([] & s2 & o2 & E2 & H2). congruence.
Qed.

(** A timer will ask the server again. *)
Definition asked_again (s : state) : Prop :=
  exists id src, Ntp.sources (ntp s) !! id = Some src /\ Ntp.s_cb src <> Ntp.received_data_cb.

Definition tried_again (s : state) : Prop := exists id, sources s !! id = Some timeserver_sync_restart_cb.

(** At least one of three, and no two of them. *)
Definition one_of (p q r : Prop) : Prop := (p \/ q \/ r) /\ ~ (p /\ q) /\ ~ (p /\ r) /\ ~ (q /\ r).

#[local] Instance one_of_proper : Proper (iff ==> iff ==> iff ==> iff) one_of.
Proof. intros p p' Hp q q' Hq r r' Hr. unfold one_of. by rewrite Hp, Hq, Hr. Qed.

Lemma asked_alt s : tinv None s -> asked_again s <-> Ntp.ntp (ntp s) <> None.
Proof.
  intros Ht. pose proof (tb_ntp _ _ (ti_base _ _ Ht)) as Hi. split.
  - intros (id & src & Hs & _). destruct (source_server s id src Ht Hs) as (d & Hd & _). congruence.
  - intros Hn. destruct (Ntp.ntp (ntp s)) as [d|] eqn:Ed; [|done].
    assert (Hne : timeservers_list s <> []) by (intros E; destruct (ti_idle _ _ Ht E); congruence).
    destruct (ti_busy _ _ Ht Hne) as [(d' & Ed' & (_ & Hx) & _)|[[? _]|[? _]]]; [|congruence..]. assert (d' = d) as -> by congruence.
    destruct (decide (Ntp.timeout_id d = 0)) as [E|E].
    + destruct (NtpProps.n_field _ _ Hi d Ntp.next_poll_cb Ed) as (src & Hs & Ec & _); [cbn; tauto|]. exists (Ntp.poll_id d), src. by rewrite Ec.
    + destruct (NtpProps.n_field _ _ Hi d Ntp.send_timeout_cb Ed) as (src & Hs & Ec & _); [done|]. exists (Ntp.timeout_id d), src. by rewrite Ec.
Qed.

Lemma tried_alt s : tinv None s -> tried_again s <-> ts_backoff_id s <> 0.
Proof.
  intros Ht. pose proof (tb_sources _ _ (ti_base _ _ Ht)) as Hs. split.
  - intros (id & Hid). rewrite (so_restart _ Hs id Hid). pose proof (so_ids _ Hs id (mk_is_Some _ _ Hid)). lia.
  - intros Hz. by exists (ts_backoff_id s); apply (so_backoff _ Hs).
Qed.

(** C14: Whatever the services, the servers, the resolver and the timers do, as long as names can be looked up, requests can be
    sent when the list is tried again, no socket has the number 0, the default service does not change to the one whose servers are in
    use, and no server sends an exponent for its poll interval that cannot be converted ([NtpProps.poll_not_bounded]: 32 and more, or
    less than -62): no handler follows a
    pointer to freed memory or a null pointer; while there are time servers, exactly one of three things is the case, a timer will ask
    the server in use again, the name of one is being looked up, or a timer will try the list again; and without time servers nothing is left
    of them. *)
Theorem synchronization_goes_on s : reachable s ->
  (timeservers_list s <> [] -> one_of (asked_again s) (lookup_pending s <> None) (tried_again s)) /\
  (timeservers_list s = [] -> ~ asked_again s /\ lookup_pending s = None /\ ~ tried_again s) /\
  (forall e ev, event_ok e s ev -> is_Some (handle e ev s)).
Proof.
  intros Ht%reachable_tinv. rewrite (asked_alt s Ht), (tried_alt s Ht). split; [|split].
  - intros Hne. destruct (ti_busy _ _ Ht Hne) as [(d & E1 & _ & E2 & E3)|[(E1 & E2 & E3)|(E1 & E2 & E3)]]; 
      rewrite E1, ?E2, ?E3; unfold one_of; [|tauto..]. assert (Some d <> None) by done. tauto.
  - intros E. destruct (ti_idle _ _ Ht E) as (E1 & E2 & E3). rewrite E1, E2, E3. tauto.
  - intros e ev Hok. destruct (ts_handle_run e ev s Ht Hok) as (a & s' & o & E & _). by rewrite E.
Qed.

(** ** Examples *)

(** "1", an address, and "a", a name. *)
Definition demo_servers (service : option Z) : list text :=
  match service with Some 1 => [[97]] | Some 2 => [[49]] | Some 4 => [] | _ => [[49]; [97]] end.

Definition demo_env (sends : bool) : env :=
  mk_env (Ntp.mk_env (Ntp.mk_tv 0 0) (Ntp.mk_ts 0 0) sends true
            (fun x => if bool_decide (x = [49]) then Some (Ntp.AF_INET, [49; 49; 49; 49]) else None) (fun _ => Some 5))
         (fun _ => inr 1) false demo_servers (fun _ => []) (fun _ => None) [] [] (fun x => x) (Some 3).

Fixpoint demo_run (l : list (env * event)) (s : state) : option state :=
  match l with
  | [] => Some s
  | (e, ev) :: l => match handle e ev s with Some (_, s', _) => demo_run l s' | None => None end
  end.

Definition demo : state := match demo_run [(demo_env true, Default_changed (Some 3))] start with Some s => s | None => start end.

Lemma demo_servers_ok sends : env_ok (demo_env sends).
Proof. split; [done|]. intros x. by exists 1. Qed.

Lemma synchronization_goes_on_witness : one_of (asked_again demo) (lookup_pending demo <> None) (tried_again demo) /\ Ntp.ntp (ntp demo) <> None.
Proof.
  split; [|by vm_compute]. assert (Hr : reachable demo).
  { eapply (r_step (demo_env true) (Default_changed (Some 3)) start); [constructor| |vm_compute; reflexivity].
    split; [apply demo_servers_ok|]. intros x [= <-]. by cbn. }
  apply (synchronization_goes_on demo Hr). by vm_compute.
Defined.

Lemma timeservers_in_order_witness : get_all (demo_env true) (Some 3) = [[49]; [97]] /\ [97] ∈ get_all (demo_env true) (Some 3).
Proof.
  destruct (timeservers_in_order (demo_env true) (Some 3)) as (E & _ & Hin). split; [by rewrite E|].
  apply (Hin eq_refl). apply list_elem_of_In. cbn. tauto.
Defined.

(** A list of addresses to which nothing can be sent is tried again, and fails again: the second timer is not noted, so it is left when the
    service goes, and the lookup it cancels is one of a resolver that is gone. *)
Example restart_timer_left : demo_run [(demo_env true, Default_changed (Some 1)); (demo_env false, Default_changed (Some 2));
    (demo_env false, Timer 3); (demo_env false, Default_changed None)] start
  ≫= (fun s => Some (ts_backoff_id s, map_to_list (sources s), resolv s)) = Some (0, [(4, timeserver_sync_restart_cb)], false) /\
  demo_run [(demo_env true, Default_changed (Some 1)); (demo_env false, Default_changed (Some 2));
    (demo_env false, Timer 3); (demo_env false, Default_changed None); (demo_env false, Timer 4)] start = None.
Proof. split; by vm_compute. Qed.

(** A name that the resolver does not accept is not given up: nothing goes on. *)
Example refused_lookup_stalls :
  let e := mk_env (ntp_env (demo_env true)) (fun _ => inl (-5)) false demo_servers (fun _ => []) (fun _ => None) [] [] (fun x => x) (Some 1) in
  demo_run [(e, Default_changed (Some 1))] start
    ≫= (fun s => Some (timeservers_list s, Ntp.ntp (ntp s), lookup_pending s, map_to_list (sources s)))
  = Some ([[97]], None, None, [(1, ts_recheck_cb)]).
Proof. by vm_compute. Qed.

(** A service without an interface becomes the default service, and then the one whose servers are in use again: its lookup is
    gone with the resolver. *)
Example same_service_stalls :
  demo_run [(demo_env true, Default_changed (Some 1)); (demo_env true, Default_changed (Some (-1))); (demo_env true, Default_changed (Some 1))] start
    ≫= (fun s => Some (timeservers_list s, Ntp.ntp (ntp s), lookup_pending s, map_to_list (sources s)))
  = Some ([[97]], None, None, [(1, ts_recheck_cb)]).
Proof. by vm_compute. Qed.

(** A service without time servers becomes the default service, and then the one before it again: the one before it is not asked for its
    servers. *)
Example service_without_servers :
  demo_run [(demo_env true, Default_changed (Some 1)); (demo_env true, Default_changed (Some 4)); (demo_env true, Default_changed (Some 1))] start
    ≫= (fun s => Some (ts_service s, timeservers_list s, lookup_pending s)) = Some (Some 1, [], None) /\
  get_all (demo_env true) (Some 1) = [[97]].
Proof. split; by vm_compute. Qed.

(** The check for a better server finds one, of another service than the one in use: it is not used, and there are no more checks. *)
Example recheck_ends :
  demo_run [(demo_env true, Default_changed (Some 1)); (demo_env true, Timer 1)] start
    ≫= (fun s => Some (ts_current s, ts_recheck_id s, map_to_list (sources s))) = Some (Some [97], 1, []).
Proof. by vm_compute. Qed.

End TimeserverProps.
